(* ===== verification/_CoqProject ===== *)
-Q . S2P
Prelude.v
Memory.v
Logic.v
Format.v
Errors.v
Results.v
Basics.v
Strings.v
Buffers.v
Pool.v
AsyncTransfer.v
AsyncPipe.v
LinuxOS.v
ErrnoLinux.v
UdevLinux.v
DeviceLinux.v
ListLinux.v
UsbfdLinux.v
InterfaceLinux.v
HandleLinux.v
SerialPortLinux.v
TransferLinux.v
AsyncPipeLinux.v
ErrorHresult.v
MacOS.v
ErrorMac.v
IokitMac.v
DeviceMac.v
ListMac.v
InterfaceMac.v
SerialPortMac.v
HandleMac.v
TransferMac.v
AsyncPipeMac.v
MultiSz.v
Sscanf.v
WindowsOS.v
ErrorWindows.v
SetupWindows.v
InstanceIdWindows.v
DeviceWindows.v
ListWindows.v
NodeWindows.v
InterfaceWindows.v
SerialPortWindows.v
HandleWindows.v
TransferWindows.v
AsyncPipeWindows.v
Api.v
FindDevice.v
Cpp.v
Wrapper.v
ApiLinux.v
ApiMac.v
ApiWindows.v
Examples.v
ExampleLsusb.v
ExampleLsport.v
ExamplePortName.v
ExampleAsyncIn.v
Ownership.v
InstallHelper.v
