(* ===== verification/Prelude.v ===== *)
(** * A verification library for libusbp

    libusbp is a C library for talking to USB devices: it lists the connected
    devices, finds the serial ports and the vendor-specific ("generic")
    interfaces of a device, and makes control, bulk, interrupt and asynchronous
    transfers.  This library models the platform independent core
    (src/src/*.c), the Linux backend (src/src/linux), the macOS backend
    (src/src/mac), the Windows backend (src/src/windows), the C++ API on top of them
    (src/include/libusbp.hpp), the example programs (src/examples) and the install
    helper (src/install_helper) as they are written and proves what they promise.

    ** How the C code is modelled

    The embedding is shallow.  A C function is a function into the monad [M] of
    Memory.v, which threads a heap of blocks (a struct, a character buffer, an
    array of pointers or words), the outcomes of the allocations to come, the
    history of system calls, and [errno].  Undefined behaviour - a NULL or
    dangling pointer, a double [free], an uninitialised read, an access out of
    bounds - as well as a failed [assert] and running out of fuel are the
    outcome [Stuck]; every theorem below therefore says, besides what it states,
    that none of this happens.  Machine integers are [Z] with the wrap-around
    written out ([to_size], [to_u32], [to_int]).

    Output parameters are results: [option A], where [None] means that the
    parameter was NULL (or not stored to) and a [bool] argument says whether the
    caller passed it.  A chain of [if (error == NULL)] is [if_ok] or
    [then_check].  A variadic format of error.c is given as the text it renders
    to, built with the conversions of Format.v.

    The specifications are triples [{{ P }} m @ x {{ r x', Q }}] of the linear
    separation logic of Logic.v ([x] is the external state).  They are total:
    the program returns.  They hold for every pattern of failing allocations.
    The logic being linear, a triple also accounts for every block: what is not in
    the postcondition was freed, so there are no leaks beyond those that a
    postcondition names.

    ** The files

    Prelude    machine integers, strings, tactics and hints.
    Memory     memory, external state, monad; the C structs.
    Logic      hProp, its instance of the Iris proof mode, [wp] and its rules.
    Format     the printf and scanf conversions that the library uses.
    Errors     error.c.  [err_own p a]: [p] points to an error object with the
               messages and codes of the abstract error [a]; every operation
               refines its counterpart on [aerr].
    Results    specifications of fallible operations as programs ([Spec]), the
               relation [returns] between those and the C result, and refinement
               between specifications ([refines]).
    Basics     string.c, pipe_id.c, list.c; devices enter through a type class.
    Strings    strings that objects own, that may be missing, or that getters store.
    Buffers    buffers of the application, [memcpy], optional outputs.
    Pool       the transfers of a handle and the invariant that those the system
               has are exactly those that call themselves pending; shared by the
               backends.
    AsyncTransfer  the interface between pipes and transfers (the prototypes in
               libusbp_internal.h) as the class [AsyncTransfers] and what a
               platform promises as [AsyncTransferLaws].
    AsyncPipe  async_in_pipe.c against that interface: the ring of transfers,
               the abstract queue it implements and a client.
    LinuxOS    the kernel and libudev as the class [LinuxOS] (arbitrary answers
               that may depend on the whole history), their documented
               behaviour [LinuxLaws], and a concrete instance, the
               example machine on which the witnesses run.
    ErrnoLinux      linux/error_linux.c
    UdevLinux       linux/udev_linux.c
    DeviceLinux     linux/device_linux.c
    ListLinux       linux/list_linux.c
    UsbfdLinux      linux/usbfd_linux.c
    InterfaceLinux  linux/generic_interface_linux.c
    HandleLinux     linux/generic_handle_linux.c
    SerialPortLinux linux/serial_port_linux.c
    TransferLinux   linux/async_in_transfer_linux.c and the event loop of
                    generic_handle_linux.c
    AsyncPipeLinux  the instance of [AsyncTransferLaws] for Linux.
    MacOS      IOKit, Core Foundation and Mach messages as the class [MacOS], their
               documented behaviour [MacLaws], and an example machine.  An
               io_service_t is a reference to a registry entry; every object that
               has to be released is a block of the heap.
    ErrorHresult    error_hresult.c, for macOS and Windows
    ErrorMac        mac/error_mac.c
    IokitMac        mac/iokit_mac.c
    DeviceMac       mac/device_mac.c
    ListMac         mac/list_mac.c
    InterfaceMac    mac/generic_interface_mac.c
    SerialPortMac   mac/serial_port_mac.c
    HandleMac       mac/generic_handle_mac.c without its event loop
    TransferMac     mac/async_in_transfer_mac.c and that event loop
    AsyncPipeMac    the instance of [AsyncTransferLaws] for macOS, so that the theorems
                    about pipes hold there too.
    MultiSz    lists of strings in the registry (REG_MULTI_SZ) and capital letters.
    Sscanf     formats of sscanf with several conversions, and what the C standard says the
               conversion of a hexadecimal number is.
    WindowsOS  SetupAPI, the configuration manager, the registry and WinUSB as the
               class [WindowsOS], their documented behaviour [WindowsLaws], what Windows
               does not promise ([PropertiesStable], [ServicesTerminated],
               [GuidsTerminated], [PortNamesTerminated]), and an example machine.  A device information set, a registry key, a file, a
               WinUSB handle and an event are blocks that have to be closed; the last
               error of Windows is the [errno] of the model.
    ErrorWindows      windows/error_windows.c
    SetupWindows      walking over a device information set: shared rules, and searches
                      as specifications
    InstanceIdWindows windows/device_instance_id_windows.c
    DeviceWindows     windows/device_windows.c
    ListWindows       windows/list_windows.c
    NodeWindows       windows/interface_windows.c
    InterfaceWindows  windows/generic_interface_windows.c
    SerialPortWindows windows/serial_port_windows.c
    HandleWindows     windows/generic_handle_windows.c
    TransferWindows   windows/async_in_transfer_windows.c
    AsyncPipeWindows  the instance of [AsyncTransferLaws] for Windows.
    Api        the functions of libusbp.h as the classes [DeviceApi], [SerialPortApi],
               [GenericInterfaceApi] and [GenericHandleApi], and what a platform promises of
               devices, their list and serial ports as [DeviceLaws] and [SerialPortLaws].
    FindDevice find_device.c against that interface.
    Cpp        the C++ that libusbp.hpp and the programs are written in: the monad [X] of
               code that can throw, destructors that run on every way out, std::string
               and the format flags of streams.
    Wrapper    include/libusbp.hpp.  An object of a wrapper class is a reference [ref] to
               the place that holds its pointer, so that aliasing is visible.
    ApiLinux, ApiMac, ApiWindows
               the instances of the classes of Api for the three platforms.
    Examples   what the example programs share.
    ExampleLsusb, ExampleLsport, ExamplePortName, ExampleAsyncIn
               the programs lsusb, lsport, port_name and async_in.
    Ownership  programs over variables of a class of libusbp.hpp, and the values that
               the variables hold.
    InstallHelper  install_helper/install_helper_windows.c.

    Definitions have the names of the C functions.  A name with the suffix
    [_loop] is a loop of the function, [_rest] the part of a function after a
    point, and the resources that own a C object are called [..._own].

    ** What the theorems show

    Each property has a doc comment that starts with its number (C1, C2, ...).

    - Asynchronous pipes: whatever an application calls, the pipe is the queue it
      means to be: transfers are submitted round robin and handed out in
      submission order with their bytes; the endless mode keeps all transfers
      in flight; cancelling ends resubmission; allocation is atomic; closing
      frees everything except transfers that are still pending; misuse is
      reported (AsyncPipe.v).
    - Asynchronous transfers on Linux: the event loop terminates, finishes exactly
      the transfers that the kernel completed and only once; the bytes,
      length and error handed out are those of the kernel, within the bounds of
      both buffers; a pending transfer is never freed (TransferLinux.v).
    - Handles: opening succeeds only for the device that the interface object
      describes and leaks nothing otherwise; reads, writes and control transfers
      make exactly one system call with the right arguments and timeout, and
      rejected arguments make none (HandleLinux.v).
    - Devices, interfaces and serial ports: creation reads sysfs as specified;
      listing skips exactly the devices that cannot be examined; finding picks the
      first match; copies are deep (DeviceLinux.v, ListLinux.v, InterfaceLinux.v,
      SerialPortLinux.v).
    - macOS: opening a handle numbers the pipes of the interface, and a transfer uses
      the number and the last timeout of its endpoint; the event loop receives every
      message, finishes each transfer once and terminates; interfaces are
      found by their number; the walk over the registry attributes a serial port
      to the interface that the entries before it tell; listing skips what cannot be examined (HandleMac.v,
      TransferMac.v, InterfaceMac.v, SerialPortMac.v, ListMac.v).
    - Windows: the transfers that WinUSB still has are exactly those that are marked
      pending, and a finished one delivers its bytes within its bounds, whatever length
      is reported; opening a handle leaves nothing open when it fails, and closing
      it nothing at all; reads make one call or none; interfaces and serial ports
      are found below the right device, the latter with the workaround for FTDI devices;
      the numbers of a device survive the way through its hardware IDs; listing skips
      what cannot be examined (TransferWindows.v, HandleWindows.v, InterfaceWindows.v,
      SerialPortWindows.v, DeviceWindows.v, ListWindows.v).
    - The C++ API: the classes device and serial_port have value semantics under
      construction, copy, move, assignment (also to itself), reset and destruction, in any
      sequence: nothing is freed twice or lost, and only copying throws (Ownership.v).
    - The example programs, from [main] down to the system calls, on all three platforms,
      under the assumptions below:
      lsusb and lsport print what the system says about the devices, in order, and return
      0, or print the error and return 1 (ExampleLsusb.v, ExampleLsport.v,
      ExamplePortName.v); finding a device is right on all three as well (FindDevice.v).
      async_in prints a transfer as one line of hexadecimal bytes, and an example
      machine runs the whole of it, unplugging included (ExampleAsyncIn.v).
    - The install helper never stops an installation, closes its records, and reports
      exactly the failures, with their codes as far as the message is not cut off
      (InstallHelper.v).
    - Errors: the byte-level assembly of messages and codes refines adding to an
      abstract error, copies are deep, [errno] values get the documented codes
      (Errors.v, ErrnoLinux.v).

    ** Assumptions that no system makes true

    The classes [LinuxLaws], [MacLaws], [WindowsLaws] and [InstallerLaws] state documented
    behaviour.  What the code relies on beyond that is kept apart, and a theorem that
    needs it has it as a hypothesis:

    - [PropertiesStable] (WindowsOS.v): a property of a Windows device does not change
      between the call for its size and the call for its data.  Listing devices needs it,
      and with it the programs on Windows.
    - [ServicesTerminated], [GuidsTerminated], [PortNamesTerminated] (WindowsOS.v): strings
      in the registry end with a zero.  Creating a generic interface needs the first two,
      creating a serial port the third, and with it lsport and port_name on Windows.
      [SerialPortWindows.unterminated_port_name] shows what happens otherwise.
    - [MacPortsNamed] (ApiMac.v): a serial port of macOS has a call-out device.  The
      programs that print port names need it; [SerialPortMac.serial_port_without_name] is a
      run without it.

    ** Fuel

    Loops over arrays and lists recurse on the number of elements.  The
    [while (true)] of generic_handle_events gets one more round than there are
    URBs in the kernel, which is proved to be enough, and the
    [while] of libusbp_async_in_pipe_start_endless_transfers the number of idle
    transfers.  On macOS the event loop gets one more round than there are
    outstanding reads, and a loop over an io_iterator_t one more than the iterator has
    entries.  On Windows a loop over a device information set gets one more round than
    the set has nodes, the search through several sets one more than there are sets, and
    libusbp_serial_port_create calls itself at most once, so its fuel is 2.  Running out of fuel would be [Stuck].
    The loop of print_data has the 256 rounds of its index; the endless loop of async_in is
    followed for any number of steps, and the model stops there.

    ** Not modelled

    - The tests and the firmware of the device that they use.
    - Of C++: the storage of a std::string is only an allocation that can fail, a reference
      count of exceptions is not kept ([throw;] throws the same object again), and the
      [size_t] that handle_finished_transfer stores is not seen when it throws.
    - Output under LIBUSBP_LOG; threads (an object is used by one thread at a
      time, as the library's documentation asks).
    - The kernel writes to the buffer of a URB, or of an overlapped read, when it
      is reaped, not before: code that respects the [pending] flag cannot tell the difference. *)

From stdpp Require Export base gmap list strings.
From Stdlib Require Export ZArith Lia Ascii String.

#[global] Open Scope Z_scope.

Declare Scope c_scope.
Delimit Scope c_scope with C.

(** ** Machine integers

    The widths the C code uses, on an LP64 target: [uint8_t], [uint16_t],
    [uint32_t], [int] and the 64-bit [size_t].  Windows is LLP64: its [ULONG] and
    [DWORD] have 32 bits and are written with [to_u32]. *)

Definition wrap (bits n : Z) : Z := n mod 2 ^ bits.
Definition to_u8 : Z → Z := wrap 8.
Definition to_u16 : Z → Z := wrap 16.
Definition to_u32 : Z → Z := wrap 32.
Definition to_size : Z → Z := wrap 64.

(** Conversion to a two's complement [int]. *)
Definition to_int (n : Z) : Z :=
  let u := wrap 32 n in if bool_decide (u < 2 ^ 31) then u else u - 2 ^ 32.

Definition INT_MAX : Z := 2147483647.
Definition UINT_MAX : Z := 4294967295.
Definition UINT32_MAX : Z := 4294967295.
Definition SIZE_MAX : Z := 18446744073709551615.

(** The largest block [malloc] hands out ([PTRDIFF_MAX] in glibc). *)
Definition PTRDIFF_MAX : Z := 9223372036854775807.

Definition u8 (n : Z) : Prop := 0 ≤ n < 2 ^ 8.
Definition u16 (n : Z) : Prop := 0 ≤ n < 2 ^ 16.
Definition u32 (n : Z) : Prop := 0 ≤ n < 2 ^ 32.
Definition int_range (n : Z) : Prop := - 2 ^ 31 ≤ n < 2 ^ 31.

Lemma wrap_range b n : 0 ≤ b → 0 ≤ wrap b n < 2 ^ b.
Proof. intros. apply Z.mod_pos_bound. by apply Z.pow_pos_nonneg. Qed.

Lemma wrap_id b n : 0 ≤ n < 2 ^ b → wrap b n = n.
Proof. intros. by apply Z.mod_small. Qed.

Lemma to_size_id n : 0 ≤ n ≤ SIZE_MAX → to_size n = n.
Proof. intros. apply wrap_id. unfold SIZE_MAX in *. lia. Qed.

Lemma to_int_id n : int_range n → to_int n = n.
Proof.
  unfold int_range, to_int, wrap. intros [H1 H2].
  case_bool_decide as Hb.
  - destruct (decide (0 ≤ n)); [rewrite Z.mod_small in Hb |- *; lia |].
    rewrite <- (Z.mod_unique n (2 ^ 32) (-1) (n + 2 ^ 32)) in Hb; lia.
  - destruct (decide (0 ≤ n)); [rewrite Z.mod_small in Hb; lia |].
    rewrite <- (Z.mod_unique n (2 ^ 32) (-1) (n + 2 ^ 32)) in Hb |- *; lia.
Qed.

(** ** Strings *)

(** A C string holds no NUL. *)
Definition nul : ascii := Ascii.zero.

Fixpoint no_nul (s : string) : bool :=
  match s with
  | "" => true
  | String c s => negb (bool_decide (c = nul)) && no_nul s
  end%string.

(** What a C function sees of a string: everything before the first NUL. *)
Fixpoint until_nul (s : string) : string :=
  match s with
  | "" => ""
  | String c s => if bool_decide (c = nul) then "" else String c (until_nul s)
  end%string.

Definition slen (s : string) : Z := Z.of_nat (String.length s).

Lemma slen_nonneg s : 0 ≤ slen s.
Proof. unfold slen. lia. Qed.

Lemma until_nul_no_nul s : no_nul (until_nul s) = true.
Proof. induction s as [|c s IH]; cbn; [done|]. case_bool_decide; cbn; [done|]. by rewrite bool_decide_false. Qed.

Lemma until_nul_id s : no_nul s = true → until_nul s = s.
Proof.
  induction s as [|c s IH]; cbn; [done|].
  case_bool_decide; cbn; [done|]. intros. by rewrite IH.
Qed.

Lemma no_nul_app s t : no_nul (s +:+ t) = no_nul s && no_nul t.
Proof.
  induction s as [|c s IH]; [done|].
  change (String c s +:+ t) with (String c (s +:+ t)). cbn. rewrite IH.
  by destruct (bool_decide _).
Qed.

Lemma slen_app s t : slen (s +:+ t) = slen s + slen t.
Proof.
  unfold slen. induction s as [|c s IH]; [done|].
  change (String c s +:+ t) with (String c (s +:+ t)). cbn [String.length]. lia.
Qed.

Lemma list_ascii_app s t :
  String.list_ascii_of_string (s +:+ t) =
  String.list_ascii_of_string s ++ String.list_ascii_of_string t.
Proof.
  induction s as [|c s IH]; [done|].
  change (String c s +:+ t) with (String c (s +:+ t)). cbn. by rewrite IH.
Qed.

Lemma length_list_ascii s :
  List.length (String.list_ascii_of_string s) = String.length s.
Proof. induction s; cbn; auto. Qed.

Lemma app_empty_r s : s +:+ "" = s.
Proof.
  induction s as [|c s IH]; [done|].
  change (String c s +:+ "") with (String c (s +:+ "")). by rewrite IH.
Qed.

(** ** Bytes, case by case *)

(** A decidable statement about bytes holds when it holds of the 256 of them. *)
Lemma u8_forall (P : Z → bool) :
  forallb P (seqZ 0 256) = true → ∀ n, u8 n → P n = true.
Proof.
  rewrite forallb_forall. intros H n [H1 H2]. apply H.
  apply list_elem_of_In, elem_of_seqZ. lia.
Qed.
