(* ===== verification/Memory.v ===== *)
(** * Memory: the C memory, the world and the effect monad

    A shallow embedding of the C the library is written in.  A computation is a
    function on a [world]: the live blocks, the outcomes still to be given to
    allocations, and the external state (the history of system calls, [errno]
    and a count of the allocations that failed).  Undefined behaviour, a failed
    [assert] and running out of fuel are the value [Stuck]; everything else
    returns.  The structs of src/src/error.c, src/src/linux, src/src/mac and
    src/src/windows are records here, and a block of memory holds one of them, a character buffer, an
    array of [uint32_t] or an array of pointers. *)

From S2P Require Import Prelude.

(** ** Pointers

    [Heap l] points to the start of a live or freed block, [Static] to one of
    the static objects of error.c, [Lit] to a string literal, [Owned l s]
    to a string that belongs to the external object [l] (a libudev device) and
    dies with it, [ParentOf l id] to the device [id] that the libudev device [l]
    keeps a reference to. *)

Definition loc := positive.

Inductive static_object :=
  | error_no_memory
  | error_masked_by_no_memory
  | error_blank
  | mem_error_code_array.

Inductive ptr :=
  | NULL
  | Heap (l : loc)
  | Static (s : static_object)
  | Lit (s : string)
  | Owned (l : loc) (s : string)
  | ParentOf (l : loc) (id : Z).

#[export] Instance static_object_eq_dec : EqDecision static_object.
Proof. solve_decision. Defined.
#[export] Instance ptr_eq_dec : EqDecision ptr.
Proof. solve_decision. Defined.

Definition is_null (p : ptr) : bool := match p with NULL => true | _ => false end.

(** ** Structs *)

Record libusbp_error := {
  do_not_free : bool;
  message : ptr;
  code_count : Z;
  code_array : ptr
}.

Record libusbp_device := {
  dev_syspath : ptr;
  dev_serial_number : ptr;
  dev_product_id : Z;
  dev_vendor_id : Z;
  dev_revision : Z
}.

Record libusbp_generic_interface := {
  gi_device : ptr;
  gi_interface_number : Z;
  gi_syspath : ptr;
  gi_filename : ptr
}.

Record libusbp_generic_handle := {
  gh_device : ptr;
  gh_fd : Z;
  gh_in_timeout : list Z;
  gh_out_timeout : list Z
}.

Record libusbp_serial_port := {
  sp_syspath : ptr;
  sp_port_name : ptr
}.

(** The fields of the kernel's [struct usbdevfs_urb] that the library reads or
    writes; the others stay zero. *)
Record usbdevfs_urb := {
  urb_type : Z;
  urb_endpoint : Z;
  urb_status : Z;
  urb_buffer : ptr;
  urb_buffer_length : Z;
  urb_actual_length : Z;
  urb_error_count : Z;
  urb_usercontext : ptr
}.

Record async_in_transfer := {
  at_urb : usbdevfs_urb;
  at_pending : bool;
  at_error : ptr;
  at_fd : Z
}.

Record libusbp_async_in_pipe := {
  pipe_handle : ptr;
  pipe_pipe_id : Z;
  pipe_transfer_array : ptr;
  pipe_transfer_size : Z;
  pipe_transfer_count : Z;
  pipe_endless_transfers_enabled : bool;
  pipe_pending_count : Z;
  pipe_next_finish : Z;
  pipe_next_submit : Z
}.

Record libusbp_setup_packet := {
  setup_bmRequestType : Z;
  setup_bRequest : Z;
  setup_wValue : Z;
  setup_wIndex : Z;
  setup_wLength : Z
}.

(** The kernel's argument structs for synchronous transfers. *)
Record usbdevfs_ctrltransfer := {
  ctrl_bRequestType : Z;
  ctrl_bRequest : Z;
  ctrl_wValue : Z;
  ctrl_wIndex : Z;
  ctrl_wLength : Z;
  ctrl_timeout : Z;
  ctrl_data : ptr
}.

Record usbdevfs_bulktransfer := {
  bulk_ep : Z;
  bulk_len : Z;
  bulk_timeout : Z;
  bulk_data : ptr
}.

(** The structs of src/src/mac; the suffix keeps them apart from those of Linux. *)
Record libusbp_device_mac := {
  mdev_id : Z;
  mdev_product_id : Z;
  mdev_vendor_id : Z;
  mdev_revision : Z;
  mdev_serial_number : ptr
}.

Record libusbp_generic_interface_mac := {
  mgi_device_id : Z;
  mgi_interface_number : Z;
  mgi_has_interface_id : bool;
  mgi_interface_id : Z
}.

Record libusbp_generic_handle_mac := {
  mgh_ioh : ptr;
  mgh_plug_in : ptr;
  mgh_async_port : Z;
  mgh_out_timeout : list Z;
  mgh_in_timeout : list Z;
  mgh_out_pipe_index : list Z;
  mgh_in_pipe_index : list Z
}.

Record async_in_transfer_mac := {
  mat_ioh : ptr;
  mat_pipe_index : Z;
  mat_buffer : ptr;
  mat_size : Z;
  mat_pending : bool;
  mat_transferred : Z;
  mat_error : ptr
}.

(** The argument struct of a control request on macOS, without [wLenDone]. *)
Record IOUSBDevRequestTO := {
  req_bmRequestType : Z;
  req_bRequest : Z;
  req_wValue : Z;
  req_wIndex : Z;
  req_wLength : Z;
  req_pData : ptr;
  req_completionTimeout : Z
}.

(** The structs of src/src/windows.  [None] is [INVALID_HANDLE_VALUE]. *)
Definition HANDLE : Type := option ptr.

Record libusbp_device_windows := {
  wdev_device_instance_id : ptr;
  wdev_product_id : Z;
  wdev_vendor_id : Z;
  wdev_revision : Z
}.

Record libusbp_generic_interface_windows := {
  wgi_interface_number : Z;
  wgi_device_instance_id : ptr;
  wgi_filename : ptr
}.

Record libusbp_serial_port_windows := {
  wsp_device_instance_id : ptr;
  wsp_port_name : ptr
}.

Record libusbp_generic_handle_windows := {
  wgh_file_handle : HANDLE;
  wgh_winusb_handle : HANDLE
}.

(** [wat_event] is the event of the [OVERLAPPED]; the rest of it belongs to the
    system. *)
Record async_in_transfer_windows := {
  wat_winusb_handle : HANDLE;
  wat_pipe_id : Z;
  wat_buffer : ptr;
  wat_buffer_size : Z;
  wat_event : HANDLE;
  wat_transferred : Z;
  wat_pending : bool;
  wat_error : ptr
}.

Record WINUSB_SETUP_PACKET := {
  packet_RequestType : Z;
  packet_Request : Z;
  packet_Value : Z;
  packet_Index : Z;
  packet_Length : Z
}.

(** What a device information set is made of. *)
Inductive device_class :=
  | UsbDevices                  (* GUID_DEVINTERFACE_USB_DEVICE *)
  | UsbNodes                    (* everything the enumerator "USB" knows *)
  | ComPorts                    (* GUID_DEVINTERFACE_COMPORT *)
  | Modems                      (* GUID_DEVINTERFACE_MODEM *)
  | WithInterface (guid : Z).

Inductive node_property := HardwareIds | ServiceName.

Inductive pipe_policy := PipeTransferTimeout (timeout : Z) | RawIO (enabled : Z).

(** A Core Foundation object: a string, as ASCII text if it has such a form, a
    number, a matching dictionary, or something else. *)
Inductive cf_value :=
  | CFString (text : option string)
  | CFNumber (n : Z)
  | CFIdMatching (id : Z)
  | CFClassMatching (class : string)
  | CFOther.

(** A filter added to a [udev_enumerate] object. *)
Inductive udev_match :=
  | MatchSubsystem (s : string)
  | MatchParent (id : Z).

(** ** Blocks *)

Inductive obj :=
  | OChars (cs : list (option ascii))    (* char buffer; [None] is uninitialised *)
  | OWords (ws : list (option Z))        (* uint32_t array *)
  | OPtrs (ps : list (option ptr))       (* array of pointers *)
  | OUninit                              (* a struct no field of which is set *)
  | OError (e : libusbp_error)
  | ODevice (d : libusbp_device)
  | OInterface (g : libusbp_generic_interface)
  | OHandle (h : libusbp_generic_handle)
  | OSerialPort (s : libusbp_serial_port)
  | OTransfer (t : async_in_transfer)
  | OPipe (p : libusbp_async_in_pipe)
  (* objects of the operating system, released by their own functions *)
  | OFd
  | OUdev
  | OUdevEnumerate (filters : list udev_match) (entries : list string)
  | OUdevDevice (id : Z)
  (* the structs of the macOS code; its serial ports are an [OMacSerialPort] *)
  | OMacDevice (d : libusbp_device_mac)
  | OMacInterface (g : libusbp_generic_interface_mac)
  | OMacHandle (h : libusbp_generic_handle_mac)
  | OMacSerialPort (port_name : ptr)
  | OMacTransfer (t : async_in_transfer_mac)
  (* objects of IOKit and Core Foundation: a reference to the registry entry [id],
     an iterator with the entries it has left, a property, and the plug-in and the
     interfaces of an entry (with the asynchronous port) *)
  | OService (id : Z)
  | OIterator (ids : list Z)
  | OCf (v : cf_value)
  | OPlugIn (id : Z)
  | OUsbDevice (id : Z)
  | OUsbInterface (id port : Z)
  (* the structs of the Windows code *)
  | OWinDevice (d : libusbp_device_windows)
  | OWinInterface (g : libusbp_generic_interface_windows)
  | OWinSerialPort (s : libusbp_serial_port_windows)
  | OWinHandle (h : libusbp_generic_handle_windows)
  | OWinTransfer (t : async_in_transfer_windows)
  (* objects of Windows: a set of device nodes, the registry key of a node, an open
     file, a WinUSB handle for the file with this name, and an event *)
  | ODevInfoSet (nodes : list Z)
  | ORegKey (node : Z)
  | OFile (path : string)
  | OWinUsb (path : string)
  | OEvent.

(** Only blocks that came from [malloc] can be given to [free]. *)
Definition is_malloced (o : obj) : bool :=
  match o with
  | OFd | OUdev | OUdevEnumerate _ _ | OUdevDevice _ => false
  | OService _ | OIterator _ | OCf _ | OPlugIn _ | OUsbDevice _ | OUsbInterface _ _ => false
  | ODevInfoSet _ | ORegKey _ | OFile _ | OWinUsb _ | OEvent => false
  | _ => true
  end.

(** ** The world *)

(** Calls of IOKit: on registry entries, and on the device or interface of one. *)
Inductive mac_event :=
  | EvIdMatching (id : Z)
  | EvMatchingService (id : Z)
  | EvMatching (class : string)
  | EvMatchingServices (class : string)
  | EvChildren (id : Z)
  | EvDescendants (id : Z)
  | EvProperty (id : Z) (name : string)
  | EvRegistryId (id : Z)
  | EvPlugIn (id : Z)
  | EvQuery (id : Z)
  | EvGetConfiguration (id : Z)
  | EvDeviceOpen (id : Z)
  | EvSetConfiguration (id configuration : Z)
  | EvDeviceClose (id : Z)
  | EvInterfaceOpen (id : Z)
  | EvInterfaceClose (id : Z)
  | EvNumEndpoints (id : Z)
  | EvPipeProperties (id pipe : Z)
  | EvAsyncPort (id : Z)
  | EvControlRequest (id : Z) (r : IOUSBDevRequestTO) (sent : list (option ascii))
  | EvReadPipe (id pipe size timeout : Z)
  | EvWritePipe (id pipe : Z) (sent : list (option ascii)) (timeout : Z)
  | EvAbortPipe (id pipe : Z).

(** Calls of Windows: on sets of device nodes, on nodes, on registry keys of nodes, and
    on the WinUSB handle of a file. *)
Inductive win_event :=
  | WinClassDevs (c : device_class)
  | WinEnumDevice (index : Z)
  | WinInstanceId (node : Z)
  | WinPropertySize (node : Z) (p : node_property)
  | WinProperty (node : Z) (p : node_property)
  | WinLocate (id : string)
  | WinParent (node : Z)
  | WinDeviceId (node : Z)
  | WinOpenKey (node : Z)
  | WinGuidsSize (node : Z)
  | WinGuids (node : Z)
  | WinPortName (node : Z)
  | WinInterface (node guid : Z)
  | WinInterfaceSize (node guid : Z)
  | WinInterfaceDetail (node guid : Z)
  | WinCreateFile (path : string)
  | WinInitialize (path : string)
  | WinFree (path : string)
  | WinSetPolicy (path : string) (pipe : Z) (policy : pipe_policy)
  | WinControl (path : string) (packet : WINUSB_SETUP_PACKET) (sent : list (option ascii))
  | WinRead (path : string) (pipe size : Z)
  | WinWrite (path : string) (pipe : Z) (sent : list (option ascii))
  | WinAbort (path : string) (pipe : Z)
  | WinCreateEvent.

(** System calls, with the answers that later answers can depend on; [sent] is
    the data of an OUT transfer.  [EvSubmit] and [EvReap] are also the asynchronous
    reads and the messages of macOS: [fd] is the port then, [endpoint] the pipe; and the
    overlapped reads of Windows and their results, with the number of the WinUSB
    handle's block for [fd]. *)
Inductive event :=
  | EvAccess (path : string)
  | EvOpen (path : string) (ok : bool)
  | EvClose (fd : Z)
  | EvLseek (fd : Z)
  | EvRead (fd size : Z)
  | EvControl (fd : Z) (t : usbdevfs_ctrltransfer) (sent : list (option ascii))
  | EvBulk (fd : Z) (t : usbdevfs_bulktransfer) (sent : list (option ascii))
  | EvSubmit (fd : Z) (urb : loc) (endpoint length : Z) (buffer : ptr) (ok : bool)
  | EvReap (fd : Z) (urb : option loc)
  | EvDiscard (fd : Z) (urb : loc)
  | EvUdevNew
  | EvUdevEnumerateNew
  | EvUdevAddMatch (m : udev_match)
  | EvUdevScan (filters : list udev_match)
  | EvUdevFromSyspath (path : string)
  | EvMac (ev : mac_event)
  | EvWin (ev : win_event)
  (* text that a program writes to its standard output or error stream *)
  | EvStdout (text : string)
  | EvStderr (text : string).

(** The external state: the history of system calls (latest first), [errno],
    and how many allocations have failed so far. *)
Record ext := Ext {
  x_trace : list event;
  x_errno : Z;
  x_oom : nat
}.

(** [w_alloc] lists the outcomes of the allocations to come ([true] when there
    is memory); past its end every allocation succeeds. *)
Record world := World {
  w_heap : gmap loc obj;
  w_alloc : list bool;
  w_ext : ext
}.

(** ** The monad *)

Inductive ub :=
  | NullPointer
  | WildPointer
  | BadFree
  | OutOfBounds
  | Uninitialised
  | AssertionFailed
  | BadDescriptor
  | SignedOverflow
  | OutOfFuel.

Inductive outcome (A : Type) :=
  | Ret (a : A) (w : world)
  | Stuck (u : ub).
Arguments Ret {A} a w.
Arguments Stuck {A} u.

Definition M (A : Type) : Type := world → outcome A.

#[export] Instance M_ret : MRet M := λ A a w, Ret a w.
#[export] Instance M_bind : MBind M := λ A B f m w,
  match m w with
  | Ret a w' => f a w'
  | Stuck u => Stuck u
  end.

Lemma bind_assoc {A B C} (m : M A) (f : A → M B) (g : B → M C) w :
  ((m ≫= f) ≫= g) w = (m ≫= λ a, f a ≫= g) w.
Proof. unfold mbind, M_bind. by destruct (m w). Qed.

Definition stuck {A} (u : ub) : M A := λ _, Stuck u.

(** [if (b) { m }] for its effect. *)
Definition when (b : bool) (m : M unit) : M unit := if b then m else mret tt.

Definition c_assert (b : bool) : M unit := if b then mret tt else stuck AssertionFailed.

Definition get_ext : M ext := λ w, Ret (w_ext w) w.
Definition put_ext (x : ext) : M unit := λ w, Ret tt (World (w_heap w) (w_alloc w) x).

Definition set_errno (n : Z) : M unit :=
  x ← get_ext; put_ext (Ext (x_trace x) n (x_oom x)).
Definition get_errno : M Z := x ← get_ext; mret (x_errno x).

(** Append one event to the history. *)
Definition log_event (ev : event) : M unit :=
  x ← get_ext; put_ext (Ext (ev :: x_trace x) (x_errno x) (x_oom x)).
Definition get_trace : M (list event) := x ← get_ext; mret (x_trace x).

(** ** Blocks: access, allocation, release *)

Definition load (p : ptr) : M obj := λ w,
  match p with
  | Heap l => match w_heap w !! l with Some o => Ret o w | None => Stuck WildPointer end
  | NULL => Stuck NullPointer
  | _ => Stuck WildPointer
  end.

Definition store (p : ptr) (o : obj) : M unit := λ w,
  match p with
  | Heap l =>
      match w_heap w !! l with
      | Some _ => Ret tt (World (<[l := o]> (w_heap w)) (w_alloc w) (w_ext w))
      | None => Stuck WildPointer
      end
  | NULL => Stuck NullPointer
  | _ => Stuck WildPointer
  end.

(** A fresh block holding [o]; the supply never runs out, [malloc] does. *)
Definition new_block (o : obj) : M ptr := λ w,
  let l := fresh (dom (w_heap w)) in
  Ret (Heap l) (World (<[l := o]> (w_heap w)) (w_alloc w) (w_ext w)).

(** Remove a block that satisfies [ok]. *)
Definition release (ok : obj → bool) (p : ptr) : M unit := λ w,
  match p with
  | Heap l =>
      match w_heap w !! l with
      | Some o => if ok o then Ret tt (World (delete l (w_heap w)) (w_alloc w) (w_ext w))
                  else Stuck BadFree
      | None => Stuck BadFree
      end
  | _ => Stuck BadFree
  end.

(** Is there memory for the next allocation? *)
Definition next_alloc : M bool := λ w,
  match w_alloc w with
  | [] => Ret true w
  | b :: bs => Ret b (World (w_heap w) bs (w_ext w))
  end.

Definition ENOMEM : Z := 12.

Definition alloc_failed : M unit :=
  x ← get_ext; put_ext (Ext (x_trace x) ENOMEM (S (x_oom x))).

(** [malloc(size)], the new block looking like [o].  A request larger than
    [PTRDIFF_MAX] fails; a request of size 0 may return NULL without failing. *)
Definition malloc (size : Z) (o : obj) : M ptr :=
  b ← next_alloc;
  if b && (size <=? PTRDIFF_MAX) then new_block o
  else if size =? 0 then mret NULL
  else alloc_failed;; mret NULL.

(** [calloc(n, size)]: the block looks like [o], all bytes zero. *)
Definition calloc (n size : Z) (o : obj) : M ptr := malloc (n * size) o.

Definition free (p : ptr) : M unit :=
  match p with
  | NULL => mret tt
  | _ => release is_malloced p
  end.

(** [realloc(p, size)] for a non-zero size: the new block always has a new
    address and holds [grow o] where [o] is the old content ([fresh_o] when [p]
    is NULL); on failure the old block stays. *)
Definition realloc (p : ptr) (size : Z) (fresh_o : obj) (grow : obj → obj) : M ptr :=
  match p with
  | NULL => malloc size fresh_o
  | _ =>
      o ← load p;
      q ← malloc size (grow o);
      (if is_null q then mret tt else free p);;
      mret q
  end.

(** Typed access: the block must hold a struct of that type. *)
Definition load_as {A} (proj : obj → option A) (p : ptr) : M A :=
  o ← load p;
  match proj o with
  | Some a => mret a
  | None => stuck (match o with OUninit => Uninitialised | _ => WildPointer end)
  end.

Definition as_device (o : obj) := match o with ODevice d => Some d | _ => None end.
Definition as_interface (o : obj) := match o with OInterface g => Some g | _ => None end.
Definition as_handle (o : obj) := match o with OHandle h => Some h | _ => None end.
Definition as_serial_port (o : obj) := match o with OSerialPort s => Some s | _ => None end.
Definition as_transfer (o : obj) := match o with OTransfer t => Some t | _ => None end.
Definition as_device_mac (o : obj) := match o with OMacDevice d => Some d | _ => None end.
Definition as_interface_mac (o : obj) := match o with OMacInterface g => Some g | _ => None end.
Definition as_handle_mac (o : obj) := match o with OMacHandle h => Some h | _ => None end.
Definition as_serial_port_mac (o : obj) := match o with OMacSerialPort p => Some p | _ => None end.
Definition as_transfer_mac (o : obj) := match o with OMacTransfer t => Some t | _ => None end.
Definition as_device_windows (o : obj) := match o with OWinDevice d => Some d | _ => None end.
Definition as_interface_windows (o : obj) := match o with OWinInterface g => Some g | _ => None end.
Definition as_serial_port_windows (o : obj) := match o with OWinSerialPort s => Some s | _ => None end.
Definition as_handle_windows (o : obj) := match o with OWinHandle h => Some h | _ => None end.
Definition as_transfer_windows (o : obj) := match o with OWinTransfer t => Some t | _ => None end.
Definition as_pipe (o : obj) := match o with OPipe p => Some p | _ => None end.
Definition as_chars (o : obj) := match o with OChars cs => Some cs | _ => None end.
Definition as_words (o : obj) := match o with OWords ws => Some ws | _ => None end.
Definition as_ptrs (o : obj) := match o with OPtrs ps => Some ps | _ => None end.
Definition as_error (o : obj) := match o with OError e => Some e | _ => None end.

(** Reading element [i] of an array of pointers or of words. *)
Definition load_elem {A} (proj : obj → option (list (option A))) (p : ptr) (i : Z) : M A :=
  xs ← load_as proj p;
  if i <? 0 then stuck OutOfBounds
  else match xs !! Z.to_nat i with
       | Some (Some a) => mret a
       | Some None => stuck Uninitialised
       | None => stuck OutOfBounds
       end.

(** Writing element [i]. *)
Definition store_elem {A} (proj : obj → option (list (option A)))
    (inj : list (option A) → obj) (p : ptr) (i : Z) (a : A) : M unit :=
  xs ← load_as proj p;
  if (0 <=? i) && (i <? Z.of_nat (List.length xs))
  then store p (inj (<[Z.to_nat i := Some a]> xs))
  else stuck OutOfBounds.

(** ** Sizes of the structs (LP64) *)

Definition sizeof_ptr : Z := 8.
Definition sizeof_uint32_t : Z := 4.
Definition sizeof_libusbp_error : Z := 32.
Definition sizeof_libusbp_device : Z := 24.
Definition sizeof_libusbp_generic_interface : Z := 32.
Definition sizeof_libusbp_generic_handle : Z := 144.
Definition sizeof_libusbp_serial_port : Z := 16.
Definition sizeof_async_in_transfer : Z := 80.
Definition sizeof_libusbp_async_in_pipe : Z := 72.
Definition sizeof_libusbp_device_mac : Z := 24.
Definition sizeof_libusbp_generic_interface_mac : Z := 24.
Definition sizeof_libusbp_generic_handle_mac : Z := 184.
Definition sizeof_libusbp_serial_port_mac : Z := 8.
Definition sizeof_async_in_transfer_mac : Z := 48.
Definition sizeof_libusbp_device_windows : Z := 16.
Definition sizeof_libusbp_generic_interface_windows : Z := 24.
Definition sizeof_libusbp_serial_port_windows : Z := 16.
Definition sizeof_libusbp_generic_handle_windows : Z := 16.
Definition sizeof_async_in_transfer_windows : Z := 80.

(** ** C strings *)

(** The bytes of the buffer that holds the string [s]: its characters and the
    terminating NUL. *)
Definition chars (s : string) : list (option ascii) := Some <$> String.list_ascii_of_string s.
Definition cstr (s : string) : list (option ascii) := chars s ++ [Some nul].

(** The string a buffer holds: everything before the first NUL; [None] when
    there is an uninitialised byte before it, or no NUL. *)
Fixpoint scan (cs : list (option ascii)) : option string :=
  match cs with
  | [] => None
  | None :: _ => None
  | Some c :: cs => if bool_decide (c = nul) then Some "" else String c <$> scan cs
  end.

Definition read_cstr (p : ptr) : M string := λ w,
  match p with
  | Lit s => Ret (until_nul s) w
  | Owned l s => match w_heap w !! l with Some _ => Ret (until_nul s) w | None => Stuck WildPointer end
  | _ => (cs ← load_as as_chars p;
          match scan cs with Some s => mret s | None => stuck OutOfBounds end) w
  end.

Definition strlen (p : ptr) : M Z := s ← read_cstr p; mret (slen s).

Definition strcmp (p q : ptr) : M Z :=
  s ← read_cstr p; t ← read_cstr q;
  mret (match String.compare s t with Eq => 0 | Lt => -1 | Gt => 1 end).

(** Overwrite the bytes of [p] from offset [off] on. *)
Definition write_chars (p : ptr) (off : Z) (bs : list (option ascii)) : M unit :=
  cs ← load_as as_chars p;
  if (0 <=? off) && (off + Z.of_nat (List.length bs) <=? Z.of_nat (List.length cs))
  then store p (OChars (take (Z.to_nat off) cs ++ bs ++ drop (Z.to_nat off + List.length bs) cs))
  else stuck OutOfBounds.

Definition malloc_chars (size : Z) : M ptr :=
  malloc size (OChars (replicate (Z.to_nat size) None)).

(** [strncpy(p + off, q, n)]: exactly [n] bytes are written. *)
Definition strncpy (p : ptr) (off : Z) (q : ptr) (n : Z) : M unit :=
  s ← read_cstr q;
  write_chars p off (take (Z.to_nat n) (chars s ++ replicate (Z.to_nat n) (Some nul))).

Definition strdup (p : ptr) : M ptr :=
  s ← read_cstr p;
  malloc (slen s + 1) (OChars (cstr s)).

(** [vsnprintf(p, size, format, ap)] where the format and its arguments render
    to [s]: the return value, and the bytes written when [size] is not 0. *)
Definition vsnprintf_result (s : string) : Z :=
  if slen s <=? INT_MAX then slen s else -1.

Definition vsnprintf (p : ptr) (size : Z) (s : string) : M unit :=
  if size =? 0 then mret tt
  else write_chars p 0 (take (Z.to_nat (size - 1)) (chars s) ++ [Some nul]).
