(* ===== verification/Logic.v ===== *)
(** * Logic: a linear separation logic for the effect monad

    Assertions are predicates on heaps, and the separating conjunction splits the
    heap into disjoint parts.  The logic is linear: [emp] holds of the empty heap
    only, so a postcondition accounts for every block the code allocated or
    received, and a forgotten [free] makes a triple unprovable.  [hPropI] makes
    the assertions a BI, which gives them the Iris proof mode.

    [wp m x Q] says that [m], run on a world with external state [x] whose heap
    contains the asserted part, returns - for every outcome of every allocation -
    and that [Q] holds of the result, the new external state and the new part;
    the rest of the heap is untouched. *)

From S2P Require Import Prelude Memory.
#[global] Set Warnings "-rewrite-rw".
From iris.bi Require Import bi.
From iris.proofmode Require Export proofmode environments.
#[global] Open Scope Z_scope.

Abbreviation heap := (gmap loc obj).

Record hProp := HProp { holds : heap → Prop }.

Section ofe.
#[local] Set Warnings "-redundant-canonical-projection,-rewrite-rw".
Local Instance hProp_equiv : Equiv hProp := λ P Q, ∀ h, holds P h ↔ holds Q h.
#[local] Set Warnings "-redundant-canonical-projection,-rewrite-rw".
Local Instance hProp_equivalence : Equivalence (≡@{hProp}).
Proof.
  split.
  - by intros P h.
  - intros P Q HPQ h. by symmetry.
  - intros P Q R HPQ HQR h. by trans (holds Q h).
Qed.
Canonical Structure hPropO := Ofe hProp (discrete_ofe_mixin _).
End ofe.

Inductive h_entails (P Q : hProp) : Prop :=
  | h_entails_intro (entails_at : ∀ h, holds P h → holds Q h).

Lemma entails_at P Q : h_entails P Q → ∀ h, holds P h → holds Q h.
Proof. by intros []. Qed.

Definition h_emp : hProp := HProp (λ h, h = ∅).
Definition h_pure (φ : Prop) : hProp := HProp (λ _, φ).
Definition h_and (P Q : hProp) : hProp := HProp (λ h, holds P h ∧ holds Q h).
Definition h_or (P Q : hProp) : hProp := HProp (λ h, holds P h ∨ holds Q h).
Definition h_impl (P Q : hProp) : hProp := HProp (λ h, holds P h → holds Q h).
Definition h_forall A (Φ : A → hProp) : hProp := HProp (λ h, ∀ x, holds (Φ x) h).
Definition h_exist A (Φ : A → hProp) : hProp := HProp (λ h, ∃ x, holds (Φ x) h).
Definition h_sep (P Q : hProp) : hProp :=
  HProp (λ h, ∃ h1 h2, h1 ##ₘ h2 ∧ h = h1 ∪ h2 ∧ holds P h1 ∧ holds Q h2).
Definition h_wand (P Q : hProp) : hProp :=
  HProp (λ h, ∀ h', h ##ₘ h' → holds P h' → holds Q (h ∪ h')).
Definition h_pers (P : hProp) : hProp := h_pure (h_entails h_emp P).

Lemma hProp_bi_mixin :
  BiMixin h_entails h_emp h_pure h_and h_or h_impl h_forall h_exist h_sep h_wand.
Proof.
  split.
  - split; [by intros P; split | intros P Q R [H1] [H2]; split; auto].
  - intros P Q; split.
    + intros H; split; split; intros h; apply H.
    + intros [[H1] [H2]] h; split; auto.
  - intros n φ ψ H h. apply H.
  - intros n P P' HP Q Q' HQ h. cbn. pose proof (HP h). pose proof (HQ h). tauto.
  - intros n P P' HP Q Q' HQ h. cbn. pose proof (HP h). pose proof (HQ h). tauto.
  - intros n P P' HP Q Q' HQ h. cbn. pose proof (HP h). pose proof (HQ h). tauto.
  - intros A n Φ Ψ H h. cbn. split; intros ? x; by apply (H x h).
  - intros A n Φ Ψ H h. cbn. split; intros [x ?]; exists x; by apply (H x h).
  - intros n P P' HP Q Q' HQ h. cbn.
    split; intros (h1 & h2 & ? & ? & ? & ?); exists h1, h2;
      (split_and!; [done..|by apply (HP h1)|by apply (HQ h2)]).
  - intros n P P' HP Q Q' HQ h. cbn.
    split; intros H h' ??; apply (HQ (h ∪ h')), H; auto; by apply (HP h').
  - intros φ P Hφ. by split.
  - intros φ P H. split=> h Hφ. by apply (H Hφ).
  - intros P Q. by split=> h [? ?].
  - intros P Q. by split=> h [? ?].
  - intros P Q R [H1] [H2]. split=> h ?. split; auto.
  - intros P Q. split=> h ?. by left.
  - intros P Q. split=> h ?. by right.
  - intros P Q R [H1] [H2]. split=> h [?|?]; auto.
  - intros P Q R [H]. split=> h ? ?. by apply H.
  - intros P Q R [H]. split=> h [??]. by apply H.
  - intros A P Ψ H. split=> h ? x. by apply (H x).
  - intros A Ψ a. split=> h H. apply H.
  - intros A Ψ a. split=> h ?. by exists a.
  - intros A Φ Q H. split; intros h [x ?]. by apply (H x).
  - intros P P' Q Q' [H1] [H2]. split; intros h (h1 & h2 & ? & ? & ? & ?).
    exists h1, h2. split_and!; auto.
  - intros P. split=> h ?. exists ∅, h. split_and!; [apply map_disjoint_empty_l| |done..].
    by rewrite (left_id_L ∅ (∪)).
  - intros P. split; intros h (h1 & h2 & ? & -> & -> & ?). by rewrite (left_id_L ∅ (∪)).
  - intros P Q. split; intros h (h1 & h2 & ? & -> & ? & ?). exists h2, h1.
    split_and!; [done|by apply map_union_comm|done..].
  - intros P Q R. split; intros h (h12 & h3 & Hd & -> & (h1 & h2 & ? & -> & ? & ?) & ?).
    apply map_disjoint_union_l in Hd as [??].
    exists h1, (h2 ∪ h3). split_and!; [| |done|].
    + by apply map_disjoint_union_r.
    + by rewrite (assoc_L (∪)).
    + by exists h2, h3.
  - intros P Q R [H]. split=> h ? h' ??. apply H. by exists h, h'.
  - intros P Q R [H]. split; intros h (h1 & h2 & ? & -> & ? & ?). by apply H.
Qed.

Lemma hProp_pers_mixin :
  BiPersistentlyMixin h_entails h_emp h_and h_exist h_sep h_pers.
Proof.
  eapply bi_persistently_mixin_discrete, hProp_bi_mixin; [done| |done].
  intros A Φ [H]. destruct (H ∅ eq_refl) as [x Hx]. exists x. by split=> h ->.
Qed.

Lemma hProp_later_mixin :
  BiLaterMixin h_entails h_pure h_or h_impl h_forall h_exist h_sep h_pers (λ P, P).
Proof. eapply bi_later_mixin_id, hProp_bi_mixin. done. Qed.

Canonical Structure hPropI : bi :=
  {| bi_ofe_mixin := ofe_mixin_of hProp;
     bi_cofe_aux := _;
     bi_bi_mixin := hProp_bi_mixin;
     bi_bi_persistently_mixin := hProp_pers_mixin;
     bi_bi_later_mixin := hProp_later_mixin |}.

#[export] Instance hProp_pure_forall : BiPureForall hPropI.
Proof. intros A φ. by split. Qed.

#[export] Hint Mode Equiv ! : typeclass_instances.

Notation "⟪ φ ⟫" := (<affine> ⌜φ%type%stdpp⌝)%I (at level 0, φ at level 200) : bi_scope.

(** ** Points-to *)

Definition pt (l : loc) (o : obj) : hProp := HProp (λ h, h = {[l := o]}).
Notation "l ↦ o" := (pt l o) (at level 20, format "l  ↦  o") : bi_scope.

(** ** Weakest precondition *)

Definition wp {A} (m : M A) (x : ext) (Q : A → ext → hProp) : hProp := HProp (λ h,
  ∀ w hf, h ##ₘ hf → w_heap w = h ∪ hf → w_ext w = x →
  ∃ a w' h', m w = Ret a w' ∧ h' ##ₘ hf ∧ w_heap w' = h' ∪ hf ∧ holds (Q a (w_ext w')) h').

(** The triple: from [P] and external state [x], [m] returns [r] in [x'] with [Q]. *)
Notation "{{ P } } m @ x {{ r x' , Q } }" :=
  (bi_entails P%I (wp m x (λ r x', Q%I)))
  (at level 0, m at level 200, x at level 9, r name, x' name, Q at level 200,
   format "'[hv' {{  P  } }  '/  ' m  @  x  '/' {{  r  x' ,  Q  } } ']'") : stdpp_scope.

Section wp_rules.
Context {A B : Type}.
Implicit Types (P : hProp) (x : ext).

Lemma wp_ret (a : A) x Q : Q a x ⊢ wp (mret a) x Q.
Proof. split; intros h HQ w hf Hd Hw <-. exists a, w, h. by split_and!. Qed.

Lemma wp_bind (m : M A) (f : A → M B) x Q :
  wp m x (λ a x', wp (f a) x' Q) ⊢ wp (m ≫= f) x Q.
Proof.
  split; intros h Hm w hf Hd Hw Hx.
  destruct (Hm w hf Hd Hw Hx) as (a & w1 & h1 & E1 & Hd1 & Hw1 & Hf).
  destruct (Hf w1 hf Hd1 Hw1 eq_refl) as (b & w2 & h2 & E2 & ? & ? & ?).
  exists b, w2, h2. split_and!; try done.
  unfold mbind, M_bind. by rewrite E1.
Qed.

(** Grouping the first two of three steps. *)
Lemma wp_group {C} (m : M A) (f : A → M B) (g : B → M C) x Q :
  wp ((m ≫= f) ≫= g) x Q ⊢ wp (m ≫= λ a, f a ≫= g) x Q.
Proof.
  split; intros h H w hf Hd Hw Hx. rewrite -bind_assoc. by apply H.
Qed.

Lemma wp_wand (m : M A) x Q Q' :
  wp m x Q ⊢ (∀ a x', Q a x' -∗ Q' a x') -∗ wp m x Q'.
Proof.
  split=> h Hm h' Hdj HQ w hf Hd Hw Hx.
  apply map_disjoint_union_l in Hd as [Hd1 Hd2].
  destruct (Hm w (h' ∪ hf)) as (a & w1 & h1 & E1 & Hdd & Hw1 & HQ1).
  { by apply map_disjoint_union_r. }
  { by rewrite Hw (assoc_L (∪)). }
  { done. }
  apply map_disjoint_union_r in Hdd as [Hda Hdb].
  exists a, w1, (h' ∪ h1). split_and!; [done| | |].
  - by apply map_disjoint_union_l.
  - rewrite Hw1 (assoc_L (∪)). f_equal. by apply map_union_comm.
  - apply HQ; [by symmetry|done].
Qed.

Lemma wp_mono (m : M A) x Q Q' :
  (∀ a x', Q a x' ⊢ Q' a x') → wp m x Q ⊢ wp m x Q'.
Proof.
  iIntros (H) "H". iApply (wp_wand with "H"). iIntros (a x') "H". by iApply H.
Qed.

Lemma wp_frame (m : M A) x P Q : P ∗ wp m x Q ⊢ wp m x (λ a x', P ∗ Q a x').
Proof.
  iIntros "[HP H]". iApply (wp_wand with "H"). iIntros (a x') "H". iFrame.
Qed.

(** The triple talks about real executions: started on any heap with a part
    that satisfies [P], [m] returns, the part that satisfies [Q] replaces it,
    and the frame [hf] is the same.  Nothing of the part can leak. *)
Lemma wp_adequacy (m : M A) x P Q :
  (P ⊢ wp m x Q) →
  ∀ w h hf, holds P h → h ##ₘ hf → w_heap w = h ∪ hf → w_ext w = x →
  ∃ a w' h', m w = Ret a w' ∧ h' ##ₘ hf ∧ w_heap w' = h' ∪ hf ∧
             holds (Q a (w_ext w')) h'.
Proof. intros [H] w h hf HP. exact (H h HP w hf). Qed.
End wp_rules.

(** ** Rules for the primitives *)

(** A rule for an operation on one block: if on every heap that maps [l] to
    [o], [m] returns [a] and turns the block into [o'] ([None]: removes it),
    then its rule is the expected small axiom. *)
Definition upd_block (l : loc) (o' : option obj) (h : heap) : heap :=
  match o' with Some o' => <[l := o']> h | None => delete l h end.

Definition opt_pt (l : loc) (o : option obj) : hProp :=
  match o with Some o => l ↦ o | None => emp end%I.

Lemma wp_block {A} (m : M A) l o (a : A) o' x Q :
  (∀ w, w_heap w !! l = Some o → w_ext w = x →
     m w = Ret a (World (upd_block l o' (w_heap w)) (w_alloc w) x)) →
  l ↦ o -∗ (opt_pt l o' -∗ Q a x) -∗ wp m x Q.
Proof.
  intros Hm. apply bi.entails_wand, bi.wand_intro_l.
  split; intros h (h1 & h2 & Hdj & -> & HQ & ->) w hf Hd Hw Hx.
  apply map_disjoint_union_l in Hd as [Hd1 Hd2].
  apply map_disjoint_singleton_r in Hdj.
  apply map_disjoint_singleton_l in Hd2.
  assert (Hl : w_heap w !! l = Some o).
  { rewrite Hw. apply lookup_union_Some_l. rewrite lookup_union_r //. by apply lookup_singleton_Some. }
  rewrite (Hm w Hl Hx).
  set (ho := match o' with Some o' => {[l := o']} | None => ∅ end : heap).
  assert (Hho : holds (opt_pt l o') ho) by by destruct o'.
  assert (Hdo : h1 ##ₘ ho).
  { subst ho. destruct o'; [by apply map_disjoint_singleton_r|apply map_disjoint_empty_r]. }
  exists a, (World (upd_block l o' (w_heap w)) (w_alloc w) x), (h1 ∪ ho).
  split_and!; [done| | |by apply HQ].
  - apply map_disjoint_union_l. split; [done|].
    subst ho. destruct o'; [by apply map_disjoint_singleton_l|apply map_disjoint_empty_l].
  - cbn. rewrite Hw. subst ho. destruct o' as [o'|]; cbn.
    + rewrite -!(assoc_L (∪)) -!insert_union_singleton_l insert_union_r // insert_insert_eq //.
    + rewrite (right_id_L ∅ (∪)) -!(assoc_L (∪)) -insert_union_singleton_l.
      rewrite -insert_union_r // delete_insert_id //.
      by apply lookup_union_None.
Qed.

Section primitives.
Implicit Types (x : ext) (l : loc) (o : obj).

Lemma wp_get_ext x Q : Q x x ⊢ wp get_ext x Q.
Proof. split; intros h HQ w hf Hd Hw <-. exists (w_ext w), w, h. by split_and!. Qed.

Lemma wp_put_ext x y Q : Q tt y ⊢ wp (put_ext y) x Q.
Proof. split; intros h HQ w hf Hd Hw <-. eexists _, _, h. by split_and!. Qed.

Lemma wp_load l o x Q : l ↦ o -∗ (l ↦ o -∗ Q o x) -∗ wp (load (Heap l)) x Q.
Proof.
  apply (wp_block _ l o o (Some o)). intros [] Hl <-. cbn in *. rewrite Hl.
  by rewrite insert_id.
Qed.

Lemma wp_store l o o' x Q : l ↦ o -∗ (l ↦ o' -∗ Q tt x) -∗ wp (store (Heap l) o') x Q.
Proof.
  apply (wp_block _ l o tt (Some o')). intros [] Hl <-. cbn in *. by rewrite Hl.
Qed.

Lemma wp_release ok l o x Q :
  ok o = true → l ↦ o -∗ Q tt x -∗ wp (release ok (Heap l)) x Q.
Proof.
  iIntros (Hok) "Hl HQ". iApply (wp_block _ l o tt None with "Hl").
  { intros [] Hl <-. cbn in *. by rewrite Hl Hok. }
  iIntros "_". done.
Qed.

Lemma wp_new_block o x Q : (∀ l, l ↦ o -∗ Q (Heap l) x) -∗ wp (new_block o) x Q.
Proof.
  apply bi.entails_wand. split; intros h HQ w hf Hd Hw Hx.
  set (l := fresh (dom (w_heap w))).
  assert (Hl : w_heap w !! l = None) by apply not_elem_of_dom, is_fresh.
  rewrite Hw in Hl. apply lookup_union_None in Hl as [Hl1 Hl2].
  eexists _, _, (h ∪ {[l := o]}). split_and!; [done| | |].
  - apply map_disjoint_union_l. split; [done|]. by apply map_disjoint_singleton_l.
  - cbn. fold l. rewrite Hw. rewrite -(assoc_L (∪)) -insert_union_singleton_l insert_union_r //.
  - cbn. fold l. rewrite Hx. apply HQ; [by apply map_disjoint_singleton_r|done].
Qed.

Lemma wp_next_alloc x Q : (∀ b, Q b x) ⊢ wp next_alloc x Q.
Proof.
  split; intros h HQ w hf Hd Hw <-. unfold next_alloc.
  destruct w as [hp [|b bs] xx]; cbn in *;
    (eexists _, _, h; split_and!; [done..|apply HQ]).
Qed.
End primitives.

(** ** How the external state may change

    [quiet x x']: no system call between [x] and [x'].  [oomed x x']: at least
    one allocation failed in between. *)

Definition quiet (x x' : ext) : Prop :=
  x_trace x' = x_trace x ∧ (x_oom x ≤ x_oom x')%nat.
Definition oomed (x x' : ext) : Prop := (x_oom x < x_oom x')%nat.

#[export] Instance quiet_preorder : PreOrder quiet.
Proof. unfold quiet. split; [done|]. intros ??? [??] [??]. split; [congruence|lia]. Qed.

(** Solves the side conditions on external states. *)
Ltac ext_tac :=
  unfold quiet, oomed in *; cbn [x_trace x_oom x_errno] in *;
  destruct_and?; split_and?; solve [congruence | lia | done].

(** ** Derived rules *)

Section derived.
Implicit Types (x : ext) (l : loc) (o : obj).

Lemma use_triple {A} (P : hProp) (m : M A) x Q Φ :
  (P ⊢ wp m x Q) → P -∗ (∀ a x', Q a x' -∗ Φ a x') -∗ wp m x Φ.
Proof. iIntros (H) "HP HQ". iApply (wp_wand with "[HP] HQ"). by iApply H. Qed.

Lemma wp_when (b : bool) (m : M unit) x Q :
  (if b then wp m x Q else Q tt x) ⊢ wp (when b m) x Q.
Proof. destruct b; [done|apply wp_ret]. Qed.

Lemma wp_assert b x Q : b = true → Q tt x ⊢ wp (c_assert b) x Q.
Proof. intros ->. apply wp_ret. Qed.

Lemma wp_set_errno n x Q : Q tt (Ext (x_trace x) n (x_oom x)) ⊢ wp (set_errno n) x Q.
Proof. iIntros "H". iApply wp_bind. iApply wp_get_ext. by iApply wp_put_ext. Qed.

Lemma wp_get_errno x Q : Q (x_errno x) x ⊢ wp get_errno x Q.
Proof. iIntros "H". iApply wp_bind. iApply wp_get_ext. by iApply wp_ret. Qed.

Lemma wp_get_trace x Q : Q (x_trace x) x ⊢ wp get_trace x Q.
Proof. iIntros "H". iApply wp_bind. iApply wp_get_ext. by iApply wp_ret. Qed.

Lemma wp_log_event ev x Q :
  Q tt (Ext (ev :: x_trace x) (x_errno x) (x_oom x)) ⊢ wp (log_event ev) x Q.
Proof. iIntros "H". iApply wp_bind. iApply wp_get_ext. by iApply wp_put_ext. Qed.

(** The general rule of [malloc]: memory, or not, or a NULL for size 0. *)
Lemma wp_malloc size o x Q :
  (∀ l, ⌜size ≤ PTRDIFF_MAX⌝ → l ↦ o -∗ Q (Heap l) x) ∧
  Q NULL (Ext (x_trace x) ENOMEM (S (x_oom x))) ∧
  (⌜size = 0⌝ → Q NULL x)
  ⊢ wp (malloc size o) x Q.
Proof.
  iIntros "H". iApply wp_bind. iApply wp_next_alloc. iIntros (b).
  destruct (b && (size <=? PTRDIFF_MAX)) eqn:Hb.
  { apply andb_true_iff in Hb as [_ Hb%Z.leb_le].
    iApply wp_new_block. iIntros (l). iApply (bi.and_elim_l with "H"). done. }
  destruct (Z.eqb_spec size 0) as [->|].
  { iApply wp_ret. iDestruct "H" as "[_ [_ H]]". by iApply "H". }
  iApply wp_bind. iApply wp_bind. iApply wp_get_ext. iApply wp_put_ext.
  iApply wp_ret. iDestruct "H" as "[_ [H _]]". done.
Qed.

(** For a positive size. *)
Lemma wp_malloc_pos size o x Q :
  size ≠ 0 →
  (∀ l, ⌜size ≤ PTRDIFF_MAX⌝ → l ↦ o -∗ Q (Heap l) x) ∧
  (∀ x', ⌜quiet x x' ∧ oomed x x'⌝ → Q NULL x')
  ⊢ wp (malloc size o) x Q.
Proof.
  iIntros (Hs) "H". iApply wp_malloc. iSplit; [|iSplit].
  - iDestruct "H" as "[H _]". done.
  - iDestruct "H" as "[_ H]". iApply "H". iPureIntro. ext_tac.
  - by iIntros (?).
Qed.

Lemma wp_free_null x Q : Q tt x ⊢ wp (free NULL) x Q.
Proof. apply wp_ret. Qed.

Lemma wp_free l o x Q :
  is_malloced o = true → l ↦ o -∗ Q tt x -∗ wp (free (Heap l)) x Q.
Proof. apply wp_release. Qed.

Lemma wp_load_as {A} (proj : obj → option A) a l o x Q :
  proj o = Some a → l ↦ o -∗ (l ↦ o -∗ Q a x) -∗ wp (load_as proj (Heap l)) x Q.
Proof.
  iIntros (Hp) "Hl HQ". iApply wp_bind. iApply (wp_load with "Hl"). iIntros "Hl".
  rewrite Hp. iApply wp_ret. by iApply "HQ".
Qed.

Lemma wp_load_elem {A} proj (xs : list (option A)) i a l o x Q :
  proj o = Some xs → 0 ≤ i → xs !! Z.to_nat i = Some (Some a) →
  l ↦ o -∗ (l ↦ o -∗ Q a x) -∗ wp (load_elem proj (Heap l) i) x Q.
Proof.
  iIntros (Hp Hi Ha) "Hl HQ". iApply wp_bind.
  iApply (wp_load_as _ _ _ _ _ _ Hp with "Hl"). iIntros "Hl".
  destruct (Z.ltb_spec i 0); [lia|]. rewrite Ha. iApply wp_ret. by iApply "HQ".
Qed.

Lemma wp_store_elem {A} proj inj (xs : list (option A)) i a l o x Q :
  proj o = Some xs → 0 ≤ i < Z.of_nat (List.length xs) →
  l ↦ o -∗ (l ↦ inj (<[Z.to_nat i := Some a]> xs) -∗ Q tt x) -∗
  wp (store_elem proj inj (Heap l) i a) x Q.
Proof.
  iIntros (Hp Hi) "Hl HQ". iApply wp_bind.
  iApply (wp_load_as _ _ _ _ _ _ Hp with "Hl"). iIntros "Hl".
  destruct (Z.leb_spec 0 i); [|lia].
  destruct (Z.ltb_spec i (Z.of_nat (List.length xs))); [|lia].
  by iApply (wp_store with "Hl").
Qed.

(** [realloc] of a block, for a positive size. *)
Lemma wp_realloc l o size fresh_o grow x Q :
  size ≠ 0 → is_malloced o = true →
  l ↦ o -∗
  ((∀ l', ⌜size ≤ PTRDIFF_MAX⌝ → l' ↦ grow o -∗ Q (Heap l') x) ∧
   (∀ x', ⌜quiet x x' ∧ oomed x x'⌝ → l ↦ o -∗ Q NULL x')) -∗
  wp (realloc (Heap l) size fresh_o grow) x Q.
Proof.
  iIntros (Hs Ho) "Hl HQ". iApply wp_bind. iApply (wp_load with "Hl"). iIntros "Hl".
  iApply wp_bind. iApply wp_malloc_pos; [done|]. iSplit.
  - iIntros (l' Hsz) "Hl'". iApply wp_bind. iApply (wp_free with "Hl"); [done|].
    iApply wp_ret. iDestruct "HQ" as "[HQ _]". by iApply "HQ".
  - iIntros (x' Hx'). iApply wp_bind. iApply wp_ret. iApply wp_ret.
    iDestruct "HQ" as "[_ HQ]". by iApply "HQ".
Qed.
End derived.

(** ** Strings in memory *)

Lemma scan_cstr s : no_nul s = true → scan (cstr s) = Some s.
Proof.
  unfold cstr, chars. induction s as [|c s IH]; cbn; [done|].
  intros [Hc Hs]%andb_true_iff. case_bool_decide; [done|].
  by rewrite IH.
Qed.

Lemma length_chars s : List.length (chars s) = String.length s.
Proof. unfold chars. by rewrite length_fmap length_list_ascii. Qed.

Lemma length_cstr s : List.length (cstr s) = S (String.length s).
Proof. unfold cstr. rewrite length_app length_chars. cbn. lia. Qed.

Lemma chars_app s t : chars (s +:+ t) = chars s ++ chars t.
Proof. unfold chars. by rewrite list_ascii_app fmap_app. Qed.

(** A block holding exactly the string [s], small enough to have been
    allocated. *)
Definition str_own (p : ptr) (s : string) : hProp :=
  (∃ l, ⟪p = Heap l ∧ no_nul s = true ∧ slen s < PTRDIFF_MAX⟫ ∗ l ↦ OChars (cstr s))%I.

(** A pointer the code can read the string [s] from, with the resource [R]
    that makes it readable. *)
Definition reads (R : hProp) (p : ptr) (s : string) : Prop :=
  ∀ x Q, R -∗ (R -∗ Q s x) -∗ wp (read_cstr p) x Q.

Section strings.
Implicit Types (x : ext) (l : loc).

Lemma str_own_not_null p s : str_own p s ⊢ ⌜is_null p = false⌝ ∧ str_own p s.
Proof.
  iIntros "(%l & %H & Hl)". destruct H as (-> & Hs & Hlen).
  iSplit; [done|]. iExists l. iFrame. done.
Qed.

Lemma reads_lit s : no_nul s = true → reads emp%I (Lit s) s.
Proof.
  iIntros (Hs x Q) "HE HQ". iApply (wp_ret (until_nul s)).
  rewrite until_nul_id //. by iApply "HQ".
Qed.

Lemma reads_str p s : reads (str_own p s) p s.
Proof.
  iIntros (x Q) "(%l & %H & Hl) HQ". destruct H as (-> & Hs & Hlen).
  change (read_cstr (Heap l)) with
    (cs ← load_as as_chars (Heap l);
     match scan cs with Some s => mret s | None => stuck OutOfBounds end).
  iApply wp_bind. iApply (wp_load_as with "Hl"); [done|]. iIntros "Hl".
  rewrite scan_cstr //. iApply wp_ret. iApply "HQ". iExists l. iFrame. done.
Qed.

Lemma reads_owned l o s : reads (l ↦ o)%I (Owned l s) (until_nul s).
Proof.
  iIntros (x Q) "Hl HQ". iApply (wp_block _ l o _ (Some o) with "Hl HQ").
  intros [] Hl <-. cbn in *. rewrite Hl. by rewrite insert_id.
Qed.
End strings.

(** ** String functions *)

Section string_functions.
Implicit Types (x : ext) (l : loc).

Lemma wp_strlen R p s x Q :
  reads R p s → R -∗ (R -∗ Q (slen s) x) -∗ wp (strlen p) x Q.
Proof.
  iIntros (Hr) "HR HQ". iApply wp_bind. iApply (Hr with "HR"). iIntros "HR".
  iApply wp_ret. by iApply "HQ".
Qed.

Lemma wp_strcmp R S p q s t x Q :
  reads R p s → reads S q t →
  R -∗ S -∗
  (R -∗ S -∗ Q (match String.compare s t with Eq => 0 | Lt => -1 | Gt => 1 end) x) -∗
  wp (strcmp p q) x Q.
Proof.
  iIntros (Hr Hs) "HR HS HQ". iApply wp_bind. iApply (Hr with "HR"). iIntros "HR".
  iApply wp_bind. iApply (Hs with "HS"). iIntros "HS".
  iApply wp_ret. iApply ("HQ" with "HR HS").
Qed.

(** Tests of the form [strcmp(p, q) == 0]. *)
Lemma compare_refl s : String.compare s s = Eq.
Proof.
  induction s as [|c s IH]; [done|]. cbn. unfold Ascii.compare. by rewrite N.compare_refl.
Qed.

Lemma compare_zero s t :
  ((match String.compare s t with Eq => 0 | Lt => -1 | Gt => 1 end) =? 0) =
  bool_decide (s = t).
Proof.
  destruct (String.compare s t) eqn:E.
  - apply String.compare_eq_iff in E. by rewrite bool_decide_true.
  - rewrite bool_decide_false; [done|]. intros ->. by rewrite compare_refl in E.
  - rewrite bool_decide_false; [done|]. intros ->. by rewrite compare_refl in E.
Qed.

Lemma wp_strcmp_zero R S p q s t x Q :
  reads R p s → reads S q t →
  R -∗ S -∗
  (∀ c, ⌜(c =? 0) = bool_decide (s = t)⌝ → R -∗ S -∗ Q c x) -∗
  wp (strcmp p q) x Q.
Proof.
  iIntros (Hr Hs) "HR HS HQ". iApply (wp_strcmp with "HR HS"); [done|done|].
  iApply "HQ". iPureIntro. apply compare_zero.
Qed.

Lemma wp_strdup R p s x Q :
  reads R p s → no_nul s = true →
  R -∗
  ((∀ q, R -∗ str_own q s -∗ Q q x) ∧
   (∀ x', ⌜quiet x x' ∧ oomed x x'⌝ → R -∗ Q NULL x')) -∗
  wp (strdup p) x Q.
Proof.
  iIntros (Hr Hs) "HR HQ". iApply wp_bind. iApply (Hr with "HR"). iIntros "HR".
  pose proof (slen_nonneg s).
  iApply wp_malloc_pos; [lia|]. iSplit.
  - iIntros (l Hsz) "Hl". iDestruct "HQ" as "[HQ _]". iApply ("HQ" with "HR").
    iExists l. iFrame. iPureIntro. split_and!; [done..|lia].
  - iIntros (x' Hx'). iDestruct "HQ" as "[_ HQ]". by iApply "HQ".
Qed.

(** Writing right behind an already written prefix. *)
Lemma wp_write_prefix l pre rest bs off x Q :
  off = Z.of_nat (List.length pre) → (List.length bs ≤ List.length rest)%nat →
  l ↦ OChars (pre ++ rest) -∗
  (l ↦ OChars (pre ++ bs ++ drop (List.length bs) rest) -∗ Q tt x) -∗
  wp (write_chars (Heap l) off bs) x Q.
Proof.
  iIntros (-> Hlen) "Hl HQ". iApply wp_bind.
  iApply (wp_load_as with "Hl"); [done|]. iIntros "Hl".
  rewrite (_ : (0 <=? _) && _ = true); last first.
  { rewrite length_app. apply andb_true_iff. split; apply Z.leb_le; lia. }
  iApply (wp_store with "Hl"). rewrite Nat2Z.id take_app_length.
  rewrite drop_app_add //.
Qed.

Lemma strncpy_exact s :
  take (Z.to_nat (slen s + 1)) (chars s ++ replicate (Z.to_nat (slen s + 1)) (Some nul)) = cstr s.
Proof.
  unfold slen, cstr. rewrite (_ : Z.to_nat _ = (List.length (chars s) + 1)%nat).
  2: { rewrite length_chars. lia. }
  rewrite take_app_add. f_equal. by rewrite Nat.add_1_r.
Qed.

Lemma wp_strncpy R l pre rest off q s n x Q :
  reads R q s → n = slen s + 1 →
  off = Z.of_nat (List.length pre) → (String.length s < List.length rest)%nat →
  R -∗ l ↦ OChars (pre ++ rest) -∗
  (R -∗ l ↦ OChars (pre ++ cstr s ++ drop (S (String.length s)) rest) -∗ Q tt x) -∗
  wp (strncpy (Heap l) off q n) x Q.
Proof.
  iIntros (Hr -> Hoff Hlen) "HR Hl HQ". iApply wp_bind. iApply (Hr with "HR").
  iIntros "HR". rewrite strncpy_exact.
  iApply (wp_write_prefix with "Hl"); [done|rewrite length_cstr; lia|].
  rewrite length_cstr. iIntros "Hl". iApply ("HQ" with "HR Hl").
Qed.
End string_functions.

(** What a format whose text would be longer than [INT_MAX] contributes. *)
Definition rendered (s : string) : string := if slen s <=? INT_MAX then s else "".

Lemma slen_rendered s : slen (rendered s) = Z.max 0 (vsnprintf_result s).
Proof.
  unfold rendered, vsnprintf_result. pose proof (slen_nonneg s).
  destruct (Z.leb_spec (slen s) INT_MAX); [lia|done].
Qed.

Lemma slen_rendered_le s : slen (rendered s) ≤ INT_MAX.
Proof. unfold rendered. destruct (Z.leb_spec (slen s) INT_MAX); done. Qed.

Lemma rendered_no_nul s : no_nul s = true → no_nul (rendered s) = true.
Proof. unfold rendered. by destruct (slen s <=? INT_MAX). Qed.

Lemma wp_vsnprintf l s n rest x Q :
  n = slen (rendered s) + 1 → (String.length (rendered s) < List.length rest)%nat →
  l ↦ OChars rest -∗
  (l ↦ OChars (cstr (rendered s) ++ drop (S (String.length (rendered s))) rest) -∗ Q tt x) -∗
  wp (vsnprintf (Heap l) n s) x Q.
Proof.
  iIntros (-> Hlen) "Hl HQ". unfold vsnprintf. pose proof (slen_nonneg (rendered s)).
  destruct (Z.eqb_spec (slen (rendered s) + 1) 0); [lia|].
  rewrite (_ : take _ _ ++ _ = cstr (rendered s)); last first.
  { unfold rendered, cstr. destruct (Z.leb_spec (slen s) INT_MAX); [|done].
    f_equal. apply take_ge. rewrite length_chars. unfold slen. lia. }
  iApply (wp_write_prefix l [] rest with "Hl"); [done|rewrite length_cstr; lia|].
  rewrite length_cstr. done.
Qed.

(** ** Results of an allocation before the NULL test *)

(** [p] is NULL, or a block holding [o]. *)
Definition opt_block (p : ptr) (o : obj) : hProp :=
  (⟪p = NULL⟫ ∨ ∃ l, ⟪p = Heap l⟫ ∗ l ↦ o)%I.

Lemma opt_block_nonnull p o :
  is_null p = false → opt_block p o ⊢ ∃ l, ⟪p = Heap l⟫ ∗ l ↦ o.
Proof. iIntros (Hp) "[%H|H]"; [simplify_eq/=|done]. Qed.

Lemma opt_block_null p o : is_null p = true → opt_block p o ⊢ ⟪p = NULL⟫.
Proof. iIntros (Hp) "[%H|(%l & %H & Hl)]"; [done|by subst]. Qed.

Lemma malloc_spec size o x :
  {{ emp }} malloc size o @ x {{ r x',
    opt_block r o ∗
    ⟪quiet x x' ∧ (if is_null r then size ≠ 0 → oomed x x' else size ≤ PTRDIFF_MAX)⟫ }}.
Proof.
  iIntros "_". iApply wp_malloc. iSplit; [|iSplit].
  - iIntros (l Hl) "Hl". iSplitL "Hl".
    + iRight. iExists l. by iFrame.
    + iPureIntro. split; [done|]. done.
  - iSplitL; [by iLeft|]. iPureIntro. split; [|intros _]; ext_tac.
  - iIntros (->). iSplitL; [by iLeft|]. iPureIntro. split; [reflexivity|by intros []].
Qed.

Lemma free_spec p o x :
  is_malloced o = true → {{ opt_block p o }} free p @ x {{ r x', ⟪x' = x⟫ }}.
Proof.
  iIntros (Ho) "[->|(%l & -> & Hl)]".
  - iApply wp_free_null. by iPureIntro.
  - iApply (wp_free with "Hl"); [done|]. by iPureIntro.
Qed.

(** ** Runs whose first allocation has a given outcome

    [wp_next b m x Q] is [wp m x Q] for the runs in which the next allocation
    succeeds ([b = true]) or fails; the outcomes of all later ones are arbitrary. *)
Definition next_outcome (w : world) : bool :=
  match w_alloc w with [] => true | b :: _ => b end.

Definition wp_next {A} (b : bool) (m : M A) (x : ext) (Q : A → ext → hProp) : hProp := HProp (λ h,
  ∀ w hf, next_outcome w = b → h ##ₘ hf → w_heap w = h ∪ hf → w_ext w = x →
  ∃ a w' h', m w = Ret a w' ∧ h' ##ₘ hf ∧ w_heap w' = h' ∪ hf ∧ holds (Q a (w_ext w')) h').

Lemma wp_next_ext {A} b (m m' : M A) x Q :
  (∀ w, m w = m' w) → wp_next b m' x Q ⊢ wp_next b m x Q.
Proof. intros E. split; intros h H w hf Hb Hd Hw Hx. rewrite E. by apply H. Qed.

Lemma wp_next_mono {A} b (m : M A) x Q Q' :
  (∀ a x', Q a x' ⊢ Q' a x') → wp_next b m x Q ⊢ wp_next b m x Q'.
Proof.
  intros HQ. split; intros h H w hf Hb Hd Hw Hx.
  destruct (H w hf Hb Hd Hw Hx) as (a & w' & h' & E & Hd' & Hw' & Ha).
  exists a, w', h'. split_and!; [done..|]. by apply (entails_at _ _ (HQ a _)).
Qed.

Lemma wp_next_malloc {B} size o (k : ptr → M B) x Q :
  size ≤ PTRDIFF_MAX →
  (∀ l, l ↦ o -∗ wp (k (Heap l)) x Q) ⊢ wp_next true (malloc size o ≫= k) x Q.
Proof.
  intros Hs. split; intros h HQ w hf Hb Hd Hw Hx.
  pose (w1 := World (w_heap w) (match w_alloc w with [] => [] | _ :: bs => bs end) (w_ext w)).
  assert (E : (malloc size o ≫= k) w = (new_block o ≫= k) w1).
  { unfold mbind, M_bind, malloc, next_alloc. unfold next_outcome in Hb.
    destruct w as [wh [|[] bs] wx]; try done; subst w1; cbn;
      (apply Z.leb_le in Hs as ->); done. }
  rewrite E. assert (Hn : holds (wp (new_block o ≫= k) x Q) h); [|by apply Hn].
  revert HQ. apply entails_at.
  iIntros "H". iApply wp_bind. iApply wp_new_block. iIntros (l) "Hl". by iApply "H".
Qed.

#[global] Arguments wp : simpl never.
#[global] Arguments wp_next : simpl never.
#[global] Arguments pt : simpl never.
#[global] Opaque mret mbind.

(** ** Symbolic execution

    [wp_step] runs the first operation of the goal's program when it is a
    primitive whose resource is in the context; [wp_steps] goes on as long as it
    can.  [wp_simpl] reduces what the code computes on known values; [wp_call]
    applies the triple of a called function, framing its precondition. *)
Ltac wp_simpl :=
  cbn [is_null negb andb orb
       do_not_free message code_count code_array
       dev_syspath dev_serial_number dev_product_id dev_vendor_id dev_revision
       gi_device gi_interface_number gi_syspath gi_filename
       gh_device gh_fd gh_in_timeout gh_out_timeout
       sp_syspath sp_port_name
       urb_type urb_endpoint urb_status urb_buffer urb_buffer_length
       urb_actual_length urb_error_count urb_usercontext
       at_urb at_pending at_error at_fd
       pipe_handle pipe_pipe_id pipe_transfer_array pipe_transfer_size
       pipe_transfer_count pipe_endless_transfers_enabled pipe_pending_count
       pipe_next_finish pipe_next_submit x_trace x_errno x_oom fst snd].

(** Decide comparisons of constants. *)
Ltac is_Z_constant n :=
  lazymatch n with Z0 => idtac | Zpos _ => idtac | Zneg _ => idtac end.

Ltac wp_constants :=
  repeat match goal with
         | |- context [Z.eqb ?a ?b] =>
             is_Z_constant a; is_Z_constant b;
             let v := eval vm_compute in (Z.eqb a b) in change (Z.eqb a b) with v
         | |- context [Z.ltb ?a ?b] =>
             is_Z_constant a; is_Z_constant b;
             let v := eval vm_compute in (Z.ltb a b) in change (Z.ltb a b) with v
         end; wp_simpl.

(** Use what is known about which pointers are NULL. *)
Ltac wp_nulls :=
  repeat match goal with
         | H : is_null ?p = _ |- context [is_null ?p] => rewrite H; wp_simpl
         end.

Ltac wp_step :=
  wp_simpl; wp_nulls;
  lazymatch goal with
  | |- envs_entails _ (wp ?m _ _) =>
      lazymatch m with
      | mret _ => iApply wp_ret
      | mbind _ _ => iApply wp_bind
      | when _ _ => iApply wp_when
      | get_ext => iApply wp_get_ext
      | get_errno => iApply wp_get_errno
      | set_errno _ => iApply wp_set_errno
      | get_trace => iApply wp_get_trace
      | log_event _ => iApply wp_log_event
      | load (Heap ?l) => iApply (wp_load l with "[$]"); iIntros "?"
      | load_as _ (Heap ?l) => iApply (wp_load_as _ _ l with "[$]"); [reflexivity|]; iIntros "?"
      | store (Heap ?l) _ => iApply (wp_store l with "[$]"); iIntros "?"
      | free (Heap ?l) => iApply (wp_free l with "[$]"); [reflexivity|]
      | free NULL => iApply wp_free_null
      | release _ (Heap ?l) => iApply (wp_release _ l with "[$]"); [reflexivity|]
      | c_assert true => iApply wp_assert; [reflexivity|]
      end
  end; wp_simpl; wp_nulls.

Ltac wp_steps := wp_simpl; wp_nulls; repeat wp_step.

Tactic Notation "wp_call" open_constr(t) :=
  lazymatch goal with
  | |- envs_entails _ (wp ?m ?x _) => iApply (use_triple _ m x _ _ t with "[$]")
  end.
