(* ===== verification/Format.v ===== *)
(** * Format: the conversions of [printf] and [scanf] the library uses

    [fmt_d] renders [%d], [fmt_x w] renders [%0wx]; both work on the fixed number
    of digits of a 64-bit value and strip leading zeros.  [scan_hex w] is the
    conversion [%wx] of [sscanf]: white space, a sign, an optional [0x], at most
    [w] characters of input. *)

From S2P Require Import Prelude.

(** ** Digits *)

Definition digit_char (d : Z) : ascii :=
  Ascii.ascii_of_N (Z.to_N (if d <? 10 then 48 + d else 87 + d)).

(** The [k] low digits of [n], most significant first. *)
Fixpoint digs (base : Z) (k : nat) (n : Z) : list Z :=
  match k with
  | O => []
  | S k => digs base k (n / base) ++ [n mod base]
  end.

(** Drop at most [k] leading zeros. *)
Fixpoint strip (k : nat) (ds : list Z) : list Z :=
  match k, ds with
  | S k, d :: ds' => if d =? 0 then strip k ds' else ds
  | _, _ => ds
  end.

Definition of_digits (ds : list Z) : string :=
  String.string_of_list_ascii (digit_char <$> ds).

(** [%0wx] and [%d]. *)
Definition fmt_x (w : nat) (n : Z) : string := of_digits (strip (16 - w) (digs 16 16 n)).
Definition fmt_u (n : Z) : string := of_digits (strip 19 (digs 10 20 n)).
Definition fmt_d (n : Z) : string := if n <? 0 then "-" +:+ fmt_u (- n) else fmt_u n.

Example fmt_x_example : fmt_x 4 0xffb = "0ffb".
Proof. reflexivity. Qed.
Example fmt_d_example : (fmt_d (-32), fmt_d 0, fmt_x 2 0x1a5) = ("-32", "0", "1a5").
Proof. reflexivity. Qed.

(** ** Scanning *)

Definition is_space (c : ascii) : bool :=
  let n := Z.of_N (Ascii.N_of_ascii c) in
  (n =? 32) || ((9 <=? n) && (n <=? 13)).

Definition hex_digit (c : ascii) : option Z :=
  let n := Z.of_N (Ascii.N_of_ascii c) in
  if (48 <=? n) && (n <=? 57) then Some (n - 48)
  else if (97 <=? n) && (n <=? 102) then Some (n - 87)
  else if (65 <=? n) && (n <=? 70) then Some (n - 55)
  else None.

Fixpoint skip_space (cs : list ascii) : list ascii :=
  match cs with
  | c :: cs' => if is_space c then skip_space cs' else cs
  | [] => []
  end.

(** At most [w] hexadecimal digits. *)
Fixpoint take_hex (w : nat) (cs : list ascii) : list Z :=
  match w, cs with
  | S w, c :: cs => match hex_digit c with Some d => d :: take_hex w cs | None => [] end
  | _, _ => []
  end.

Definition value (ds : list Z) : Z := fold_left (λ v d, 16 * v + d) ds 0.

Definition scan_sign (w : nat) (cs : list ascii) : bool * nat * list ascii :=
  match cs with
  | c :: cs' =>
      if Ascii.eqb c "-" then (true, pred w, cs')
      else if Ascii.eqb c "+" then (false, pred w, cs')
      else (false, w, cs)
  | [] => (false, w, cs)
  end.

Definition scan_prefix (w : nat) (cs : list ascii) : nat * list ascii :=
  match w, cs with
  | S (S w'), c :: d :: cs' =>
      if Ascii.eqb c "0" && (Ascii.eqb d "x" || Ascii.eqb d "X") then (w', cs') else (w, cs)
  | _, _ => (w, cs)
  end.

(** [Some n] when the conversion succeeds ([sscanf] returns 1). *)
Definition scan_hex (w : nat) (s : string) : option Z :=
  let cs := skip_space (String.list_ascii_of_string s) in
  let '(neg, w, cs) := scan_sign w cs in
  let '(w, cs) := scan_prefix w cs in
  match take_hex w cs with
  | [] => None
  | ds => Some (if neg : bool then - value ds else value ds)
  end.

(** [sscanf(s, "%4hx\n", &value)] and [sscanf(s, "%4hhx\n", &value)]. *)
Definition sscanf_4hx (s : string) : option Z := to_u16 <$> scan_hex 4 s.
Definition sscanf_4hhx (s : string) : option Z := to_u8 <$> scan_hex 4 s.

Example sscanf_example :
  (sscanf_4hx "0x1F", sscanf_4hx " 1ffb1", sscanf_4hhx "1a5", sscanf_4hx "xyz") =
  (Some 0x1f, Some 0x1ffb, Some 0xa5, None).
Proof. reflexivity. Qed.

(** ** Rendered text holds no NUL *)

Lemma no_nul_list cs :
  no_nul (String.string_of_list_ascii cs) = forallb (λ c, negb (bool_decide (c = nul))) cs.
Proof. induction cs as [|c cs IH]; cbn; [done|]. by rewrite IH. Qed.

Lemma Forall_digs base k n : 0 < base → Forall (λ d, 0 ≤ d < base) (digs base k n).
Proof.
  intros. revert n. induction k as [|k IH]; intros n; cbn; [constructor|].
  apply Forall_app. split; [apply IH|]. constructor; [|constructor].
  by apply Z.mod_pos_bound.
Qed.

Lemma Forall_strip (P : Z → Prop) k ds : Forall P ds → Forall P (strip k ds).
Proof.
  revert ds. induction k as [|k IH]; intros [|d ds] H; cbn; try done.
  destruct (d =? 0); [|done]. apply IH. by inversion H.
Qed.

Lemma digit_cases (P : Z → Prop) d :
  P 0 → P 1 → P 2 → P 3 → P 4 → P 5 → P 6 → P 7 → P 8 → P 9 → P 10 → P 11 → P 12 →
  P 13 → P 14 → P 15 → 0 ≤ d < 16 → P d.
Proof.
  intros. assert (d = 0 ∨ d = 1 ∨ d = 2 ∨ d = 3 ∨ d = 4 ∨ d = 5 ∨ d = 6 ∨ d = 7 ∨
    d = 8 ∨ d = 9 ∨ d = 10 ∨ d = 11 ∨ d = 12 ∨ d = 13 ∨ d = 14 ∨ d = 15) by lia.
  by destruct_or!; subst.
Qed.

Lemma hex_digit_char d : 0 ≤ d < 16 → hex_digit (digit_char d) = Some d.
Proof. by apply (digit_cases (λ d, hex_digit (digit_char d) = Some d)). Qed.

Lemma digit_char_not_nul d : 0 ≤ d < 16 → bool_decide (digit_char d = nul) = false.
Proof.
  intros H. apply bool_decide_false. revert H. by apply (digit_cases (λ d, digit_char d ≠ nul)).
Qed.

Lemma no_nul_of_digits ds : Forall (λ d, 0 ≤ d < 16) ds → no_nul (of_digits ds) = true.
Proof.
  unfold of_digits. rewrite no_nul_list. induction 1 as [|d ds Hd _ IH]; [done|].
  cbn. rewrite IH, digit_char_not_nul; done.
Qed.

Lemma no_nul_fmt_x w n : no_nul (fmt_x w n) = true.
Proof. apply no_nul_of_digits, Forall_strip, Forall_digs. lia. Qed.

Lemma no_nul_fmt_u n : no_nul (fmt_u n) = true.
Proof.
  apply no_nul_of_digits, Forall_strip.
  eapply Forall_impl; [by apply Forall_digs|]. cbn. lia.
Qed.

Lemma no_nul_fmt_d n : no_nul (fmt_d n) = true.
Proof. unfold fmt_d. destruct (n <? 0); [rewrite no_nul_app|]; by rewrite no_nul_fmt_u. Qed.

(** ** Round trip *)

Lemma value_snoc ds d : value (ds ++ [d]) = 16 * value ds + d.
Proof. unfold value. by rewrite fold_left_app. Qed.

Lemma value_digs k n : 0 ≤ n < 16 ^ Z.of_nat k → value (digs 16 k n) = n.
Proof.
  revert n. induction k as [|k IH]; intros n Hn.
  - cbn in *. lia.
  - cbn [digs]. rewrite value_snoc, IH.
    + pose proof (Z.div_mod n 16). lia.
    + rewrite Nat2Z.inj_succ, Z.pow_succ_r in Hn; [|lia].
      split; [apply Z.div_pos; lia|]. apply Z.div_lt_upper_bound; lia.
Qed.

Lemma length_digs base k n : List.length (digs base k n) = k.
Proof. revert n. induction k as [|k IH]; intros n; cbn; [done|]. rewrite length_app, IH. cbn. lia. Qed.

(** A value that fits [k] digits has leading zeros only before them. *)
Lemma digs_zeros j k n :
  0 ≤ n < 16 ^ Z.of_nat k → digs 16 (j + k) n = replicate j 0 ++ digs 16 k n.
Proof.
  revert n. induction k as [|k IH]; intros n Hn.
  - assert (n = 0) as -> by (cbn in Hn; lia). rewrite Nat.add_0_r, app_nil_r.
    induction j as [|j IHj]; [done|]. cbn [digs]. change (0 / 16) with 0.
    rewrite IHj. symmetry. apply replicate_cons_app.
  - rewrite Nat.add_succ_r. cbn [digs]. rewrite IH, app_assoc; [done|].
    rewrite Nat2Z.inj_succ, Z.pow_succ_r in Hn; [|lia].
    split; [apply Z.div_pos; lia|]. apply Z.div_lt_upper_bound; lia.
Qed.

Lemma strip_zeros j ds : strip j (replicate j 0 ++ ds) = ds.
Proof. induction j as [|j IH]; cbn; [by destruct ds|done]. Qed.

(** [%0kx] of a value of at most [k] digits has exactly [k] digits. *)
Lemma fmt_x_digs k n :
  (k ≤ 16)%nat → 0 ≤ n < 16 ^ Z.of_nat k → fmt_x k n = of_digits (digs 16 k n).
Proof.
  intros Hk Hn. unfold fmt_x.
  replace (digs 16 16 n) with (digs 16 ((16 - k) + k) n) by (f_equal; lia).
  by rewrite digs_zeros, strip_zeros.
Qed.

Lemma take_hex_digits ds k rest :
  Forall (λ d, 0 ≤ d < 16) ds →
  take_hex (List.length ds + k) ((digit_char <$> ds) ++ rest) = ds ++ take_hex k rest.
Proof.
  induction 1 as [|d ds Hd _ IH]; [done|].
  cbn. rewrite hex_digit_char by done. cbn in IH. by rewrite IH.
Qed.

(** [sscanf] with a width of [length ds + k] reads the digits [ds], when what
    follows does not go on with a digit (or the width is used up). *)
Lemma scan_digits ds k rest :
  (2 ≤ List.length ds)%nat → Forall (λ d, 0 ≤ d < 16) ds →
  take_hex k (String.list_ascii_of_string rest) = [] →
  scan_hex (List.length ds + k) (of_digits ds +:+ rest) = Some (value ds).
Proof.
  intros Hlen Hds Hrest. destruct ds as [|d [|d2 ds]]; [cbn in *; lia..|].
  pose proof (take_hex_digits _ k (String.list_ascii_of_string rest) Hds) as Ht.
  inversion Hds as [|? ? Hd [|? ? Hd2 Hds']]; subst.
  unfold scan_hex. rewrite list_ascii_app. unfold of_digits.
  rewrite String.list_ascii_of_string_of_list_ascii.
  cbn [fmap list_fmap app] in *.
  assert (Hs : is_space (digit_char d) = false ∧ Ascii.eqb (digit_char d) "-" = false ∧
               Ascii.eqb (digit_char d) "+" = false).
  { by apply (digit_cases (λ d, is_space (digit_char d) = false ∧
      Ascii.eqb (digit_char d) "-" = false ∧ Ascii.eqb (digit_char d) "+" = false)). }
  assert (Hx : Ascii.eqb (digit_char d2) "x" = false ∧ Ascii.eqb (digit_char d2) "X" = false).
  { by apply (digit_cases (λ d, Ascii.eqb (digit_char d) "x" = false ∧
      Ascii.eqb (digit_char d) "X" = false)). }
  destruct Hs as (Hs & Hm & Hp), Hx as (Hx & HX).
  cbn [skip_space scan_sign]. rewrite Hs. cbn [scan_sign]. rewrite Hm, Hp.
  cbn [List.length Nat.add scan_prefix]. rewrite Hx, HX, andb_false_r.
  cbn [List.length Nat.add] in Ht. by rewrite Ht, Hrest, app_nil_r.
Qed.

Lemma scan_fmt_x w k n rest :
  (2 ≤ w ≤ 16)%nat → 0 ≤ n < 16 ^ Z.of_nat w →
  take_hex k (String.list_ascii_of_string rest) = [] →
  scan_hex (w + k) (fmt_x w n +:+ rest) = Some n.
Proof.
  intros Hw Hn Hr. rewrite fmt_x_digs; [|lia|done].
  rewrite <- (length_digs 16 w n) at 1. rewrite scan_digits.
  - by rewrite value_digs.
  - rewrite length_digs. lia.
  - apply Forall_digs. lia.
  - done.
Qed.

Definition newline : string := String (Ascii.ascii_of_nat 10) "".

(** The attributes of sysfs, as the kernel prints them: four digits for the
    16-bit ones, two for the 8-bit ones, and a newline, which libudev can strip. *)
Definition sysfs_hex (w : nat) (n : Z) (s : string) : Prop :=
  s = fmt_x w n ∨ s = fmt_x w n +:+ newline.

Lemma sysfs_hex_rest w n s :
  sysfs_hex w n s → ∃ rest, s = fmt_x w n +:+ rest ∧ no_nul rest = true ∧
    ∀ k, take_hex k (String.list_ascii_of_string rest) = [].
Proof.
  intros [-> | ->]; [exists ""; rewrite app_empty_r|exists newline];
    (split; [done|split; [done|by intros []]]).
Qed.

Lemma sysfs_hex_no_nul w n s : sysfs_hex w n s → no_nul s = true.
Proof.
  intros (rest & -> & Hr & _)%sysfs_hex_rest. by rewrite no_nul_app, no_nul_fmt_x, Hr.
Qed.

Lemma sscanf_4hx_sysfs n s : u16 n → sysfs_hex 4 n s → sscanf_4hx s = Some n.
Proof.
  intros Hn (rest & -> & _ & Hr)%sysfs_hex_rest. unfold sscanf_4hx.
  rewrite (scan_fmt_x 4 0); [|lia|done|done]. cbn. f_equal. by apply wrap_id.
Qed.

Lemma sscanf_4hhx_sysfs n s : u8 n → sysfs_hex 2 n s → sscanf_4hhx s = Some n.
Proof.
  intros Hn (rest & -> & _ & Hr)%sysfs_hex_rest. unfold sscanf_4hhx.
  rewrite (scan_fmt_x 2 2); [|lia|done|done]. cbn. f_equal. by apply wrap_id.
Qed.

Lemma sscanf_4hx_range s n : sscanf_4hx s = Some n → u16 n.
Proof.
  unfold sscanf_4hx. destruct (scan_hex 4 s); [|done]. intros [= <-].
  apply (wrap_range 16). lia.
Qed.

Lemma sscanf_4hhx_range s n : sscanf_4hhx s = Some n → u8 n.
Proof.
  unfold sscanf_4hhx. destruct (scan_hex 4 s); [|done]. intros [= <-].
  apply (wrap_range 8). lia.
Qed.

(** ** Lengths *)

Lemma slen_of_digits ds : slen (of_digits ds) = Z.of_nat (List.length ds).
Proof.
  unfold slen, of_digits.
  by rewrite <- length_list_ascii, String.list_ascii_of_string_of_list_ascii, length_fmap.
Qed.

Lemma length_strip k ds : (List.length (strip k ds) ≤ List.length ds)%nat.
Proof.
  revert ds. induction k as [|k IH]; intros [|d ds]; simpl; try lia.
  destruct (d =? 0); simpl; [|lia]. specialize (IH ds). lia.
Qed.

Lemma slen_fmt_x w n : slen (fmt_x w n) ≤ 16.
Proof.
  unfold fmt_x. rewrite slen_of_digits. pose proof (length_strip (16 - w) (digs 16 16 n)) as H.
  rewrite length_digs in H. lia.
Qed.

Lemma slen_fmt_d n : slen (fmt_d n) ≤ 21.
Proof.
  assert (Hu : ∀ m, slen (fmt_u m) ≤ 20).
  { intros m. unfold fmt_u. rewrite slen_of_digits. pose proof (length_strip 19 (digs 10 20 m)).
    rewrite length_digs in H. lia. }
  unfold fmt_d. destruct (n <? 0); [|specialize (Hu n); lia].
  rewrite slen_app. specialize (Hu (- n)). change (slen "-") with 1. lia.
Qed.

