(* ===== verification/Errors.v ===== *)
(** * Errors: the error objects of src/src/error.c

    The operations on [libusbp_error], in the style of the source: pointers to
    heap blocks, three static objects that are never freed or written, the byte
    level assembly of messages.  [err_own p a] says that [p] is an error object
    whose message and codes are those of the abstract error [a]; every operation
    is shown to refine its counterpart on abstract errors. *)

From S2P Require Import Prelude Memory Logic.
#[local] Set Warnings "-rewrite-rw".

(** Error codes of include/libusbp.h, [enum libusbp_error_code]. *)
Definition LIBUSBP_ERROR_MEMORY : Z := 1.
Definition LIBUSBP_ERROR_NOT_READY : Z := 2.
Definition LIBUSBP_ERROR_ACCESS_DENIED : Z := 3.
Definition LIBUSBP_ERROR_NO_SERIAL_NUMBER : Z := 4.
Definition LIBUSBP_ERROR_TIMEOUT : Z := 5.
Definition LIBUSBP_ERROR_DEVICE_DISCONNECTED : Z := 6.
Definition LIBUSBP_ERROR_STALL : Z := 7.
Definition LIBUSBP_ERROR_CANCELLED : Z := 8.

(** ** The code *)

Definition error_no_memory_msg : string := "Failed to allocate memory.".
Definition error_masked_by_no_memory_msg : string :=
  "Failed to allocate memory for reporting an error.".

(** The initialisers of the static objects. *)
Definition static_error (s : static_object) : option libusbp_error :=
  match s with
  | error_no_memory =>
      Some {| do_not_free := true; message := Lit error_no_memory_msg;
              code_count := 1; code_array := Static mem_error_code_array |}
  | error_masked_by_no_memory =>
      Some {| do_not_free := true; message := Lit error_masked_by_no_memory_msg;
              code_count := 1; code_array := Static mem_error_code_array |}
  | error_blank =>
      Some {| do_not_free := true; message := NULL; code_count := 0; code_array := NULL |}
  | mem_error_code_array => None
  end.

(** [static uint32_t mem_error_code_array[1]]. *)
Definition static_words (s : static_object) : option (list (option Z)) :=
  match s with
  | mem_error_code_array => Some [Some LIBUSBP_ERROR_MEMORY]
  | _ => None
  end.

Definition load_error (p : ptr) : M libusbp_error :=
  match p with
  | Static s => match static_error s with Some e => mret e | None => stuck WildPointer end
  | _ => load_as as_error p
  end.

Definition load_words (p : ptr) : M (list (option Z)) :=
  match p with
  | Static s => match static_words s with Some ws => mret ws | None => stuck WildPointer end
  | _ => load_as as_words p
  end.

(** [memcpy(dst, src, n * sizeof(uint32_t))] between arrays of words. *)
Definition memcpy_words (dst src : ptr) (n : Z) : M unit :=
  ws ← load_words src;
  ds ← load_as as_words dst;
  if (n <=? Z.of_nat (List.length ws)) && (n <=? Z.of_nat (List.length ds))
  then store dst (OWords (take (Z.to_nat n) ws ++ drop (Z.to_nat n) ds))
  else stuck OutOfBounds.

Definition malloc_words (n : Z) : M ptr :=
  malloc (to_size (n * sizeof_uint32_t)) (OWords (replicate (Z.to_nat n) None)).

(** [realloc] of an array of words to [n] of them. *)
Definition resize_words (n : Z) (o : obj) : obj :=
  match o with
  | OWords ws => OWords (take (Z.to_nat n) (ws ++ replicate (Z.to_nat n) None))
  | _ => o
  end.

Definition libusbp_error_free (error : ptr) : M unit :=
  if is_null error then mret tt else
  e ← load_error error;
  when (negb (do_not_free e))
    (free (message e);;
     free (code_array e);;
     free error).

Definition libusbp_error_copy (src_error : ptr) : M ptr :=
  if is_null src_error then mret NULL else
  src ← load_error src_error;
  let src_message := if is_null (message src) then Lit "" else message src in
  message_length ← strlen src_message;
  let count := if is_null (code_array src) then 0 else code_count src in
  (* Allocate memory. *)
  new_error ← malloc sizeof_libusbp_error OUninit;
  new_message ← malloc_chars (to_size (message_length + 1));
  new_code_array ← malloc_words count;
  if is_null new_error || is_null new_message
     || (negb (count =? 0) && is_null new_code_array)
  then
    free new_error;;
    free new_message;;
    free new_code_array;;
    mret (Static error_masked_by_no_memory)
  else
    when (negb (count =? 0)) (memcpy_words new_code_array (code_array src) count);;
    strncpy new_message 0 src_message (to_size (message_length + 1));;
    store new_error (OError {| do_not_free := false; message := new_message;
                               code_count := count; code_array := new_code_array |});;
    mret new_error.

Definition error_make_mutable (error : ptr) : M ptr :=
  let error := if is_null error then Static error_blank else error in
  e ← load_error error;
  if do_not_free e then libusbp_error_copy error else mret error.

(** [format] is [None] for a null format, otherwise the text that the format
    and its arguments render to. *)
Definition error_add_v (error : ptr) (format : option string) : M ptr :=
  match format with
  | None => mret error
  | Some text =>
      error ← error_make_mutable error;
      if is_null error then mret error else
      e ← load_error error;
      if do_not_free e then mret error else
      e ← (if is_null (message e) then
             let e' := {| do_not_free := do_not_free e; message := Lit "";
                          code_count := code_count e; code_array := code_array e |} in
             store error (OError e');; mret e'
           else mret e);
      let msg := message e in
      (* Determine all the string lengths. *)
      let result := vsnprintf_result text in
      let outer_message_length := if 0 <? result then result else 0 in
      inner_message_length ← strlen msg;
      let separator_length :=
        if negb (inner_message_length =? 0) && negb (outer_message_length =? 0)
        then 2 else 0 in
      let message_length :=
        to_size (to_size (outer_message_length + separator_length) + inner_message_length) in
      new_message ← malloc_chars (to_size (message_length + 1));
      if is_null new_message then
        libusbp_error_free error;;
        mret (Static error_masked_by_no_memory)
      else
        (* Assemble the message. *)
        vsnprintf new_message (outer_message_length + 1) text;;
        when (negb (separator_length =? 0))
          (strncpy new_message outer_message_length (Lit "  ") (separator_length + 1));;
        strncpy new_message (outer_message_length + separator_length) msg
          (inner_message_length + 1);;
        write_chars new_message message_length [Some nul];;
        free msg;;
        store error (OError {| do_not_free := do_not_free e; message := new_message;
                               code_count := code_count e; code_array := code_array e |});;
        mret error
  end.

Definition error_add_code (error : ptr) (code : Z) : M ptr :=
  error ← error_make_mutable error;
  if is_null error then mret error else
  e ← load_error error;
  if do_not_free e then mret error else
  if SIZE_MAX / sizeof_uint32_t <=? code_count e then mret error else
  let size := to_size ((code_count e + 1) * sizeof_uint32_t) in
  new_array ← realloc (code_array e) size
                (OWords (replicate (Z.to_nat (size / sizeof_uint32_t)) None))
                (resize_words (size / sizeof_uint32_t));
  if is_null new_array then
    libusbp_error_free error;;
    mret (Static error_masked_by_no_memory)
  else
    store_elem as_words OWords new_array (code_count e) (to_u32 code);;
    store error (OError {| do_not_free := do_not_free e; message := message e;
                           code_count := to_size (code_count e + 1);
                           code_array := new_array |});;
    mret error.

Definition error_add (error : ptr) (text : string) : M ptr := error_add_v error (Some text).

Definition error_create (text : string) : M ptr := error_add_v NULL (Some text).

(** The loop of [libusbp_error_has_code], from index [i], [n] iterations left. *)
Fixpoint has_code_loop (e : libusbp_error) (code i : Z) (n : nat) : M bool :=
  match n with
  | O => mret false
  | S n =>
      ws ← load_words (code_array e);
      match ws !! Z.to_nat i with
      | Some (Some c) => if c =? code then mret true else has_code_loop e code (i + 1) n
      | Some None => stuck Uninitialised
      | None => stuck OutOfBounds
      end
  end.

Definition libusbp_error_has_code (error : ptr) (code : Z) : M bool :=
  if is_null error then mret false else
  e ← load_error error;
  has_code_loop e code 0 (Z.to_nat (code_count e)).

Definition libusbp_error_get_message (error : ptr) : M ptr :=
  if is_null error then mret (Lit "No error.") else
  e ← load_error error;
  if is_null (message e) then mret (Lit "") else mret (message e).

(** ** Abstract errors *)

(** What a caller can observe of an error object. *)
Record aerr := AErr { msg : string; codes : list Z }.

#[export] Instance aerr_eq_dec : EqDecision aerr.
Proof. solve_decision. Defined.

(** Decorating a message with an outer one. *)
Definition join (outer inner : string) : string :=
  match inner, outer with
  | "", _ => outer
  | _, "" => inner
  | _, _ => outer +:+ "  " +:+ inner
  end%string.

Lemma join_empty_l t : join "" t = t.
Proof. by destruct t. Qed.

Definition blank : aerr := AErr "" [].
Definition err_add (a : aerr) (text : string) : aerr := AErr (join (rendered text) (msg a)) (codes a).
Definition err_code (a : aerr) (code : Z) : aerr := AErr (msg a) (codes a ++ [to_u32 code]).
Definition err_new (text : string) : aerr := err_add blank text.
Definition no_memory : aerr := AErr error_no_memory_msg [LIBUSBP_ERROR_MEMORY].
Definition masked : aerr := AErr error_masked_by_no_memory_msg [LIBUSBP_ERROR_MEMORY].

(** The static objects the library can return. *)
Definition static_aerr (s : static_object) : option aerr :=
  match s with
  | error_no_memory => Some no_memory
  | error_masked_by_no_memory => Some masked
  | _ => None
  end.

(** ** Representation *)

Definition codes_own (p : ptr) (cs : list Z) : hProp :=
  (⟪p = NULL ∧ cs = []⟫ ∨
   ∃ l, ⟪p = Heap l ∧ sizeof_uint32_t * Z.of_nat (List.length cs) ≤ PTRDIFF_MAX⟫ ∗
        l ↦ OWords (Some <$> cs))%I.

(** A heap allocated error. *)
Definition heap_err (p : ptr) (a : aerr) : hProp :=
  (∃ l pm pc, ⟪p = Heap l⟫ ∗
     l ↦ OError {| do_not_free := false; message := pm;
                   code_count := Z.of_nat (List.length (codes a)); code_array := pc |} ∗
     str_own pm (msg a) ∗ codes_own pc (codes a))%I.

Lemma heap_err_static s a : heap_err (Static s) a ⊢ False.
Proof. by iIntros "(%l & %pm & %pc & %H & H)". Qed.

(** Any error a caller can hold. *)
Definition err_own (p : ptr) (a : aerr) : hProp :=
  (⟪∃ s, p = Static s ∧ static_aerr s = Some a⟫ ∨ heap_err p a)%I.

(** A possibly null error pointer. *)
Definition opt_err (p : ptr) (oa : option aerr) : hProp :=
  match oa with None => ⟪p = NULL⟫ | Some a => err_own p a end%I.

Lemma opt_err_null p oa : opt_err p oa ⊢ ⌜is_null p = match oa with None => true | Some _ => false end⌝ ∧ opt_err p oa.
Proof.
  destruct oa as [a|]; cbn; iIntros "H"; (iSplit; [|done]).
  - iDestruct "H" as "[%H|(%l & %pm & %pc & %H & H)]".
    + by destruct H as (s & -> & _).
    + by subst.
  - by iDestruct "H" as %->.
Qed.

Lemma codes_own_null p cs : codes_own p cs ⊢ ⌜is_null p = true → cs = []⌝ ∧ codes_own p cs.
Proof.
  iIntros "H". iSplit; [|done]. iDestruct "H" as "[%H|(%l & %H & H)]".
  - by destruct H as [-> ->].
  - by destruct H as [-> _].
Qed.

(** ** Specifications *)

Lemma libusbp_error_free_spec p oa x :
  {{ opt_err p oa }} libusbp_error_free p @ x {{ r x', ⟪x' = x⟫ }}.
Proof.
  iIntros "H". iDestruct (opt_err_null with "H") as "[%Hn H]".
  unfold libusbp_error_free. rewrite Hn. destruct oa as [a|]; cbn.
  2: { iDestruct "H" as %->. wp_steps. by iPureIntro. }
  iDestruct "H" as "[%H|(%l & %pm & %pc & -> & Hl & Hm & Hc)]".
  - destruct H as (s & -> & Hs).
    destruct s; try done; cbn [load_error static_error]; wp_steps; by iPureIntro.
  - unfold load_error. wp_steps.
    iDestruct "Hm" as "(%lm & %Hm & Hm)". destruct Hm as (-> & _ & _). wp_steps.
    iDestruct "Hc" as "[%Hc|(%lc & %Hc & Hc)]"; destruct Hc as [-> _]; wp_steps; by iPureIntro.
Qed.

(** A pointer the words [ws] can be read from. *)
Definition reads_words (R : hProp) (p : ptr) (ws : list (option Z)) : Prop :=
  ∀ x Q, R -∗ (R -∗ Q ws x) -∗ wp (load_words p) x Q.

Lemma reads_static_words : reads_words emp%I (Static mem_error_code_array) [Some LIBUSBP_ERROR_MEMORY].
Proof. iIntros (x Q) "HE HQ". cbn. wp_steps. by iApply "HQ". Qed.

Lemma reads_words_block l ws : reads_words (l ↦ OWords ws)%I (Heap l) ws.
Proof. iIntros (x Q) "Hl HQ". cbn [load_words]. wp_steps. by iApply "HQ". Qed.

(** [memcpy] into a fresh array of the same length. *)
Lemma wp_memcpy_words R q ws l n x Q :
  reads_words R q ws → n = Z.of_nat (List.length ws) →
  R -∗ l ↦ OWords (replicate (Z.to_nat n) None) -∗
  (R -∗ l ↦ OWords ws -∗ Q tt x) -∗
  wp (memcpy_words (Heap l) q n) x Q.
Proof.
  iIntros (Hr ->) "HR Hl HQ". unfold memcpy_words. wp_step. iApply (Hr with "HR").
  iIntros "HR". wp_steps. rewrite length_replicate Nat2Z.id !Z.leb_refl. wp_steps.
  rewrite take_ge // drop_replicate Nat.sub_diag app_nil_r.
  iApply ("HQ" with "HR [$]").
Qed.

(** What [libusbp_error_copy] does once the source is known to be [e], with a
    readable message and code array. *)
Lemma error_copy_body R W p e a x :
  is_null p = false →
  (∀ x Q, (W ∗ R) -∗ ((W ∗ R) -∗ Q e x) -∗ wp (load_error p) x Q) →
  reads R (if is_null (message e) then Lit "" else message e) (msg a) →
  no_nul (msg a) = true → slen (msg a) < PTRDIFF_MAX →
  (if is_null (code_array e) then codes a = []
   else code_count e = Z.of_nat (List.length (codes a)) ∧
        sizeof_uint32_t * code_count e ≤ PTRDIFF_MAX ∧
        (codes a ≠ [] → reads_words W (code_array e) (Some <$> codes a))) →
  {{ W ∗ R }} libusbp_error_copy p @ x {{ r x',
    (W ∗ R) ∗ ⟪quiet x x'⟫ ∗
    (heap_err r a ∨ ⟪r = Static error_masked_by_no_memory ∧ oomed x x'⟫) }}.
Proof.
  iIntros (Hp Hload Hread Hnul Hlen Hcodes) "HWR". unfold libusbp_error_copy. rewrite Hp.
  wp_step. iApply (Hload with "HWR"). iIntros "[HW HR]". wp_simpl.
  wp_step. iApply (wp_strlen with "HR"); [done|]. iIntros "HR".
  set (count := if is_null (code_array e) then 0 else code_count e).
  assert (Hcount : count = Z.of_nat (List.length (codes a)) ∧
                   sizeof_uint32_t * count ≤ PTRDIFF_MAX ∧
                   (codes a ≠ [] → reads_words W (code_array e) (Some <$> codes a))).
  { subst count. destruct (is_null (code_array e)); [|done]. by rewrite Hcodes. }
  clearbody count. destruct Hcount as (Hcount & Hbound & Hwords).
  pose proof (slen_nonneg (msg a)). unfold sizeof_uint32_t, PTRDIFF_MAX in Hlen, Hbound.
  rewrite (to_size_id (slen (msg a) + 1)); [|unfold SIZE_MAX; lia].
  wp_step. wp_call (malloc_spec _ _ _). iIntros (ne x1) "[Hne %H1]".
  wp_step. wp_call (malloc_spec _ _ _). iIntros (nm x2) "[Hnm %H2]".
  wp_step. unfold malloc_words.
  rewrite (to_size_id (count * _)); [|unfold SIZE_MAX, sizeof_uint32_t; lia].
  wp_call (malloc_spec _ _ _). iIntros (nc x3) "[Hnc %H3]".
  destruct (is_null ne || is_null nm || _) eqn:Hc.
  - wp_step. wp_call (free_spec _ OUninit _ eq_refl). iIntros ([] ?) "->".
    wp_step. wp_call (free_spec _ (OChars _) _ eq_refl). iIntros ([] ?) "->".
    wp_step. wp_call (free_spec _ (OWords _) _ eq_refl). iIntros ([] ?) "->".
    wp_steps. iFrame. iSplit; [iPureIntro; ext_tac|]. iRight. iPureIntro.
    split; [done|]. unfold sizeof_uint32_t in H3.
    apply orb_true_iff in Hc as [[E|E]%orb_true_iff|[E0 E]%andb_true_iff].
    + rewrite E in H1. destruct H1 as [? H1]. specialize (H1 ltac:(done)). ext_tac.
    + rewrite E in H2. destruct H2 as [? H2]. specialize (H2 ltac:(lia)). ext_tac.
    + apply negb_true_iff, Z.eqb_neq in E0. rewrite E in H3.
      destruct H3 as [? H3]. specialize (H3 ltac:(lia)). ext_tac.
  - apply orb_false_iff in Hc as [[Hne Hnm]%orb_false_iff Hnc].
    rewrite Hne in H1. rewrite Hnm in H2. destruct H1 as [Hq1 _], H2 as [Hq2 Hsz].
    iDestruct (opt_block_nonnull with "Hne") as "(%lne & -> & Hne)"; [done|].
    iDestruct (opt_block_nonnull with "Hnm") as "(%lnm & -> & Hnm)"; [done|].
    iAssert (wp (when (negb (count =? 0)) (memcpy_words nc (code_array e) count)) x3
      (λ _ x', ⟪x' = x3⟫ ∗ W ∗ codes_own nc (codes a))%I) with "[HW Hnc]" as "Hcpy".
    { destruct (Z.eqb_spec count 0) as [Hz|Hz].
      - assert (codes a = []) as -> by (apply nil_length_inv; lia).
        wp_steps. iFrame. iSplit; [done|]. iDestruct "Hnc" as "[->|(%lc & -> & Hlc)]".
        + by iLeft.
        + iRight. iExists lc. rewrite Hz. iFrame. done.
      - iDestruct (opt_block_nonnull with "Hnc") as "(%lc & -> & Hlc)"; [done|].
        wp_steps. 
        iApply (wp_memcpy_words with "HW Hlc").
        + apply Hwords. intros E. rewrite E in Hcount. done.
        + by rewrite length_fmap.
        + iIntros "HW Hlc". iFrame. iSplit; [done|]. iRight. iExists lc. iFrame.
          iPureIntro. unfold sizeof_uint32_t, PTRDIFF_MAX. split; [done|lia]. }
    wp_step. iApply (wp_wand with "Hcpy"). iIntros ([] ?) "(-> & HW & Hc)".
    wp_step. rewrite (_ : Z.to_nat _ = S (String.length (msg a))); [|unfold slen; lia].
    iApply (wp_strncpy _ _ [] with "HR Hnm"); [done|lia|done|rewrite length_replicate; lia|].
    iIntros "HR Hnm". wp_steps. iFrame. iSplit; [iPureIntro; ext_tac|].
    iLeft. iExists lne, (Heap lnm), nc. rewrite Hcount. iFrame. iSplit; [done|].
    iExists lnm. rewrite app_nil_l drop_replicate Nat.sub_diag app_nil_r. iFrame. iPureIntro.
    done.
Qed.

(** What [libusbp_error_copy] can be given: an error, or the blank one. *)
Definition err_src (p : ptr) (a : aerr) : hProp :=
  (⟪p = Static error_blank ∧ a = blank⟫ ∨ err_own p a)%I.

(** The result of an operation that wants to build [a]: [a] on the heap, or the
    static object that reports the lack of memory. *)
Definition new_err (r : ptr) (a : aerr) (x x' : ext) : hProp :=
  (⟪quiet x x'⟫ ∗
   (heap_err r a ∨ ⟪r = Static error_masked_by_no_memory ∧ oomed x x'⟫))%I.

Lemma static_copy_spec s e a x :
  static_error s = Some e →
  message e = Lit (msg a) ∨ (message e = NULL ∧ msg a = "") →
  no_nul (msg a) = true → slen (msg a) < PTRDIFF_MAX →
  codes a = [] ∧ code_array e = NULL ∨
  codes a = [LIBUSBP_ERROR_MEMORY] ∧ code_array e = Static mem_error_code_array ∧ code_count e = 1 →
  {{ emp }} libusbp_error_copy (Static s) @ x {{ r x', new_err r a x x' }}.
Proof.
  iIntros (Hs Hm Hn Hl Hc) "_".
  iApply wp_wand.
  { iApply (error_copy_body emp emp _ e a); try done.
    - iIntros (y Q) "HE HQ". cbn [load_error]. rewrite Hs. wp_steps. by iApply "HQ".
    - destruct Hm as [->|[-> Em]]; [by apply reads_lit|]. rewrite Em. by apply reads_lit.
    - destruct Hc as [[E ->]|(E & -> & ->)]; rewrite E; cbn; [done|].
      split_and!; [done|done|]. intros _. apply reads_static_words. }
  iIntros (r x') "(_ & H)". done.
Qed.

Lemma heap_copy_spec p a x :
  {{ heap_err p a }} libusbp_error_copy p @ x {{ r x', heap_err p a ∗ new_err r a x x' }}.
Proof.
  iIntros "(%l & %pm & %pc & -> & Hl & Hm & Hc)".
  iDestruct (codes_own_null with "Hc") as "[%Hnull Hc]".
  iAssert (⌜(is_null pm = false) ∧ no_nul (msg a) = true ∧ slen (msg a) < PTRDIFF_MAX⌝ ∧
    str_own pm (msg a))%I with "[Hm]" as "[%Hm Hm]".
  { iDestruct "Hm" as "(%lm & %H & Hm)". destruct H as (-> & ? & ?).
    iSplit; [done|]. iExists lm. by iFrame. }
  destruct Hm as (Hpm & Hn & Hlen).
  set (e := {| do_not_free := false; message := pm;
               code_count := Z.of_nat (List.length (codes a)); code_array := pc |}).
  iAssert (⌜is_null pc = false →
     sizeof_uint32_t * Z.of_nat (List.length (codes a)) ≤ PTRDIFF_MAX⌝ ∧ codes_own pc (codes a))%I
    with "[Hc]" as "[%Hb Hc]".
  { iDestruct "Hc" as "[%H|(%lc & %H & Hc)]".
    - destruct H as [-> ->]. iSplit; [done|]. by iLeft.
    - destruct H as [-> ?]. iSplit; [done|]. iRight. iExists lc. by iFrame. }
  iApply (wp_wand with "[Hl Hm Hc]").
  { iApply (error_copy_body (str_own pm (msg a)) (l ↦ OError e ∗ codes_own pc (codes a)) _ e a
      with "[$Hl $Hm $Hc]"); cbn [message code_array code_count e]; try done.
    - iIntros (y Q) "[[Hl Hc] Hm] HQ". unfold load_error. wp_steps. iApply "HQ". iFrame.
    - rewrite Hpm. apply reads_str.
    - destruct (is_null pc) eqn:Epc; [by apply Hnull|]. split_and!; [done|by apply Hb|].
      iIntros (_ y Q) "[Hl [%H|(%lc & %H & Hc)]] HQ".
      + destruct H as [-> _]. done.
      + destruct H as [-> Hbb]. cbn [load_words]. wp_steps. iApply "HQ". iFrame.
        iRight. iExists lc. by iFrame. }
  iIntros (r x') "(([Hl Hc] & Hm) & Hq)". iFrame. done.
Qed.

Lemma error_copy_own_spec p a x :
  {{ err_own p a }} libusbp_error_copy p @ x {{ r x', err_own p a ∗ new_err r a x x' }}.
Proof.
  iIntros "[%H|H]".
  - destruct H as (s & -> & Hs). iApply wp_wand.
    { destruct s; try done; injection Hs as Ha;
        (iApply (static_copy_spec _ _ a); rewrite -?Ha;
         [reflexivity|by left|done|reflexivity|by right|done]). }
    iIntros (r x') "$". iLeft. iPureIntro. eauto.
  - iApply (wp_wand with "[H]"); [by iApply heap_copy_spec|]. iIntros (r x') "[H $]". by iRight.
Qed.

Lemma error_copy_spec p a x :
  {{ err_src p a }} libusbp_error_copy p @ x {{ r x', err_src p a ∗ new_err r a x x' }}.
Proof.
  iIntros "[%H|H]".
  - destruct H as [-> ->]. iApply wp_wand.
    { iApply (static_copy_spec error_blank _ blank);
        [done|by right|done|reflexivity|by left|done]. }
    iIntros (r x') "$". by iLeft.
  - iApply (wp_wand with "[H]"); [by iApply error_copy_own_spec|].
    iIntros (r x') "[H $]". by iRight.
Qed.

(** [error_make_mutable]: [NULL] becomes a blank heap error, a static error a
    heap copy of it, a heap error stays. *)
Definition opt_aerr (oa : option aerr) : aerr := default blank oa.

Lemma error_make_mutable_spec p oa x :
  {{ opt_err p oa }} error_make_mutable p @ x {{ r x', new_err r (opt_aerr oa) x x' }}.
Proof.
  iIntros "H". iDestruct (opt_err_null with "H") as "[%Hn H]".
  unfold error_make_mutable. rewrite Hn.
  destruct oa as [a|]; cbn [opt_aerr default] in *.
  2: { iDestruct "H" as %->. wp_steps. cbn [load_error static_error]. wp_steps.
       iApply wp_wand.
       { iApply (error_copy_spec _ blank). by iLeft. }
       iIntros (r x') "[[%H|[%H|H]] $]".
       by iDestruct (heap_err_static with "H") as %[]. }
  wp_simpl. iDestruct "H" as "[%H|H]".
  - destruct H as (s & -> & Hs). iApply wp_bind.
    iApply (wp_wand _ _ (λ e x', ⟪x' = x ∧ do_not_free e = true⟫)%I).
    { cbn [load_error]. destruct s; try done; cbn; iApply wp_ret; by iPureIntro. }
    iIntros (e x') "%He". destruct He as [-> ->]. iApply wp_wand.
    { iApply (error_copy_spec _ a). iRight. iLeft. iPureIntro. eauto. }
    iIntros (r x') "[H $]". iDestruct "H" as "[%H|[%H|H]]"; [|done|].
    + destruct H as [[= ->] ->]. done.
    + by iDestruct (heap_err_static with "H") as %[].
  - iDestruct "H" as "(%l & %pm & %pc & -> & H)". unfold load_error.
    iDestruct "H" as "[Hl H]". wp_steps. iSplit; [by iPureIntro|]. iLeft.
    iExists l, pm, pc. by iFrame.
Qed.

(** ** Decorating messages *)

Definition separator (outer inner : string) : string :=
  match inner, outer with
  | "", _ => ""
  | _, "" => ""
  | _, _ => "  "
  end%string.

Lemma join_separator o i : join o i = o +:+ separator o i +:+ i.
Proof.
  destruct i as [|c i], o as [|d o]; try done. by rewrite !app_empty_r.
Qed.

Lemma slen_separator o i :
  slen (separator o i) =
  if negb (slen i =? 0) && negb (slen o =? 0) then 2 else 0.
Proof. by destruct i, o. Qed.

Lemma no_nul_join o i : no_nul o = true → no_nul i = true → no_nul (join o i) = true.
Proof.
  intros. rewrite join_separator !no_nul_app. repeat (apply andb_true_iff; split); try done.
  by destruct o, i.
Qed.

Lemma outer_length s :
  (if 0 <? vsnprintf_result s then vsnprintf_result s else 0) = slen (rendered s).
Proof. rewrite slen_rendered. destruct (Z.ltb_spec 0 (vsnprintf_result s)); lia. Qed.

(** The assembly of a message in a fresh buffer of the right size. *)
Lemma wp_assemble R l p s i n x Q (K : M ptr) :
  reads R p i → no_nul i = true →
  n = slen (join (rendered s) i) →
  R -∗ l ↦ OChars (replicate (Z.to_nat (n + 1)) None) -∗
  (R -∗ l ↦ OChars (cstr (join (rendered s) i)) -∗ wp K x Q) -∗
  wp (vsnprintf (Heap l) (slen (rendered s) + 1) s;;
      when (negb (slen (separator (rendered s) i) =? 0))
        (strncpy (Heap l) (slen (rendered s)) (Lit "  ")
           (slen (separator (rendered s) i) + 1));;
      strncpy (Heap l) (slen (rendered s) + slen (separator (rendered s) i)) p (slen i + 1);;
      write_chars (Heap l) n [Some nul];;
      K) x Q.
Proof.
  iIntros (Hr Hi ->) "HR Hl HQ". rewrite join_separator.
  set (o := rendered s). set (t := separator o i).
  assert (Ht : t = "" ∨ t = "  ") by (subst t; destruct i, o; auto).
  assert (Hlen : Z.to_nat (slen (o +:+ t +:+ i) + 1) =
                 (String.length o + String.length t + S (String.length i))%nat).
  { rewrite !slen_app. unfold slen. lia. }
  rewrite Hlen. clearbody t.
  wp_step. iApply (wp_vsnprintf with "Hl"); [done|rewrite length_replicate; unfold o; lia|].
  fold o. iIntros "Hl". rewrite drop_replicate.
  (* the separator *)
  wp_step. iApply (wp_wand _ _ (λ _ x', ∃ rest, ⟪x' = x ∧ List.length rest = S (String.length i)⟫ ∗
      l ↦ OChars ((chars o ++ chars t) ++ rest))%I with "[Hl]").
  { destruct Ht as [->| ->].
    - wp_steps. iExists _. unfold cstr. rewrite app_nil_r -app_assoc. iFrame.
      iPureIntro. split; [done|]. cbn. rewrite length_replicate. lia.
    - wp_steps. unfold cstr. rewrite -app_assoc.
      iApply (wp_strncpy emp%I _ (chars o) with "[//] Hl"); [by apply reads_lit|done| | |].
      + rewrite length_chars. done.
      + cbn. rewrite length_replicate. lia.
      + iIntros "_ Hl". iExists _. rewrite -app_assoc. unfold cstr. rewrite -app_assoc. iFrame.
        iPureIntro. split; [done|]. cbn. rewrite !length_drop length_replicate. lia. }
  iIntros ([] ?) "(%rest & %H & Hl)". destruct H as [-> Hrest].
  (* the inner message *)
  wp_step. iApply (wp_strncpy with "HR Hl"); [done|done| |lia|].
  { rewrite length_app !length_chars. unfold slen. lia. }
  iIntros "HR Hl". rewrite drop_ge; [|lia]. rewrite app_nil_r.
  (* the final NUL *)
  assert (E : (chars o ++ chars t) ++ cstr i = chars (o +:+ t +:+ i) ++ [Some nul]).
  { unfold cstr. rewrite !chars_app -!app_assoc. done. }
  wp_step. rewrite E. iApply (wp_write_prefix with "Hl").
  { rewrite length_chars. done. }
  { done. }
  cbn [List.length drop]. rewrite app_nil_r. iIntros "Hl". iApply ("HQ" with "HR Hl").
Qed.

Lemma heap_err_free p a x :
  {{ heap_err p a }} libusbp_error_free p @ x {{ r x', ⟪x' = x⟫ }}.
Proof.
  iIntros "H". iApply (libusbp_error_free_spec p (Some a)). by iRight.
Qed.

(** The result of an operation that wants to build [want], as the caller sees it:
    that error, or - only if an allocation failed - one about the lack of
    memory. *)
Definition err_result (r : ptr) (want : aerr) (x x' : ext) : hProp :=
  (∃ a, err_own r a ∗ ⟪quiet x x' ∧ (a = want ∨ (a = masked ∧ oomed x x'))⟫)%I.

Lemma new_err_result r a x x' : new_err r a x x' ⊢ err_result r a x x'.
Proof.
  iIntros "[%Hq [H|%H]]".
  - iExists a. iSplitL; [by iRight|]. iPureIntro. auto.
  - destruct H as [-> ?]. iExists masked. iSplitL; [iLeft; iPureIntro; by eexists|].
    iPureIntro. auto.
Qed.

Lemma heap_err_open p a :
  heap_err p a ⊢ ∃ l lm pc, ⟪p = Heap l ∧ no_nul (msg a) = true ∧ slen (msg a) < PTRDIFF_MAX⟫ ∗
    l ↦ OError {| do_not_free := false; message := Heap lm;
                  code_count := Z.of_nat (List.length (codes a)); code_array := pc |} ∗
    lm ↦ OChars (cstr (msg a)) ∗ codes_own pc (codes a).
Proof.
  iIntros "(%l & %pm & %pc & -> & Hl & (%lm & %H & Hm) & Hc)".
  destruct H as (-> & ? & ?). iExists l, lm, pc. by iFrame.
Qed.

Lemma heap_err_intro l pm pc a n :
  n = Z.of_nat (List.length (codes a)) →
  l ↦ OError {| do_not_free := false; message := pm; code_count := n; code_array := pc |} -∗
  str_own pm (msg a) -∗ codes_own pc (codes a) -∗ heap_err (Heap l) a.
Proof. iIntros (->) "Hl Hm Hc". iExists l, pm, pc. by iFrame "Hl Hm Hc". Qed.

Lemma error_add_v_spec p oa s x :
  no_nul s = true →
  {{ opt_err p oa }} error_add_v p (Some s) @ x {{ r x',
    new_err r (err_add (opt_aerr oa) s) x x' }}.
Proof.
  iIntros (Hs) "H". unfold error_add_v. wp_step. wp_call (error_make_mutable_spec _ oa _).
  iIntros (q x1) "[%Hq [H|%H]]"; last first.
  { destruct H as [-> Ho]. wp_simpl. wp_step. cbn [load_error static_error]. wp_steps.
    iSplit; [by iPureIntro|]. by iRight. }
  set (a := opt_aerr oa).
  iDestruct (heap_err_open with "H") as "(%l & %lm & %pc & %H & Hl & Hm & Hc)".
  destruct H as (-> & Hn & Hlen). unfold load_error. wp_steps.
  rewrite outer_length.
  iApply (wp_strlen with "[Hm]").
  { apply (reads_str (Heap lm) (msg a)). }
  { iExists lm. by iFrame. }
  iIntros "Hm". rewrite -slen_separator.
  set (o := rendered s).
  assert (Hjoin : slen (join o (msg a)) = slen o + slen (separator o (msg a)) + slen (msg a)).
  { rewrite join_separator !slen_app. lia. }
  pose proof (slen_rendered_le s) as Ho. fold o in Ho.
  assert (Hsep : slen (separator o (msg a)) ≤ 2).
  { rewrite slen_separator. by destruct (_ && _). }
  pose proof (slen_nonneg o). pose proof (slen_nonneg (msg a)).
  pose proof (slen_nonneg (separator o (msg a))).
  unfold INT_MAX, PTRDIFF_MAX in *.
  rewrite (to_size_id (slen o + _)); [|unfold SIZE_MAX; lia].
  rewrite -Hjoin (to_size_id (slen (join _ _))); [|unfold SIZE_MAX; lia].
  rewrite (to_size_id (_ + 1)); [|unfold SIZE_MAX; lia].
  wp_step. wp_call (malloc_spec _ _ _). iIntros (nm x2) "[Hnm %H2]".
  destruct (is_null nm) eqn:Enm.
  - iDestruct (heap_err_intro _ _ _ a with "[$] Hm Hc") as "H"; [done|].
    wp_step. wp_call (heap_err_free _ a _). iIntros ([] ?) "->". wp_steps.
    iDestruct (opt_block_null with "Hnm") as "Hnm"; [done|]. iDestruct "Hnm" as "->".
    iSplit; [iPureIntro; ext_tac|]. iRight. iPureIntro. split; [done|].
    destruct H2 as [? H2]. specialize (H2 ltac:(lia)). ext_tac.
  - iDestruct (opt_block_nonnull with "Hnm") as "(%lnm & -> & Hnm)"; [done|].
    iApply (wp_assemble with "Hm Hnm"); [apply reads_str|done|done|].
    iIntros "Hm Hnm". wp_steps.
    iDestruct "Hm" as "(%lm' & %H' & Hm)". destruct H' as ([= <-] & _).
    wp_steps. iSplit; [iPureIntro; ext_tac|]. iLeft.
    iApply (heap_err_intro _ _ _ (err_add a s) with "[$] [Hnm] Hc"); [done|].
    iExists lnm. iFrame. iPureIntro. split_and!; [done| |cbn; fold o; lia].
    apply no_nul_join; [by apply rendered_no_nul|done].
Qed.

(** Growing the code array by one element. *)
Lemma grow_codes_spec pc cs size x :
  size = (Z.of_nat (List.length cs) + 1) * sizeof_uint32_t →
  {{ codes_own pc cs }}
    realloc pc size (OWords (replicate (Z.to_nat (size / sizeof_uint32_t)) None))
      (resize_words (size / sizeof_uint32_t)) @ x
  {{ r x', ⟪quiet x x'⟫ ∗
    ((∃ l, ⟪r = Heap l ∧ size ≤ PTRDIFF_MAX⟫ ∗ l ↦ OWords ((Some <$> cs) ++ [None])) ∨
     ⟪r = NULL ∧ oomed x x'⟫ ∗ codes_own pc cs) }}.
Proof.
  iIntros (Hsize) "Hc". unfold sizeof_uint32_t in *.
  assert (Hnz : size ≠ 0) by lia. rewrite (_ : size / 4 = Z.of_nat (List.length cs) + 1);
    [|rewrite Hsize Z.div_mul; lia].
  rewrite (_ : Z.to_nat _ = (List.length cs + 1)%nat); [|lia].
  iDestruct "Hc" as "[%H|(%l & %H & Hl)]".
  - destruct H as [-> ->]. cbn [List.length Nat.add replicate fmap list_fmap app realloc].
    iApply wp_malloc_pos; [done|]. iSplit.
    + iIntros (l Hl) "Hl". iSplit; [done|]. iLeft. iExists l. by iFrame.
    + iIntros (x' [Hq Ho]). iSplit; [done|]. iRight. iSplit; [done|]. by iLeft.
  - destruct H as [-> Hb]. iApply (wp_realloc with "Hl"); [done|done|]. iSplit.
    + iIntros (l' Hl') "Hl'". iSplit; [done|]. iLeft. iExists l'. cbn [resize_words].
      rewrite (_ : Z.to_nat _ = (List.length ((Some <$> cs) : list (option Z)) + 1)%nat);
        [|rewrite length_fmap; lia].
      rewrite take_app_add Nat.add_1_r. by iFrame.
    + iIntros (x' [Hq Ho]) "Hl". iSplit; [done|]. iRight. iSplit; [done|].
      iRight. iExists l. by iFrame.
Qed.

Lemma error_add_code_spec p oa c x :
  {{ opt_err p oa }} error_add_code p c @ x {{ r x',
    new_err r (err_code (opt_aerr oa) c) x x' }}.
Proof.
  iIntros "H". unfold error_add_code. wp_step. wp_call (error_make_mutable_spec _ oa _).
  iIntros (q x1) "[%Hq [H|%H]]"; last first.
  { destruct H as [-> Ho]. wp_simpl. wp_step. cbn [load_error static_error]. wp_steps.
    iSplit; [by iPureIntro|]. by iRight. }
  set (a := opt_aerr oa).
  iDestruct (heap_err_open with "H") as "(%l & %lm & %pc & %H & Hl & Hm & Hc)".
  destruct H as (-> & Hn & Hlen). unfold load_error. wp_steps.
  iAssert (⌜Z.of_nat (List.length (codes a)) < SIZE_MAX / sizeof_uint32_t⌝ ∧ codes_own pc (codes a))%I
    with "[Hc]" as "[%Hcount Hc]".
  { iDestruct "Hc" as "[%H|(%lc & %H & Hc)]".
    - destruct H as [-> ->]. iSplit; [done|]. by iLeft.
    - destruct H as [-> Hb]. unfold sizeof_uint32_t, PTRDIFF_MAX in *.
      iSplit; [iPureIntro; change (SIZE_MAX / 4) with 4611686018427387903; lia|]. iRight. iExists lc. by iFrame. }
  destruct (Z.leb_spec (SIZE_MAX / sizeof_uint32_t) (Z.of_nat (List.length (codes a)))); [lia|].
  unfold SIZE_MAX, sizeof_uint32_t in Hcount. change (18446744073709551615 / 4) with 4611686018427387903 in Hcount.
  rewrite (to_size_id (_ * _)); [|unfold SIZE_MAX, sizeof_uint32_t; lia].
  rewrite (to_size_id (_ + 1)); [|unfold SIZE_MAX; lia].
  wp_step. wp_call (grow_codes_spec _ (codes a) _ _ eq_refl).
  iIntros (na x2) "[%Hq2 [(%ln & %H' & Hn)|[%H' Hc]]]".
  - destruct H' as [-> Hsz]. wp_simpl. wp_step.
    iApply (wp_store_elem _ _ ((Some <$> codes a) ++ [None]) with "Hn").
    { done. }
    { rewrite length_app length_fmap. cbn. lia. }
    iIntros "Hn". wp_steps. iSplit; [iPureIntro; ext_tac|]. iLeft.
    iApply (heap_err_intro _ _ _ (err_code a c) with "[$] [Hm] [Hn]").
    { cbn. rewrite length_app. cbn. lia. }
    { iExists lm. by iFrame. }
    iRight. iExists ln. rewrite Nat2Z.id.
    rewrite -{1}(length_fmap Some (codes a)) insert_app_r_alt // Nat.sub_diag.
    cbn. rewrite fmap_app. iFrame. iPureIntro. split; [done|].
    rewrite length_app. cbn. unfold sizeof_uint32_t in *. lia.
  - destruct H' as [-> Ho]. wp_simpl.
    iDestruct (heap_err_intro _ _ _ a with "[$] [Hm] Hc") as "H"; [done|by iExists lm; iFrame|].
    wp_step. wp_call (heap_err_free _ a _). iIntros ([] ?) "->". wp_steps.
    iSplit; [iPureIntro; ext_tac|]. iRight. iPureIntro. split; [done|ext_tac].
Qed.

Lemma error_add_spec p oa s x :
  no_nul s = true →
  {{ opt_err p oa }} error_add p s @ x {{ r x', new_err r (err_add (opt_aerr oa) s) x x' }}.
Proof. apply error_add_v_spec. Qed.

Lemma error_create_spec s x :
  no_nul s = true →
  {{ emp }} error_create s @ x {{ r x', new_err r (err_new s) x x' }}.
Proof. iIntros (Hs) "_". by iApply (error_add_v_spec NULL None). Qed.

(** ** Errors as results

    The interface the rest of the library uses.  An operation that means to
    report [want] reports [want], or - only when an allocation failed - an error
    with the code [LIBUSBP_ERROR_MEMORY]. *)

Definition mem_err (a : aerr) : Prop := LIBUSBP_ERROR_MEMORY ∈ codes a.

Definition errs (x x' : ext) (want got : aerr) : Prop :=
  got = want ∨ (mem_err got ∧ oomed x x').

Definition err_res (r : ptr) (want : aerr) (x x' : ext) : hProp :=
  (∃ got, err_own r got ∗ ⟪quiet x x' ∧ errs x x' want got⟫)%I.

Lemma mem_err_no_memory : mem_err no_memory.
Proof. by left. Qed.
Lemma mem_err_masked : mem_err masked.
Proof. by left. Qed.
Lemma mem_err_add a s : mem_err a → mem_err (err_add a s).
Proof. done. Qed.
Lemma mem_err_code a c : mem_err a → mem_err (err_code a c).
Proof. intros H. apply elem_of_app. by left. Qed.

Create HintDb errors.
#[export] Hint Resolve mem_err_no_memory mem_err_masked mem_err_add mem_err_code : errors.

Lemma errs_trans x0 x1 x2 want got (f : aerr → aerr) :
  (∀ a, mem_err a → mem_err (f a)) → (x_oom x1 ≤ x_oom x2)%nat →
  errs x0 x1 want got → errs x0 x2 (f want) (f got).
Proof. intros Hf Hle [->|[Hm Ho]]; [by left|]. right. split; [by apply Hf|ext_tac]. Qed.

Lemma err_own_not_null p a : err_own p a ⊢ ⌜is_null p = false⌝ ∧ err_own p a.
Proof. apply (opt_err_null p (Some a)). Qed.

Lemma new_err_res x0 x1 x2 r want got :
  quiet x0 x1 → errs x0 x1 want got → new_err r got x1 x2 ⊢ err_res r want x0 x2.
Proof.
  iIntros (Hq He) "[%Hq2 [H|%H]]".
  - iExists got. iSplitL; [by iRight|]. iPureIntro. split; [by etrans|].
    eapply (errs_trans _ _ _ _ _ id); [done| |done]. ext_tac.
  - destruct H as [-> Ho]. iExists masked. iSplitL; [iLeft; iPureIntro; by eexists|].
    iPureIntro. split; [by etrans|]. right. split; [apply mem_err_masked|ext_tac].
Qed.

Lemma error_create_res s x :
  no_nul s = true → {{ emp }} error_create s @ x {{ r x', err_res r (err_new s) x x' }}.
Proof.
  iIntros (Hs) "_". iApply wp_wand; [by iApply error_create_spec|].
  iIntros (r x') "H". by iApply (new_err_res with "H"); [|left].
Qed.

Lemma error_add_res p want s x0 x :
  no_nul s = true →
  {{ err_res p want x0 x }} error_add p s @ x {{ r x', err_res r (err_add want s) x0 x' }}.
Proof.
  iIntros (Hs) "(%got & H & %He)". destruct He as [Hq He].
  iApply (wp_wand with "[H]"); [by iApply (error_add_spec _ (Some got))|].
  iIntros (r x') "H". iApply (new_err_res with "H"); [done|].
  eapply (errs_trans _ _ _ _ _ (λ a, err_add a s)); [by auto with errors|done|done].
Qed.

Lemma error_add_code_res p want c x0 x :
  {{ err_res p want x0 x }} error_add_code p c @ x {{ r x', err_res r (err_code want c) x0 x' }}.
Proof.
  iIntros "(%got & H & %He)". destruct He as [Hq He].
  iApply (wp_wand with "[H]"); [by iApply (error_add_code_spec _ (Some got))|].
  iIntros (r x') "H". iApply (new_err_res with "H"); [done|].
  eapply (errs_trans _ _ _ _ _ (λ a, err_code a c)); [by auto with errors|done|done].
Qed.

Lemma err_res_not_null r want x x' : err_res r want x x' ⊢ ⌜is_null r = false⌝ ∧ err_res r want x x'.
Proof.
  iIntros "(%got & H & %He)". iDestruct (err_own_not_null with "H") as "[%Hn H]".
  iSplit; [done|]. iExists got. by iFrame.
Qed.

(** The same as rules, and a tactic that runs chains of them. *)
Lemma wp_err_res m want x0 x Q :
  wp m x (λ r x', err_res r want x0 x') -∗
  (∀ r x', ⌜is_null r = false⌝ → err_res r want x0 x' -∗ Q r x') -∗ wp m x Q.
Proof.
  iIntros "H HQ". iApply (wp_wand with "H"). iIntros (r x') "H".
  iDestruct (err_res_not_null with "H") as "[%Hn H]". by iApply "HQ".
Qed.

Lemma wp_error_create s x Q :
  no_nul s = true →
  (∀ r x', ⌜is_null r = false⌝ → err_res r (err_new s) x x' -∗ Q r x') ⊢ wp (error_create s) x Q.
Proof. iIntros (Hs) "HQ". iApply (wp_err_res with "[] HQ"). by iApply error_create_res. Qed.

Lemma wp_error_add p want s x0 x Q :
  no_nul s = true →
  err_res p want x0 x -∗
  (∀ r x', ⌜is_null r = false⌝ → err_res r (err_add want s) x0 x' -∗ Q r x') -∗
  wp (error_add p s) x Q.
Proof. iIntros (Hs) "H HQ". iApply (wp_err_res with "[H] HQ"). by iApply error_add_res. Qed.

Lemma wp_error_add_code p want c x0 x Q :
  err_res p want x0 x -∗
  (∀ r x', ⌜is_null r = false⌝ → err_res r (err_code want c) x0 x' -∗ Q r x') -∗
  wp (error_add_code p c) x Q.
Proof. iIntros "H HQ". iApply (wp_err_res with "[H] HQ"). by iApply error_add_code_res. Qed.

Ltac err_intro :=
  let H := fresh "Hn" in iIntros (? ? H) "?"; wp_simpl; wp_nulls.

Ltac err_call :=
  lazymatch goal with
  | |- envs_entails _ (wp (error_create _) _ _) =>
      iApply wp_error_create; [try reflexivity|err_intro]
  | |- envs_entails _ (wp (error_add _ _) _ _) =>
      iApply (wp_error_add with "[$]"); [try reflexivity|err_intro]
  | |- envs_entails _ (wp (error_add_code _ _) _ _) =>
      iApply (wp_error_add_code with "[$]"); err_intro
  end.

Ltac err_chain := repeat (wp_step || (wp_simpl; err_call)); wp_simpl.

(** [&error_no_memory] as a result. *)
Lemma no_memory_res want x x' :
  quiet x x' → oomed x x' → ⊢ err_res (Static error_no_memory) want x x'.
Proof.
  intros Hq Ho. iExists no_memory. iSplit; [iLeft; iPureIntro; by eexists|].
  iPureIntro. split; [done|]. right. split; [apply mem_err_no_memory|done].
Qed.

(** ** Reading errors *)

(** The fields of an error, read through [load_error]. *)
Lemma load_error_spec p a x Q :
  err_own p a -∗
  (∀ e W R,
     ⌜is_null (message e) = false ∧ reads R (message e) (msg a) ∧
      code_count e = Z.of_nat (List.length (codes a)) ∧
      (codes a ≠ [] → reads_words W (code_array e) (Some <$> codes a))⌝ →
     W -∗ R -∗ (W -∗ R -∗ err_own p a) -∗ Q e x) -∗
  wp (load_error p) x Q.
Proof.
  iIntros "[%H|H] HQ".
  - destruct H as (s & -> & Hs). cbn [load_error].
    destruct s; try done; injection Hs as <-; cbn [static_error]; wp_steps;
      iApply ("HQ" $! _ emp%I emp%I with "[%] [//] [//]");
      (split_and!; [done|by apply reads_lit|done|intros _; apply reads_static_words]) ||
      (iIntros "_ _"; iLeft; iPureIntro; by eexists).
  - iDestruct (heap_err_open with "H") as "(%l & %lm & %pc & %H & Hl & Hm & Hc)".
    destruct H as (-> & Hn & Hlen). unfold load_error. wp_steps.
    iApply ("HQ" $! _ (codes_own pc (codes a)) (str_own (Heap lm) (msg a)) with "[%] Hc [Hm]").
    + split_and!; [done|apply reads_str|done|]. cbn [code_array]. intros Hne y Q'.
      iIntros "[%H|(%lc & %H & Hc)] HQ"; destruct H as [-> H]; [done|].
      cbn [load_words]. wp_steps. iApply "HQ". iRight. iExists lc. by iFrame.
    + iExists lm. by iFrame.
    + iIntros "Hc Hm". iRight. iApply (heap_err_intro with "[$] Hm Hc"). done.
Qed.

Lemma has_code_loop_spec W e cs c i n x Q :
  (cs ≠ [] → reads_words W (code_array e) (Some <$> cs)) →
  (i + n = List.length cs)%nat →
  W -∗ (W -∗ Q (bool_decide (c ∈ drop i cs)) x) -∗
  wp (has_code_loop e c (Z.of_nat i) n) x Q.
Proof.
  iIntros (Hr) "%Hn HW HQ".
  iInduction n as [|n] "IH" forall (i Hn); cbn [has_code_loop].
  - rewrite drop_ge; [|lia]. wp_steps. by iApply "HQ".
  - destruct (lookup_lt_is_Some_2 cs i) as [d Hd]; [lia|].
    wp_step. iApply (Hr with "HW"). { intros ->. done. } iIntros "HW".
    rewrite Nat2Z.id list_lookup_fmap Hd. cbn [fmap option_fmap option_map].
    erewrite drop_S; [|done]. destruct (Z.eqb_spec d c) as [->|Hne].
    + wp_steps. rewrite bool_decide_true; [by iApply "HQ"|by left].
    + rewrite (_ : Z.of_nat i + 1 = Z.of_nat (S i)); [|lia].
      iApply ("IH" with "[%] HW"); [lia|].
      rewrite (bool_decide_ext (c ∈ d :: drop (S i) cs) (c ∈ drop (S i) cs)); [done|].
      rewrite elem_of_cons. naive_solver.
Qed.

Lemma libusbp_error_has_code_spec p a c x :
  {{ err_own p a }} libusbp_error_has_code p c @ x {{ r x',
    ⟪r = bool_decide (c ∈ codes a) ∧ x' = x⟫ ∗ err_own p a }}.
Proof.
  iIntros "H". iDestruct (err_own_not_null with "H") as "[%Hn H]".
  unfold libusbp_error_has_code. rewrite Hn. wp_step. iApply (load_error_spec with "H").
  iIntros (e W R (Hm & Hr & Hc & Hw)) "HW HR Hclose". rewrite Hc Nat2Z.id.
  iApply (has_code_loop_spec W e (codes a) c 0 with "HW"); [done|done|].
  iIntros "HW". iSplit; [done|]. iApply ("Hclose" with "HW HR").
Qed.

Lemma libusbp_error_get_message_spec p a x :
  {{ err_own p a }}
    (s ← libusbp_error_get_message p; read_cstr s) @ x
  {{ r x', ⟪r = msg a ∧ x' = x⟫ ∗ err_own p a }}.
Proof.
  iIntros "H". iDestruct (err_own_not_null with "H") as "[%Hn H]".
  unfold libusbp_error_get_message. rewrite Hn. wp_steps. iApply (load_error_spec with "H").
  iIntros (e W R (Hm & Hr & Hc & Hw)) "HW HR Hclose". rewrite Hm. wp_steps.
  iApply (Hr with "HR"). iIntros "HR". iSplit; [done|]. iApply ("Hclose" with "HW HR").
Qed.

(** ** Properties *)

(** C40. [error_add_v] refines decoration of abstract errors: from any error (or
    NULL) and any rendered text it returns, whatever allocations fail, either a
    heap error whose message is the text, two spaces and the old message (no
    spaces when one of them is empty) with the codes kept, or - only if an
    allocation failed - the static "masked" error; the input is consumed, nothing
    leaks, no byte is written outside the new buffer and no system call is made. *)
Theorem error_add_v_refines p oa s x :
  no_nul s = true →
  {{ opt_err p oa }} error_add_v p (Some s) @ x {{ r x',
    ⟪quiet x x'⟫ ∗
    (heap_err r (AErr (join (rendered s) (msg (opt_aerr oa))) (codes (opt_aerr oa))) ∨
     ⟪r = Static error_masked_by_no_memory ∧ oomed x x'⟫) }}.
Proof. apply error_add_v_spec. Qed.

Definition empty_ext : ext := Ext [] 0 0.

Lemma error_add_v_refines_witness :
  {{ err_own (Static error_no_memory) no_memory }}
    error_add_v (Static error_no_memory) (Some "Failed to list devices.") @ empty_ext
  {{ r x', ⟪quiet empty_ext x'⟫ ∗
    (heap_err r (AErr "Failed to list devices.  Failed to allocate memory." [1]) ∨
     ⟪r = Static error_masked_by_no_memory ∧ oomed empty_ext x'⟫) }}.
Proof. apply (error_add_v_refines _ (Some no_memory)). reflexivity. Defined.

(** A copy is deep: after copying an error and freeing the original, the copy
    still has the original's message and codes, and freeing it too gives back all
    memory.  Only when an allocation failed is it the static "masked" error. *)
Theorem error_copy_is_deep p a c x :
  {{ err_own p a }}
    (q ← libusbp_error_copy p;
     libusbp_error_free p;;
     m ← libusbp_error_get_message q;
     s ← read_cstr m;
     b ← libusbp_error_has_code q c;
     libusbp_error_free q;;
     mret (s, b)) @ x
  {{ r x', ⟪quiet x x' ∧
     (r = (msg a, bool_decide (c ∈ codes a)) ∨
      (r = (msg masked, bool_decide (c ∈ codes masked)) ∧ oomed x x'))⟫ }}.
Proof.
  iIntros "H". wp_step. wp_call (error_copy_own_spec _ a _).
  iIntros (q x1) "[Hp Hq]". wp_step. wp_call (libusbp_error_free_spec _ (Some a) _).
  iIntros ([] ?) "->". iDestruct (new_err_result with "Hq") as "(%b & Hq & %Hb)".
  iApply wp_group. wp_step. wp_call (libusbp_error_get_message_spec _ b _).
  iIntros (s ?) "[%H Hq]". destruct H as [-> ->].
  wp_step. wp_call (libusbp_error_has_code_spec _ b c _).
  iIntros (d ?) "[%H Hq]". destruct H as [-> ->].
  wp_step. wp_call (libusbp_error_free_spec _ (Some b) _). iIntros ([] ?) "->". wp_steps.
  iPureIntro. destruct Hb as [Hq [->|[-> Ho]]]; auto.
Qed.

(** After [error_add_code] the error has the new code, every old code and
    its message; if an allocation failed it has [LIBUSBP_ERROR_MEMORY] instead. *)
Theorem error_add_code_adds p oa c d x :
  u32 c →
  {{ opt_err p oa }}
    (q ← error_add_code p c;
     b ← libusbp_error_has_code q d;
     m ← libusbp_error_get_message q;
     s ← read_cstr m;
     libusbp_error_free q;;
     mret (s, b)) @ x
  {{ r x', ⟪quiet x x' ∧
     (r = (msg (opt_aerr oa), bool_decide (d = c ∨ d ∈ codes (opt_aerr oa))) ∨
      (r = (msg masked, bool_decide (d = LIBUSBP_ERROR_MEMORY)) ∧ oomed x x'))⟫ }}.
Proof.
  iIntros (Hc) "H". wp_step. wp_call (error_add_code_spec _ oa c _).
  iIntros (q x1) "Hq". iDestruct (new_err_result with "Hq") as "(%b & Hq & %Hb)".
  wp_step. wp_call (libusbp_error_has_code_spec _ b d _).
  iIntros (f ?) "[%H Hq]". destruct H as [-> ->].
  iApply wp_group. wp_step. wp_call (libusbp_error_get_message_spec _ b _).
  iIntros (s ?) "[%H Hq]". destruct H as [-> ->].
  wp_step. wp_call (libusbp_error_free_spec _ (Some b) _). iIntros ([] ?) "->". wp_steps.
  iPureIntro. destruct Hb as [Hq [->|[-> Ho]]]; (split; [done|]); [left|right].
  - cbn [err_code msg codes]. rewrite /to_u32 wrap_id //. f_equal.
    apply bool_decide_ext. set_solver.
  - split; [|done]. f_equal. apply bool_decide_ext. set_solver.
Qed.

Lemma error_add_code_adds_witness :
  {{ opt_err NULL None }}
    (q ← error_add_code NULL LIBUSBP_ERROR_TIMEOUT;
     b ← libusbp_error_has_code q LIBUSBP_ERROR_TIMEOUT;
     m ← libusbp_error_get_message q;
     s ← read_cstr m;
     libusbp_error_free q;;
     mret (s, b)) @ empty_ext
  {{ r x', ⟪quiet empty_ext x' ∧
     (r = (msg blank, bool_decide (5 = 5 ∨ 5 ∈ codes blank)) ∨
      (r = (msg masked, bool_decide (5 = LIBUSBP_ERROR_MEMORY)) ∧ oomed empty_ext x'))⟫ }}.
Proof. apply (error_add_code_adds _ None). unfold u32, LIBUSBP_ERROR_TIMEOUT. lia. Defined.
