(* ===== verification/Results.v ===== *)
(** * Results: specifications of operations that can fail

    A fallible operation of the library returns a [libusbp_error *].  Its
    specification is a program in [Spec]: a function of the history of system
    calls that gives an abstract error or a value, and the history afterwards.
    [returns] relates what the C code returned to such a specification, with the
    one deviation that is always possible: when an allocation failed, an error
    with the code [LIBUSBP_ERROR_MEMORY]. *)

From S2P Require Import Prelude Memory Logic Errors.
#[local] Set Warnings "-rewrite-rw".

Definition Spec (A : Type) : Type := list event → (aerr + A) * list event.

#[export] Instance Spec_ret : MRet Spec := λ A a h, (inr a, h).
#[export] Instance Spec_bind : MBind Spec := λ A B f s h,
  match s h with
  | (inr a, h') => f a h'
  | (inl e, h') => (inl e, h')
  end.

Definition sfail {A} (e : aerr) : Spec A := λ h, (inl e, h).
Definition slog (ev : event) : Spec unit := λ h, (inr tt, ev :: h).
Definition shist : Spec (list event) := λ h, (inr h, h).

(** Decorating the error of a specification. *)
Definition scontext {A} (text : string) (s : Spec A) : Spec A := λ h,
  match s h with
  | (inl e, h') => (inl (err_add e text), h')
  | r => r
  end.

Definition sopt {A} (o : option A) (e : aerr) : Spec A :=
  match o with Some a => mret a | None => sfail e end.

Section spec_equations.
Context {A B : Type}.
Implicit Types (s : Spec A) (f : A → Spec B) (h : list event).
#[local] Transparent mret mbind.

Lemma sret_eq (a : A) h : (mret a : Spec A) h = (inr a, h).
Proof. done. Qed.

Lemma sbind_ok s f a h h' : s h = (inr a, h') → (s ≫= f) h = f a h'.
Proof. intros E. unfold mbind, Spec_bind. by rewrite E. Qed.

Lemma sbind_err s f e h h' : s h = (inl e, h') → (s ≫= f) h = (inl e, h').
Proof. intros E. unfold mbind, Spec_bind. by rewrite E. Qed.
Lemma sbind_inv s f b h h' :
  (s ≫= f) h = (inr b, h') → ∃ a h1, s h = (inr a, h1) ∧ f a h1 = (inr b, h').
Proof.
  unfold mbind, Spec_bind. destruct (s h) as [[e|a] h1]; [done|]. eauto.
Qed.
End spec_equations.

Lemma sopt_inv {A} (o : option A) e a h h' :
  sopt o e h = (inr a, h') → o = Some a ∧ h' = h.
Proof.
  destruct o; cbn [sopt]; [|done]. rewrite sret_eq. by intros [= -> ->].
Qed.

(** ** External states of operations that leave the URBs alone *)

(** The URBs that were submitted on [fd] and not reaped yet, with the length of
    their buffers; a history has its latest event first. *)
Fixpoint outstanding (h : list event) (fd : Z) : gmap loc Z :=
  match h with
  | [] => ∅
  | EvSubmit fd' l _ len _ true :: h =>
      if fd' =? fd then <[l := len]> (outstanding h fd) else outstanding h fd
  | EvReap fd' (Some l) :: h =>
      if fd' =? fd then delete l (outstanding h fd) else outstanding h fd
  | _ :: h => outstanding h fd
  end.

Definition calm (x x' : ext) : Prop :=
  (x_oom x ≤ x_oom x')%nat ∧
  ∀ fd, outstanding (x_trace x') fd = outstanding (x_trace x) fd.

#[export] Instance calm_preorder : PreOrder calm.
Proof. unfold calm. split; [done|]. intros ??? [??] [? E]. split; [lia|]. intros. by rewrite E. Qed.

Lemma quiet_calm x x' : quiet x x' → calm x x'.
Proof. intros [E ?]. split; [done|]. by rewrite E. Qed.

Lemma oomed_l x0 x1 x2 : oomed x0 x1 → calm x1 x2 → oomed x0 x2.
Proof. unfold oomed, calm. lia. Qed.
Lemma oomed_r x0 x1 x2 : calm x0 x1 → oomed x1 x2 → oomed x0 x2.
Proof. unfold oomed, calm. lia. Qed.

Definition urb_event (ev : event) : bool :=
  match ev with EvSubmit _ _ _ _ _ _ | EvReap _ _ => true | _ => false end.

(** One more event that is not about URBs. *)
Lemma calm_event x x' ev n :
  urb_event ev = false → calm x x' →
  calm x (Ext (ev :: x_trace x') n (x_oom x')).
Proof. intros Hev [H1 H2]. split; [done|]. intros fd. rewrite -H2. by destruct ev. Qed.

Lemma calm_errno x x' n : calm x x' → calm x (Ext (x_trace x') n (x_oom x')).
Proof. done. Qed.

Create HintDb calm.
#[export] Hint Resolve calm_event calm_errno quiet_calm : calm.
#[export] Hint Extern 0 (calm ?x ?x) => reflexivity : calm.
#[export] Hint Extern 5 (calm _ _) => (etrans; [eassumption|]) : calm.

(** ** What an operation returned *)

(** The error [got] of an operation specified by [s]. *)
Definition failed {A} (s : Spec A) (x x' : ext) (got : aerr) : Prop :=
  calm x x' ∧ (s (x_trace x) = (inl got, x_trace x') ∨ (mem_err got ∧ oomed x x')).

Definition succeeded {A} (s : Spec A) (x x' : ext) (a : A) : Prop :=
  calm x x' ∧ s (x_trace x) = (inr a, x_trace x').

(** The error pointer [e] and the resources: [ok] on success, [bad] on failure. *)
Definition returns {A} (s : Spec A) (x x' : ext) (e : ptr) (ok : A → hProp) (bad : hProp) : hProp :=
  ((∃ a, ⟪e = NULL ∧ succeeded s x x' a⟫ ∗ ok a) ∨
   (∃ got, ⟪failed s x x' got⟫ ∗ err_own e got ∗ bad))%I.

Section returns.
Context {A B : Type}.
Implicit Types (s : Spec A) (x : ext).

Lemma returns_ok s x x' a ok bad :
  succeeded s x x' a → ok a ⊢ returns s x x' NULL ok bad.
Proof. iIntros (H) "H". iLeft. iExists a. by iFrame. Qed.

Lemma returns_err s x x' e want ok bad :
  s (x_trace x) = (inl want, x_trace x) →
  err_res e want x x' ∗ bad ⊢ returns s x x' e ok bad.
Proof.
  iIntros (Hs) "[(%got & H & %He) Hb]". destruct He as [Hq He]. iRight. iExists got. iFrame.
  iPureIntro. split; [by apply quiet_calm|]. destruct Hq as [-> _].
  destruct He as [->|?]; [by left|by right].
Qed.

(** An error of a later stage. *)
Lemma returns_err_from s x x1 x' e want ok bad :
  calm x x1 → s (x_trace x) = (inl want, x_trace x1) →
  err_res e want x1 x' ∗ bad ⊢ returns s x x' e ok bad.
Proof.
  iIntros (Hc Hs) "[(%got & H & %He) Hb]". destruct He as [Hq He]. iRight. iExists got. iFrame.
  iPureIntro. split; [by etrans; [|apply quiet_calm]|]. destruct Hq as [-> _].
  destruct He as [->|[? ?]]; [by left|right]. split; [done|by eapply oomed_r].
Qed.

(** Running out of memory at a later stage. *)
Lemma returns_no_memory s x x1 x' ok bad :
  calm x x1 → quiet x1 x' → oomed x1 x' →
  bad ⊢ returns s x x' (Static error_no_memory) ok bad.
Proof.
  iIntros (Hc Hq Ho) "Hb". iRight. iExists no_memory. iFrame.
  iSplit; [|iLeft; iPureIntro; by eexists]. iPureIntro.
  split; [by etrans; [|apply quiet_calm]|]. right. split; [apply mem_err_no_memory|].
  by eapply oomed_r.
Qed.

(** What a failure of a stage is for the whole operation. *)
Lemma failed_bind s (f : A → Spec B) x x' got :
  failed s x x' got → failed (s ≫= f) x x' got.
Proof.
  intros [Hc [E|E]]; (split; [done|]); [left|by right]. by apply sbind_err.
Qed.


Lemma succeeded_bind s (f : A → Spec B) x x1 x' a b :
  succeeded s x x1 a → succeeded (f a) x1 x' b → succeeded (s ≫= f) x x' b.
Proof.
  intros [Hc1 E1] [Hc2 E2]. split; [by etrans|]. by erewrite sbind_ok.
Qed.

Lemma failed_bind_r s (f : A → Spec B) x x1 x' a got :
  succeeded s x x1 a → failed (f a) x1 x' got → failed (s ≫= f) x x' got.
Proof.
  intros [Hc1 E1] [Hc2 E2]. split; [by etrans|]. erewrite sbind_ok; [|done].
  destruct E2 as [E2|[? ?]]; [by left|right]. split; [done|by eapply oomed_r].
Qed.
End returns.

Lemma succeeded_ret {A} (a : A) x x' :
  calm x x' → x_trace x' = x_trace x → succeeded (mret a) x x' a.
Proof. intros Hc Ht. split; [done|]. by rewrite sret_eq Ht. Qed.

Lemma succeeded_ret_inv {A} (a b : A) x x' :
  succeeded (mret a) x x' b → b = a ∧ x_trace x' = x_trace x ∧ calm x x'.
Proof. intros [Hc E]. rewrite sret_eq in E. by injection E as -> ->. Qed.

(** A failure because of an allocation. *)
Lemma failed_no_memory {A} (s : Spec A) x x' :
  quiet x x' → oomed x x' → failed s x x' no_memory.
Proof. intros. split; [by apply quiet_calm|]. right. by split; [apply mem_err_no_memory|]. Qed.

Lemma failed_ret {A B} (a : A) (b : B) x x' got :
  failed (mret a) x x' got → failed (mret b) x x' got.
Proof.
  intros [Hc [E|E]]; [by rewrite sret_eq in E|]. by split; [|right].
Qed.

Lemma pure_failed {A B} (a : A) (s : Spec B) x x' got :
  failed (mret a) x x' got → failed s x x' got.
Proof. intros [Hc [E|E]]; [by rewrite sret_eq in E|]. by split; [|right]. Qed.

(** The value of a specification without system calls can be mapped. *)
Lemma returns_ret {A B} (a : A) (b : B) x x' e ok ok' bad :
  (ok a ⊢ ok' b) →
  returns (mret a) x x' e ok bad ⊢ returns (mret b) x x' e ok' bad.
Proof.
  iIntros (H) "[(%c & %Hc & H)|(%got & %Hf & H)]".
  - destruct Hc as (-> & (-> & Ht & Hc)%succeeded_ret_inv).
    iApply (returns_ok _ _ _ b); [by apply succeeded_ret|]. by iApply H.
  - iRight. iExists got. iFrame. iPureIntro. by eapply failed_ret.
Qed.

(** A tail call: the rest [s'] of a specification. *)
Lemma returns_tail {A} (s s' : Spec A) x x1 x' e ok bad :
  calm x x1 → s (x_trace x) = s' (x_trace x1) →
  returns s' x1 x' e ok bad ⊢ returns s x x' e ok bad.
Proof.
  iIntros (Hc Hs) "[(%a & %Ha & H)|(%got & %Hf & H)]".
  - iLeft. iExists a. iFrame. iPureIntro. destruct Ha as (-> & Hc' & E).
    split; [done|]. split; [by etrans|]. by rewrite Hs.
  - iRight. iExists got. iFrame. iPureIntro. destruct Hf as [Hc' E].
    split; [by etrans|]. rewrite Hs. destruct E as [E|[? ?]]; [by left|right].
    split; [done|by eapply oomed_r].
Qed.

Lemma returns_bind {A B} (s : Spec A) (f : A → Spec B) a x x1 x' e ok bad :
  succeeded s x x1 a →
  returns (f a) x1 x' e ok bad ⊢ returns (s ≫= f) x x' e ok bad.
Proof. intros [Hc E]. apply returns_tail; [done|]. by apply sbind_ok. Qed.

(** Failing with a new error in a specification without system calls. *)
Lemma returns_sopt {A} (o : option A) r want x x' ok bad :
  o = None → err_res r want x x' ∗ bad ⊢ returns (sopt o want) x x' r ok bad.
Proof. intros ->. iIntros "H". by iApply (returns_err with "H"). Qed.

Lemma succeeded_opt {A} (o : option A) a e x : o = Some a → succeeded (sopt o e) x x a.
Proof. intros ->. by apply succeeded_ret. Qed.

(** Decorating the error of a failed operation. *)
Lemma scontext_ok {A} text (s : Spec A) x x' a :
  succeeded s x x' a → succeeded (scontext text s) x x' a.
Proof. intros [Hc E]. split; [done|]. unfold scontext. by rewrite E. Qed.

Lemma wp_add_context {A} (s : Spec A) text e got x x1 Q :
  no_nul text = true → failed s x x1 got →
  err_own e got -∗
  (∀ r x2 got', ⌜is_null r = false ∧ failed (scontext text s) x x2 got'⌝ →
     err_own r got' -∗ Q r x2) -∗
  wp (error_add e text) x1 Q.
Proof.
  iIntros (Ht [Hc Hf]) "He HQ". iApply (wp_wand with "[He]").
  { iApply (error_add_spec _ (Some got)); done. }
  iIntros (r x2) "H". iDestruct (new_err_result with "H") as "(%b & He & %Hb)".
  iDestruct (err_own_not_null with "He") as "[%Hn He]".
  iApply ("HQ" $! r x2 b with "[%] He"). split; [done|].
  destruct Hb as [Hq Hb]. pose proof (quiet_calm _ _ Hq) as Hc2.
  split; [by etrans|]. destruct Hb as [->|[-> Ho]].
  - destruct Hf as [Hf|[Hm Ho]]; [left|right].
    + unfold scontext. rewrite Hf. destruct Hq as [-> _]. done.
    + split; [by apply mem_err_add|by eapply oomed_l].
  - right. split; [apply mem_err_masked|by eapply oomed_r].
Qed.

(** ** Errors that are ignored *)

(** What an operation that ignores errors did: what its specification says, or
    something else when an allocation failed on the way. *)
Definition mostly {A} (s : Spec A) (x x' : ext) (a : A) : Prop :=
  calm x x' ∧ (s (x_trace x) = (inr a, x_trace x') ∨ oomed x x').

Lemma mostly_bind {A B} (s : Spec A) (f : A → Spec B) x x1 x' a b :
  succeeded s x x1 a → mostly (f a) x1 x' b → mostly (s ≫= f) x x' b.
Proof.
  intros [Hc E] [Hc' E']. split; [by etrans|].
  destruct E' as [E'|E']; [left|right; by eapply oomed_r]. by rewrite (sbind_ok _ _ _ _ _ E).
Qed.

Lemma mostly_quiet_l {A} (s : Spec A) x x1 x' a :
  calm x x1 → x_trace x1 = x_trace x → mostly s x1 x' a → mostly s x x' a.
Proof.
  intros Hc E [Hc' E']. split; [by etrans|]. rewrite -E.
  destruct E' as [E'|E']; [by left|right; by eapply oomed_r].
Qed.

(** What an operation that ignores some errors came to: what its specification says,
    or something else when an allocation failed on the way. *)
Definition roughly {A} (s : Spec A) (x x' : ext) (r : aerr + A) : Prop :=
  calm x x' ∧ (s (x_trace x) = (r, x_trace x') ∨ oomed x x').

Section roughly.
Context {A B : Type}.
Implicit Types (s : Spec A) (f : A → Spec B).

Lemma roughly_quiet_l s x x1 x' r :
  calm x x1 → x_trace x1 = x_trace x → roughly s x1 x' r → roughly s x x' r.
Proof.
  intros Hc E [Hc' E']. split; [by etrans|]. rewrite -E.
  destruct E' as [E'|E']; [by left|right; by eapply oomed_r].
Qed.

Lemma failed_roughly s x x' got : failed s x x' got → roughly s x x' (inl got).
Proof. intros [Hc [E|[_ E]]]; (split; [done|]); [by left|by right]. Qed.

Lemma succeeded_roughly s x x' a : succeeded s x x' a → roughly s x x' (inr a).
Proof. intros [Hc E]. split; [done|by left]. Qed.

Lemma mostly_roughly s x x' a : mostly s x x' a ↔ roughly s x x' (inr a).
Proof. done. Qed.

Lemma roughly_oomed s x x' r : calm x x' → oomed x x' → roughly s x x' r.
Proof. intros. split; [done|by right]. Qed.

Lemma roughly_seq s f x x1 x' a r :
  roughly s x x1 (inr a) → roughly (f a) x1 x' r → roughly (s ≫= f) x x' r.
Proof.
  intros [Hc E] [Hc' E']. split; [by etrans|].
  destruct E as [E|E]; [|right; by eapply oomed_l].
  destruct E' as [E'|E']; [|right; by eapply oomed_r]. left. by rewrite (sbind_ok _ _ _ _ _ E).
Qed.

Lemma roughly_bind s f x x1 x' a r :
  succeeded s x x1 a → roughly (f a) x1 x' r → roughly (s ≫= f) x x' r.
Proof. intros H. by apply roughly_seq, succeeded_roughly. Qed.

Lemma roughly_fail s f x x' e : roughly s x x' (inl e) → roughly (s ≫= f) x x' (inl e).
Proof.
  intros [Hc E]. split; [done|]. destruct E as [E|E]; [left|by right]. by apply sbind_err.
Qed.
End roughly.

(** ** Refinement between specifications

    [refines R s t]: [s] and [t] fail alike, do the same in the same order, and
    return values that [R] relates. *)

Definition refines {A B} (R : A → B → Prop) (s : Spec A) (t : Spec B) : Prop := ∀ h,
  match s h with
  | (inr a, h') => ∃ b, t h = (inr b, h') ∧ R a b
  | (inl e, h') => t h = (inl e, h')
  end.

Section refines.
Context {A B A' B' : Type}.
Implicit Types (s : Spec A) (t : Spec B).

Lemma refines_ret (R : A → B → Prop) a b : R a b → refines R (mret a) (mret b).
Proof. intros H h. rewrite !sret_eq. by exists b. Qed.

Lemma refines_same (φ : A → Prop) s :
  (∀ h a h', s h = (inr a, h') → φ a) → refines (λ a b, a = b ∧ φ a) s s.
Proof. intros H h. destruct (s h) as [[e|a] h'] eqn:E; [done|]. exists a. naive_solver. Qed.

Lemma refines_bind (R : A → B → Prop) (R' : A' → B' → Prop) s t (f : A → Spec A') (g : B → Spec B') :
  refines R s t → (∀ a b, R a b → refines R' (f a) (g b)) → refines R' (s ≫= f) (t ≫= g).
Proof.
  intros Hs Hf h. specialize (Hs h). destruct (s h) as [[e|a] h1] eqn:E.
  - by rewrite (sbind_err _ f _ _ _ E) (sbind_err _ g _ _ _ Hs).
  - destruct Hs as (b & Ht & Hr). specialize (Hf a b Hr h1).
    rewrite (sbind_ok _ f _ _ _ E) (sbind_ok _ g _ _ _ Ht). apply Hf.
Qed.

Lemma refines_map_r (R : A → B → Prop) (R' : A → B' → Prop) s t (g : B → B') :
  refines R s t → (∀ a b, R a b → R' a (g b)) → refines R' s (b ← t; mret (g b)).
Proof.
  intros Hs Hg h. specialize (Hs h). destruct (s h) as [[e|a] h1].
  - by apply sbind_err.
  - destruct Hs as (b & Ht & Hr). exists (g b). split; [|by apply Hg].
    by rewrite (sbind_ok _ _ _ _ _ Ht).
Qed.
End refines.

Lemma refines_refl {A} (s : Spec A) : refines eq s s.
Proof. intros h. destruct (s h) as [[e|a] h']; [done|by exists a]. Qed.

(** ** Tactics

    [returned] splits what a call returned into its success ([Ha], resources
    ["Hok"]) and its failure ([Hf], the error ["He"], resources ["Hbad"]), and
    lets the code see which one it is; [chain] puts the stages of a specification
    together. *)
Ltac returned H :=
  iDestruct H as "[(%a & % & Hok)|(%got & %Hfailed & He & Hbad)]";
  [ match goal with
    | E : _ = NULL ∧ succeeded _ _ _ _ |- _ =>
        let H' := fresh "Ha" in destruct E as [E H']; cbn [fst snd] in E, H'; subst
    end; wp_simpl
  | iDestruct (err_own_not_null with "He") as "[% He]"; cbn [fst snd] in *;
    match goal with
    | E : is_null _ = false |- _ => let H' := fresh "Hn" in rename E into H'; rewrite ?H'; wp_simpl; rewrite ?H'
    end; wp_simpl ].

Ltac chain_tests :=
  cbv beta; cbn [fst snd negb andb orb];
  repeat match goal with
         | H : ?b = true |- context [?b] => rewrite H; cbn [negb andb orb]
         | H : ?b = false |- context [?b] => rewrite H; cbn [negb andb orb]
         end.

Ltac chain :=
  chain_tests;
  lazymatch goal with
  | |- failed _ _ _ _ =>
      repeat (eapply failed_bind_r; [eassumption|]; chain_tests);
      first [eassumption | apply failed_bind; eassumption]
  | |- succeeded _ _ _ _ =>
      repeat (eapply succeeded_bind; [eassumption|]; chain_tests);
      first [eassumption | apply succeeded_ret; [eauto with calm|done]]
  end.

(** Passing on the error of a stage. *)
Ltac fails :=
  iRight; iExists _; iSplitR; [iPureIntro; chain|]; iFrame "He"; first [done | by iFrame | by iPureIntro].
