(* ===== verification/Basics.v ===== *)
(** * Basics: string.c, pipe_id.c and list.c

    The small platform independent components: copies of strings, validation of
    endpoint addresses, and the null-terminated array of devices. *)

From S2P Require Import Prelude Memory Logic Format Errors Results.
#[local] Set Warnings "-rewrite-rw".

(** ** The idiom [if (error == NULL) { ... }] *)

(** A block of [if (error == NULL)] whose value is [dflt] when skipped. *)
Definition if_ok {A} (error : ptr) (dflt : A) (m : M (ptr * A)) : M (ptr * A) :=
  if is_null error then m else mret (error, dflt).

(** A block of [if (error == NULL)] that only sets [error]. *)
Definition then_check (error : ptr) (m : M ptr) : M ptr :=
  if is_null error then m else mret error.

(** ** string.c *)

(** [string_copy(input_string, &output)]: the error and the value of [output]. *)
Definition string_copy (input_string : ptr) : M (ptr * ptr) :=
  c_assert (negb (is_null input_string));;
  new_string ← strdup input_string;
  if is_null new_string then mret (Static error_no_memory, NULL)
  else mret (NULL, new_string).

Definition libusbp_string_free (s : ptr) : M unit := free s.

(** ** pipe_id.c *)

Definition MAX_ENDPOINT_NUMBER : Z := 15.

Definition error_invalid_pipe_id (pipe_id : Z) : M ptr :=
  error_create ("Invalid pipe ID 0x" +:+ fmt_x 2 pipe_id +:+ ".").

(** [pipe_id & ~0x80], on the [int] that the [uint8_t] is promoted to. *)
Definition check_pipe_id (pipe_id : Z) : M ptr :=
  if (MAX_ENDPOINT_NUMBER <? Z.land pipe_id (Z.lnot 0x80)) || (pipe_id =? 0x80)
  then error_invalid_pipe_id pipe_id
  else mret NULL.

Definition check_pipe_id_in (pipe_id : Z) : M ptr :=
  if Z.land pipe_id 0x80 =? 0 then error_invalid_pipe_id pipe_id
  else check_pipe_id pipe_id.

Definition check_pipe_id_out (pipe_id : Z) : M ptr :=
  if negb (Z.land pipe_id 0x80 =? 0) then error_invalid_pipe_id pipe_id
  else check_pipe_id pipe_id.

(** ** list.c *)

(** [device_list_create(&device_list)]: the error and the new list. *)
Definition device_list_create : M (ptr * ptr) :=
  new_list ← malloc sizeof_ptr (OPtrs [None]);
  if is_null new_list then mret (Static error_no_memory, NULL)
  else
    store_elem as_ptrs OPtrs new_list 0 NULL;;
    mret (NULL, new_list).

(** [realloc] of an array of pointers to [n] of them. *)
Definition resize_ptrs (n : Z) (o : obj) : obj :=
  match o with
  | OPtrs ps => OPtrs (take (Z.to_nat n) (ps ++ replicate (Z.to_nat n) None))
  | _ => o
  end.

(** [device_list_append(&device_list, &count, device)]: the error, the list and
    the count afterwards. *)
Definition device_list_append (device_list : ptr) (count : Z) (device : ptr) :
    M (ptr * ptr * Z) :=
  c_assert (negb (is_null device));;
  let new_count := to_size (count + 1) in
  let size := to_size (to_size (new_count + 1) * sizeof_ptr) in
  expanded_list ← realloc device_list size
                    (OPtrs (replicate (Z.to_nat (size / sizeof_ptr)) None))
                    (resize_ptrs (size / sizeof_ptr));
  if is_null expanded_list then mret (Static error_no_memory, device_list, count)
  else
    store_elem as_ptrs OPtrs expanded_list (to_size (new_count - 1)) device;;
    store_elem as_ptrs OPtrs expanded_list new_count NULL;;
    mret (NULL, expanded_list, new_count).

Definition libusbp_list_free (device_list : ptr) : M unit :=
  if is_null device_list then mret tt else free device_list.

(** The loop of [free_devices_and_list] from index [i]: [n] bounds the number of
    iterations. *)
Fixpoint free_devices_loop (device_free : ptr → M unit) (device_list : ptr) (i : Z) (n : nat) :
    M unit :=
  match n with
  | O => stuck OutOfFuel
  | S n =>
      device ← load_elem as_ptrs device_list i;
      if is_null device then mret tt
      else
        device_free device;;
        free_devices_loop device_free device_list (i + 1) n
  end.

(** [free_devices_and_list]; [device_free] is the platform's
    [libusbp_device_free].  The array itself bounds the loop. *)
Definition free_devices_and_list (device_free : ptr → M unit) (device_list : ptr) : M unit :=
  if is_null device_list then mret tt
  else
    ps ← load_as as_ptrs device_list;
    free_devices_loop device_free device_list 0 (S (List.length ps));;
    libusbp_list_free device_list.

(** ** Specifications *)

Lemma string_copy_spec R p s x :
  reads R p s → no_nul s = true → is_null p = false →
  {{ R }} string_copy p @ x {{ r x',
    R ∗ returns (mret s) x x' r.1 (λ s, str_own r.2 s) ⟪r.2 = NULL⟫ }}.
Proof.
  iIntros (Hr Hs Hp) "HR". unfold string_copy. rewrite Hp. wp_steps.
  iApply (wp_strdup with "HR"); [done|done|]. iSplit.
  - iIntros (q) "HR Hq". iDestruct (str_own_not_null with "Hq") as "[%Hq Hq]".
    rewrite Hq. wp_steps. iFrame. iApply (returns_ok with "Hq"). by split.
  - iIntros (x' [Hq Ho]) "HR". wp_steps. iFrame. by iApply returns_no_memory.
Qed.

Lemma libusbp_string_free_spec p s x :
  {{ str_own p s }} libusbp_string_free p @ x {{ r x', ⟪x' = x⟫ }}.
Proof.
  iIntros "(%l & %H & Hl)". destruct H as (-> & _ & _). unfold libusbp_string_free.
  wp_steps. by iPureIntro.
Qed.

(** The endpoint addresses that exist: 0, OUT endpoints 1 to 15 and IN endpoints
    1 to 15 with bit 7 set. *)
Definition pipe_id_exists (pipe_id : Z) : bool :=
  ((0 <=? pipe_id) && (pipe_id <=? 15)) || ((129 <=? pipe_id) && (pipe_id <=? 143)).

Definition is_in (pipe_id : Z) : bool := 128 <=? pipe_id.

Definition invalid_pipe_id (pipe_id : Z) : aerr :=
  err_new ("Invalid pipe ID 0x" +:+ fmt_x 2 pipe_id +:+ ".").

Lemma pipe_id_test n : u8 n →
  (MAX_ENDPOINT_NUMBER <? Z.land n (Z.lnot 0x80)) || (n =? 0x80) = negb (pipe_id_exists n).
Proof.
  intros Hn. apply eqb_prop. revert n Hn. apply u8_forall. by vm_compute.
Qed.

Lemma pipe_id_direction n : u8 n → (Z.land n 0x80 =? 0) = negb (is_in n).
Proof.
  intros Hn. apply eqb_prop. revert n Hn. apply u8_forall. by vm_compute.
Qed.

Lemma testbit_is_in n : u8 n → Z.testbit n 7 = is_in n.
Proof. intros Hn. apply eqb_prop. revert n Hn. apply u8_forall. by vm_compute. Qed.

(** [check_pipe_id] and its variants: does the pipe ID pass? *)
Definition checked (ok : bool) (pipe_id : Z) : Spec unit :=
  if ok then mret tt else sfail (invalid_pipe_id pipe_id).

Lemma error_invalid_pipe_id_spec n x :
  {{ emp }} error_invalid_pipe_id n @ x {{ r x', err_res r (invalid_pipe_id n) x x' }}.
Proof. apply error_create_res. by rewrite !no_nul_app no_nul_fmt_x. Qed.

(** A check succeeds without touching anything, or makes the error. *)
Definition check_result (ok : bool) (n : Z) (r : ptr) (x x' : ext) : hProp :=
  if ok then ⟪r = NULL ∧ x' = x⟫%I else err_res r (invalid_pipe_id n) x x'.

Lemma check_result_returns ok n r x x' :
  check_result ok n r x x' ⊢ returns (checked ok n) x x' r (λ _, emp) emp.
Proof.
  iIntros "H". destruct ok.
  - iDestruct "H" as %[-> ->]. iApply (returns_ok _ _ _ tt); [|done]. by split.
  - iApply (returns_err with "[H]"); [done|]. iFrame.
Qed.

Lemma check_pipe_id_exact n x :
  u8 n → {{ emp }} check_pipe_id n @ x {{ r x', check_result (pipe_id_exists n) n r x x' }}.
Proof.
  intros Hn. unfold check_pipe_id. rewrite pipe_id_test //.
  destruct (pipe_id_exists n); [|apply error_invalid_pipe_id_spec].
  iIntros "_". wp_steps. by iPureIntro.
Qed.

Lemma check_pipe_id_in_exact n x :
  u8 n →
  {{ emp }} check_pipe_id_in n @ x {{ r x', check_result (is_in n && pipe_id_exists n) n r x x' }}.
Proof.
  intros Hn. unfold check_pipe_id_in. rewrite pipe_id_direction //.
  destruct (is_in n); [by apply check_pipe_id_exact|]. apply error_invalid_pipe_id_spec.
Qed.

Lemma check_pipe_id_out_exact n x :
  u8 n →
  {{ emp }} check_pipe_id_out n @ x {{ r x',
    check_result (negb (is_in n) && pipe_id_exists n) n r x x' }}.
Proof.
  intros Hn. unfold check_pipe_id_out. rewrite pipe_id_direction // negb_involutive.
  destruct (is_in n); cbn [negb andb]; [|by apply check_pipe_id_exact].
  apply error_invalid_pipe_id_spec.
Qed.

Lemma check_pipe_id_spec n x :
  u8 n →
  {{ emp }} check_pipe_id n @ x {{ r x', returns (checked (pipe_id_exists n) n) x x' r (λ _, emp) emp }}.
Proof.
  iIntros (Hn) "_". iApply wp_wand; [by iApply check_pipe_id_exact|].
  iIntros (r x') "H". by iApply check_result_returns.
Qed.

Lemma check_pipe_id_in_spec n x :
  u8 n →
  {{ emp }} check_pipe_id_in n @ x {{ r x',
    returns (checked (is_in n && pipe_id_exists n) n) x x' r (λ _, emp) emp }}.
Proof.
  iIntros (Hn) "_". iApply wp_wand; [by iApply check_pipe_id_in_exact|].
  iIntros (r x') "H". by iApply check_result_returns.
Qed.

Lemma check_pipe_id_out_spec n x :
  u8 n →
  {{ emp }} check_pipe_id_out n @ x {{ r x',
    returns (checked (negb (is_in n) && pipe_id_exists n) n) x x' r (λ _, emp) emp }}.
Proof.
  iIntros (Hn) "_". iApply wp_wand; [by iApply check_pipe_id_out_exact|].
  iIntros (r x') "H". by iApply check_result_returns.
Qed.

(** ** Arrays with an element for every endpoint number *)
Definition endpoint_get (ts : list Z) (i : Z) : M Z :=
  match ts !! Z.to_nat i with
  | Some t => if 0 <=? i then mret t else stuck OutOfBounds
  | None => stuck OutOfBounds
  end.

Definition endpoint_set (ts : list Z) (i t : Z) : M (list Z) :=
  if (0 <=? i) && (i <? Z.of_nat (List.length ts))
  then mret (<[Z.to_nat i := t]> ts)
  else stuck OutOfBounds.

Lemma endpoint_number_range n : 0 ≤ n → 0 ≤ Z.land n MAX_ENDPOINT_NUMBER < 16.
Proof.
  intros. change MAX_ENDPOINT_NUMBER with (Z.ones 4). rewrite Z.land_ones; [|lia].
  by apply Z.mod_pos_bound.
Qed.

Lemma wp_endpoint_set ts i t x Q :
  0 ≤ i < Z.of_nat (List.length ts) → Q (<[Z.to_nat i := t]> ts) x ⊢ wp (endpoint_set ts i t) x Q.
Proof.
  iIntros (Hi) "H". unfold endpoint_set.
  rewrite (_ : (0 <=? i) && (i <? Z.of_nat (List.length ts)) = true); [by wp_steps|].
  apply andb_true_iff. split; [apply Z.leb_le|apply Z.ltb_lt]; lia.
Qed.

Lemma wp_endpoint_get ts i x Q :
  0 ≤ i < Z.of_nat (List.length ts) → Q (default 0 (ts !! Z.to_nat i)) x ⊢ wp (endpoint_get ts i) x Q.
Proof.
  iIntros (Hi) "H". unfold endpoint_get.
  destruct (lookup_lt_is_Some_2 ts (Z.to_nat i)) as [t Ht]; [lia|]. rewrite Ht.
  rewrite (_ : (0 <=? i) = true); [by wp_steps|]. apply Z.leb_le. lia.
Qed.

(** ** Lists of devices *)

(** What a platform's device objects promise to list.c: they are not null, and
    [libusbp_device_free] consumes them. *)
Class DeviceObjects (D : Type) (device_free : ptr → M unit) := {
  device_own : ptr → D → hProp;
  device_own_not_null p d : device_own p d ⊢ ⌜is_null p = false⌝ ∧ device_own p d;
  device_free_spec p d x : {{ device_own p d }} device_free p @ x {{ r x', ⟪x' = x⟫ }}
}.

Section lists.
Context {D : Type} {device_free : ptr → M unit} {DO : DeviceObjects D device_free}.
Implicit Types (ds : list D) (ps : list ptr) (x : ext).

(** A block with the pointers [ps] and the terminating NULL. *)
Definition ptr_array (p : ptr) (ps : list ptr) : hProp :=
  (∃ l, ⟪p = Heap l ∧ sizeof_ptr * (Z.of_nat (List.length ps) + 1) ≤ PTRDIFF_MAX⟫ ∗
        l ↦ OPtrs (Some <$> ps ++ [NULL]))%I.

Definition devices (ps : list ptr) (ds : list D) : hProp :=
  ([∗ list] q;d ∈ ps;ds, device_own q d)%I.

Definition device_list (p : ptr) (ds : list D) : hProp :=
  (∃ ps, ptr_array p ps ∗ devices ps ds)%I.

Lemma ptr_array_not_null p ps : ptr_array p ps ⊢ ⌜is_null p = false⌝ ∧ ptr_array p ps.
Proof. iIntros "H". iSplit; [|done]. by iDestruct "H" as (l [-> _]) "H". Qed.

Lemma device_list_create_spec x :
  {{ emp }} device_list_create @ x {{ r x',
    returns (mret tt) x x' r.1 (λ _, device_list r.2 []) ⟪r.2 = NULL⟫ }}.
Proof.
  iIntros "_". unfold device_list_create. wp_step. iApply wp_malloc_pos; [done|].
  iSplit.
  - iIntros (l Hl) "Hl". wp_steps. iApply (wp_store_elem with "Hl"); [done|done|].
    iIntros "Hl". wp_steps. iApply (returns_ok _ _ _ tt); [by split|].
    iExists []. iSplitL "Hl"; [iExists l; by iFrame|]. by rewrite /devices.
  - iIntros (x' [Hq Ho]). wp_steps. by iApply returns_no_memory.
Qed.

Lemma resize_array ps :
  resize_ptrs (Z.of_nat (List.length ps) + 2) (OPtrs (Some <$> ps ++ [NULL])) =
  OPtrs ((Some <$> ps) ++ [Some NULL; None]).
Proof.
  unfold resize_ptrs. do 2 f_equal.
  rewrite (_ : Z.to_nat (Z.of_nat (List.length ps) + 2) =
               (List.length (Some <$> ps ++ [NULL]) + 1)%nat).
  - rewrite take_app_add Nat.add_1_r fmap_app -app_assoc. done.
  - rewrite length_fmap length_app. cbn. lia.
Qed.

Lemma device_list_append_last p ds q d x :
  {{ device_list p ds ∗ device_own q d }}
    device_list_append p (Z.of_nat (List.length ds)) q @ x
  {{ r x',
    (∃ ps, ⟪r.1.1 = NULL ∧ r.2 = Z.of_nat (List.length (ds ++ [d])) ∧
            List.length ps = List.length ds ∧ quiet x x'⟫ ∗
     ptr_array r.1.2 (ps ++ [q]) ∗ devices (ps ++ [q]) (ds ++ [d])) ∨
    (⟪r = (Static error_no_memory, p, Z.of_nat (List.length ds)) ∧ quiet x x' ∧ oomed x x'⟫ ∗
     device_list p ds ∗ device_own q d) }}.
Proof.
  iIntros "[(%ps & (%l & %H & Hl) & Hds) Hd]". destruct H as [-> Hsz].
  iDestruct (big_sepL2_length with "Hds") as %Hlen.
  iDestruct (device_own_not_null with "Hd") as "[%Hq Hd]".
  unfold device_list_append. rewrite Hq -Hlen. wp_steps.
  unfold sizeof_ptr, PTRDIFF_MAX in *. set (n := Z.of_nat (List.length ps)) in *.
  rewrite (to_size_id (n + 1)); [|unfold SIZE_MAX; lia].
  rewrite (to_size_id (n + 1 + 1)); [|unfold SIZE_MAX; lia].
  rewrite (to_size_id (_ * 8)); [|unfold SIZE_MAX; lia].
  rewrite (to_size_id (n + 1 - 1)); [|unfold SIZE_MAX; lia].
  rewrite Z.div_mul // (_ : n + 1 + 1 = n + 2); [|lia]. rewrite (_ : n + 1 - 1 = n); [|lia].
  iApply (wp_realloc with "Hl"); [lia|done|]. iSplit.
  - rewrite resize_array. iIntros (l' Hl') "Hl". wp_simpl. wp_step.
    iApply (wp_store_elem with "Hl"); [done|rewrite length_app length_fmap; cbn; lia|].
    iIntros "Hl". wp_step.
    rewrite Nat2Z.id insert_app_r_alt ?length_fmap // Nat.sub_diag. cbn [list_insert insert].
    iApply (wp_store_elem with "Hl"); [done|rewrite length_app length_fmap; cbn; lia|].
    iIntros "Hl". rewrite (_ : Z.to_nat (n + 1) = (List.length (Some <$> ps) + 1)%nat);
      [|rewrite length_fmap; lia].
    rewrite insert_app_r. cbn [list_insert insert]. wp_steps. iLeft. iExists ps.
    rewrite length_app -Hlen. cbn [List.length]. rewrite Nat2Z.inj_add. iSplit; [done|].
    iSplitL "Hl".
    + iExists l'. rewrite !fmap_app -app_assoc. iFrame. iPureIntro. split; [done|].
      rewrite length_app. cbn. unfold sizeof_ptr, PTRDIFF_MAX in *. lia.
    + iApply (big_sepL2_app with "Hds"). by iFrame.
  - iIntros (x' Hx') "Hl". wp_steps. iRight. iFrame. by iSplit.
Qed.

Lemma device_list_append_spec p ds q d x :
  {{ device_list p ds ∗ device_own q d }}
    device_list_append p (Z.of_nat (List.length ds)) q @ x
  {{ r x',
    (⟪r.1.1 = NULL ∧ r.2 = Z.of_nat (List.length (ds ++ [d])) ∧ quiet x x'⟫ ∗
     device_list r.1.2 (ds ++ [d])) ∨
    (⟪r = (Static error_no_memory, p, Z.of_nat (List.length ds)) ∧ quiet x x' ∧ oomed x x'⟫ ∗
     device_list p ds ∗ device_own q d) }}.
Proof.
  iIntros "H". iApply (wp_wand with "[H]"); [by iApply device_list_append_last|].
  iIntros (r x') "[(%ps & %H & Hp & Hds)|H]"; [iLeft|by iRight].
  destruct H as (H1 & H2 & _ & H3). iSplit; [done|]. iExists (ps ++ [q]). iFrame.
Qed.

Lemma libusbp_list_free_spec p ps x :
  {{ ptr_array p ps }} libusbp_list_free p @ x {{ r x', ⟪x' = x⟫ }}.
Proof.
  iIntros "(%l & %H & Hl)". destruct H as [-> _]. unfold libusbp_list_free. wp_steps.
  by iPureIntro.
Qed.

(** Reading an element of the array. *)
Lemma ptr_array_load p ps i q x Q :
  (ps ++ [NULL]) !! i = Some q →
  ptr_array p ps -∗ (ptr_array p ps -∗ Q q x) -∗ wp (load_elem as_ptrs p (Z.of_nat i)) x Q.
Proof.
  iIntros (Hi) "(%l & %H & Hl) HQ". pose proof H as [-> _].
  iApply (wp_load_elem with "Hl"); [done|lia| |].
  - by rewrite Nat2Z.id list_lookup_fmap Hi.
  - iIntros "Hl". iApply "HQ". iExists l. by iFrame.
Qed.

Lemma free_devices_loop_spec p pre qs ds n x Q :
  (List.length qs < n)%nat →
  ptr_array p (pre ++ qs) -∗ devices qs ds -∗ (ptr_array p (pre ++ qs) -∗ Q tt x) -∗
  wp (free_devices_loop device_free p (Z.of_nat (List.length pre)) n) x Q.
Proof.
  iIntros "%Hn Hp Hds HQ". iInduction n as [|n] "IH" forall (pre qs ds Hn); [lia|].
  cbn [free_devices_loop]. wp_step. destruct qs as [|q qs].
  - iDestruct (big_sepL2_nil_inv_l with "Hds") as %->.
    rewrite app_nil_r. iApply (ptr_array_load _ _ _ NULL with "Hp").
    { by rewrite lookup_app_r // Nat.sub_diag. }
    iIntros "Hp". wp_steps. by iApply "HQ".
  - iDestruct (big_sepL2_cons_inv_l with "Hds") as (d ds' ->) "[Hd Hds]".
    iApply (ptr_array_load _ _ _ q with "Hp").
    { rewrite -app_assoc lookup_app_r // Nat.sub_diag //. }
    iIntros "Hp". iDestruct (device_own_not_null with "Hd") as "[%Hq Hd]". rewrite Hq.
    wp_step. wp_call (device_free_spec q d _). iIntros ([] ?) "->".
    rewrite (_ : Z.of_nat (List.length pre) + 1 = Z.of_nat (List.length (pre ++ [q])));
      [|rewrite length_app; cbn; lia].
    rewrite (_ : pre ++ q :: qs = (pre ++ [q]) ++ qs); [|by rewrite -app_assoc].
    iApply ("IH" with "[%] Hp Hds HQ"). cbn in Hn. lia.
Qed.

Lemma free_devices_and_list_spec p ds x :
  {{ device_list p ds }} free_devices_and_list device_free p @ x {{ r x', ⟪x' = x⟫ }}.
Proof.
  iIntros "(%ps & Hp & Hds)". unfold free_devices_and_list.
  iDestruct "Hp" as "(%l & %H & Hl)". pose proof H as [-> _]. wp_simpl.
  wp_step. iApply (wp_load_as with "Hl"); [done|]. iIntros "Hl".
  iAssert (ptr_array (Heap l) ps) with "[Hl]" as "Hp"; [iExists l; by iFrame|].
  wp_step. rewrite length_fmap length_app.
  iApply (free_devices_loop_spec _ [] ps with "Hp Hds"); [lia|].
  iIntros "Hp". iApply (libusbp_list_free_spec with "Hp").
Qed.
End lists.

(** ** Properties *)

(** The endpoint checks of pipe_id.c decide exactly the addresses that exist:
    for every byte, [check_pipe_id] succeeds on 0-15 and 0x81-0x8F,
    [check_pipe_id_in] on 0x81-0x8F, [check_pipe_id_out] on 0-15; on every other
    byte each returns an error that names the byte in hexadecimal (or, only if an
    allocation failed, a memory error), and the system is not touched. *)
Theorem pipe_id_checks_decide n x :
  u8 n →
  ({{ emp }} check_pipe_id n @ x {{ r x',
     returns (checked (pipe_id_exists n) n) x x' r (λ _, emp) emp }}) ∧
  ({{ emp }} check_pipe_id_in n @ x {{ r x',
     returns (checked (bool_decide (129 ≤ n ≤ 143)) n) x x' r (λ _, emp) emp }}) ∧
  ({{ emp }} check_pipe_id_out n @ x {{ r x',
     returns (checked (bool_decide (0 ≤ n ≤ 15)) n) x x' r (λ _, emp) emp }}).
Proof.
  intros Hn. split_and!.
  - by apply check_pipe_id_spec.
  - rewrite (_ : bool_decide _ = is_in n && pipe_id_exists n); [by apply check_pipe_id_in_spec|].
    apply eqb_prop. revert n Hn. apply u8_forall. by vm_compute.
  - rewrite (_ : bool_decide _ = negb (is_in n) && pipe_id_exists n); [by apply check_pipe_id_out_spec|].
    apply eqb_prop. revert n Hn. apply u8_forall. by vm_compute.
Qed.

(** A list stays null-terminated: after [device_list_append] on a list of any
    length, the new device is the last element, NULL follows it, the count is one
    more, and [free_devices_and_list] then frees the array and every device.  If
    the array could not grow, list and count are as before and the device still
    belongs to the caller. *)
Theorem device_list_append_terminated {D device_free}
    {DO : DeviceObjects D device_free} p (ds : list D) q (d : D) x :
  {{ device_list p ds ∗ device_own q d }}
    ('(e, p', n) ← device_list_append p (Z.of_nat (List.length ds)) q;
     if is_null e then
       last ← load_elem as_ptrs p' (n - 1);
       terminator ← load_elem as_ptrs p' n;
       free_devices_and_list device_free p';;
       mret (e, n, [last; terminator])
     else
       free_devices_and_list device_free p';;
       device_free q;;
       mret (e, n, [])) @ x
  {{ r x', ⟪quiet x x' ∧
     (r = (NULL, (Z.of_nat (List.length ds) + 1)%Z, [q; NULL]) ∨
      (r = (Static error_no_memory, Z.of_nat (List.length ds), []) ∧ oomed x x'))⟫ }}.
Proof.
  iIntros "H". wp_step. wp_call (device_list_append_last p ds q d x).
  iIntros ([[e p'] n] x') "[(%ps & %H & Hp & Hds)|[%H [Hp Hd]]]".
  - destruct H as (He & Hn & Hlen & Hq). cbn [fst snd] in *. subst e n. wp_simpl.
    rewrite length_app. cbn [List.length]. rewrite Nat2Z.inj_add.
    rewrite (_ : _ + Z.of_nat 1 - 1 = Z.of_nat (List.length ps)); [|lia].
    wp_step. iApply (ptr_array_load _ _ _ q with "Hp").
    { by rewrite -app_assoc lookup_app_r // Nat.sub_diag. }
    iIntros "Hp". wp_step.
    rewrite (_ : _ + Z.of_nat 1 = Z.of_nat (List.length (ps ++ [q]))); [|rewrite length_app; cbn; lia].
    iApply (ptr_array_load _ _ _ NULL with "Hp").
    { by rewrite lookup_app_r // Nat.sub_diag. }
    iIntros "Hp". wp_step.
    iAssert (device_list p' (ds ++ [d])) with "[Hp Hds]" as "H"; [iExists _; iFrame|].
    wp_call (free_devices_and_list_spec p' (ds ++ [d]) x').
    iIntros ([] ?) "->". wp_steps. iPureIntro. split; [done|]. left.
    by rewrite length_app Hlen Nat2Z.inj_add.
  - destruct H as ([= -> -> ->] & Hq & Ho). wp_simpl. wp_step.
    wp_call (free_devices_and_list_spec p ds x'). iIntros ([] ?) "->".
    wp_step. wp_call (device_free_spec q d x'). iIntros ([] ?) "->". wp_steps.
    iPureIntro. split; [done|]. by right.
Qed.
