(* ===== verification/Strings.v ===== *)
(** * Strings: strings that objects own and getters hand out

    Copies of strings, strings that may be missing, the strings that a getter
    stores through an output parameter, and local variables that are read only
    after something was stored in them. *)

From S2P Require Import Prelude Memory Logic Errors Results Basics.
#[local] Set Warnings "-rewrite-rw".

(** The value of a variable that an output parameter was to set. *)
Definition initialised {A} (v : option A) : M A :=
  match v with Some a => mret a | None => stuck Uninitialised end.

(** A possibly NULL string. *)
Definition opt_str_own (p : ptr) (o : option string) : hProp :=
  match o with Some s => str_own p s | None => ⟪p = NULL⟫ end%I.

Lemma opt_str_own_null p o :
  opt_str_own p o ⊢ ⌜is_null p = match o with Some _ => false | None => true end⌝ ∧ opt_str_own p o.
Proof.
  destruct o; cbn; iIntros "H".
  - iApply (str_own_not_null with "H").
  - iDestruct "H" as %->. by iSplit.
Qed.

Lemma free_str p s x : {{ str_own p s }} free p @ x {{ r x', ⟪x' = x⟫ }}.
Proof. apply libusbp_string_free_spec. Qed.

Lemma free_opt_str p o x : {{ opt_str_own p o }} free p @ x {{ r x', ⟪x' = x⟫ }}.
Proof.
  destruct o; cbn; [apply free_str|]. iIntros (->). wp_steps. by iPureIntro.
Qed.

Lemma str_own_no_nul p s : str_own p s ⊢ ⌜no_nul s = true ∧ is_null p = false⌝ ∧ str_own p s.
Proof.
  iIntros "H". iSplit; [|done]. iDestruct "H" as (l) "[%H _]". by destruct H as (-> & ? & _).
Qed.

Lemma string_copy_own p s x :
  {{ str_own p s }} string_copy p @ x {{ r x',
    str_own p s ∗ returns (mret s) x x' r.1 (str_own r.2) ⟪r.2 = NULL⟫ }}.
Proof.
  iIntros "H". iDestruct (str_own_no_nul with "H") as "[[%Hs %Hn] H]".
  iApply (string_copy_spec with "H"); [apply reads_str|done|done].
Qed.

(** [string_copy] of a buffer of the caller. *)
Lemma string_copy_lit s x :
  {{ emp }} string_copy (Lit s) @ x {{ r x',
    returns (mret (until_nul s)) x x' r.1 (str_own r.2) ⟪r.2 = NULL⟫ }}.
Proof.
  iIntros "H". iApply (wp_wand with "[H]").
  { iApply (string_copy_spec emp%I (Lit s) (until_nul s)); [|apply until_nul_no_nul|done|done].
    iIntros (x1 Q) "HE HQ". iApply (wp_ret (until_nul s)). by iApply "HQ". }
  iIntros (r x') "[_ H]". done.
Qed.

(** [string_copy] of a string that can be NULL, as [libusbp_device_copy] does it. *)
Lemma string_copy_opt p o x :
  {{ opt_str_own p o }}
    (if negb (is_null p) then string_copy p else mret (NULL, NULL)) @ x
  {{ r x', opt_str_own p o ∗ returns (mret o) x x' r.1 (opt_str_own r.2) ⟪r.2 = NULL⟫ }}.
Proof.
  iIntros "H". iDestruct (opt_str_own_null with "H") as "[%Hn H]". rewrite Hn.
  destruct o as [s|]; cbn [negb].
  - iApply (wp_wand with "[H]"); [by iApply string_copy_own|]. iIntros (r x') "[H H']". iFrame.
    by iApply (returns_ret with "H'").
  - wp_steps. iFrame. iApply (returns_ok _ _ _ None); [by apply succeeded_ret|done].
Qed.

(** A string stored through an output pointer. *)
Definition out_str (r : option ptr) (s : string) : hProp :=
  (∃ q, ⟪r = Some q⟫ ∗ str_own q s)%I.

(** Passing on the copy that was made. *)
Lemma returns_out_str (s : Spec string) x x' e q :
  returns s x x' e (str_own q) ⟪q = NULL⟫ ⊢ returns s x x' e (out_str (Some q)) ⟪Some q = Some NULL⟫.
Proof.
  iIntros "[(%a & %Ha & Hq)|(%got & %Hf & He & Hq)]".
  - destruct Ha as [-> Ha]. iLeft. iExists a. iSplit; [done|]. iExists q. by iFrame.
  - iRight. iExists got. iFrame. iDestruct "Hq" as %->. by iPureIntro.
Qed.

(** Calling a getter of a string, reading what it returned and releasing it. *)
Definition take_string (m : M (ptr * option ptr)) : M (option string) :=
  '(e, out) ← m;
  q ← initialised out;
  r ← (if is_null e then s ← read_cstr q; mret (Some s) else mret None);
  libusbp_string_free q;;
  libusbp_error_free e;;
  mret r.

Lemma take_string_spec R m (s : Spec string) x :
  ({{ R }} m @ x {{ r x', R ∗ returns s x x' r.1 (out_str r.2) ⟪r.2 = Some NULL⟫ }}) →
  {{ R }} take_string m @ x {{ r x', R ∗
    ⟪(∃ t, r = Some t ∧ succeeded s x x' t) ∨ (r = None ∧ ∃ got, failed s x x' got)⟫ }}.
Proof.
  iIntros (Hm) "HR". unfold take_string. wp_step. iApply (use_triple _ _ _ _ _ Hm with "HR").
  iIntros ([e out] x1) "[HR H]". returned "H"; unfold initialised, libusbp_string_free.
  - iDestruct "Hok" as (q) "[-> Hq]". wp_steps. iApply (reads_str with "Hq"). iIntros "Hq".
    wp_steps. wp_call (free_str q _ x1). iIntros ([] ?) "->". unfold libusbp_error_free. wp_steps.
    iFrame. iPureIntro. left. by exists a.
  - iDestruct "Hbad" as %->. wp_steps. wp_call (libusbp_error_free_spec e (Some got) _).
    iIntros ([] ?) "->". wp_steps. iFrame. iPureIntro. right. by eauto.
Qed.
