(* ===== verification/Buffers.v ===== *)
(** * Buffers: memory of the caller

    Buffers that the application passes to the library, copying to them, and
    optional output pointers, as the transfer functions use them. *)

From S2P Require Import Prelude Memory Logic Errors Results.
#[local] Set Warnings "-rewrite-rw".

(** The value of [*transferred], when the pointer is given. *)
Definition out (given : bool) (n : Z) : option Z := if given then Some n else None.

(** ** Buffers of the caller *)

Definition user_buffer (p : ptr) (cs : list (option ascii)) : hProp :=
  (⟪p = NULL⟫ ∨ ∃ l, ⟪p = Heap l⟫ ∗ l ↦ OChars cs)%I.

(** The buffer after the kernel stored [data] at its start. *)
Definition overwrite (data : list ascii) (cs : list (option ascii)) : list (option ascii) :=
  (Some <$> data) ++ drop (List.length data) cs.

Lemma length_overwrite data cs :
  (List.length data ≤ List.length cs)%nat → List.length (overwrite data cs) = List.length cs.
Proof. intros. unfold overwrite. rewrite length_app length_fmap length_drop. lia. Qed.

(** [memcpy] between character buffers. *)
Definition memcpy_chars (dst src : ptr) (n : Z) : M unit :=
  cs ← load_as as_chars src;
  if n <=? Z.of_nat (List.length cs) then write_chars dst 0 (take (Z.to_nat n) cs)
  else stuck OutOfBounds.

(** An optional error that an operation wanted to build, and the one it got. *)
Definition opt_errs (x x' : ext) (want got : option aerr) : Prop :=
  match want, got with
  | None, None => True
  | Some want, Some got => errs x x' want got
  | _, _ => False
  end.

Lemma errs_mono x0 x1 x2 x3 want got :
  (x_oom x0 ≤ x_oom x1)%nat → (x_oom x2 ≤ x_oom x3)%nat →
  errs x1 x2 want got → errs x0 x3 want got.
Proof. intros ? ? [->|[Hm Ho]]; [by left|right]. split; [done|ext_tac]. Qed.

Lemma opt_errs_mono x0 x1 x2 x3 want got :
  (x_oom x0 ≤ x_oom x1)%nat → (x_oom x2 ≤ x_oom x3)%nat →
  opt_errs x1 x2 want got → opt_errs x0 x3 want got.
Proof. destruct want, got; cbn; try done. apply errs_mono. Qed.

(** The caller's buffer when [cs] was copied to its start. *)
Definition copied (cs old : list (option ascii)) : list (option ascii) :=
  cs ++ drop (List.length cs) old.

(** What is stored in [*transfer_error]: a copy of the error. *)
Definition error_copied (given : bool) (q : option ptr) (e : option aerr) (x x' : ext) : hProp :=
  match given, e with
  | true, Some a => ∃ p, ⟪q = Some p⟫ ∗ err_res p a x x'
  | true, None => ⟪q = Some NULL⟫
  | false, _ => ⟪q = None⟫
  end%I.

Lemma err_res_earlier p a x0 x1 x2 : quiet x0 x1 → err_res p a x1 x2 ⊢ err_res p a x0 x2.
Proof.
  iIntros (Hq) "(%got & Hg & %H)". destruct H as [Hq2 He]. iExists got. iFrame. iPureIntro.
  split; [by etrans|]. destruct He as [->|[Hm Ho]]; [by left|right]. split; [done|ext_tac].
Qed.

Lemma error_copied_earlier g q e x0 x1 x2 :
  quiet x0 x1 → error_copied g q e x1 x2 ⊢ error_copied g q e x0 x2.
Proof.
  iIntros (Hq) "H". destruct g, e as [a|]; try done. cbn [error_copied].
  iDestruct "H" as (p) "[-> H]". iExists p. iSplit; [done|]. by iApply err_res_earlier.
Qed.

Lemma wp_memcpy_chars lb cs n buffer old x Q :
  is_null buffer = false → 0 ≤ n ≤ Z.of_nat (List.length cs) →
  n ≤ Z.of_nat (List.length old) →
  lb ↦ OChars cs -∗ user_buffer buffer old -∗
  (lb ↦ OChars cs -∗ user_buffer buffer (copied (take (Z.to_nat n) cs) old) -∗ Q tt x) -∗
  wp (memcpy_chars buffer (Heap lb) n) x Q.
Proof.
  iIntros (Hn Hl Ho) "Hb [->|(%l & -> & Hu)] HQ"; [done|]. unfold memcpy_chars.
  iApply wp_bind. iApply (wp_load_as with "Hb"); [done|]. iIntros "Hb".
  rewrite (_ : (n <=? _) = true); [|lia].
  iApply (wp_write_prefix l [] old with "Hu"); [done|rewrite length_take; lia|].
  cbn [app]. iIntros "Hu". iApply ("HQ" with "Hb"). iRight. iExists l. by iFrame.
Qed.

Lemma copy_transfer_error (given : bool) pe oe x :
  {{ opt_err pe oe }}
    (if given then e ← libusbp_error_copy pe; mret (Some e) else mret None) @ x
  {{ r x', ⟪quiet x x'⟫ ∗ opt_err pe oe ∗ error_copied given r oe x x' }}.
Proof.
  iIntros "H". destruct given; cbn [error_copied]; [|wp_steps; by iFrame].
  destruct oe as [a|]; cbn [opt_err].
  - wp_step. wp_call (error_copy_own_spec pe a x). iIntros (p x1) "[H Hn]". wp_steps. iFrame "H".
    iDestruct (new_err_res x x x1 p a a with "Hn") as "Hn"; [reflexivity|by left|].
    iDestruct "Hn" as (got) "[Hg %Hq]". iSplit; [iPureIntro; apply Hq|].
    iExists p. iSplit; [done|]. iExists got. by iFrame.
  - iDestruct "H" as %->. wp_steps. unfold libusbp_error_copy. wp_steps. by iFrame.
Qed.

(** ** Buffers given to the kernel *)

(** The kernel checks the pointers it is given: nothing is written through
    NULL. *)
Definition copy_to_user (p : ptr) (data : list ascii) : M unit :=
  if is_null p then mret tt else write_chars p 0 (Some <$> data).

Definition copy_from_user (p : ptr) (n : Z) : M (list (option ascii)) :=
  if is_null p then mret [] else
  cs ← load_as as_chars p;
  if n <=? Z.of_nat (List.length cs) then mret (take (Z.to_nat n) cs) else stuck OutOfBounds.

Lemma wp_copy_to_user p data cs x Q :
  (is_null p = false → (List.length data ≤ List.length cs)%nat) →
  user_buffer p cs -∗ (user_buffer p (overwrite data cs) -∗ Q tt x) -∗
  wp (copy_to_user p data) x Q.
Proof.
  iIntros (Hlen) "[->|(%l & -> & Hl)] HQ"; unfold copy_to_user; wp_steps.
  - iApply "HQ". by iLeft.
  - iApply (wp_write_prefix l [] cs with "Hl"); [done|rewrite length_fmap; auto|].
    rewrite length_fmap. iIntros "Hl". iApply "HQ". iRight. iExists l. by iFrame.
Qed.

(** What the kernel reads of the buffer. *)
Definition sent_of (p : ptr) (n : Z) (cs : list (option ascii)) : list (option ascii) :=
  if is_null p then [] else take (Z.to_nat n) cs.

Lemma wp_copy_from_user p n cs x Q :
  (is_null p = false → n ≤ Z.of_nat (List.length cs)) →
  user_buffer p cs -∗ (user_buffer p cs -∗ Q (sent_of p n cs) x) -∗
  wp (copy_from_user p n) x Q.
Proof.
  iIntros (Hlen) "[->|(%l & -> & Hl)] HQ"; unfold copy_from_user, sent_of; wp_steps.
  - iApply "HQ". by iLeft.
  - specialize (Hlen eq_refl). apply Z.leb_le in Hlen as ->. wp_steps. iApply "HQ".
    iRight. iExists l. by iFrame.
Qed.
