(* ===== verification/Pool.v ===== *)
(** * Pool: the transfers of a handle and what the system has of them

    The backends keep asynchronous transfers in blocks of memory that the operating
    system can write to while a transfer is pending.  A pool owns the transfers
    that were created for one descriptor or port; its invariant says that what was
    submitted and not completed yet, by the history of system calls, is exactly
    what the transfers themselves call pending. *)

From S2P Require Import Prelude Memory Logic Errors Results.
#[local] Set Warnings "-rewrite-rw".

Lemma pt_exclusive l o o' : l ↦ o -∗ l ↦ o' -∗ False.
Proof.
  apply bi.entails_wand. split; intros h ->. intros h' Hd ->.
  by apply map_disjoint_singleton_l in Hd; rewrite lookup_singleton_eq in Hd.
Qed.

Section pool.
Context {T : Type} (own : loc → T → hProp).

(** The length of the buffer that the system has, for a pending transfer. *)
Context (in_system : T → option Z).

(** The transfers that belong to the pool. *)
Context (member : T → Prop).

Implicit Types (m : gmap loc T) (x : ext).

Definition agrees (key : Z) (x : ext) (m : gmap loc T) : Prop :=
  outstanding (x_trace x) key = omap in_system m.

Definition pool_own (key : Z) (x : ext) (m : gmap loc T) : hProp :=
  (⟪agrees key x m ∧ map_Forall (λ _, member) m⟫ ∗ [∗ map] l ↦ t ∈ m, own l t)%I.

Lemma agrees_calm key x x' m : calm x x' → agrees key x m → agrees key x' m.
Proof. unfold agrees. by intros [_ ->]. Qed.

Lemma pool_calm key x x' m : calm x x' → pool_own key x m ⊢ pool_own key x' m.
Proof.
  iIntros (Hc) "[%H $]". iPureIntro. destruct H as [Ha Hf]. split; [|done]. by eapply agrees_calm.
Qed.

(** Working on one transfer. *)
Lemma pool_take key x m l t :
  m !! l = Some t →
  pool_own key x m ⊢ ⌜member t⌝ ∧ own l t ∗
    (∀ x' t', ⌜member t' ∧ agrees key x' (<[l := t']> m)⌝ → own l t' -∗
       pool_own key x' (<[l := t']> m)).
Proof.
  iIntros (Hl) "[%H Hm]". destruct H as [Ha Hf].
  iDestruct (big_sepM_insert_acc _ _ _ _ Hl with "Hm") as "[Hu Hclose]".
  iSplit; [iPureIntro; by apply (Hf l)|]. iFrame "Hu".
  iIntros (x' u' [Hfd Hag]) "Hu". iSplitR; [|by iApply "Hclose"].
  iPureIntro. split; [done|]. by apply map_Forall_insert_2.
Qed.

(** A fact about every transfer. *)
Lemma pool_facts (φ : T → Prop) key x m :
  (∀ l t, own l t ⊢ ⌜φ t⌝ ∧ own l t) →
  pool_own key x m ⊢ ⌜agrees key x m ∧ map_Forall (λ _, φ) m⌝ ∧ pool_own key x m.
Proof.
  iIntros (Hown) "H". iSplit; [|done]. iDestruct "H" as "[%H Hm]". iSplit; [by destruct H|].
  unfold map_Forall. iIntros (l t Hl).
  iDestruct (big_sepM_lookup_acc _ _ _ _ Hl with "Hm") as "[Hu Hm]".
  iDestruct (Hown with "Hu") as "[%Ht Hu]". done.
Qed.

(** What the system does and what it does not notice. *)
Lemma agrees_same key x x' m l t t' :
  m !! l = Some t → in_system t' = in_system t →
  calm x x' → agrees key x m → agrees key x' (<[l := t']> m).
Proof.
  unfold agrees. intros Hl Hk [_ Hc] Ha. rewrite Hc Ha.
  destruct (in_system t') as [n|] eqn:E.
  - rewrite (omap_insert_Some _ _ _ _ n) // insert_id //. by rewrite lookup_omap Hl /= Hk.
  - rewrite omap_insert_None // delete_id //. by rewrite lookup_omap Hl /= Hk.
Qed.

Lemma agrees_submitted key x m l t len endpoint buffer n k :
  agrees key x m → in_system t = Some len →
  agrees key (Ext (EvSubmit key l endpoint len buffer true :: x_trace x) n k) (<[l := t]> m).
Proof.
  unfold agrees. intros Ha Ht. cbn [outstanding x_trace]. rewrite Z.eqb_refl Ha.
  by rewrite (omap_insert_Some _ _ _ _ len).
Qed.

Lemma agrees_completed key x m l t n k :
  agrees key x m → in_system t = None →
  agrees key (Ext (EvReap key (Some l) :: x_trace x) n k) (<[l := t]> m).
Proof.
  unfold agrees. intros Ha Ht. cbn [outstanding x_trace]. rewrite Z.eqb_refl Ha.
  by rewrite omap_insert_None.
Qed.

(** Only a pending transfer can be completed. *)
Lemma agrees_lookup key x m l len :
  agrees key x m → outstanding (x_trace x) key !! l = Some len →
  ∃ t, m !! l = Some t ∧ in_system t = Some len.
Proof. intros ->. rewrite lookup_omap. by intros (t & ? & ?)%bind_Some; exists t. Qed.

(** New transfers, and transfers that are given up. *)
Lemma pool_insert_new key x x' m l t :
  (∀ t', own l t -∗ own l t' -∗ False) → in_system t = None → member t → calm x x' →
  pool_own key x m -∗ own l t -∗ ⌜m !! l = None⌝ ∧ pool_own key x' (<[l := t]> m).
Proof.
  iIntros (Hx Hk Hfd Hc) "[%H Hm] Hu". destruct H as [Ha Hf].
  destruct (m !! l) as [t0|] eqn:Hl.
  { iDestruct (big_sepM_lookup_acc with "Hm") as "[Hu0 Hrest]"; [done|].
    iDestruct (Hx with "Hu Hu0") as "[]". }
  iSplit; [done|]. iSplitR.
  - iPureIntro. split; [|by apply map_Forall_insert_2]. unfold agrees.
    destruct Hc as [_ ->]. rewrite omap_insert_None // delete_id ?lookup_omap ?Hl //.
  - rewrite big_sepM_insert //. iFrame.
Qed.

Lemma pool_delete key x m l t :
  m !! l = Some t → in_system t = None →
  pool_own key x m ⊢ own l t ∗ pool_own key x (delete l m).
Proof.
  iIntros (Hl Hk) "[%H Hm]". destruct H as [Ha Hf].
  iDestruct (big_sepM_delete _ _ _ _ Hl with "Hm") as "[$ $]". iPureIntro.
  split; [|by apply map_Forall_delete]. unfold agrees. rewrite Ha.
  rewrite omap_delete delete_id //. rewrite lookup_omap Hl. exact Hk.
Qed.
End pool.

(** The length of what is outstanding, for the termination of the event loops. *)
Lemma outstanding_completed key l len h :
  outstanding h key !! l = Some len →
  (size (outstanding (EvReap key (Some l) :: h) key) < size (outstanding h key))%nat.
Proof.
  intros Hl. cbn [outstanding]. rewrite Z.eqb_refl map_size_delete_Some; [|by eexists].
  pose proof (map_size_ne_0_lookup_2 (outstanding h key) l ltac:(by eexists)). lia.
Qed.
