(* ===== verification/AsyncTransfer.v ===== *)
(** * AsyncTransfer: the contract of asynchronous IN transfers

    src/src/async_in_pipe.c is the same on every platform; it drives transfers
    through the functions that src/src/libusbp_internal.h declares and that
    each platform implements.  [AsyncTransfers] is that list of functions,
    [AsyncTransferLaws] what they promise: a handle has a pool of transfers, each of
    a fixed size and either pending (the operating system may still write to it) or
    finished with some bytes and perhaps an error. *)

From S2P Require Import Prelude Memory Logic Errors Results Basics Buffers.
#[local] Set Warnings "-rewrite-rw".

(** ** Transfers *)

Inductive transfer_state :=
  | Pending
  | Finished (data : list (option ascii)) (error : option aerr).

Record transfer := Transfer {
  tr_size : Z;
  tr_state : transfer_state
}.

Definition is_pending (t : transfer) : bool :=
  match tr_state t with Pending => true | Finished _ _ => false end.

(** The data never exceeds the size of the transfer. *)
Definition transfer_wf (t : transfer) : Prop :=
  0 < tr_size t ∧
  match tr_state t with
  | Pending => True
  | Finished data _ => Z.of_nat (List.length data) ≤ tr_size t
  end.

(** What can happen to a transfer while nobody submits it: a pending one
    finishes. *)
Definition settles (t t' : transfer) : Prop :=
  t' = t ∨ (is_pending t = true ∧ is_pending t' = false ∧ tr_size t' = tr_size t).

Definition settled : gmap loc transfer → gmap loc transfer → Prop := map_Forall2 (λ _, settles).

#[export] Instance settles_preorder : PreOrder settles.
Proof.
  split; [by left|]. intros t1 t2 t3 [->|(H1 & H2 & H3)] [->|(H4 & H5 & H6)]; try by left.
  - by right.
  - by right.
  - congruence.
Qed.

#[export] Instance settled_preorder : PreOrder settled.
Proof.
  split.
  - intros m l. by destruct (m !! l); constructor.
  - intros m1 m2 m3 H12 H23 l. by trans (m2 !! l).
Qed.

Lemma settled_lookup m m' l t :
  settled m m' → m !! l = Some t → ∃ t', m' !! l = Some t' ∧ settles t t'.
Proof.
  intros H Hl. specialize (H l). rewrite Hl in H. inversion H; subst. by eexists.
Qed.

Lemma settled_insert m l t t' :
  m !! l = Some t → settles t t' → settled m (<[l := t']> m).
Proof.
  intros Hl Ht i. destruct (decide (l = i)) as [<-|Hne].
  - rewrite Hl lookup_insert_eq. by constructor.
  - by rewrite lookup_insert_ne.
Qed.

(** ** The operations of a platform *)

Class AsyncTransfers := {
  tr_setup : ptr → Z → M ptr;
  tr_create : ptr → Z → Z → M (ptr * option ptr);
  tr_free : ptr → M unit;
  tr_submit : ptr → M unit;
  tr_get_results : ptr → ptr → bool → bool → M (ptr * option Z * option ptr);
  tr_cancel : ptr → M ptr;
  tr_pending : ptr → M bool;
  tr_events : ptr → M ptr;
  (* [#ifdef __linux__] in libusbp_async_in_pipe_cancel_transfers *)
  tr_cancels_each : bool
}.

(** ** Their contract *)

(** Some error, or none. *)
Definition some_error (r : ptr) : hProp := (∃ error, opt_err r error)%I.

Lemma returns_some_error s x x' r :
  returns s x x' r (λ _ : unit, emp) emp ⊢ ⌜calm x x'⌝ ∧ some_error r.
Proof.
  iIntros "[(%a & %H & _)|(%a & %H & He & _)]".
  - destruct H as [-> [Hc _]]. iSplit; [done|]. by iExists None.
  - destruct H as [Hc _]. iSplit; [done|]. by iExists (Some a).
Qed.

Class AsyncTransferLaws (T : AsyncTransfers) := {
  handle_id : Type;
  handle_res : ptr → handle_id → hProp;
  pool : handle_id → ext → gmap loc transfer → hProp;

  law_handle p k : handle_res p k ⊢ ⌜is_null p = false⌝ ∧ handle_res p k;
  law_wf k x m : pool k x m ⊢ ⌜map_Forall (λ _, transfer_wf) m⌝ ∧ pool k x m;
  law_calm k x x' m : calm x x' → pool k x m ⊢ pool k x' m;

  law_setup p k n x :
    {{ handle_res p k }} tr_setup p n @ x {{ r x',
      ⟪calm x x'⟫ ∗ handle_res p k ∗ some_error r }};
  law_create p k n size m x :
    u8 n → is_in n = true → 0 < size →
    {{ handle_res p k ∗ pool k x m }} tr_create p n size @ x {{ r x', handle_res p k ∗
      ((∃ l, ⟪r = (NULL, Some (Heap l)) ∧ m !! l = None⟫ ∗
         pool k x' (<[l := Transfer size (Finished [] None)]> m)) ∨
       (∃ a, ⟪r.2 = None⟫ ∗ err_own r.1 a ∗ pool k x' m)) }};
  law_free_null x Q : Q tt x ⊢ wp (tr_free NULL) x Q;
  law_free k l t m x :
    m !! l = Some t →
    {{ pool k x m }} tr_free (Heap l) @ x {{ r x',
      ∃ m', ⟪m' = delete l m ∨ (is_pending t = true ∧ m' = m)⟫ ∗ pool k x' m' }};
  law_submit p k l t m x :
    m !! l = Some t → is_pending t = false →
    {{ handle_res p k ∗ pool k x m }} tr_submit (Heap l) @ x {{ r x', handle_res p k ∗
      ∃ t', ⟪tr_size t' = tr_size t⟫ ∗ pool k x' (<[l := t']> m) }};
  law_pending p k l t m x :
    m !! l = Some t →
    {{ handle_res p k ∗ pool k x m }} tr_pending (Heap l) @ x {{ r x', handle_res p k ∗
      ∃ t', ⟪settles t t' ∧ r = is_pending t'⟫ ∗ pool k x' (<[l := t']> m) }};
  law_results k l size data error m buffer old g1 g2 x :
    m !! l = Some (Transfer size (Finished data error)) →
    (is_null buffer = false → (List.length data ≤ List.length old)%nat) →
    {{ pool k x m ∗ user_buffer buffer old }} tr_get_results (Heap l) buffer g1 g2 @ x {{ r x',
      ⟪r.1 = (NULL, out g1 (Z.of_nat (List.length data))) ∧ quiet x x'⟫ ∗ pool k x' m ∗
      user_buffer buffer (if is_null buffer then old else copied data old) ∗
      error_copied g2 r.2 error x x' }};
  law_cancel p k l t m x :
    m !! l = Some t →
    {{ handle_res p k ∗ pool k x m }} tr_cancel (Heap l) @ x {{ r x',
      handle_res p k ∗ pool k x' m ∗ some_error r }};
  law_events p k m x :
    {{ handle_res p k ∗ pool k x m }} tr_events p @ x {{ r x',
      ∃ m', ⟪settled m m'⟫ ∗ handle_res p k ∗ pool k x' m' ∗ some_error r }}
}.
