(* ===== verification/AsyncPipe.v ===== *)
(** * AsyncPipe: asynchronous IN pipes (src/src/async_in_pipe.c)

    A pipe owns an array of transfers and uses it as a ring: [next_submit] is the
    transfer that is submitted next, [next_finish] the one that the application
    gets next, and the [pending_count] transfers from [next_finish] on are in
    flight.  Everything here is proved for any implementation of the transfers
    that keeps the contract of AsyncTransfer.v. *)

From S2P Require Import Prelude Memory Logic Errors Results Basics Buffers AsyncTransfer.
#[local] Set Warnings "-rewrite-rw".

(** ** Code *)

Section code.
Context `{TR : AsyncTransfers}.

Definition increment_and_wrap_size (n bound : Z) : Z :=
  let n := to_size (n + 1) in
  if bound <=? n then 0 else n.

Fixpoint async_in_transfer_array_free_loop (fuel : nat) (array : ptr) (i : Z) : M unit :=
  match fuel with
  | O => mret tt
  | S fuel =>
      transfer ← load_elem as_ptrs array i;
      tr_free transfer;;
      async_in_transfer_array_free_loop fuel array (i + 1)
  end.

Definition async_in_transfer_array_free (array : ptr) (transfer_count : Z) : M unit :=
  if is_null array then mret tt else
  async_in_transfer_array_free_loop (Z.to_nat transfer_count) array 0;;
  free array.

Definition libusbp_async_in_pipe_close (pipe : ptr) : M unit :=
  if is_null pipe then mret tt else
  p ← load_as as_pipe pipe;
  async_in_transfer_array_free (pipe_transfer_array p) (pipe_transfer_count p);;
  free pipe.

(** A struct from [calloc]. *)
Definition zeroed_pipe : obj :=
  OPipe {| pipe_handle := NULL; pipe_pipe_id := 0; pipe_transfer_array := NULL;
           pipe_transfer_size := 0; pipe_transfer_count := 0;
           pipe_endless_transfers_enabled := false; pipe_pending_count := 0;
           pipe_next_finish := 0; pipe_next_submit := 0 |}.

Definition async_in_pipe_create (handle : ptr) (pipe_id : Z) (pipe_given : bool) :
    M (ptr * option ptr) :=
  if negb pipe_given then
    error ← error_create "Pipe output pointer is null.";
    mret (error, None)
  else if is_null handle then
    error ← error_create "Generic handle is null.";
    mret (error, Some NULL)
  else
  (* Check the pipe_id parameter. *)
  error ← check_pipe_id pipe_id;
  error ← (if is_null error && (Z.land pipe_id 0x80 =? 0) then
             error_create "Asynchronous pipes for OUT endpoints are not supported."
           else mret error);
  (* Perform OS-specific setup. *)
  error ← then_check error (tr_setup handle pipe_id);
  '(error, new_pipe) ← if_ok error NULL
    (new_pipe ← calloc 1 sizeof_libusbp_async_in_pipe zeroed_pipe;
     mret (if is_null new_pipe then Static error_no_memory else NULL, new_pipe));
  '(pipe, new_pipe) ←
    (if is_null error then
       p ← load_as as_pipe new_pipe;
       store new_pipe
         (OPipe {| pipe_handle := handle; pipe_pipe_id := pipe_id;
                   pipe_transfer_array := pipe_transfer_array p;
                   pipe_transfer_size := pipe_transfer_size p;
                   pipe_transfer_count := pipe_transfer_count p;
                   pipe_endless_transfers_enabled := pipe_endless_transfers_enabled p;
                   pipe_pending_count := pipe_pending_count p;
                   pipe_next_finish := pipe_next_finish p;
                   pipe_next_submit := pipe_next_submit p |});;
       mret (new_pipe, NULL)
     else mret (NULL, new_pipe));
  free new_pipe;;
  mret (error, Some pipe).

(** [for (i = 0; error == NULL && i < transfer_count; i++)] *)
Fixpoint create_transfers_loop (fuel : nat) (pipe new_transfer_array : ptr) (i transfer_size : Z) :
    M ptr :=
  match fuel with
  | O => mret NULL
  | S fuel =>
      p ← load_as as_pipe pipe;
      '(error, transfer) ← tr_create (pipe_handle p) (pipe_pipe_id p) transfer_size;
      match transfer with
      | Some t => store_elem as_ptrs OPtrs new_transfer_array i t
      | None => mret tt
      end;;
      if is_null error
      then create_transfers_loop fuel pipe new_transfer_array (i + 1) transfer_size
      else mret error
  end.

Definition libusbp_async_in_pipe_allocate_transfers (pipe : ptr)
    (transfer_count transfer_size : Z) : M ptr :=
  if is_null pipe then error_create "Pipe argument is null." else
  p ← load_as as_pipe pipe;
  if negb (is_null (pipe_transfer_array p)) then
    error_create "Transfers were already allocated for this pipe."
  else if transfer_count =? 0 then error_create "Transfer count cannot be zero."
  else if transfer_size =? 0 then error_create "Transfer size cannot be zero."
  else
  new_transfer_array ← calloc transfer_count sizeof_ptr
                         (OPtrs (replicate (Z.to_nat transfer_count) (Some NULL)));
  let error := if is_null new_transfer_array then Static error_no_memory else NULL in
  error ← then_check error
    (create_transfers_loop (Z.to_nat transfer_count) pipe new_transfer_array 0 transfer_size);
  (* Put the new array and the information about it into the pipe. *)
  new_transfer_array ←
    (if is_null error then
       p ← load_as as_pipe pipe;
       store pipe
         (OPipe {| pipe_handle := pipe_handle p; pipe_pipe_id := pipe_pipe_id p;
                   pipe_transfer_array := new_transfer_array;
                   pipe_transfer_size := transfer_size;
                   pipe_transfer_count := transfer_count;
                   pipe_endless_transfers_enabled := pipe_endless_transfers_enabled p;
                   pipe_pending_count := pipe_pending_count p;
                   pipe_next_finish := pipe_next_finish p;
                   pipe_next_submit := pipe_next_submit p |});;
       mret NULL
     else mret new_transfer_array);
  async_in_transfer_array_free new_transfer_array transfer_count;;
  if negb (is_null error) then
    error_add error "Failed to allocate transfers for asynchronous IN pipe."
  else mret error.

(** Storing the field [endless_transfers_enabled], or the counters. *)
Definition set_endless (pipe : ptr) (enabled : bool) : M unit :=
  p ← load_as as_pipe pipe;
  store pipe (OPipe {| pipe_handle := pipe_handle p; pipe_pipe_id := pipe_pipe_id p;
                       pipe_transfer_array := pipe_transfer_array p;
                       pipe_transfer_size := pipe_transfer_size p;
                       pipe_transfer_count := pipe_transfer_count p;
                       pipe_endless_transfers_enabled := enabled;
                       pipe_pending_count := pipe_pending_count p;
                       pipe_next_finish := pipe_next_finish p;
                       pipe_next_submit := pipe_next_submit p |}).

Definition set_counters (pipe : ptr) (pending_count next_finish next_submit : Z) : M unit :=
  p ← load_as as_pipe pipe;
  store pipe (OPipe {| pipe_handle := pipe_handle p; pipe_pipe_id := pipe_pipe_id p;
                       pipe_transfer_array := pipe_transfer_array p;
                       pipe_transfer_size := pipe_transfer_size p;
                       pipe_transfer_count := pipe_transfer_count p;
                       pipe_endless_transfers_enabled := pipe_endless_transfers_enabled p;
                       pipe_pending_count := pending_count;
                       pipe_next_finish := next_finish;
                       pipe_next_submit := next_submit |}).

Definition async_in_pipe_submit_next_transfer (pipe : ptr) : M unit :=
  c_assert (negb (is_null pipe));;
  p ← load_as as_pipe pipe;
  c_assert (pipe_pending_count p <? pipe_transfer_count p);;
  (* Submit the next transfer. *)
  transfer ← load_elem as_ptrs (pipe_transfer_array p) (pipe_next_submit p);
  tr_submit transfer;;
  (* Update the counts and indices. *)
  p ← load_as as_pipe pipe;
  set_counters pipe (to_size (pipe_pending_count p + 1)) (pipe_next_finish p)
    (increment_and_wrap_size (pipe_next_submit p) (pipe_transfer_count p)).

(** [while (pipe->pending_count < pipe->transfer_count)] *)
Fixpoint submit_all_loop (fuel : nat) (pipe : ptr) : M unit :=
  p ← load_as as_pipe pipe;
  if pipe_pending_count p <? pipe_transfer_count p then
    match fuel with
    | O => stuck OutOfFuel
    | S fuel => async_in_pipe_submit_next_transfer pipe;; submit_all_loop fuel pipe
    end
  else mret tt.

Definition libusbp_async_in_pipe_start_endless_transfers (pipe : ptr) : M ptr :=
  if is_null pipe then error_create "Pipe argument is null." else
  p ← load_as as_pipe pipe;
  if is_null (pipe_transfer_array p) then
    error_create "Pipe transfers have not been allocated yet."
  else
  set_endless pipe true;;
  submit_all_loop (Z.to_nat (pipe_transfer_count p - pipe_pending_count p)) pipe;;
  mret NULL.

Definition libusbp_async_in_pipe_handle_events (pipe : ptr) : M ptr :=
  if is_null pipe then error_create "Pipe argument is null." else
  p ← load_as as_pipe pipe;
  tr_events (pipe_handle p).

(** The error and what is stored in [*result]. *)
Definition libusbp_async_in_pipe_has_pending_transfers (pipe : ptr) (result_given : bool) :
    M (ptr * option bool) :=
  if negb result_given then
    error ← error_create "Boolean output pointer is null.";
    mret (error, None)
  else if is_null pipe then
    error ← error_create "Pipe argument is null.";
    mret (error, Some false)
  else
    p ← load_as as_pipe pipe;
    mret (NULL, Some (negb (pipe_pending_count p =? 0))).

(** The error and what is stored in [*finished], [*transferred] and
    [*transfer_error]. *)
Definition finish_results : Type := ptr * option bool * option Z * option ptr.

Definition given {A} (b : bool) (a : A) : option A := if b then Some a else None.

Definition libusbp_async_in_pipe_handle_finished_transfer (pipe : ptr) (finished_given : bool)
    (buffer : ptr) (transferred_given transfer_error_given : bool) : M finish_results :=
  let nothing error : finish_results :=
    (error, given finished_given false, out transferred_given 0, given transfer_error_given NULL) in
  if is_null pipe then
    error ← error_create "Pipe argument is null.";
    mret (nothing error)
  else
  p ← load_as as_pipe pipe;
  if pipe_pending_count p =? 0 then mret (nothing NULL) else
  transfer ← load_elem as_ptrs (pipe_transfer_array p) (pipe_next_finish p);
  pending ← tr_pending transfer;
  if pending : bool then mret (nothing NULL) else
  '(error, transferred, transfer_error) ←
    tr_get_results transfer buffer transferred_given transfer_error_given;
  p ← load_as as_pipe pipe;
  when (is_null error)
    (set_counters pipe (to_size (pipe_pending_count p - 1))
       (increment_and_wrap_size (pipe_next_finish p) (pipe_transfer_count p))
       (pipe_next_submit p));;
  p ← load_as as_pipe pipe;
  when (is_null error && pipe_endless_transfers_enabled p)
    (async_in_pipe_submit_next_transfer pipe);;
  mret (error, given finished_given (is_null error), transferred, transfer_error).

(** [for (i = 0; error == NULL && i < pipe->transfer_count; i++)] *)
Fixpoint cancel_loop (fuel : nat) (pipe : ptr) (i : Z) : M ptr :=
  match fuel with
  | O => mret NULL
  | S fuel =>
      p ← load_as as_pipe pipe;
      transfer ← load_elem as_ptrs (pipe_transfer_array p) i;
      error ← tr_cancel transfer;
      if is_null error then cancel_loop fuel pipe (i + 1) else mret error
  end.

Definition libusbp_async_in_pipe_cancel_transfers (pipe : ptr) : M ptr :=
  if is_null pipe then error_create "Pipe argument is null." else
  set_endless pipe false;;
  p ← load_as as_pipe pipe;
  if tr_cancels_each then cancel_loop (Z.to_nat (pipe_transfer_count p)) pipe 0
  else
    transfer ← load_elem as_ptrs (pipe_transfer_array p) 0;
    tr_cancel transfer.
End code.

(** ** The ring

    The slots of the transfers, the first one in flight and how many are. *)

Record ring := Ring {
  r_slots : list loc;
  r_size : Z;
  r_first : nat;
  r_queued : nat
}.

Definition r_count (r : ring) : nat := List.length (r_slots r).

(** The index of the [j]-th transfer in flight, and of the next to submit. *)
Definition slot (r : ring) (j : nat) : nat := (r_first r + j) mod r_count r.
Definition next_slot (r : ring) : nat := slot r (r_queued r).
Definition queue (r : ring) : list nat := slot r <$> seq 0 (r_queued r).

Definition push (r : ring) : ring := Ring (r_slots r) (r_size r) (r_first r) (S (r_queued r)).
Definition pop (r : ring) : ring := Ring (r_slots r) (r_size r) (slot r 1) (r_queued r - 1).

#[global] Arguments slot : simpl never.
#[global] Arguments next_slot : simpl never.
#[global] Arguments queue : simpl never.

Definition ring_wf (r : ring) : Prop :=
  (0 < r_count r)%nat ∧ sizeof_ptr * Z.of_nat (r_count r) ≤ PTRDIFF_MAX ∧ 0 < r_size r ∧
  (r_first r < r_count r)%nat ∧ (r_queued r ≤ r_count r)%nat ∧ NoDup (r_slots r).

Section ring.
Implicit Types r : ring.

Lemma slot_lt r j : ring_wf r → (slot r j < r_count r)%nat.
Proof. intros (? & _). apply Nat.mod_upper_bound. lia. Qed.

Lemma slot_0 r : ring_wf r → slot r 0 = r_first r.
Proof. intros (_ & _ & _ & ? & _). unfold slot. rewrite Nat.add_0_r. by apply Nat.mod_small. Qed.

Lemma slot_pop r j : slot (pop r) j = slot r (S j).
Proof.
  unfold slot. cbn [pop r_first]. change (r_count (pop r)) with (r_count r). unfold slot.
  rewrite Nat.Div0.add_mod_idemp_l. f_equal. lia.
Qed.

Lemma slot_inj r i j :
  ring_wf r → (i < r_count r)%nat → (j < r_count r)%nat → slot r i = slot r j → i = j.
Proof.
  intros (? & _ & _ & ? & _) Hi Hj. unfold slot.
  assert (Hmod : ∀ k, (k < r_count r)%nat →
    ((r_first r + k) mod r_count r)%nat =
    if decide (r_first r + k < r_count r)%nat then (r_first r + k)%nat
    else (r_first r + k - r_count r)%nat).
  { intros k Hk. destruct (decide _); [by apply Nat.mod_small|].
    rewrite -{1}(Nat.sub_add (r_count r) (r_first r + k)); [|lia].
    rewrite -{2}(Nat.mul_1_l (r_count r)) Nat.Div0.mod_add. apply Nat.mod_small. lia. }
  rewrite !Hmod //. repeat destruct (decide _); lia.
Qed.

Lemma queue_push r : queue (push r) = queue r ++ [next_slot r].
Proof. unfold queue. cbn [push r_queued]. rewrite seq_S fmap_app. done. Qed.

Lemma queue_pop r : ring_wf r → (0 < r_queued r)%nat → queue r = r_first r :: queue (pop r).
Proof.
  intros Hr Hq. unfold queue. cbn [pop r_queued].
  destruct (r_queued r) as [|n]; [lia|]. cbn [seq]. rewrite fmap_cons slot_0 //. f_equal.
  rewrite -fmap_S_seq -list_fmap_compose. cbn. rewrite Nat.sub_0_r.
  apply list_fmap_ext. intros i j _. cbn. by rewrite -slot_pop.
Qed.

Lemma next_slot_pop r : (0 < r_queued r)%nat → next_slot (pop r) = next_slot r.
Proof.
  intros Hq. unfold next_slot. rewrite slot_pop. cbn [pop r_queued]. f_equal. lia.
Qed.

Lemma elem_of_queue r i : i ∈ queue r ↔ ∃ j, (j < r_queued r)%nat ∧ i = slot r j.
Proof.
  unfold queue. rewrite list_elem_of_fmap. split; intros (j & H1 & H2).
  - apply elem_of_seq in H2. exists j. split; [lia|done].
  - exists j. split; [done|]. apply elem_of_seq. lia.
Qed.

Lemma next_slot_not_queued r :
  ring_wf r → (r_queued r < r_count r)%nat → next_slot r ∉ queue r.
Proof.
  intros Hr Hq (j & Hj & E)%elem_of_queue. apply slot_inj in E; [lia|done|done|].
  destruct Hr as (_ & _ & _ & _ & ? & _). lia.
Qed.

Lemma first_not_queued_after_pop r :
  ring_wf r → (0 < r_queued r)%nat → r_first r ∉ queue (pop r).
Proof.
  intros Hr Hq (j & Hj & E)%elem_of_queue. cbn [pop r_queued] in Hj.
  rewrite slot_pop -(slot_0 r Hr) in E.
  pose proof Hr as (_ & _ & _ & _ & ? & _). apply slot_inj in E; [lia|done|lia|lia].
Qed.

Lemma push_wf r : ring_wf r → (r_queued r < r_count r)%nat → ring_wf (push r).
Proof. intros (? & ? & ? & ? & ? & ?) Hq. split_and!; try done. Qed.

Lemma pop_wf r : ring_wf r → ring_wf (pop r).
Proof.
  intros Hr. pose proof (slot_lt r 1 Hr). destruct Hr as (? & ? & ? & ? & ? & ?).
  split_and!; try done. change (r_count (pop r)) with (r_count r). cbn [pop r_queued]. lia.
Qed.

(** The machine's arithmetic on the indices. *)
Lemma increment_and_wrap r i :
  ring_wf r → (i < r_count r)%nat →
  increment_and_wrap_size (Z.of_nat i) (Z.of_nat (r_count r)) = Z.of_nat ((i + 1) mod r_count r).
Proof.
  intros (? & Hc & _) Hi. unfold increment_and_wrap_size, sizeof_ptr, PTRDIFF_MAX in *.
  rewrite to_size_id; [|unfold SIZE_MAX; lia].
  destruct (Z.leb_spec (Z.of_nat (r_count r)) (Z.of_nat i + 1)).
  - rewrite (_ : (i + 1)%nat = r_count r); [|lia]. by rewrite Nat.Div0.mod_same.
  - rewrite Nat.mod_small; lia.
Qed.

Lemma increment_first r :
  ring_wf r →
  increment_and_wrap_size (Z.of_nat (r_first r)) (Z.of_nat (r_count r)) = Z.of_nat (r_first (pop r)).
Proof. intros Hr. pose proof Hr as (_ & _ & _ & ? & _). by apply increment_and_wrap. Qed.

Lemma increment_next r :
  ring_wf r →
  increment_and_wrap_size (Z.of_nat (next_slot r)) (Z.of_nat (r_count r)) =
  Z.of_nat (next_slot (push r)).
Proof.
  intros Hr. rewrite increment_and_wrap //; [|by apply slot_lt]. unfold next_slot, slot.
  cbn [push r_queued r_first]. change (r_count (push r)) with (r_count r).
  rewrite Nat.Div0.add_mod_idemp_l. do 2 f_equal. lia.
Qed.
End ring.

(** ** The abstract pipe: a queue of transfers

    A state has the ring and the pool of the handle.  A step submits the next slot,
    hands the first one in flight to the application, lets pending transfers finish,
    or switches the endless mode. *)

Record state := State {
  s_endless : bool;
  s_ring : ring;
  s_transfers : gmap loc transfer
}.

Inductive label :=
  | Submits (i : nat)
  | Finishes (i : nat) (data : list (option ascii)) (error : option aerr).

Definition submitted_slots (ls : list label) : list nat :=
  omap (λ lb, match lb with Submits i => Some i | _ => None end) ls.
Definition finished_slots (ls : list label) : list nat :=
  omap (λ lb, match lb with Finishes i _ _ => Some i | _ => None end) ls.
(** The data the application got, in order. *)
Definition delivered (ls : list label) : list (list (option ascii)) :=
  omap (λ lb, match lb with Finishes _ d _ => Some d | _ => None end) ls.

Inductive step : state → list label → state → Prop :=
  | step_submit b r m l t t' :
      (r_queued r < r_count r)%nat → r_slots r !! next_slot r = Some l →
      m !! l = Some t → is_pending t = false → tr_size t' = tr_size t →
      step (State b r m) [Submits (next_slot r)] (State b (push r) (<[l := t']> m))
  | step_finish b r m l size data error :
      (0 < r_queued r)%nat → r_slots r !! r_first r = Some l →
      m !! l = Some (Transfer size (Finished data error)) →
      step (State b r m) [Finishes (r_first r) data error] (State b (pop r) m)
  | step_settle b r m m' : settled m m' → step (State b r m) [] (State b r m')
  | step_endless b b' r m : step (State b r m) [] (State b' r m).

Inductive steps : state → list label → state → Prop :=
  | steps_refl s : steps s [] s
  | steps_step s1 ls1 s2 ls2 s3 :
      step s1 ls1 s2 → steps s2 ls2 s3 → steps s1 (ls1 ++ ls2) s3.

Lemma steps_trans s1 ls1 s2 ls2 s3 :
  steps s1 ls1 s2 → steps s2 ls2 s3 → steps s1 (ls1 ++ ls2) s3.
Proof.
  induction 1 as [|s1 la s2 lb s3' Hs _ IH]; [done|]. intros H. rewrite -app_assoc.
  by eapply steps_step; [|apply IH].
Qed.

Lemma steps_one s ls s' : step s ls s' → steps s ls s'.
Proof. intros H. rewrite -(app_nil_r ls). by eapply steps_step; [|constructor]. Qed.

(** Every slot holds a transfer of the right size, and only those in flight can be
    pending. *)
Definition slots_ok (r : ring) (m : gmap loc transfer) : Prop :=
  ∀ i l, r_slots r !! i = Some l →
    ∃ t, m !! l = Some t ∧ tr_size t = r_size r ∧ (i ∉ queue r → is_pending t = false).

Definition state_ok (s : state) : Prop :=
  ring_wf (s_ring s) ∧ slots_ok (s_ring s) (s_transfers s).

Lemma settles_size t t' : settles t t' → tr_size t' = tr_size t.
Proof. by intros [->|(_ & _ & ?)]. Qed.

Lemma settles_idle t t' : settles t t' → is_pending t = false → t' = t.
Proof. intros [->|(H & _)] ?; [done|congruence]. Qed.

Lemma slots_settled r m m' : settled m m' → slots_ok r m → slots_ok r m'.
Proof.
  intros Hs Hok i l Hi. destruct (Hok i l Hi) as (t & Ht & Hsz & Hp).
  destruct (settled_lookup _ _ _ _ Hs Ht) as (t' & Ht' & Hst). exists t'. split_and!; [done| |].
  - by rewrite (settles_size _ _ Hst).
  - intros Hq. specialize (Hp Hq). by rewrite (settles_idle _ _ Hst Hp).
Qed.

Lemma step_ok s ls s' : step s ls s' → state_ok s → state_ok s'.
Proof.
  intros Hs [Hr Hok]. destruct Hs as [b r m l t t' Hq Hl Ht Hp Hsz|b r m l sz d e Hq Hl Ht|b r m m' Hm|b b' r m];
    cbn [s_ring s_transfers] in *.
  - split; [by apply push_wf|]. intros i l' Hi. cbn [s_ring s_transfers push r_slots r_size] in *.
    destruct (decide (l = l')) as [<-|Hne].
    + assert (i = next_slot r) as ->.
      { destruct Hr as (_ & _ & _ & _ & _ & Hnd). by eapply NoDup_lookup. }
      exists t'. rewrite lookup_insert_eq. split_and!; [done| |].
      * destruct (Hok _ _ Hi) as (t2 & Ht2 & Hsz2 & _). congruence.
      * intros Hn. rewrite queue_push elem_of_app in Hn. destruct Hn. right. by left.
    + destruct (Hok i l' Hi) as (t2 & Ht2 & Hsz2 & Hp2). exists t2. rewrite lookup_insert_ne //.
      split_and!; [done|done|]. intros Hn. apply Hp2. rewrite queue_push elem_of_app in Hn. tauto.
  - split; [by apply pop_wf|]. intros i l' Hi. cbn [s_ring s_transfers pop r_slots r_size] in *.
    destruct (Hok i l' Hi) as (t2 & Ht2 & Hsz2 & Hp2). exists t2. split_and!; [done|done|].
    intros Hn. destruct (decide (i = r_first r)) as [->|Hne].
    + rewrite Hl in Hi. injection Hi as <-. rewrite Ht in Ht2. by injection Ht2 as <-.
    + apply Hp2. rewrite queue_pop // elem_of_cons. by intros [?|?].
  - split; [done|]. by eapply slots_settled.
  - done.
Qed.

Lemma steps_ok s ls s' : steps s ls s' → state_ok s → state_ok s'.
Proof. induction 1; [done|]. intros. eauto using step_ok. Qed.

(** What was in flight and what is submitted comes out in the same order. *)
Lemma step_fifo s ls s' :
  step s ls s' → state_ok s →
  queue (s_ring s) ++ submitted_slots ls = finished_slots ls ++ queue (s_ring s').
Proof.
  intros Hs [Hr _]. destruct Hs; cbn [s_ring submitted_slots finished_slots omap list_omap] in *.
  - cbn. by rewrite queue_push.
  - cbn. by rewrite app_nil_r queue_pop.
  - cbn. by rewrite app_nil_r.
  - cbn. by rewrite app_nil_r.
Qed.

Lemma steps_fifo s ls s' :
  steps s ls s' → state_ok s →
  queue (s_ring s) ++ submitted_slots ls = finished_slots ls ++ queue (s_ring s').
Proof.
  induction 1 as [s|s1 ls1 s2 ls2 s3 H1 _ IH]; intros Hok; [by rewrite app_nil_r|].
  unfold submitted_slots, finished_slots in *. rewrite !omap_app.
  rewrite app_assoc (step_fifo _ _ _ H1 Hok) -!app_assoc. f_equal.
  apply IH. by eapply step_ok.
Qed.

(** ** Pipes in memory *)

(** The struct of a pipe whose transfers were allocated, and of one without. *)
Definition pipe_struct (hp : ptr) (n : Z) (arr : ptr) (b : bool) (r : ring) : libusbp_async_in_pipe :=
  {| pipe_handle := hp; pipe_pipe_id := n; pipe_transfer_array := arr;
     pipe_transfer_size := r_size r; pipe_transfer_count := Z.of_nat (r_count r);
     pipe_endless_transfers_enabled := b; pipe_pending_count := Z.of_nat (r_queued r);
     pipe_next_finish := Z.of_nat (r_first r); pipe_next_submit := Z.of_nat (next_slot r) |}.

Definition fresh_struct (hp : ptr) (n : Z) : libusbp_async_in_pipe :=
  {| pipe_handle := hp; pipe_pipe_id := n; pipe_transfer_array := NULL;
     pipe_transfer_size := 0; pipe_transfer_count := 0;
     pipe_endless_transfers_enabled := false; pipe_pending_count := 0;
     pipe_next_finish := 0; pipe_next_submit := 0 |}.

Definition slot_array (la : loc) (slots : list loc) : hProp :=
  (la ↦ OPtrs ((λ l, Some (Heap l)) <$> slots))%I.

Definition pipe_own (p hp : ptr) (n : Z) (b : bool) (r : ring) : hProp :=
  (∃ lp la, ⟪p = Heap lp⟫ ∗ lp ↦ OPipe (pipe_struct hp n (Heap la) b r) ∗
     slot_array la (r_slots r))%I.

Definition fresh_pipe_own (p hp : ptr) (n : Z) : hProp :=
  (∃ lp, ⟪p = Heap lp ∧ u8 n ∧ is_in n = true⟫ ∗ lp ↦ OPipe (fresh_struct hp n))%I.

Lemma pipe_own_not_null p hp n b r : pipe_own p hp n b r ⊢ ⌜is_null p = false⌝ ∧ pipe_own p hp n b r.
Proof. iIntros "H". iSplit; [|done]. by iDestruct "H" as (lp la) "[-> _]". Qed.

(** Reading the struct of a pipe. *)
Lemma pipe_own_load p hp n b r x Q :
  pipe_own p hp n b r -∗
  (∀ la, slot_array la (r_slots r) -∗ (slot_array la (r_slots r) -∗ pipe_own p hp n b r) -∗
     Q (pipe_struct hp n (Heap la) b r) x) -∗
  wp (load_as as_pipe p) x Q.
Proof.
  iIntros "(%lp & %la & -> & Hp & Ha) HQ". iApply (wp_load_as with "Hp"); [done|].
  iIntros "Hp". iApply ("HQ" with "Ha"). iIntros "Ha". iExists lp, la. by iFrame.
Qed.

Lemma wp_load_slot la slots i l x Q :
  slots !! i = Some l →
  slot_array la slots -∗ (slot_array la slots -∗ Q (Heap l) x) -∗
  wp (load_elem as_ptrs (Heap la) (Z.of_nat i)) x Q.
Proof.
  iIntros (Hi) "Ha HQ". iApply (wp_load_elem with "Ha HQ"); [done|lia|].
  by rewrite Nat2Z.id list_lookup_fmap Hi.
Qed.

Lemma wp_set_counters p hp n b r r' x Q :
  r_slots r' = r_slots r → r_size r' = r_size r →
  pipe_own p hp n b r -∗ (pipe_own p hp n b r' -∗ Q tt x) -∗
  wp (set_counters p (Z.of_nat (r_queued r')) (Z.of_nat (r_first r')) (Z.of_nat (next_slot r'))) x Q.
Proof.
  iIntros (Hs Hsz) "(%lp & %la & -> & Hp & Ha) HQ". unfold set_counters, pipe_struct. wp_steps.
  iApply "HQ". iExists lp, la. rewrite -Hs -Hsz. iFrame "Ha". iSplit; [done|].
  rewrite (_ : r_count r = r_count r'); [|by unfold r_count; rewrite Hs]. done.
Qed.

Lemma wp_set_endless p hp n b b' r x Q :
  pipe_own p hp n b r -∗ (pipe_own p hp n b' r -∗ Q tt x) -∗ wp (set_endless p b') x Q.
Proof.
  iIntros "(%lp & %la & -> & Hp & Ha) HQ". unfold set_endless, pipe_struct. wp_steps.
  iApply "HQ". iExists lp, la. by iFrame.
Qed.

Section specs.
Context `{TR : AsyncTransfers} {LAWS : AsyncTransferLaws TR}.

(** A pipe in use: its handle, the pool of its handle, and itself. *)
Definition pipe_at (p hp : ptr) (k : handle_id) (n : Z) (x : ext) (s : state) : hProp :=
  (⟪state_ok s⟫ ∗ handle_res hp k ∗ pool k x (s_transfers s) ∗
   pipe_own p hp n (s_endless s) (s_ring s))%I.

Lemma pipe_at_ok p hp k n x s : pipe_at p hp k n x s ⊢ ⌜state_ok s⌝ ∧ pipe_at p hp k n x s.
Proof. iIntros "H". iSplit; [|done]. by iDestruct "H" as "[% _]". Qed.

(** [async_in_pipe_submit_next_transfer]: one submission. *)
Lemma async_in_pipe_submit_next_transfer_spec p hp k n x s :
  (r_queued (s_ring s) < r_count (s_ring s))%nat →
  {{ pipe_at p hp k n x s }} async_in_pipe_submit_next_transfer p @ x {{ r x',
    ∃ s', ⟪step s [Submits (next_slot (s_ring s))] s' ∧ s_ring s' = push (s_ring s) ∧
           s_endless s' = s_endless s⟫ ∗ pipe_at p hp k n x' s' }}.
Proof.
  iIntros (Hq) "(%Hok & Hh & Hm & Hp)". destruct s as [b r m]. cbn [s_ring s_endless s_transfers] in *.
  destruct Hok as [Hr Hslots]. cbn [s_ring s_transfers] in *.
  iDestruct (pipe_own_not_null with "Hp") as "[%Hn Hp]".
  unfold async_in_pipe_submit_next_transfer. wp_steps.
  iApply (pipe_own_load with "Hp"). iIntros (la) "Ha Hclose".
  cbn [pipe_struct pipe_pending_count pipe_transfer_count pipe_transfer_array pipe_next_submit].
  rewrite (_ : (_ <? _) = true); [|apply Z.ltb_lt; lia]. wp_steps.
  destruct (lookup_lt_is_Some_2 (r_slots r) (next_slot r)) as [l Hl].
  { by apply slot_lt. }
  destruct (Hslots _ _ Hl) as (t & Ht & Hsz & Hidle).
  specialize (Hidle (next_slot_not_queued _ Hr Hq)).
  iApply (wp_load_slot with "Ha"); [done|]. iIntros "Ha". iDestruct ("Hclose" with "Ha") as "Hp".
  wp_step. wp_call (law_submit hp k l t m x Ht Hidle).
  iIntros ([] x1) "(Hh & %t' & %Hsz' & Hm)". wp_step.
  iApply (pipe_own_load with "Hp"). iIntros (la2) "Ha Hclose". iDestruct ("Hclose" with "Ha") as "Hp".
  cbn [pipe_struct pipe_pending_count pipe_transfer_count pipe_next_finish pipe_next_submit].
  rewrite increment_next // (_ : to_size (Z.of_nat (r_queued r) + 1) = Z.of_nat (r_queued (push r))).
  2: { destruct Hr as (_ & Hc & _). rewrite to_size_id; [cbn; lia|].
       unfold sizeof_ptr, PTRDIFF_MAX, SIZE_MAX in *. lia. }
  iApply (wp_set_counters _ _ _ _ r (push r) with "Hp"); [done|done|]. iIntros "Hp".
  iExists (State b (push r) (<[l := t']> m)).
  assert (Hstep : step (State b r m) [Submits (next_slot r)] (State b (push r) (<[l:=t']> m))).
  { by eapply step_submit. }
  iSplit; [done|]. iFrame. iPureIntro. by eapply step_ok.
Qed.

(** The loop of [libusbp_async_in_pipe_start_endless_transfers]: it submits until every
    transfer is in flight. *)
Lemma submit_all_loop_spec fuel p hp k n x s :
  (r_count (s_ring s) - r_queued (s_ring s) ≤ fuel)%nat →
  {{ pipe_at p hp k n x s }} submit_all_loop fuel p @ x {{ r x',
    ∃ ls s', ⟪steps s ls s' ∧ finished_slots ls = [] ∧
        r_queued (s_ring s') = r_count (s_ring s') ∧ s_endless s' = s_endless s⟫ ∗
      pipe_at p hp k n x' s' }}.
Proof.
  revert s x. induction fuel as [|fuel IH]; intros s x Hf; iIntros "H";
    iDestruct (pipe_at_ok with "H") as "[%Hok H]"; iDestruct "H" as "(_ & Hh & Hm & Hp)";
    cbn [submit_all_loop]; wp_step; iApply (pipe_own_load with "Hp");
    iIntros (la) "Ha Hclose"; iDestruct ("Hclose" with "Ha") as "Hp";
    cbn [pipe_struct pipe_pending_count pipe_transfer_count];
    pose proof Hok as [(_ & _ & _ & _ & Hle & _) _];
    iAssert (pipe_at p hp k n x s) with "[$Hh $Hm $Hp //]" as "H";
    destruct (Z.ltb_spec (Z.of_nat (r_queued (s_ring s))) (Z.of_nat (r_count (s_ring s)))) as [Hlt|Hge];
    try lia.
  - wp_steps. iExists [], s. iFrame "H". iPureIntro. split_and!; [constructor|done|lia|done].
  - wp_step. wp_call (async_in_pipe_submit_next_transfer_spec p hp k n x s ltac:(lia)).
    iIntros ([] x1) "(%s1 & %H1 & H)". destruct H1 as (Hst & Hr1 & Hb1).
    iApply (wp_wand with "[H]").
    { iApply (IH s1 x1 with "H"). rewrite Hr1. cbn [push r_queued].
      change (r_count (push (s_ring s))) with (r_count (s_ring s)). lia. }
    iIntros (r x2) "(%ls & %s2 & %H2 & H)". destruct H2 as (Hst2 & Hfin & Hq & Hb2).
    iExists _, s2. iFrame "H". iPureIntro. split_and!; [by eapply steps_step|done|done|congruence].
  - wp_steps. iExists [], s. iFrame "H". iPureIntro. split_and!; [constructor|done|lia|done].
Qed.

Lemma libusbp_async_in_pipe_start_endless_transfers_spec p hp k n x s :
  {{ pipe_at p hp k n x s }} libusbp_async_in_pipe_start_endless_transfers p @ x {{ r x',
    ∃ ls s', ⟪r = NULL ∧ steps s ls s' ∧ finished_slots ls = [] ∧
        r_queued (s_ring s') = r_count (s_ring s') ∧ s_endless s' = true⟫ ∗
      pipe_at p hp k n x' s' }}.
Proof.
  iIntros "(%Hok & Hh & Hm & Hp)". destruct s as [b r m]. cbn [s_ring s_endless s_transfers] in *.
  iDestruct (pipe_own_not_null with "Hp") as "[%Hn Hp]".
  unfold libusbp_async_in_pipe_start_endless_transfers. wp_steps.
  iApply (pipe_own_load with "Hp"). iIntros (la) "Ha Hclose". iDestruct ("Hclose" with "Ha") as "Hp".
  cbn [pipe_struct pipe_transfer_array pipe_pending_count pipe_transfer_count]. wp_steps.
  iApply (wp_set_endless with "Hp"). iIntros "Hp". wp_step.
  iApply (wp_wand with "[Hh Hm Hp]").
  { iApply (submit_all_loop_spec _ p hp k n x (State true r m)); [cbn [s_ring]; lia|].
    iFrame. by iPureIntro. }
  iIntros ([] x1) "(%ls & %s2 & %H2 & H)". destruct H2 as (Hst & Hfin & Hq & Hb). wp_steps.
  iExists ([] ++ ls), s2. iFrame "H". iPureIntro.
  split_and!; [done|eapply steps_step; [apply step_endless|exact Hst]|exact Hfin|exact Hq|exact Hb].
Qed.

Lemma libusbp_async_in_pipe_handle_events_spec p hp k n x s :
  {{ pipe_at p hp k n x s }} libusbp_async_in_pipe_handle_events p @ x {{ r x',
    ∃ m', ⟪settled (s_transfers s) m'⟫ ∗
      pipe_at p hp k n x' (State (s_endless s) (s_ring s) m') ∗ some_error r }}.
Proof.
  iIntros "(%Hok & Hh & Hm & Hp)". iDestruct (pipe_own_not_null with "Hp") as "[%Hn Hp]".
  unfold libusbp_async_in_pipe_handle_events. wp_steps.
  iApply (pipe_own_load with "Hp"). iIntros (la) "Ha Hclose". iDestruct ("Hclose" with "Ha") as "Hp".
  cbn [pipe_struct pipe_handle]. iApply (wp_wand with "[Hh Hm]").
  { iApply law_events. iFrame. }
  iIntros (r x1) "(%m' & %Hs & Hh & Hm & He)". iExists m'. iFrame. iPureIntro. split; [done|].
  destruct Hok as [Hr Hsl]. split; [done|]. by eapply slots_settled.
Qed.

Lemma libusbp_async_in_pipe_has_pending_transfers_spec p hp k n x s :
  {{ pipe_at p hp k n x s }} libusbp_async_in_pipe_has_pending_transfers p true @ x {{ r x',
    ⟪r = (NULL, Some (bool_decide (queue (s_ring s) ≠ []))) ∧ x' = x⟫ ∗ pipe_at p hp k n x s }}.
Proof.
  iIntros "(%Hok & Hh & Hm & Hp)". iDestruct (pipe_own_not_null with "Hp") as "[%Hn Hp]".
  unfold libusbp_async_in_pipe_has_pending_transfers. wp_steps.
  iApply (pipe_own_load with "Hp"). iIntros (la) "Ha Hclose". iDestruct ("Hclose" with "Ha") as "Hp".
  cbn [pipe_struct pipe_pending_count]. wp_steps. iFrame. iPureIntro. split; [|done].
  split; [|done]. do 2 f_equal. unfold queue. destruct (r_queued (s_ring s)); [done|].
  by rewrite bool_decide_true.
Qed.

(** ** Handing out a finished transfer *)

(** The error the application gets: a copy of the transfer's, or one about the
    lack of memory. *)
Definition error_delivered (g : bool) (q : option ptr) (e : option aerr) : hProp :=
  match g, e with
  | true, Some a => ∃ p got, ⟪q = Some p ∧ (got = a ∨ mem_err got)⟫ ∗ err_own p got
  | true, None => ⟪q = Some NULL⟫
  | false, _ => ⟪q = None⟫
  end%I.

Lemma error_copied_delivered g q e x x' : error_copied g q e x x' ⊢ error_delivered g q e.
Proof.
  iIntros "H". destruct g, e as [a|]; try done. cbn.
  iDestruct "H" as (p) "[-> (%got & H & %Hq)]". destruct Hq as [_ Hq]. iExists p, got. iFrame.
  iPureIntro. split; [done|]. destruct Hq as [->|[? _]]; auto.
Qed.

(** The first transfer in flight, if there is one, and the state of it. *)
Definition first_in_flight (s : state) : option transfer :=
  if bool_decide (queue (s_ring s) = []) then None else
  match r_slots (s_ring s) !! r_first (s_ring s) with
  | Some l => s_transfers s !! l
  | None => None
  end.

Lemma queue_nil r : queue r = [] ↔ r_queued r = 0%nat.
Proof.
  unfold queue. destruct (r_queued r); [done|]. cbn. done.
Qed.

Lemma first_in_flight_some s l t :
  (0 < r_queued (s_ring s))%nat → r_slots (s_ring s) !! r_first (s_ring s) = Some l →
  s_transfers s !! l = Some t → first_in_flight s = Some t.
Proof.
  intros Hq Hl Ht. unfold first_in_flight. rewrite bool_decide_false; [by rewrite Hl|].
  rewrite queue_nil. lia.
Qed.

(** The part of the function after the results were stored. *)
Definition finish_rest (p : ptr) (g : bool) (transferred : option Z) (transfer_error : option ptr) :
    M finish_results :=
  pp ← load_as as_pipe p;
  set_counters p (to_size (pipe_pending_count pp - 1))
     (increment_and_wrap_size (pipe_next_finish pp) (pipe_transfer_count pp))
     (pipe_next_submit pp);;
  pp ← load_as as_pipe p;
  when (pipe_endless_transfers_enabled pp) (async_in_pipe_submit_next_transfer p);;
  mret (NULL, given g true, transferred, transfer_error).

Lemma finish_rest_spec p hp k n x s g v q l size data error :
  (0 < r_queued (s_ring s))%nat → r_slots (s_ring s) !! r_first (s_ring s) = Some l →
  s_transfers s !! l = Some (Transfer size (Finished data error)) →
  {{ pipe_at p hp k n x s }} finish_rest p g v q @ x {{ r x',
    ∃ ls s', ⟪r = (NULL, given g true, v, q) ∧
        steps s (Finishes (r_first (s_ring s)) data error :: ls) s' ∧
        finished_slots ls = [] ∧ s_endless s' = s_endless s ∧
        r_queued (s_ring s') = (if s_endless s then r_queued (s_ring s)
                                else (r_queued (s_ring s) - 1)%nat)⟫ ∗
      pipe_at p hp k n x' s' }}.
Proof.
  iIntros (Hq Hl Ht) "(%Hok & Hh & Hm & Hp)". destruct s as [b r m].
  cbn [s_ring s_endless s_transfers] in *. pose proof Hok as [Hr _]. cbn [s_ring] in Hr.
  unfold finish_rest. wp_step. iApply (pipe_own_load with "Hp"). iIntros (la) "Ha Hclose".
  iDestruct ("Hclose" with "Ha") as "Hp".
  cbn [pipe_struct pipe_pending_count pipe_transfer_count pipe_next_finish pipe_next_submit].
  rewrite increment_first // -(next_slot_pop r Hq).
  rewrite (_ : to_size (Z.of_nat (r_queued r) - 1) = Z.of_nat (r_queued (pop r))).
  2: { destruct Hr as (_ & Hc & _ & _ & Hle & _). rewrite to_size_id; [cbn; lia|].
       unfold sizeof_ptr, PTRDIFF_MAX, SIZE_MAX in *. lia. }
  wp_step. iApply (wp_set_counters _ _ _ _ r (pop r) with "Hp"); [done|done|]. iIntros "Hp".
  wp_step. iApply (pipe_own_load with "Hp"). iIntros (la2) "Ha Hclose".
  iDestruct ("Hclose" with "Ha") as "Hp". cbn [pipe_struct pipe_endless_transfers_enabled].
  assert (H1 : step (State b r m) [Finishes (r_first r) data error] (State b (pop r) m)).
  { by eapply step_finish. }
  pose proof (step_ok _ _ _ H1 Hok) as Hok1.
  iAssert (pipe_at p hp k n x (State b (pop r) m)) with "[$Hh $Hm $Hp //]" as "H".
  wp_step. wp_step. destruct b.
  - assert (Hpq : (r_queued (pop r) < r_count (pop r))%nat).
    { change (r_count (pop r)) with (r_count r). destruct Hr as (_ & _ & _ & _ & ? & _).
      cbn [pop r_queued]. lia. }
    wp_call (async_in_pipe_submit_next_transfer_spec p hp k n x (State true (pop r) m) Hpq).
    iIntros ([] x1) "(%s' & %H2 & H)". destruct H2 as (H2 & Hr2 & Hb2). wp_steps.
    iExists _, s'. iFrame "H". iPureIntro.
    split_and!; [done|eapply (steps_step _ [_]); [exact H1|by apply steps_one]|done|done|].
    rewrite Hr2. cbn. lia.
  - wp_steps. iExists [], _. iFrame "H". iPureIntro.
    split_and!; [done|by apply steps_one|done|done|done].
Qed.

(** Looking at the first transfer in flight. *)
Lemma wp_check_first p hp k n x s z (K : ptr → bool → M finish_results) Q :
  pipe_at p hp k n x s -∗
  ((⌜r_queued (s_ring s) = 0%nat⌝ → pipe_at p hp k n x s -∗ Q z x) ∧
   (∀ l t m' x', ⌜(0 < r_queued (s_ring s))%nat ∧ r_slots (s_ring s) !! r_first (s_ring s) = Some l ∧
        settled (s_transfers s) m' ∧ m' !! l = Some t ∧ transfer_wf t ∧
        tr_size t = r_size (s_ring s)⌝ →
     pipe_at p hp k n x' (State (s_endless s) (s_ring s) m') -∗
     wp (K (Heap l) (is_pending t)) x' Q)) -∗
  wp (pp ← load_as as_pipe p;
      if pipe_pending_count pp =? 0 then mret z else
      transfer ← load_elem as_ptrs (pipe_transfer_array pp) (pipe_next_finish pp);
      pending ← tr_pending transfer;
      K transfer pending) x Q.
Proof.
  iIntros "(%Hok & Hh & Hm & Hp) HQ". destruct s as [b r m].
  cbn [s_ring s_endless s_transfers] in *. pose proof Hok as [Hr Hsl]. cbn [s_ring s_transfers] in *.
  wp_step. iApply (pipe_own_load with "Hp"). iIntros (la) "Ha Hclose".
  cbn [pipe_struct pipe_transfer_array pipe_next_finish pipe_pending_count].
  destruct (Z.eqb_spec (Z.of_nat (r_queued r)) 0) as [H0|H0].
  { wp_step. iDestruct ("Hclose" with "Ha") as "Hp". iDestruct "HQ" as "[HQ _]".
    assert (r_queued r = 0%nat) by lia. iApply ("HQ" with "[//]"). by iFrame. }
  iDestruct "HQ" as "[_ HQ]". wp_step.
  destruct (lookup_lt_is_Some_2 (r_slots r) (r_first r)) as [l Hl]; [by destruct Hr as (_ & _ & _ & ? & _)|].
  destruct (Hsl _ _ Hl) as (t & Ht & Hsz & _).
  iApply (wp_load_slot with "Ha"); [done|]. iIntros "Ha". iDestruct ("Hclose" with "Ha") as "Hp".
  wp_step. wp_call (law_pending hp k l t m x Ht). iIntros (pd x1) "(Hh & %t' & %Hs & Hm)".
  destruct Hs as [Hs ->]. pose proof (settled_insert _ _ _ _ Ht Hs) as Hset.
  iDestruct (law_wf with "Hm") as "[%Hwf Hm]".
  iApply ("HQ" $! l t' with "[%] [Hh Hm Hp]").
  - split_and!; [lia|done|done|by rewrite lookup_insert_eq| |by rewrite (settles_size _ _ Hs)].
    apply (Hwf l). by rewrite lookup_insert_eq.
  - iFrame. iPureIntro. split; [done|]. by eapply slots_settled.
Qed.

(** [libusbp_async_in_pipe_handle_finished_transfer]: nothing while the first transfer
    in flight is pending (or there is none), otherwise its results. *)
Definition nothing_finished (s s' : state) (g1 g2 g3 : bool) (r : finish_results) : Prop :=
  r = (NULL, given g1 false, out g2 0, given g3 NULL) ∧
  s_endless s' = s_endless s ∧ s_ring s' = s_ring s ∧ settled (s_transfers s) (s_transfers s') ∧
  (first_in_flight s' = None ∨ ∃ t, first_in_flight s' = Some t ∧ is_pending t = true).

Definition first_finished (s s' : state) (g1 g2 : bool) (data : list (option ascii))
    (error : option aerr) (q : option ptr) (r : finish_results) : Prop :=
  r = (NULL, given g1 true, out g2 (Z.of_nat (List.length data)), q) ∧
  Z.of_nat (List.length data) ≤ r_size (s_ring s) ∧
  (0 < r_queued (s_ring s))%nat ∧
  ∃ ls, steps s (Finishes (r_first (s_ring s)) data error :: ls) s' ∧ finished_slots ls = [] ∧
    s_endless s' = s_endless s ∧
    r_queued (s_ring s') = (if s_endless s then r_queued (s_ring s)
                            else (r_queued (s_ring s) - 1)%nat).

Lemma first_finished_settled s m' s' g1 g2 data error q r :
  settled (s_transfers s) m' →
  first_finished (State (s_endless s) (s_ring s) m') s' g1 g2 data error q r →
  first_finished s s' g1 g2 data error q r.
Proof.
  intros Hm (Hr & Hl & Hq & ls & Hst & H). split_and!; [done|done|done|]. exists ls. split; [|done].
  destruct s as [b rg m]. cbn [s_transfers s_endless s_ring] in *.
  eapply (steps_step _ []); [by apply step_settle|done].
Qed.

Lemma libusbp_async_in_pipe_handle_finished_transfer_spec p hp k n x s g1 g2 g3 buffer old :
  (is_null buffer = false → r_size (s_ring s) ≤ Z.of_nat (List.length old)) →
  {{ pipe_at p hp k n x s ∗ user_buffer buffer old }}
    libusbp_async_in_pipe_handle_finished_transfer p g1 buffer g2 g3 @ x
  {{ r x', ∃ s',
     (⟪nothing_finished s s' g1 g2 g3 r⟫ ∗ user_buffer buffer old ∨
      ∃ data error, ⟪first_finished s s' g1 g2 data error r.2 r⟫ ∗
        user_buffer buffer (if is_null buffer then old else copied data old) ∗
        error_delivered g3 r.2 error) ∗
     pipe_at p hp k n x' s' }}.
Proof.
  iIntros (Hold) "[H Hbuf]".
  iAssert (⌜is_null p = false⌝ ∧ pipe_at p hp k n x s)%I with "[H]" as "[%Hn H]".
  { iSplit; [|done]. iDestruct "H" as "(_ & _ & _ & Hp)". by iDestruct "Hp" as (??) "[-> _]". }
  unfold libusbp_async_in_pipe_handle_finished_transfer. rewrite Hn.
  iApply (wp_check_first with "H"). iSplit.
  { iIntros (H0) "H". iExists s. iFrame "H". iLeft. iFrame. iPureIntro. split_and!; try done.
    left. unfold first_in_flight. by rewrite bool_decide_true // queue_nil. }
  iIntros (l t m' x1 (Hq & Hl & Hset & Ht & Hwf & Hsz)) "H".
  set (s1 := State (s_endless s) (s_ring s) m').
  destruct t as [size [|data error]]; cbn [is_pending tr_state tr_size] in *; subst size.
  { wp_step. iExists s1. iFrame "H". iLeft. iFrame. iPureIntro. split_and!; try done.
    right. eexists. split; [by apply (first_in_flight_some s1 l)|done]. }
  iDestruct "H" as "(%Hok & Hh & Hm & Hp)". destruct Hwf as [_ Hd]. cbn [tr_state tr_size] in Hd.
  wp_step. wp_call (law_results k l _ data error m' buffer old g2 g3 x1 Ht ltac:(
    intros Hb; specialize (Hold Hb); lia)).
  iIntros ([[e v] q] x2) "(%Hr & Hm & Hbuf & He)". destruct Hr as [Hr Hqt]. cbn [fst snd] in Hr.
  injection Hr as -> ->. wp_simpl.
  iDestruct (error_copied_delivered with "He") as "He".
  iApply (wp_wand with "[Hh Hm Hp]").
  { iApply (finish_rest_spec p hp k n x2 s1 g1 _ q l _ data error Hq Hl Ht). by iFrame. }
  iIntros (r x') "(%ls & %s' & %H2 & H)". destruct H2 as (-> & H2). iExists s'. iFrame "H".
  iRight. iExists data, error. iFrame "Hbuf He". iPureIntro.
  apply (first_finished_settled s m'); [done|]. split_and!; [done|done|done|]. by exists ls.
Qed.

(** ** Cancellation *)

Lemma cancel_loop_spec fuel p hp k n x s i :
  (i + fuel = r_count (s_ring s))%nat →
  {{ pipe_at p hp k n x s }} cancel_loop fuel p (Z.of_nat i) @ x {{ r x',
    pipe_at p hp k n x' s ∗ some_error r }}.
Proof.
  revert i x. induction fuel as [|fuel IH]; intros i x Hi; iIntros "H"; cbn [cancel_loop].
  { wp_steps. iFrame "H". by iExists None. }
  iDestruct "H" as "(%Hok & Hh & Hm & Hp)". pose proof Hok as [Hr Hsl]. wp_step.
  iApply (pipe_own_load with "Hp"). iIntros (la) "Ha Hclose".
  cbn [pipe_struct pipe_transfer_array]. wp_step.
  destruct (lookup_lt_is_Some_2 (r_slots (s_ring s)) i) as [l Hl]; [unfold r_count in Hi; lia|].
  destruct (Hsl _ _ Hl) as (t & Ht & _).
  iApply (wp_load_slot with "Ha"); [done|]. iIntros "Ha". iDestruct ("Hclose" with "Ha") as "Hp".
  wp_step. wp_call (law_cancel hp k l t _ x Ht). iIntros (r x1) "(Hh & Hm & (%e & He))".
  iAssert (pipe_at p hp k n x1 s) with "[$Hh $Hm $Hp //]" as "H".
  iDestruct (opt_err_null with "He") as "[%Hn He]". rewrite Hn. destruct e as [a|].
  - wp_step. iFrame "H". iExists (Some a). by iFrame.
  - iDestruct "He" as %->. rewrite (_ : (i + 1) = Z.of_nat (S i)); [|lia]. iApply (IH with "H"). lia.
Qed.

Lemma libusbp_async_in_pipe_cancel_transfers_spec p hp k n x s :
  {{ pipe_at p hp k n x s }} libusbp_async_in_pipe_cancel_transfers p @ x {{ r x',
    pipe_at p hp k n x' (State false (s_ring s) (s_transfers s)) ∗ some_error r }}.
Proof.
  iIntros "(%Hok & Hh & Hm & Hp)". iDestruct (pipe_own_not_null with "Hp") as "[%Hn Hp]".
  unfold libusbp_async_in_pipe_cancel_transfers. wp_steps.
  iApply (wp_set_endless with "Hp"). iIntros "Hp". wp_step.
  iApply (pipe_own_load with "Hp"). iIntros (la) "Ha Hclose".
  cbn [pipe_struct pipe_transfer_array pipe_transfer_count]. destruct tr_cancels_each.
  - iDestruct ("Hclose" with "Ha") as "Hp". rewrite Nat2Z.id.
    iApply (cancel_loop_spec _ p hp k n x (State false (s_ring s) (s_transfers s)) 0); [done|].
    by iFrame.
  - wp_step. pose proof Hok as [Hr Hsl].
    destruct (lookup_lt_is_Some_2 (r_slots (s_ring s)) 0) as [l Hl]; [by destruct Hr|].
    destruct (Hsl _ _ Hl) as (t & Ht & _).
    iApply (wp_load_slot _ _ 0 with "Ha"); [done|]. iIntros "Ha".
    iDestruct ("Hclose" with "Ha") as "Hp".
    wp_call (law_cancel hp k l t _ x Ht). iIntros (r x1) "(Hh & Hm & He)". by iFrame.
Qed.

(** ** Freeing transfers *)

Definition slot_ptr (o : option loc) : option ptr :=
  Some (match o with Some l => Heap l | None => NULL end).

Definition opt_array (la : loc) (os : list (option loc)) : hProp := (la ↦ OPtrs (slot_ptr <$> os))%I.

Lemma slot_array_opt la slots : slot_array la slots ⊣⊢ opt_array la (Some <$> slots).
Proof. unfold slot_array, opt_array. by rewrite -list_fmap_compose. Qed.

(** The pool after freeing the transfers [ls]: the pending ones are still there. *)
Definition freed (ls : list loc) (m m' : gmap loc transfer) : Prop :=
  (∀ l, l ∉ ls → m' !! l = m !! l) ∧
  (∀ l, l ∈ ls → m' !! l = None ∨ ∃ t, m !! l = Some t ∧ is_pending t = true ∧ m' !! l = Some t).

Lemma freed_cons l ls t m m1 m' :
  l ∉ ls → m !! l = Some t → (m1 = delete l m ∨ (is_pending t = true ∧ m1 = m)) →
  freed ls m1 m' → freed (l :: ls) m m'.
Proof.
  intros Hl Ht Hm1 [H1 H2]. split.
  - intros l' [Hne Hl']%not_elem_of_cons. rewrite (H1 _ Hl').
    destruct Hm1 as [->|[_ ->]]; [by rewrite lookup_delete_ne|done].
  - intros l' [->|Hl']%elem_of_cons.
    + rewrite (H1 _ Hl). destruct Hm1 as [->|[Hp ->]]; [left; by rewrite lookup_delete_eq|].
      right. by exists t.
    + assert (l' ≠ l) by (by intros ->).
      destruct (H2 _ Hl') as [?|(t' & Ht' & Hp & ?)]; [by left|]. right. exists t'.
      split_and!; [|done|done]. destruct Hm1 as [->|[_ ->]]; [by rewrite lookup_delete_ne in Ht'|done].
Qed.

Lemma async_in_transfer_array_free_loop_spec fuel la k x m pre os i :
  fuel = List.length os → i = Z.of_nat (List.length pre) → NoDup (omap id os) →
  (∀ l, l ∈ omap id os → is_Some (m !! l)) →
  {{ pool k x m ∗ opt_array la (pre ++ os) }} async_in_transfer_array_free_loop fuel (Heap la) i @ x
  {{ r x', ∃ m', ⟪freed (omap id os) m m'⟫ ∗ pool k x' m' ∗ opt_array la (pre ++ os) }}.
Proof.
  intros -> ->. revert pre m x. induction os as [|o os IH]; intros pre m x Hnd Hin;
    iIntros "[Hm Ha]"; cbn [List.length async_in_transfer_array_free_loop].
  { wp_steps. iExists m. iFrame. iPureIntro. split; [done|]. intros l H. by apply elem_of_nil in H. }
  wp_step. iApply (wp_load_elem as_ptrs _ _ (match o with Some l => Heap l | None => NULL end) with "Ha");
    [done|lia| |].
  { rewrite Nat2Z.id list_lookup_fmap lookup_app_r // Nat.sub_diag. done. }
  iIntros "Ha". rewrite (_ : (Z.of_nat (List.length pre) + 1) = Z.of_nat (List.length (pre ++ [o]))).
  2: { rewrite length_app. cbn. lia. }
  rewrite (_ : pre ++ o :: os = (pre ++ [o]) ++ os); [|by rewrite -app_assoc].
  wp_step. destruct o as [l|]; cbn [omap list_omap id] in *.
  - apply NoDup_cons in Hnd as [Hnl Hnd]. destruct (Hin l ltac:(by left)) as [t Ht].
    wp_call (law_free k l t m x Ht). iIntros ([] x1) "(%m1 & %Hm1 & Hm)".
    iApply (wp_wand with "[Hm Ha]").
    { iApply (IH (pre ++ [Some l]) m1 x1 Hnd); [|iFrame]. intros l' Hl'.
      destruct Hm1 as [->|[_ ->]]; [|by apply Hin; right].
      rewrite lookup_delete_ne; [by apply Hin; right|]. by intros ->. }
    iIntros (r x2) "(%m' & %Hf & H)". iExists m'. iFrame. iPureIntro. by eapply freed_cons.
  - iApply law_free_null. iApply (IH (pre ++ [None]) m x Hnd Hin). iFrame.
Qed.

Lemma async_in_transfer_array_free_spec la k x m os :
  NoDup (omap id os) → (∀ l, l ∈ omap id os → is_Some (m !! l)) →
  {{ pool k x m ∗ opt_array la os }}
    async_in_transfer_array_free (Heap la) (Z.of_nat (List.length os)) @ x
  {{ r x', ∃ m', ⟪freed (omap id os) m m'⟫ ∗ pool k x' m' }}.
Proof.
  iIntros (Hnd Hin) "H". unfold async_in_transfer_array_free. wp_step. rewrite Nat2Z.id.
  iApply (wp_wand with "[H]").
  { by iApply (async_in_transfer_array_free_loop_spec _ la k x m [] os 0 eq_refl eq_refl Hnd Hin). }
  iIntros ([] x1) "(%m' & %Hf & Hm & Ha)". unfold opt_array. wp_steps. iExists m'. by iFrame.
Qed.

Lemma omap_id_some {A} (xs : list A) : omap id (Some <$> xs) = xs.
Proof. induction xs as [|a xs IH]; [done|]. cbn. by f_equal. Qed.

Lemma libusbp_async_in_pipe_close_spec p hp k n x s :
  {{ pipe_at p hp k n x s }} libusbp_async_in_pipe_close p @ x {{ r x',
    ∃ m', ⟪freed (r_slots (s_ring s)) (s_transfers s) m'⟫ ∗ handle_res hp k ∗ pool k x' m' }}.
Proof.
  iIntros "(%Hok & Hh & Hm & (%lp & %la & -> & Hp & Ha))". unfold libusbp_async_in_pipe_close.
  destruct Hok as [Hr Hsl]. wp_steps. cbn [pipe_struct pipe_transfer_array pipe_transfer_count].
  rewrite slot_array_opt. unfold r_count. rewrite -(length_fmap Some (r_slots (s_ring s))).
  set (os := Some <$> r_slots (s_ring s)). assert (Hos : omap id os = r_slots (s_ring s)) by apply omap_id_some.
  assert (Hnd : NoDup (omap id os)) by (rewrite Hos; by destruct Hr as (_ & _ & _ & _ & _ & ?)).
  assert (Hin : ∀ l, l ∈ omap id os → is_Some (s_transfers s !! l)).
  { intros l. rewrite Hos. intros (i & Hi)%list_elem_of_lookup.
    destruct (Hsl _ _ Hi) as (t & Ht & _). by exists t. }
  wp_call (async_in_transfer_array_free_spec la k x (s_transfers s) os Hnd Hin).
  iIntros ([] x1) "(%m' & %Hf & Hm)". rewrite Hos in Hf. wp_steps. iExists m'. by iFrame.
Qed.

(** ** Creating a pipe and its transfers *)

Definition out_not_supported : aerr :=
  err_new "Asynchronous pipes for OUT endpoints are not supported.".

Lemma async_in_pipe_create_spec hp k n x :
  u8 n →
  {{ handle_res hp k }} async_in_pipe_create hp n true @ x {{ r x',
    ⟪calm x x'⟫ ∗ handle_res hp k ∗
    ((∃ q, ⟪r = (NULL, Some q) ∧ pipe_id_exists n = true⟫ ∗ fresh_pipe_own q hp n) ∨
     (∃ a, ⟪r.2 = Some NULL ∧
        (pipe_id_exists n = false → errs x x' (invalid_pipe_id n) a) ∧
        (pipe_id_exists n = true → is_in n = false → errs x x' out_not_supported a)⟫ ∗
        err_own r.1 a)) }}.
Proof.
  iIntros (Hu) "Hh". iDestruct (law_handle with "Hh") as "[%Hn Hh]".
  unfold async_in_pipe_create, then_check, if_ok, calloc. rewrite Hn. wp_step.
  wp_call (check_pipe_id_exact n x Hu). iIntros (e x1) "H". unfold check_result.
  destruct (pipe_id_exists n) eqn:Hex; last first.
  { iDestruct (err_res_not_null with "H") as "[%He (%a & H & %Hq)]". destruct Hq as [Hq Ha].
    wp_steps. iSplit; [iPureIntro; by apply quiet_calm|]. iFrame "Hh". iRight. iExists a.
    iFrame "H". by iPureIntro. }
  iDestruct "H" as %[-> ->]. wp_step. rewrite pipe_id_direction //.
  destruct (is_in n) eqn:Hin; cbn [negb]; last first.
  { iApply wp_error_create; [done|]. err_intro.
    iDestruct select (err_res _ _ _ _) as (a) "[H %Hq]". destruct Hq as [Hq Ha].
    wp_steps. iSplit; [iPureIntro; by apply quiet_calm|]. iFrame "Hh". iRight. iExists a.
    iFrame "H". by iPureIntro. }
  wp_steps. wp_call (law_setup hp k n x). iIntros (e x1) "(%Hc & Hh & (%oe & He))".
  iDestruct (opt_err_null with "He") as "[%Hn1 He]". destruct oe as [a|].
  { wp_steps. iSplit; [done|]. iFrame "Hh". iRight. iExists a. iFrame "He". by iPureIntro. }
  iDestruct "He" as %->. wp_steps. iApply wp_malloc_pos; [done|]. iSplit.
  - iIntros (lp _) "Hp". unfold zeroed_pipe. wp_steps. iSplit; [done|]. iFrame "Hh". iLeft.
    iExists (Heap lp). iSplit; [done|]. iExists lp. by iFrame.
  - iIntros (x2 [Hq Ho]). wp_steps.
    iSplit; [iPureIntro; etrans; [exact Hc|by apply quiet_calm]|]. iFrame "Hh". iRight.
    iExists no_memory. iSplit; [by iPureIntro|]. iLeft. iPureIntro. by eexists.
Qed.

(** New transfers in the pool. *)
Definition new_transfer_of (size : Z) : transfer := Transfer size (Finished [] None).

Definition allocated (size : Z) (ls : list loc) (m m' : gmap loc transfer) : Prop :=
  NoDup ls ∧ (∀ l, l ∉ ls → m' !! l = m !! l) ∧
  (∀ l, l ∈ ls → m !! l = None ∧ m' !! l = Some (new_transfer_of size)).

Lemma allocated_nil size m : allocated size [] m m.
Proof. split_and!; [constructor|done|]. intros l H. by apply elem_of_nil in H. Qed.

Lemma allocated_snoc size ls l m m' :
  allocated size ls m m' → m' !! l = None →
  allocated size (ls ++ [l]) m (<[l := new_transfer_of size]> m').
Proof.
  intros (Hnd & H1 & H2) Hl.
  assert (Hnin : l ∉ ls). { intros Hin. destruct (H2 _ Hin) as [_ E]. by rewrite E in Hl. }
  split_and!.
  - apply NoDup_app. split_and!; [done| |by apply NoDup_singleton].
    intros l' Hl' Hx%list_elem_of_singleton. by subst.
  - intros l' [Hn Hne]%not_elem_of_app. rewrite lookup_insert_ne; [by apply H1|].
    intros ->. apply Hne. by left.
  - intros l' [Hin|Hx%list_elem_of_singleton]%elem_of_app.
    + rewrite lookup_insert_ne; [by apply H2|]. by intros ->.
    + subst l'. rewrite lookup_insert_eq. split; [|done]. by rewrite -(H1 _ Hnin).
Qed.

(** Freeing the new transfers gives the old pool back. *)
Lemma allocated_freed size ls m m' m'' :
  allocated size ls m m' → freed ls m' m'' → m'' = m.
Proof.
  intros (_ & H1 & H2) [F1 F2]. apply map_eq. intros l. destruct (decide (l ∈ ls)) as [Hl|Hl].
  - destruct (H2 _ Hl) as [-> Hm']. destruct (F2 _ Hl) as [->|(t & Ht & Hp & _)]; [done|].
    rewrite Hm' in Ht. by injection Ht as <-.
  - by rewrite (F1 _ Hl) (H1 _ Hl).
Qed.

Definition filled (ls : list loc) (j : nat) : list (option loc) := (Some <$> ls) ++ replicate j None.

Lemma omap_filled ls j : omap id (filled ls j) = ls.
Proof.
  unfold filled. rewrite omap_app omap_id_some. by induction j; cbn; rewrite ?app_nil_r.
Qed.

Lemma length_filled ls j : List.length (filled ls j) = (List.length ls + j)%nat.
Proof. unfold filled. by rewrite length_app length_fmap length_replicate. Qed.

Lemma filled_snoc ls j l :
  <[List.length ls := slot_ptr (Some l)]> (slot_ptr <$> filled ls (S j)) =
  slot_ptr <$> filled (ls ++ [l]) j.
Proof.
  unfold filled. rewrite !fmap_app replicate_S. cbn [fmap list_fmap].
  rewrite insert_app_r_alt ?length_fmap // Nat.sub_diag. cbn. by rewrite -app_assoc.
Qed.

Lemma create_transfers_loop_spec fuel p hp k n la ls size m0 m x :
  0 < size → allocated size ls m0 m →
  {{ fresh_pipe_own p hp n ∗ handle_res hp k ∗ pool k x m ∗ opt_array la (filled ls fuel) }}
    create_transfers_loop fuel p (Heap la) (Z.of_nat (List.length ls)) size @ x
  {{ r x', ∃ ls' j m' error, ⟪allocated size ls' m0 m' ∧ (List.length ls' + j = List.length ls + fuel)%nat ∧
        (error = None → j = 0%nat)⟫ ∗
      fresh_pipe_own p hp n ∗ handle_res hp k ∗ pool k x' m' ∗ opt_array la (filled ls' j) ∗
      opt_err r error }}.
Proof.
  intros Hsz. revert ls m x. induction fuel as [|fuel IH]; intros ls m x Hal;
    iIntros "(Hp & Hh & Hm & Ha)"; cbn [create_transfers_loop].
  { wp_steps. iExists ls, 0%nat, m, None. by iFrame. }
  iDestruct "Hp" as (lp) "[%H Hp]". destruct H as (-> & Hn & Hin). wp_step.
  iApply (wp_load_as with "Hp"); [done|]. iIntros "Hp". cbn [fresh_struct pipe_handle pipe_pipe_id].
  iAssert (fresh_pipe_own (Heap lp) hp n) with "[Hp]" as "Hp"; [iExists lp; by iFrame|]. wp_step.
  wp_call (law_create hp k n size m x Hn Hin Hsz). iIntros ([e o] x1) "[Hh [H|H]]".
  - iDestruct "H" as (l) "[%H Hm]". destruct H as [[= -> ->] Hl]. wp_step.
    iApply (wp_store_elem as_ptrs OPtrs _ _ _ la with "Ha"); [done| |].
    { rewrite length_fmap length_filled. lia. }
    rewrite Nat2Z.id. change (Some (Heap l)) with (slot_ptr (Some l)). rewrite filled_snoc.
    iIntros "Ha". wp_simpl.
    rewrite (_ : (Z.of_nat (List.length ls) + 1) = Z.of_nat (List.length (ls ++ [l]))).
    2: { rewrite length_app. cbn. lia. }
    iApply (wp_wand with "[Hp Hh Hm Ha]").
    { iApply (IH (ls ++ [l]) (<[l := new_transfer_of size]> m) x1); [by apply allocated_snoc|]. iFrame. }
    iIntros (r x2) "(%ls' & %j & %m' & %error & %H & H)". iExists ls', j, m', error. iFrame "H".
    iPureIntro. rewrite length_app in H. cbn in H. destruct H as (? & ? & ?). split_and!; [done|lia|done].
  - iDestruct "H" as (a) "(%Ho & He & Hm)". cbn [fst snd] in *. subst o.
    iDestruct (err_own_not_null with "He") as "[%Hne He]". wp_steps. rewrite ?Hne. wp_steps.
    iExists ls, (S fuel), m, (Some a). by iFrame.
Qed.

Definition allocation_error (a : aerr) : Prop :=
  (∃ b, a = err_add b "Failed to allocate transfers for asynchronous IN pipe.") ∨ mem_err a.

Lemma wp_add_allocation_error e b x Q :
  err_own e b -∗
  (∀ r a x', ⌜quiet x x' ∧ allocation_error a⌝ → err_own r a -∗ Q r x') -∗
  wp (error_add e "Failed to allocate transfers for asynchronous IN pipe.") x Q.
Proof.
  iIntros "He HQ". iApply (wp_wand with "[He]"); [by iApply (error_add_spec _ (Some b))|].
  iIntros (r x') "H". iDestruct (new_err_result with "H") as "(%a & He & %Ha)".
  iApply ("HQ" with "[%] He"). destruct Ha as [Hq [->|[-> _]]]; (split; [done|]).
  - left. by exists b.
  - right. apply mem_err_masked.
Qed.

(** The ring of new transfers. *)
Lemma allocated_state_ok size ls m m' :
  0 < size → (0 < List.length ls)%nat → sizeof_ptr * Z.of_nat (List.length ls) ≤ PTRDIFF_MAX →
  allocated size ls m m' → state_ok (State false (Ring ls size 0 0) m').
Proof.
  intros Hsz Hc Hb (Hnd & _ & H2). split.
  - split_and!; cbn [s_ring r_first r_queued r_size r_slots]; unfold r_count; cbn [r_slots]; try done; lia.
  - intros i l Hl. destruct (H2 l) as [_ Ht]; [by eapply list_elem_of_lookup_2|].
    exists (new_transfer_of size). by split_and!.
Qed.

Lemma new_pipe_struct hp n la size ls :
  (0 < List.length ls)%nat →
  {| pipe_handle := hp; pipe_pipe_id := n; pipe_transfer_array := Heap la;
     pipe_transfer_size := size; pipe_transfer_count := Z.of_nat (List.length ls);
     pipe_endless_transfers_enabled := false; pipe_pending_count := 0;
     pipe_next_finish := 0; pipe_next_submit := 0 |} =
  pipe_struct hp n (Heap la) false (Ring ls size 0 0).
Proof.
  intros Hc. unfold pipe_struct, next_slot, slot, r_count. cbn [r_slots r_first r_queued r_size].
  by rewrite Nat.add_0_r Nat.Div0.mod_0_l.
Qed.

(** [libusbp_async_in_pipe_allocate_transfers] after its checks. *)
Lemma libusbp_async_in_pipe_allocate_transfers_spec p hp k n count size m x :
  0 < count → 0 < size →
  {{ fresh_pipe_own p hp n ∗ handle_res hp k ∗ pool k x m }}
    libusbp_async_in_pipe_allocate_transfers p count size @ x
  {{ r x',
     (∃ slots m', ⟪r = NULL ∧ Z.of_nat (List.length slots) = count ∧ allocated size slots m m'⟫ ∗
        pipe_at p hp k n x' (State false (Ring slots size 0 0) m')) ∨
     (∃ a, ⟪allocation_error a⟫ ∗ err_own r a ∗ fresh_pipe_own p hp n ∗ handle_res hp k ∗ pool k x' m) }}.
Proof.
  iIntros (Hc Hsz) "(Hp & Hh & Hm)". iDestruct "Hp" as (lp) "[%H Hp]". destruct H as (-> & Hn & Hin).
  unfold libusbp_async_in_pipe_allocate_transfers, then_check, calloc. wp_step.
  iApply (wp_load_as with "Hp"); [done|]. iIntros "Hp". cbn [fresh_struct pipe_transfer_array].
  rewrite (_ : (count =? 0) = false); [|lia]. rewrite (_ : (size =? 0) = false); [|lia].
  iAssert (fresh_pipe_own (Heap lp) hp n) with "[Hp]" as "Hp"; [iExists lp; by iFrame|].
  wp_steps. iApply wp_malloc_pos; [unfold sizeof_ptr; lia|]. iSplit; last first.
  { iIntros (x1 [Hq Ho]). wp_steps. unfold async_in_transfer_array_free. wp_steps.
    iApply (wp_add_allocation_error _ no_memory with "[]"); [by iLeft; iPureIntro; eexists|].
    iIntros (r a x2 [Hq2 Ha]) "He". iRight. iExists a. iFrame "He Hp Hh". iSplit; [done|].
    iApply (law_calm with "Hm"). apply quiet_calm. by etrans. }
  iIntros (la Hla) "Ha". wp_step.
  iApply (wp_wand with "[Hp Hh Hm Ha]").
  { iApply (create_transfers_loop_spec (Z.to_nat count) (Heap lp) hp k n la [] size m m x Hsz);
      [apply allocated_nil|]. iFrame. unfold opt_array, filled. cbn [app fmap list_fmap].
    by rewrite fmap_replicate. }
  iIntros (r x1) "(%ls & %j & %m1 & %error & %H & Hp & Hh & Hm & Ha & He)".
  destruct H as (Hal & Hlen & Hj). cbn [List.length] in Hlen.
  iDestruct (opt_err_null with "He") as "[%Hne He]". destruct error as [b|]; wp_steps.
  - rewrite (_ : count = Z.of_nat (List.length (filled ls j))).
    2: { rewrite length_filled. lia. }
    assert (Hnd : NoDup (omap id (filled ls j))) by (rewrite omap_filled; by destruct Hal).
    assert (Hin' : ∀ l, l ∈ omap id (filled ls j) → is_Some (m1 !! l)).
    { intros l. rewrite omap_filled. intros Hl. destruct Hal as (_ & _ & H2).
      destruct (H2 _ Hl) as [_ ->]. by eexists. }
    wp_call (async_in_transfer_array_free_spec la k x1 m1 (filled ls j) Hnd Hin').
    iIntros ([] x2) "(%m2 & %Hf & Hm)". rewrite omap_filled in Hf.
    rewrite (allocated_freed _ _ _ _ _ Hal Hf). wp_steps.
    iApply (wp_add_allocation_error with "He").
    iIntros (r2 a x3 [Hq3 Ha]) "He". iRight. iExists a. iFrame "He Hp Hh". iSplit; [done|].
    iApply (law_calm with "Hm"). by apply quiet_calm.
  - iDestruct "He" as %->. specialize (Hj eq_refl). subst j.
    iDestruct "Hp" as (lp') "[%H Hp]". destruct H as ([= <-] & _ & _). unfold fresh_struct. wp_steps.
    unfold async_in_transfer_array_free. wp_steps. iLeft. iExists ls, m1.
    assert (Hlc : Z.of_nat (List.length ls) = count) by lia. rewrite -Hlc in Hla |- *.
    iSplit; [done|]. iFrame "Hh Hm". iSplit.
    { iPureIntro. apply (allocated_state_ok size ls m m1); [done|lia| |done]. lia. }
    iExists lp, la. rewrite new_pipe_struct; [|lia]. iFrame. iSplit; [done|].
    rewrite slot_array_opt. unfold filled. by rewrite app_nil_r.
Qed.
End specs.

(** ** A client of a pipe *)

Inductive pipe_call :=
  | StartEndlessTransfers
  | HandleEvents
  | HandleFinishedTransfer
  | CancelTransfers.

Section client.
Context `{TR : AsyncTransfers}.

(** One call; a finished transfer's bytes are read back from the buffer. *)
Definition run_call (pipe buffer : ptr) (c : pipe_call) : M (list (list (option ascii))) :=
  match c with
  | StartEndlessTransfers =>
      error ← libusbp_async_in_pipe_start_endless_transfers pipe;
      libusbp_error_free error;;
      mret []
  | HandleEvents =>
      error ← libusbp_async_in_pipe_handle_events pipe;
      libusbp_error_free error;;
      mret []
  | HandleFinishedTransfer =>
      '(error, finished, transferred, transfer_error) ←
        libusbp_async_in_pipe_handle_finished_transfer pipe true buffer true true;
      libusbp_error_free error;;
      libusbp_error_free (default NULL transfer_error);;
      match finished, transferred with
      | Some true, Some n => cs ← load_as as_chars buffer; mret [take (Z.to_nat n) cs]
      | _, _ => mret []
      end
  | CancelTransfers =>
      error ← libusbp_async_in_pipe_cancel_transfers pipe;
      libusbp_error_free error;;
      mret []
  end.

Fixpoint run_calls (pipe buffer : ptr) (cs : list pipe_call) : M (list (list (option ascii))) :=
  match cs with
  | [] => mret []
  | c :: cs =>
      data ← run_call pipe buffer c;
      rest ← run_calls pipe buffer cs;
      mret (data ++ rest)
  end.

(** A pipe from its creation to its end. *)
Definition pipe_session (handle : ptr) (pipe_id transfer_count transfer_size : Z) (buffer : ptr)
    (cs : list pipe_call) : M (list (list (option ascii))) :=
  '(error, pipe) ← async_in_pipe_create handle pipe_id true;
  if negb (is_null error) then libusbp_error_free error;; mret [] else
  let pipe := default NULL pipe in
  error ← libusbp_async_in_pipe_allocate_transfers pipe transfer_count transfer_size;
  data ← (if is_null error then run_calls pipe buffer cs
          else libusbp_error_free error;; mret []);
  libusbp_async_in_pipe_close pipe;;
  mret data.
End client.

Section client_specs.
Context `{TR : AsyncTransfers} {LAWS : AsyncTransferLaws TR}.

Lemma submissions_deliver_nothing ls : finished_slots ls = [] → delivered ls = [].
Proof.
  induction ls as [|[i|i d e] ls IH]; [done|exact IH|].
  unfold finished_slots. cbn. done.
Qed.

Lemma free_some_error r x Q : some_error r -∗ Q tt x -∗ wp (libusbp_error_free r) x Q.
Proof.
  iIntros "(%e & He) HQ". iApply (wp_wand with "[He]"); [by iApply libusbp_error_free_spec|].
  iIntros ([] x') "->". done.
Qed.

Lemma error_delivered_some q e : error_delivered true q e ⊢ some_error (default NULL q).
Proof.
  iIntros "H". destruct e as [a|]; cbn [error_delivered].
  - iDestruct "H" as (p got) "[%H He]". destruct H as [-> _]. iExists (Some got). done.
  - iDestruct "H" as %->. by iExists None.
Qed.

Lemma steps_size s ls s' :
  steps s ls s' → r_size (s_ring s') = r_size (s_ring s) ∧ r_slots (s_ring s') = r_slots (s_ring s).
Proof.
  induction 1 as [|s1 ls1 s2 ls2 s3 H _ [IH1 IH2]]; [done|]. rewrite IH1 IH2. by destruct H.
Qed.

(** A call other than that one never brings the endless mode back, and submits
    nothing without it. *)
Definition stays_idle (c : pipe_call) (s : state) (ls : list label) (s' : state) : Prop :=
  c ≠ StartEndlessTransfers → s_endless s = false →
  s_endless s' = false ∧ submitted_slots ls = [].

Lemma length_queue r : List.length (queue r) = r_queued r.
Proof. unfold queue. by rewrite length_fmap length_seq. Qed.

(** Handing out one transfer out of [q], with [q - 1] in flight afterwards. *)
Lemma no_submission s ls s' :
  steps s ls s' → state_ok s → List.length (finished_slots ls) = 1%nat →
  (0 < r_queued (s_ring s))%nat → r_queued (s_ring s') = (r_queued (s_ring s) - 1)%nat →
  submitted_slots ls = [].
Proof.
  intros Hst Hok Hf Hq Hq'. pose proof (f_equal List.length (steps_fifo _ _ _ Hst Hok)) as E.
  rewrite !length_app !length_queue in E. destruct (submitted_slots ls); [done|]. cbn in E. lia.
Qed.

Lemma first_finished_idle s s' g1 g2 data error q r :
  state_ok s → first_finished s s' g1 g2 data error q r →
  ∃ ls, steps s ls s' ∧ delivered ls = [data] ∧
    (s_endless s = false → s_endless s' = false ∧ submitted_slots ls = []).
Proof.
  intros Hok (_ & _ & Hpos & ls & Hst & Hf & He & Hq). exists (Finishes (r_first (s_ring s)) data error :: ls).
  split_and!; [done| |].
  - unfold delivered. cbn [omap list_omap]. fold (delivered ls).
    by rewrite (submissions_deliver_nothing _ Hf).
  - intros E. rewrite He E in Hq |- *. split; [done|].
    assert (Hfin : finished_slots (Finishes (r_first (s_ring s)) data error :: ls) = [r_first (s_ring s)]).
    { unfold finished_slots in *. cbn. by rewrite Hf. }
    apply (no_submission s _ s'); [done|done|by rewrite Hfin|done|done].
Qed.

Lemma run_call_spec c p hp k n x s lb old :
  r_size (s_ring s) ≤ Z.of_nat (List.length old) →
  {{ pipe_at p hp k n x s ∗ lb ↦ OChars old }} run_call p (Heap lb) c @ x {{ r x',
    ∃ ls s' old', ⟪steps s ls s' ∧ r = delivered ls ∧ List.length old' = List.length old ∧
        stays_idle c s ls s'⟫ ∗
      pipe_at p hp k n x' s' ∗ lb ↦ OChars old' }}.
Proof.
  iIntros (Hold) "[H Hb]". iDestruct (pipe_at_ok with "H") as "[%Hok H]".
  destruct c; cbn [run_call]; wp_step.
  - wp_call (libusbp_async_in_pipe_start_endless_transfers_spec p hp k n x s).
    iIntros (r x1) "(%ls & %s' & %H1 & H)". destruct H1 as (-> & Hst & Hf & _).
    wp_step. iApply (free_some_error NULL with "[]"); [by iExists None|]. wp_steps.
    iExists ls, s', old. iFrame. iPureIntro. by rewrite submissions_deliver_nothing.
  - wp_call (libusbp_async_in_pipe_handle_events_spec p hp k n x s).
    iIntros (r x1) "(%m' & %Hm & H & He)". wp_step. iApply (free_some_error with "He"). wp_steps.
    iExists [], _, old. iFrame "H Hb". iPureIntro. split_and!; [|done|done|done].
    destruct s. by apply steps_one, step_settle.
  - iAssert (user_buffer (Heap lb) old) with "[Hb]" as "Hb"; [iRight; iExists lb; by iFrame|].
    wp_call (libusbp_async_in_pipe_handle_finished_transfer_spec p hp k n x s true true true
               (Heap lb) old (λ _, Hold)).
    iIntros (r x1) "(%s' & [(%Hno & Hb)|(%data & %error & %Hfin & Hb & He)] & H)".
    + destruct Hno as (-> & Hb1 & Hr1 & Hm & _). wp_steps. iApply (free_some_error NULL with "[]"); [by iExists None|].
      wp_steps. iApply (free_some_error NULL with "[]"); [by iExists None|]. cbn [given]. wp_steps.
      iDestruct "Hb" as "[%Hb|(%l & %Hb & Hb)]"; [done|]. injection Hb as <-.
      iExists [], s', old. iFrame "H Hb". iPureIntro.
      split_and!; [|done|done|by intros _ E; rewrite Hb1 E].
      destruct s, s'. cbn in *. subst. by apply steps_one, step_settle.
    + destruct r as [[[e f] v] q]. destruct (first_finished_idle _ _ _ _ _ _ _ _ Hok Hfin) as (ls & Hst & Hdel & Hi).
      destruct Hfin as (Hr & Hd & _).
      cbn [snd is_null] in *. injection Hr as -> -> ->. wp_steps.
      iApply (free_some_error NULL with "[]"); [by iExists None|]. wp_steps.
      iDestruct (error_delivered_some with "He") as "He". iApply (free_some_error with "He").
      cbn [given out]. iDestruct "Hb" as "[%Hb|(%l & %Hb & Hb)]"; [done|]. injection Hb as <-.
      wp_steps. iExists ls, s', (copied data old). iFrame "H". iSplit; [|done]. iPureIntro.
      split_and!; [exact Hst| | |by intros _].
      * rewrite Hdel Nat2Z.id. unfold copied. by rewrite take_app_length.
      * unfold copied. rewrite length_app length_drop. lia.
  - wp_call (libusbp_async_in_pipe_cancel_transfers_spec p hp k n x s).
    iIntros (r x1) "(H & He)". wp_step. iApply (free_some_error with "He"). wp_steps.
    iExists [], _, old. iFrame "H Hb". iPureIntro. split_and!; [|done|done|done].
    destruct s. by apply steps_one, step_endless.
Qed.

Lemma delivered_app ls1 ls2 : delivered (ls1 ++ ls2) = delivered ls1 ++ delivered ls2.
Proof. apply omap_app. Qed.

Lemma stays_idle_app c cs s ls1 s1 ls2 s2 :
  stays_idle c s ls1 s1 →
  (Forall (λ c, c ≠ StartEndlessTransfers) cs → s_endless s1 = false →
   s_endless s2 = false ∧ submitted_slots ls2 = []) →
  Forall (λ c, c ≠ StartEndlessTransfers) (c :: cs) → s_endless s = false →
  s_endless s2 = false ∧ submitted_slots (ls1 ++ ls2) = [].
Proof.
  intros H1 H2 [Hc Hcs]%Forall_cons Hs. destruct (H1 Hc Hs) as [Hs1 E1].
  destruct (H2 Hcs Hs1) as [Hs2 E2]. split; [done|]. unfold submitted_slots in *.
  by rewrite omap_app E1 E2.
Qed.

Lemma run_calls_spec cs p hp k n x s lb old :
  r_size (s_ring s) ≤ Z.of_nat (List.length old) →
  {{ pipe_at p hp k n x s ∗ lb ↦ OChars old }} run_calls p (Heap lb) cs @ x {{ r x',
    ∃ ls s' old', ⟪steps s ls s' ∧ r = delivered ls ∧ List.length old' = List.length old ∧
        (Forall (λ c, c ≠ StartEndlessTransfers) cs → s_endless s = false →
         s_endless s' = false ∧ submitted_slots ls = [])⟫ ∗
      pipe_at p hp k n x' s' ∗ lb ↦ OChars old' }}.
Proof.
  revert x s old. induction cs as [|c cs IH]; intros x s old Hold; iIntros "[H Hb]"; cbn [run_calls].
  { wp_steps. iExists [], s, old. iFrame. iPureIntro. split_and!; [constructor|done|done|done]. }
  wp_step. wp_call (run_call_spec c p hp k n x s lb old Hold).
  iIntros (d x1) "(%ls1 & %s1 & %old1 & %H1 & H & Hb)". destruct H1 as (Hst1 & -> & Hl1 & Hi1). wp_step.
  iApply (wp_wand with "[H Hb]").
  { iApply (IH x1 s1 old1); [|iFrame]. destruct (steps_size _ _ _ Hst1) as [-> _]. lia. }
  iIntros (d2 x2) "(%ls2 & %s2 & %old2 & %H2 & H & Hb)". destruct H2 as (Hst2 & -> & Hl2 & Hi2). wp_steps.
  iExists (ls1 ++ ls2), s2, old2. iFrame. iPureIntro.
  split_and!; [by eapply steps_trans|by rewrite delivered_app|congruence|].
  by eapply stays_idle_app.
Qed.

(** The steps of a pipe leave the other transfers of its handle alone. *)
Lemma steps_others s ls s' l :
  steps s ls s' → l ∉ r_slots (s_ring s) →
  option_Forall2 settles (s_transfers s !! l) (s_transfers s' !! l).
Proof.
  induction 1 as [s|s1 ls1 s2 ls2 s3 H1 _ IH]; intros Hl; [done|].
  assert (H12 : r_slots (s_ring s2) = r_slots (s_ring s1)) by (by destruct H1).
  rewrite H12 in IH. etrans; [|exact (IH Hl)].
  destruct H1 as [b r m i t t' _ Hi _ _ _| |b r m m' Hm|]; cbn [s_transfers s_ring] in *; try done.
  rewrite lookup_insert_ne //. intros ->. apply Hl. by eapply list_elem_of_lookup_2.
Qed.

(** What remains of a pipe: transfers that are still pending. *)
Definition only_pending_left (m m' : gmap loc transfer) : Prop :=
  ∀ l, match m !! l with
       | Some t => ∃ t', m' !! l = Some t' ∧ settles t t'
       | None => ∀ t, m' !! l = Some t → is_pending t = true
       end.

Lemma only_pending_left_refl m : only_pending_left m m.
Proof. intros l. destruct (m !! l) as [t|] eqn:E; [by exists t|]. congruence. Qed.

Lemma session_leaves b size slots m m1 ls s' m' :
  allocated size slots m m1 → steps (State b (Ring slots size 0 0) m1) ls s' →
  freed (r_slots (s_ring s')) (s_transfers s') m' → only_pending_left m m'.
Proof.
  intros (_ & A1 & A2) Hst [F1 F2] l. destruct (steps_size _ _ _ Hst) as [_ Hs]. rewrite Hs in F1, F2.
  cbn [s_ring r_slots] in *. destruct (decide (l ∈ slots)) as [Hl|Hl].
  - destruct (A2 _ Hl) as [-> _]. intros t Ht.
    destruct (F2 _ Hl) as [E|(t' & _ & Hp & E)]; rewrite E in Ht; [done|]. by injection Ht as <-.
  - rewrite (F1 _ Hl) -(A1 _ Hl). pose proof (steps_others _ _ _ l Hst Hl) as H.
    cbn [s_transfers] in H. inversion H; [by eexists|done].
Qed.

Lemma close_fresh_pipe_spec p hp n x :
  {{ fresh_pipe_own p hp n }} libusbp_async_in_pipe_close p @ x {{ r x', ⟪x' = x⟫ }}.
Proof.
  iIntros "(%lp & %H & Hp)". destruct H as (-> & _). unfold libusbp_async_in_pipe_close, fresh_struct.
  wp_steps. unfold async_in_transfer_array_free. wp_steps. by iPureIntro.
Qed.
End client_specs.

(** ** Properties *)

Section properties.
Context `{TR : AsyncTransfers} {LAWS : AsyncTransferLaws TR}.

(** The slots are submitted round robin. *)
Definition round_robin (r : ring) (i n : nat) : list nat :=
  (λ j, (i + j) mod r_count r)%nat <$> seq 0 n.

Lemma round_robin_S r i n :
  (i < r_count r)%nat → round_robin r i (S n) = i :: round_robin r ((i + 1) mod r_count r) n.
Proof.
  intros Hi. unfold round_robin. cbn [seq]. rewrite fmap_cons Nat.add_0_r Nat.mod_small //. f_equal.
  rewrite -fmap_S_seq -list_fmap_compose. apply list_fmap_ext. intros a j _. cbn.
  rewrite Nat.Div0.add_mod_idemp_l. f_equal. lia.
Qed.

Lemma steps_round_robin s ls s' :
  steps s ls s' → state_ok s →
  submitted_slots ls = round_robin (s_ring s) (next_slot (s_ring s)) (List.length (submitted_slots ls)).
Proof.
  induction 1 as [s|s1 ls1 s2 ls2 s3 H1 H2 IH]; intros Hok; [done|].
  pose proof (step_ok _ _ _ H1 Hok) as Hok2. specialize (IH Hok2). destruct Hok as [Hr _].
  unfold submitted_slots in *. rewrite omap_app.
  destruct H1; cbn [omap list_omap app List.length s_ring] in *.
  - rewrite round_robin_S; [|by apply slot_lt]. f_equal. rewrite {1}IH.
    unfold round_robin, next_slot, slot. cbn [push r_queued r_first].
    change (r_count (push r)) with (r_count r). apply list_fmap_ext. intros a j _.
    rewrite !Nat.Div0.add_mod_idemp_l -(Nat.add_assoc _ 1 j) Nat.Div0.add_mod_idemp_l. f_equal. lia.
  - rewrite {1}IH. by rewrite next_slot_pop.
  - exact IH.
  - exact IH.
Qed.

Lemma queue_full r i : ring_wf r → r_queued r = r_count r → (i < r_count r)%nat → i ∈ queue r.
Proof.
  intros Hr Hq Hi. apply elem_of_queue. pose proof Hr as (_ & _ & _ & ? & _).
  exists (((r_count r - r_first r) + i) mod r_count r)%nat. rewrite Hq. split.
  - apply Nat.mod_upper_bound. lia.
  - unfold slot. rewrite Nat.Div0.add_mod_idemp_r.
    rewrite (_ : (_ + _)%nat = (i + 1 * r_count r)%nat); [|lia].
    rewrite Nat.Div0.mod_add. by rewrite Nat.mod_small.
Qed.

(** C1. Whatever an application calls on a pipe, in whatever order, and however the
    transfers behave: the pipe goes through steps of the abstract queue.  The
    transfers are submitted round robin, they are handed to the application in
    the order in which they were submitted (what was in flight before and is
    submitted meanwhile is what was handed out followed by what is in flight
    afterwards), the application reads the bytes of exactly these transfers, and
    the invariant of the pipe holds afterwards. *)
Theorem async_in_pipe_fifo cs p hp k n x s lb old :
  r_size (s_ring s) ≤ Z.of_nat (List.length old) →
  {{ pipe_at p hp k n x s ∗ lb ↦ OChars old }} run_calls p (Heap lb) cs @ x {{ r x',
    ∃ ls s' old',
      ⟪steps s ls s' ∧ r = delivered ls ∧
       queue (s_ring s) ++ submitted_slots ls = finished_slots ls ++ queue (s_ring s') ∧
       submitted_slots ls =
         round_robin (s_ring s) (next_slot (s_ring s)) (List.length (submitted_slots ls)) ∧
       state_ok s'⟫ ∗
      pipe_at p hp k n x' s' ∗ lb ↦ OChars old' }}.
Proof.
  iIntros (Hold) "[H Hb]". iDestruct (pipe_at_ok with "H") as "[%Hok H]".
  iApply (wp_wand with "[H Hb]"); [iApply (run_calls_spec cs p hp k n x s lb old Hold); iFrame|].
  iIntros (r x') "(%ls & %s' & %old' & %H & H & Hb)". destruct H as (Hst & -> & _).
  iExists ls, s', old'. iFrame. iPureIntro.
  split_and!; [done|done|by apply steps_fifo|by eapply steps_round_robin|by eapply steps_ok].
Qed.

(** C2. Handing out a finished transfer.  When nothing is in flight or the first
    transfer in flight is still pending, the application gets nothing ([*finished]
    is false, the other outputs are 0 and NULL) and the pipe does not change.
    Otherwise it gets the first transfer in flight: its bytes at the start of
    the buffer, at most as many as a transfer has, their number, and a copy of its
    error; in the endless mode the next transfer is submitted in the same call,
    so that as many transfers are in flight as before, otherwise one less. *)
Theorem handle_finished_transfer_outcomes p hp k n x s buffer old :
  is_null buffer = false → r_size (s_ring s) ≤ Z.of_nat (List.length old) →
  {{ pipe_at p hp k n x s ∗ user_buffer buffer old }}
    libusbp_async_in_pipe_handle_finished_transfer p true buffer true true @ x
  {{ r x', ∃ s',
     (⟪r = (NULL, Some false, Some 0, Some NULL) ∧
       s_endless s' = s_endless s ∧ s_ring s' = s_ring s ∧ settled (s_transfers s) (s_transfers s') ∧
       (first_in_flight s' = None ∨ ∃ t, first_in_flight s' = Some t ∧ is_pending t = true)⟫ ∗
      user_buffer buffer old ∨
      ∃ data error q ls,
       ⟪r = (NULL, Some true, Some (Z.of_nat (List.length data)), Some q) ∧
        Z.of_nat (List.length data) ≤ r_size (s_ring s) ∧
        steps s (Finishes (r_first (s_ring s)) data error :: ls) s' ∧ finished_slots ls = [] ∧
        r_queued (s_ring s') = (if s_endless s then r_queued (s_ring s)
                                else (r_queued (s_ring s) - 1)%nat)⟫ ∗
       user_buffer buffer (data ++ drop (List.length data) old) ∗
       match error with
       | Some a => ∃ got, ⟪got = a ∨ mem_err got⟫ ∗ err_own q got
       | None => ⟪q = NULL⟫
       end) ∗
     pipe_at p hp k n x' s' }}.
Proof.
  iIntros (Hb Hold) "H". iApply (wp_wand with "[H]").
  { by iApply (libusbp_async_in_pipe_handle_finished_transfer_spec p hp k n x s true true true buffer old). }
  iIntros (r x') "(%s' & H & Hp)". iExists s'. iFrame "Hp".
  iDestruct "H" as "[(%H & H)|(%data & %error & %H & H & He)]".
  - iLeft. by iFrame "H".
  - iRight. destruct r as [[[e f] v] q]. destruct H as (Hr & Hd & _ & ls & Hst & Hf & _ & Hq).
    cbn [snd] in *. injection Hr as -> -> ->. rewrite Hb. cbn [given out].
    destruct error as [a|]; cbn [error_delivered].
    + iDestruct "He" as (q' got) "[%Hgot He]". destruct Hgot as [-> Hgot].
      iExists data, (Some a), q', ls. iFrame "H". iSplit; [done|]. iExists got. by iFrame.
    + iDestruct "He" as %->. iExists data, None, NULL, ls. by iFrame "H".
Qed.

(** C20. [libusbp_async_in_pipe_start_endless_transfers] returns, without an error, and
    then every transfer of the pipe is in flight: the loop submits exactly those
    that were not, in round-robin order, behind the ones already in flight. *)
Theorem start_endless_fills_the_queue p hp k n x s :
  {{ pipe_at p hp k n x s }} libusbp_async_in_pipe_start_endless_transfers p @ x {{ r x',
    ∃ ls s', ⟪r = NULL ∧ steps s ls s' ∧ s_endless s' = true ∧
       queue (s_ring s') = queue (s_ring s) ++ submitted_slots ls ∧
       List.length (submitted_slots ls) = (r_count (s_ring s) - r_queued (s_ring s))%nat ∧
       (∀ i, (i < r_count (s_ring s))%nat → i ∈ queue (s_ring s'))⟫ ∗
      pipe_at p hp k n x' s' }}.
Proof.
  iIntros "H". iDestruct (pipe_at_ok with "H") as "[%Hok H]".
  iApply (wp_wand with "[H]"); [by iApply libusbp_async_in_pipe_start_endless_transfers_spec|].
  iIntros (r x') "(%ls & %s' & %H & H)". destruct H as (-> & Hst & Hf & Hq & He).
  iExists ls, s'. iFrame "H". iPureIntro. pose proof (steps_fifo _ _ _ Hst Hok) as E.
  rewrite Hf in E. cbn [app] in E. pose proof (f_equal List.length E) as El.
  destruct (steps_size _ _ _ Hst) as [_ Hs].
  assert (Hc : r_count (s_ring s') = r_count (s_ring s)) by (unfold r_count; by rewrite Hs).
  rewrite length_app !length_queue Hq Hc in El. split_and!; try done; [lia|].
  intros i Hi. apply queue_full; [by destruct (steps_ok _ _ _ Hst Hok)|done|by rewrite Hc].
Qed.

(** C11. After [libusbp_async_in_pipe_cancel_transfers], as long as the endless
    transfers are not started again, no transfer is submitted any more: what the
    application still gets is what was in flight, in order, and the rest of that
    is what remains in flight. *)
Theorem cancelled_pipe_drains cs p hp k n x s lb old :
  r_size (s_ring s) ≤ Z.of_nat (List.length old) → Forall (λ c, c ≠ StartEndlessTransfers) cs →
  {{ pipe_at p hp k n x s ∗ lb ↦ OChars old }} run_calls p (Heap lb) (CancelTransfers :: cs) @ x
  {{ r x', ∃ ls s' old',
      ⟪steps s ls s' ∧ r = delivered ls ∧ submitted_slots ls = [] ∧
       queue (s_ring s) = finished_slots ls ++ queue (s_ring s') ∧ s_endless s' = false⟫ ∗
      pipe_at p hp k n x' s' ∗ lb ↦ OChars old' }}.
Proof.
  iIntros (Hold Hcs) "[H Hb]". iDestruct (pipe_at_ok with "H") as "[%Hok H]".
  cbn [run_calls run_call]. wp_step. wp_step.
  wp_call (libusbp_async_in_pipe_cancel_transfers_spec p hp k n x s).
  iIntros (e x1) "(H & He)". wp_step. iApply (free_some_error with "He"). wp_steps.
  set (s1 := State false (s_ring s) (s_transfers s)).
  iApply (wp_wand with "[H Hb]"); [iApply (run_calls_spec cs p hp k n x1 s1 lb old Hold); iFrame|].
  iIntros (r x2) "(%ls & %s2 & %old2 & %H & H & Hb)". destruct H as (Hst & -> & _ & Hi).
  destruct (Hi Hcs eq_refl) as [He Hsub]. wp_steps. iExists ls, s2, old2. iFrame. iPureIntro.
  assert (H1 : step s [] s1) by (destruct s; apply step_endless).
  pose proof (steps_step _ _ _ _ _ H1 Hst) as Hst'. cbn [app] in Hst'.
  split_and!; [done|done|done| |done].
  pose proof (steps_fifo _ _ _ Hst' Hok) as E. by rewrite Hsub app_nil_r in E.
Qed.

(** C23. [libusbp_async_in_pipe_allocate_transfers] on a new pipe is atomic: either it
    returns no error and the pipe has [transfer_count] new transfers of the given
    size, none of them in flight, with the invariant of a pipe; or it returns an
    error, the pipe still has no transfers, and every transfer that was created on
    the way was freed again. *)
Theorem allocate_transfers_atomic p hp k n count size m x :
  0 < count → 0 < size →
  {{ fresh_pipe_own p hp n ∗ handle_res hp k ∗ pool k x m }}
    libusbp_async_in_pipe_allocate_transfers p count size @ x
  {{ r x',
     (∃ s, ⟪r = NULL ∧ Z.of_nat (r_count (s_ring s)) = count ∧ r_size (s_ring s) = size ∧
         queue (s_ring s) = [] ∧ s_endless s = false ∧
         (∀ l, l ∉ r_slots (s_ring s) → s_transfers s !! l = m !! l) ∧
         (∀ l, l ∈ r_slots (s_ring s) → m !! l = None ∧
            s_transfers s !! l = Some (Transfer size (Finished [] None)))⟫ ∗
        pipe_at p hp k n x' s) ∨
     (∃ a, ⟪allocation_error a⟫ ∗ err_own r a ∗
        fresh_pipe_own p hp n ∗ handle_res hp k ∗ pool k x' m) }}.
Proof.
  iIntros (Hc Hsz) "H". iApply (wp_wand with "[H]").
  { by iApply (libusbp_async_in_pipe_allocate_transfers_spec p hp k n count size m x Hc Hsz). }
  iIntros (r x') "[(%slots & %m' & %H & H)|H]"; [|by iRight]. iLeft.
  destruct H as (-> & Hlen & _ & H1 & H2). iExists _. iFrame "H". iPureIntro. by split_and!.
Qed.

(** [libusbp_async_in_pipe_close] releases the pipe, its array and every transfer
    of it that is not pending; a pending one is left alone, because the operating
    system may still write to it.  The handle and the transfers of other
    pipes are as before. *)
Theorem close_frees_all_but_pending p hp k n x s :
  {{ pipe_at p hp k n x s }} libusbp_async_in_pipe_close p @ x {{ r x',
    ∃ m', ⟪(∀ l, l ∉ r_slots (s_ring s) → m' !! l = s_transfers s !! l) ∧
           (∀ l t, m' !! l = Some t → l ∈ r_slots (s_ring s) →
              s_transfers s !! l = Some t ∧ is_pending t = true)⟫ ∗
      handle_res hp k ∗ pool k x' m' }}.
Proof.
  iIntros "H". iApply (wp_wand with "[H]"); [by iApply libusbp_async_in_pipe_close_spec|].
  iIntros (r x') "(%m' & %H & H)". destruct H as [H1 H2]. iExists m'. iFrame "H". iPureIntro.
  split; [done|]. intros l t Ht Hl. destruct (H2 l Hl) as [E|(t' & Hm & Hp & E)]; [congruence|].
  rewrite Ht in E. by injection E as ->.
Qed.

(** C3. A whole session on a handle - creating a pipe, allocating its transfers, any
    calls in any order, closing it - never goes wrong, and it accounts for all
    memory: whatever failed on the way, the handle is usable as before, the
    transfers of other pipes of the handle are still there, and of the session's
    own transfers only those are left that were still pending when the pipe was
    closed. *)
Theorem pipe_session_leaves_only_pending hp k n count size cs lb old m x :
  u8 n → 0 < count → 0 < size → size ≤ Z.of_nat (List.length old) →
  {{ handle_res hp k ∗ pool k x m ∗ lb ↦ OChars old }}
    pipe_session hp n count size (Heap lb) cs @ x
  {{ r x', ∃ m' old',
      ⟪only_pending_left m m' ∧ List.length old' = List.length old⟫ ∗
      handle_res hp k ∗ pool k x' m' ∗ lb ↦ OChars old' }}.
Proof.
  iIntros (Hn Hc Hsz Hold) "(Hh & Hm & Hb)". unfold pipe_session. wp_step.
  wp_call (async_in_pipe_create_spec hp k n x Hn).
  iIntros ([e q] x1) "(%Hcalm & Hh & H)". iDestruct (law_calm _ x x1 with "Hm") as "Hm"; [done|].
  iDestruct "H" as "[(%p & %H & Hp)|(%a & %H & He)]"; cbn [fst snd] in *; last first.
  { iDestruct (err_own_not_null with "He") as "[%Hne He]". wp_steps.
    iApply (free_some_error with "[He]"); [iExists (Some a); by iFrame|]. wp_steps.
    iExists m, old. iFrame. iPureIntro. split; [apply only_pending_left_refl|done]. }
  destruct H as [[= -> ->] _]. wp_simpl. change (default NULL (Some p)) with p. wp_step.
  wp_call (libusbp_async_in_pipe_allocate_transfers_spec p hp k n count size m x1 Hc Hsz).
  iIntros (e x2) "[(%slots & %m1 & %H & H)|(%a & %Ha & He & Hp & Hh & Hm)]"; last first.
  { iDestruct (err_own_not_null with "He") as "[%Hne He]". wp_steps.
    iApply (free_some_error with "[He]"); [iExists (Some a); by iFrame|]. wp_steps.
    wp_call (close_fresh_pipe_spec p hp n x2). iIntros ([] ?) "->". wp_steps.
    iExists m, old. iFrame. iPureIntro. split; [apply only_pending_left_refl|done]. }
  destruct H as (-> & Hlen & Hal). wp_step.
  wp_call (run_calls_spec cs p hp k n x2 (State false (Ring slots size 0 0) m1) lb old Hold).
  iIntros (d x3) "(%ls & %s' & %old' & %H & H & Hb)". destruct H as (Hst & -> & Hl' & _). wp_step.
  wp_call (libusbp_async_in_pipe_close_spec p hp k n x3 s').
  iIntros ([] x4) "(%m' & %Hf & Hh & Hm)". wp_steps. iExists m', old'. iFrame. iPureIntro.
  split; [by eapply session_leaves|done].
Qed.

(** [async_in_pipe_create] makes a pipe only for the addresses 0x81 to 0x8F, the
    IN endpoints that exist.  The control endpoint and the OUT endpoints (0 to
    15) get the error that OUT endpoints are not supported, every other byte
    the error about an invalid pipe ID (or one with [LIBUSBP_ERROR_MEMORY]), and
    with an error no pipe is handed out.  A new pipe has no transfers. *)
Theorem async_in_pipe_create_validates hp k n x :
  u8 n →
  {{ handle_res hp k }} async_in_pipe_create hp n true @ x {{ r x', handle_res hp k ∗
    ((∃ lp, ⟪r = (NULL, Some (Heap lp)) ∧ 0x81 ≤ n ≤ 0x8F⟫ ∗ lp ↦ OPipe (fresh_struct hp n)) ∨
     (∃ a, ⟪r.2 = Some NULL ∧
        (0 ≤ n ≤ 15 → errs x x' out_not_supported a) ∧
        (¬ 0 ≤ n ≤ 15 → ¬ 0x81 ≤ n ≤ 0x8F → errs x x' (invalid_pipe_id n) a)⟫ ∗
        err_own r.1 a)) }}.
Proof.
  iIntros (Hu) "H". iApply (wp_wand with "[H]"); [by iApply async_in_pipe_create_spec|].
  iIntros (r x') "(%Hc & Hh & [(%q & %H & (%lp & %H2 & Hp))|(%a & %H & He)])"; iFrame "Hh".
  - iLeft. destruct H as [-> Hex], H2 as (-> & _ & Hin). iExists lp. iFrame. iPureIntro.
    split; [done|]. unfold pipe_id_exists, is_in in *. lia.
  - iRight. iExists a. iFrame. destruct H as (Hr & H1 & H2). iPureIntro. split_and!; [done| |].
    + intros Hn. apply H2; unfold pipe_id_exists, is_in; lia.
    + intros Hn1 Hn2. apply H1. unfold pipe_id_exists. lia.
Qed.

(** An error that is returned before anything is done. *)
Definition misuse_error (r : ptr) (message : string) (x x' : ext) : hProp := err_res r (err_new message) x x'.

Lemma wp_misuse message x :
  no_nul message = true → ⊢ wp (error_create message) x (λ r x', misuse_error r message x x').
Proof. intros Hm. iApply wp_error_create; [done|]. iIntros (r x' _) "He". done. Qed.

Lemma wp_misuse_fresh p hp n message x (K : libusbp_async_in_pipe → M ptr) :
  no_nul message = true → K (fresh_struct hp n) = error_create message →
  fresh_pipe_own p hp n -∗
  wp (if is_null p then error_create "Pipe argument is null." else pp ← load_as as_pipe p; K pp) x
     (λ r x', misuse_error r message x x' ∗ fresh_pipe_own p hp n).
Proof.
  iIntros (Hm HK) "(%lp & %H & Hp)". destruct H as (-> & Hn). wp_steps. rewrite HK.
  iApply wp_error_create; [done|]. iIntros (r x' _) "He". iFrame "He". iExists lp. by iFrame.
Qed.

(** Misuse is reported and changes nothing: a NULL pipe or output pointer,
    allocating transfers twice, no transfers or empty ones, and starting before
    the transfers were allocated. *)
Theorem pipe_misuse_is_rejected p hp k n count size s x :
  ({{ emp }} libusbp_async_in_pipe_allocate_transfers NULL count size @ x {{ r x',
     misuse_error r "Pipe argument is null." x x' }}) ∧
  ({{ pipe_at p hp k n x s }} libusbp_async_in_pipe_allocate_transfers p count size @ x {{ r x',
     misuse_error r "Transfers were already allocated for this pipe." x x' ∗ pipe_at p hp k n x' s }}) ∧
  ({{ fresh_pipe_own p hp n }} libusbp_async_in_pipe_allocate_transfers p 0 size @ x {{ r x',
     misuse_error r "Transfer count cannot be zero." x x' ∗ fresh_pipe_own p hp n }}) ∧
  (count ≠ 0 →
   {{ fresh_pipe_own p hp n }} libusbp_async_in_pipe_allocate_transfers p count 0 @ x {{ r x',
     misuse_error r "Transfer size cannot be zero." x x' ∗ fresh_pipe_own p hp n }}) ∧
  ({{ emp }} libusbp_async_in_pipe_start_endless_transfers NULL @ x {{ r x',
     misuse_error r "Pipe argument is null." x x' }}) ∧
  ({{ fresh_pipe_own p hp n }} libusbp_async_in_pipe_start_endless_transfers p @ x {{ r x',
     misuse_error r "Pipe transfers have not been allocated yet." x x' ∗ fresh_pipe_own p hp n }}) ∧
  ({{ emp }} libusbp_async_in_pipe_has_pending_transfers NULL true @ x {{ r x',
     ⟪r.2 = Some false⟫ ∗ misuse_error r.1 "Pipe argument is null." x x' }}) ∧
  ({{ emp }} libusbp_async_in_pipe_has_pending_transfers p false @ x {{ r x',
     ⟪r.2 = None⟫ ∗ misuse_error r.1 "Boolean output pointer is null." x x' }}) ∧
  ({{ emp }} libusbp_async_in_pipe_handle_finished_transfer NULL true NULL true true @ x {{ r x',
     ∃ e, ⟪r = (e, Some false, Some 0, Some NULL)⟫ ∗ misuse_error e "Pipe argument is null." x x' }}) ∧
  ({{ emp }} libusbp_async_in_pipe_cancel_transfers NULL @ x {{ r x',
     misuse_error r "Pipe argument is null." x x' }}).
Proof.
  split_and!; intros; iIntros "H".
  - unfold libusbp_async_in_pipe_allocate_transfers. cbn [is_null]. by iApply wp_misuse.
  - iDestruct "H" as "(%Hok & Hh & Hm & Hp)". iDestruct (pipe_own_not_null with "Hp") as "[%Hn Hp]".
    unfold libusbp_async_in_pipe_allocate_transfers. wp_steps.
    iApply (pipe_own_load with "Hp"). iIntros (la) "Ha Hclose". iDestruct ("Hclose" with "Ha") as "Hp".
    cbn [pipe_struct pipe_transfer_array]. wp_steps. iApply wp_error_create; [done|].
    iIntros (r x' _) "He". unfold misuse_error. iDestruct "He" as (got) "[He %Hq]".
    iSplitL "He"; [iExists got; by iFrame|]. iSplit; [done|]. iFrame.
    iApply (law_calm with "Hm"). apply quiet_calm, Hq.
  - by iApply (wp_misuse_fresh with "H"); intros.
  - iApply (wp_misuse_fresh with "H"); [done|].
    cbn [fresh_struct pipe_transfer_array is_null negb]. by rewrite (proj2 (Z.eqb_neq count 0)).
  - unfold libusbp_async_in_pipe_start_endless_transfers. cbn [is_null]. by iApply wp_misuse.
  - by iApply (wp_misuse_fresh with "H").
  - unfold libusbp_async_in_pipe_has_pending_transfers. wp_steps. iApply wp_error_create; [done|].
    iIntros (r x' _) "He". wp_steps. by iFrame.
  - unfold libusbp_async_in_pipe_has_pending_transfers. wp_steps. iApply wp_error_create; [done|].
    iIntros (r x' _) "He". wp_steps. by iFrame.
  - unfold libusbp_async_in_pipe_handle_finished_transfer. wp_steps. iApply wp_error_create; [done|].
    iIntros (r x' _) "He". wp_steps. iExists r. by iFrame.
  - unfold libusbp_async_in_pipe_cancel_transfers. cbn [is_null]. by iApply wp_misuse.
Qed.
End properties.
