(* ===== verification/LinuxOS.v ===== *)
(** * LinuxOS: the operating system and libudev as the Linux code sees them

    [LinuxOS] collects the answers of the kernel and of libudev.  An answer can
    depend on everything that happened before (the history of system calls), so
    nothing is assumed to be repeatable; a libudev device object is a snapshot,
    named by an identifier, whose accessors are functions of it.  [LinuxLaws]
    states the documented behaviour the code relies on.  The operations below
    run these answers in the monad: they record the call, set [errno], and
    create or release the block that stands for the object. *)

From S2P Require Import Prelude Memory Logic Errors Results Buffers.
#[local] Set Warnings "-rewrite-rw".

(** The result of a system call: a value, or -1 with an [errno]. *)
Inductive sysret := SysOk (n : Z) | SysErr (e : Z).

(** The fields of [struct usb_device_descriptor] that the library looks at. *)
Record usb_device_descriptor := {
  idVendor : Z;
  idProduct : Z;
  bcdDevice : Z
}.

(** A finished URB: its block and what the kernel writes into it and into its
    buffer. *)
Record completion := {
  c_urb : loc;
  c_status : Z;
  c_actual_length : Z;
  c_error_count : Z;
  c_data : list ascii
}.

Class LinuxOS := {
  os_udev_new : list event → bool;
  os_enumerate_new : list event → bool;
  os_add_match : list event → udev_match → Z;
  os_scan : list event → list udev_match → Z * list string;
  os_device : list event → string → option Z;
  os_syspath : Z → option string;
  os_devtype : Z → option string;
  os_driver : Z → option string;
  os_subsystem : Z → option string;
  os_devnode : Z → option string;
  os_sysattr : string → Z → option string;
  os_property : string → Z → option string;
  os_parent : string → string → Z → option Z;
  os_initialized : Z → bool;
  os_access : list event → string → sysret;
  os_open : list event → string → sysret;
  os_lseek : list event → Z → sysret;
  os_read : list event → Z → Z → sysret;
  os_descriptor : list event → Z → usb_device_descriptor;
  os_control : list event → Z → usbdevfs_ctrltransfer → sysret * list ascii;
  os_bulk : list event → Z → usbdevfs_bulktransfer → sysret * list ascii;
  os_submit : list event → Z → loc → sysret;
  os_reap : list event → Z → completion + Z;
  os_discard : list event → Z → loc → sysret;
  os_strerror : Z → option string
}.

(** Documented behaviour.  libudev knows the syspath of every device object;
    system calls that succeed do not return negative numbers;
    the kernel never returns more data than it was asked for, completes only
    requests that were submitted, reports a status that is 0 or a negated
    [errno], and hands out lengths and counts that are [int]s. *)
Class LinuxLaws (OS : LinuxOS) : Prop := {
  syspath_known id : ∃ s, os_syspath id = Some s;
  descriptor_u16 h fd :
    u16 (idVendor (os_descriptor h fd)) ∧ u16 (idProduct (os_descriptor h fd)) ∧
    u16 (bcdDevice (os_descriptor h fd));
  access_result h path n : os_access h path = SysOk n → n = 0;
  lseek_result h fd n : os_lseek h fd = SysOk n → 0 ≤ n;
  read_result h fd size n : os_read h fd size = SysOk n → 0 ≤ n;
  submit_result h fd l n : os_submit h fd l = SysOk n → 0 ≤ n;
  discard_result h fd l n : os_discard h fd l = SysOk n → 0 ≤ n;
  control_length h fd t : 0 ≤ ctrl_wLength t →
    Z.of_nat (List.length (os_control h fd t).2) ≤ ctrl_wLength t;
  control_result h fd t n : 0 ≤ ctrl_wLength t →
    (os_control h fd t).1 = SysOk n → 0 ≤ n ≤ ctrl_wLength t;
  bulk_length h fd t : 0 ≤ bulk_len t →
    Z.of_nat (List.length (os_bulk h fd t).2) ≤ bulk_len t;
  bulk_result h fd t n : 0 ≤ bulk_len t →
    (os_bulk h fd t).1 = SysOk n → 0 ≤ n ≤ bulk_len t;
  reap_outstanding h fd c : os_reap h fd = inl c →
    ∃ len, outstanding h fd !! c_urb c = Some len ∧
           (0 ≤ len → Z.of_nat (List.length (c_data c)) ≤ len);
  reap_status h fd c : os_reap h fd = inl c → - 4095 ≤ c_status c ≤ 0;
  reap_ints h fd c : os_reap h fd = inl c →
    int_range (c_actual_length c) ∧ int_range (c_error_count c)
}.

Section os.
Context `{OS : LinuxOS}.

(** ** libudev *)

Definition is_udev (o : obj) : bool := match o with OUdev => true | _ => false end.
Definition is_udev_enumerate (o : obj) : bool :=
  match o with OUdevEnumerate _ _ => true | _ => false end.
Definition is_udev_device (o : obj) : bool :=
  match o with OUdevDevice _ => true | _ => false end.
Definition as_enumerate (o : obj) : option (list udev_match * list string) :=
  match o with OUdevEnumerate fs es => Some (fs, es) | _ => None end.
Definition as_udev (o : obj) : option unit :=
  match o with OUdev => Some tt | _ => None end.
Definition as_udev_device (o : obj) : option Z :=
  match o with OUdevDevice id => Some id | _ => None end.

Definition udev_new : M ptr :=
  h ← get_trace;
  log_event EvUdevNew;;
  if os_udev_new h then new_block OUdev else mret NULL.

Definition udev_unref (p : ptr) : M unit := release is_udev p.

Definition udev_enumerate_new (udev : ptr) : M ptr :=
  load_as as_udev udev;;
  h ← get_trace;
  log_event EvUdevEnumerateNew;;
  if os_enumerate_new h then new_block (OUdevEnumerate [] []) else mret NULL.

Definition udev_enumerate_unref (p : ptr) : M unit := release is_udev_enumerate p.

Definition udev_enumerate_add_match (enumerate : ptr) (m : udev_match) : M Z :=
  '(filters, entries) ← load_as as_enumerate enumerate;
  h ← get_trace;
  log_event (EvUdevAddMatch m);;
  when (os_add_match h m =? 0) (store enumerate (OUdevEnumerate (filters ++ [m]) entries));;
  mret (os_add_match h m).

Definition udev_enumerate_add_match_subsystem (enumerate : ptr) (subsystem : string) : M Z :=
  udev_enumerate_add_match enumerate (MatchSubsystem subsystem).

(** The block and the identifier of a device object, which may be the parent
    that another one keeps a reference to. *)
Definition udev_device_deref (dev : ptr) : M (loc * Z) :=
  match dev with
  | ParentOf l id => load_as as_udev_device (Heap l);; mret (l, id)
  | Heap l => id ← load_as as_udev_device dev; mret (l, id)
  | NULL => stuck NullPointer
  | _ => stuck WildPointer
  end.

Definition udev_enumerate_add_match_parent (enumerate parent : ptr) : M Z :=
  '(_, id) ← udev_device_deref parent;
  udev_enumerate_add_match enumerate (MatchParent id).

Definition udev_enumerate_scan_devices (enumerate : ptr) : M Z :=
  '(filters, _) ← load_as as_enumerate enumerate;
  h ← get_trace;
  log_event (EvUdevScan filters);;
  store enumerate (OUdevEnumerate filters (os_scan h filters).2);;
  mret (os_scan h filters).1.

(** The names of the entries of a scanned list. *)
Definition udev_enumerate_entries (enumerate : ptr) : M (list string) :=
  '(_, entries) ← load_as as_enumerate enumerate;
  mret entries.

Definition udev_device_new_from_syspath (udev syspath : ptr) : M ptr :=
  load_as as_udev udev;;
  path ← read_cstr syspath;
  h ← get_trace;
  log_event (EvUdevFromSyspath path);;
  match os_device h path with
  | Some id => new_block (OUdevDevice id)
  | None => mret NULL
  end.

Definition udev_device_unref (p : ptr) : M unit := release is_udev_device p.

(** A string that belongs to the device object, or NULL. *)
Definition udev_device_string (f : Z → option string) (dev : ptr) : M ptr :=
  '(l, id) ← udev_device_deref dev;
  match f id with
  | Some s => mret (Owned l (until_nul s))
  | None => mret NULL
  end.

Definition udev_device_get_syspath : ptr → M ptr := udev_device_string os_syspath.
Definition udev_device_get_devtype : ptr → M ptr := udev_device_string os_devtype.
Definition udev_device_get_driver : ptr → M ptr := udev_device_string os_driver.
Definition udev_device_get_subsystem : ptr → M ptr := udev_device_string os_subsystem.
Definition udev_device_get_devnode : ptr → M ptr := udev_device_string os_devnode.
Definition udev_device_get_sysattr_value (dev : ptr) (name : string) : M ptr :=
  udev_device_string (os_sysattr name) dev.
Definition udev_device_get_property_value (dev : ptr) (name : string) : M ptr :=
  udev_device_string (os_property name) dev.

Definition udev_device_get_parent_with_subsystem_devtype
    (dev : ptr) (subsystem devtype : string) : M ptr :=
  '(l, id) ← udev_device_deref dev;
  match os_parent subsystem devtype id with
  | Some id' => mret (ParentOf l id')
  | None => mret NULL
  end.

Definition udev_device_get_is_initialized (dev : ptr) : M bool :=
  '(_, id) ← udev_device_deref dev;
  mret (os_initialized id).

(** ** Files *)

(** The C result of a system call. *)
Definition sys_return (r : sysret) : M Z :=
  match r with
  | SysOk n => mret n
  | SysErr e => set_errno e;; mret (-1)
  end.

Definition access (filename : ptr) : M Z :=
  path ← read_cstr filename;
  h ← get_trace;
  log_event (EvAccess path);;
  sys_return (os_access h path).

(** An open descriptor is a block, and its number is the block's. *)
Definition fd_block (fd : Z) : ptr :=
  match fd with Z.pos l => Heap l | _ => NULL end.

Definition is_fd (o : obj) : bool := match o with OFd => true | _ => false end.
Definition as_fd (o : obj) : option unit := match o with OFd => Some tt | _ => None end.

Definition open (filename : ptr) : M Z :=
  path ← read_cstr filename;
  h ← get_trace;
  match os_open h path with
  | SysOk _ =>
      log_event (EvOpen path true);;
      p ← new_block OFd;
      mret (match p with Heap l => Z.pos l | _ => -1 end)
  | SysErr e =>
      log_event (EvOpen path false);;
      set_errno e;;
      mret (-1)
  end.

(** Using a descriptor that is not open is [Stuck], like a wild pointer. *)
Definition check_fd (fd : Z) : M unit := load_as as_fd (fd_block fd).

Definition close (fd : Z) : M unit :=
  log_event (EvClose fd);;
  release is_fd (fd_block fd).

(** [lseek(fd, 0, SEEK_SET)]. *)
Definition lseek (fd : Z) : M Z :=
  check_fd fd;;
  h ← get_trace;
  log_event (EvLseek fd);;
  sys_return (os_lseek h fd).

(** [read(fd, &desc, size)]: the number of bytes read and what a complete
    descriptor holds. *)
Definition read_descriptor (fd size : Z) : M (Z * usb_device_descriptor) :=
  check_fd fd;;
  h ← get_trace;
  log_event (EvRead fd size);;
  n ← sys_return (os_read h fd size);
  mret (n, os_descriptor h fd).

(** [ioctl(fd, USBDEVFS_CONTROL, &transfer)]: bit 7 of the request type is the
    direction. *)
Definition ioctl_control (fd : Z) (t : usbdevfs_ctrltransfer) : M Z :=
  check_fd fd;;
  h ← get_trace;
  if Z.testbit (ctrl_bRequestType t) 7 then
    copy_to_user (ctrl_data t) (os_control h fd t).2;;
    log_event (EvControl fd t []);;
    sys_return (os_control h fd t).1
  else
    sent ← copy_from_user (ctrl_data t) (ctrl_wLength t);
    log_event (EvControl fd t sent);;
    sys_return (os_control h fd t).1.

(** [ioctl(fd, USBDEVFS_BULK, &transfer)]: bit 7 of the endpoint is the
    direction. *)
Definition ioctl_bulk (fd : Z) (t : usbdevfs_bulktransfer) : M Z :=
  check_fd fd;;
  h ← get_trace;
  if Z.testbit (bulk_ep t) 7 then
    copy_to_user (bulk_data t) (os_bulk h fd t).2;;
    log_event (EvBulk fd t []);;
    sys_return (os_bulk h fd t).1
  else
    sent ← copy_from_user (bulk_data t) (bulk_len t);
    log_event (EvBulk fd t sent);;
    sys_return (os_bulk h fd t).1.

(** ** URBs

    The URB is the first member of [async_in_transfer], so a pointer to the one
    is a pointer to the other. *)

Definition ioctl_submiturb (fd : Z) (urb : ptr) : M Z :=
  check_fd fd;;
  t ← load_as as_transfer urb;
  h ← get_trace;
  match urb with
  | Heap l =>
      let u := at_urb t in
      let r := os_submit h fd l in
      log_event (EvSubmit fd l (urb_endpoint u) (urb_buffer_length u) (urb_buffer u)
                   (match r with SysOk _ => true | SysErr _ => false end));;
      sys_return r
  | _ => stuck WildPointer
  end.

(** What the kernel writes into the transfer that [c] completes. *)
Definition complete_urb (t : async_in_transfer) (c : completion) : async_in_transfer :=
  let u := at_urb t in
  {| at_urb := {| urb_type := urb_type u; urb_endpoint := urb_endpoint u;
                  urb_status := c_status c; urb_buffer := urb_buffer u;
                  urb_buffer_length := urb_buffer_length u;
                  urb_actual_length := c_actual_length c;
                  urb_error_count := c_error_count c;
                  urb_usercontext := urb_usercontext u |};
     at_pending := at_pending t; at_error := at_error t; at_fd := at_fd t |}.

(** [ioctl(fd, USBDEVFS_REAPURBNDELAY, &urb)]: the result and the value of
    [urb]. *)
Definition ioctl_reapurbndelay (fd : Z) : M (Z * ptr) :=
  check_fd fd;;
  h ← get_trace;
  match os_reap h fd with
  | inl c =>
      t ← load_as as_transfer (Heap (c_urb c));
      write_chars (urb_buffer (at_urb t)) 0 (Some <$> c_data c);;
      store (Heap (c_urb c)) (OTransfer (complete_urb t c));;
      log_event (EvReap fd (Some (c_urb c)));;
      mret (0, Heap (c_urb c))
  | inr e =>
      log_event (EvReap fd None);;
      set_errno e;;
      mret (-1, NULL)
  end.

Definition ioctl_discardurb (fd : Z) (urb : ptr) : M Z :=
  check_fd fd;;
  h ← get_trace;
  match urb with
  | Heap l =>
      log_event (EvDiscard fd l);;
      sys_return (os_discard h fd l)
  | _ => stuck WildPointer
  end.

(** [strerror_r(code, buffer, sizeof(buffer) - 1)]: the text when it returns 0. *)
Definition strerror_r (code : Z) : option string := until_nul <$> os_strerror code.
End os.

(** ** Rules *)

Section os_rules.
Context `{OS : LinuxOS}.
Implicit Types (x : ext) (l : loc).

(** [p] refers to the device [id]; [did] is the device of the block [l] that
    keeps it alive. *)
Definition device_ref (p : ptr) (l : loc) (did id : Z) : Prop :=
  (p = Heap l ∧ did = id) ∨ p = ParentOf l id.

Lemma wp_udev_device_deref p l did id x Q :
  device_ref p l did id →
  l ↦ OUdevDevice did -∗ (l ↦ OUdevDevice did -∗ Q (l, id) x) -∗
  wp (udev_device_deref p) x Q.
Proof.
  iIntros ([[-> ->]| ->]) "Hl HQ"; unfold udev_device_deref; wp_steps; by iApply "HQ".
Qed.

(** What an accessor returns. *)
Definition owned_string (l : loc) (o : option string) : ptr :=
  match o with Some s => Owned l (until_nul s) | None => NULL end.

Lemma wp_udev_device_string f p l did id x Q :
  device_ref p l did id →
  l ↦ OUdevDevice did -∗ (l ↦ OUdevDevice did -∗ Q (owned_string l (f id)) x) -∗
  wp (udev_device_string f p) x Q.
Proof.
  iIntros (Hp) "Hl HQ". unfold udev_device_string. wp_step.
  iApply (wp_udev_device_deref with "Hl"); [done|]. iIntros "Hl".
  destruct (f id); wp_steps; by iApply "HQ".
Qed.

Lemma reads_owned_string l o s : reads (l ↦ o)%I (Owned l (until_nul s)) (until_nul s).
Proof. rewrite -{2}(until_nul_id (until_nul s)); [apply reads_owned|apply until_nul_no_nul]. Qed.

Lemma wp_sys_return r x Q :
  match r with
  | SysOk n => Q n x
  | SysErr e => Q (-1) (Ext (x_trace x) e (x_oom x))
  end ⊢ wp (sys_return r) x Q.
Proof.
  iIntros "H". destruct r; unfold sys_return; wp_steps; done.
Qed.

(** An open descriptor. *)
Definition fd_own (fd : Z) : hProp := (∃ l, ⟪fd = Z.pos l⟫ ∗ l ↦ OFd)%I.

Lemma wp_check_fd fd x Q :
  fd_own fd -∗ (fd_own fd -∗ Q tt x) -∗ wp (check_fd fd) x Q.
Proof.
  iIntros "(%l & -> & Hl) HQ". unfold check_fd, fd_block. wp_steps.
  iApply "HQ". iExists l. by iFrame.
Qed.
End os_rules.

(** ** An example machine

    One computer with a composite USB device (two interfaces, the second one a
    serial port), a second device without a serial number, and a kernel that
    completes every URB with the bytes "ok", or as cancelled when it was
    discarded. *)

Module Example_machine.
Local Open Scope string_scope.
Local Open Scope Z_scope.

Definition devices : list (string * Z) :=
  [("/sys/usb1/1-1", 1); ("/sys/usb1/1-1/1-1:1.0", 2); ("/sys/usb1/1-1/1-1:1.2", 3);
   ("/sys/usb1/1-2", 4); ("/sys/usb1/1-1/1-1:1.2/ttyACM0", 5)].

Fixpoint assoc {A B} `{EqDecision A} (k : A) (kvs : list (A * B)) : option B :=
  match kvs with
  | [] => None
  | (k', v) :: kvs => if decide (k = k') then Some v else assoc k kvs
  end.

Definition lookup_path (path : string) : option Z := assoc path devices.
Definition path_of (id : Z) : string :=
  default "/sys/none" (assoc id ((λ d, (d.2, d.1)) <$> devices)).

Definition discarded (h : list event) (l : loc) : bool :=
  existsb (λ ev, match ev with EvDiscard _ l' => bool_decide (l' = l) | _ => false end) h.

Definition reap (h : list event) (fd : Z) : completion + Z :=
  match map_to_list (outstanding h fd) with
  | (l, len) :: _ =>
      let data := if discarded h l then [] else take (Z.to_nat len) ["o"%char; "k"%char] in
      inl {| c_urb := l; c_status := if discarded h l then -2 else 0;
             c_actual_length := Z.of_nat (List.length data);
             c_error_count := 0; c_data := data |}
  | [] => inr 11
  end.

#[export] Instance machine : LinuxOS := {|
  os_udev_new h := true;
  os_enumerate_new h := true;
  os_add_match h m := 0;
  os_scan h ms := (0, match ms with
                      | [MatchSubsystem _] => ["/sys/usb1/1-1"; "/sys/usb1/1-1/1-1:1.0";
                                               "/sys/usb1/1-1/1-1:1.2"; "/sys/usb1/1-2"]
                      | _ => ["/sys/usb1/1-1/1-1:1.2/ttyACM0"]
                      end);
  os_device h path := lookup_path path;
  os_syspath id := Some (path_of id);
  os_devtype id := if ((id =? 1) || (id =? 4))%Z then Some "usb_device"
                   else if id =? 5 then None else Some "usb_interface";
  os_driver id := if id =? 3 then Some "cdc_acm" else None;
  os_subsystem id := Some (if id =? 5 then "tty" else "usb");
  os_devnode id := if (id =? 1) || (id =? 4) then Some "/dev/bus/usb/001/007" else None;
  os_sysattr name id :=
    assoc (id, name) [((1, "idVendor"), "1ffb"); ((1, "idProduct"), "da01"); ((1, "bcdDevice"), "0111");
                      ((1, "serial"), "00012345");
                      ((2, "bInterfaceNumber"), "00"); ((3, "bInterfaceNumber"), "02");
                      ((4, "idVendor"), "1ffb"); ((4, "idProduct"), "0101"); ((4, "bcdDevice"), "0100")];
  os_property name id := if id =? 5 then Some "/dev/ttyACM0" else None;
  os_parent subsystem devtype id := if (id =? 2) || (id =? 3) || (id =? 5) then Some 1 else None;
  os_initialized id := true;
  os_access h path := SysOk 0;
  os_open h path := SysOk 3;
  os_lseek h fd := SysOk 0;
  os_read h fd size := SysOk 18;
  os_descriptor h fd := {| idVendor := 0x1ffb; idProduct := 0xda01; bcdDevice := 0x0111 |};
  os_control h fd t := (SysOk 0, []);
  os_bulk h fd t :=
    (if bulk_timeout t =? 1 then (SysErr 110, []) else
     if (2 <=? bulk_len t) && Z.testbit (bulk_ep t) 7 then (SysOk 2, ["o"%char; "k"%char])
     else (SysOk 0, []));
  os_submit h fd l := SysOk 0;
  os_reap := reap;
  os_discard h fd l := SysOk 0;
  os_strerror n := if n =? 13 then Some "Permission denied" else None
|}.

Lemma machine_reap h fd c :
  reap h fd = inl c →
  ∃ len, outstanding h fd !! c_urb c = Some len ∧
    (0 ≤ len → Z.of_nat (List.length (c_data c)) ≤ len) ∧
    (List.length (c_data c) ≤ 2)%nat ∧
    - 4095 ≤ c_status c ≤ 0 ∧ c_actual_length c = Z.of_nat (List.length (c_data c)) ∧
    c_error_count c = 0.
Proof.
  unfold reap. destruct (map_to_list _) as [|[l len] rest] eqn:E; [done|]. intros [= <-].
  exists len. cbn. split_and!.
  - apply elem_of_map_to_list. rewrite E. by left.
  - intros. destruct (discarded h l); cbn; [lia|]. rewrite length_take. cbn. lia.
  - destruct (discarded h l); cbn; [lia|]. rewrite length_take. cbn. lia.
  - destruct (discarded h l); lia.
  - destruct (discarded h l); lia.
  - done.
  - done.
Qed.

#[export] Instance machine_laws : LinuxLaws machine.
Proof.
  split.
  - by eexists.
  - intros h fd. cbn. unfold u16. lia.
  - by intros h path n [= <-].
  - intros h fd n [= <-]. lia.
  - intros h fd size n [= <-]. lia.
  - intros h fd l n [= <-]. lia.
  - intros h fd l n [= <-]. lia.
  - intros h fd t Ht. cbn. lia.
  - intros h fd t n Ht [= <-]. cbn. lia.
  - intros h fd t Ht. cbn. repeat case_match; cbn; lia.
  - intros h fd t n Ht. cbn. repeat case_match; cbn; intros; simplify_eq; lia.
  - intros h fd c (len & Hl & Hd & _)%machine_reap. by exists len.
  - intros h fd c (len & Hl & Hd & _ & Hs & _)%machine_reap. done.
  - intros h fd c (len & Hl & Hd & Hn & Hs & -> & ->)%machine_reap.
    unfold int_range. lia.
Qed.
End Example_machine.
