(* ===== verification/ErrnoLinux.v ===== *)
(** * ErrnoLinux: errors from the operating system (src/src/linux/error_linux.c)

    Conversion of [errno] values, of URB statuses and of libudev results into
    error objects, and the table of codes and messages that it implements. *)

From S2P Require Import Prelude Memory Logic Format Errors Results LinuxOS.
#[local] Set Warnings "-rewrite-rw".

Definition ENOENT : Z := 2.
Definition EAGAIN : Z := 11.
Definition EACCES : Z := 13.
Definition ENODEV : Z := 19.
Definition EINVAL : Z := 22.
Definition EPIPE : Z := 32.
Definition ETIME : Z := 62.
Definition EPROTO : Z := 71.
Definition EOVERFLOW : Z := 75.
Definition EILSEQ : Z := 84.
Definition ESHUTDOWN : Z := 108.
Definition ETIMEDOUT : Z := 110.

Definition INT_MIN : Z := -2147483648.

Section code.
Context `{OS : LinuxOS}.

(** The [switch] of [error_create_errno]: the error and
    [skip_standard_message]. *)
Definition error_create_errno_switch (error_code : Z) (error : ptr) : M (ptr * bool) :=
  if error_code =? EACCES then
    error ← error_add_code error LIBUSBP_ERROR_ACCESS_DENIED;
    mret (error, false)
  else if error_code =? ENOMEM then
    error ← error_add_code error LIBUSBP_ERROR_MEMORY;
    mret (error, false)
  else if error_code =? EPIPE then
    error ← error_add error "The request was invalid or there was an I/O problem.";
    error ← error_add_code error LIBUSBP_ERROR_STALL;
    error ← error_add_code error LIBUSBP_ERROR_DEVICE_DISCONNECTED;
    mret (error, true)
  else if (error_code =? ENODEV) || (error_code =? ESHUTDOWN) then
    error ← error_add error "The device was removed.";
    error ← error_add_code error LIBUSBP_ERROR_DEVICE_DISCONNECTED;
    mret (error, true)
  else if (error_code =? EPROTO) || (error_code =? ETIME) then
    error ← error_add_code error LIBUSBP_ERROR_DEVICE_DISCONNECTED;
    mret (error, false)
  else if error_code =? ETIMEDOUT then
    error ← error_add error "The operation timed out.";
    error ← error_add_code error LIBUSBP_ERROR_TIMEOUT;
    mret (error, true)
  else if error_code =? EOVERFLOW then
    error ← error_add error "The transfer overflowed.";
    mret (error, true)
  else if error_code =? EILSEQ then
    error ← error_add error "Illegal byte sequence: the device may have been disconnected or the request may have been cancelled.";
    error ← error_add_code error LIBUSBP_ERROR_DEVICE_DISCONNECTED;
    error ← error_add_code error LIBUSBP_ERROR_CANCELLED;
    mret (error, true)
  else mret (error, false).

(** [text] is what the format and its arguments render to. *)
Definition error_create_errno (text : string) : M ptr :=
  error_code ← get_errno;
  error ← error_create ("Error code " +:+ fmt_d error_code +:+ ".");
  '(error, skip_standard_message) ← error_create_errno_switch error_code error;
  error ← (if negb skip_standard_message then
             match strerror_r error_code with
             | Some buffer => error_add error (buffer +:+ ".")
             | None => mret error
             end
           else mret error);
  error_add_v error (Some text).

Definition error_from_urb_status (urb : usbdevfs_urb) : M ptr :=
  if urb_status urb =? INT_MIN then stuck SignedOverflow else
  let error_code := - urb_status urb in
  if error_code =? 0 then mret NULL
  else if error_code =? ENOENT then
    error ← error_create ("Error code " +:+ fmt_d error_code +:+ ".");
    error ← error_add error "The operation was cancelled.";
    error_add_code error LIBUSBP_ERROR_CANCELLED
  else
    set_errno error_code;;
    error_create_errno "".

Definition error_create_udev (error_code : Z) (text : string) : M ptr :=
  error ← error_create ("Error from libudev: " +:+ fmt_d error_code +:+ ".");
  error_add_v error (Some text).

(** ** The table *)

(** Codes and replacement message of an [errno]. *)
Definition errno_table (n : Z) : list Z * option string :=
  if n =? EACCES then ([LIBUSBP_ERROR_ACCESS_DENIED], None)
  else if n =? ENOMEM then ([LIBUSBP_ERROR_MEMORY], None)
  else if n =? EPIPE then
    ([LIBUSBP_ERROR_STALL; LIBUSBP_ERROR_DEVICE_DISCONNECTED],
     Some "The request was invalid or there was an I/O problem.")
  else if n =? ENODEV then ([LIBUSBP_ERROR_DEVICE_DISCONNECTED], Some "The device was removed.")
  else if n =? ESHUTDOWN then ([LIBUSBP_ERROR_DEVICE_DISCONNECTED], Some "The device was removed.")
  else if n =? EPROTO then ([LIBUSBP_ERROR_DEVICE_DISCONNECTED], None)
  else if n =? ETIME then ([LIBUSBP_ERROR_DEVICE_DISCONNECTED], None)
  else if n =? ETIMEDOUT then ([LIBUSBP_ERROR_TIMEOUT], Some "The operation timed out.")
  else if n =? EOVERFLOW then ([], Some "The transfer overflowed.")
  else if n =? EILSEQ then
    ([LIBUSBP_ERROR_DEVICE_DISCONNECTED; LIBUSBP_ERROR_CANCELLED],
     Some "Illegal byte sequence: the device may have been disconnected or the request may have been cancelled.")
  else ([], None)%string.

(** The effect of one row of the table on an error without codes. *)
Definition errno_row (n : Z) (e : aerr) : aerr :=
  let e := match (errno_table n).2 with Some text => err_add e text | None => e end in
  AErr (msg e) (codes e ++ (errno_table n).1).

Definition has_replacement (n : Z) : bool :=
  match (errno_table n).2 with Some _ => true | None => false end.

Definition errno_base (n : Z) : aerr := err_new ("Error code " +:+ fmt_d n +:+ ".").

(** The error for an [errno]: the code, then the replacement message or what the
    system says, then the caller's context. *)
Definition errno_error (n : Z) (text : string) : aerr :=
  err_add (match (errno_table n).2, strerror_r n with
           | None, Some t => err_add (errno_row n (errno_base n)) (t +:+ ".")
           | _, _ => errno_row n (errno_base n)
           end) text.

(** The error for the status of a URB; [None] when it is 0. *)
Definition urb_status_error (status : Z) : option aerr :=
  if - status =? 0 then None
  else if - status =? ENOENT then
    Some (err_code (err_add (err_new ("Error code " +:+ fmt_d (- status) +:+ "."))
                            "The operation was cancelled.") LIBUSBP_ERROR_CANCELLED)
  else Some (errno_error (- status) "").

Definition udev_error (n : Z) (text : string) : aerr :=
  err_add (err_new ("Error from libudev: " +:+ fmt_d n +:+ ".")) text.

(** ** Specifications *)

Lemma strerror_no_nul n t : strerror_r n = Some t → no_nul t = true.
Proof.
  unfold strerror_r. destruct (os_strerror n); [|done].
  intros [= <-]. apply until_nul_no_nul.
Qed.

Lemma errno_switch_spec n p e x0 x :
  {{ err_res p e x0 x }} error_create_errno_switch n p @ x {{ r x',
    err_res r.1 (errno_row n e) x0 x' ∗ ⟪r.2 = has_replacement n⟫ }}.
Proof.
  destruct e as [m cs]. iIntros "H".
  unfold error_create_errno_switch, errno_row, has_replacement, errno_table.
  repeat match goal with
         | |- context [n =? ?c] => destruct (n =? c); cbn [orb fst snd]
         end; err_chain; rewrite /err_code /= -?app_assoc ?app_nil_r; iFrame; try done.
Qed.

Lemma error_create_errno_spec text x :
  no_nul text = true →
  {{ emp }} error_create_errno text @ x {{ r x', err_res r (errno_error (x_errno x) text) x x' }}.
Proof.
  iIntros (Ht) "_". unfold error_create_errno. wp_steps. set (n := x_errno x).
  iApply wp_error_create; [by rewrite !no_nul_app no_nul_fmt_d|]. iIntros (r x1 _) "H".
  wp_step. wp_call (errno_switch_spec n r _ x x1). iIntros ([r' skip] x2) "[H %Hs]".
  cbn [snd] in Hs. subst skip. cbn [fst]. wp_simpl.
  fold (errno_base n). unfold errno_error, has_replacement. destruct (errno_table n).2 as [t|]; cbn [negb].
  { wp_steps. by iApply error_add_res. }
  destruct (strerror_r n) as [t|] eqn:E; wp_steps; [|by iApply error_add_res].
  apply strerror_no_nul in E.
  iApply (wp_error_add with "H"); [by rewrite no_nul_app E|]. iIntros (r2 x3 _) "H".
  by iApply error_add_res.
Qed.

Lemma error_from_urb_status_spec u x :
  urb_status u ≠ INT_MIN →
  {{ emp }} error_from_urb_status u @ x {{ r x',
    match urb_status_error (urb_status u) with
    | None => ⟪r = NULL ∧ quiet x x'⟫
    | Some e => err_res r e x x'
    end }}.
Proof.
  iIntros (Hi) "_". unfold error_from_urb_status, urb_status_error.
  apply Z.eqb_neq in Hi. rewrite Hi.
  destruct (- urb_status u =? 0); [wp_steps; by iPureIntro|].
  destruct (Z.eqb_spec (- urb_status u) ENOENT) as [->|]; [err_chain; done|].
  wp_steps. wp_call (error_create_errno_spec "" _ eq_refl). iIntros (r x') "H". cbn [x_errno].
  iDestruct "H" as "(%got & H & %He)". iExists got. by iFrame.
Qed.

Lemma error_create_udev_spec n text x :
  no_nul text = true →
  {{ emp }} error_create_udev n text @ x {{ r x', err_res r (udev_error n text) x x' }}.
Proof.
  iIntros (Ht) "_". unfold error_create_udev. wp_steps.
  iApply wp_error_create; [by rewrite !no_nul_app no_nul_fmt_d|]. iIntros (r x1 _) "H".
  wp_steps. by iApply error_add_res.
Qed.

(** As rules. *)
Lemma wp_error_create_errno text x Q :
  no_nul text = true →
  (∀ r x', ⌜is_null r = false⌝ → err_res r (errno_error (x_errno x) text) x x' -∗ Q r x') ⊢
  wp (error_create_errno text) x Q.
Proof. iIntros (Hs) "HQ". iApply (wp_err_res with "[] HQ"). by iApply error_create_errno_spec. Qed.

Lemma wp_error_create_udev n text x Q :
  no_nul text = true →
  (∀ r x', ⌜is_null r = false⌝ → err_res r (udev_error n text) x x' -∗ Q r x') ⊢
  wp (error_create_udev n text) x Q.
Proof. iIntros (Hs) "HQ". iApply (wp_err_res with "[] HQ"). by iApply error_create_udev_spec. Qed.

Lemma codes_errno_error n text : codes (errno_error n text) = (errno_table n).1.
Proof.
  unfold errno_error, errno_row, errno_base.
  destruct (errno_table n) as [cs [t|]], (strerror_r n); reflexivity.
Qed.

(** The explanation in the message of an [errno]. *)
Definition errno_text (n : Z) : string :=
  match (errno_table n).2, strerror_r n with
  | Some t, _ => t
  | None, Some t => rendered (t +:+ ".")
  | None, None => ""
  end.

Lemma rendered_short s : slen s ≤ INT_MAX → rendered s = s.
Proof. intros H. unfold rendered. by apply Z.leb_le in H as ->. Qed.

Lemma msg_errno_base n : msg (errno_base n) = "Error code " +:+ fmt_d n +:+ ".".
Proof.
  unfold errno_base, err_new, err_add. cbn [msg blank join]. 
  rewrite rendered_short; [done|]. rewrite !slen_app. pose proof (slen_fmt_d n).
  change (slen "Error code ") with 11. change (slen ".") with 1. unfold INT_MAX. lia.
Qed.

Lemma msg_errno_error n text :
  msg (errno_error n text) =
  join (rendered text) (join (errno_text n) ("Error code " +:+ fmt_d n +:+ ".")).
Proof.
  unfold errno_error, errno_text, errno_row, err_add. rewrite -msg_errno_base.
  destruct (errno_table n).2 as [t|] eqn:Et.
  - cbn [msg]. rewrite (rendered_short t); [done|]. revert Et. unfold errno_table.
    repeat case_match; cbn [snd]; intros [= <-]; vm_compute; congruence.
  - destruct (strerror_r n); [reflexivity|]. by rewrite join_empty_l.
Qed.

(** ** Properties *)

(** What an application learns from an [errno], on every value of it: the
    error has exactly the codes of the table ([EACCES]: access denied, [ENOMEM]:
    memory, [EPIPE]: stall and disconnected, [ENODEV], [ESHUTDOWN], [EPROTO],
    [ETIME]: disconnected, [ETIMEDOUT]: timeout, [EILSEQ]: disconnected and
    cancelled, anything else: none), and its message is the context, the
    explanation and the number, in that order.  If an allocation failed it has
    [LIBUSBP_ERROR_MEMORY]; [strerror_r] is asked only when there is no
    replacement message, and no memory is leaked. *)
Theorem error_create_errno_classifies text d x :
  no_nul text = true →
  {{ emp }}
    (q ← error_create_errno text;
     b ← libusbp_error_has_code q d;
     m ← libusbp_error_get_message q;
     s ← read_cstr m;
     libusbp_error_free q;;
     mret (s, b)) @ x
  {{ r x', ⟪quiet x x' ∧
     (r = (join (rendered text)
             (join (errno_text (x_errno x)) ("Error code " +:+ fmt_d (x_errno x) +:+ ".")),
           bool_decide (d ∈ (errno_table (x_errno x)).1)) ∨
      ((d = LIBUSBP_ERROR_MEMORY → r.2 = true) ∧ oomed x x'))⟫ }}.
Proof.
  iIntros (Ht) "_". wp_step. iApply wp_wand; [by iApply error_create_errno_spec|].
  iIntros (q x1) "(%got & H & %He)". destruct He as [Hq He].
  wp_step. wp_call (libusbp_error_has_code_spec _ got d _).
  iIntros (f ?) "[%H Hq]". destruct H as [-> ->].
  iApply wp_group. wp_step. wp_call (libusbp_error_get_message_spec _ got _).
  iIntros (s ?) "[%H Hq]". destruct H as [-> ->].
  wp_step. wp_call (libusbp_error_free_spec _ (Some got) _). iIntros ([] ?) "->". wp_steps.
  iPureIntro. split; [done|]. destruct He as [->|[Hm Ho]]; [left|right].
  - by rewrite msg_errno_error codes_errno_error.
  - split; [|done]. intros ->. by apply bool_decide_eq_true.
Qed.
End code.

#[local] Existing Instance Example_machine.machine.

Lemma error_create_errno_classifies_witness :
  let text := "Failed to open USB device /dev/bus/usb/001/007." in
  let x := Ext [] 13 0 in
  no_nul text = true ∧
  (join (rendered text) (join (errno_text 13) ("Error code " +:+ fmt_d 13 +:+ ".")),
   bool_decide (LIBUSBP_ERROR_ACCESS_DENIED ∈ (errno_table 13).1)) =
  ("Failed to open USB device /dev/bus/usb/001/007.  Permission denied.  Error code 13.", true) ∧
  {{ emp }}
    (q ← error_create_errno text;
     b ← libusbp_error_has_code q LIBUSBP_ERROR_ACCESS_DENIED;
     m ← libusbp_error_get_message q;
     s ← read_cstr m;
     libusbp_error_free q;;
     mret (s, b)) @ x
  {{ r x', ⟪quiet x x' ∧
     (r = (join (rendered text) (join (errno_text 13) ("Error code " +:+ fmt_d 13 +:+ ".")),
           bool_decide (LIBUSBP_ERROR_ACCESS_DENIED ∈ (errno_table 13).1)) ∨
      ((LIBUSBP_ERROR_ACCESS_DENIED = LIBUSBP_ERROR_MEMORY → r.2 = true) ∧ oomed x x'))⟫ }}.
Proof.
  intros text x. split_and!; [by vm_compute|by vm_compute|].
  apply (error_create_errno_classifies text LIBUSBP_ERROR_ACCESS_DENIED x).
  reflexivity.
Defined.
