(* ===== verification/UdevLinux.v ===== *)
(** * UdevLinux: the wrappers around libudev (src/src/linux/udev_linux.c)

    Every function of the file.  A pointer that a function stores through an
    output parameter is the second component of its result; the strings that
    libudev owns stay tied to the device object or list they came from. *)

From S2P Require Import Prelude Memory Logic Format Errors Results Basics Strings LinuxOS ErrnoLinux.
#[local] Set Warnings "-rewrite-rw".

Section code.
Context `{OS : LinuxOS}.

Definition udevw_create_context : M (ptr * ptr) :=
  context ← udev_new;
  if is_null context then
    error ← error_create "Failed to create a udev context.";
    mret (error, NULL)
  else mret (NULL, context).

(** The common body of [udevw_create_child_list] and [udevw_create_usb_list]. *)
Definition udevw_create_list (udev : ptr) (add_match : ptr → M Z) (message : string) :
    M (ptr * ptr) :=
  new_list ← udev_enumerate_new udev;
  error ← (if is_null new_list then
             error_create "Failed to create a udev enumeration context."
           else mret NULL);
  error ← (if is_null error then
             result ← add_match new_list;
             if negb (result =? 0) then error_create_udev result message else mret NULL
           else mret error);
  error ← (if is_null error then
             result ← udev_enumerate_scan_devices new_list;
             if negb (result =? 0) then error_create_udev result "Failed to scan devices."
             else mret NULL
           else mret error);
  let '(list, new_list) := if is_null error then (new_list, NULL) else (NULL, new_list) in
  when (negb (is_null new_list)) (udev_enumerate_unref new_list);;
  mret (error, list).

Definition udevw_create_child_list (udev parent : ptr) : M (ptr * ptr) :=
  c_assert (negb (is_null udev));;
  c_assert (negb (is_null parent));;
  udevw_create_list udev (λ l, udev_enumerate_add_match_parent l parent)
    "Failed to match by parent device.".

Definition udevw_create_usb_list (udev : ptr) : M (ptr * ptr) :=
  c_assert (negb (is_null udev));;
  udevw_create_list udev (λ l, udev_enumerate_add_match_subsystem l "usb")
    "Failed to add a subsystem match.".

(** [text] is the string that [syspath] points to, for the message. *)
Definition udevw_get_device_from_syspath (context syspath : ptr) : M (ptr * ptr) :=
  c_assert (negb (is_null context));;
  c_assert (negb (is_null syspath));;
  dev ← udev_device_new_from_syspath context syspath;
  if is_null dev then
    text ← read_cstr syspath;
    error ← error_create ("Failed to get udev device from syspath: " +:+ text +:+ ".");
    mret (error, NULL)
  else mret (NULL, dev).

Definition udevw_get_device_type (dev : ptr) : M (ptr * ptr) :=
  c_assert (negb (is_null dev));;
  devtype ← udev_device_get_devtype dev;
  if is_null devtype then
    error ← error_create "Failed to get device type.";
    mret (error, NULL)
  else mret (NULL, devtype).

(** The common body of the two functions that parse a sysattr; [scan] is
    [sscanf] with their format. *)
Definition udevw_get_sysattr (scan : string → option Z) (dev : ptr) (name : string) :
    M (ptr * option Z) :=
  c_assert (negb (is_null dev));;
  str ← udev_device_get_sysattr_value dev name;
  if is_null str then
    error ← error_create ("Device does not have sysattr " +:+ name +:+ ".");
    mret (error, None)
  else
    text ← read_cstr str;
    match scan text with
    | Some value => mret (NULL, Some value)
    | None =>
        error ← error_create ("Failed to parse sysattr " +:+ name +:+ ".");
        mret (error, None)
    end.

Definition udevw_get_sysattr_uint8 : ptr → string → M (ptr * option Z) :=
  udevw_get_sysattr sscanf_4hhx.

Definition udevw_get_sysattr_uint16 : ptr → string → M (ptr * option Z) :=
  udevw_get_sysattr sscanf_4hx.

Definition udevw_get_sysattr_if_exists_copy (dev : ptr) (name : string) : M (ptr * ptr) :=
  c_assert (negb (is_null dev));;
  str ← udev_device_get_sysattr_value dev name;
  if is_null str then mret (NULL, NULL)
  else string_copy str.

Definition udevw_get_parent_usb_device (dev : ptr) : M (ptr * ptr) :=
  c_assert (negb (is_null dev));;
  parent ← udev_device_get_parent_with_subsystem_devtype dev "usb" "usb_device";
  if is_null parent then
    error ← error_create "Failed to get parent USB device.";
    mret (error, NULL)
  else mret (NULL, parent).

Definition udevw_check_if_device_is_specific_interface
    (dev device_syspath : ptr) (interface_number : Z) : M (ptr * bool) :=
  c_assert (negb (is_null dev));;
  c_assert (negb (is_null device_syspath));;
  (* Check that the devtype is equal to "usb_interface" *)
  '(error, devtype) ← udevw_get_device_type dev;
  if negb (is_null error) then mret (error, false) else
  c ← strcmp devtype (Lit "usb_interface");
  if negb (c =? 0) then mret (NULL, false) else
  (* Check that bInterfaceNumber matches our interface number. *)
  '(error, actual) ← udevw_get_sysattr_uint8 dev "bInterfaceNumber";
  if negb (is_null error) then mret (error, false) else
  actual_interface_number ← initialised actual;
  if negb (actual_interface_number =? interface_number) then mret (NULL, false) else
  (* Get the overall USB device. *)
  '(error, parent) ← udevw_get_parent_usb_device dev;
  if negb (is_null error) then mret (error, false) else
  (* Check that the overall USB device is the one we are interested in. *)
  parent_syspath ← udev_device_get_syspath parent;
  c_assert (negb (is_null parent_syspath));;
  c ← strcmp parent_syspath device_syspath;
  if negb (c =? 0) then mret (NULL, false) else
  mret (NULL, true).

(** The name of an entry belongs to the list. *)
Definition udev_list_entry_name (list_ : ptr) (entry : string) : ptr :=
  match list_ with Heap l => Owned l (until_nul entry) | _ => NULL end.

(** The search loop of [udevw_get_interface] over the remaining entries: the
    error and the device found. *)
Fixpoint udevw_get_interface_loop (udev list_ device_syspath : ptr) (interface_number : Z)
    (entries : list string) : M (ptr * ptr) :=
  match entries with
  | [] => mret (NULL, NULL)
  | entry :: entries =>
      let path := udev_list_entry_name list_ entry in
      c_assert (negb (is_null path));;
      '(error, dev) ← udevw_get_device_from_syspath udev path;
      if negb (is_null error) then mret (error, NULL) else
      '(error, correct_device) ←
        udevw_check_if_device_is_specific_interface dev device_syspath interface_number;
      if negb (is_null error) then
        udev_device_unref dev;;
        mret (error, NULL)
      else if correct_device : bool then mret (NULL, dev)
      else
        udev_device_unref dev;;
        udevw_get_interface_loop udev list_ device_syspath interface_number entries
  end.

Definition udevw_get_interface (udev device_syspath : ptr) (interface_number : Z) :
    M (ptr * ptr) :=
  c_assert (negb (is_null udev));;
  c_assert (negb (is_null device_syspath));;
  '(error, list) ← udevw_create_usb_list udev;
  '(error, found_device) ←
    (if is_null error then
       entries ← udev_enumerate_entries list;
       udevw_get_interface_loop udev list device_syspath interface_number entries
     else mret (error, NULL));
  error ← (if is_null error && is_null found_device then
             error ← error_create ("Could not find interface " +:+ fmt_d interface_number +:+ ".");
             error_add_code error LIBUSBP_ERROR_NOT_READY
           else mret error);
  let device := if is_null error then found_device else NULL in
  when (negb (is_null list)) (udev_enumerate_unref list);;
  mret (error, device).

(** The search loop of [udevw_get_tty]. *)
Fixpoint udevw_get_tty_loop (udev list_ : ptr) (entries : list string) : M (ptr * ptr) :=
  match entries with
  | [] => mret (NULL, NULL)
  | entry :: entries =>
      let path := udev_list_entry_name list_ entry in
      c_assert (negb (is_null path));;
      '(error, dev) ← udevw_get_device_from_syspath udev path;
      if negb (is_null error) then mret (error, NULL) else
      subsystem ← udev_device_get_subsystem dev;
      correct_device ← (if negb (is_null subsystem) then
                          c ← strcmp subsystem (Lit "tty"); mret (0 =? c)
                        else mret false);
      if correct_device : bool then mret (NULL, dev)
      else
        udev_device_unref dev;;
        udevw_get_tty_loop udev list_ entries
  end.

Definition udevw_get_tty (udev parent : ptr) : M (ptr * ptr) :=
  c_assert (negb (is_null udev));;
  c_assert (negb (is_null parent));;
  '(error, list) ← udevw_create_child_list udev parent;
  '(error, found_device) ←
    (if is_null error then
       entries ← udev_enumerate_entries list;
       udevw_get_tty_loop udev list entries
     else mret (error, NULL));
  error ← (if is_null error && is_null found_device then
             error ← error_create "Could not find tty device.";
             error_add_code error LIBUSBP_ERROR_NOT_READY
           else mret error);
  let device := if is_null error then found_device else NULL in
  when (negb (is_null list)) (udev_enumerate_unref list);;
  mret (error, device).

Definition udevw_get_syspath (device : ptr) : M (ptr * ptr) :=
  c_assert (negb (is_null device));;
  syspath ← udev_device_get_syspath device;
  c_assert (negb (is_null syspath));;
  mret (NULL, syspath).

Definition udevw_get_syspath_copy (device : ptr) : M (ptr * ptr) :=
  c_assert (negb (is_null device));;
  '(error, tmp) ← udevw_get_syspath device;
  if is_null error then string_copy tmp else mret (error, NULL).

Definition udevw_get_devnode (device : ptr) : M (ptr * ptr) :=
  c_assert (negb (is_null device));;
  devnode ← udev_device_get_devnode device;
  if is_null devnode then
    error ← error_create "No device node exists.";
    mret (error, NULL)
  else mret (NULL, devnode).

Definition udevw_get_devnode_copy (device : ptr) : M (ptr * ptr) :=
  c_assert (negb (is_null device));;
  '(error, tmp) ← udevw_get_devnode device;
  if is_null error then string_copy tmp else mret (error, NULL).

Definition udevw_get_devnode_copy_from_syspath (syspath : ptr) : M (ptr * ptr) :=
  c_assert (negb (is_null syspath));;
  '(error, context) ← udevw_create_context;
  '(error, device) ← (if is_null error then udevw_get_device_from_syspath context syspath
                      else mret (error, NULL));
  '(error, devnode) ← (if is_null error then udevw_get_devnode_copy device
                       else mret (error, NULL));
  when (negb (is_null device)) (udev_device_unref device);;
  when (negb (is_null context)) (udev_unref context);;
  mret (error, devnode).

(** ** What the functions mean *)

(** A string libudev returned, as C sees it. *)
Definition udev_str (f : Z → option string) (id : Z) : option string := until_nul <$> f id.

Definition s_create_context : Spec unit := λ h,
  (if os_udev_new h then inr tt else inl (err_new "Failed to create a udev context."),
   EvUdevNew :: h).

(** Enumerate what matches [m]. *)
Definition s_create_list (m : udev_match) (message : string) : Spec (list string) := λ h,
  let h1 := EvUdevEnumerateNew :: h in
  let h2 := EvUdevAddMatch m :: h1 in
  let h3 := EvUdevScan [m] :: h2 in
  if os_enumerate_new h then
    if os_add_match h1 m =? 0 then
      if (os_scan h2 [m]).1 =? 0 then (inr (os_scan h2 [m]).2, h3)
      else (inl (udev_error (os_scan h2 [m]).1 "Failed to scan devices."), h3)
    else (inl (udev_error (os_add_match h1 m) message), h2)
  else (inl (err_new "Failed to create a udev enumeration context."), h1).

Definition s_device (path : string) : Spec Z := λ h,
  (match os_device h path with
   | Some id => inr id
   | None => inl (err_new ("Failed to get udev device from syspath: " +:+ path +:+ "."))
   end, EvUdevFromSyspath path :: h).

Definition s_devtype (id : Z) : Spec string :=
  sopt (udev_str os_devtype id) (err_new "Failed to get device type.").

Definition s_sysattr (scan : string → option Z) (id : Z) (name : string) : Spec Z :=
  text ← sopt (udev_str (os_sysattr name) id)
              (err_new ("Device does not have sysattr " +:+ name +:+ "."));
  sopt (scan text) (err_new ("Failed to parse sysattr " +:+ name +:+ ".")).

Definition s_parent (id : Z) : Spec Z :=
  sopt (os_parent "usb" "usb_device" id) (err_new "Failed to get parent USB device.").

Definition s_devnode (id : Z) : Spec string :=
  sopt (udev_str os_devnode id) (err_new "No device node exists.").

(** Is the device the interface [n] of the device with this syspath? *)
Definition s_is_interface (id : Z) (device_syspath : string) (n : Z) : Spec bool :=
  devtype ← s_devtype id;
  if negb (bool_decide (devtype = "usb_interface")) then mret false else
  number ← s_sysattr sscanf_4hhx id "bInterfaceNumber";
  if negb (number =? n) then mret false else
  parent ← s_parent id;
  mret (bool_decide (udev_str os_syspath parent = Some device_syspath)).

(** The first of the entries that satisfies a test that can fail. *)
Fixpoint s_find (test : Z → Spec bool) (entries : list string) : Spec (option Z) :=
  match entries with
  | [] => mret None
  | entry :: entries =>
      id ← s_device (until_nul entry);
      b ← test id;
      if b : bool then mret (Some id) else s_find test entries
  end.

Definition s_get_interface (device_syspath : string) (n : Z) : Spec Z :=
  entries ← s_create_list (MatchSubsystem "usb") "Failed to add a subsystem match.";
  found ← s_find (λ id, s_is_interface id device_syspath n) entries;
  sopt found (err_code (err_new ("Could not find interface " +:+ fmt_d n +:+ "."))
                       LIBUSBP_ERROR_NOT_READY).

Definition is_tty (id : Z) : bool := bool_decide (udev_str os_subsystem id = Some "tty").

Definition s_get_tty (parent : Z) : Spec Z :=
  entries ← s_create_list (MatchParent parent) "Failed to match by parent device.";
  found ← s_find (λ id, mret (is_tty id)) entries;
  sopt found (err_code (err_new "Could not find tty device.") LIBUSBP_ERROR_NOT_READY).

(** ** Ownership *)

Definition udev_own (p : ptr) : hProp := (∃ l, ⟪p = Heap l⟫ ∗ l ↦ OUdev)%I.
Definition udev_device_own (p : ptr) (id : Z) : hProp :=
  (∃ l, ⟪p = Heap l⟫ ∗ l ↦ OUdevDevice id)%I.
Definition udev_list_own (p : ptr) (entries : list string) : hProp :=
  (∃ l fs, ⟪p = Heap l⟫ ∗ l ↦ OUdevEnumerate fs entries)%I.

(** ** Specifications *)

Lemma udevw_create_context_spec x :
  {{ emp }} udevw_create_context @ x {{ r x',
    returns s_create_context x x' r.1 (λ _, udev_own r.2) ⟪r.2 = NULL⟫ }}.
Proof.
  iIntros "_". unfold udevw_create_context, udev_new. wp_steps.
  assert (Hc : calm x (Ext (EvUdevNew :: x_trace x) (x_errno x) (x_oom x))) by by apply calm_event.
  destruct (os_udev_new (x_trace x)) eqn:E; wp_steps.
  - iApply wp_new_block. iIntros (l) "Hl". wp_steps.
    iApply (returns_ok _ _ _ tt); [|iExists l; by iFrame].
    split; [done|]. unfold s_create_context. by rewrite E.
  - err_chain. iApply (returns_err_from with "[-]"); [done| |by iFrame].
    unfold s_create_context. by rewrite E.
Qed.

(** Adding the filter [m] to an empty enumeration. *)
Definition adds_match (R : hProp) (add_match : ptr → M Z) (m : udev_match) : Prop :=
  ∀ l x Q, R -∗ l ↦ OUdevEnumerate [] [] -∗
    (R -∗ l ↦ OUdevEnumerate (if os_add_match (x_trace x) m =? 0 then [m] else []) [] -∗
     Q (os_add_match (x_trace x) m) (Ext (EvUdevAddMatch m :: x_trace x) (x_errno x) (x_oom x))) -∗
    wp (add_match (Heap l)) x Q.

Lemma wp_add_match m l x Q :
  l ↦ OUdevEnumerate [] [] -∗
  (l ↦ OUdevEnumerate (if os_add_match (x_trace x) m =? 0 then [m] else []) [] -∗
   Q (os_add_match (x_trace x) m) (Ext (EvUdevAddMatch m :: x_trace x) (x_errno x) (x_oom x))) -∗
  wp (udev_enumerate_add_match (Heap l) m) x Q.
Proof.
  iIntros "Hl HQ". unfold udev_enumerate_add_match. wp_steps.
  destruct (_ =? 0); wp_steps; by iApply "HQ".
Qed.

Lemma adds_match_subsystem :
  adds_match emp%I (λ l, udev_enumerate_add_match_subsystem l "usb") (MatchSubsystem "usb").
Proof.
  iIntros (l x Q) "HE Hl HQ". iApply (wp_add_match with "Hl"). by iApply "HQ".
Qed.

Lemma adds_match_parent p l did id :
  device_ref p l did id →
  adds_match (l ↦ OUdevDevice did)%I (λ l, udev_enumerate_add_match_parent l p) (MatchParent id).
Proof.
  iIntros (Hp l' x Q) "Hd Hl HQ". unfold udev_enumerate_add_match_parent. wp_step.
  iApply (wp_udev_device_deref with "Hd"); [done|]. iIntros "Hd". wp_simpl.
  iApply (wp_add_match with "Hl"). by iApply "HQ".
Qed.

Lemma udevw_create_list_spec R udev add m message x :
  adds_match R add m → no_nul message = true →
  {{ R ∗ udev_own udev }} udevw_create_list udev add message @ x {{ r x',
    R ∗ udev_own udev ∗
    returns (s_create_list m message) x x' r.1 (udev_list_own r.2) ⟪r.2 = NULL⟫ }}.
Proof.
  iIntros (Hadd Hm) "[HR (%lu & -> & Hu)]". unfold udevw_create_list, udev_enumerate_new.
  set (h := x_trace x). set (h1 := EvUdevEnumerateNew :: h).
  assert (Hc1 : calm x (Ext h1 (x_errno x) (x_oom x))) by by apply calm_event.
  wp_steps. fold h. destruct (os_enumerate_new h) eqn:E1; wp_steps; last first.
  { err_chain. iFrame. iSplit; [done|].
    iApply (returns_err_from with "[-]"); [done| |by iFrame].
    unfold s_create_list. by rewrite E1. }
  iApply wp_new_block. iIntros (l) "Hl". wp_steps.
  iApply (Hadd with "HR Hl"). iIntros "HR Hl". wp_steps. fold h1.
  set (h2 := EvUdevAddMatch m :: h1).
  assert (Hc2 : calm x (Ext h2 (x_errno x) (x_oom x))) by by apply (calm_event x (Ext h1 (x_errno x) (x_oom x))).
  destruct (os_add_match h1 m =? 0) eqn:E2; wp_steps; last first.
  { iApply wp_error_create_udev; [done|]. err_intro. wp_steps. unfold udev_enumerate_unref. wp_steps.
    iFrame. iSplit; [done|]. iApply (returns_err_from with "[-]"); [exact Hc2| |by iFrame].
    unfold s_create_list. by rewrite E1 E2. }
  unfold udev_enumerate_scan_devices. wp_steps. fold h2.
  set (h3 := EvUdevScan [m] :: h2).
  assert (Hc3 : calm x (Ext h3 (x_errno x) (x_oom x))) by by apply (calm_event x (Ext h2 (x_errno x) (x_oom x))).
  destruct ((os_scan h2 [m]).1 =? 0) eqn:E3; wp_steps; last first.
  { iApply wp_error_create_udev; [done|]. err_intro. wp_steps. unfold udev_enumerate_unref. wp_steps.
    iFrame. iSplit; [done|]. iApply (returns_err_from with "[-]"); [exact Hc3| |by iFrame].
    unfold s_create_list. by rewrite E1 E2 E3. }
  iFrame. iSplit; [done|]. iApply (returns_ok with "[-]"); [|iExists l, [m]; by iFrame].
  split; [exact Hc3|]. unfold s_create_list. by rewrite E1 E2 E3.
Qed.

Lemma udevw_get_device_from_syspath_spec R udev syspath path x :
  reads R syspath path → is_null syspath = false → no_nul path = true →
  {{ R ∗ udev_own udev }} udevw_get_device_from_syspath udev syspath @ x {{ r x',
    R ∗ udev_own udev ∗
    returns (s_device path) x x' r.1 (udev_device_own r.2) ⟪r.2 = NULL⟫ }}.
Proof.
  iIntros (Hr Hn Hp) "[HR (%lu & -> & Hu)]".
  unfold udevw_get_device_from_syspath, udev_device_new_from_syspath.
  wp_steps. iApply (Hr with "HR"). iIntros "HR". wp_steps.
  set (h := x_trace x).
  assert (Hc : calm x (Ext (EvUdevFromSyspath path :: h) (x_errno x) (x_oom x)))
    by by apply calm_event.
  destruct (os_device h path) as [id|] eqn:E; wp_steps.
  - iApply wp_new_block. iIntros (l) "Hl". wp_steps. iFrame. iSplit; [done|].
    iApply (returns_ok with "[-]"); [|iExists l; by iFrame].
    split; [done|]. unfold s_device. by rewrite E.
  - iApply (Hr with "HR"). iIntros "HR". wp_steps.
    iApply wp_error_create; [by rewrite !no_nul_app Hp|]. err_intro. wp_steps.
    iFrame. iSplit; [done|]. iApply (returns_err_from with "[-]"); [done| |by iFrame].
    unfold s_device. by rewrite E.
Qed.

Lemma udev_str_case f id l :
  match udev_str f id with
  | Some t => owned_string l (f id) = Owned l t ∧ no_nul t = true ∧ until_nul t = t
  | None => owned_string l (f id) = NULL
  end.
Proof.
  unfold udev_str, owned_string. destruct (f id); cbn; [|done].
  pose proof (until_nul_no_nul s). by rewrite (until_nul_id (until_nul s)).
Qed.

Lemma reads_owned_id l o t : no_nul t = true → reads (l ↦ o)%I (Owned l t) t.
Proof. intros H. rewrite -{2}(until_nul_id t) //. apply reads_owned. Qed.

Section device.
Context (p : ptr) (l : loc) (did id : Z) (Hp : device_ref p l did id).

Lemma device_ref_not_null : is_null p = false.
Proof. by destruct Hp as [[-> _]| ->]. Qed.

Lemma udevw_get_device_type_spec x :
  {{ l ↦ OUdevDevice did }} udevw_get_device_type p @ x {{ r x',
    l ↦ OUdevDevice did ∗
    returns (s_devtype id) x x' r.1 (λ t, ⟪r.2 = Owned l t ∧ no_nul t = true⟫) emp }}.
Proof.
  iIntros "Hl". pose proof device_ref_not_null as Hn. unfold udevw_get_device_type. wp_steps.
  iApply (wp_udev_device_string with "Hl"); [done|]. iIntros "Hl".
  pose proof (udev_str_case os_devtype id l) as Hc. unfold s_devtype.
  destruct (udev_str os_devtype id) as [t|] eqn:E.
  - destruct Hc as (-> & Ht & _). wp_steps. iFrame.
    iApply (returns_ok _ _ _ t); [by apply succeeded_opt|done].
  - rewrite Hc. wp_simpl. err_chain. iFrame. iApply (returns_sopt with "[-]"); [done|by iFrame].
Qed.

Lemma udevw_get_sysattr_spec scan name x :
  no_nul name = true →
  {{ l ↦ OUdevDevice did }} udevw_get_sysattr scan p name @ x {{ r x',
    l ↦ OUdevDevice did ∗
    returns (s_sysattr scan id name) x x' r.1 (λ n, ⟪r.2 = Some n⟫) emp }}.
Proof.
  iIntros (Hname) "Hl". pose proof device_ref_not_null as Hn. unfold udevw_get_sysattr. wp_steps.
  iApply (wp_udev_device_string with "Hl"); [done|]. iIntros "Hl".
  pose proof (udev_str_case (os_sysattr name) id l) as Hc. unfold s_sysattr.
  destruct (udev_str (os_sysattr name) id) as [t|] eqn:E.
  - destruct Hc as (-> & Ht & _). wp_steps. iApply (reads_owned_id with "Hl"); [done|].
    iIntros "Hl". assert (Hs : succeeded (sopt (Some t)
      (err_new ("Device does not have sysattr " +:+ name +:+ "."))) x x t) by by apply succeeded_opt.
    destruct (scan t) as [n|] eqn:En; wp_steps.
    + iFrame. iApply (returns_ok _ _ _ n); [|done].
      eapply succeeded_bind; [done|]. by apply succeeded_opt.
    + iApply wp_error_create; [by rewrite !no_nul_app Hname|]. err_intro. wp_steps. iFrame.
      iApply (returns_err with "[-]"); [|by iFrame].
      destruct Hs as [_ Hs]. rewrite (sbind_ok _ _ _ _ _ Hs). by rewrite En.
  - rewrite Hc. wp_simpl. wp_step. iApply wp_error_create; [by rewrite !no_nul_app Hname|].
    err_intro. wp_steps. iFrame. iApply (returns_err with "[-]"); [|by iFrame].
    by erewrite sbind_err.
Qed.

Lemma udevw_get_sysattr_if_exists_copy_spec name x :
  {{ l ↦ OUdevDevice did }} udevw_get_sysattr_if_exists_copy p name @ x {{ r x',
    l ↦ OUdevDevice did ∗
    returns (mret (udev_str (os_sysattr name) id)) x x' r.1
      (λ o, match o with Some t => str_own r.2 t | None => ⟪r.2 = NULL⟫ end) ⟪r.2 = NULL⟫ }}.
Proof.
  iIntros "Hl". pose proof device_ref_not_null as Hn.
  unfold udevw_get_sysattr_if_exists_copy. wp_steps.
  iApply (wp_udev_device_string with "Hl"); [done|]. iIntros "Hl".
  pose proof (udev_str_case (os_sysattr name) id l) as Hc.
  destruct (udev_str (os_sysattr name) id) as [t|] eqn:E.
  - destruct Hc as (-> & Ht & _). wp_steps.
    iApply (wp_wand with "[Hl]").
    { iApply (string_copy_spec with "Hl"); [by apply reads_owned_id|done|done]. }
    iIntros (r x') "[Hl H]". iFrame. by iApply (returns_ret with "H").
  - rewrite Hc. wp_steps. iFrame. iApply (returns_ok _ _ _ None); [by apply succeeded_ret|done].
Qed.

Lemma udevw_get_parent_usb_device_spec x :
  {{ l ↦ OUdevDevice did }} udevw_get_parent_usb_device p @ x {{ r x',
    l ↦ OUdevDevice did ∗
    returns (s_parent id) x x' r.1 (λ id', ⟪r.2 = ParentOf l id'⟫) emp }}.
Proof.
  iIntros "Hl". pose proof device_ref_not_null as Hn. unfold udevw_get_parent_usb_device.
  unfold udev_device_get_parent_with_subsystem_devtype. wp_steps.
  iApply (wp_udev_device_deref with "Hl"); [done|]. iIntros "Hl". wp_simpl. unfold s_parent.
  destruct (os_parent "usb" "usb_device" id) as [id'|] eqn:E; wp_steps.
  - iFrame. iApply (returns_ok _ _ _ id'); [by apply succeeded_ret|done].
  - err_chain. iFrame. iApply (returns_err with "[-]"); [done|by iFrame].
Qed.

Lemma udevw_get_devnode_spec x :
  {{ l ↦ OUdevDevice did }} udevw_get_devnode p @ x {{ r x',
    l ↦ OUdevDevice did ∗
    returns (s_devnode id) x x' r.1 (λ t, ⟪r.2 = Owned l t ∧ no_nul t = true⟫) emp }}.
Proof.
  iIntros "Hl". pose proof device_ref_not_null as Hn. unfold udevw_get_devnode. wp_steps.
  iApply (wp_udev_device_string with "Hl"); [done|]. iIntros "Hl".
  pose proof (udev_str_case os_devnode id l) as Hc. unfold s_devnode.
  destruct (udev_str os_devnode id) as [t|] eqn:E.
  - destruct Hc as (-> & Ht & _). wp_steps. iFrame.
    iApply (returns_ok _ _ _ t); [by apply succeeded_opt|done].
  - rewrite Hc. wp_simpl. err_chain. iFrame. iApply (returns_sopt with "[-]"); [done|by iFrame].
Qed.
End device.

Context {LAWS : LinuxLaws OS}.

Lemma syspath_owned l id :
  ∃ t, udev_str os_syspath id = Some t ∧ owned_string l (os_syspath id) = Owned l t ∧
       no_nul t = true.
Proof.
  destruct (syspath_known id) as [s Hs]. pose proof (udev_str_case os_syspath id l) as H.
  unfold udev_str in *. rewrite Hs in H |- *. cbn in *. eauto with f_equal. naive_solver.
Qed.

Lemma udevw_check_if_device_is_specific_interface_spec R l id syspath path n x :
  reads R syspath path → is_null syspath = false →
  {{ R ∗ l ↦ OUdevDevice id }}
    udevw_check_if_device_is_specific_interface (Heap l) syspath n @ x
  {{ r x', R ∗ l ↦ OUdevDevice id ∗
     returns (s_is_interface id path n) x x' r.1 (λ b, ⟪r.2 = b⟫) emp }}.
Proof.
  iIntros (Hr Hsys) "[HR Hl]". unfold udevw_check_if_device_is_specific_interface, s_is_interface.
  assert (Href : device_ref (Heap l) l id id) by by left.
  wp_steps. wp_call (udevw_get_device_type_spec _ _ _ _ Href x).
  iIntros ([e t] x1) "[Hl H]". returned "H"; last first.
  { wp_steps. iFrame. fails. }
  iDestruct "Hok" as %[-> Ht]. wp_step.
  iApply (wp_strcmp_zero with "Hl []"); [by apply reads_owned_id|by apply reads_lit|done|].
  iIntros (c Hc) "Hl _". rewrite Hc.
  destruct (bool_decide (a = "usb_interface")) eqn:E1; last first.
  { wp_steps. iFrame. iApply (returns_ok _ _ _ false); [chain|done]. }
  wp_step. wp_call (udevw_get_sysattr_spec _ _ _ _ Href sscanf_4hhx "bInterfaceNumber" x1 eq_refl).
  iIntros ([e v] x2) "[Hl H]". rename a into t'. returned "H"; last first.
  { wp_steps. iFrame. fails. }
  iDestruct "Hok" as %->. unfold initialised. wp_steps.
  destruct (a =? n) eqn:E2; last first.
  { wp_steps. iFrame. iApply (returns_ok _ _ _ false); [chain|done]. }
  wp_steps. wp_call (udevw_get_parent_usb_device_spec _ _ _ _ Href x2).
  iIntros ([e p] x3) "[Hl H]". rename a into number. returned "H"; last first.
  { wp_steps. iFrame. fails. }
  iDestruct "Hok" as %->. wp_step.
  iApply (wp_udev_device_string _ _ _ _ a with "Hl"); [by right|]. iIntros "Hl".
  destruct (syspath_owned l a) as (t & Et & -> & Hnt). wp_steps.
  iApply (wp_strcmp_zero with "Hl HR"); [by apply reads_owned_id|done|].
  iIntros (c' Hc') "Hl HR". rewrite Hc'.
  assert (Hb : bool_decide (t = path) = bool_decide (udev_str os_syspath a = Some path)).
  { apply bool_decide_ext. rewrite Et. split; [by intros ->|by intros [= ->]]. }
  rewrite Hb. destruct (bool_decide (udev_str os_syspath a = Some path)) eqn:E3; wp_steps; iFrame;
    (iApply (returns_ok with "[]"); [|by iPureIntro]); chain.
Qed.

(** Reading the name of an entry. *)
Lemma reads_entry l o entry :
  reads (l ↦ o)%I (udev_list_entry_name (Heap l) entry) (until_nul entry).
Proof. apply reads_owned_id, until_nul_no_nul. Qed.

(** What the search loops return. *)
Definition found_own (p : ptr) (found : option Z) : hProp :=
  match found with Some id => udev_device_own p id | None => ⟪p = NULL⟫ end%I.

Lemma udev_device_unref_spec p id x :
  {{ udev_device_own p id }} udev_device_unref p @ x {{ r x', ⟪x' = x⟫ }}.
Proof.
  iIntros "(%l & -> & Hl)". unfold udev_device_unref. wp_steps. by iPureIntro.
Qed.

Lemma udevw_get_interface_loop_spec R udev l o syspath path n entries x :
  reads R syspath path → is_null syspath = false →
  {{ R ∗ udev_own udev ∗ l ↦ o }}
    udevw_get_interface_loop udev (Heap l) syspath n entries @ x
  {{ r x', R ∗ udev_own udev ∗ l ↦ o ∗
     returns (s_find (λ id, s_is_interface id path n) entries) x x' r.1 (found_own r.2) ⟪r.2 = NULL⟫ }}.
Proof.
  intros Hr Hsys. revert x. induction entries as [|entry entries IH]; intros x;
    iIntros "(HR & Hu & Hl)"; cbn [udevw_get_interface_loop s_find udev_list_entry_name].
  { wp_steps. iFrame. iApply (returns_ok _ _ _ None); [by apply succeeded_ret|done]. }
  wp_steps.
  wp_call (udevw_get_device_from_syspath_spec _ _ _ _ x (reads_entry l o entry) eq_refl
             (until_nul_no_nul _)).
  iIntros ([e dev] x1) "(Hl & Hu & H)". returned "H"; last first.
  { wp_steps. iFrame. fails. }
  iDestruct "Hok" as (ld) "[-> Hd]". wp_step.
  wp_call (udevw_check_if_device_is_specific_interface_spec R ld a syspath path n x1 Hr Hsys).
  iIntros ([e b] x2) "(HR & Hd & H)". rename a into id. returned "H"; last first.
  { unfold udev_device_unref. wp_steps. iFrame. fails. }
  iDestruct "Hok" as %->. destruct a.
  { wp_steps. iFrame. iApply (returns_ok _ _ _ (Some id)); [chain|]. iExists ld. by iFrame. }
  unfold udev_device_unref. wp_steps. iApply (wp_wand with "[HR Hu Hl]").
  { iApply IH. iFrame. }
  iIntros (r x') "(HR & Hu & Hl & H)". iFrame.
  iApply (returns_bind with "[H]"); [done|]. by iApply (returns_bind with "[H]").
Qed.

Lemma udevw_get_tty_loop_spec udev l o entries x :
  {{ udev_own udev ∗ l ↦ o }} udevw_get_tty_loop udev (Heap l) entries @ x
  {{ r x', udev_own udev ∗ l ↦ o ∗
     returns (s_find (λ id, mret (is_tty id)) entries) x x' r.1 (found_own r.2) ⟪r.2 = NULL⟫ }}.
Proof.
  revert x. induction entries as [|entry entries IH]; intros x;
    iIntros "(Hu & Hl)"; cbn [udevw_get_tty_loop s_find udev_list_entry_name].
  { wp_steps. iFrame. iApply (returns_ok _ _ _ None); [by apply succeeded_ret|done]. }
  wp_steps.
  wp_call (udevw_get_device_from_syspath_spec _ _ _ _ x (reads_entry l o entry) eq_refl
             (until_nul_no_nul _)).
  iIntros ([e dev] x1) "(Hl & Hu & H)". returned "H"; last first.
  { wp_steps. iFrame. fails. }
  iDestruct "Hok" as (ld) "[-> Hd]". wp_step.
  iApply (wp_udev_device_string _ _ _ _ a with "Hd"); [by left|]. iIntros "Hd".
  pose proof (udev_str_case os_subsystem a ld) as Hc.
  assert (Ht : succeeded (mret (is_tty a)) x1 x1 (is_tty a)) by by apply succeeded_ret.
  iAssert (wp (if negb (is_null (owned_string ld (os_subsystem a)))
               then c ← strcmp (owned_string ld (os_subsystem a)) (Lit "tty"); mret (0 =? c)
               else mret false) x1 (λ b x', ⟪b = is_tty a ∧ x' = x1⟫ ∗ ld ↦ OUdevDevice a)%I)
    with "[Hd]" as "Htest".
  { unfold is_tty. destruct (udev_str os_subsystem a) as [t|].
    - destruct Hc as (-> & Hnt & _). wp_steps.
      iApply (wp_strcmp_zero with "Hd []"); [by apply reads_owned_id|by apply reads_lit|done|].
      iIntros (c E) "Hd _". wp_steps. iFrame. iPureIntro. split; [|done].
      rewrite Z.eqb_sym E. apply bool_decide_ext. split; [by intros ->|by intros [= ->]].
    - rewrite Hc. wp_steps. iFrame. by iPureIntro. }
  wp_step. iApply (wp_wand with "Htest"). iIntros (b ?) "[%H Hd]". destruct H as [-> ->].
  destruct (is_tty a) eqn:Eb.
  { wp_steps. iFrame. iApply (returns_ok _ _ _ (Some a)); [chain|]. iExists ld. by iFrame. }
  unfold udev_device_unref. wp_steps. iApply (wp_wand with "[Hu Hl]"); [by iApply IH; iFrame|].
  iIntros (r x') "(Hu & Hl & H)". iFrame.
  iApply (returns_bind with "[H]"); [done|].
  iApply (returns_bind _ _ false with "[H]"); [by rewrite Eb|]. done.
Qed.

Lemma wp_udev_enumerate_entries l fs es x Q :
  l ↦ OUdevEnumerate fs es -∗ (l ↦ OUdevEnumerate fs es -∗ Q es x) -∗
  wp (udev_enumerate_entries (Heap l)) x Q.
Proof. iIntros "Hl HQ". unfold udev_enumerate_entries. wp_steps. by iApply "HQ". Qed.

(** The end of the two searches: the error for "not found", and the clean-up. *)
Definition not_found (o : option Z) (text : string) : Spec Z :=
  sopt o (err_code (err_new text) LIBUSBP_ERROR_NOT_READY).

Definition search_end (error found list_ : ptr) (text : string) : M (ptr * ptr) :=
  error ← (if is_null error && is_null found then
             error ← error_create text;
             error_add_code error LIBUSBP_ERROR_NOT_READY
           else mret error);
  let device := if is_null error then found else NULL in
  when (negb (is_null list_)) (udev_enumerate_unref list_);;
  mret (error, device).

Lemma search_end_spec (s : Spec (option Z)) e found l fs es text x x1 :
  no_nul text = true →
  {{ l ↦ OUdevEnumerate fs es ∗ returns s x x1 e (found_own found) ⟪found = NULL⟫ }}
    search_end e found (Heap l) text @ x1
  {{ r x', returns (o ← s; not_found o text) x x' r.1 (udev_device_own r.2) ⟪r.2 = NULL⟫ }}.
Proof.
  iIntros (Ht) "[Hl H]". unfold search_end, udev_enumerate_unref. returned "H"; last first.
  { wp_steps. fails. }
  destruct a as [id|]; cbn [found_own].
  - iDestruct "Hok" as (ld) "[-> Hd]". wp_steps. iApply (returns_ok _ _ _ id).
    { eapply succeeded_bind; [done|]. by apply succeeded_opt. }
    iExists ld. by iFrame.
  - iDestruct "Hok" as %->. wp_steps. iApply wp_error_create; [done|]. err_intro. wp_steps.
    err_call. wp_steps. destruct Ha as [Hc Hs].
    iApply (returns_err_from with "[-]"); [done| |by iFrame]. by rewrite (sbind_ok _ _ _ _ _ Hs).
Qed.

Lemma udevw_get_interface_spec R udev syspath path n x :
  reads R syspath path → is_null syspath = false →
  {{ R ∗ udev_own udev }} udevw_get_interface udev syspath n @ x {{ r x',
    R ∗ udev_own udev ∗
    returns (s_get_interface path n) x x' r.1 (udev_device_own r.2) ⟪r.2 = NULL⟫ }}.
Proof.
  iIntros (Hr Hn) "[HR (%lu & -> & Hu)]". unfold udevw_get_interface, udevw_create_usb_list.
  iAssert (udev_own (Heap lu)) with "[Hu]" as "Hu"; [by iExists lu; iFrame|]. wp_steps.
  wp_call (udevw_create_list_spec emp%I _ _ _
             "Failed to add a subsystem match." x adds_match_subsystem eq_refl).
  iIntros ([e list_] x1) "(_ & Hu & H)". returned "H"; last first.
  { wp_steps. iDestruct "Hbad" as %->. wp_steps. iFrame. fails. }
  iDestruct "Hok" as (l fs) "[-> Hl]". wp_steps.
  iApply (wp_udev_enumerate_entries with "Hl"). iIntros "Hl".
  wp_call (udevw_get_interface_loop_spec R _ l (OUdevEnumerate fs a) _ path n a x1 Hr Hn).
  iIntros ([e found] x2) "(HR & Hu & Hl & H)". wp_simpl.
  iApply (wp_wand with "[Hl H]").
  { iApply (search_end_spec _ _ _ _ _ _ ("Could not find interface " +:+ fmt_d n +:+ ".") with "[$]").
    by rewrite !no_nul_app no_nul_fmt_d. }
  iIntros (r x') "H". iFrame. unfold s_get_interface.
  iApply (returns_bind with "[H]"); [done|]. done.
Qed.

Lemma udevw_get_tty_spec p l did id udev x :
  device_ref p l did id →
  {{ l ↦ OUdevDevice did ∗ udev_own udev }} udevw_get_tty udev p @ x {{ r x',
    l ↦ OUdevDevice did ∗ udev_own udev ∗
    returns (s_get_tty id) x x' r.1 (udev_device_own r.2) ⟪r.2 = NULL⟫ }}.
Proof.
  iIntros (Hp) "[Hp (%lu & -> & Hu)]". pose proof (device_ref_not_null _ _ _ _ Hp) as Hn.
  unfold udevw_get_tty, udevw_create_child_list.
  iAssert (udev_own (Heap lu)) with "[Hu]" as "Hu"; [by iExists lu; iFrame|]. wp_steps.
  wp_call (udevw_create_list_spec _ _ _ _
             "Failed to match by parent device." x (adds_match_parent _ _ _ _ Hp) eq_refl).
  iIntros ([e list_] x1) "(Hp & Hu & H)". returned "H"; last first.
  { wp_steps. iDestruct "Hbad" as %->. wp_steps. iFrame. fails. }
  iDestruct "Hok" as (le fs) "[-> Hl]". wp_steps.
  iApply (wp_udev_enumerate_entries with "Hl"). iIntros "Hl".
  wp_call (udevw_get_tty_loop_spec _ le (OUdevEnumerate fs a) a x1).
  iIntros ([e found] x2) "(Hu & Hl & H)". wp_simpl.
  iApply (wp_wand with "[Hl H]").
  { by iApply (search_end_spec _ _ _ _ _ _ "Could not find tty device." with "[$]"). }
  iIntros (r x') "H". iFrame. unfold s_get_tty.
  iApply (returns_bind with "[H]"); [done|]. done.
Qed.

Lemma udevw_get_syspath_copy_spec p l did id x :
  device_ref p l did id →
  {{ l ↦ OUdevDevice did }} udevw_get_syspath_copy p @ x {{ r x',
    l ↦ OUdevDevice did ∗
    returns (mret (default "" (udev_str os_syspath id))) x x' r.1 (str_own r.2) ⟪r.2 = NULL⟫ }}.
Proof.
  iIntros (Hp) "Hl". pose proof (device_ref_not_null _ _ _ _ Hp) as Hn.
  unfold udevw_get_syspath_copy, udevw_get_syspath. wp_steps.
  iApply (wp_udev_device_string with "Hl"); [done|]. iIntros "Hl".
  destruct (syspath_owned l id) as (t & -> & -> & Ht). wp_steps.
  iApply (wp_wand with "[Hl]").
  { iApply (string_copy_spec with "Hl"); [by apply reads_owned_id|done|done]. }
  iIntros (r x') "[Hl H]". iFrame.
Qed.

Lemma udevw_get_devnode_copy_spec p l did id x :
  device_ref p l did id →
  {{ l ↦ OUdevDevice did }} udevw_get_devnode_copy p @ x {{ r x',
    l ↦ OUdevDevice did ∗
    returns (s_devnode id) x x' r.1 (str_own r.2) ⟪r.2 = NULL⟫ }}.
Proof.
  iIntros (Hp) "Hl". pose proof (device_ref_not_null _ _ _ _ Hp) as Hn.
  unfold udevw_get_devnode_copy. wp_steps. wp_call (udevw_get_devnode_spec _ _ _ _ Hp x).
  iIntros ([e t] x1) "[Hl H]". returned "H"; last first.
  { wp_steps. iFrame. fails. }
  iDestruct "Hok" as %[-> Ht]. iApply (wp_wand with "[Hl]").
  { iApply (string_copy_spec with "Hl"); [by apply reads_owned_id|done|done]. }
  iIntros (r x') "[Hl H]". iFrame. destruct Ha as [Hc Hs].
  iApply (returns_tail with "H"); [done|]. by rewrite Hs.
Qed.

Definition s_devnode_from_syspath (path : string) : Spec string :=
  s_create_context;; id ← s_device path; s_devnode id.

Lemma udevw_get_devnode_copy_from_syspath_spec R syspath path x :
  reads R syspath path → is_null syspath = false → no_nul path = true →
  {{ R }} udevw_get_devnode_copy_from_syspath syspath @ x {{ r x',
    R ∗ returns (s_devnode_from_syspath path) x x' r.1 (str_own r.2) ⟪r.2 = NULL⟫ }}.
Proof.
  iIntros (Hr Hn Hp) "HR". unfold udevw_get_devnode_copy_from_syspath, udev_unref. wp_steps.
  wp_call (udevw_create_context_spec x). iIntros ([e ctx] x1) "H". returned "H"; last first.
  { wp_steps. iDestruct "Hbad" as %->. wp_steps. iFrame. fails. }
  wp_step. wp_call (udevw_get_device_from_syspath_spec R _ _ _ x1 Hr Hn Hp).
  iIntros ([e dev] x2) "(HR & (%lc & -> & Hc) & H)". destruct a. returned "H"; last first.
  { wp_steps. iDestruct "Hbad" as %->. wp_steps. iFrame. fails. }
  iDestruct "Hok" as (ld) "[-> Hd]". wp_step.
  assert (Href : device_ref (Heap ld) ld a a) by by left.
  wp_call (udevw_get_devnode_copy_spec _ _ _ _ x2 Href). iIntros ([e q] x3) "[Hd H]".
  unfold udev_device_unref. wp_steps. iFrame.
  iApply (returns_bind with "[H]"); [done|]. by iApply (returns_bind with "[H]").
Qed.
End code.
