(* ===== verification/DeviceLinux.v ===== *)
(** * DeviceLinux: device objects (src/src/linux/device_linux.c)

    Creation of a [libusbp_device] from a libudev device, its copy, its getters
    and its release.  An output pointer of the public functions that can be NULL
    is a boolean argument; what the function stores through it is part of the
    result ([None]: nothing was stored). *)

From S2P Require Import Prelude Memory Logic Format Errors Results Basics Strings LinuxOS ErrnoLinux UdevLinux.
#[local] Set Warnings "-rewrite-rw".

Section code.
Context `{OS : LinuxOS}.

Definition device_create (dev : ptr) : M (ptr * option ptr) :=
  c_assert (negb (is_null dev));;
  (* Allocate memory for the device. *)
  new_device ← malloc sizeof_libusbp_device OUninit;
  let error := if is_null new_device then Static error_no_memory else NULL in
  (* Get the syspath. *)
  '(error, new_syspath) ← if_ok error NULL (udevw_get_syspath_copy dev);
  (* Get the vendor ID. *)
  '(error, vendor_id) ← if_ok error None (udevw_get_sysattr_uint16 dev "idVendor");
  (* Get the product ID. *)
  '(error, product_id) ← if_ok error None (udevw_get_sysattr_uint16 dev "idProduct");
  (* Get the revision. *)
  '(error, revision) ← if_ok error None (udevw_get_sysattr_uint16 dev "bcdDevice");
  (* Get the serial number. *)
  '(error, new_serial_number) ← if_ok error NULL (udevw_get_sysattr_if_exists_copy dev "serial");
  (* Populate the new device and give it to the caller. *)
  if is_null error then
    vendor_id ← initialised vendor_id;
    product_id ← initialised product_id;
    revision ← initialised revision;
    store new_device (ODevice {| dev_syspath := new_syspath;
                                 dev_serial_number := new_serial_number;
                                 dev_product_id := product_id;
                                 dev_vendor_id := vendor_id;
                                 dev_revision := revision |});;
    free NULL;; free NULL;; free NULL;;
    mret (error, Some new_device)
  else
    free new_serial_number;;
    free new_syspath;;
    free new_device;;
    mret (error, None).

Definition libusbp_device_free (device : ptr) : M unit :=
  if is_null device then mret tt else
  d ← load_as as_device device;
  free (dev_serial_number d);;
  free (dev_syspath d);;
  free device.

Definition libusbp_device_copy (source : ptr) (dest_given : bool) : M (ptr * option ptr) :=
  if negb dest_given then
    error ← error_create "Device output pointer is null.";
    mret (error, None)
  else if is_null source then mret (NULL, Some NULL) else
  (* Allocate memory for the device. *)
  new_device ← malloc sizeof_libusbp_device OUninit;
  let error := if is_null new_device then Static error_no_memory else NULL in
  (* Copy the syspath. *)
  '(error, new_syspath) ← if_ok error NULL
    (d ← load_as as_device source;
     c_assert (negb (is_null (dev_syspath d)));;
     string_copy (dev_syspath d));
  (* Copy the serial number if it is not NULL. *)
  '(error, new_serial_number) ← if_ok error NULL
    (d ← load_as as_device source;
     if negb (is_null (dev_serial_number d)) then string_copy (dev_serial_number d)
     else mret (NULL, NULL));
  (* Assemble the new device and give it to the caller. *)
  if is_null error then
    d ← load_as as_device source;
    store new_device (ODevice {| dev_syspath := new_syspath;
                                 dev_serial_number := new_serial_number;
                                 dev_product_id := dev_product_id d;
                                 dev_vendor_id := dev_vendor_id d;
                                 dev_revision := dev_revision d |});;
    free NULL;; free NULL;; free NULL;;
    mret (error, Some new_device)
  else
    free new_device;;
    free new_syspath;;
    free new_serial_number;;
    mret (error, Some NULL).

(** The common body of the three getters of a number. *)
Definition device_get_number (field : libusbp_device → Z) (name : string)
    (device : ptr) (out_given : bool) : M (ptr * option Z) :=
  if negb out_given then
    error ← error_create (name +:+ " output pointer is null.");
    mret (error, None)
  else if is_null device then
    error ← error_create "Device is null.";
    mret (error, Some 0)
  else
    d ← load_as as_device device;
    mret (NULL, Some (field d)).

Definition libusbp_device_get_vendor_id : ptr → bool → M (ptr * option Z) :=
  device_get_number dev_vendor_id "Vendor ID".
Definition libusbp_device_get_product_id : ptr → bool → M (ptr * option Z) :=
  device_get_number dev_product_id "Product ID".
Definition libusbp_device_get_revision : ptr → bool → M (ptr * option Z) :=
  device_get_number dev_revision "Device revision".

Definition libusbp_device_get_serial_number (device : ptr) (out_given : bool) :
    M (ptr * option ptr) :=
  if negb out_given then
    error ← error_create "Serial number output pointer is null.";
    mret (error, None)
  else if is_null device then
    error ← error_create "Device is null.";
    mret (error, Some NULL)
  else
    d ← load_as as_device device;
    if is_null (dev_serial_number d) then
      error ← error_create "Device does not have a serial number.";
      error ← error_add_code error LIBUSBP_ERROR_NO_SERIAL_NUMBER;
      mret (error, Some NULL)
    else
      '(error, copy) ← string_copy (dev_serial_number d);
      mret (error, Some copy).

Definition libusbp_device_get_os_id (device : ptr) (out_given : bool) : M (ptr * option ptr) :=
  if negb out_given then
    error ← error_create "Device OS ID output pointer is null.";
    mret (error, None)
  else if is_null device then
    error ← error_create "Device is null.";
    mret (error, Some NULL)
  else
    d ← load_as as_device device;
    '(error, copy) ← string_copy (dev_syspath d);
    mret (error, Some copy).
End code.

(** ** What a device object holds *)

Record device := Device {
  d_syspath : string;
  d_serial : option string;
  d_product : Z;
  d_vendor : Z;
  d_revision : Z
}.

#[export] Instance device_eq_dec : EqDecision device.
Proof. solve_decision. Defined.

Definition device_own (p : ptr) (d : device) : hProp :=
  (∃ l sp sn, ⟪p = Heap l ∧ u16 (d_product d) ∧ u16 (d_vendor d) ∧ u16 (d_revision d)⟫ ∗
     l ↦ ODevice {| dev_syspath := sp; dev_serial_number := sn;
                    dev_product_id := d_product d; dev_vendor_id := d_vendor d;
                    dev_revision := d_revision d |} ∗
     str_own sp (d_syspath d) ∗ opt_str_own sn (d_serial d))%I.

Lemma device_own_intro l sp sn d :
  u16 (d_product d) ∧ u16 (d_vendor d) ∧ u16 (d_revision d) →
  l ↦ ODevice {| dev_syspath := sp; dev_serial_number := sn;
                 dev_product_id := d_product d; dev_vendor_id := d_vendor d;
                 dev_revision := d_revision d |} -∗
  str_own sp (d_syspath d) -∗ opt_str_own sn (d_serial d) -∗ device_own (Heap l) d.
Proof. iIntros (H) "Hl Hs Hn". iExists l, sp, sn. by iFrame. Qed.

Lemma device_own_not_null p d : device_own p d ⊢ ⌜is_null p = false⌝ ∧ device_own p d.
Proof.
  iIntros "H". iSplit; [|done]. by iDestruct "H" as (l sp sn) "[%H _]"; destruct H as [-> _].
Qed.

Lemma libusbp_device_free_spec p d x :
  {{ device_own p d }} libusbp_device_free p @ x {{ r x', ⟪x' = x⟫ }}.
Proof.
  iIntros "(%l & %sp & %sn & %H & Hl & Hs & Hn)". destruct H as [-> _].
  unfold libusbp_device_free. wp_steps. wp_call (free_opt_str sn _ x). iIntros ([] ?) "->".
  wp_step. wp_call (free_str sp _ x). iIntros ([] ?) "->". wp_steps. by iPureIntro.
Qed.

#[export] Instance device_objects : DeviceObjects device libusbp_device_free := {|
  Basics.device_own := device_own;
  Basics.device_own_not_null := device_own_not_null;
  Basics.device_free_spec := libusbp_device_free_spec
|}.

Lemma libusbp_device_free_null x Q : Q tt x ⊢ wp (libusbp_device_free NULL) x Q.
Proof. apply wp_ret. Qed.

(** Releasing whatever a local variable holds. *)
Ltac wp_frees :=
  repeat
    (wp_steps;
     lazymatch goal with
     | |- envs_entails _ (wp (free ?p) ?x _) =>
         (wp_call (free_str p _ x) || wp_call (free_opt_str p _ x)
          || wp_call (free_spec p OUninit x eq_refl)); iIntros ([] ?) "->"
     | |- envs_entails _ (wp (libusbp_string_free ?p) ?x _) =>
         (wp_call (free_str p _ x) || (unfold libusbp_string_free; iApply wp_free_null));
         try iIntros ([] ?) "->"
     | |- envs_entails _ (wp (libusbp_device_free NULL) ?x _) =>
         iApply libusbp_device_free_null
     | |- envs_entails _ (wp (libusbp_device_free ?p) ?x _) =>
         wp_call (libusbp_device_free_spec p _ x); iIntros ([] ?) "->"
     | |- envs_entails _ (wp (udev_device_unref ?p) ?x _) =>
         wp_call (udev_device_unref_spec p _ x); iIntros ([] ?) "->"
     end); wp_steps.

Section specs.
Context `{OS : LinuxOS} {LAWS : LinuxLaws OS}.

(** ** Creation *)

Definition s_device_create (id : Z) : Spec device :=
  vendor ← s_sysattr sscanf_4hx id "idVendor";
  product ← s_sysattr sscanf_4hx id "idProduct";
  revision ← s_sysattr sscanf_4hx id "bcdDevice";
  mret (Device (default "" (udev_str os_syspath id)) (udev_str (os_sysattr "serial") id)
               product vendor revision).

Lemma s_sysattr_u16 id name x x' n :
  succeeded (s_sysattr sscanf_4hx id name) x x' n → u16 n.
Proof.
  intros [_ E]. unfold s_sysattr in E.
  destruct (udev_str (os_sysattr name) id) as [t|]; cbn [sopt] in E.
  - erewrite sbind_ok in E; [|apply sret_eq].
    destruct (sscanf_4hx t) as [m|] eqn:Em; cbn [sopt] in E; [|done].
    rewrite sret_eq in E. injection E as -> _. by eapply sscanf_4hx_range.
  - erewrite sbind_err in E; [|done]. done.
Qed.

Lemma device_create_spec l id x :
  {{ l ↦ OUdevDevice id }} device_create (Heap l) @ x {{ r x',
    l ↦ OUdevDevice id ∗
    returns (s_device_create id) x x' r.1
      (λ d, ∃ p, ⟪r.2 = Some p⟫ ∗ device_own p d) ⟪r.2 = None⟫ }}.
Proof.
  iIntros "Hl". unfold device_create, if_ok. assert (Href : device_ref (Heap l) l id id) by by left.
  wp_steps. iApply wp_malloc_pos; [done|]. iSplit; last first.
  { iIntros (x1 [Hq Ho]). wp_steps. iFrame. by iApply returns_no_memory. }
  iIntros (ln Hln) "Hn". wp_step. wp_call (udevw_get_syspath_copy_spec _ _ _ _ x Href).
  iIntros ([e sp] x1) "[Hl H]". returned "H"; last first.
  { iDestruct "Hbad" as %->. wp_frees. iFrame. iRight. iExists got. iFrame. iPureIntro.
    split; [by eapply pure_failed|done]. }
  apply succeeded_ret_inv in Ha as (-> & Ht & Hc). rename x1 into y. iRename "Hok" into "Hsp".
  assert (Hs : s_device_create id (x_trace x) = s_device_create id (x_trace y)) by by rewrite Ht.
  wp_step. wp_call (udevw_get_sysattr_spec _ _ _ _ Href sscanf_4hx "idVendor" y eq_refl).
  iIntros ([e v] x1) "[Hl H]". returned "H"; last first.
  { wp_frees. iFrame. iApply (returns_tail with "[-]"); [exact Hc|exact Hs|]. fails. }
  iDestruct "Hok" as %->. wp_step.
  wp_call (udevw_get_sysattr_spec _ _ _ _ Href sscanf_4hx "idProduct" x1 eq_refl).
  iIntros ([e v] x2) "[Hl H]". rename a into vendor. returned "H"; last first.
  { wp_frees. iFrame. iApply (returns_tail with "[-]"); [exact Hc|exact Hs|]. fails. }
  iDestruct "Hok" as %->. wp_step.
  wp_call (udevw_get_sysattr_spec _ _ _ _ Href sscanf_4hx "bcdDevice" x2 eq_refl).
  iIntros ([e v] x3) "[Hl H]". rename a into product. returned "H"; last first.
  { wp_frees. iFrame. iApply (returns_tail with "[-]"); [exact Hc|exact Hs|]. fails. }
  iDestruct "Hok" as %->. wp_step. rename a into revision.
  wp_call (udevw_get_sysattr_if_exists_copy_spec _ _ _ _ Href "serial" x3).
  iIntros ([e sn] x4) "[Hl H]". returned "H"; last first.
  { iDestruct "Hbad" as %->. wp_frees. iFrame. iApply (returns_tail with "[-]"); [exact Hc|exact Hs|].
    iRight. iExists got. iFrame. iSplit; [|done]. iPureIntro. unfold s_device_create.
    repeat (eapply failed_bind_r; [eassumption|]). by eapply failed_ret. }
  apply succeeded_ret_inv in Ha2 as (-> & Ht' & Hc').
  unfold initialised. wp_frees. iFrame.
  iApply (returns_tail with "[-]"); [exact Hc|exact Hs|].
  iApply (returns_ok with "[-]").
  { unfold s_device_create. repeat (eapply succeeded_bind; [eassumption|]). by apply succeeded_ret. }
  iExists (Heap ln). iSplit; [done|]. iExists ln, sp, sn. iFrame. iPureIntro.
  split_and!; [done|by eapply s_sysattr_u16..].
Qed.

(** ** Copying strings that are owned *)

(** ** Copies *)

Lemma libusbp_device_copy_spec p d x :
  {{ device_own p d }} libusbp_device_copy p true @ x {{ r x',
    device_own p d ∗
    returns (mret d) x x' r.1 (λ d, ∃ q, ⟪r.2 = Some q⟫ ∗ device_own q d) ⟪r.2 = Some NULL⟫ }}.
Proof.
  iIntros "(%l & %sp & %sn & %H & Hl & Hs & Hn)". destruct H as [-> Hr].
  unfold libusbp_device_copy, if_ok. wp_steps. iApply wp_malloc_pos; [done|]. iSplit; last first.
  { iIntros (x1 [Hq Ho]). iDestruct (device_own_intro with "Hl Hs Hn") as "H"; [done|].
    wp_steps. iFrame. by iApply returns_no_memory. }
  iIntros (ln Hln) "Hnew". iDestruct (str_own_not_null with "Hs") as "[%Hnn Hs]". wp_steps.
  wp_call (string_copy_own _ _ x). iIntros ([e sp'] x1) "[Hs H]". returned "H"; last first.
  { iDestruct "Hbad" as %->. iDestruct (device_own_intro with "[$] Hs Hn") as "H"; [done|].
    wp_frees. iFrame. iRight. iExists got. iFrame. iPureIntro.
    split; [by eapply pure_failed|done]. }
  apply succeeded_ret_inv in Ha as (-> & Ht & Hc). iRename "Hok" into "Hs'". wp_steps.
  wp_call (string_copy_opt sn (d_serial d) x1). iIntros ([e sn'] x2) "[Hn H]".
  returned "H"; last first.
  { iDestruct "Hbad" as %->. iDestruct (device_own_intro with "[$] Hs Hn") as "H"; [done|].
    wp_frees. iFrame. iApply (returns_tail _ (mret d) x x1 with "[-]"); [exact Hc|by rewrite Ht|].
    iRight. iExists got. iFrame. iPureIntro. split; [by eapply pure_failed|done]. }
  apply succeeded_ret_inv in Ha as (-> & Ht' & Hc'). wp_steps.
  iDestruct (device_own_intro l sp sn d with "[$] Hs Hn") as "H"; [done|].
  iDestruct (device_own_intro ln sp' sn' d with "[$] Hs' Hok") as "H'"; [done|]. iFrame "H".
  iApply (returns_ok _ _ _ d).
  { apply succeeded_ret; [by etrans|congruence]. }
  iExists (Heap ln). by iFrame.
Qed.

(** ** Getters *)

Lemma device_own_load p d x Q :
  device_own p d -∗
  (∀ sp sn, str_own sp (d_syspath d) -∗ opt_str_own sn (d_serial d) -∗
     (str_own sp (d_syspath d) -∗ opt_str_own sn (d_serial d) -∗ device_own p d) -∗
     Q {| dev_syspath := sp; dev_serial_number := sn; dev_product_id := d_product d;
          dev_vendor_id := d_vendor d; dev_revision := d_revision d |} x) -∗
  wp (load_as as_device p) x Q.
Proof.
  iIntros "(%l & %sp & %sn & %H & Hl & Hs & Hn) HQ". pose proof H as [-> _].
  iApply (wp_load_as with "Hl"); [done|]. iIntros "Hl". iApply ("HQ" with "Hs Hn").
  iIntros "Hs Hn". iExists l, sp, sn. by iFrame.
Qed.

Lemma device_get_number_spec field name value p d x :
  (∀ sp sn, field {| dev_syspath := sp; dev_serial_number := sn; dev_product_id := d_product d;
                     dev_vendor_id := d_vendor d; dev_revision := d_revision d |} = value) →
  {{ device_own p d }} device_get_number field name p true @ x {{ r x',
    ⟪r = (NULL, Some value) ∧ x' = x⟫ ∗ device_own p d }}.
Proof.
  iIntros (Hf) "H". iDestruct (device_own_not_null with "H") as "[%Hn H]".
  unfold device_get_number. wp_steps. iApply (device_own_load with "H").
  iIntros (sp sn) "Hs Hn H". wp_steps. rewrite Hf. iSplit; [done|]. by iApply ("H" with "Hs").
Qed.

Lemma libusbp_device_get_vendor_id_spec p d x :
  {{ device_own p d }} libusbp_device_get_vendor_id p true @ x {{ r x',
    ⟪r = (NULL, Some (d_vendor d)) ∧ x' = x⟫ ∗ device_own p d }}.
Proof. by apply device_get_number_spec. Qed.

Lemma libusbp_device_get_product_id_spec p d x :
  {{ device_own p d }} libusbp_device_get_product_id p true @ x {{ r x',
    ⟪r = (NULL, Some (d_product d)) ∧ x' = x⟫ ∗ device_own p d }}.
Proof. by apply device_get_number_spec. Qed.

Lemma libusbp_device_get_revision_spec p d x :
  {{ device_own p d }} libusbp_device_get_revision p true @ x {{ r x',
    ⟪r = (NULL, Some (d_revision d)) ∧ x' = x⟫ ∗ device_own p d }}.
Proof. by apply device_get_number_spec. Qed.

Definition no_serial_number : aerr :=
  err_code (err_new "Device does not have a serial number.") LIBUSBP_ERROR_NO_SERIAL_NUMBER.

Lemma libusbp_device_get_serial_number_spec p d x :
  {{ device_own p d }} libusbp_device_get_serial_number p true @ x {{ r x',
    device_own p d ∗
    returns (sopt (d_serial d) no_serial_number) x x' r.1 (out_str r.2) ⟪r.2 = Some NULL⟫ }}.
Proof.
  iIntros "H". iDestruct (device_own_not_null with "H") as "[%Hn H]".
  unfold libusbp_device_get_serial_number. wp_steps. iApply (device_own_load with "H").
  iIntros (sp sn) "Hs Hn H". iDestruct (opt_str_own_null with "Hn") as "[%Hsn Hn]".
  destruct (d_serial d) as [s|]; cbn [opt_str_own].
  - wp_steps. wp_call (string_copy_own sn s x). iIntros ([e q] x1) "[Hn H']".
    iDestruct ("H" with "Hs Hn") as "H". wp_steps. iFrame. by iApply returns_out_str.
  - wp_steps. err_chain. iDestruct ("H" with "Hs Hn") as "H". iFrame.
    iApply (returns_sopt with "[-]"); [done|]. by iFrame.
Qed.

Lemma libusbp_device_get_os_id_spec p d x :
  {{ device_own p d }} libusbp_device_get_os_id p true @ x {{ r x',
    device_own p d ∗
    returns (mret (d_syspath d)) x x' r.1 (out_str r.2) ⟪r.2 = Some NULL⟫ }}.
Proof.
  iIntros "H". iDestruct (device_own_not_null with "H") as "[%Hn H]".
  unfold libusbp_device_get_os_id. wp_steps. iApply (device_own_load with "H").
  iIntros (sp sn) "Hs Hn H". wp_steps. wp_call (string_copy_own sp _ x).
  iIntros ([e q] x1) "[Hs H']". iDestruct ("H" with "Hs Hn") as "H". wp_steps. iFrame.
  by iApply returns_out_str.
Qed.
End specs.

(** ** Properties *)

Section properties.
Context `{OS : LinuxOS} {LAWS : LinuxLaws OS}.

(** The attribute [name] of the device is the number [n] as the kernel prints it. *)
Definition sysfs_u16 (id : Z) (name : string) (n : Z) : Prop :=
  u16 n ∧ ∃ s, os_sysattr name id = Some s ∧ sysfs_hex 4 n s.

Lemma sysattr_kernel_format id name n h :
  sysfs_u16 id name n → s_sysattr sscanf_4hx id name h = (inr n, h).
Proof.
  intros (Hn & s & E & Hs). unfold s_sysattr, udev_str. rewrite E.
  cbn [fmap option_fmap option_map sopt].
  rewrite until_nul_id; [|by eapply sysfs_hex_no_nul].
  rewrite (sbind_ok _ _ _ _ _ (sret_eq _ h)). by rewrite (sscanf_4hx_sysfs n).
Qed.

(** C39. Reading a device back from sysfs: when the kernel prints the vendor ID,
    product ID and revision as it does (four hexadecimal digits and a newline, which libudev may strip),
    [device_create] returns a device with exactly these numbers, for every 16-bit
    value of them, the device's syspath and its serial number (none if there is
    no such attribute); or, only if an allocation failed, an error with
    [LIBUSBP_ERROR_MEMORY], and then everything it allocated is freed again. *)
Theorem device_create_reads_sysfs l id vid pid rev x :
  sysfs_u16 id "idVendor" vid → sysfs_u16 id "idProduct" pid →
  sysfs_u16 id "bcdDevice" rev →
  {{ l ↦ OUdevDevice id }} device_create (Heap l) @ x {{ r x',
    l ↦ OUdevDevice id ∗
    ((∃ p, ⟪r = (NULL, Some p) ∧ x_trace x' = x_trace x⟫ ∗
       device_own p (Device (default "" (udev_str os_syspath id))
                            (udev_str (os_sysattr "serial") id) pid vid rev)) ∨
     (∃ a, ⟪r.2 = None ∧ mem_err a ∧ oomed x x'⟫ ∗ err_own r.1 a)) }}.
Proof.
  iIntros (Hv Hp Hr) "Hl". iApply (wp_wand with "[Hl]"); [by iApply device_create_spec|].
  iIntros ([e o] x') "[Hl H]". iFrame. set (d := Device _ _ _ _ _).
  assert (Hs : s_device_create id (x_trace x) = (inr d, x_trace x)).
  { unfold s_device_create.
    rewrite (sbind_ok _ _ _ _ _ (sysattr_kernel_format _ _ _ _ Hv)).
    rewrite (sbind_ok _ _ _ _ _ (sysattr_kernel_format _ _ _ _ Hp)).
    rewrite (sbind_ok _ _ _ _ _ (sysattr_kernel_format _ _ _ _ Hr)). apply sret_eq. }
  iDestruct "H" as "[(%a & %Ha & Hok)|(%got & %Hf & He & Hbad)]"; cbn [fst snd] in *.
  - iLeft. destruct Ha as [-> [Hc Ha]]. rewrite Hs in Ha. injection Ha as <- Ht.
    iDestruct "Hok" as (p) "[-> Hd]". iExists p. by iFrame.
  - iRight. iExists got. iFrame. iDestruct "Hbad" as %->. iPureIntro.
    destruct Hf as [Hc [E|E]]; [|done]. by rewrite Hs in E.
Qed.

(** A copy of a device is independent of it: after copying and freeing the
    original, the getters on the copy return the original's vendor ID, product
    ID, revision, OS ID and serial number (none when it has none), and freeing the
    copy and the strings leaves no memory behind.  It can be otherwise only if an
    allocation failed. *)
Theorem libusbp_device_copy_is_deep p d x :
  {{ device_own p d }}
    ('(e, out) ← libusbp_device_copy p true;
     q ← initialised out;
     libusbp_device_free p;;
     if is_null e then
       '(_, vid) ← libusbp_device_get_vendor_id q true;
       '(_, pid) ← libusbp_device_get_product_id q true;
       '(_, rev) ← libusbp_device_get_revision q true;
       id ← take_string (libusbp_device_get_os_id q true);
       serial ← take_string (libusbp_device_get_serial_number q true);
       libusbp_device_free q;;
       mret (Some (vid, pid, rev, id, serial))
     else
       libusbp_error_free e;;
       mret None) @ x
  {{ r x', ⟪(r = Some (Some (d_vendor d), Some (d_product d), Some (d_revision d),
                       Some (d_syspath d), d_serial d) ∧ x_trace x' = x_trace x) ∨
             oomed x x'⟫ }}.
Proof.
  iIntros "H". wp_step. wp_call (libusbp_device_copy_spec p d x).
  iIntros ([e out] x1) "[Hp H]". returned "H"; unfold initialised; last first.
  { iDestruct "Hbad" as %->. wp_frees. wp_call (libusbp_error_free_spec e (Some got) _).
    iIntros ([] ?) "->". wp_steps. iPureIntro. right.
    destruct Hfailed as [_ [E|[_ ?]]]; [by rewrite sret_eq in E|done]. }
  apply succeeded_ret_inv in Ha as (-> & Ht & [Ho _]). iDestruct "Hok" as (q) "[-> Hq]".
  wp_frees. wp_call (libusbp_device_get_vendor_id_spec q d x1). iIntros (? ?) "[%H Hq]". destruct H as [-> ->].
  wp_steps. wp_call (libusbp_device_get_product_id_spec q d x1). iIntros (? ?) "[%H Hq]". destruct H as [-> ->].
  wp_steps. wp_call (libusbp_device_get_revision_spec q d x1). iIntros (? ?) "[%H Hq]". destruct H as [-> ->].
  wp_steps. wp_call (take_string_spec _ _ _ _ (libusbp_device_get_os_id_spec q d x1)).
  iIntros (id x2) "[Hq %Hid]". wp_steps.
  wp_call (take_string_spec _ _ _ _ (libusbp_device_get_serial_number_spec q d x2)).
  iIntros (sn x3) "[Hq %Hsn]". wp_frees. iPureIntro.
  destruct Hid as [(t & -> & (-> & Ht2 & [Ho2 _])%succeeded_ret_inv)|(-> & got & [_ E])];
    last first.
  { right. destruct E as [E|[_ E]]; [by rewrite sret_eq in E|].
    assert ((x_oom x2 ≤ x_oom x3)%nat) by (destruct Hsn as [(? & _ & [[? _] _])|(_ & ? & [[? _] _])]; done).
    ext_tac. }
  destruct Hsn as [(t & -> & [[Ho3 _] E])|(-> & got & [[Ho3 _] E])].
  - destruct (d_serial d) as [s|]; [|done]. cbn [sopt] in E. rewrite sret_eq in E.
    injection E as -> E. left. split; [done|congruence].
  - destruct E as [E|[_ E]]; [|right; ext_tac]. left.
    destruct (d_serial d) as [s|]; cbn [sopt] in E; [by rewrite sret_eq in E|].
    injection E as _ E. split; [done|congruence].
Qed.
End properties.

#[local] Existing Instance Example_machine.machine.
#[local] Existing Instance Example_machine.machine_laws.

Lemma device_create_reads_sysfs_witness :
  default "" (udev_str os_syspath 1) = "/sys/usb1/1-1" ∧
  udev_str (os_sysattr "serial") 1 = Some "00012345" ∧
  {{ 7%positive ↦ OUdevDevice 1 }} device_create (Heap 7%positive) @ empty_ext {{ r x',
    7%positive ↦ OUdevDevice 1 ∗
    ((∃ p, ⟪r = (NULL, Some p) ∧ x_trace x' = x_trace empty_ext⟫ ∗
       device_own p (Device (default "" (udev_str os_syspath 1))
                            (udev_str (os_sysattr "serial") 1) 0xda01 0x1ffb 0x111)) ∨
     (∃ a, ⟪r.2 = None ∧ mem_err a ∧ oomed empty_ext x'⟫ ∗ err_own r.1 a)) }}.
Proof.
  split_and!; [by vm_compute|by vm_compute|].
  apply device_create_reads_sysfs; (split; [unfold u16; lia|eexists; split; [reflexivity|by left]]).
Defined.
