(* ===== verification/ListLinux.v ===== *)
(** * ListLinux: listing devices on Linux (src/src/linux/list_linux.c)

    [libusbp_list_connected_devices] builds the array of devices; an entry whose
    device cannot be examined (it is being unplugged, say) is left out of the list.
    The list pointer and the count, which the C code updates through
    pointers, are passed in and returned. *)

From S2P Require Import Prelude Memory Logic Format Errors Results Basics Strings LinuxOS ErrnoLinux UdevLinux DeviceLinux.
#[local] Set Warnings "-rewrite-rw".

Section code.
Context `{OS : LinuxOS}.

Definition add_udev_device_to_list (dev device_list : ptr) (device_count : Z) :
    M (ptr * ptr * Z) :=
  c_assert (negb (is_null dev));;
  (* Create a new device. *)
  '(error, new_device) ← device_create dev;
  if negb (is_null error) then mret (error, device_list, device_count) else
  new_device ← initialised new_device;
  (* Add the device to the list. *)
  '(error, device_list, device_count) ← device_list_append device_list device_count new_device;
  if negb (is_null error) then
    libusbp_device_free new_device;;
    mret (error, device_list, device_count)
  else mret (NULL, device_list, device_count).

Definition add_udev_device_to_list_if_needed (udev syspath device_list : ptr) (device_count : Z) :
    M (ptr * ptr * Z) :=
  c_assert (negb (is_null udev));;
  c_assert (negb (is_null syspath));;
  (* Get the udev device. *)
  '(error, dev) ← udevw_get_device_from_syspath udev syspath;
  (* Get the devtype, which is typically usb_device or usb_interface. *)
  '(error, devtype) ← if_ok error NULL (udevw_get_device_type dev);
  (* Skip the interfaces, just add the actual USB devices. *)
  skip ← (if is_null error then c ← strcmp devtype (Lit "usb_device"); mret (negb (c =? 0))
          else mret false);
  (* Skip devices that have not been initialized yet. *)
  skip ← (if is_null error && negb skip then
            b ← udev_device_get_is_initialized dev; mret (negb b)
          else mret skip);
  '(error, device_list, device_count) ←
    (if is_null error && negb skip then add_udev_device_to_list dev device_list device_count
     else mret (error, device_list, device_count));
  when (negb (is_null dev)) (udev_device_unref dev);;
  mret (error, device_list, device_count).

(** The loop over the entries; errors are freed and ignored. *)
Fixpoint list_connected_devices_loop (udev enumerate : ptr) (entries : list string)
    (new_list : ptr) (count : Z) : M (ptr * Z) :=
  match entries with
  | [] => mret (new_list, count)
  | entry :: entries =>
      let path := udev_list_entry_name enumerate entry in
      c_assert (negb (is_null path));;
      '(error, new_list, count) ← add_udev_device_to_list_if_needed udev path new_list count;
      when (negb (is_null error)) (libusbp_error_free error);;
      list_connected_devices_loop udev enumerate entries new_list count
  end.

(** The error, what is stored in [*device_list] and what is stored in
    [*device_count]. *)
Definition libusbp_list_connected_devices (list_given count_given : bool) :
    M (ptr * option ptr * option Z) :=
  let device_count := if count_given then Some 0 else None in
  if negb list_given then
    error ← error_create "Device list output pointer is null.";
    mret (error, None, device_count)
  else
  (* Create a udev context. *)
  '(error, udev) ← udevw_create_context;
  (* Create a list of USB devices and interfaces. *)
  '(error, enumerate) ← if_ok error NULL (udevw_create_usb_list udev);
  (* Allocate a new list. *)
  '(error, new_list) ← if_ok error NULL device_list_create;
  (* Iterate over the devices and add them to the list. *)
  '(new_list, count) ←
    (if is_null error then
       entries ← udev_enumerate_entries enumerate;
       list_connected_devices_loop udev enumerate entries new_list 0
     else mret (new_list, 0));
  (* Pass the list and the count to the caller. *)
  let '(device_list, device_count, new_list) :=
    if is_null error then
      (Some new_list, if count_given then Some count else device_count, NULL)
    else (None, device_count, new_list) in
  (* Clean up everything we used. *)
  when (negb (is_null enumerate)) (udev_enumerate_unref enumerate);;
  when (negb (is_null udev)) (udev_unref udev);;
  free_devices_and_list libusbp_device_free new_list;;
  mret (error, device_list, device_count).

End code.

(** ** What the functions mean *)

Section specs.
Context `{OS : LinuxOS} {LAWS : LinuxLaws OS}.

(** One entry: [None] when it is not a USB device, or not initialised yet. *)
Definition s_list_entry (path : string) : Spec (option device) :=
  id ← s_device path;
  devtype ← s_devtype id;
  if negb (bool_decide (devtype = "usb_device")) then mret None else
  if negb (os_initialized id) then mret None else
  d ← s_device_create id;
  mret (Some d).

(** The devices of the entries, without those that cannot be examined. *)
Fixpoint s_list_entries (entries : list string) : Spec (list device) := λ h,
  match entries with
  | [] => (inr [], h)
  | entry :: entries =>
      let '(r, h) := s_list_entry (until_nul entry) h in
      let '(ds, h) := s_list_entries entries h in
      (match r, ds with
       | inr (Some d), inr ds => inr (d :: ds)
       | _, _ => ds
       end, h)
  end.

Definition s_list_connected : Spec (list device) :=
  s_create_context;;
  entries ← s_create_list (MatchSubsystem "usb") "Failed to add a subsystem match.";
  s_list_entries entries.

Lemma s_list_entries_ok entries h : ∃ ds h', s_list_entries entries h = (inr ds, h').
Proof.
  revert h. induction entries as [|entry entries IH]; intros h; cbn [s_list_entries]; [by eauto|].
  destruct (s_list_entry (until_nul entry) h) as [r h1]. destruct (IH h1) as (ds & h' & ->).
  destruct r as [|[d|]]; eauto.
Qed.

(** ** One device *)

Definition added (o : option device) (ds : list device) : list device :=
  match o with Some d => ds ++ [d] | None => ds end.

Lemma add_udev_device_to_list_spec l id p ds x :
  {{ l ↦ OUdevDevice id ∗ device_list p ds }}
    add_udev_device_to_list (Heap l) p (Z.of_nat (List.length ds)) @ x
  {{ r x', l ↦ OUdevDevice id ∗
    returns (s_device_create id) x x' r.1.1
      (λ d, ⟪r.2 = Z.of_nat (List.length (ds ++ [d]))⟫ ∗ device_list r.1.2 (ds ++ [d]))
      (⟪r.2 = Z.of_nat (List.length ds)⟫ ∗ device_list r.1.2 ds) }}.
Proof.
  iIntros "[Hl Hds]". unfold add_udev_device_to_list. wp_steps.
  wp_call (device_create_spec l id x). iIntros ([e o] x1) "[Hl H]". returned "H"; last first.
  { wp_steps. iFrame "Hl". iRight. iExists got. by iFrame. }
  iDestruct "Hok" as (q) "[-> Hd]". unfold initialised. wp_steps.
  change (device_own q a) with (Basics.device_own q a).
  wp_call (device_list_append_spec p ds q a x1).
  iIntros ([[e p'] n] x2) "[[%H Hds]|[%H [Hds Hd]]]".
  - destruct H as (He & Hn & Hq). cbn [fst snd] in *. subst. wp_steps. iFrame "Hl".
    iApply (returns_ok _ _ _ a with "[-]"); [|by iFrame].
    destruct Ha as [Hc E]. split; [etrans; [done|by apply quiet_calm]|].
    destruct Hq as [-> _]. done.
  - destruct H as ([= -> -> ->] & Hq & Ho). wp_steps.
    change (Basics.device_own q a) with (device_own q a). wp_call (libusbp_device_free_spec q a x2). iIntros ([] ?) "->". wp_steps. iFrame "Hl".
    destruct Ha as [Hc E]. iApply (returns_no_memory with "[-]"); [done..|]. by iFrame.
Qed.

(** Looking at one entry keeps the loop invariant: the list gains the entry's
    device, or is as before. *)
Lemma add_if_needed_spec R udev syspath path p ds x :
  reads R syspath path → is_null syspath = false → no_nul path = true →
  {{ R ∗ udev_own udev ∗ device_list p ds }}
    add_udev_device_to_list_if_needed udev syspath p (Z.of_nat (List.length ds)) @ x
  {{ r x', R ∗ udev_own udev ∗
    returns (s_list_entry path) x x' r.1.1
      (λ o, ⟪r.2 = Z.of_nat (List.length (added o ds))⟫ ∗ device_list r.1.2 (added o ds))
      (⟪r.2 = Z.of_nat (List.length ds)⟫ ∗ device_list r.1.2 ds) }}.
Proof.
  iIntros (Hr Hn Hp) "(HR & Hu & Hds)". unfold add_udev_device_to_list_if_needed, if_ok.
  iDestruct "Hu" as (lu) "[-> Hu]".
  iAssert (udev_own (Heap lu)) with "[Hu]" as "Hu"; [by iExists lu; iFrame|]. wp_steps.
  wp_call (udevw_get_device_from_syspath_spec R _ _ _ x Hr Hn Hp).
  iIntros ([e dev] x1) "(HR & Hu & H)". returned "H"; last first.
  { wp_steps. iDestruct "Hbad" as %->. wp_steps. iFrame. iRight. iExists got. iFrame.
    iSplit; [|done]. iPureIntro. chain. }
  iDestruct "Hok" as (ld) "[-> Hd]". wp_step. rename a into id.
  assert (Href : device_ref (Heap ld) ld id id) by by left.
  unfold udev_device_unref.
  wp_call (udevw_get_device_type_spec _ _ _ _ Href x1).
  iIntros ([e t] x2) "[Hl H]". returned "H"; last first.
  { wp_steps. iFrame. iRight. iExists got. iFrame. iSplit; [|done]. iPureIntro. chain. }
  iDestruct "Hok" as %[-> Ht]. wp_steps.
  iApply (wp_strcmp_zero with "Hl []"); [by apply reads_owned_id|by apply reads_lit|done|].
  iIntros (c Hc) "Hl _". rewrite Hc.
  destruct (bool_decide (a = "usb_device")) eqn:E1; last first.
  { wp_steps. iFrame. iApply (returns_ok _ _ _ None with "[-]"); [chain|by iFrame]. }
  wp_steps. unfold udev_device_get_is_initialized. wp_step.
  iApply (wp_udev_device_deref with "Hl"); [done|]. iIntros "Hl". wp_steps.
  destruct (os_initialized id) eqn:E2; last first.
  { wp_steps. iFrame. iApply (returns_ok _ _ _ None with "[-]"); [chain|by iFrame]. }
  wp_steps. wp_call (add_udev_device_to_list_spec ld id p ds x2).
  iIntros ([[e p'] n] x3) "[Hl H]". wp_steps. iFrame.
  iDestruct "H" as "[(%d & %Hd & H)|(%got & %Hf & H)]"; cbn [fst snd] in *.
  - destruct Hd as [-> Hd]. iApply (returns_ok _ _ _ (Some d) with "[-]"); [chain|done].
  - iRight. iExists got. iFrame. iPureIntro. chain.
Qed.

(** ** The whole list *)

Lemma s_list_entries_cons entry entries h r h1 ds h2 :
  s_list_entry (until_nul entry) h = (r, h1) →
  s_list_entries entries h1 = (inr ds, h2) →
  s_list_entries (entry :: entries) h =
    (inr (match r with inr (Some d) => d :: ds | _ => ds end), h2).
Proof. cbn [s_list_entries]. intros -> ->. by destruct r as [|[]]. Qed.

(** The list after one more entry, whatever happened. *)
Lemma mostly_cons entry entries x x1 x' r ds :
  calm x x1 →
  (s_list_entry (until_nul entry) (x_trace x) = (r, x_trace x1) ∨ oomed x x1) →
  mostly (s_list_entries entries) x1 x' ds →
  mostly (s_list_entries (entry :: entries)) x x'
    (match r with inr (Some d) => d :: ds | _ => ds end).
Proof.
  intros Hc E [Hc' E']. split; [by etrans|].
  destruct E as [E|E]; [|right; by eapply oomed_l].
  destruct E' as [E'|E']; [|right; by eapply oomed_r].
  left. by eapply s_list_entries_cons.
Qed.

Lemma list_connected_devices_loop_spec udev l o entries p ds x :
  {{ udev_own udev ∗ l ↦ o ∗ device_list p ds }}
    list_connected_devices_loop udev (Heap l) entries p (Z.of_nat (List.length ds)) @ x
  {{ r x', udev_own udev ∗ l ↦ o ∗
    ∃ ds', device_list r.1 (ds ++ ds') ∗
      ⟪r.2 = Z.of_nat (List.length (ds ++ ds')) ∧ mostly (s_list_entries entries) x x' ds'⟫ }}.
Proof.
  revert p ds x. induction entries as [|entry entries IH]; intros p ds x;
    iIntros "(Hu & Hl & Hds)"; cbn [list_connected_devices_loop udev_list_entry_name].
  { wp_steps. iFrame. iExists []. rewrite app_nil_r. iFrame. iPureIntro. split; [done|].
    split; [done|by left]. }
  wp_steps. wp_call (add_if_needed_spec _ udev _ _ p ds x (reads_entry l o entry) eq_refl
                       (until_nul_no_nul _)).
  iIntros ([[e p'] n] x1) "(Hl & Hu & H)". returned "H".
  - iDestruct "Hok" as "[%Hn Hds]". subst n. wp_steps.
    iApply (wp_wand with "[Hl Hu Hds]"); [by iApply IH; iFrame|].
    iIntros ([p2 n2] x2) "(Hu & Hl & %ds' & Hds & %H)". iFrame. cbn [fst snd] in *.
    iExists (match a with Some d => d :: ds' | None => ds' end).
    destruct H as [-> Hm], Ha as [Hc E].
    destruct a as [d|]; cbn [added]; rewrite -?app_assoc; iFrame; (iPureIntro; split; [done|]).
    + exact (mostly_cons _ _ _ _ _ (inr (Some d)) _ Hc (or_introl E) Hm).
    + exact (mostly_cons _ _ _ _ _ (inr None) _ Hc (or_introl E) Hm).
  - iDestruct "Hbad" as "[%Hcount Hds]". subst n. wp_steps.
    wp_call (libusbp_error_free_spec e (Some got) x1). iIntros ([] ?) "->".
    iApply (wp_wand with "[Hl Hu Hds]"); [by iApply IH; iFrame|].
    iIntros ([p2 n2] x2) "(Hu & Hl & %ds' & Hds & %H)". iFrame. cbn [fst snd] in *.
    destruct H as [-> Hm], Hfailed as [Hc E]. iPureIntro. split; [done|].
    eapply (mostly_cons _ _ _ _ _ (inl got)); [done| |done].
    destruct E as [E|[_ E]]; [by left|by right].
Qed.

Lemma libusbp_list_connected_devices_spec count_given x :
  {{ emp }} libusbp_list_connected_devices true count_given @ x {{ r x',
    (∃ p ds, ⟪r = (NULL, Some p, if count_given then Some (Z.of_nat (List.length ds)) else None) ∧
              mostly s_list_connected x x' ds⟫ ∗ device_list p ds) ∨
    (∃ got, ⟪r.1.2 = None ∧ r.2 = (if count_given then Some 0 else None) ∧
             failed s_list_connected x x' got⟫ ∗ err_own r.1.1 got) }}.
Proof.
  iIntros "_". unfold libusbp_list_connected_devices, if_ok, udev_unref, udev_enumerate_unref.
  wp_steps. wp_call (udevw_create_context_spec x). iIntros ([e udev] x1) "H". returned "H"; last first.
  { wp_steps. iDestruct "Hbad" as %->. unfold free_devices_and_list. wp_steps.
    iRight. iExists got. iFrame. iPureIntro. split_and!; [done|done|chain]. }
  destruct a. iDestruct "Hok" as (lu) "[-> Hu]". unfold udevw_create_usb_list. wp_steps.
  iAssert (udev_own (Heap lu)) with "[Hu]" as "Hu"; [by iExists lu; iFrame|].
  wp_call (udevw_create_list_spec emp%I _ _ _
             "Failed to add a subsystem match." x1 adds_match_subsystem eq_refl).
  iIntros ([e en] x2) "(_ & (%lu' & %Hlu & Hu) & H)". injection Hlu as <-.
  returned "H"; last first.
  { wp_steps. iDestruct "Hbad" as %->. unfold free_devices_and_list. wp_steps.
    iRight. iExists got. iFrame. iPureIntro. split_and!; [done|done|chain]. }
  iDestruct "Hok" as (le fs) "[-> Hl]". wp_steps.
  wp_call (device_list_create_spec x2). iIntros ([e p] x3) "H". rename a into es. returned "H"; last first.
  { wp_steps. iDestruct "Hbad" as %->. unfold free_devices_and_list. wp_steps.
    iRight. iExists got. iFrame. iPureIntro. split_and!; [done|done|].
    do 2 (eapply failed_bind_r; [done|]). by eapply pure_failed. }
  apply succeeded_ret_inv in Ha1 as (_ & Ht3 & Hc3). wp_steps.
  iApply (wp_udev_enumerate_entries with "Hl"). iIntros "Hl".
  iAssert (udev_own (Heap lu)) with "[Hu]" as "Hu"; [by iExists lu; iFrame|].
  wp_call (list_connected_devices_loop_spec _ le (OUdevEnumerate fs es) es p [] x3).
  iIntros ([p' n] x4) "((%lu' & %Hlu & Hu) & Hl & %ds & Hds & %H)". injection Hlu as <-.
  cbn [fst snd] in *. destruct H as [-> Hm]. unfold free_devices_and_list. wp_steps.
  iLeft. iExists p', ds. iFrame. iPureIntro. split; [by destruct count_given|].
  repeat (eapply mostly_bind; [eassumption|]). by eapply mostly_quiet_l.
Qed.

End specs.

(** ** Properties *)

Section properties.
Context `{OS : LinuxOS} {LAWS : LinuxLaws OS}.

(** C26. [libusbp_list_connected_devices] lists exactly the initialised devices of
    type "usb_device" that libudev enumerates and that can be examined, in
    libudev's order: [device_list p ds] is a null-terminated array at [p] whose
    pointers refer, in the order of [ds], to new device objects with the IDs,
    revisions, serial numbers and system paths of [ds], and [ds] is the list that
    [s_list_connected] takes from libudev and sysfs.  The count is the number of the
    devices.  The errors of single entries are dropped without a leak.  It fails only
    when libudev cannot be used (or an allocation failed), with the error of
    that, and then stores no list and a count of 0.  Only when an allocation failed may the
    list differ, because a device can then be skipped. *)
Theorem libusbp_list_connected_devices_lists x :
  {{ emp }} libusbp_list_connected_devices true true @ x
  {{ r x', ⟪calm x x'⟫ ∗
     ((∃ p ds, ⟪r = (NULL, Some p, Some (Z.of_nat (List.length ds))) ∧
          (s_list_connected (x_trace x) = (inr ds, x_trace x') ∨ oomed x x')⟫ ∗ device_list p ds) ∨
      (∃ e a, ⟪r = (e, None, Some 0) ∧
          (s_list_connected (x_trace x) = (inl a, x_trace x') ∨ oomed x x')⟫ ∗ err_own e a)) }}.
Proof.
  iIntros "_". wp_call (libusbp_list_connected_devices_spec true x).
  iIntros (r x1) "[(%p & %ds & %H & Hds)|(%a & %H & He)]".
  - destruct H as (-> & Hc & Hm). iSplit; [done|]. iLeft. iExists p, ds. by iFrame.
  - destruct r as [[e l] n], H as (Hl & Hn & Hc & Hf). cbn [fst snd] in Hl, Hn. subst l n. cbn [fst].
    iSplit; [done|]. iRight. iExists e, a. iFrame. iPureIntro. split; [done|].
    destruct Hf as [Hf|[_ Hf]]; [by left|by right].
Qed.

End properties.

#[local] Existing Instance Example_machine.machine.

(** On the example machine: two devices, the interfaces are not in the list. *)
Example list_connected_example :
  (s_list_connected []).1 =
    inr [Device "/sys/usb1/1-1" (Some "00012345") 0xda01 0x1ffb 0x111;
         Device "/sys/usb1/1-2" None 0x101 0x1ffb 0x100].
Proof. vm_compute. reflexivity. Qed.

Lemma libusbp_list_connected_devices_lists_witness :
  LinuxLaws Example_machine.machine ∧
  {{ emp }} libusbp_list_connected_devices true true @ empty_ext
  {{ r x', ⟪calm empty_ext x'⟫ ∗
     ((∃ p ds, ⟪r = (NULL, Some p, Some (Z.of_nat (List.length ds))) ∧
          (s_list_connected (x_trace empty_ext) = (inr ds, x_trace x') ∨ oomed empty_ext x')⟫ ∗ device_list p ds) ∨
      (∃ e a, ⟪r = (e, None, Some 0) ∧
          (s_list_connected (x_trace empty_ext) = (inl a, x_trace x') ∨ oomed empty_ext x')⟫ ∗ err_own e a)) }}.
Proof.
  split; [exact Example_machine.machine_laws|].
  exact (libusbp_list_connected_devices_lists (LAWS := Example_machine.machine_laws) empty_ext).
Defined.
