(* ===== verification/UsbfdLinux.v ===== *)
(** * UsbfdLinux: operations on a device file (src/src/linux/usbfd_linux.c)

    Opening a USB device node, reading its descriptor, control, bulk and
    interrupt transfers, and the three URB operations.  The user's buffers are
    blocks of memory that the kernel reads or writes during the call. *)

From S2P Require Import Prelude Memory Logic Format Errors Results Basics Strings Buffers LinuxOS ErrnoLinux UdevLinux.
#[local] Set Warnings "-rewrite-rw".

Section code.
Context `{OS : LinuxOS}.

Definition usbfd_check_existence (filename : ptr) : M ptr :=
  result ← access filename;
  if negb (result =? 0) then
    errno ← get_errno;
    text ← read_cstr filename;
    if errno =? ENOENT then
      error ← error_create ("File does not exist: " +:+ text +:+ ".");
      error_add_code error LIBUSBP_ERROR_NOT_READY
    else error_create_errno ("Failed to check file: " +:+ text +:+ ".")
  else mret NULL.

(** The error and the value of [*fd]. *)
Definition usbfd_open (filename : ptr) : M (ptr * Z) :=
  c_assert (negb (is_null filename));;
  fd ← open filename;
  if fd =? -1 then
    text ← read_cstr filename;
    error ← error_create_errno ("Failed to open USB device " +:+ text +:+ ".");
    mret (error, fd)
  else mret (NULL, fd).

Definition sizeof_usb_device_descriptor : Z := 18.

Definition usbfd_get_device_descriptor (fd : Z) : M (ptr * option usb_device_descriptor) :=
  offset ← lseek fd;
  if offset =? -1 then
    error ← error_create_errno "Failed to go to beginning of USB device file.";
    mret (error, None)
  else
    let expected_size := sizeof_usb_device_descriptor in
    '(size, desc) ← read_descriptor fd expected_size;
    if size =? -1 then
      error ← error_create_errno "Failed to read device descriptor.";
      mret (error, None)
    else if negb (size =? expected_size) then
      error ← error_create ("Failed to read device descriptor.  Expected " +:+
        fmt_d expected_size +:+ "-byte device descriptor, read " +:+ fmt_d size +:+ " bytes.");
      mret (error, None)
    else mret (NULL, Some desc).

Definition usbfd_control_transfer (fd : Z) (setup : libusbp_setup_packet) (timeout : Z)
    (data : ptr) (transferred_given : bool) : M (ptr * option Z) :=
  let transfer := {| ctrl_bRequestType := setup_bmRequestType setup;
                     ctrl_bRequest := setup_bRequest setup;
                     ctrl_wValue := setup_wValue setup;
                     ctrl_wIndex := setup_wIndex setup;
                     ctrl_wLength := setup_wLength setup;
                     ctrl_timeout := timeout;
                     ctrl_data := data |} in
  result ← ioctl_control fd transfer;
  if result <? 0 then
    error ← error_create_errno "Control transfer failed.";
    mret (error, out transferred_given 0)
  else mret (NULL, out transferred_given result).

Definition usbfd_bulk_or_interrupt_transfer (fd pipe timeout : Z) (buffer : ptr) (size : Z)
    (transferred_given : bool) : M (ptr * option Z) :=
  if (size =? 0) && negb (Z.land pipe 0x80 =? 0) then
    error ← error_create "Transfer size 0 is not allowed.";
    mret (error, out transferred_given 0)
  else if UINT_MAX <? size then
    error ← error_create "Transfer size is too large.";
    mret (error, out transferred_given 0)
  else if is_null buffer && negb (size =? 0) then
    error ← error_create "Buffer is null.";
    mret (error, out transferred_given 0)
  else
    let transfer := {| bulk_ep := pipe; bulk_len := to_u32 size;
                       bulk_timeout := timeout; bulk_data := buffer |} in
    result ← ioctl_bulk fd transfer;
    if result <? 0 then
      error ← error_create_errno "";
      mret (error, out transferred_given 0)
    else mret (NULL, out transferred_given result).

Definition usbfd_submit_urb (fd : Z) (urb : ptr) : M ptr :=
  c_assert (negb (is_null urb));;
  result ← ioctl_submiturb fd urb;
  if result <? 0 then error_create_errno "Submitting USB request block failed."
  else mret NULL.

(** The error and the value of [*urb]. *)
Definition usbfd_reap_urb (fd : Z) : M (ptr * ptr) :=
  '(result, urb) ← ioctl_reapurbndelay fd;
  if result <? 0 then
    errno ← get_errno;
    if errno =? EAGAIN then mret (NULL, NULL)
    else
      error ← error_create_errno "Failed to reap an asynchronous transfer.";
      mret (error, NULL)
  else mret (NULL, urb).

Definition usbfd_discard_urb (fd : Z) (urb : ptr) : M ptr :=
  c_assert (negb (is_null urb));;
  result ← ioctl_discardurb fd urb;
  if result <? 0 then
    errno ← get_errno;
    if errno =? EINVAL then mret NULL
    else error_create_errno "Failed to cancel asynchronous transfer."
  else mret NULL.
End code.

Section specs.
Context `{OS : LinuxOS} {LAWS : LinuxLaws OS}.

(** ** What the functions mean *)

(** A system call that returns [r], recorded as [ev]; [err] makes the error. *)
Definition s_sys (r : sysret) (ev : event) (err : Z → aerr) : Spec Z := λ h,
  (match r with SysOk n => inr n | SysErr e => inl (err e) end, ev :: h).

Definition s_access (path : string) : Spec Z := λ h,
  s_sys (os_access h path) (EvAccess path)
    (λ e, if e =? ENOENT
          then err_code (err_new ("File does not exist: " +:+ path +:+ ".")) LIBUSBP_ERROR_NOT_READY
          else errno_error e ("Failed to check file: " +:+ path +:+ ".")) h.

Definition s_open (path : string) : Spec unit := λ h,
  match os_open h path with
  | SysOk _ => (inr tt, EvOpen path true :: h)
  | SysErr e => (inl (errno_error e ("Failed to open USB device " +:+ path +:+ ".")),
                 EvOpen path false :: h)
  end.

Definition s_descriptor (fd : Z) : Spec usb_device_descriptor := λ h,
  let h1 := EvLseek fd :: h in
  let h2 := EvRead fd sizeof_usb_device_descriptor :: h1 in
  match os_lseek h fd with
  | SysErr e => (inl (errno_error e "Failed to go to beginning of USB device file."), h1)
  | SysOk _ =>
      match os_read h1 fd sizeof_usb_device_descriptor with
      | SysErr e => (inl (errno_error e "Failed to read device descriptor."), h2)
      | SysOk n =>
          if n =? sizeof_usb_device_descriptor then (inr (os_descriptor h1 fd), h2)
          else (inl (err_new ("Failed to read device descriptor.  Expected 18-byte device descriptor, read " +:+
                              fmt_d n +:+ " bytes.")), h2)
      end
  end.

Definition control_event (fd : Z) (t : usbdevfs_ctrltransfer) (cs : list (option ascii)) : event :=
  EvControl fd t (if Z.testbit (ctrl_bRequestType t) 7 then []
                  else sent_of (ctrl_data t) (ctrl_wLength t) cs).

Definition s_control (fd : Z) (t : usbdevfs_ctrltransfer) (cs : list (option ascii)) : Spec Z := λ h,
  s_sys (os_control h fd t).1 (control_event fd t cs)
        (λ e, errno_error e "Control transfer failed.") h.

(** The guards of [usbfd_bulk_or_interrupt_transfer]. *)
Definition bulk_guard (pipe size : Z) (null : bool) : option aerr :=
  if (size =? 0) && is_in pipe then Some (err_new "Transfer size 0 is not allowed.")
  else if UINT_MAX <? size then Some (err_new "Transfer size is too large.")
  else if null && negb (size =? 0) then Some (err_new "Buffer is null.")
  else None.

Definition bulk_event (fd : Z) (t : usbdevfs_bulktransfer) (cs : list (option ascii)) : event :=
  EvBulk fd t (if is_in (bulk_ep t) then [] else sent_of (bulk_data t) (bulk_len t) cs).

Definition s_bulk (fd : Z) (t : usbdevfs_bulktransfer) (cs : list (option ascii)) : Spec Z := λ h,
  match bulk_guard (bulk_ep t) (bulk_len t) (is_null (bulk_data t)) with
  | Some e => (inl e, h)
  | None => s_sys (os_bulk h fd t).1 (bulk_event fd t cs) (λ e, errno_error e "") h
  end.

(** The buffer afterwards. *)
Definition bulk_received (h : list event) (fd : Z) (t : usbdevfs_bulktransfer)
    (cs : list (option ascii)) : list (option ascii) :=
  match bulk_guard (bulk_ep t) (bulk_len t) (is_null (bulk_data t)) with
  | Some _ => cs
  | None => if is_in (bulk_ep t) then overwrite (os_bulk h fd t).2 cs else cs
  end.

Definition control_received (h : list event) (fd : Z) (t : usbdevfs_ctrltransfer)
    (cs : list (option ascii)) : list (option ascii) :=
  if Z.testbit (ctrl_bRequestType t) 7 then overwrite (os_control h fd t).2 cs else cs.

(** ** Specifications *)

Lemma usbfd_check_existence_spec R filename path x :
  reads R filename path → no_nul path = true →
  {{ R }} usbfd_check_existence filename @ x {{ r x',
    R ∗ returns (s_access path) x x' r (λ _, emp) emp }}.
Proof.
  iIntros (Hr Hp) "HR". unfold usbfd_check_existence, access. wp_steps.
  iApply (Hr with "HR"). iIntros "HR". wp_steps. iApply wp_sys_return.
  set (h := x_trace x).
  assert (Hc : ∀ n, calm x (Ext (EvAccess path :: h) n (x_oom x))) by (intros; by apply calm_event).
  destruct (os_access h path) as [n|e] eqn:E.
  - apply access_result in E as E'. subst n. wp_constants. wp_steps. iFrame.
    iApply (returns_ok _ _ _ 0 (λ _, emp)%I); [|done]. split; [apply Hc|]. unfold s_access, s_sys. by rewrite E.
  - wp_constants. wp_steps. iApply (Hr with "HR"). iIntros "HR". wp_steps.
    assert (Hs : s_access path (x_trace x) =
      (inl (if e =? ENOENT
            then err_code (err_new ("File does not exist: " +:+ path +:+ ".")) LIBUSBP_ERROR_NOT_READY
            else errno_error e ("Failed to check file: " +:+ path +:+ ".")), EvAccess path :: h)).
    { unfold s_access, s_sys. by rewrite E. }
    destruct (e =? ENOENT); wp_steps.
    + iApply wp_error_create; [by rewrite !no_nul_app Hp|]. err_intro. err_call. iFrame.
      iApply (returns_err_from with "[-]"); [apply (Hc e)|exact Hs|by iFrame].
    + iApply wp_error_create_errno; [by rewrite !no_nul_app Hp|]. err_intro. iFrame.
      iApply (returns_err_from with "[-]"); [apply (Hc e)|exact Hs|by iFrame].
Qed.

Lemma usbfd_open_spec R filename path x :
  reads R filename path → is_null filename = false → no_nul path = true →
  {{ R }} usbfd_open filename @ x {{ r x',
    R ∗ returns (s_open path) x x' r.1 (λ _, fd_own r.2) ⟪r.2 = -1⟫ }}.
Proof.
  iIntros (Hr Hn Hp) "HR". unfold usbfd_open, open. wp_steps.
  iApply (Hr with "HR"). iIntros "HR". wp_steps. set (h := x_trace x).
  destruct (os_open h path) as [n|e] eqn:E; wp_steps.
  - iApply wp_new_block. iIntros (l) "Hl". wp_steps. wp_constants. wp_steps. iFrame.
    iApply (returns_ok _ _ _ tt with "[-]"); [|iExists l; by iFrame].
    split; [by apply calm_event|]. unfold s_open. fold h. by rewrite E.
  - wp_constants. wp_steps. iApply (Hr with "HR"). iIntros "HR". wp_steps.
    iApply wp_error_create_errno; [by rewrite !no_nul_app Hp|]. err_intro. wp_steps. iFrame.
    iApply (returns_err_from _ _ (Ext (EvOpen path false :: h) e (x_oom x)) with "[-]");
      [by apply calm_event| |by iFrame].
    unfold s_open. fold h. by rewrite E.
Qed.

Lemma descriptor_mismatch_no_nul size :
  no_nul ("Failed to read device descriptor.  Expected " +:+
    fmt_d sizeof_usb_device_descriptor +:+ "-byte device descriptor, read " +:+ fmt_d size +:+
    " bytes.") = true.
Proof. by rewrite !no_nul_app !no_nul_fmt_d. Qed.

Lemma usbfd_get_device_descriptor_spec fd x :
  {{ fd_own fd }} usbfd_get_device_descriptor fd @ x {{ r x',
    fd_own fd ∗ returns (s_descriptor fd) x x' r.1 (λ d, ⟪r.2 = Some d⟫) ⟪r.2 = None⟫ }}.
Proof.
  iIntros "Hfd". unfold usbfd_get_device_descriptor, lseek, read_descriptor. wp_steps.
  iApply (wp_check_fd with "Hfd"). iIntros "Hfd". wp_steps. iApply wp_sys_return.
  set (h := x_trace x). set (h1 := EvLseek fd :: h).
  assert (Hc1 : ∀ e, calm x (Ext h1 e (x_oom x))) by (intros; by apply calm_event).
  destruct (os_lseek h fd) as [o|e] eqn:E1; last first.
  { wp_constants. wp_steps. iApply wp_error_create_errno; [done|]. err_intro. wp_steps. iFrame.
    iApply (returns_err_from with "[-]"); [apply (Hc1 e)| |by iFrame].
    unfold s_descriptor. fold h. by rewrite E1. }
  apply lseek_result in E1 as Ho. rewrite (_ : (o =? -1) = false); [|lia]. wp_steps.
  iApply (wp_check_fd with "Hfd"). iIntros "Hfd". wp_steps. fold h1. iApply wp_sys_return.
  set (h2 := EvRead fd sizeof_usb_device_descriptor :: h1).
  assert (Hc2 : ∀ e, calm x (Ext h2 e (x_oom x))).
  { intros. by apply (calm_event x (Ext h1 e (x_oom x))). }
  destruct (os_read h1 fd sizeof_usb_device_descriptor) as [n|e] eqn:E2; last first.
  { wp_steps. wp_constants. wp_steps.
    iApply wp_error_create_errno; [done|]. err_intro. wp_steps. iFrame.
    iApply (returns_err_from with "[-]"); [apply (Hc2 e)| |by iFrame].
    unfold s_descriptor. fold h. by rewrite E1 -/h1 E2. }
  apply read_result in E2 as Hn. wp_steps. rewrite (_ : (n =? -1) = false); [|lia]. wp_steps.
  destruct (n =? sizeof_usb_device_descriptor) eqn:E3; wp_steps; last first.
  { iApply wp_error_create; [apply descriptor_mismatch_no_nul|]. err_intro. wp_steps. iFrame.
    iApply (returns_err_from with "[-]"); [apply Hc2| |by iFrame].
    unfold s_descriptor. fold h. by rewrite E1 -/h1 E2 E3. }
  iFrame. iApply (returns_ok _ _ _ (os_descriptor h1 fd)); [|done].
  split; [apply Hc2|]. unfold s_descriptor. fold h. by rewrite E1 -/h1 E2 E3.
Qed.

(** The control transfer the kernel is asked for. *)
Definition control_request (setup : libusbp_setup_packet) (timeout : Z) (data : ptr) :
    usbdevfs_ctrltransfer :=
  {| ctrl_bRequestType := setup_bmRequestType setup; ctrl_bRequest := setup_bRequest setup;
     ctrl_wValue := setup_wValue setup; ctrl_wIndex := setup_wIndex setup;
     ctrl_wLength := setup_wLength setup; ctrl_timeout := timeout; ctrl_data := data |}.

(** The part of a transfer after the system call. *)
Lemma transfer_end (r : sysret) ev err text given x cs (s : Spec Z) :
  no_nul text = true → urb_event ev = false →
  s (x_trace x) = s_sys r ev err (x_trace x) →
  (∀ e, err e = errno_error e text) → (∀ n, r = SysOk n → 0 ≤ n) →
  {{ cs }} sys_return r @ (Ext (ev :: x_trace x) (x_errno x) (x_oom x))
  {{ result x1,
    wp (if result <? 0 then
          error ← error_create_errno text; mret (error, out given 0)
        else mret (NULL, out given result)) x1
      (λ a x', cs ∗ returns s x x' a.1 (λ n, ⟪a.2 = out given n⟫) ⟪a.2 = out given 0⟫) }}.
Proof.
  iIntros (Ht Hev Hs Herr Hr) "Hcs". iApply wp_sys_return.
  assert (Hc : ∀ e, calm x (Ext (ev :: x_trace x) e (x_oom x))) by (intros; by apply calm_event).
  destruct r as [n|e].
  - specialize (Hr n eq_refl). rewrite (_ : (n <? 0) = false); [|lia]. wp_steps. iFrame.
    iApply (returns_ok _ _ _ n); [|done]. split; [apply Hc|]. by rewrite Hs.
  - wp_constants. wp_steps. iApply wp_error_create_errno; [done|]. err_intro. wp_steps. iFrame.
    iApply (returns_err_from with "[-]"); [apply (Hc e)| |by iFrame].
    rewrite Hs. unfold s_sys. by rewrite Herr.
Qed.

Lemma usbfd_control_transfer_spec fd setup timeout data given cs x :
  let t := control_request setup timeout data in
  u16 (setup_wLength setup) →
  (is_null data = false → setup_wLength setup ≤ Z.of_nat (List.length cs)) →
  {{ fd_own fd ∗ user_buffer data cs }}
    usbfd_control_transfer fd setup timeout data given @ x
  {{ r x', (fd_own fd ∗ user_buffer data (control_received (x_trace x) fd t cs)) ∗
     returns (s_control fd t cs) x x' r.1 (λ n, ⟪r.2 = out given n⟫) ⟪r.2 = out given 0⟫ }}.
Proof.
  iIntros (t Hw Hlen) "[Hfd Hb]". unfold usbfd_control_transfer, ioctl_control.
  change {| ctrl_bRequestType := _ |} with t. unfold control_received.
  assert (Hpos : 0 ≤ ctrl_wLength t) by (unfold u16 in Hw; cbn; lia).
  wp_steps. iApply (wp_check_fd with "Hfd"). iIntros "Hfd". wp_steps.
  set (h := x_trace x).
  assert (Hs : s_control fd t cs h = s_sys (os_control h fd t).1 (control_event fd t cs)
    (λ e, errno_error e "Control transfer failed.") h) by done.
  unfold control_event in Hs. destruct (Z.testbit (ctrl_bRequestType t) 7) eqn:Et; wp_steps.
  - iApply (wp_copy_to_user with "Hb").
    { intros Hd. pose proof (control_length h fd t Hpos). specialize (Hlen Hd). cbn in *. lia. }
    iIntros "Hb". wp_steps.
    iApply (transfer_end _ _ _ _ _ x (fd_own fd ∗ user_buffer data _)%I with "[$Hfd $Hb]"); [done|done|exact Hs|done|].
    intros n Hn. by apply (control_result h fd t n Hpos).
  - iApply (wp_copy_from_user with "Hb"); [done|]. iIntros "Hb". wp_steps.
    iApply (transfer_end _ _ _ _ _ x (fd_own fd ∗ user_buffer data _)%I with "[$Hfd $Hb]"); [done|done|exact Hs|done|].
    intros n Hn. by apply (control_result h fd t n Hpos).
Qed.

(** The bulk transfer the kernel is asked for. *)
Definition bulk_request (pipe timeout : Z) (buffer : ptr) (size : Z) : usbdevfs_bulktransfer :=
  {| bulk_ep := pipe; bulk_len := size; bulk_timeout := timeout; bulk_data := buffer |}.

Lemma usbfd_bulk_or_interrupt_transfer_spec fd pipe timeout buffer size given cs x :
  let t := bulk_request pipe timeout buffer size in
  u8 pipe → 0 ≤ size →
  (is_null buffer = false → size ≤ Z.of_nat (List.length cs)) →
  {{ fd_own fd ∗ user_buffer buffer cs }}
    usbfd_bulk_or_interrupt_transfer fd pipe timeout buffer size given @ x
  {{ r x', (fd_own fd ∗ user_buffer buffer (bulk_received (x_trace x) fd t cs)) ∗
     returns (s_bulk fd t cs) x x' r.1 (λ n, ⟪r.2 = out given n⟫) ⟪r.2 = out given 0⟫ }}.
Proof.
  iIntros (t Hp Hpos Hlen) "[Hfd Hb]". unfold usbfd_bulk_or_interrupt_transfer, bulk_received.
  rewrite pipe_id_direction // negb_involutive. set (h := x_trace x).
  assert (Hs : s_bulk fd t cs h = match bulk_guard pipe size (is_null buffer) with
    | Some e => (inl e, h)
    | None => s_sys (os_bulk h fd t).1 (bulk_event fd t cs) (λ e, errno_error e "") h end) by done.
  cbn [bulk_ep bulk_len bulk_data t bulk_request].
  unfold bulk_guard in *.
  destruct ((size =? 0) && is_in pipe) eqn:E1.
  { err_chain. iFrame. iApply (returns_err with "[-]"); [exact Hs|by iFrame]. }
  destruct (UINT_MAX <? size) eqn:E2.
  { err_chain. iFrame. iApply (returns_err with "[-]"); [exact Hs|by iFrame]. }
  destruct (is_null buffer && negb (size =? 0)) eqn:E3.
  { err_chain. iFrame. iApply (returns_err with "[-]"); [exact Hs|by iFrame]. }
  apply Z.ltb_ge in E2. rewrite (_ : to_u32 size = size); [|apply wrap_id; unfold UINT_MAX in *; lia].
  change {| bulk_ep := _ |} with t. unfold ioctl_bulk.
  wp_steps. iApply (wp_check_fd with "Hfd"). iIntros "Hfd". wp_steps. fold h.
  unfold bulk_event in Hs. cbn [bulk_ep t bulk_request] in *. rewrite testbit_is_in //.
  destruct (is_in pipe) eqn:Et; wp_steps.
  - iApply (wp_copy_to_user with "Hb").
    { intros Hd. pose proof (bulk_length h fd t Hpos). specialize (Hlen Hd). cbn in *. lia. }
    iIntros "Hb". wp_steps.
    iApply (transfer_end _ _ _ _ _ x (fd_own fd ∗ user_buffer buffer _)%I with "[$Hfd $Hb]"); [done|done|exact Hs|done|].
    intros n Hn. by apply (bulk_result h fd t n Hpos).
  - iApply (wp_copy_from_user with "Hb"); [done|]. iIntros "Hb". wp_steps.
    iApply (transfer_end _ _ _ _ _ x (fd_own fd ∗ user_buffer buffer _)%I with "[$Hfd $Hb]"); [done|done|exact Hs|done|].
    intros n Hn. by apply (bulk_result h fd t n Hpos).
Qed.
End specs.
