(* ===== verification/InterfaceLinux.v ===== *)
(** * InterfaceLinux: generic interfaces (src/src/linux/generic_interface_linux.c)

    A [libusbp_generic_interface] names an interface of a device and the device
    file behind it: its creation, which looks the interface up in libudev and
    checks the driver and the device file, its copy, getters and release. *)

From S2P Require Import Prelude Memory Logic Format Errors Results Basics Strings Buffers LinuxOS ErrnoLinux UdevLinux DeviceLinux UsbfdLinux.
#[local] Set Warnings "-rewrite-rw".

(** Calling a function with the address of a local variable. *)
Definition into_variable (m : M (ptr * option ptr)) : M (ptr * ptr) :=
  '(error, o) ← m;
  v ← initialised o;
  mret (error, v).

Section code.
Context `{OS : LinuxOS}.

Definition check_driver_installation (device : ptr) : M ptr :=
  c_assert (negb (is_null device));;
  driver_name ← udev_device_get_driver device;
  if is_null driver_name then mret NULL else
  c ← strcmp driver_name (Lit "usbfs");
  if c =? 0 then mret NULL else
  c ← strcmp driver_name (Lit "cp210x");
  if c =? 0 then mret NULL else
  text ← read_cstr driver_name;
  error_create ("Device is attached to an incorrect driver: " +:+ text +:+ ".").

Definition libusbp_generic_interface_create (device : ptr) (interface_number : Z)
    (gi_given : bool) : M (ptr * option ptr) :=
  if negb gi_given then
    error ← error_create "Generic interface output pointer is null.";
    mret (error, None)
  else if is_null device then
    error ← error_create "Device is null.";
    mret (error, Some NULL)
  else
  (* Allocate memory for the interface. *)
  new_gi ← malloc sizeof_libusbp_generic_interface OUninit;
  let error := if is_null new_gi then Static error_no_memory else NULL in
  (* Make a copy of the device. *)
  '(error, new_device) ← if_ok error NULL (into_variable (libusbp_device_copy device true));
  (* Get the syspath of the device. *)
  '(error, new_device_syspath) ← if_ok error NULL
    (into_variable (libusbp_device_get_os_id new_device true));
  (* Get a udev context. *)
  '(error, new_udev) ← if_ok error NULL udevw_create_context;
  (* Get the device for the interface. *)
  '(error, new_dev) ← if_ok error NULL
    (udevw_get_interface new_udev new_device_syspath interface_number);
  (* Make sure it is not attached to a kernel driver. *)
  error ← then_check error (check_driver_installation new_dev);
  (* Get the syspath of the interface. *)
  '(error, new_interface_syspath) ← if_ok error NULL (udevw_get_syspath_copy new_dev);
  (* Get the filename. *)
  '(error, new_filename) ← if_ok error NULL
    (udevw_get_devnode_copy_from_syspath new_device_syspath);
  (* Check that the file exists yet. *)
  error ← then_check error (usbfd_check_existence new_filename);
  (* Assemble the new generic interface and pass it to the caller. *)
  '(gi, new_device, new_interface_syspath, new_filename, new_gi) ←
    (if is_null error then
       store new_gi (OInterface {| gi_device := new_device;
                                   gi_interface_number := interface_number;
                                   gi_syspath := new_interface_syspath;
                                   gi_filename := new_filename |});;
       mret (new_gi, NULL, NULL, NULL, NULL)
     else mret (NULL, new_device, new_interface_syspath, new_filename, new_gi));
  error ← (if negb (is_null error) then
             error_add error "Failed to initialize generic interface."
           else mret error);
  libusbp_string_free new_filename;;
  libusbp_string_free new_interface_syspath;;
  libusbp_string_free new_device_syspath;;
  libusbp_device_free new_device;;
  free new_gi;;
  when (negb (is_null new_dev)) (udev_device_unref new_dev);;
  when (negb (is_null new_udev)) (udev_unref new_udev);;
  mret (error, Some gi).

Definition libusbp_generic_interface_free (gi : ptr) : M unit :=
  if is_null gi then mret tt else
  g ← load_as as_interface gi;
  libusbp_device_free (gi_device g);;
  libusbp_string_free (gi_syspath g);;
  libusbp_string_free (gi_filename g);;
  free gi.

(** The source returns NULL at its end, whatever [error] is. *)
Definition libusbp_generic_interface_copy (source : ptr) (dest_given : bool) :
    M (ptr * option ptr) :=
  if negb dest_given then
    error ← error_create "Generic interface output pointer is null.";
    mret (error, None)
  else if is_null source then mret (NULL, Some NULL) else
  (* Allocate memory for the generic interface. *)
  new_gi ← malloc sizeof_libusbp_generic_interface OUninit;
  let error := if is_null new_gi then Static error_no_memory else NULL in
  (* Copy the device. *)
  '(error, new_device) ← if_ok error NULL
    (g ← load_as as_interface source;
     into_variable (libusbp_device_copy (gi_device g) true));
  (* Copy the syspath. *)
  '(error, new_syspath) ← if_ok error NULL
    (g ← load_as as_interface source; string_copy (gi_syspath g));
  (* Copy the filename. *)
  '(error, new_filename) ← if_ok error NULL
    (g ← load_as as_interface source; string_copy (gi_filename g));
  (* Assemble the new interface and return it to the caller. *)
  '(dest, new_filename, new_syspath, new_device, new_gi) ←
    (if is_null error then
       g ← load_as as_interface source;
       store new_gi (OInterface {| gi_device := new_device;
                                   gi_interface_number := gi_interface_number g;
                                   gi_syspath := new_syspath;
                                   gi_filename := new_filename |});;
       mret (new_gi, NULL, NULL, NULL, NULL)
     else mret (NULL, new_filename, new_syspath, new_device, new_gi));
  libusbp_string_free new_filename;;
  libusbp_string_free new_syspath;;
  libusbp_device_free new_device;;
  free new_gi;;
  mret (NULL, Some dest).

(** The common body of the two getters of a string. *)
Definition generic_interface_get_string (field : libusbp_generic_interface → ptr)
    (gi : ptr) (out_given : bool) : M (ptr * option ptr) :=
  if negb out_given then
    error ← error_create "String output pointer is null.";
    mret (error, None)
  else if is_null gi then
    error ← error_create "Generic interface is null.";
    mret (error, Some NULL)
  else
    g ← load_as as_interface gi;
    c_assert (negb (is_null (field g)));;
    '(error, copy) ← string_copy (field g);
    mret (error, Some copy).

Definition libusbp_generic_interface_get_os_id : ptr → bool → M (ptr * option ptr) :=
  generic_interface_get_string gi_syspath.
Definition libusbp_generic_interface_get_os_filename : ptr → bool → M (ptr * option ptr) :=
  generic_interface_get_string gi_filename.

Definition generic_interface_get_device_copy (gi : ptr) : M (ptr * option ptr) :=
  c_assert (negb (is_null gi));;
  g ← load_as as_interface gi;
  libusbp_device_copy (gi_device g) true.
End code.

(** ** What an interface object holds *)

Record interface := Interface {
  i_device : device;
  i_number : Z;
  i_syspath : string;
  i_filename : string
}.

Definition interface_own (p : ptr) (i : interface) : hProp :=
  (∃ l pd ps pf, ⟪p = Heap l⟫ ∗
     l ↦ OInterface {| gi_device := pd; gi_interface_number := i_number i;
                       gi_syspath := ps; gi_filename := pf |} ∗
     device_own pd (i_device i) ∗ str_own ps (i_syspath i) ∗ str_own pf (i_filename i))%I.

Lemma interface_own_intro l pd ps pf i :
  l ↦ OInterface {| gi_device := pd; gi_interface_number := i_number i;
                    gi_syspath := ps; gi_filename := pf |} -∗
  device_own pd (i_device i) -∗ str_own ps (i_syspath i) -∗ str_own pf (i_filename i) -∗
  interface_own (Heap l) i.
Proof. iIntros "Hl Hd Hs Hf". iExists l, pd, ps, pf. by iFrame. Qed.

Lemma interface_own_not_null p i : interface_own p i ⊢ ⌜is_null p = false⌝ ∧ interface_own p i.
Proof.
  iIntros "H". iSplit; [|done]. by iDestruct "H" as (l pd ps pf) "[-> _]".
Qed.

Lemma libusbp_generic_interface_free_spec p i x :
  {{ interface_own p i }} libusbp_generic_interface_free p @ x {{ r x', ⟪x' = x⟫ }}.
Proof.
  iIntros "(%l & %pd & %ps & %pf & -> & Hl & Hd & Hs & Hf)".
  unfold libusbp_generic_interface_free. wp_frees. by iPureIntro.
Qed.

(** ** What the functions mean *)

Section specs.
Context `{OS : LinuxOS} {LAWS : LinuxLaws OS}.

Definition s_check_driver (id : Z) : Spec unit :=
  match udev_str os_driver id with
  | Some driver =>
      if bool_decide (driver = "usbfs") || bool_decide (driver = "cp210x") then mret tt
      else sfail (err_new ("Device is attached to an incorrect driver: " +:+ driver +:+ "."))
  | None => mret tt
  end.

(** Looking the interface [n] of the device [d] up; the copies ([mret]) can fail
    for lack of memory only. *)
Definition s_interface_lookup (d : device) (n : Z) : Spec interface :=
  copy ← mret d;
  path ← mret (d_syspath copy);
  s_create_context;;
  id ← s_get_interface path n;
  s_check_driver id;;
  syspath ← mret (default "" (udev_str os_syspath id));
  filename ← s_devnode_from_syspath path;
  s_access filename;;
  mret (Interface copy n syspath filename).

Definition s_interface_create (d : device) (n : Z) : Spec interface :=
  scontext "Failed to initialize generic interface." (s_interface_lookup d n).

(** ** Specifications *)

Lemma into_variable_spec {A} P R (s : Spec A) ok m x :
  ({{ P }} m @ x {{ r x', R ∗
     returns s x x' r.1 (λ a, ∃ q, ⟪r.2 = Some q⟫ ∗ ok q a) ⟪r.2 = Some NULL⟫ }}) →
  {{ P }} into_variable m @ x {{ r x', R ∗
     returns s x x' r.1 (ok r.2) ⟪r.2 = NULL⟫ }}.
Proof.
  iIntros (Hm) "HP". unfold into_variable, initialised. wp_step.
  iApply (use_triple _ _ _ _ _ Hm with "HP"). iIntros ([e o] x1) "[HR H]".
  iDestruct "H" as "[(%a & %Ha & %q & %Hq & Hok)|(%got & %Hf & He & %Hb)]";
    cbn [fst snd] in *; subst; wp_steps; iFrame.
  - iLeft. iExists a. iFrame. done.
  - iRight. iExists got. iFrame. done.
Qed.

Lemma check_driver_installation_spec p l did id x :
  device_ref p l did id →
  {{ l ↦ OUdevDevice did }} check_driver_installation p @ x {{ r x',
    l ↦ OUdevDevice did ∗ returns (s_check_driver id) x x' r (λ _, emp) emp }}.
Proof.
  iIntros (Hp) "Hl". pose proof (device_ref_not_null _ _ _ _ Hp) as Hn.
  unfold check_driver_installation, s_check_driver. wp_steps.
  iApply (wp_udev_device_string with "Hl"); [done|]. iIntros "Hl".
  pose proof (udev_str_case os_driver id l) as Hc.
  destruct (udev_str os_driver id) as [t|]; last first.
  { rewrite Hc. wp_steps. iFrame. iApply (returns_ok _ _ _ tt (λ _, emp)%I); [|done].
    by apply succeeded_ret. }
  destruct Hc as (-> & Ht & _). wp_steps.
  iApply (wp_strcmp_zero with "Hl []"); [by apply reads_owned_id|by apply reads_lit|done|].
  iIntros (c E) "Hl _". rewrite E. destruct (bool_decide (t = "usbfs")); cbn [orb].
  { wp_steps. iFrame. iApply (returns_ok _ _ _ tt (λ _, emp)%I); [|done]. by apply succeeded_ret. }
  wp_steps. iApply (wp_strcmp_zero with "Hl []"); [by apply reads_owned_id|by apply reads_lit|done|].
  iIntros (c' E') "Hl _". rewrite E'. destruct (bool_decide (t = "cp210x")).
  { wp_steps. iFrame. iApply (returns_ok _ _ _ tt (λ _, emp)%I); [|done]. by apply succeeded_ret. }
  wp_steps. iApply (reads_owned_id with "Hl"); [done|]. iIntros "Hl".
  iApply wp_error_create; [by rewrite !no_nul_app Ht|]. err_intro. iFrame.
  iApply (returns_err with "[-]"); [done|by iFrame].
Qed.

(** The error path of [libusbp_generic_interface_create]: whatever was acquired is
    released. *)
Ltac create_fails :=
  wp_steps; unfold udev_unref;
  iApply (wp_add_context (s_interface_lookup _ _) with "He"); [done|unfold s_interface_lookup; chain|];
  let Hn := fresh "Hn" in
  iIntros (? ? ? [Hn ?]) "He"; wp_frees; iFrame; iRight; iExists _; by iFrame.

Lemma libusbp_generic_interface_create_spec p d n x :
  {{ device_own p d }} libusbp_generic_interface_create p n true @ x {{ r x',
    device_own p d ∗
    returns (s_interface_create d n) x x' r.1
      (λ i, ∃ q, ⟪r.2 = Some q⟫ ∗ interface_own q i) ⟪r.2 = Some NULL⟫ }}.
Proof.
  iIntros "Hp". iDestruct (device_own_not_null with "Hp") as "[%Hp Hp]".
  unfold libusbp_generic_interface_create, if_ok, then_check. wp_steps.
  iApply wp_malloc_pos; [done|]. iSplit; last first.
  { iIntros (x1 [Hq Ho]). wp_steps.
    iApply (wp_add_context (s_interface_lookup d n) with "[]"); [done|by apply failed_no_memory| |].
    { iLeft. iPureIntro. by eexists. }
    iIntros (? ? ? [Hn ?]) "He". wp_frees. iFrame. iRight. iExists _. by iFrame. }
  iIntros (lg Hlg) "Hg". wp_step.
  wp_call (into_variable_spec _ _ _ _ _ _ (libusbp_device_copy_spec p d x)).
  iIntros ([e pd] x1) "[Hp H]". returned "H"; last first.
  { iDestruct "Hbad" as %->. create_fails. }
  rename a into copy. iRename "Hok" into "Hcopy". wp_step.
  wp_call (into_variable_spec _ _ _ _ _ _ (libusbp_device_get_os_id_spec pd copy x1)).
  iIntros ([e pp] x2) "[Hcopy H]". returned "H"; last first.
  { iDestruct "Hbad" as %->. create_fails. }
  rename a into path. iDestruct "Hok" as "Hpath".
  iDestruct (str_own_no_nul with "Hpath") as "[[%Hpath %Hpn] Hpath]". wp_step.
  wp_call (udevw_create_context_spec x2). iIntros ([e pu] x3) "H". returned "H"; last first.
  { iDestruct "Hbad" as %->. create_fails. }
  iDestruct "Hok" as "Hu". destruct a. wp_step.
  wp_call (udevw_get_interface_spec _ pu _ _ n x3 (reads_str pp path) Hpn).
  iIntros ([e pi] x4) "(Hpath & (%lu & -> & Hu) & H)". returned "H"; last first.
  { iDestruct "Hbad" as %->. create_fails. }
  rename a into id. iDestruct "Hok" as (li) "[-> Hi]".
  assert (Href : device_ref (Heap li) li id id) by by left. wp_step.
  wp_call (check_driver_installation_spec _ _ _ _ x4 Href). iIntros (e x5) "[Hi H]".
  iAssert (udev_device_own (Heap li) id) with "[Hi]" as "Hi"; [by iExists li; iFrame|].
  returned "H"; last first.
  { create_fails. }
  destruct a. iClear "Hok". iDestruct "Hi" as (li') "[%Hli Hi]". injection Hli as <-. wp_step.
  wp_call (udevw_get_syspath_copy_spec _ _ _ _ x5 Href). iIntros ([e ps] x6) "[Hi H]".
  iAssert (udev_device_own (Heap li) id) with "[Hi]" as "Hi"; [by iExists li; iFrame|].
  returned "H"; last first.
  { iDestruct "Hbad" as %->. create_fails. }
  rename a into syspath. iDestruct "Hok" as "Hs". wp_step.
  wp_call (udevw_get_devnode_copy_from_syspath_spec _ _ _ x6 (reads_str pp path) Hpn Hpath).
  iIntros ([e pf] x7) "[Hpath H]". returned "H"; last first.
  { iDestruct "Hbad" as %->. create_fails. }
  rename a into filename. iDestruct "Hok" as "Hf".
  iDestruct (str_own_no_nul with "Hf") as "[[%Hf %Hfn] Hf]". wp_step.
  wp_call (usbfd_check_existence_spec _ pf filename x7 (reads_str pf filename) Hf).
  iIntros (e x8) "[Hf H]". returned "H"; last first.
  { create_fails. }
  iClear "Hok". wp_frees. unfold udev_unref. wp_steps. iFrame.
  iApply (returns_ok _ _ _ (Interface copy n syspath filename)).
  { apply scontext_ok. unfold s_interface_lookup. chain. }
  iExists (Heap lg). iSplit; [done|]. 
  iApply (interface_own_intro lg pd ps pf (Interface copy n syspath filename)
            with "[$] Hcopy Hs Hf").
Qed.

(** Reading the fields of an interface. *)
Lemma interface_own_load p i x Q :
  interface_own p i -∗
  (∀ pd ps pf, device_own pd (i_device i) -∗ str_own ps (i_syspath i) -∗
     str_own pf (i_filename i) -∗
     (device_own pd (i_device i) -∗ str_own ps (i_syspath i) -∗ str_own pf (i_filename i) -∗
      interface_own p i) -∗
     Q {| gi_device := pd; gi_interface_number := i_number i; gi_syspath := ps;
          gi_filename := pf |} x) -∗
  wp (load_as as_interface p) x Q.
Proof.
  iIntros "(%l & %pd & %ps & %pf & -> & Hl & Hd & Hs & Hf) HQ".
  iApply (wp_load_as with "Hl"); [done|]. iIntros "Hl". iApply ("HQ" with "Hd Hs Hf").
  iIntros "Hd Hs Hf". iExists l, pd, ps, pf. by iFrame.
Qed.

Lemma generic_interface_get_string_spec field value p i x :
  (∀ pd ps pf, let g := {| gi_device := pd; gi_interface_number := i_number i;
                           gi_syspath := ps; gi_filename := pf |} in
     field g = ps ∧ value = i_syspath i ∨ field g = pf ∧ value = i_filename i) →
  {{ interface_own p i }} generic_interface_get_string field p true @ x {{ r x',
    interface_own p i ∗ returns (mret value) x x' r.1 (out_str r.2) ⟪r.2 = Some NULL⟫ }}.
Proof.
  iIntros (Hf) "H". iDestruct (interface_own_not_null with "H") as "[%Hn H]".
  unfold generic_interface_get_string. wp_steps. iApply (interface_own_load with "H").
  iIntros (pd ps pf) "Hd Hs Hp Hclose".
  iAssert (∃ q, ⟪field {| gi_device := pd; gi_interface_number := i_number i;
                          gi_syspath := ps; gi_filename := pf |} = q⟫ ∗
    str_own q value ∗ (str_own q value -∗ interface_own p i))%I with "[-]" as (q) "(%Hq & Hs & Hclose)".
  { destruct (Hf pd ps pf) as [[Hg ->]|[Hg ->]].
    - iExists ps. iSplit; [done|]. iSplitL "Hs"; [iExact "Hs"|]. iIntros "Hs". iApply ("Hclose" with "Hd Hs Hp").
    - iExists pf. iSplit; [done|]. iSplitL "Hp"; [iExact "Hp"|]. iIntros "Hp". iApply ("Hclose" with "Hd Hs Hp"). }
  rewrite Hq. iDestruct (str_own_not_null with "Hs") as "[%Hqn Hs]". wp_steps.
  wp_call (string_copy_own q value x). iIntros ([e c] x1) "[Hs H]".
  iDestruct ("Hclose" with "Hs") as "Hi". wp_steps. iFrame.
  iDestruct "H" as "[(%a & %Ha & Hc)|(%got & %Hg & He & %Hb)]"; cbn [fst snd] in *.
  - destruct Ha as [-> Ha]. iLeft. iExists a. iSplit; [done|]. iExists c. by iFrame.
  - subst c. iRight. iExists got. by iFrame.
Qed.

Lemma libusbp_generic_interface_get_os_id_spec p i x :
  {{ interface_own p i }} libusbp_generic_interface_get_os_id p true @ x {{ r x',
    interface_own p i ∗ returns (mret (i_syspath i)) x x' r.1 (out_str r.2) ⟪r.2 = Some NULL⟫ }}.
Proof. apply generic_interface_get_string_spec. by left. Qed.

Lemma libusbp_generic_interface_get_os_filename_spec p i x :
  {{ interface_own p i }} libusbp_generic_interface_get_os_filename p true @ x {{ r x',
    interface_own p i ∗ returns (mret (i_filename i)) x x' r.1 (out_str r.2) ⟪r.2 = Some NULL⟫ }}.
Proof. apply generic_interface_get_string_spec. by right. Qed.

Lemma generic_interface_get_device_copy_spec p i x :
  {{ interface_own p i }} generic_interface_get_device_copy p @ x {{ r x',
    interface_own p i ∗
    returns (mret (i_device i)) x x' r.1
      (λ d, ∃ q, ⟪r.2 = Some q⟫ ∗ device_own q d) ⟪r.2 = Some NULL⟫ }}.
Proof.
  iIntros "H". iDestruct (interface_own_not_null with "H") as "[%Hn H]".
  unfold generic_interface_get_device_copy. wp_steps. iApply (interface_own_load with "H").
  iIntros (pd ps pf) "Hd Hs Hp Hclose". wp_steps.
  iApply (wp_wand with "[Hd]"); [by iApply libusbp_device_copy_spec|].
  iIntros (r x') "[Hd H]". iDestruct ("Hclose" with "Hd Hs Hp") as "Hi". iFrame.
Qed.

Ltac copy_fails :=
  wp_frees; iFrame; iRight; iSplit;
  [iPureIntro; split; [done|first [done|by eapply oomed_r]]|iExists _, _; iFrame; by iPureIntro].

Lemma failed_ret_oomed {A} (a : A) x x' got :
  failed (mret a) x x' got → calm x x' ∧ mem_err got ∧ oomed x x'.
Proof. intros [Hc [E|E]]; [by rewrite sret_eq in E|]. done. Qed.

(** What the copy really does: it never reports an error. *)
Lemma libusbp_generic_interface_copy_spec p i x :
  {{ interface_own p i }} libusbp_generic_interface_copy p true @ x {{ r x',
    interface_own p i ∗
    ((∃ q, ⟪r = (NULL, Some q) ∧ x_trace x' = x_trace x⟫ ∗ interface_own q i) ∨
     (⟪r = (NULL, Some NULL) ∧ oomed x x'⟫ ∗ ∃ lost got, err_own lost got ∗ ⟪mem_err got⟫)) }}.
Proof.
  iIntros "Hi". iDestruct (interface_own_not_null with "Hi") as "[%Hi Hi]".
  unfold libusbp_generic_interface_copy, if_ok. wp_steps.
  iApply wp_malloc_pos; [done|]. iSplit; last first.
  { iIntros (x1 [Hq Ho]). wp_frees. iFrame. iRight. iSplit; [done|].
    iExists (Static error_no_memory), no_memory. iSplit; [iLeft; iPureIntro; by eexists|].
    iPureIntro. apply mem_err_no_memory. }
  iIntros (lg Hlg) "Hg". wp_steps. iApply (interface_own_load with "Hi").
  iIntros (pd ps pf) "Hd Hs Hf Hclose". wp_steps.
  wp_call (into_variable_spec _ _ _ _ _ _ (libusbp_device_copy_spec pd _ x)).
  iIntros ([e pd'] x1) "[Hd H]". iDestruct ("Hclose" with "Hd Hs Hf") as "Hi".
  returned "H"; last first.
  { iDestruct "Hbad" as %->. apply failed_ret_oomed in Hfailed as (Hc & Hm & Ho). copy_fails. }
  apply succeeded_ret_inv in Ha as (-> & Ht1 & Hc1). iRename "Hok" into "Hd'". wp_steps.
  iApply (interface_own_load with "Hi"). iIntros (pd2 ps2 pf2) "Hd Hs Hf Hclose". wp_steps.
  wp_call (string_copy_own ps2 _ x1). iIntros ([e ps'] x2) "[Hs H]".
  iDestruct ("Hclose" with "Hd Hs Hf") as "Hi". returned "H"; last first.
  { iDestruct "Hbad" as %->. apply failed_ret_oomed in Hfailed as (Hc & Hm & Ho). copy_fails. }
  apply succeeded_ret_inv in Ha as (-> & Ht2 & Hc2). iRename "Hok" into "Hs'". wp_steps.
  iApply (interface_own_load with "Hi"). iIntros (pd3 ps3 pf3) "Hd Hs Hf Hclose". wp_steps.
  wp_call (string_copy_own pf3 _ x2). iIntros ([e pf'] x3) "[Hf H]".
  iDestruct ("Hclose" with "Hd Hs Hf") as "Hi". returned "H"; last first.
  { iDestruct "Hbad" as %->. apply failed_ret_oomed in Hfailed as (Hc & Hm & Ho).
    assert (Hc12 : calm x x2) by by etrans. copy_fails. }
  apply succeeded_ret_inv in Ha as (-> & Ht3 & Hc3). wp_steps.
  iApply (interface_own_load with "Hi"). iIntros (pd4 ps4 pf4) "Hd Hs Hf Hclose".
  iDestruct ("Hclose" with "Hd Hs Hf") as "Hi". wp_frees. iFrame "Hi". iLeft.
  iExists (Heap lg). iSplit; [iPureIntro; split; [done|congruence]|].
  iApply (interface_own_intro lg pd' ps' pf' i with "[$] Hd' Hs' Hok").
Qed.
End specs.

(** ** Properties *)

Section properties.
Context `{OS : LinuxOS} {LAWS : LinuxLaws OS}.

(** The device [id] is the interface [n] of the USB device at [path]. *)
Definition interface_of (id : Z) (path : string) (n : Z) : Prop :=
  udev_str os_devtype id = Some "usb_interface" ∧
  (∃ t, udev_str (os_sysattr "bInterfaceNumber") id = Some t ∧ sscanf_4hhx t = Some n) ∧
  ∃ parent, os_parent "usb" "usb_device" id = Some parent ∧ udev_str os_syspath parent = Some path.

Definition driver_allowed (id : Z) : Prop :=
  udev_str os_driver id ∈ [None; Some "usbfs"; Some "cp210x"].

Lemma s_is_interface_true id path n h h' :
  s_is_interface id path n h = (inr true, h') → interface_of id path n.
Proof.
  unfold s_is_interface. intros (t & h1 & E1 & E)%sbind_inv.
  apply sopt_inv in E1 as [E1 _].
  destruct (bool_decide (t = "usb_interface")) eqn:Et; cbn [negb] in E; [|by rewrite sret_eq in E].
  apply bool_decide_eq_true in Et as ->.
  apply sbind_inv in E as (m & h2 & E2 & E). unfold s_sysattr in E2.
  apply sbind_inv in E2 as (t & h3 & E2 & E3). apply sopt_inv in E2 as [E2 _].
  apply sopt_inv in E3 as [E3 _].
  destruct (Z.eqb_spec m n) as [->|]; cbn [negb] in E; [|by rewrite sret_eq in E].
  apply sbind_inv in E as (parent & h4 & E4 & E). apply sopt_inv in E4 as [E4 _].
  rewrite sret_eq in E. injection E as Hp _. apply bool_decide_eq_true in Hp.
  split_and!; [done|by exists t|by exists parent].
Qed.

Lemma s_find_some test entries h id h' :
  s_find test entries h = (inr (Some id), h') → ∃ h1 h2, test id h1 = (inr true, h2).
Proof.
  revert h. induction entries as [|entry entries IH]; intros h; cbn [s_find].
  { by rewrite sret_eq. }
  intros (id' & h1 & _ & (b & h2 & E & E')%sbind_inv)%sbind_inv. destruct b.
  - rewrite sret_eq in E'. injection E' as -> _. eauto.
  - by apply IH in E'.
Qed.

Lemma s_get_interface_inv path n h id h' :
  s_get_interface path n h = (inr id, h') → interface_of id path n.
Proof.
  intros (es & h1 & _ & (o & h2 & E & (-> & _)%sopt_inv)%sbind_inv)%sbind_inv.
  apply s_find_some in E as (h3 & h4 & E). by eapply s_is_interface_true.
Qed.

Lemma s_check_driver_inv id h u h' :
  s_check_driver id h = (inr u, h') → driver_allowed id ∧ h' = h.
Proof.
  unfold s_check_driver, driver_allowed. destruct (udev_str os_driver id) as [t|].
  - destruct (bool_decide (t = "usbfs")) eqn:E1; cbn [orb].
    { apply bool_decide_eq_true in E1 as ->. rewrite sret_eq. intros [= _ ->]. set_solver. }
    destruct (bool_decide (t = "cp210x")) eqn:E2; [|done].
    apply bool_decide_eq_true in E2 as ->. rewrite sret_eq. intros [= _ ->]. set_solver.
  - rewrite sret_eq. intros [= _ ->]. set_solver.
Qed.

(** C27. When [libusbp_generic_interface_create] succeeds, the object names the
    interface that was asked for: a libudev device of type "usb_interface" whose
    bInterfaceNumber is the number and whose parent USB device is the device, and
    which has no driver or the driver usbfs or cp210x; the object holds a copy of
    the device, the number, the interface's syspath and a device file that was
    checked to exist.  Otherwise it stores NULL and returns an error, after
    releasing all that it acquired; the argument is unchanged in both cases. *)
Theorem libusbp_generic_interface_create_finds p d n x :
  {{ device_own p d }} libusbp_generic_interface_create p n true @ x {{ r x',
    device_own p d ∗
    ((∃ q i id, ⟪r = (NULL, Some q) ∧ interface_of id (d_syspath d) n ∧ driver_allowed id ∧
        i_device i = d ∧ i_number i = n ∧ i_syspath i = default "" (udev_str os_syspath id) ∧
        ∃ h, os_access h (i_filename i) = SysOk 0⟫ ∗ interface_own q i) ∨
     (∃ a, ⟪r.2 = Some NULL ∧ failed (s_interface_create d n) x x' a⟫ ∗ err_own r.1 a)) }}.
Proof.
  iIntros "H". iApply (wp_wand with "[H]"); [by iApply libusbp_generic_interface_create_spec|].
  iIntros ([e o] x') "[H [(%i & %Hi & %q & %Hq & Hok)|(%got & %Hf & He & %Hb)]]";
    cbn [fst snd] in *; iFrame "H"; last first.
  { iRight. iExists got. by iFrame. }
  destruct Hi as [-> [_ E]]. subst o.
  unfold s_interface_create, scontext in E.
  destruct (s_interface_lookup d n (x_trace x)) as [[a|i'] h'] eqn:El; [done|].
  injection E as -> ->. unfold s_interface_lookup in El.
  apply sbind_inv in El as (c & h1 & E1 & El). rewrite sret_eq in E1. injection E1 as <- <-.
  apply sbind_inv in El as (path & h1 & E1 & El). rewrite sret_eq in E1. injection E1 as <- <-.
  apply sbind_inv in El as (u & h1 & _ & El).
  apply sbind_inv in El as (id & h2 & Eid & El). apply s_get_interface_inv in Eid.
  apply sbind_inv in El as (u' & h3 & Ed & El). apply s_check_driver_inv in Ed as [Hd ->].
  apply sbind_inv in El as (sp & h4 & E4 & El). rewrite sret_eq in E4. injection E4 as <- <-.
  apply sbind_inv in El as (f & h5 & _ & El).
  apply sbind_inv in El as (m & h6 & Ea & El). rewrite sret_eq in El. injection El as <- _.
  iLeft. iExists q, _, id. iFrame. iPureIntro. split_and!; try done.
  exists h5. unfold s_access, s_sys in Ea.
  destruct (os_access h5 f) as [k|e] eqn:E; [|done]. by pose proof (access_result _ _ _ E) as ->.
Qed.

(** [libusbp_generic_interface_copy] never returns an error: when there is
    memory the result is an equal interface that shares nothing with the source,
    but when an allocation fails it returns no error and stores NULL, and the
    error object with [LIBUSBP_ERROR_MEMORY] that it had in hand is lost.  The
    source object is unchanged. *)
Theorem libusbp_generic_interface_copy_loses_errors p i x :
  {{ interface_own p i }} libusbp_generic_interface_copy p true @ x {{ r x',
    interface_own p i ∗
    ((∃ q, ⟪r = (NULL, Some q) ∧ x_trace x' = x_trace x⟫ ∗ interface_own q i) ∨
     (⟪r = (NULL, Some NULL) ∧ oomed x x'⟫ ∗ ∃ lost a, err_own lost a ∗ ⟪mem_err a⟫)) }}.
Proof. apply libusbp_generic_interface_copy_spec. Qed.
End properties.

(** The failure happens: with no memory left, "no error" and NULL. *)
Example interface_copy_without_memory :
  match libusbp_generic_interface_copy (Heap 1%positive) true
          (World {[1%positive := OInterface {| gi_device := NULL; gi_interface_number := 0;
                                               gi_syspath := NULL; gi_filename := NULL |}]}
                 [false] (Ext [] 0 0)) with
  | Ret r _ => r
  | Stuck _ => (NULL, None)
  end = (NULL, Some NULL).
Proof. vm_compute. reflexivity. Qed.

#[local] Existing Instance Example_machine.machine.
#[local] Existing Instance Example_machine.machine_laws.

Example interface_create_example :
  (s_interface_create (Device "/sys/usb1/1-1" (Some "00012345") 0xda01 0x1ffb 0x111) 0 []).1 =
  inr (Interface (Device "/sys/usb1/1-1" (Some "00012345") 0xda01 0x1ffb 0x111) 0
         "/sys/usb1/1-1/1-1:1.0" "/dev/bus/usb/001/007").
Proof. vm_compute. reflexivity. Qed.

Lemma libusbp_generic_interface_create_finds_witness :
  LinuxLaws Example_machine.machine ∧
  let d := Device "/sys/usb1/1-1" (Some "00012345") 0xda01 0x1ffb 0x111 in
  {{ device_own (Heap 1%positive) d }}
    libusbp_generic_interface_create (Heap 1%positive) 0 true @ empty_ext
  {{ r x', device_own (Heap 1%positive) d ∗
    ((∃ q i id, ⟪r = (NULL, Some q) ∧ interface_of id (d_syspath d) 0 ∧ driver_allowed id ∧
        i_device i = d ∧ i_number i = 0 ∧ i_syspath i = default "" (udev_str os_syspath id) ∧
        ∃ h, os_access h (i_filename i) = SysOk 0⟫ ∗ interface_own q i) ∨
     (∃ a, ⟪r.2 = Some NULL ∧ failed (s_interface_create d 0) empty_ext x' a⟫ ∗ err_own r.1 a)) }}.
Proof.
  split; [exact Example_machine.machine_laws|]. intros d.
  exact (libusbp_generic_interface_create_finds (Heap 1%positive) d 0 empty_ext).
Defined.
