(* ===== verification/HandleLinux.v ===== *)
(** * HandleLinux: generic handles (src/src/linux/generic_handle_linux.c)

    Opening a handle and checking that the device behind it is the expected one,
    closing it, timeouts, and the synchronous transfers.  The event loop of the
    file is in TransferLinux.v. *)

From S2P Require Import Prelude Memory Logic Format Errors Results Basics Strings Buffers LinuxOS ErrnoLinux UdevLinux DeviceLinux UsbfdLinux InterfaceLinux.
#[local] Set Warnings "-rewrite-rw".

Section code.
Context `{OS : LinuxOS}.

(** [calloc] fills the struct with zeros. *)
Definition zero_handle : libusbp_generic_handle :=
  {| gh_device := NULL; gh_fd := 0;
     gh_in_timeout := replicate 16 0; gh_out_timeout := replicate 16 0 |}.

(** [generic_handle_setup] after the allocation of [new_handle]; the source tests
    [handle], not [new_handle], for NULL. *)
Definition generic_handle_setup_rest (gi : ptr) (handle_given : bool) (new_handle : ptr) :
    M (ptr * ptr) :=
  let error := if negb handle_given then Static error_no_memory else NULL in
  (* Copy the device. *)
  '(error, new_device) ← if_ok error NULL
    (into_variable (generic_interface_get_device_copy gi));
  (* Get the filename. *)
  '(error, new_filename) ← if_ok error NULL
    (into_variable (libusbp_generic_interface_get_os_filename gi true));
  (* Open the file. *)
  '(error, new_fd) ← if_ok error (-1) (usbfd_open new_filename);
  (* Assemble the handle and pass it to the caller. *)
  '(handle, new_fd, new_device, new_handle) ←
    (if is_null error then
       h ← load_as as_handle new_handle;
       store new_handle (OHandle {| gh_device := new_device; gh_fd := new_fd;
                                    gh_in_timeout := gh_in_timeout h;
                                    gh_out_timeout := gh_out_timeout h |});;
       mret (new_handle, -1, NULL, NULL)
     else mret (NULL, new_fd, new_device, new_handle));
  when (negb (new_fd =? -1)) (close new_fd);;
  libusbp_string_free new_filename;;
  libusbp_device_free new_device;;
  free new_handle;;
  mret (error, handle).

Definition generic_handle_setup (gi : ptr) (handle_given : bool) : M (ptr * ptr) :=
  c_assert (negb (is_null gi));;
  c_assert handle_given;;
  (* Allocate memory for the handle. *)
  new_handle ← calloc 1 sizeof_libusbp_generic_handle (OHandle zero_handle);
  generic_handle_setup_rest gi handle_given new_handle.

(** One comparison of [check_device_descriptor]. *)
Definition check_descriptor_field (error : ptr) (field : usb_device_descriptor → Z)
    (get : ptr → bool → M (ptr * option Z)) (name : string) (device : ptr)
    (desc : option usb_device_descriptor) : M ptr :=
  '(error, expected) ← if_ok error None (get device true);
  if is_null error then
    desc ← initialised desc;
    expected ← initialised expected;
    if negb (field desc =? expected) then
      error_create (name +:+ " mismatch: 0x" +:+ fmt_x 4 (field desc) +:+ " != 0x" +:+
                    fmt_x 4 expected +:+ ".")
    else mret error
  else mret error.

Definition check_device_descriptor (handle : ptr) : M ptr :=
  c_assert (negb (is_null handle));;
  h ← load_as as_handle handle;
  '(error, desc) ← usbfd_get_device_descriptor (gh_fd h);
  error ← check_descriptor_field error idVendor libusbp_device_get_vendor_id
            "Vendor ID" (gh_device h) desc;
  error ← check_descriptor_field error idProduct libusbp_device_get_product_id
            "Product ID" (gh_device h) desc;
  check_descriptor_field error bcdDevice libusbp_device_get_revision
    "Device revision" (gh_device h) desc.

Definition libusbp_generic_handle_close (handle : ptr) : M unit :=
  if is_null handle then mret tt else
  h ← load_as as_handle handle;
  close (gh_fd h);;
  libusbp_device_free (gh_device h);;
  free handle.

(** [libusbp_generic_handle_open] after [generic_handle_setup]. *)
Definition libusbp_generic_handle_open_rest (error new_handle : ptr) : M (ptr * option ptr) :=
  (* Check that the device descriptor is consistent. *)
  error ← then_check error (check_device_descriptor new_handle);
  (* Pass the handle to the caller. *)
  let '(handle, new_handle) :=
    if is_null error then (new_handle, NULL) else (NULL, new_handle) in
  libusbp_generic_handle_close new_handle;;
  mret (error, Some handle).

Definition libusbp_generic_handle_open (gi : ptr) (handle_given : bool) : M (ptr * option ptr) :=
  if negb handle_given then
    error ← error_create "Generic handle output pointer is null.";
    mret (error, None)
  else if is_null gi then
    error ← error_create "Generic interface is null.";
    mret (error, Some NULL)
  else
    '(error, new_handle) ← generic_handle_setup gi true;
    libusbp_generic_handle_open_rest error new_handle.

Definition libusbp_generic_handle_set_timeout (handle : ptr) (pipe_id timeout : Z) : M ptr :=
  if is_null handle then error_create "Generic handle is null." else
  error ← check_pipe_id pipe_id;
  if is_null error then
    let endpoint_number := Z.land pipe_id MAX_ENDPOINT_NUMBER in
    h ← load_as as_handle handle;
    (if negb (Z.land pipe_id 0x80 =? 0) then
       in_timeout ← endpoint_set (gh_in_timeout h) endpoint_number timeout;
       store handle (OHandle {| gh_device := gh_device h; gh_fd := gh_fd h;
                                gh_in_timeout := in_timeout;
                                gh_out_timeout := gh_out_timeout h |})
     else
       out_timeout ← endpoint_set (gh_out_timeout h) endpoint_number timeout;
       store handle (OHandle {| gh_device := gh_device h; gh_fd := gh_fd h;
                                gh_in_timeout := gh_in_timeout h;
                                gh_out_timeout := out_timeout |}));;
    mret error
  else mret error.

Definition libusbp_control_transfer (handle : ptr) (bmRequestType bRequest wValue wIndex : Z)
    (data : ptr) (wLength : Z) (transferred_given : bool) : M (ptr * option Z) :=
  if is_null handle then
    error ← error_create "Generic handle is null.";
    mret (error, out transferred_given 0)
  else
    let setup := {| setup_bmRequestType := bmRequestType; setup_bRequest := bRequest;
                    setup_wValue := wValue; setup_wIndex := wIndex;
                    setup_wLength := wLength |} in
    h ← load_as as_handle handle;
    timeout ← endpoint_get (gh_out_timeout h) 0;
    usbfd_control_transfer (gh_fd h) setup timeout data transferred_given.

(** The common body of [libusbp_read_pipe] and [libusbp_write_pipe]. *)
Definition transfer_pipe (check : Z → M ptr) (timeouts : libusbp_generic_handle → list Z)
    (context : string) (handle : ptr) (pipe_id : Z) (data : ptr) (size : Z)
    (transferred_given : bool) : M (ptr * option Z) :=
  if is_null handle then
    error ← error_create "Generic handle is null.";
    mret (error, out transferred_given 0)
  else
    error ← check pipe_id;
    '(error, transferred) ← if_ok error (out transferred_given 0)
      (let endpoint_number := Z.land pipe_id MAX_ENDPOINT_NUMBER in
       h ← load_as as_handle handle;
       timeout ← endpoint_get (timeouts h) endpoint_number;
       usbfd_bulk_or_interrupt_transfer (gh_fd h) pipe_id timeout data size transferred_given);
    error ← (if negb (is_null error) then error_add error context else mret error);
    mret (error, transferred).

Definition libusbp_read_pipe : ptr → Z → ptr → Z → bool → M (ptr * option Z) :=
  transfer_pipe check_pipe_id_in gh_in_timeout "Failed to read from pipe.".
Definition libusbp_write_pipe : ptr → Z → ptr → Z → bool → M (ptr * option Z) :=
  transfer_pipe check_pipe_id_out gh_out_timeout "Failed to write to pipe.".

Definition libusbp_generic_handle_get_fd (handle : ptr) : M Z :=
  if is_null handle then mret (-1) else
  h ← load_as as_handle handle;
  mret (gh_fd h).
End code.

(** ** What a handle holds *)

Record handle := Handle {
  h_device : device;
  h_in : list Z;
  h_out : list Z
}.

(** The handle with the open descriptor [fd]. *)
Definition handle_own (p : ptr) (fd : Z) (h : handle) : hProp :=
  (∃ l pd, ⟪p = Heap l ∧ List.length (h_in h) = 16%nat ∧ List.length (h_out h) = 16%nat⟫ ∗
     l ↦ OHandle {| gh_device := pd; gh_fd := fd; gh_in_timeout := h_in h;
                    gh_out_timeout := h_out h |} ∗
     device_own pd (h_device h) ∗ fd_own fd)%I.

Lemma handle_own_not_null p fd h : handle_own p fd h ⊢ ⌜is_null p = false⌝ ∧ handle_own p fd h.
Proof.
  iIntros "H". iSplit; [|done]. by iDestruct "H" as (l pd) "[[-> _] _]".
Qed.

Section specs.
Context `{OS : LinuxOS} {LAWS : LinuxLaws OS}.

(** Reading the fields of a handle. *)
Lemma handle_own_load p fd h x Q :
  handle_own p fd h -∗
  (∀ pd, ⌜List.length (h_in h) = 16%nat ∧ List.length (h_out h) = 16%nat⌝ →
     device_own pd (h_device h) -∗ fd_own fd -∗
     (device_own pd (h_device h) -∗ fd_own fd -∗ handle_own p fd h) -∗
     Q {| gh_device := pd; gh_fd := fd; gh_in_timeout := h_in h; gh_out_timeout := h_out h |} x) -∗
  wp (load_as as_handle p) x Q.
Proof.
  iIntros "(%l & %pd & %H & Hl & Hd & Hfd) HQ". pose proof H as (-> & Hi & Ho).
  iApply (wp_load_as with "Hl"); [done|]. iIntros "Hl". iApply ("HQ" with "[//] Hd Hfd").
  iIntros "Hd Hfd". iExists l, pd. by iFrame.
Qed.

(** ** Closing *)

Lemma libusbp_generic_handle_close_spec p fd h x :
  {{ handle_own p fd h }} libusbp_generic_handle_close p @ x {{ r x',
    ⟪x' = Ext (EvClose fd :: x_trace x) (x_errno x) (x_oom x)⟫ }}.
Proof.
  iIntros "(%l & %pd & %H & Hl & Hd & Hfd)". destruct H as [-> _].
  iDestruct "Hfd" as (lf) "[-> Hf]". unfold libusbp_generic_handle_close, close, fd_block.
  wp_frees. by iPureIntro.
Qed.

(** ** Timeouts *)

Definition with_timeout (h : handle) (pipe_id timeout : Z) : handle :=
  let i := Z.to_nat (Z.land pipe_id MAX_ENDPOINT_NUMBER) in
  if is_in pipe_id then Handle (h_device h) (<[i := timeout]> (h_in h)) (h_out h)
  else Handle (h_device h) (h_in h) (<[i := timeout]> (h_out h)).

(** The timeout for an endpoint. *)
Definition timeout_for (h : handle) (pipe_id : Z) : Z :=
  default 0 ((if is_in pipe_id then h_in h else h_out h)
             !! Z.to_nat (Z.land pipe_id MAX_ENDPOINT_NUMBER)).

Lemma libusbp_generic_handle_set_timeout_spec p fd h n t x :
  u8 n →
  {{ handle_own p fd h }} libusbp_generic_handle_set_timeout p n t @ x {{ r x',
    if pipe_id_exists n then ⟪r = NULL ∧ x' = x⟫ ∗ handle_own p fd (with_timeout h n t)
    else err_res r (invalid_pipe_id n) x x' ∗ handle_own p fd h }}.
Proof.
  iIntros (Hn) "H". iDestruct (handle_own_not_null with "H") as "[%Hp H]".
  unfold libusbp_generic_handle_set_timeout, with_timeout. wp_steps.
  wp_call (check_pipe_id_exact n x Hn). iIntros (e x1) "H'". unfold check_result.
  destruct (pipe_id_exists n); last first.
  { iDestruct (err_res_not_null with "H'") as "[%He H']". wp_steps. iFrame. }
  iDestruct "H'" as %[-> ->].
  iDestruct "H" as "(%l & %pd & %H & Hl & Hd & Hfd)". destruct H as (-> & Hi & Ho).
  pose proof (endpoint_number_range n) as Hr. unfold u8 in Hn. specialize (Hr ltac:(lia)).
  rewrite pipe_id_direction // negb_involutive. wp_steps.
  destruct (is_in n); wp_steps; (iApply wp_endpoint_set; [lia|]); wp_steps;
    (iSplit; [done|]); iExists l, pd; iFrame; iPureIntro; rewrite ?length_insert; done.
Qed.

(** ** Control transfers *)

Definition control_setup (bmRequestType bRequest wValue wIndex wLength : Z) : libusbp_setup_packet :=
  {| setup_bmRequestType := bmRequestType; setup_bRequest := bRequest;
     setup_wValue := wValue; setup_wIndex := wIndex; setup_wLength := wLength |}.

Lemma libusbp_control_transfer_spec p fd h ty req value index data len given cs x :
  let t := control_request (control_setup ty req value index len) (timeout_for h 0) data in
  u16 len → (is_null data = false → len ≤ Z.of_nat (List.length cs)) →
  {{ handle_own p fd h ∗ user_buffer data cs }}
    libusbp_control_transfer p ty req value index data len given @ x
  {{ r x', handle_own p fd h ∗ user_buffer data (control_received (x_trace x) fd t cs) ∗
     returns (s_control fd t cs) x x' r.1 (λ n, ⟪r.2 = out given n⟫) ⟪r.2 = out given 0⟫ }}.
Proof.
  iIntros (t Hlen Hcs) "[Hh Hb]". iDestruct (handle_own_not_null with "Hh") as "[%Hp Hh]".
  unfold libusbp_control_transfer. wp_steps.
  iApply (handle_own_load with "Hh"). iIntros (pd [Hi Ho]) "Hd Hfd Hclose". wp_steps.
  iApply wp_endpoint_get; [lia|].
  iApply (wp_wand with "[Hfd Hb]").
  { iApply (usbfd_control_transfer_spec fd (control_setup ty req value index len) with "[$]"); done. }
  iIntros (r x') "[[Hfd Hb] H]". iDestruct ("Hclose" with "Hd Hfd") as "Hh". iFrame.
Qed.

(** ** Reading and writing *)

Definition pipe_request (h : handle) (pipe_id : Z) (data : ptr) (size : Z) : usbdevfs_bulktransfer :=
  bulk_request pipe_id (timeout_for h pipe_id) data size.

Definition s_transfer (ok : bool) (context : string) (fd : Z) (t : usbdevfs_bulktransfer)
    (cs : list (option ascii)) : Spec Z :=
  scontext context (checked ok (bulk_ep t);; s_bulk fd t cs).

Lemma transfer_pipe_spec check timeouts context ok p fd h n data size given cs x :
  let t := pipe_request h n data size in
  ({{ emp }} check n @ x {{ r x', check_result ok n r x x' }}) →
  (∀ pd, ok = true → timeouts {| gh_device := pd; gh_fd := fd; gh_in_timeout := h_in h;
      gh_out_timeout := h_out h |} = if is_in n then h_in h else h_out h) →
  no_nul context = true → u8 n → 0 ≤ size →
  (is_null data = false → size ≤ Z.of_nat (List.length cs)) →
  {{ handle_own p fd h ∗ user_buffer data cs }}
    transfer_pipe check timeouts context p n data size given @ x
  {{ r x', handle_own p fd h ∗
     user_buffer data (if ok then bulk_received (x_trace x) fd t cs else cs) ∗
     returns (s_transfer ok context fd t cs) x x' r.1
       (λ n, ⟪r.2 = out given n⟫) ⟪r.2 = out given 0⟫ }}.
Proof.
  iIntros (t Hcheck Hts Hctx Hn Hsize Hcs) "[Hh Hb]".
  iDestruct (handle_own_not_null with "Hh") as "[%Hp Hh]".
  unfold transfer_pipe, if_ok. wp_steps. wp_call Hcheck. iIntros (e x1) "H".
  destruct ok; cbn [check_result].
  - iDestruct "H" as %[-> ->]. wp_steps.
    iApply (handle_own_load with "Hh"). iIntros (pd [Hi Ho]) "Hd Hfd Hclose". wp_steps.
    rewrite Hts //. unfold u8 in Hn. pose proof (endpoint_number_range n ltac:(lia)).
    iApply wp_endpoint_get; [destruct (is_in n); lia|]. fold (timeout_for h n).
    wp_call (usbfd_bulk_or_interrupt_transfer_spec fd n (timeout_for h n) data size given cs x
               Hn Hsize Hcs).
    iIntros ([e tr] x1) "[[Hfd Hb] H]". fold (pipe_request h n data size). fold t.
    assert (Hck : succeeded (checked true (bulk_ep t)) x x tt) by by apply succeeded_ret.
    iDestruct ("Hclose" with "Hd Hfd") as "Hh".
    returned "H".
    + wp_steps. iFrame. iApply (returns_ok _ _ _ a with "Hok"). apply scontext_ok.
      eapply succeeded_bind; [exact Hck|done].
    + wp_steps. iApply (wp_add_context (checked true (bulk_ep t);; s_bulk fd t cs) with "He");
        [done|by eapply failed_bind_r|].
      iIntros (e' x2 got' [Hn' Hf']) "He". wp_steps. iFrame. iRight. iExists got'. by iFrame.
  - iDestruct (err_res_not_null with "H") as "[%Hn' H]".
    iDestruct "H" as (got) "[He %H]". wp_steps.
    iApply (wp_add_context (checked false (bulk_ep t);; s_bulk fd t cs) with "He"); [done| |].
    { apply failed_bind. destruct H as [Hq He]. split; [by apply quiet_calm|].
      destruct Hq as [-> _]. destruct He as [->|?]; [by left|by right]. }
    iIntros (e' x2 got' [Hn2 Hf']) "He". wp_steps. iFrame. iRight. iExists got'. by iFrame.
Qed.

Lemma libusbp_read_pipe_spec p fd h n data size given cs x :
  let t := pipe_request h n data size in
  let ok := is_in n && pipe_id_exists n in
  u8 n → 0 ≤ size → (is_null data = false → size ≤ Z.of_nat (List.length cs)) →
  {{ handle_own p fd h ∗ user_buffer data cs }} libusbp_read_pipe p n data size given @ x
  {{ r x', handle_own p fd h ∗
     user_buffer data (if ok then bulk_received (x_trace x) fd t cs else cs) ∗
     returns (s_transfer ok "Failed to read from pipe." fd t cs) x x' r.1
       (λ n, ⟪r.2 = out given n⟫) ⟪r.2 = out given 0⟫ }}.
Proof.
  intros t ok Hn Hsize Hcs. apply transfer_pipe_spec; try done; [by apply check_pipe_id_in_exact|].
  intros pd [-> _]%andb_true_iff. done.
Qed.

Lemma libusbp_write_pipe_spec p fd h n data size given cs x :
  let t := pipe_request h n data size in
  let ok := negb (is_in n) && pipe_id_exists n in
  u8 n → 0 ≤ size → (is_null data = false → size ≤ Z.of_nat (List.length cs)) →
  {{ handle_own p fd h ∗ user_buffer data cs }} libusbp_write_pipe p n data size given @ x
  {{ r x', handle_own p fd h ∗
     user_buffer data (if ok then bulk_received (x_trace x) fd t cs else cs) ∗
     returns (s_transfer ok "Failed to write to pipe." fd t cs) x x' r.1
       (λ n, ⟪r.2 = out given n⟫) ⟪r.2 = out given 0⟫ }}.
Proof.
  intros t ok Hn Hsize Hcs. apply transfer_pipe_spec; try done; [by apply check_pipe_id_out_exact|].
  intros pd [->%negb_true_iff _]%andb_true_iff. done.
Qed.

(** ** Opening *)

(** A number of the descriptor must be the one in the device object. *)
Definition s_check_field (name : string) (actual expected : Z) : Spec unit :=
  if actual =? expected then mret tt
  else sfail (err_new (name +:+ " mismatch: 0x" +:+ fmt_x 4 actual +:+ " != 0x" +:+
                       fmt_x 4 expected +:+ ".")).

Definition s_check_descriptor (fd : Z) (d : device) : Spec unit :=
  desc ← s_descriptor fd;
  s_check_field "Vendor ID" (idVendor desc) (d_vendor d);;
  s_check_field "Product ID" (idProduct desc) (d_product d);;
  s_check_field "Device revision" (bcdDevice desc) (d_revision d).

Lemma check_descriptor_field_spec field get name p d value desc x :
  no_nul name = true →
  (∀ y, {{ device_own p d }} get p true @ y {{ r y',
     ⟪r = (NULL, Some value) ∧ y' = y⟫ ∗ device_own p d }}) →
  {{ device_own p d }} check_descriptor_field NULL field get name p (Some desc) @ x {{ r x',
    device_own p d ∗ returns (s_check_field name (field desc) value) x x' r (λ _, emp) emp }}.
Proof.
  iIntros (Hname Hget) "Hd". unfold check_descriptor_field, if_ok, s_check_field, initialised.
  wp_steps. wp_call (Hget x). iIntros (r ?) "[%H Hd]". destruct H as [-> ->]. wp_steps.
  destruct (field desc =? value); wp_steps.
  - iFrame. iApply (returns_ok _ _ _ tt (λ _, emp)%I); [by apply succeeded_ret|done].
  - iApply wp_error_create; [by rewrite !no_nul_app !no_nul_fmt_x Hname|]. err_intro. iFrame.
    iApply (returns_err with "[-]"); [done|by iFrame].
Qed.

Lemma check_device_descriptor_spec p fd h x :
  {{ handle_own p fd h }} check_device_descriptor p @ x {{ r x',
    handle_own p fd h ∗
    returns (s_check_descriptor fd (h_device h)) x x' r (λ _, emp) emp }}.
Proof.
  iIntros "Hh". iDestruct (handle_own_not_null with "Hh") as "[%Hp Hh]".
  unfold check_device_descriptor, s_check_descriptor. wp_steps.
  iApply (handle_own_load with "Hh"). iIntros (pd _) "Hd Hfd Hclose". wp_steps.
  wp_call (usbfd_get_device_descriptor_spec fd x). iIntros ([e o] x1) "[Hfd H]".
  returned "H"; last first.
  { unfold check_descriptor_field, if_ok. wp_steps.
    iDestruct ("Hclose" with "Hd Hfd") as "Hh". iFrame. fails. }
  iDestruct "Hok" as %->. rename a into desc. wp_step.
  wp_call (check_descriptor_field_spec idVendor _ "Vendor ID" _ _ _ desc x1 eq_refl
             (libusbp_device_get_vendor_id_spec pd _)).
  iIntros (e x2) "[Hd H]". returned "H"; last first.
  { unfold check_descriptor_field, if_ok. wp_steps.
    iDestruct ("Hclose" with "Hd Hfd") as "Hh". iFrame. fails. }
  iClear "Hok". wp_step.
  wp_call (check_descriptor_field_spec idProduct _ "Product ID" _ _ _ desc x2 eq_refl
             (libusbp_device_get_product_id_spec pd _)).
  iIntros (e x3) "[Hd H]". destruct a. returned "H"; last first.
  { unfold check_descriptor_field, if_ok. wp_steps.
    iDestruct ("Hclose" with "Hd Hfd") as "Hh". iFrame. fails. }
  iClear "Hok". wp_steps.
  wp_call (check_descriptor_field_spec bcdDevice _ "Device revision" _ _ _ desc x3 eq_refl
             (libusbp_device_get_revision_spec pd _)).
  iIntros (e x4) "[Hd H]". iDestruct ("Hclose" with "Hd Hfd") as "Hh". iFrame "Hh". destruct a.
  iApply (returns_bind with "[H]"); [done|]. iApply (returns_bind with "[H]"); [done|].
  iApply (returns_bind with "[H]"); done.
Qed.

Definition new_handle_of (i : interface) : handle :=
  Handle (i_device i) (replicate 16 0) (replicate 16 0).

Definition s_handle_setup (i : interface) : Spec unit :=
  d ← mret (i_device i);
  filename ← mret (i_filename i);
  s_open filename.

Lemma generic_handle_setup_rest_spec gi i l x :
  {{ interface_own gi i ∗ l ↦ OHandle zero_handle }}
    generic_handle_setup_rest gi true (Heap l) @ x
  {{ r x', interface_own gi i ∗
     returns (s_handle_setup i) x x' r.1
       (λ _, ∃ fd, handle_own r.2 fd (new_handle_of i)) ⟪r.2 = NULL⟫ }}.
Proof.
  iIntros "[Hi Hl]". unfold generic_handle_setup_rest, if_ok. wp_steps.
  wp_call (into_variable_spec _ _ _ _ _ _ (generic_interface_get_device_copy_spec gi i x)).
  iIntros ([e pd] x1) "[Hi H]". returned "H"; last first.
  { iDestruct "Hbad" as %->. wp_steps. wp_constants. wp_frees. iFrame "Hi". fails. }
  rename a into d. iRename "Hok" into "Hd". wp_steps.
  wp_call (into_variable_spec _ _ _ _ _ _ (libusbp_generic_interface_get_os_filename_spec gi i x1)).
  iIntros ([e pf] x2) "[Hi H]". returned "H"; last first.
  { iDestruct "Hbad" as %->. wp_steps. wp_constants. wp_frees. iFrame "Hi". fails. }
  rename a into f. iRename "Hok" into "Hf".
  iDestruct (str_own_no_nul with "Hf") as "[[%Hf %Hfn] Hf]". wp_steps.
  wp_call (usbfd_open_spec _ pf f x2 (reads_str pf f) Hfn Hf). iIntros ([e fd] x3) "[Hf H]".
  returned "H"; last first.
  { iDestruct "Hbad" as %->. wp_steps. wp_constants. wp_frees. iFrame "Hi". fails. }
  destruct a. wp_steps. wp_constants. wp_frees. iFrame "Hi".
  iApply (returns_ok _ _ _ tt with "[-]"). { unfold s_handle_setup. chain. }
  apply succeeded_ret_inv in Ha as (-> & _ & _).
  iExists fd, l, pd. iFrame. by iPureIntro.
Qed.

(** A descriptor that is closed when [s] fails. *)
Definition s_closing {A} (fd : Z) (s : Spec A) : Spec A := λ h,
  match s h with
  | (inl e, h') => (inl e, EvClose fd :: h')
  | r => r
  end.

Definition s_handle_open (i : interface) (fd : Z) : Spec unit :=
  s_handle_setup i;; s_closing fd (s_check_descriptor fd (i_device i)).

Lemma libusbp_generic_handle_open_rest_spec i e nh x x1 :
  {{ returns (s_handle_setup i) x x1 e
       (λ _, ∃ fd, handle_own nh fd (new_handle_of i)) ⟪nh = NULL⟫ }}
    libusbp_generic_handle_open_rest e nh @ x1
  {{ r x', ∃ fd, returns (s_handle_open i fd) x x' r.1
       (λ _, ∃ q, ⟪r.2 = Some q⟫ ∗ handle_own q fd (new_handle_of i)) ⟪r.2 = Some NULL⟫ }}.
Proof.
  iIntros "H". unfold libusbp_generic_handle_open_rest, then_check. returned "H"; last first.
  { iDestruct "Hbad" as %->. unfold libusbp_generic_handle_close. wp_steps. iExists 0. fails. }
  iDestruct "Hok" as (fd) "Hh". iDestruct (handle_own_not_null with "Hh") as "[%Hn Hh]".
  wp_steps. wp_call (check_device_descriptor_spec nh fd (new_handle_of i) x1).
  iIntros (e x2) "[Hh H]". destruct a. cbn [new_handle_of h_device]. returned "H".
  - unfold libusbp_generic_handle_close. wp_steps. iExists fd.
    iApply (returns_ok _ _ _ tt with "[-]"); [|iExists nh; by iFrame].
    eapply succeeded_bind; [exact Ha|]. destruct Ha0 as [Hc E]. split; [done|].
    unfold s_closing. rewrite E. by destruct a.
  - wp_step. wp_call (libusbp_generic_handle_close_spec nh fd (new_handle_of i) x2).
    iIntros ([] ?) "->". wp_steps. iExists fd. iRight. iExists got. iFrame.
    iSplit; [|done]. iPureIntro. eapply failed_bind_r; [exact Ha|].
    destruct Hfailed as [Hc E]. split; [by apply calm_event|].
    destruct E as [E|[? ?]]; [left|by right]. unfold s_closing. cbn [x_trace]. by rewrite E.
Qed.

(** With memory for the handle itself. *)
Lemma libusbp_generic_handle_open_spec gi i x :
  interface_own gi i ⊢
  wp_next true (libusbp_generic_handle_open gi true) x (λ r x', interface_own gi i ∗
    ∃ fd, returns (s_handle_open i fd) x x' r.1
      (λ _, ∃ q, ⟪r.2 = Some q⟫ ∗ handle_own q fd (new_handle_of i)) ⟪r.2 = Some NULL⟫)%I.
Proof.
  iIntros "Hi". iDestruct (interface_own_not_null with "Hi") as "[%Hn Hi]".
  iApply (wp_next_ext _ _ (malloc (1 * sizeof_libusbp_generic_handle) (OHandle zero_handle) ≫= λ nh,
            '(e, h) ← generic_handle_setup_rest gi true nh;
            libusbp_generic_handle_open_rest e h)).
  { intros w. unfold libusbp_generic_handle_open, generic_handle_setup, calloc. rewrite Hn.
    cbn [negb c_assert]. by rewrite -!bind_assoc. }
  iApply wp_next_malloc; [done|]. iIntros (l) "Hl". wp_step.
  wp_call (generic_handle_setup_rest_spec gi i l x). iIntros ([e h] x1) "[Hi H]". wp_simpl.
  iApply (wp_wand with "[H]"); [by iApply libusbp_generic_handle_open_rest_spec|].
  iIntros (r x') "H". iFrame.
Qed.

(** ** Rejected transfers *)

(** Why a transfer is refused before the kernel is asked. *)
Definition rejected (ok : bool) (n size : Z) (null : bool) : option aerr :=
  if ok then bulk_guard n size null else Some (invalid_pipe_id n).

Lemma bulk_rejected fd n timeout data size given e x :
  u8 n → bulk_guard n size (is_null data) = Some e →
  {{ emp }} usbfd_bulk_or_interrupt_transfer fd n timeout data size given @ x {{ r x',
    err_res r.1 e x x' ∗ ⟪r.2 = out given 0⟫ }}.
Proof.
  iIntros (Hn He) "_". unfold usbfd_bulk_or_interrupt_transfer.
  rewrite pipe_id_direction // negb_involutive. unfold bulk_guard in He.
  destruct ((size =? 0) && is_in n); [injection He as <-; err_chain; by iFrame|].
  destruct (UINT_MAX <? size); [injection He as <-; err_chain; by iFrame|].
  destruct (is_null data && negb (size =? 0)); [injection He as <-; err_chain; by iFrame|done].
Qed.

Lemma transfer_pipe_rejected check timeouts context ok p fd h n data size given e x :
  ({{ emp }} check n @ x {{ r x', check_result ok n r x x' }}) →
  (∀ pd, ok = true → timeouts {| gh_device := pd; gh_fd := fd; gh_in_timeout := h_in h;
      gh_out_timeout := h_out h |} = if is_in n then h_in h else h_out h) →
  no_nul context = true → u8 n → rejected ok n size (is_null data) = Some e →
  {{ handle_own p fd h }} transfer_pipe check timeouts context p n data size given @ x
  {{ r x', handle_own p fd h ∗ err_res r.1 (err_add e context) x x' ∗ ⟪r.2 = out given 0⟫ }}.
Proof.
  iIntros (Hcheck Hts Hctx Hn He) "Hh".
  iDestruct (handle_own_not_null with "Hh") as "[%Hp Hh]".
  unfold transfer_pipe, if_ok. wp_steps. wp_call Hcheck. iIntros (e1 x1) "H".
  destruct ok; cbn [check_result rejected] in *.
  - iDestruct "H" as %[-> ->]. wp_steps.
    iApply (handle_own_load with "Hh"). iIntros (pd [Hi Ho]) "Hd Hfd Hclose". wp_steps.
    rewrite Hts //. pose proof Hn as Hn'. unfold u8 in Hn'.
    pose proof (endpoint_number_range n ltac:(lia)).
    iApply wp_endpoint_get; [destruct (is_in n); lia|].
    wp_call (bulk_rejected fd n _ data size given e x Hn He).
    iIntros ([e2 tr] x2) "[H %Htr]". cbn [fst snd] in *. subst tr.
    iDestruct ("Hclose" with "Hd Hfd") as "Hh".
    iDestruct (err_res_not_null with "H") as "[%He2 H]". wp_steps.
    iApply (wp_error_add with "H"); [done|]. err_intro. wp_steps. by iFrame.
  - injection He as <-. iDestruct (err_res_not_null with "H") as "[%He1 H]". wp_steps.
    iApply (wp_error_add with "H"); [done|]. err_intro. wp_steps. by iFrame.
Qed.
End specs.

(** ** Properties *)

Section properties.
Context `{OS : LinuxOS} {LAWS : LinuxLaws OS}.

Lemma s_check_field_inv name a b h u h' :
  s_check_field name a b h = (inr u, h') → a = b ∧ h' = h.
Proof.
  unfold s_check_field. destruct (Z.eqb_spec a b); [|done].
  rewrite sret_eq. by intros [= _ ->].
Qed.

Lemma s_descriptor_inv fd h desc h' :
  s_descriptor fd h = (inr desc, h') →
  os_read (EvLseek fd :: h) fd 18 = SysOk 18 ∧ desc = os_descriptor (EvLseek fd :: h) fd ∧
  h' = EvRead fd 18 :: EvLseek fd :: h.
Proof.
  unfold s_descriptor. destruct (os_lseek h fd); [|done].
  change sizeof_usb_device_descriptor with 18.
  destruct (os_read (EvLseek fd :: h) fd 18) as [k|e]; [|done].
  destruct (Z.eqb_spec k 18) as [->|]; [|done]. by intros [= <- <-].
Qed.

Definition descriptor_matches (desc : usb_device_descriptor) (d : device) : Prop :=
  idVendor desc = d_vendor d ∧ idProduct desc = d_product d ∧ bcdDevice desc = d_revision d.

(** C5. Opening a handle (when there is memory for the handle object itself):
    it succeeds only if the device file could be opened, its descriptor could be
    read completely and has the vendor ID, product ID and revision of the device
    object; the handle then owns the descriptor and a copy of the device, and all
    timeouts are 0.  The system calls are exactly open, lseek and read.  On any
    failure the file is closed, everything is released and NULL is stored. *)
Theorem libusbp_generic_handle_open_checks gi i x :
  interface_own gi i ⊢
  wp_next true (libusbp_generic_handle_open gi true) x (λ r x', interface_own gi i ∗
    ((∃ q fd desc, ⟪r = (NULL, Some q) ∧ descriptor_matches desc (i_device i) ∧
        desc = os_descriptor (EvLseek fd :: EvOpen (i_filename i) true :: x_trace x) fd ∧
        x_trace x' = EvRead fd 18 :: EvLseek fd :: EvOpen (i_filename i) true :: x_trace x⟫ ∗
        handle_own q fd (Handle (i_device i) (replicate 16 0) (replicate 16 0))) ∨
     (∃ a fd, ⟪r.2 = Some NULL ∧ failed (s_handle_open i fd) x x' a⟫ ∗ err_own r.1 a)))%I.
Proof.
  etrans; [apply libusbp_generic_handle_open_spec|].
  apply wp_next_mono. intros [e o] x'. cbn [fst snd].
  iIntros "[$ (%fd & [(%u & %Hu & %q & %Hq & Hh)|(%got & %Hf & He & %Ho)])]"; last first.
  { iRight. iExists got, fd. by iFrame. }
  destruct Hu as [-> [_ E]]. subst o. unfold s_handle_open in E.
  apply sbind_inv in E as (v & h1 & E1 & E2). unfold s_handle_setup in E1.
  apply sbind_inv in E1 as (c & h2 & E0 & E1). rewrite sret_eq in E0. injection E0 as <- <-.
  apply sbind_inv in E1 as (c & h2 & E0 & E1). rewrite sret_eq in E0. injection E0 as <- <-.
  unfold s_open in E1. destruct (os_open (x_trace x) (i_filename i)); [|done].
  injection E1 as <- <-. unfold s_closing in E2.
  destruct (s_check_descriptor fd (i_device i) _) as [[a|w] h3] eqn:E; [done|].
  injection E2 as -> ->. unfold s_check_descriptor in E.
  apply sbind_inv in E as (desc & h4 & Ed & E). apply s_descriptor_inv in Ed as (_ & -> & ->).
  apply sbind_inv in E as (? & h5 & Ev & E). apply s_check_field_inv in Ev as [Ev ->].
  apply sbind_inv in E as (? & h6 & Ep & E). apply s_check_field_inv in Ep as [Ep ->].
  apply s_check_field_inv in E as [Er E].
  iLeft. iExists q, fd, _. iFrame. by iPureIntro.
Qed.

(** A pipe ID that exists is its number and its direction. *)
Lemma pipe_id_split n : u8 n → pipe_id_exists n = true →
  n = Z.land n MAX_ENDPOINT_NUMBER + (if is_in n then 128 else 0).
Proof.
  intros Hn He. enough (implb (pipe_id_exists n)
    (n =? Z.land n MAX_ENDPOINT_NUMBER + (if is_in n then 128 else 0)) = true) as H.
  { rewrite He in H. by apply Z.eqb_eq in H. }
  clear He. revert n Hn. apply u8_forall. by vm_compute.
Qed.

Lemma timeout_with h n t m :
  List.length (h_in h) = 16%nat → List.length (h_out h) = 16%nat →
  u8 n → u8 m → pipe_id_exists n = true → pipe_id_exists m = true →
  timeout_for (with_timeout h n t) m = if m =? n then t else timeout_for h m.
Proof.
  intros Hi Ho Hn Hm En Em.
  pose proof (pipe_id_split n Hn En). pose proof (pipe_id_split m Hm Em).
  unfold u8 in *. pose proof (endpoint_number_range n). pose proof (endpoint_number_range m).
  unfold timeout_for, with_timeout.
  destruct (Z.eqb_spec m n) as [->|Hne].
  - destruct (is_in n); cbn [h_in h_out]; (rewrite list_lookup_insert_eq; [done|lia]).
  - destruct (is_in n), (is_in m); cbn [h_in h_out]; try done;
      (rewrite list_lookup_insert_ne; [done|lia]).
Qed.

Lemma handle_own_lengths p fd h :
  handle_own p fd h ⊢ ⌜List.length (h_in h) = 16%nat ∧ List.length (h_out h) = 16%nat⌝ ∧
  handle_own p fd h.
Proof.
  iIntros "H". iSplit; [|done]. iDestruct "H" as (l pd) "[%H _]". by destruct H as (_ & ? & ?).
Qed.

(** The timeouts are a table of endpoint addresses: after
    [libusbp_generic_handle_set_timeout] the timeout of the given endpoint and
    direction is the new one and every other is as before; IN and OUT endpoints
    with the same number are independent.  A pipe ID that does not exist is
    refused and changes nothing. *)
Theorem libusbp_generic_handle_set_timeout_table p fd h n t x :
  u8 n →
  {{ handle_own p fd h }} libusbp_generic_handle_set_timeout p n t @ x {{ r x',
    (∃ h', ⟪r = NULL ∧ pipe_id_exists n = true ∧ h_device h' = h_device h ∧
            ∀ m, u8 m → pipe_id_exists m = true →
              timeout_for h' m = if m =? n then t else timeout_for h m⟫ ∗ handle_own p fd h') ∨
    (∃ a, ⟪pipe_id_exists n = false ∧ errs x x' (invalid_pipe_id n) a⟫ ∗
          err_own r a ∗ handle_own p fd h) }}.
Proof.
  iIntros (Hn) "H". iDestruct (handle_own_lengths with "H") as "[[%Hi %Ho] H]".
  wp_call (libusbp_generic_handle_set_timeout_spec p fd h n t x Hn).
  iIntros (r x') "H". destruct (pipe_id_exists n) eqn:En.
  - iDestruct "H" as "[%H Hh]". destruct H as [-> ->]. iLeft. iExists (with_timeout h n t).
    iFrame. iPureIntro. split_and!; [done|done|by unfold with_timeout; destruct (is_in n)|].
    intros m Hm Em. by apply timeout_with.
  - iDestruct "H" as "[(%got & He & %H) Hh]". iRight. iExists got. iFrame.
    iPureIntro. by destruct H.
Qed.

(** C8. Reading from an IN endpoint that exists, with a size from 1 to
    [UINT_MAX] and a buffer of at least that size: the kernel is asked once, for
    this endpoint, with the size unchanged by the conversion to [unsigned int] and
    with the timeout set for this endpoint; at most [size] bytes of the buffer
    change, and the result is the number of bytes the kernel reports, or the
    kernel's error decorated with "Failed to read from pipe." and 0 bytes. *)
Theorem libusbp_read_pipe_reads p fd h n data size cs x :
  let t := {| bulk_ep := n; bulk_len := size; bulk_timeout := timeout_for h n; bulk_data := data |} in
  let answer := os_bulk (x_trace x) fd t in
  u8 n → is_in n && pipe_id_exists n = true → 0 < size ≤ UINT_MAX →
  is_null data = false → size ≤ Z.of_nat (List.length cs) →
  {{ handle_own p fd h ∗ user_buffer data cs }} libusbp_read_pipe p n data size true @ x
  {{ r x', handle_own p fd h ∗ user_buffer data (overwrite answer.2 cs) ∗
     ⟪Z.of_nat (List.length answer.2) ≤ size⟫ ∗
     ((∃ k, ⟪r = (NULL, Some k) ∧ answer.1 = SysOk k ∧ 0 ≤ k ≤ size ∧
             x_trace x' = EvBulk fd t [] :: x_trace x⟫) ∨
      (∃ a, ⟪r.2 = Some 0 ∧
             ((∃ e, answer.1 = SysErr e ∧
                 a = err_add (errno_error e "") "Failed to read from pipe." ∧
                 x_trace x' = EvBulk fd t [] :: x_trace x) ∨
              mem_err a ∧ oomed x x')⟫ ∗ err_own r.1 a)) }}.
Proof.
  iIntros (t answer Hn Hok Hsize Hdata Hcs) "H".
  assert (Hin : is_in n = true) by by apply andb_true_iff in Hok as [-> _].
  assert (Hguard : bulk_guard n size (is_null data) = None).
  { unfold bulk_guard. rewrite Hdata Hin. destruct (Z.eqb_spec size 0); [lia|].
    destruct (Z.ltb_spec UINT_MAX size); [lia|done]. }
  iApply (wp_wand with "[H]"). { iApply (libusbp_read_pipe_spec with "H"); [done|lia|done]. }
  iIntros ([e o] x') "(Hh & Hb & H)". rewrite Hok. iFrame "Hh".
  assert (Hrec : bulk_received (x_trace x) fd (pipe_request h n data size) cs = overwrite answer.2 cs).
  { unfold bulk_received. cbn [bulk_ep bulk_len bulk_data pipe_request bulk_request].
    by rewrite Hguard Hin. }
  rewrite Hrec. iFrame "Hb".
  assert (Hs : s_transfer true "Failed to read from pipe." fd (pipe_request h n data size) cs (x_trace x) =
    (match answer.1 with
     | SysOk k => inr k
     | SysErr e => inl (err_add (errno_error e "") "Failed to read from pipe.")
     end, EvBulk fd t [] :: x_trace x)).
  { change (pipe_request h n data size) with t. unfold s_transfer, scontext. cbn [checked].
    rewrite (sbind_ok _ _ _ _ _ (sret_eq tt _)). unfold s_bulk, bulk_event, s_sys.
    cbn [bulk_ep bulk_len bulk_data t]. rewrite Hguard Hin. fold t. fold answer.
    by destruct answer.1. }
  iSplit; [iPureIntro; apply bulk_length; cbn; lia|].
  iDestruct "H" as "[(%k & %Hk & %Ho)|(%a & %Hf & He & %Ho)]"; cbn [fst snd out] in *.
  - destruct Hk as [-> [_ E]]. rewrite Hs in E. iLeft. iExists k. iPureIntro.
    destruct answer.1 as [k'|] eqn:Ea; [|done]. injection E as -> <-.
    split_and!; try done; [by subst| |]; apply (bulk_result _ _ t) in Ea; cbn in *; lia.
  - iRight. iExists a. iFrame. iPureIntro. split; [done|].
    destruct Hf as [_ [E|?]]; [left|by right]. rewrite Hs in E.
    destruct answer.1 as [k'|err] eqn:Ea; [done|]. injection E as <- <-. by exists err.
Qed.

(** C9. Writing to an OUT endpoint that exists, with any size up to [UINT_MAX]
    and a buffer of at least that size: the kernel is given exactly the first
    [size] bytes of the buffer, once, for this endpoint and with the timeout set
    for it; the buffer is not changed, and the result is the number of bytes the
    kernel accepted, or its error decorated with "Failed to write to pipe.". *)
Theorem libusbp_write_pipe_writes p fd h n data size cs x :
  let t := {| bulk_ep := n; bulk_len := size; bulk_timeout := timeout_for h n; bulk_data := data |} in
  let answer := os_bulk (x_trace x) fd t in
  let ev := EvBulk fd t (take (Z.to_nat size) cs) in
  u8 n → negb (is_in n) && pipe_id_exists n = true → 0 ≤ size ≤ UINT_MAX →
  is_null data = false → size ≤ Z.of_nat (List.length cs) →
  {{ handle_own p fd h ∗ user_buffer data cs }} libusbp_write_pipe p n data size true @ x
  {{ r x', handle_own p fd h ∗ user_buffer data cs ∗
     ((∃ k, ⟪r = (NULL, Some k) ∧ answer.1 = SysOk k ∧ 0 ≤ k ≤ size ∧
             x_trace x' = ev :: x_trace x⟫) ∨
      (∃ a, ⟪r.2 = Some 0 ∧
             ((∃ e, answer.1 = SysErr e ∧
                 a = err_add (errno_error e "") "Failed to write to pipe." ∧
                 x_trace x' = ev :: x_trace x) ∨
              mem_err a ∧ oomed x x')⟫ ∗ err_own r.1 a)) }}.
Proof.
  iIntros (t answer ev Hn Hok Hsize Hdata Hcs) "H".
  assert (Hin : is_in n = false) by by apply andb_true_iff in Hok as [->%negb_true_iff _].
  assert (Hguard : bulk_guard n size (is_null data) = None).
  { unfold bulk_guard. rewrite Hdata Hin andb_false_r.
    destruct (Z.ltb_spec UINT_MAX size); [lia|done]. }
  iApply (wp_wand with "[H]"). { iApply (libusbp_write_pipe_spec with "H"); [done|lia|done]. }
  iIntros ([e o] x') "(Hh & Hb & H)". rewrite Hok. iFrame "Hh".
  assert (Hrec : bulk_received (x_trace x) fd (pipe_request h n data size) cs = cs).
  { unfold bulk_received. cbn [bulk_ep bulk_len bulk_data pipe_request bulk_request].
    by rewrite Hguard Hin. }
  rewrite Hrec. iFrame "Hb".
  assert (Hs : s_transfer true "Failed to write to pipe." fd (pipe_request h n data size) cs (x_trace x) =
    (match answer.1 with
     | SysOk k => inr k
     | SysErr e => inl (err_add (errno_error e "") "Failed to write to pipe.")
     end, ev :: x_trace x)).
  { change (pipe_request h n data size) with t. unfold s_transfer, scontext. cbn [checked].
    rewrite (sbind_ok _ _ _ _ _ (sret_eq tt _)). unfold s_bulk, bulk_event, s_sys, sent_of.
    cbn [bulk_ep bulk_len bulk_data t]. rewrite Hguard Hin Hdata. fold t. fold answer.
    by destruct answer.1. }
  iDestruct "H" as "[(%k & %Hk & %Ho)|(%a & %Hf & He & %Ho)]"; cbn [fst snd out] in *.
  - destruct Hk as [-> [_ E]]. rewrite Hs in E. iLeft. iExists k. iPureIntro.
    destruct answer.1 as [k'|] eqn:Ea; [|done]. injection E as -> <-.
    split_and!; try done; [by subst| |]; apply (bulk_result _ _ t) in Ea; cbn in *; lia.
  - iRight. iExists a. iFrame. iPureIntro. split; [done|].
    destruct Hf as [_ [E|?]]; [left|by right]. rewrite Hs in E.
    destruct answer.1 as [k'|err] eqn:Ea; [done|]. injection E as <- <-. by exists err.
Qed.

(** C24. Transfers that make no sense never reach the kernel: for a pipe ID that
    does not exist or has the wrong direction, for an IN transfer of size 0 (which
    hangs some Linux drivers), for a size that [unsigned int] cannot hold and for
    a NULL buffer with a non-zero size, [libusbp_read_pipe] and
    [libusbp_write_pipe] return the specific error, decorated with the context,
    and 0 transferred bytes; no system call is made and the buffer is not
    touched (nothing is assumed about it). *)
Theorem libusbp_transfers_rejected p fd h n data size given x :
  let inok := is_in n && pipe_id_exists n in
  let outok := negb (is_in n) && pipe_id_exists n in
  u8 n →
  (∀ e, rejected inok n size (is_null data) = Some e →
    {{ handle_own p fd h }} libusbp_read_pipe p n data size given @ x {{ r x',
      handle_own p fd h ∗ ⟪r.2 = out given 0⟫ ∗
      err_res r.1 (err_add e "Failed to read from pipe.") x x' }}) ∧
  (∀ e, rejected outok n size (is_null data) = Some e →
    {{ handle_own p fd h }} libusbp_write_pipe p n data size given @ x {{ r x',
      handle_own p fd h ∗ ⟪r.2 = out given 0⟫ ∗
      err_res r.1 (err_add e "Failed to write to pipe.") x x' }}).
Proof.
  intros inok outok Hn. split; intros e He; iIntros "H".
  - iApply (wp_wand with "[H]").
    { iApply (transfer_pipe_rejected check_pipe_id_in gh_in_timeout _ inok with "H");
        [by apply check_pipe_id_in_exact| |done|done|done]. by intros pd [-> _]%andb_true_iff. }
    iIntros (r x') "(Hh & He & Ho)". iFrame.
  - iApply (wp_wand with "[H]").
    { iApply (transfer_pipe_rejected check_pipe_id_out gh_out_timeout _ outok with "H");
        [by apply check_pipe_id_out_exact| |done|done|done].
      by intros pd [->%negb_true_iff _]%andb_true_iff. }
    iIntros (r x') "(Hh & He & Ho)". iFrame.
Qed.

(** C10. A control transfer passes the five fields of the setup packet, the
    buffer and the timeout of OUT endpoint 0 to the kernel unchanged, in one
    request; an IN transfer changes at most [wLength] bytes of the buffer, an OUT
    transfer none, and the result is the number of bytes the kernel reports or the
    kernel's error decorated with "Control transfer failed.". *)
Theorem libusbp_control_transfer_transfers p fd h ty req value index data len cs x :
  let t := {| ctrl_bRequestType := ty; ctrl_bRequest := req; ctrl_wValue := value;
              ctrl_wIndex := index; ctrl_wLength := len;
              ctrl_timeout := timeout_for h 0; ctrl_data := data |} in
  let answer := os_control (x_trace x) fd t in
  let ev := control_event fd t cs in
  u16 len → (is_null data = false → len ≤ Z.of_nat (List.length cs)) →
  {{ handle_own p fd h ∗ user_buffer data cs }}
    libusbp_control_transfer p ty req value index data len true @ x
  {{ r x', handle_own p fd h ∗
     user_buffer data (if Z.testbit ty 7 then overwrite answer.2 cs else cs) ∗
     ⟪Z.of_nat (List.length answer.2) ≤ len⟫ ∗
     ((∃ k, ⟪r = (NULL, Some k) ∧ answer.1 = SysOk k ∧ 0 ≤ k ≤ len ∧
             x_trace x' = ev :: x_trace x⟫) ∨
      (∃ a, ⟪r.2 = Some 0 ∧
             ((∃ e, answer.1 = SysErr e ∧ a = errno_error e "Control transfer failed." ∧
                 x_trace x' = ev :: x_trace x) ∨
              mem_err a ∧ oomed x x')⟫ ∗ err_own r.1 a)) }}.
Proof.
  iIntros (t answer ev Hlen Hcs) "H".
  iApply (wp_wand with "[H]"). { by iApply (libusbp_control_transfer_spec with "H"). }
  iIntros ([e o] x') "(Hh & Hb & H)". iFrame "Hh Hb".
  assert (Hpos : 0 ≤ ctrl_wLength t) by (unfold u16 in Hlen; cbn; lia).
  iSplit; [iPureIntro; by apply (control_length _ _ t)|].
  assert (Hs : s_control fd t cs (x_trace x) =
    (match answer.1 with
     | SysOk k => inr k
     | SysErr e => inl (errno_error e "Control transfer failed.")
     end, ev :: x_trace x)) by done.
  iDestruct "H" as "[(%k & %Hk & %Ho)|(%a & %Hf & He & %Ho)]"; cbn [fst snd out] in *.
  - destruct Hk as [-> [_ E]].
    change (control_request (control_setup ty req value index len) (timeout_for h 0) data) with t in E.
    rewrite Hs in E. iLeft. iExists k. iPureIntro.
    destruct answer.1 as [k'|] eqn:Ea; [|done]. injection E as -> <-.
    split_and!; try done; [by subst| |]; apply (control_result _ _ t _ Hpos) in Ea; cbn in *; lia.
  - iRight. iExists a. iFrame. iPureIntro. split; [done|].
    destruct Hf as [_ [E|?]]; [left|by right].
    change (control_request (control_setup ty req value index len) (timeout_for h 0) data) with t in E.
    rewrite Hs in E. destruct answer.1 as [k'|err] eqn:Ea; [done|].
    injection E as <- <-. by exists err.
Qed.
End properties.

(** ** On the example machine *)

#[local] Existing Instance Example_machine.machine.
#[local] Existing Instance Example_machine.machine_laws.

Definition example_device : device :=
  Device "/sys/usb1/1-1" (Some "00012345") 0xda01 0x1ffb 0x111.
Definition example_interface : interface :=
  Interface example_device 0 "/sys/usb1/1-1/1-1:1.0" "/dev/bus/usb/001/007".
Definition example_handle : handle :=
  Handle example_device (replicate 16 250) (replicate 16 1).
Definition example_ptr : ptr := Heap 5%positive.
Definition example_buffer : list (option ascii) := replicate 4 (Some "x"%char).

Lemma libusbp_generic_handle_open_checks_witness :
  LinuxLaws Example_machine.machine ∧
  (interface_own example_ptr example_interface ⊢
   wp_next true (libusbp_generic_handle_open example_ptr true) empty_ext
    (λ r x', interface_own example_ptr example_interface ∗
    ((∃ q fd desc, ⟪r = (NULL, Some q) ∧ descriptor_matches desc example_device ∧
        desc = os_descriptor [EvLseek fd; EvOpen "/dev/bus/usb/001/007" true] fd ∧
        x_trace x' = [EvRead fd 18; EvLseek fd; EvOpen "/dev/bus/usb/001/007" true]⟫ ∗
        handle_own q fd (Handle example_device (replicate 16 0) (replicate 16 0))) ∨
     (∃ a fd, ⟪r.2 = Some NULL ∧ failed (s_handle_open example_interface fd) empty_ext x' a⟫ ∗
        err_own r.1 a)))%I).
Proof.
  split; [exact Example_machine.machine_laws|].
  exact (libusbp_generic_handle_open_checks example_ptr example_interface empty_ext).
Defined.

Lemma libusbp_read_pipe_reads_witness :
  let t := {| bulk_ep := 0x81; bulk_len := 4; bulk_timeout := 250; bulk_data := example_ptr |} in
  let answer := os_bulk [] 3 t in
  overwrite answer.2 example_buffer = [Some "o"; Some "k"; Some "x"; Some "x"]%char ∧
  {{ handle_own example_ptr 3 example_handle ∗ user_buffer example_ptr example_buffer }}
    libusbp_read_pipe example_ptr 0x81 example_ptr 4 true @ empty_ext
  {{ r x', handle_own example_ptr 3 example_handle ∗
     user_buffer example_ptr (overwrite answer.2 example_buffer) ∗
     ⟪Z.of_nat (List.length answer.2) ≤ 4⟫ ∗
     ((∃ k, ⟪r = (NULL, Some k) ∧ answer.1 = SysOk k ∧ 0 ≤ k ≤ 4 ∧
             x_trace x' = [EvBulk 3 t []]⟫) ∨
      (∃ a, ⟪r.2 = Some 0 ∧
             ((∃ e, answer.1 = SysErr e ∧
                 a = err_add (errno_error e "") "Failed to read from pipe." ∧
                 x_trace x' = [EvBulk 3 t []]) ∨
              mem_err a ∧ oomed empty_ext x')⟫ ∗ err_own r.1 a)) }}.
Proof.
  intros t answer. split; [by vm_compute|].
  apply (libusbp_read_pipe_reads example_ptr 3 example_handle 0x81 example_ptr 4 example_buffer empty_ext);
    [unfold u8; lia|reflexivity|unfold UINT_MAX; lia|reflexivity|cbn; lia].
Defined.

Lemma libusbp_write_pipe_writes_witness :
  let t := {| bulk_ep := 0x02; bulk_len := 3; bulk_timeout := 1; bulk_data := example_ptr |} in
  let answer := os_bulk [] 3 t in
  let ev := EvBulk 3 t (take (Z.to_nat 3) example_buffer) in
  answer.1 = SysErr 110 ∧
  {{ handle_own example_ptr 3 example_handle ∗ user_buffer example_ptr example_buffer }}
    libusbp_write_pipe example_ptr 0x02 example_ptr 3 true @ empty_ext
  {{ r x', handle_own example_ptr 3 example_handle ∗ user_buffer example_ptr example_buffer ∗
     ((∃ k, ⟪r = (NULL, Some k) ∧ answer.1 = SysOk k ∧ 0 ≤ k ≤ 3 ∧
             x_trace x' = [ev]⟫) ∨
      (∃ a, ⟪r.2 = Some 0 ∧
             ((∃ e, answer.1 = SysErr e ∧
                 a = err_add (errno_error e "") "Failed to write to pipe." ∧
                 x_trace x' = [ev]) ∨
              mem_err a ∧ oomed empty_ext x')⟫ ∗ err_own r.1 a)) }}.
Proof.
  intros t answer ev. split; [by vm_compute|].
  apply (libusbp_write_pipe_writes example_ptr 3 example_handle 0x02 example_ptr 3 example_buffer empty_ext);
    [unfold u8; lia|reflexivity|unfold UINT_MAX; lia|reflexivity|cbn; lia].
Defined.

Lemma libusbp_transfers_rejected_witness :
  rejected (is_in 0x81 && pipe_id_exists 0x81) 0x81 0 true =
    Some (AErr "Transfer size 0 is not allowed." []) ∧
  {{ handle_own example_ptr 3 example_handle }}
    libusbp_read_pipe example_ptr 0x81 NULL 0 true @ empty_ext
  {{ r x', handle_own example_ptr 3 example_handle ∗ ⟪r.2 = out true 0⟫ ∗
     err_res r.1 (err_add (AErr "Transfer size 0 is not allowed." []) "Failed to read from pipe.")
       empty_ext x' }}.
Proof.
  split; [by vm_compute|].
  apply (proj1 (libusbp_transfers_rejected example_ptr 3 example_handle 0x81 NULL 0 true empty_ext
           ltac:(unfold u8; lia))). by vm_compute.
Defined.

Lemma libusbp_control_transfer_transfers_witness :
  let t := {| ctrl_bRequestType := 0xC0; ctrl_bRequest := 0x20; ctrl_wValue := 7;
              ctrl_wIndex := 8; ctrl_wLength := 4;
              ctrl_timeout := timeout_for example_handle 0; ctrl_data := example_ptr |} in
  let answer := os_control [] 3 t in
  let ev := control_event 3 t example_buffer in
  timeout_for example_handle 0 = 1 ∧
  {{ handle_own example_ptr 3 example_handle ∗ user_buffer example_ptr example_buffer }}
    libusbp_control_transfer example_ptr 0xC0 0x20 7 8 example_ptr 4 true @ empty_ext
  {{ r x', handle_own example_ptr 3 example_handle ∗
     user_buffer example_ptr (if Z.testbit 0xC0 7 then overwrite answer.2 example_buffer
                              else example_buffer) ∗
     ⟪Z.of_nat (List.length answer.2) ≤ 4⟫ ∗
     ((∃ k, ⟪r = (NULL, Some k) ∧ answer.1 = SysOk k ∧ 0 ≤ k ≤ 4 ∧ x_trace x' = [ev]⟫) ∨
      (∃ a, ⟪r.2 = Some 0 ∧
             ((∃ e, answer.1 = SysErr e ∧ a = errno_error e "Control transfer failed." ∧
                 x_trace x' = [ev]) ∨
              mem_err a ∧ oomed empty_ext x')⟫ ∗ err_own r.1 a)) }}.
Proof.
  intros t answer ev. split; [done|].
  apply (libusbp_control_transfer_transfers example_ptr 3 example_handle 0xC0 0x20 7 8 example_ptr 4
           example_buffer empty_ext); [unfold u16; lia|cbn; lia].
Defined.

(** The test of the wrong pointer in [generic_handle_setup]: when the allocation
    of the handle fails and everything else works, the NULL pointer is used. *)
Definition handle_memory : heap :=
  list_to_map [(1%positive, OInterface {| gi_device := Heap 2%positive; gi_interface_number := 0;
                                          gi_syspath := Heap 3%positive; gi_filename := Heap 4%positive |});
               (2%positive, ODevice {| dev_syspath := Heap 5%positive; dev_serial_number := NULL;
                                       dev_product_id := 0xda01; dev_vendor_id := 0x1ffb;
                                       dev_revision := 0x111 |});
               (3%positive, OChars (cstr "/sys/usb1/1-1/1-1:1.0"));
               (4%positive, OChars (cstr "/dev/bus/usb/001/007"));
               (5%positive, OChars (cstr "/sys/usb1/1-1"))].

Lemma generic_handle_open_without_memory :
  libusbp_generic_handle_open (Heap 1%positive) true (World handle_memory [false] empty_ext) =
  Stuck NullPointer.
Proof. vm_compute. reflexivity. Qed.
