(* ===== verification/SerialPortLinux.v ===== *)
(** * SerialPortLinux: serial ports (src/src/linux/serial_port_linux.c)

    A [libusbp_serial_port] names the tty behind an interface of a USB device:
    its creation, which walks from the device to the interface and from there to
    the tty in libudev, its copy, its getter and its release. *)

From S2P Require Import Prelude Memory Logic Format Errors Results Basics Strings Buffers LinuxOS ErrnoLinux UdevLinux DeviceLinux UsbfdLinux InterfaceLinux.
#[local] Set Warnings "-rewrite-rw".

Section code.
Context `{OS : LinuxOS}.

Definition libusbp_serial_port_free (port : ptr) : M unit :=
  if is_null port then mret tt else
  s ← load_as as_serial_port port;
  libusbp_string_free (sp_syspath s);;
  s ← load_as as_serial_port port;
  libusbp_string_free (sp_port_name s);;
  free port.

(** Calling a function with the address of the field [syspath] or [port_name]. *)
Definition into_syspath (port : ptr) (m : M (ptr * ptr)) : M ptr :=
  '(error, v) ← m;
  s ← load_as as_serial_port port;
  store port (OSerialPort {| sp_syspath := v; sp_port_name := sp_port_name s |});;
  mret error.

Definition into_port_name (port : ptr) (m : M (ptr * ptr)) : M ptr :=
  '(error, v) ← m;
  s ← load_as as_serial_port port;
  store port (OSerialPort {| sp_syspath := sp_syspath s; sp_port_name := v |});;
  mret error.

(** A struct from [calloc]. *)
Definition zeroed_port : obj := OSerialPort {| sp_syspath := NULL; sp_port_name := NULL |}.

Definition libusbp_serial_port_create (device : ptr) (interface_number : Z) (composite : bool)
    (port_given : bool) : M (ptr * option ptr) :=
  if negb port_given then
    error ← error_create "Serial port output pointer is null.";
    mret (error, None)
  else if is_null device then
    error ← error_create "Device is null.";
    mret (error, Some NULL)
  else
  new_port ← calloc 1 sizeof_libusbp_serial_port zeroed_port;
  let error := if is_null new_port then Static error_no_memory else NULL in
  (* Get the syspath of the physical device. *)
  '(error, new_device_syspath) ← if_ok error NULL
    (into_variable (libusbp_device_get_os_id device true));
  (* Get a udev context. *)
  '(error, new_udev) ← if_ok error NULL udevw_create_context;
  (* Get the USB interface device. *)
  '(error, new_interface_dev) ← if_ok error NULL
    (udevw_get_interface new_udev new_device_syspath interface_number);
  (* Get the tty device. *)
  '(error, new_tty_dev) ← if_ok error NULL (udevw_get_tty new_udev new_interface_dev);
  (* Get the syspath of the tty device. *)
  error ← then_check error (into_syspath new_port (udevw_get_syspath_copy new_tty_dev));
  (* Get the port name (e.g. /dev/ttyACM0) *)
  '(error, port_name) ← if_ok error NULL
    (port_name ← udev_device_get_property_value new_tty_dev "DEVNAME";
     error ← (if is_null port_name
              then error_create "The DEVNAME property does not exist."
              else mret NULL);
     mret (error, port_name));
  (* Copy the port name to the new serial port object. *)
  error ← then_check error (into_port_name new_port (string_copy port_name));
  (* Pass the new object to the caller. *)
  let '(port, new_port) := if is_null error then (new_port, NULL) else (NULL, new_port) in
  when (negb (is_null new_tty_dev)) (udev_device_unref new_tty_dev);;
  when (negb (is_null new_interface_dev)) (udev_device_unref new_interface_dev);;
  when (negb (is_null new_udev)) (udev_unref new_udev);;
  libusbp_string_free new_device_syspath;;
  libusbp_serial_port_free new_port;;
  mret (error, Some port).

Definition libusbp_serial_port_copy (source : ptr) (dest_given : bool) : M (ptr * option ptr) :=
  if negb dest_given then
    error ← error_create "Serial port output pointer is null.";
    mret (error, None)
  else if is_null source then mret (NULL, Some NULL) else
  new_port ← calloc 1 sizeof_libusbp_serial_port zeroed_port;
  let error := if is_null new_port then Static error_no_memory else NULL in
  (* Copy the syspath. *)
  error ← then_check error (into_syspath new_port
    (s ← load_as as_serial_port source; string_copy (sp_syspath s)));
  (* Copy the port name. *)
  error ← then_check error (into_port_name new_port
    (s ← load_as as_serial_port source; string_copy (sp_port_name s)));
  (* Pass the new object to the caller. *)
  let '(dest, new_port) := if is_null error then (new_port, NULL) else (NULL, new_port) in
  libusbp_serial_port_free new_port;;
  mret (error, Some dest).

Definition libusbp_serial_port_get_name (port : ptr) (name_given : bool) : M (ptr * option ptr) :=
  if negb name_given then
    error ← error_create "String output pointer is null.";
    mret (error, None)
  else if is_null port then
    error ← error_create "Serial port is null.";
    mret (error, Some NULL)
  else
    s ← load_as as_serial_port port;
    '(error, copy) ← string_copy (sp_port_name s);
    mret (error, Some copy).
End code.

(** ** What a serial port object holds *)

Record serial_port := SerialPort {
  port_syspath : string;
  port_devname : string
}.

(** A port under construction: a field that is not set yet is NULL. *)
Definition port_parts (l : loc) (syspath name : option string) : hProp :=
  (∃ ps pn, l ↦ OSerialPort {| sp_syspath := ps; sp_port_name := pn |} ∗
     opt_str_own ps syspath ∗ opt_str_own pn name)%I.

Definition serial_port_own (p : ptr) (s : serial_port) : hProp :=
  (∃ l, ⟪p = Heap l⟫ ∗ port_parts l (Some (port_syspath s)) (Some (port_devname s)))%I.

Lemma serial_port_own_not_null p s :
  serial_port_own p s ⊢ ⌜is_null p = false⌝ ∧ serial_port_own p s.
Proof. iIntros "H". iSplit; [|done]. by iDestruct "H" as (l) "[-> _]". Qed.

Lemma libusbp_serial_port_free_parts l a b x :
  {{ port_parts l a b }} libusbp_serial_port_free (Heap l) @ x {{ r x', ⟪x' = x⟫ }}.
Proof.
  iIntros "(%ps & %pn & Hl & Hs & Hn)". unfold libusbp_serial_port_free, libusbp_string_free.
  wp_steps. wp_call (free_opt_str ps _ x). iIntros ([] ?) "->".
  wp_steps. wp_call (free_opt_str pn _ x). iIntros ([] ?) "->". wp_steps. by iPureIntro.
Qed.

Lemma libusbp_serial_port_free_spec p s x :
  {{ serial_port_own p s }} libusbp_serial_port_free p @ x {{ r x', ⟪x' = x⟫ }}.
Proof. iIntros "(%l & -> & H)". by iApply libusbp_serial_port_free_parts. Qed.

(** Storing the result of a copy in a field. *)
Lemma into_syspath_spec P R (m : M (ptr * ptr)) s l x :
  ({{ P }} m @ x {{ r x', R ∗ returns (mret s) x x' r.1 (str_own r.2) ⟪r.2 = NULL⟫ }}) →
  {{ P ∗ port_parts l None None }} into_syspath (Heap l) m @ x {{ r x',
    R ∗ returns (mret s) x x' r (λ s, port_parts l (Some s) None) (port_parts l None None) }}.
Proof.
  iIntros (Hm) "[HP (%ps & %pn & Hl & Hs & -> )]". iDestruct "Hs" as %->.
  unfold into_syspath. wp_step. iApply (use_triple _ _ _ _ _ Hm with "HP").
  iIntros ([e v] x1) "[HR H]". wp_steps. iFrame "HR".
  iDestruct "H" as "[(%a & %Ha & Hok)|(%got & %Hf & He & %Hb)]"; cbn [fst snd] in *.
  - destruct Ha as [-> Ha]. iLeft. iExists a. iSplit; [done|]. iExists v, NULL. by iFrame.
  - subst v. iRight. iExists got. iFrame "He". iSplit; [done|]. iExists NULL, NULL. by iFrame.
Qed.

Lemma into_port_name_spec P R (m : M (ptr * ptr)) s l a x :
  ({{ P }} m @ x {{ r x', R ∗ returns (mret s) x x' r.1 (str_own r.2) ⟪r.2 = NULL⟫ }}) →
  {{ P ∗ port_parts l a None }} into_port_name (Heap l) m @ x {{ r x',
    R ∗ returns (mret s) x x' r (λ s, port_parts l a (Some s)) (port_parts l a None) }}.
Proof.
  iIntros (Hm) "[HP (%ps & %pn & Hl & Hs & -> )]".
  unfold into_port_name. wp_step. iApply (use_triple _ _ _ _ _ Hm with "HP").
  iIntros ([e v] x1) "[HR H]". wp_steps. iFrame "HR".
  iDestruct "H" as "[(%s' & %Ha & Hok)|(%got & %Hf & He & %Hb)]"; cbn [fst snd] in *.
  - destruct Ha as [-> Ha]. iLeft. iExists s'. iSplit; [done|]. iExists ps, v. by iFrame.
  - subst v. iRight. iExists got. iFrame "He". iSplit; [done|]. iExists ps, NULL. by iFrame.
Qed.

(** ** What the functions mean *)

Section specs.
Context `{OS : LinuxOS} {LAWS : LinuxLaws OS}.

(** The name of the device file of a tty. *)
Definition s_port_name_of (tty : Z) : Spec string :=
  sopt (udev_str (os_property "DEVNAME") tty) (err_new "The DEVNAME property does not exist.").

(** From the device [d] and the number [n] of an interface to the tty; the
    copies ([mret]) can fail for lack of memory only. *)
Definition s_serial_port_create (d : device) (n : Z) : Spec serial_port :=
  path ← mret (d_syspath d);
  s_create_context;;
  id ← s_get_interface path n;
  tty ← s_get_tty id;
  syspath ← mret (default "" (udev_str os_syspath tty));
  name ← s_port_name_of tty;
  name ← mret name;
  mret (SerialPort syspath name).

(** The stage that reads the DEVNAME property. *)
Lemma port_name_stage_spec l id x :
  {{ l ↦ OUdevDevice id }}
    port_name ← udev_device_get_property_value (Heap l) "DEVNAME";
    error ← (if is_null port_name
             then error_create "The DEVNAME property does not exist."
             else mret NULL);
    mret (error, port_name) @ x
  {{ r x', l ↦ OUdevDevice id ∗
     returns (s_port_name_of id) x x' r.1 (λ t, ⟪r.2 = Owned l t ∧ no_nul t = true⟫) emp }}.
Proof.
  iIntros "Hl". wp_steps. iApply (wp_udev_device_string with "Hl"); [by left|]. iIntros "Hl".
  unfold s_port_name_of.
  pose proof (udev_str_case (os_property "DEVNAME") id l) as Hc.
  destruct (udev_str (os_property "DEVNAME") id) as [t|].
  - destruct Hc as (-> & Ht & _). wp_steps. iFrame.
    iApply (returns_ok _ _ _ t); [by apply succeeded_ret|done].
  - rewrite Hc. wp_steps. iApply wp_error_create; [done|]. err_intro. wp_steps. iFrame.
    iApply (returns_err with "[-]"); [done|by iFrame].
Qed.

(** The error path of [libusbp_serial_port_create]: whatever was acquired is
    released. *)
Ltac create_fails :=
  wp_frees; unfold udev_unref; wp_frees;
  lazymatch goal with
  | |- envs_entails _ (wp (libusbp_serial_port_free (Heap ?l) ≫= _) ?x _) => wp_step
  | |- envs_entails _ (wp (libusbp_serial_port_free (Heap ?l)) ?x _) => idtac
  end;
  lazymatch goal with
  | |- envs_entails _ (wp (libusbp_serial_port_free (Heap ?l)) ?x _) =>
      wp_call (libusbp_serial_port_free_parts l _ _ x); iIntros ([] ?) "->"
  end; wp_steps; iFrame; iRight; iExists _; iFrame "He"; iSplit; [iPureIntro|done];
  unfold s_serial_port_create; chain.

Lemma libusbp_serial_port_create_spec p d n c x :
  {{ device_own p d }} libusbp_serial_port_create p n c true @ x {{ r x',
    device_own p d ∗
    returns (s_serial_port_create d n) x x' r.1
      (λ s, ∃ q, ⟪r.2 = Some q⟫ ∗ serial_port_own q s) ⟪r.2 = Some NULL⟫ }}.
Proof.
  iIntros "Hp". iDestruct (device_own_not_null with "Hp") as "[%Hp Hp]".
  unfold libusbp_serial_port_create, if_ok, then_check, calloc. wp_steps.
  iApply wp_malloc_pos; [done|]. iSplit; last first.
  { iIntros (x1 [Hq Ho]). wp_steps. unfold libusbp_serial_port_free. wp_frees. iFrame.
    by iApply returns_no_memory. }
  iIntros (lg Hlg) "Hg".
  iAssert (port_parts lg None None) with "[Hg]" as "Hg"; [iExists NULL, NULL; by iFrame|]. wp_step.
  wp_call (into_variable_spec _ _ _ _ _ _ (libusbp_device_get_os_id_spec p d x)).
  iIntros ([e pp] x2) "[Hp H]". returned "H"; last first.
  { iDestruct "Hbad" as %->. create_fails. }
  rename a into path. iDestruct "Hok" as "Hpath".
  iDestruct (str_own_no_nul with "Hpath") as "[[%Hpath %Hpn] Hpath]". wp_step.
  wp_call (udevw_create_context_spec x2). iIntros ([e pu] x3) "H". returned "H"; last first.
  { iDestruct "Hbad" as %->. create_fails. }
  iDestruct "Hok" as "Hu". destruct a. wp_step.
  wp_call (udevw_get_interface_spec _ pu _ _ n x3 (reads_str pp path) Hpn).
  iIntros ([e pi] x4) "(Hpath & (%lu & -> & Hu) & H)". returned "H"; last first.
  { iDestruct "Hbad" as %->. create_fails. }
  rename a into id. iDestruct "Hok" as (li) "[-> Hi]".
  assert (Href : device_ref (Heap li) li id id) by by left.
  iAssert (udev_own (Heap lu)) with "[Hu]" as "Hu"; [by iExists lu; iFrame|]. wp_step.
  wp_call (udevw_get_tty_spec _ _ _ _ (Heap lu) x4 Href).
  iIntros ([e pt] x5) "(Hi & (%lu' & %Hlu & Hu) & H)". injection Hlu as <-.
  iAssert (udev_device_own (Heap li) id) with "[Hi]" as "Hi"; [by iExists li; iFrame|].
  returned "H"; last first.
  { iDestruct "Hbad" as %->. create_fails. }
  rename a into tty. iDestruct "Hok" as (lt) "[-> Ht]".
  assert (Href' : device_ref (Heap lt) lt tty tty) by by left. wp_step.
  wp_call (into_syspath_spec _ _ _ _ lg x5 (udevw_get_syspath_copy_spec _ _ _ _ x5 Href')).
  iIntros (e x6) "[Ht H]". returned "H"; last first.
  { iAssert (udev_device_own (Heap lt) tty) with "[Ht]" as "Ht"; [by iExists lt; iFrame|]. create_fails. }
  rename a into syspath. iRename "Hok" into "Hg". wp_step.
  wp_call (port_name_stage_spec lt tty x6). iIntros ([e pn] x7) "[Ht H]". wp_simpl.
  returned "H"; last first.
  { iAssert (udev_device_own (Heap lt) tty) with "[Ht]" as "Ht"; [by iExists lt; iFrame|]. create_fails. }
  rename a into name. iDestruct "Hok" as %[-> Hname]. wp_step.
  wp_call (into_port_name_spec _ _ _ _ lg (Some syspath) x7
             (string_copy_spec _ _ _ x7 (reads_owned_id lt (OUdevDevice tty) name Hname) Hname eq_refl)).
  iIntros (e x8) "[Ht H]".
  iAssert (udev_device_own (Heap lt) tty) with "[Ht]" as "Ht"; [by iExists lt; iFrame|].
  returned "H"; last first.
  { create_fails. }
  iRename "Hok" into "Hg". wp_frees. unfold udev_unref. wp_frees.
  unfold libusbp_serial_port_free. wp_steps. iFrame "Hp".
  iApply (returns_ok _ _ _ (SerialPort syspath a)); [unfold s_serial_port_create; chain|].
  iExists (Heap lg). iSplit; [done|]. iExists lg. by iFrame.
Qed.

(** Reading the fields of a port. *)
Lemma serial_port_own_load p s x Q :
  serial_port_own p s -∗
  (∀ ps pn, str_own ps (port_syspath s) -∗ str_own pn (port_devname s) -∗
     (str_own ps (port_syspath s) -∗ str_own pn (port_devname s) -∗ serial_port_own p s) -∗
     Q {| sp_syspath := ps; sp_port_name := pn |} x) -∗
  wp (load_as as_serial_port p) x Q.
Proof.
  iIntros "(%l & -> & %ps & %pn & Hl & Hs & Hn) HQ".
  iApply (wp_load_as with "Hl"); [done|]. iIntros "Hl". iApply ("HQ" with "Hs Hn").
  iIntros "Hs Hn". iExists l. iSplit; [done|]. iExists ps, pn. by iFrame.
Qed.

(** Copying a field of a port. *)
Lemma copy_field_spec field value p s x :
  (∀ ps pn, let f := field {| sp_syspath := ps; sp_port_name := pn |} in
     f = ps ∧ value = port_syspath s ∨ f = pn ∧ value = port_devname s) →
  {{ serial_port_own p s }}
    (port ← load_as as_serial_port p; string_copy (field port)) @ x
  {{ r x', serial_port_own p s ∗ returns (mret value) x x' r.1 (str_own r.2) ⟪r.2 = NULL⟫ }}.
Proof.
  iIntros (Hf) "H". wp_steps. iApply (serial_port_own_load with "H").
  iIntros (ps pn) "Hs Hn Hclose". destruct (Hf ps pn) as [[-> ->]|[-> ->]].
  - wp_call (string_copy_own ps _ x). iIntros (r x') "[Hs $]". iApply ("Hclose" with "Hs Hn").
  - wp_call (string_copy_own pn _ x). iIntros (r x') "[Hn $]". iApply ("Hclose" with "Hs Hn").
Qed.

Lemma libusbp_serial_port_copy_spec p s x :
  {{ serial_port_own p s }} libusbp_serial_port_copy p true @ x {{ r x',
    serial_port_own p s ∗
    returns (mret s) x x' r.1 (λ s, ∃ q, ⟪r.2 = Some q⟫ ∗ serial_port_own q s) ⟪r.2 = Some NULL⟫ }}.
Proof.
  iIntros "Hp". iDestruct (serial_port_own_not_null with "Hp") as "[%Hp Hp]".
  unfold libusbp_serial_port_copy, then_check, calloc. wp_steps.
  iApply wp_malloc_pos; [done|]. iSplit; last first.
  { iIntros (x1 [Hq Ho]). unfold libusbp_serial_port_free. wp_steps. iFrame.
    by iApply returns_no_memory. }
  iIntros (lg Hlg) "Hg".
  iAssert (port_parts lg None None) with "[Hg]" as "Hg"; [iExists NULL, NULL; by iFrame|]. wp_step.
  wp_call (into_syspath_spec _ _ _ _ lg x (copy_field_spec sp_syspath (port_syspath s) p s x ltac:(by left))).
  iIntros (e x1) "[Hp H]". returned "H"; last first.
  { wp_steps. wp_call (libusbp_serial_port_free_parts lg _ _ x1). iIntros ([] ?) "->". wp_steps.
    iFrame "Hp". iRight. iExists got. iFrame. iPureIntro. split; [by eapply pure_failed|done]. }
  apply succeeded_ret_inv in Ha as (-> & Ht & Hc). iRename "Hok" into "Hg". wp_step.
  wp_call (into_port_name_spec _ _ _ _ lg (Some (port_syspath s)) x1
             (copy_field_spec sp_port_name (port_devname s) p s x1 ltac:(by right))).
  iIntros (e x2) "[Hp H]". returned "H"; last first.
  { wp_steps. wp_call (libusbp_serial_port_free_parts lg _ _ x2). iIntros ([] ?) "->". wp_steps.
    iFrame. iApply (returns_tail _ (mret s) x x1 with "[-]"); [exact Hc|by rewrite !sret_eq Ht|].
    iRight. iExists got. iFrame. iPureIntro. split; [by eapply pure_failed|done]. }
  apply succeeded_ret_inv in Ha as (-> & Ht2 & Hc2). unfold libusbp_serial_port_free. wp_steps.
  iFrame "Hp". iApply (returns_ok _ _ _ s).
  { apply succeeded_ret; [by etrans|congruence]. }
  iExists (Heap lg). iSplit; [done|]. iExists lg. by iFrame.
Qed.

Lemma libusbp_serial_port_get_name_spec p s x :
  {{ serial_port_own p s }} libusbp_serial_port_get_name p true @ x {{ r x',
    serial_port_own p s ∗
    returns (mret (port_devname s)) x x' r.1 (out_str r.2) ⟪r.2 = Some NULL⟫ }}.
Proof.
  iIntros "H". iDestruct (serial_port_own_not_null with "H") as "[%Hn H]".
  unfold libusbp_serial_port_get_name. wp_steps. iApply (serial_port_own_load with "H").
  iIntros (ps pn) "Hs Hp Hclose". wp_steps. wp_call (string_copy_own pn _ x).
  iIntros ([e q] x1) "[Hp H]". iDestruct ("Hclose" with "Hs Hp") as "Hi". wp_steps. iFrame.
  by iApply returns_out_str.
Qed.
End specs.

(** ** Properties *)

Section properties.
Context `{OS : LinuxOS} {LAWS : LinuxLaws OS}.

(** libudev listed the tty [tty] among the children of the device [parent]. *)
Definition tty_child_of (tty parent : Z) : Prop :=
  is_tty tty = true ∧
  ∃ h h' entry, entry ∈ (os_scan h [MatchParent parent]).2 ∧
                os_device h' (until_nul entry) = Some tty.

Lemma s_find_listed test entries h id h' :
  s_find test entries h = (inr (Some id), h') →
  ∃ h1 h2 h3 entry, entry ∈ entries ∧ os_device h1 (until_nul entry) = Some id ∧
    test id h2 = (inr true, h3).
Proof.
  revert h. induction entries as [|entry entries IH]; intros h; cbn [s_find].
  { by rewrite sret_eq. }
  intros (id' & h1 & Ed & (b & h2 & E & E')%sbind_inv)%sbind_inv. destruct b.
  - rewrite sret_eq in E'. injection E' as -> _. unfold s_device in Ed.
    destruct (os_device h (until_nul entry)) as [j|] eqn:Ej; [|done]. injection Ed as -> _.
    exists h, h1, h2, entry. split_and!; [by left|done|done].
  - apply IH in E' as (h3 & h4 & h5 & e & ? & ? & ?). exists h3, h4, h5, e.
    split_and!; [by right|done|done].
Qed.

Lemma s_get_tty_inv parent h tty h' :
  s_get_tty parent h = (inr tty, h') → tty_child_of tty parent.
Proof.
  intros (es & h1 & El & (o & h2 & E & (-> & _)%sopt_inv)%sbind_inv)%sbind_inv.
  apply s_find_listed in E as (h3 & h4 & h5 & entry & Hin & Hd & Ht).
  rewrite sret_eq in Ht. injection Ht as Ht _. split; [done|].
  unfold s_create_list in El. repeat case_match; simplify_eq.
  by eexists _, h3, entry.
Qed.

(** C28. When [libusbp_serial_port_create] succeeds, it went from the device over
    the right interface to a tty: libudev has a "usb_interface" device with the
    number that was asked for whose parent is the device, and lists a device of
    subsystem "tty" among its children; the new object holds that tty's syspath
    and the value of its DEVNAME property.  Otherwise it stores NULL and returns
    the error of the first stage that failed (or one with [LIBUSBP_ERROR_MEMORY])
    after releasing all that it acquired.  The device is unchanged, and
    [composite] does not matter. *)
Theorem libusbp_serial_port_create_finds p d n composite x :
  {{ device_own p d }} libusbp_serial_port_create p n composite true @ x {{ r x',
    device_own p d ∗
    ((∃ q s id tty, ⟪r = (NULL, Some q) ∧ interface_of id (d_syspath d) n ∧
        tty_child_of tty id ∧
        Some (port_syspath s) = udev_str os_syspath tty ∧
        Some (port_devname s) = udev_str (os_property "DEVNAME") tty⟫ ∗ serial_port_own q s) ∨
     (∃ a, ⟪r.2 = Some NULL ∧ failed (s_serial_port_create d n) x x' a⟫ ∗ err_own r.1 a)) }}.
Proof.
  iIntros "H". iApply (wp_wand with "[H]"); [by iApply libusbp_serial_port_create_spec|].
  iIntros ([e o] x') "[H [(%s & %Hs & %q & %Hq & Hok)|(%got & %Hf & He & %Hb)]]";
    cbn [fst snd] in *; iFrame "H"; last first.
  { iRight. iExists got. by iFrame. }
  destruct Hs as [-> [_ E]]. subst o. unfold s_serial_port_create in E.
  apply sbind_inv in E as (path & h1 & E1 & E). rewrite sret_eq in E1. injection E1 as <- <-.
  apply sbind_inv in E as (u & h1 & _ & E).
  apply sbind_inv in E as (id & h2 & Eid & E). apply s_get_interface_inv in Eid.
  apply sbind_inv in E as (tty & h3 & Et & E). apply s_get_tty_inv in Et.
  apply sbind_inv in E as (sp & h4 & E4 & E). rewrite sret_eq in E4. injection E4 as <- <-.
  apply sbind_inv in E as (name & h5 & En & E). apply sopt_inv in En as [En ->].
  apply sbind_inv in E as (name' & h6 & E6 & E). rewrite sret_eq in E6. injection E6 as <- <-.
  rewrite sret_eq in E. injection E as <- _.
  iLeft. iExists q, _, id, tty. iFrame. iPureIntro. split_and!; try done.
  cbn. destruct (syspath_known tty) as [sp Esp]. unfold udev_str. by rewrite Esp.
Qed.

(** A copy of a serial port is independent of it: after copying and freeing
    the original, [libusbp_serial_port_get_name] on the copy gives the original's
    port name, and freeing the copy and the string leaves no memory behind.  It
    can be otherwise only if an allocation failed; no system call is made. *)
Theorem libusbp_serial_port_copy_is_deep p s x :
  {{ serial_port_own p s }}
    ('(e, out) ← libusbp_serial_port_copy p true;
     q ← initialised out;
     libusbp_serial_port_free p;;
     if is_null e then
       name ← take_string (libusbp_serial_port_get_name q true);
       libusbp_serial_port_free q;;
       mret name
     else
       libusbp_error_free e;;
       mret None) @ x
  {{ r x', ⟪(r = Some (port_devname s) ∧ x_trace x' = x_trace x) ∨ oomed x x'⟫ }}.
Proof.
  iIntros "H". wp_step. wp_call (libusbp_serial_port_copy_spec p s x).
  iIntros ([e out] x1) "[Hp H]". returned "H"; unfold initialised.
  - apply succeeded_ret_inv in Ha as (-> & Ht & [Ho _]). iDestruct "Hok" as (q) "[-> Hq]". wp_steps.
    wp_call (libusbp_serial_port_free_spec p s x1). iIntros ([] ?) "->". wp_steps.
    wp_call (take_string_spec _ _ _ _ (libusbp_serial_port_get_name_spec q s x1)).
    iIntros (name x2) "[Hq %Hname]". wp_steps.
    wp_call (libusbp_serial_port_free_spec q s x2). iIntros ([] ?) "->". wp_steps. iPureIntro.
    destruct Hname as [(t & -> & (-> & Ht2 & _)%succeeded_ret_inv)|(-> & got & _ & [E|[_ E]])].
    + left. split; [done|congruence].
    + by rewrite sret_eq in E.
    + right. ext_tac.
  - iDestruct "Hbad" as %->. wp_steps. wp_call (libusbp_serial_port_free_spec p s x1).
    iIntros ([] ?) "->". wp_steps. wp_call (libusbp_error_free_spec e (Some got) x1).
    iIntros ([] ?) "->". wp_steps. iPureIntro. right.
    destruct Hfailed as [_ [E|[_ ?]]]; [by rewrite sret_eq in E|done].
Qed.
End properties.

#[local] Existing Instance Example_machine.machine.
#[local] Existing Instance Example_machine.machine_laws.

Example serial_port_create_example :
  (s_serial_port_create (Device "/sys/usb1/1-1" (Some "00012345") 0xda01 0x1ffb 0x111) 2 []).1 =
  inr (SerialPort "/sys/usb1/1-1/1-1:1.2/ttyACM0" "/dev/ttyACM0").
Proof. vm_compute. reflexivity. Qed.

Lemma libusbp_serial_port_create_finds_witness :
  LinuxLaws Example_machine.machine ∧
  let d := Device "/sys/usb1/1-1" (Some "00012345") 0xda01 0x1ffb 0x111 in
  {{ device_own (Heap 1%positive) d }}
    libusbp_serial_port_create (Heap 1%positive) 2 true true @ empty_ext
  {{ r x', device_own (Heap 1%positive) d ∗
    ((∃ q s id tty, ⟪r = (NULL, Some q) ∧ interface_of id (d_syspath d) 2 ∧
        tty_child_of tty id ∧
        Some (port_syspath s) = udev_str os_syspath tty ∧
        Some (port_devname s) = udev_str (os_property "DEVNAME") tty⟫ ∗ serial_port_own q s) ∨
     (∃ a, ⟪r.2 = Some NULL ∧ failed (s_serial_port_create d 2) empty_ext x' a⟫ ∗ err_own r.1 a)) }}.
Proof.
  split; [exact Example_machine.machine_laws|]. intros d.
  exact (libusbp_serial_port_create_finds (Heap 1%positive) d 2 true empty_ext).
Defined.
