(* ===== verification/TransferLinux.v ===== *)
(** * TransferLinux: asynchronous IN transfers (src/src/linux/async_in_transfer_linux.c)

    An [async_in_transfer] is a USB request block (URB) with its buffer.  The
    kernel owns it from the submission until it is reaped; meanwhile it may
    write to its memory at any time, so it must not be freed.  The event loop
    of src/src/linux/generic_handle_linux.c, which reaps URBs and finishes their
    transfers, is here too. *)

From S2P Require Import Prelude Memory Logic Format Errors Results Basics Strings Buffers Pool LinuxOS ErrnoLinux UdevLinux DeviceLinux UsbfdLinux InterfaceLinux HandleLinux.
#[local] Set Warnings "-rewrite-rw".

Section code.
Context `{OS : LinuxOS}.

Definition async_in_pipe_setup (handle : ptr) (pipe_id : Z) : M ptr := mret NULL.

Definition USBDEVFS_URB_TYPE_BULK : Z := 3.

(** A struct from [calloc]. *)
Definition zeroed_transfer : obj :=
  OTransfer {| at_urb := {| urb_type := 0; urb_endpoint := 0; urb_status := 0;
                            urb_buffer := NULL; urb_buffer_length := 0;
                            urb_actual_length := 0; urb_error_count := 0;
                            urb_usercontext := NULL |};
               at_pending := false; at_error := NULL; at_fd := 0 |}.

(** The error and, when it was stored, the value of [*transfer]. *)
Definition async_in_transfer_create (handle : ptr) (pipe_id transfer_size : Z) :
    M (ptr * option ptr) :=
  c_assert (negb (transfer_size =? 0));;
  if INT_MAX <? transfer_size then
    error ← error_create "Transfer size is too large.";
    mret (error, None)
  else
  (* Allocate the transfer struct. *)
  new_transfer ← calloc 1 sizeof_async_in_transfer zeroed_transfer;
  let error := if is_null new_transfer then Static error_no_memory else NULL in
  (* Allocate the buffer for the transfer. *)
  '(error, new_buffer) ← if_ok error NULL
    (new_buffer ← malloc_chars transfer_size;
     mret (if is_null new_buffer then Static error_no_memory else NULL, new_buffer));
  (* Assemble the transfer and pass it to the caller. *)
  '(transfer, new_buffer, new_transfer) ←
    (if is_null error then
       fd ← libusbp_generic_handle_get_fd handle;
       t ← load_as as_transfer new_transfer;
       store new_transfer
         (OTransfer {| at_urb := {| urb_type := USBDEVFS_URB_TYPE_BULK;
                                    urb_endpoint := pipe_id;
                                    urb_status := urb_status (at_urb t);
                                    urb_buffer := new_buffer;
                                    urb_buffer_length := to_int transfer_size;
                                    urb_actual_length := urb_actual_length (at_urb t);
                                    urb_error_count := urb_error_count (at_urb t);
                                    urb_usercontext := new_transfer |};
                       at_pending := at_pending t; at_error := at_error t; at_fd := fd |});;
       mret (Some new_transfer, NULL, NULL)
     else mret (None, new_buffer, new_transfer));
  free new_buffer;;
  free new_transfer;;
  mret (error, transfer).

Definition async_in_transfer_free (transfer : ptr) : M unit :=
  if is_null transfer then mret tt else
  t ← load_as as_transfer transfer;
  (* The kernel may still write to a pending transfer: leak it. *)
  if at_pending t then mret tt else
  libusbp_error_free (at_error t);;
  free (urb_buffer (at_urb t));;
  free transfer.

(** Storing the fields [pending] and [error]. *)
Definition set_transfer_state (transfer : ptr) (pending : bool) (error : ptr) : M unit :=
  t ← load_as as_transfer transfer;
  store transfer (OTransfer {| at_urb := at_urb t; at_pending := pending; at_error := error;
                               at_fd := at_fd t |}).

Definition async_in_transfer_submit (transfer : ptr) : M unit :=
  c_assert (negb (is_null transfer));;
  t ← load_as as_transfer transfer;
  c_assert (negb (at_pending t));;
  libusbp_error_free (at_error t);;
  set_transfer_state transfer true NULL;;
  error ← usbfd_submit_urb (at_fd t) transfer;
  when (negb (is_null error)) (set_transfer_state transfer false error).

Definition async_in_transfer_handle_completion (transfer : ptr) : M unit :=
  c_assert (negb (is_null transfer));;
  t ← load_as as_transfer transfer;
  error ← error_from_urb_status (at_urb t);
  error ← (if is_null error && negb (urb_error_count (at_urb t) =? 0) then
             error_create ("Non-zero error count for USB request: " +:+
                           fmt_d (urb_error_count (at_urb t)) +:+ ".")
           else mret error);
  error ← (if negb (is_null error) then error_add error "Asynchronous IN transfer failed."
           else mret error);
  set_transfer_state transfer false error.

(** The error and what is stored in [*transferred] and [*transfer_error]. *)
Definition async_in_transfer_get_results (transfer buffer : ptr)
    (transferred_given transfer_error_given : bool) : M (ptr * option Z * option ptr) :=
  c_assert (negb (is_null transfer));;
  t ← load_as as_transfer transfer;
  c_assert (negb (at_pending t));;
  let tmp_transferred := to_size (urb_actual_length (at_urb t)) in
  (* Make sure we don't overflow the user's buffer. *)
  let tmp_transferred :=
    if to_size (urb_buffer_length (at_urb t)) <? tmp_transferred
    then to_size (urb_buffer_length (at_urb t)) else tmp_transferred in
  when (negb (is_null buffer)) (memcpy_chars buffer (urb_buffer (at_urb t)) tmp_transferred);;
  transfer_error ←
    (if transfer_error_given : bool then
       e ← libusbp_error_copy (at_error t);
       mret (Some e)
     else mret None);
  mret (NULL, out transferred_given tmp_transferred, transfer_error).

Definition async_in_transfer_cancel (transfer : ptr) : M ptr :=
  if is_null transfer then mret NULL else
  t ← load_as as_transfer transfer;
  usbfd_discard_urb (at_fd t) transfer.

Definition async_in_transfer_pending (transfer : ptr) : M bool :=
  c_assert (negb (is_null transfer));;
  t ← load_as as_transfer transfer;
  mret (at_pending t).

(** ** The event loop of a handle *)

Definition handle_completed_urb (urb : ptr) : M ptr :=
  t ← load_as as_transfer urb;
  let u := at_urb t in
  if is_null (urb_usercontext u) then
    error_create "A completed USB request block has a NULL usercontext."
  else if (urb_type u =? USBDEVFS_URB_TYPE_BULK) && negb (Z.land (urb_endpoint u) 0x80 =? 0) then
    async_in_transfer_handle_completion (urb_usercontext u);;
    mret NULL
  else error_create "A completed USB request block was unrecognized.".

(** [while (true)], with fuel. *)
Fixpoint generic_handle_events_loop (fuel : nat) (handle : ptr) : M ptr :=
  match fuel with
  | O => stuck OutOfFuel
  | S fuel =>
      h ← load_as as_handle handle;
      '(error, urb) ← usbfd_reap_urb (gh_fd h);
      if negb (is_null error) then mret error
      else if is_null urb then mret NULL
      else
        error ← handle_completed_urb urb;
        if negb (is_null error) then mret error
        else generic_handle_events_loop fuel handle
  end.

(** The kernel hands out every outstanding URB once, so one more round than there
    are outstanding URBs is enough. *)
Definition generic_handle_events (handle : ptr) : M ptr :=
  if is_null handle then error_create "Generic handle argument is null." else
  h ← load_as as_handle handle;
  trace ← get_trace;
  generic_handle_events_loop (S (size (outstanding trace (gh_fd h)))) handle.
End code.

(** ** What a transfer holds *)

Record urb := Urb {
  ut_fd : Z;
  ut_endpoint : Z;
  ut_size : Z;
  ut_contents : list (option ascii);
  ut_status : Z;
  ut_actual : Z;
  ut_errors : Z;
  ut_pending : bool;
  ut_error : option aerr;
  ut_buffer : loc
}.

Definition transfer_struct (l : loc) (pe : ptr) (u : urb) : async_in_transfer :=
  {| at_urb := {| urb_type := USBDEVFS_URB_TYPE_BULK; urb_endpoint := ut_endpoint u;
                  urb_status := ut_status u; urb_buffer := Heap (ut_buffer u);
                  urb_buffer_length := ut_size u; urb_actual_length := ut_actual u;
                  urb_error_count := ut_errors u; urb_usercontext := Heap l |};
     at_pending := ut_pending u; at_error := pe; at_fd := ut_fd u |}.

(** A transfer that the kernel has is a pending one without an error. *)
Definition urb_wf (u : urb) : Prop :=
  u8 (ut_endpoint u) ∧ is_in (ut_endpoint u) = true ∧
  0 < ut_size u ≤ INT_MAX ∧ Z.of_nat (List.length (ut_contents u)) = ut_size u ∧
  int_range (ut_actual u) ∧ (ut_pending u = true → ut_error u = None).

Definition urb_own (l : loc) (u : urb) : hProp :=
  (∃ pe, ⟪urb_wf u⟫ ∗ l ↦ OTransfer (transfer_struct l pe u) ∗
     ut_buffer u ↦ OChars (ut_contents u) ∗ opt_err pe (ut_error u))%I.

Lemma urb_own_wf l u : urb_own l u ⊢ ⌜urb_wf u⌝ ∧ urb_own l u.
Proof. iIntros "H". iSplit; [|done]. by iDestruct "H" as (pe) "[% _]". Qed.

(** The bytes of the buffer that [async_in_transfer_get_results] hands out. *)
Definition received (u : urb) : Z := Z.min (to_size (ut_actual u)) (ut_size u).
Definition received_data (u : urb) : list (option ascii) :=
  take (Z.to_nat (received u)) (ut_contents u).

Lemma received_range u : urb_wf u → 0 ≤ received u ≤ ut_size u.
Proof.
  intros (_ & _ & Hs & _). unfold received, to_size.
  pose proof (wrap_range 64 (ut_actual u) ltac:(lia)). lia.
Qed.

Lemma received_cases u :
  urb_wf u →
  (0 ≤ ut_actual u ≤ ut_size u → received u = ut_actual u) ∧
  (ut_actual u < 0 ∨ ut_size u < ut_actual u → received u = ut_size u).
Proof.
  intros (_ & _ & Hs & _ & Ha & _). unfold received, to_size, wrap, int_range, INT_MAX in *.
  split; intros; Z.to_euclidean_division_equations; lia.
Qed.

Lemma length_received_data u :
  urb_wf u → Z.of_nat (List.length (received_data u)) = received u.
Proof.
  intros Hu. pose proof (received_range u Hu). destruct Hu as (_ & _ & Hs & Hl & _).
  unfold received_data. rewrite length_take. lia.
Qed.

(** ** Ownership is exclusive *)

Lemma urb_own_exclusive l u u' : urb_own l u -∗ urb_own l u' -∗ False.
Proof.
  iIntros "(%pe & _ & Hl & _) (%pe' & _ & Hl' & _)".
  iApply (pt_exclusive with "Hl Hl'").
Qed.

(** ** Operations on one transfer *)

Definition set_state (u : urb) (pending : bool) (error : option aerr) : urb :=
  Urb (ut_fd u) (ut_endpoint u) (ut_size u) (ut_contents u) (ut_status u) (ut_actual u)
      (ut_errors u) pending error (ut_buffer u).

Lemma set_state_wf u b e : urb_wf u → (b = true → e = None) → urb_wf (set_state u b e).
Proof. unfold urb_wf. cbn. naive_solver. Qed.

Section specs.
Context `{OS : LinuxOS} {LAWS : LinuxLaws OS}.

Lemma wp_set_transfer_state l pe u b e oe Q x :
  l ↦ OTransfer (transfer_struct l pe u) -∗
  (l ↦ OTransfer (transfer_struct l e (set_state u b oe)) -∗ Q tt x) -∗
  wp (set_transfer_state (Heap l) b e) x Q.
Proof. iIntros "Hl HQ". unfold set_transfer_state. wp_steps. by iApply "HQ". Qed.

Lemma async_in_transfer_free_spec l u x :
  ut_pending u = false →
  {{ urb_own l u }} async_in_transfer_free (Heap l) @ x {{ r x', ⟪x' = x⟫ }}.
Proof.
  iIntros (Hp) "(%pe & _ & Hl & Hb & He)". unfold async_in_transfer_free.
  unfold transfer_struct. wp_steps. rewrite Hp. wp_steps. wp_call (libusbp_error_free_spec pe _ x).
  iIntros ([] ?) "->". wp_steps. by iPureIntro.
Qed.

(** A pending transfer is left alone. *)
Lemma async_in_transfer_free_pending l u x :
  ut_pending u = true →
  {{ urb_own l u }} async_in_transfer_free (Heap l) @ x {{ r x', ⟪x' = x⟫ ∗ urb_own l u }}.
Proof.
  iIntros (Hp) "(%pe & %Hu & Hl & Hb & He)". unfold async_in_transfer_free.
  wp_steps. cbn [transfer_struct at_pending]. rewrite Hp. wp_steps. iSplit; [done|].
  iExists pe. by iFrame.
Qed.

Lemma async_in_transfer_pending_spec l u x :
  {{ urb_own l u }} async_in_transfer_pending (Heap l) @ x {{ r x',
    ⟪r = ut_pending u ∧ x' = x⟫ ∗ urb_own l u }}.
Proof.
  iIntros "(%pe & %Hu & Hl & Hb & He)". unfold async_in_transfer_pending.
  wp_steps. iSplit; [done|]. iExists pe. by iFrame.
Qed.

Definition is_ok (r : sysret) : bool := match r with SysOk _ => true | SysErr _ => false end.

Definition submit_event (h : list event) (l : loc) (u : urb) : event :=
  EvSubmit (ut_fd u) l (ut_endpoint u) (ut_size u) (Heap (ut_buffer u)) (is_ok (os_submit h (ut_fd u) l)).

(** What submitting the idle transfer [u] does: it is pending, or has an error. *)
Definition submitted (x x' : ext) (l : loc) (u u' : urb) : Prop :=
  x_trace x' = submit_event (x_trace x) l u :: x_trace x ∧
  (x_oom x ≤ x_oom x')%nat ∧
  match os_submit (x_trace x) (ut_fd u) l with
  | SysOk _ => u' = set_state u true None
  | SysErr e => ∃ got, u' = set_state u false (Some got) ∧
                  errs x x' (errno_error e "Submitting USB request block failed.") got
  end.

Lemma async_in_transfer_submit_spec l u x :
  ut_pending u = false →
  {{ urb_own l u ∗ fd_own (ut_fd u) }} async_in_transfer_submit (Heap l) @ x {{ r x',
    fd_own (ut_fd u) ∗ ∃ u', ⟪submitted x x' l u u'⟫ ∗ urb_own l u' }}.
Proof.
  iIntros (Hp) "[(%pe & %Hu & Hl & Hb & He) Hfd]". unfold async_in_transfer_submit.
  iApply wp_bind. wp_steps. cbn [transfer_struct at_pending at_error at_fd]. rewrite Hp. wp_steps. wp_call (libusbp_error_free_spec pe _ x).
  iIntros ([] ?) "->". wp_steps.
  iApply (wp_set_transfer_state _ _ _ _ _ None with "[$]"). iIntros "Hl".
  wp_steps. unfold usbfd_submit_urb, ioctl_submiturb. wp_steps.
  iApply (wp_check_fd with "Hfd"). iIntros "Hfd". wp_steps. iApply wp_sys_return.
  set (h := x_trace x). set (ev := EvSubmit _ _ _ _ _ _).
  assert (Hev : ev = submit_event h l u) by done.
  destruct (os_submit h (ut_fd u) l) as [n|e] eqn:E.
  - apply submit_result in E as Hn. rewrite (_ : (n <? 0) = false); [|lia]. wp_steps.
    iFrame "Hfd". iExists (set_state u true None). iSplit.
    + iPureIntro. split_and!; [|done|]; fold h; [by rewrite Hev|by rewrite E].
    + iExists NULL. iFrame. iSplit; [|done]. iPureIntro. by apply set_state_wf.
  - wp_constants. wp_steps. iApply wp_error_create_errno; [done|]. err_intro.
    iDestruct select (err_res _ _ _ _) as (got) "[He %He]". destruct He as [[Ht Ho] He].
    wp_steps. iApply (wp_set_transfer_state _ _ _ _ _ (Some got) with "[$]"). iIntros "Hl".
    iFrame "Hfd". iExists (set_state u false (Some got)). iSplit.
    + iPureIntro. split_and!; fold h; [by rewrite Ht Hev|done|]. rewrite E.
      exists got. split; [done|exact He].
    + iExists r. iFrame. iPureIntro. by apply set_state_wf.
Qed.

(** ** Completion *)

(** The error of a finished transfer. *)
Definition transfer_failure (status error_count : Z) : option aerr :=
  (λ e, err_add e "Asynchronous IN transfer failed.") <$>
  match urb_status_error status with
  | Some e => Some e
  | None => if error_count =? 0 then None
            else Some (err_new ("Non-zero error count for USB request: " +:+
                                fmt_d error_count +:+ "."))
  end.

Lemma async_in_transfer_handle_completion_spec l u x :
  ut_pending u = true → ut_status u ≠ INT_MIN →
  {{ urb_own l u }} async_in_transfer_handle_completion (Heap l) @ x {{ r x',
    ∃ e, ⟪quiet x x' ∧ opt_errs x x' (transfer_failure (ut_status u) (ut_errors u)) e⟫ ∗
         urb_own l (set_state u false e) }}.
Proof.
  iIntros (Hp Hs) "(%pe & %Hu & Hl & Hb & He)".
  assert (Hwf : ∀ e, urb_wf (set_state u false e)) by (intros e; by apply set_state_wf).
  destruct Hu as (_ & _ & _ & _ & _ & Herr). rewrite (Herr Hp). iDestruct "He" as %->.
  unfold async_in_transfer_handle_completion, transfer_failure.
  iApply wp_bind. wp_steps. cbn [transfer_struct at_urb urb_error_count].
  wp_call (error_from_urb_status_spec (at_urb (transfer_struct l NULL u)) x Hs).
  iIntros (e x1) "H". cbn [transfer_struct at_urb urb_status].
  iAssert (wp (error ← (if is_null e && negb (ut_errors u =? 0) then
             error_create ("Non-zero error count for USB request: " +:+ fmt_d (ut_errors u) +:+ ".")
             else mret e);
           if negb (is_null error) then error_add error "Asynchronous IN transfer failed."
           else mret error) x1 (λ r x', ∃ got, ⟪quiet x x' ∧
              opt_errs x x' (transfer_failure (ut_status u) (ut_errors u)) got⟫ ∗ opt_err r got))%I
    with "[H]" as "H".
  { unfold transfer_failure. destruct (urb_status_error (ut_status u)) as [w|].
    - iDestruct (err_res_not_null with "H") as "[%Hn H]". wp_steps.
      iApply (wp_error_add with "H"); [done|]. iIntros (r x2 _) "(%got & He & %H)".
      destruct H as [Hq H]. iExists (Some got). by iFrame.
    - iDestruct "H" as %[-> Hq]. cbn [is_null andb]. destruct (ut_errors u =? 0); cbn [negb].
      + wp_steps. iExists None. by iFrame.
      + wp_steps. iApply wp_error_create; [by rewrite !no_nul_app no_nul_fmt_d|].
        err_intro. iApply (wp_error_add with "[$]"); [done|]. iIntros (r2 x2 _) "(%got & He & %H)".
        destruct H as [Hq2 H]. iExists (Some got). iFrame. iPureIntro. split; [by etrans|].
        destruct H as [->|[Hm Ho]]; [by left|right]. split; [done|by eapply oomed_r; [apply quiet_calm|]]. }
  iApply wp_group. wp_step. iApply (wp_wand with "H"). iIntros (r x') "(%got & %H & He)".
  iApply (wp_set_transfer_state _ _ _ _ _ got with "[$]"). iIntros "Hl".
  iExists got. iSplit; [done|]. iExists r. iFrame. done.
Qed.

(** ** Results *)

Lemma async_in_transfer_get_results_spec l u buffer old g1 g2 x :
  ut_pending u = false →
  (is_null buffer = false → received u ≤ Z.of_nat (List.length old)) →
  {{ urb_own l u ∗ user_buffer buffer old }}
    async_in_transfer_get_results (Heap l) buffer g1 g2 @ x
  {{ r x', ⟪r.1 = (NULL, out g1 (received u)) ∧ quiet x x'⟫ ∗ urb_own l u ∗
     user_buffer buffer (if is_null buffer then old else copied (received_data u) old) ∗
     error_copied g2 r.2 (ut_error u) x x' }}.
Proof.
  iIntros (Hp Hlen) "[(%pe & %Hu & Hl & Hb & He) Hbuf]".
  unfold async_in_transfer_get_results. iApply wp_bind. wp_steps.
  cbn [transfer_struct at_pending at_urb at_error urb_actual_length urb_buffer_length urb_buffer].
  rewrite Hp. pose proof (received_range u Hu) as Hr. pose proof Hu as (_ & _ & Hsz & Hcl & _).
  rewrite (to_size_id (ut_size u)); [|unfold INT_MAX, SIZE_MAX in *; lia].
  rewrite (_ : (if ut_size u <? to_size (ut_actual u) then ut_size u else to_size (ut_actual u))
             = received u); last first.
  { unfold received. destruct (Z.ltb_spec (ut_size u) (to_size (ut_actual u))); lia. }
  wp_steps. destruct (is_null buffer) eqn:En; cbn [negb].
  - wp_step. iApply (wp_wand with "[He]"); [by iApply (copy_transfer_error g2 pe _ x)|].
    iIntros (r x1) "(%Hq & He & Hc)". wp_steps. iFrame "Hbuf Hc". iSplit; [done|].
    iExists pe. by iFrame.
  - iApply (wp_memcpy_chars with "[$] Hbuf"); [done|lia|by apply Hlen|]. iIntros "Hb Hbuf".
    wp_step. iApply (wp_wand with "[He]"); [by iApply (copy_transfer_error g2 pe _ x)|].
    iIntros (r x1) "(%Hq & He & Hc)". wp_steps. iFrame "Hbuf Hc". iSplit; [done|].
    iExists pe. by iFrame.
Qed.

(** ** Cancellation *)

Definition s_discard (fd : Z) (l : loc) : Spec unit := λ h,
  (match os_discard h fd l with
   | SysOk _ => inr tt
   | SysErr e => if e =? EINVAL then inr tt
                 else inl (errno_error e "Failed to cancel asynchronous transfer.")
   end, EvDiscard fd l :: h).

Lemma async_in_transfer_cancel_spec l u x :
  {{ urb_own l u ∗ fd_own (ut_fd u) }} async_in_transfer_cancel (Heap l) @ x {{ r x',
    urb_own l u ∗ fd_own (ut_fd u) ∗
    returns (s_discard (ut_fd u) l) x x' r (λ _, emp) emp }}.
Proof.
  iIntros "[(%pe & %Hu & Hl & Hb & He) Hfd]". unfold async_in_transfer_cancel.
  iApply wp_bind. wp_steps. cbn [transfer_struct at_fd]. unfold usbfd_discard_urb, ioctl_discardurb.
  wp_steps. iApply (wp_check_fd with "Hfd"). iIntros "Hfd". wp_steps. iApply wp_sys_return.
  iAssert (urb_own l u) with "[-Hfd]" as "Hu"; [iExists pe; by iFrame|].
  set (h := x_trace x).
  assert (Hc : ∀ e, calm x (Ext (EvDiscard (ut_fd u) l :: h) e (x_oom x))).
  { intros. by apply calm_event. }
  destruct (os_discard h (ut_fd u) l) as [n|e] eqn:E.
  - apply discard_result in E as Hn. rewrite (_ : (n <? 0) = false); [|lia]. wp_steps.
    iFrame "Hu Hfd". iApply (returns_ok _ _ _ tt (λ _, emp)%I); [|done].
    split; [apply Hc|]. unfold s_discard. fold h. by rewrite E.
  - wp_constants. wp_steps. destruct (e =? EINVAL) eqn:Ee; wp_steps.
    + iFrame "Hu Hfd". iApply (returns_ok _ _ _ tt (λ _, emp)%I); [|done].
      split; [apply Hc|]. unfold s_discard. fold h. by rewrite E Ee.
    + iApply wp_error_create_errno; [done|]. err_intro. iFrame "Hu Hfd".
      iApply (returns_err_from with "[-]"); [apply (Hc e)| |by iFrame].
      unfold s_discard. fold h. by rewrite E Ee.
Qed.

(** ** Creation *)

(** A transfer that was never submitted. *)
Definition new_transfer (fd pipe_id size : Z) (buffer : loc) : urb :=
  Urb fd pipe_id size (replicate (Z.to_nat size) None) 0 0 0 false None buffer.

(** The transfer, up to the place of its buffer. *)
Definition s_transfer_create (fd pipe_id size : Z) : Spec (loc → urb) :=
  if INT_MAX <? size then sfail (err_new "Transfer size is too large.")
  else mret (new_transfer fd pipe_id size).

Lemma async_in_transfer_create_spec p fd h pipe_id size x :
  u8 pipe_id → is_in pipe_id = true → 0 < size →
  {{ handle_own p fd h }} async_in_transfer_create p pipe_id size @ x {{ r x',
    handle_own p fd h ∗
    returns (s_transfer_create fd pipe_id size) x x' r.1
      (λ u, ∃ l buffer, ⟪r.2 = Some (Heap l)⟫ ∗ urb_own l (u buffer)) ⟪r.2 = None⟫ }}.
Proof.
  iIntros (Hn Hin Hsz) "Hh". unfold async_in_transfer_create, s_transfer_create, if_ok, calloc.
  rewrite (_ : (size =? 0) = false); [|lia]. wp_steps.
  destruct (Z.ltb_spec INT_MAX size) as [Hbig|Hsmall].
  { wp_steps. iApply wp_error_create; [done|]. err_intro. wp_steps. iFrame "Hh".
    iApply (returns_err with "[-]"); [done|by iFrame]. }
  wp_steps. iApply wp_malloc_pos; [done|]. iSplit; last first.
  { iIntros (x1 [Hq Ho]). wp_steps. iFrame "Hh". by iApply returns_no_memory. }
  iIntros (l Hl) "Hl". wp_steps. unfold malloc_chars. iApply wp_malloc_pos; [lia|]. iSplit; last first.
  { iIntros (x1 [Hq Ho]). wp_steps. iFrame "Hh". by iApply returns_no_memory. }
  iIntros (lb Hlb) "Hb". wp_steps. unfold libusbp_generic_handle_get_fd.
  iDestruct (handle_own_not_null with "Hh") as "[%Hp Hh]". wp_steps.
  iApply (handle_own_load with "Hh"). iIntros (pd Hlen) "Hd Hfd Hclose".
  iDestruct ("Hclose" with "Hd Hfd") as "Hh". unfold zeroed_transfer. wp_steps.
  iFrame "Hh". iApply (returns_ok _ _ _ (new_transfer fd pipe_id size)); [by apply succeeded_ret|].
  iExists l, lb. iSplit; [done|]. iExists NULL. rewrite to_int_id; [|unfold int_range, INT_MAX in *; lia].
  iFrame. iSplit; [|done]. iPureIntro. unfold urb_wf, new_transfer, int_range; cbn [ut_endpoint
    ut_size ut_contents ut_actual ut_pending ut_error].
  rewrite length_replicate. split_and!; try done; lia.
Qed.

(** ** The transfers of a handle

    [m] holds every transfer that was created for a descriptor; the URBs the
    kernel has are exactly the pending ones, with the length of their buffers. *)

Definition in_kernel (u : urb) : option Z := if ut_pending u then Some (ut_size u) else None.

Definition kernel_agrees : Z → ext → gmap loc urb → Prop := agrees in_kernel.

Definition urbs (fd : Z) : ext → gmap loc urb → hProp :=
  pool_own urb_own in_kernel (λ u, ut_fd u = fd) fd.

Lemma urbs_calm fd x x' m : calm x x' → urbs fd x m ⊢ urbs fd x' m.
Proof. apply pool_calm. Qed.

Lemma urbs_wf fd x m : urbs fd x m ⊢ ⌜kernel_agrees fd x m ∧ map_Forall (λ _ u, urb_wf u) m⌝ ∧ urbs fd x m.
Proof. apply pool_facts, urb_own_wf. Qed.

Lemma urbs_take fd x m l u :
  m !! l = Some u →
  urbs fd x m ⊢ ⌜ut_fd u = fd⌝ ∧ urb_own l u ∗
    (∀ x' u', ⌜ut_fd u' = fd ∧ kernel_agrees fd x' (<[l := u']> m)⌝ → urb_own l u' -∗
       urbs fd x' (<[l := u']> m)).
Proof. intros Hl. by apply (pool_take urb_own in_kernel (λ u, ut_fd u = fd)). Qed.

(** Looking at a transfer of the pool. *)
Lemma pending_in_pool_spec fd m l u x :
  m !! l = Some u →
  {{ urbs fd x m }} async_in_transfer_pending (Heap l) @ x {{ r x',
    ⟪r = ut_pending u ∧ x' = x⟫ ∗ urbs fd x m }}.
Proof.
  iIntros (Hl) "Hm". iDestruct (urbs_wf with "Hm") as "[[%Ha _] Hm]".
  iDestruct (urbs_take _ _ _ _ _ Hl with "Hm") as "(%Hfd & Hu & Hclose)".
  iApply (wp_wand with "[Hu]"); [by iApply async_in_transfer_pending_spec|].
  iIntros (r x') "[%H Hu]". destruct H as [-> ->]. iSplit; [done|].
  iDestruct ("Hclose" $! x u with "[%] Hu") as "H"; rewrite insert_id //.
Qed.

(** Freeing a transfer of the pool: not while it is pending. *)
Lemma free_in_pool_spec fd m l u x :
  m !! l = Some u →
  {{ urbs fd x m }} async_in_transfer_free (Heap l) @ x {{ r x',
    ⟪x' = x⟫ ∗ urbs fd x' (if ut_pending u then m else delete l m) }}.
Proof.
  iIntros (Hl) "Hm". destruct (ut_pending u) eqn:Hp.
  - iDestruct (urbs_wf with "Hm") as "[[%Ha _] Hm]".
    iDestruct (urbs_take _ _ _ _ _ Hl with "Hm") as "(%Hfd & Hu & Hclose)".
    iApply (wp_wand with "[Hu]"); [by iApply (async_in_transfer_free_pending l u x Hp)|].
    iIntros (r x') "[-> Hu]". iSplit; [done|].
    iDestruct ("Hclose" $! x u with "[%] Hu") as "H"; [|by rewrite insert_id].
    rewrite insert_id //.
  - iDestruct (pool_delete _ _ _ _ _ _ l u Hl with "Hm") as "[Hu Hm]"; [by rewrite /in_kernel Hp|].
    iApply (wp_wand with "[Hu]"); [by iApply (async_in_transfer_free_spec l u x Hp)|].
    iIntros (r x') "->". by iFrame.
Qed.

(** Submitting a transfer of the pool: its URB goes to the kernel. *)
Lemma submit_in_pool_spec fd m l u x :
  m !! l = Some u → ut_pending u = false →
  {{ fd_own fd ∗ urbs fd x m }} async_in_transfer_submit (Heap l) @ x {{ r x',
    fd_own fd ∗ ∃ u', ⟪ut_fd u = fd ∧ submitted x x' l u u'⟫ ∗ urbs fd x' (<[l := u']> m) }}.
Proof.
  iIntros (Hl Hp) "[Hfd Hm]". iDestruct (urbs_wf with "Hm") as "[[%Ha _] Hm]".
  iDestruct (urbs_take _ _ _ _ _ Hl with "Hm") as "(%Hfd & Hu & Hclose)". subst fd.
  iApply (wp_wand with "[Hu Hfd]"); [iApply (async_in_transfer_submit_spec l u x Hp); iFrame|].
  iIntros ([] x1) "[Hfd (%u' & %H & Hu)]". iFrame "Hfd". iExists u'. iSplit; [done|].
  iApply ("Hclose" with "[%] Hu"). destruct H as (Ht & Ho & Hu').
  unfold submit_event in Ht. destruct (os_submit (x_trace x) (ut_fd u) l) as [n|e] eqn:E.
  - subst u'. split; [done|]. destruct x1 as [tr n1 k1]. cbn in Ht. rewrite Ht.
    by apply (agrees_submitted _ (ut_fd u) x).
  - destruct Hu' as (got & -> & He). split; [done|]. apply (agrees_same _ _ x _ _ _ u); [done| | |done].
    + unfold in_kernel. cbn. by rewrite Hp.
    + split; [done|]. intros fd'. by rewrite Ht.
Qed.

(** ** Reaping *)

(** What the kernel writes when it completes a request. *)
Definition written (c : completion) (u : urb) : urb :=
  Urb (ut_fd u) (ut_endpoint u) (ut_size u) (overwrite (c_data c) (ut_contents u))
      (c_status c) (c_actual_length c) (c_error_count c) (ut_pending u) (ut_error u) (ut_buffer u).

Lemma written_wf c u :
  urb_wf u → Z.of_nat (List.length (c_data c)) ≤ ut_size u → int_range (c_actual_length c) →
  urb_wf (written c u).
Proof.
  unfold urb_wf. cbn. intros (? & ? & ? & ? & ? & ?) Hd Hi. rewrite length_overwrite; [|lia].
  split_and!; try done; lia.
Qed.

Lemma usbfd_reap_urb_some fd c u x :
  os_reap (x_trace x) fd = inl c → Z.of_nat (List.length (c_data c)) ≤ ut_size u →
  {{ fd_own fd ∗ urb_own (c_urb c) u }} usbfd_reap_urb fd @ x {{ r x',
    ⟪r = (NULL, Heap (c_urb c)) ∧
     x' = Ext (EvReap fd (Some (c_urb c)) :: x_trace x) (x_errno x) (x_oom x)⟫ ∗
    fd_own fd ∗ urb_own (c_urb c) (written c u) }}.
Proof.
  iIntros (E Hd) "[Hfd (%pe & %Hu & Hl & Hb & He)]".
  unfold usbfd_reap_urb, ioctl_reapurbndelay. wp_steps.
  iApply (wp_check_fd with "Hfd"). iIntros "Hfd". wp_steps. rewrite E. wp_steps.
  cbn [transfer_struct at_urb urb_buffer].
  iApply (wp_write_prefix (ut_buffer u) [] (ut_contents u) with "Hb"); [done| |].
  { rewrite length_fmap. destruct Hu as (_ & _ & _ & Hlen & _). lia. }
  rewrite length_fmap. iIntros "Hb". wp_steps. wp_constants. wp_steps. iFrame "Hfd".
  iSplit; [done|]. iExists pe. iFrame. iPureIntro.
  apply written_wf; [done|done|]. by apply (reap_ints _ _ _ E).
Qed.

(** Nothing to reap: the error of the call, none for [EAGAIN]. *)
Definition reap_error (e : Z) : option aerr :=
  if e =? EAGAIN then None else Some (errno_error e "Failed to reap an asynchronous transfer.").

Definition opt_err_res (r : ptr) (want : option aerr) (x x' : ext) : hProp :=
  match want with None => ⟪r = NULL ∧ quiet x x'⟫ | Some a => err_res r a x x' end%I.

Lemma usbfd_reap_urb_none fd e x :
  os_reap (x_trace x) fd = inr e →
  let x1 := Ext (EvReap fd None :: x_trace x) e (x_oom x) in
  {{ fd_own fd }} usbfd_reap_urb fd @ x {{ r x',
    fd_own fd ∗ ⟪r.2 = NULL⟫ ∗ opt_err_res r.1 (reap_error e) x1 x' }}.
Proof.
  iIntros (E x1) "Hfd". unfold usbfd_reap_urb, ioctl_reapurbndelay, reap_error. wp_steps.
  iApply (wp_check_fd with "Hfd"). iIntros "Hfd". wp_steps. rewrite E. wp_steps.
  wp_constants. wp_steps. destruct (e =? EAGAIN); wp_steps.
  - iFrame. done.
  - iApply wp_error_create_errno; [done|]. err_intro. wp_steps. iFrame. done.
Qed.

(** A finished request. *)
Definition finished (c : completion) (error : option aerr) (u : urb) : urb :=
  set_state (written c u) false error.

Lemma handle_completed_urb_spec l u x :
  ut_pending u = true → ut_status u ≠ INT_MIN →
  {{ urb_own l u }} handle_completed_urb (Heap l) @ x {{ r x', ⟪r = NULL⟫ ∗
    ∃ e, ⟪quiet x x' ∧ opt_errs x x' (transfer_failure (ut_status u) (ut_errors u)) e⟫ ∗
         urb_own l (set_state u false e) }}.
Proof.
  iIntros (Hp Hs) "(%pe & %Hu & Hl & Hb & He)". unfold handle_completed_urb.
  iApply wp_bind. wp_steps. cbn [transfer_struct at_urb urb_usercontext urb_type urb_endpoint is_null].
  destruct Hu as (Hep & Hin & Hu'). rewrite pipe_id_direction // negb_involutive Hin.
  rewrite Z.eqb_refl. wp_step.
  iApply (wp_wand with "[-]").
  { iApply (async_in_transfer_handle_completion_spec l u x Hp Hs).
    iExists pe. iFrame. by iPureIntro. }
  iIntros ([] x') "H". wp_steps. by iFrame.
Qed.

(** ** The event loop *)

(** What the kernel hands out until it reports an error. *)
Fixpoint reap_all (fuel : nat) (fd : Z) (h : list event) : option (list completion * Z) :=
  match fuel with
  | O => None
  | S fuel =>
      match os_reap h fd with
      | inr e => Some ([], e)
      | inl c =>
          match reap_all fuel fd (EvReap fd (Some (c_urb c)) :: h) with
          | Some (cs, e) => Some (c :: cs, e)
          | None => None
          end
      end
  end.

Fixpoint reaped_trace (fd : Z) (cs : list completion) (h : list event) : list event :=
  match cs with
  | [] => h
  | c :: cs => reaped_trace fd cs (EvReap fd (Some (c_urb c)) :: h)
  end.

(** The transfers [m] after the requests [cs] were finished, in this order. *)
Inductive completes (x x' : ext) : list completion → gmap loc urb → gmap loc urb → Prop :=
  | completes_nil m : completes x x' [] m m
  | completes_cons c cs m m' u e :
      m !! c_urb c = Some u → ut_pending u = true →
      opt_errs x x' (transfer_failure (c_status c) (c_error_count c)) e →
      completes x x' cs (<[c_urb c := finished c e u]> m) m' →
      completes x x' (c :: cs) m m'.

Lemma completes_mono x0 x1 x2 x3 cs m m' :
  (x_oom x0 ≤ x_oom x1)%nat → (x_oom x2 ≤ x_oom x3)%nat →
  completes x1 x2 cs m m' → completes x0 x3 cs m m'.
Proof.
  induction 3; econstructor; try done. by eapply opt_errs_mono.
Qed.

(** The kernel hands out pending transfers only. *)
Lemma reaped_pending fd x m c :
  os_reap (x_trace x) fd = inl c → kernel_agrees fd x m →
  map_Forall (λ _ u, urb_wf u) m →
  ∃ u, m !! c_urb c = Some u ∧ ut_pending u = true ∧
       Z.of_nat (List.length (c_data c)) ≤ ut_size u.
Proof.
  intros E Ha Hwf. destruct (reap_outstanding _ _ _ E) as (len & Hlen & Hd).
  rewrite Ha lookup_omap in Hlen. apply bind_Some in Hlen as (u & Hu & Hk).
  exists u. unfold in_kernel in Hk. destruct (ut_pending u); [|done].
  injection Hk as <-. split_and!; [done|done|]. apply Hd.
  destruct (Hwf _ _ Hu) as (_ & _ & ? & _). lia.
Qed.

(** One round of the loop when there is something to reap: the request is handed
    out and its transfer finished. *)
Definition finishes_one (x x' : ext) (fd : Z) (c : completion) (m m' : gmap loc urb) : Prop :=
  ∃ u e, m !! c_urb c = Some u ∧ ut_pending u = true ∧ m' = <[c_urb c := finished c e u]> m ∧
    x_trace x' = EvReap fd (Some (c_urb c)) :: x_trace x ∧ (x_oom x ≤ x_oom x')%nat ∧
    opt_errs x x' (transfer_failure (c_status c) (c_error_count c)) e.

Lemma wp_reap_round fd c m x (k : M ptr) Q :
  os_reap (x_trace x) fd = inl c →
  fd_own fd -∗ urbs fd x m -∗
  (∀ x' m', ⌜finishes_one x x' fd c m m'⌝ → fd_own fd -∗ urbs fd x' m' -∗ wp k x' Q) -∗
  wp ('(error, urb) ← usbfd_reap_urb fd;
      if negb (is_null error) then mret error
      else if is_null urb then mret NULL
      else
        error ← handle_completed_urb urb;
        if negb (is_null error) then mret error else k) x Q.
Proof.
  iIntros (E) "Hfd Hm HQ". iDestruct (urbs_wf with "Hm") as "[%Hwf Hm]". destruct Hwf as [Ha Hwf].
  destruct (reaped_pending _ _ _ _ E Ha Hwf) as (u & Hu & Hp & Hd).
  iDestruct (urbs_take _ _ _ _ _ Hu with "Hm") as "(%Hfd & Hu & Hclose)". 
  wp_step. wp_call (usbfd_reap_urb_some fd c u x E Hd). iIntros ([e urb] x1) "(%H & Hfd & Hu)".
  destruct H as [[= -> ->] ->]. wp_steps.
  wp_call (handle_completed_urb_spec (c_urb c) (written c u) _ Hp ltac:(
    pose proof (reap_status _ _ _ E); cbn; unfold INT_MIN; lia)).
  iIntros (r x2) "[-> (%e & %H & Hu)]". destruct H as [[Ht Ho] He]. cbn [x_trace x_oom] in *. wp_steps.
  iApply ("HQ" $! x2 with "[%] Hfd [-]"); [by exists u, e|].
  iApply ("Hclose" with "[%] Hu"). split; [done|].
  destruct x2 as [tr n2 k2]. cbn in Ht. rewrite Ht. by apply (agrees_completed in_kernel fd x m).
Qed.

(** The result of handling the events of a handle: everything that the kernel had
    was reaped, in its order. *)
Definition events_handled (fuel : nat) (fd : Z) (x x' : ext) (m m' : gmap loc urb)
    (error : option aerr) : Prop :=
  ∃ cs e, reap_all fuel fd (x_trace x) = Some (cs, e) ∧
    x_trace x' = EvReap fd None :: reaped_trace fd cs (x_trace x) ∧ (x_oom x ≤ x_oom x')%nat ∧
    completes x x' cs m m' ∧ opt_errs x x' (reap_error e) error.

Lemma events_handled_step fuel fd c x x1 x' m m1 m' error :
  os_reap (x_trace x) fd = inl c → finishes_one x x1 fd c m m1 →
  events_handled fuel fd x1 x' m1 m' error → events_handled (S fuel) fd x x' m m' error.
Proof.
  intros E (u & e & Hu & Hp & -> & Ht & Ho & He) (cs & n & Hr & Ht' & Ho' & Hcs & Herr).
  exists (c :: cs), n. rewrite Ht in Hr Ht'. cbn [reap_all reaped_trace]. rewrite E Hr.
  split_and!; [done|done|lia| |].
  - econstructor; [done|done|by eapply opt_errs_mono; [| |exact He]; lia|].
    by eapply completes_mono; [| |exact Hcs]; lia.
  - by eapply opt_errs_mono; [| |exact Herr]; lia.
Qed.

(** Every round takes one URB away from the kernel. *)
Lemma outstanding_decreases fd x x1 c m m1 :
  os_reap (x_trace x) fd = inl c → finishes_one x x1 fd c m m1 →
  (size (outstanding (x_trace x1) fd) < size (outstanding (x_trace x) fd))%nat.
Proof.
  intros E (u & e & _ & _ & _ & Ht & _). rewrite Ht.
  destruct (reap_outstanding _ _ _ E) as (len & Hlen & _). by eapply outstanding_completed.
Qed.

Lemma generic_handle_events_loop_spec fuel p fd h m x :
  (size (outstanding (x_trace x) fd) < fuel)%nat →
  {{ handle_own p fd h ∗ urbs fd x m }} generic_handle_events_loop fuel p @ x {{ r x',
    ∃ m' error, ⟪events_handled fuel fd x x' m m' error⟫ ∗
      handle_own p fd h ∗ urbs fd x' m' ∗ opt_err r error }}.
Proof.
  revert m x. induction fuel as [|fuel IH]; intros m x Hfuel; [lia|].
  iIntros "[Hh Hm]". cbn [generic_handle_events_loop]. wp_step.
  iApply (handle_own_load with "Hh"). iIntros (pd _) "Hd Hfd Hclose". wp_simpl.
  destruct (os_reap (x_trace x) fd) as [c|e] eqn:E.
  - iApply (wp_reap_round fd c m x with "Hfd Hm"); [done|]. iIntros (x1 m1 H1) "Hfd Hm".
    iDestruct ("Hclose" with "Hd Hfd") as "Hh".
    iApply (wp_wand with "[Hh Hm]").
    { iApply (IH m1 x1); [|by iFrame]. pose proof (outstanding_decreases _ _ _ _ _ _ E H1). lia. }
    iIntros (r x') "(%m' & %error & %H & H)". iExists m', error. iFrame. iPureIntro.
    by eapply events_handled_step.
  - wp_step. wp_call (usbfd_reap_urb_none fd e x E). iIntros ([r urb] x1) "(Hfd & %Hurb & Hr)".
    cbn [snd] in Hurb. subst urb. iDestruct ("Hclose" with "Hd Hfd") as "Hh". wp_simpl.
    iAssert (∃ error, ⟪quiet (Ext (EvReap fd None :: x_trace x) e (x_oom x)) x1 ∧
      opt_errs x x1 (reap_error e) error⟫ ∗ opt_err r error)%I with "[Hr]" as (error) "[%He Hr]".
    { unfold opt_err_res. destruct (reap_error e) as [want|].
      - iDestruct "Hr" as (got) "[Hr %Hq]". destruct Hq as [Hq Hg]. iExists (Some got). iFrame.
        iPureIntro. split; [done|]. by eapply errs_mono; [| |exact Hg].
      - iDestruct "Hr" as %[-> Hq]. iExists None. by iPureIntro. }
    iDestruct (opt_err_null with "Hr") as "[%Hn Hr]".
    iAssert (∃ m' error, ⟪events_handled (S fuel) fd x x1 m m' error⟫ ∗
      handle_own p fd h ∗ urbs fd x1 m' ∗ opt_err r error)%I with "[-]" as "H".
    { iExists m, error. iFrame "Hh Hr". destruct He as [[Ht Ho] He]. cbn [x_trace x_oom] in *. iSplit.
      - iPureIntro. exists [], e. cbn [reap_all]. rewrite E. by split_and!; [| | |constructor|].
      - iApply (urbs_calm with "Hm"). split; [done|]. intros fd'. by rewrite Ht. }
    destruct (is_null r) eqn:En; wp_steps; [|done]. by destruct r.
Qed.

Lemma generic_handle_events_spec p fd h m x :
  {{ handle_own p fd h ∗ urbs fd x m }} generic_handle_events p @ x {{ r x',
    ∃ m' error,
      ⟪events_handled (S (size (outstanding (x_trace x) fd))) fd x x' m m' error⟫ ∗
      handle_own p fd h ∗ urbs fd x' m' ∗ opt_err r error }}.
Proof.
  iIntros "[Hh Hm]". iDestruct (handle_own_not_null with "Hh") as "[%Hp Hh]".
  unfold generic_handle_events. wp_steps. iApply (handle_own_load with "Hh").
  iIntros (pd _) "Hd Hfd Hclose". iDestruct ("Hclose" with "Hd Hfd") as "Hh". wp_step.
  wp_step. cbn [gh_fd].
  iApply (generic_handle_events_loop_spec with "[$Hh $Hm]"). lia.
Qed.
End specs.

(** ** Properties *)

Section properties.
Context `{OS : LinuxOS} {LAWS : LinuxLaws OS}.

Lemma completes_elsewhere x x' cs m m' l :
  completes x x' cs m m' → l ∉ c_urb <$> cs → m' !! l = m !! l.
Proof.
  induction 1 as [|c cs m m' u e Hu Hp He _ IH]; [done|]. rewrite fmap_cons not_elem_of_cons.
  intros [Hl Hcs]. rewrite (IH Hcs). by apply lookup_insert_ne.
Qed.

Lemma completes_pending x x' cs m m' l :
  completes x x' cs m m' → l ∈ c_urb <$> cs → ∃ u, m !! l = Some u ∧ ut_pending u = true.
Proof.
  induction 1 as [|c cs m m' u e Hu Hp He _ IH]; [by rewrite elem_of_nil|].
  rewrite fmap_cons elem_of_cons. intros [->|Hl]; [by exists u|].
  destruct (IH Hl) as (u' & Hu' & Hp'). destruct (decide (l = c_urb c)) as [->|Hne].
  - rewrite lookup_insert_eq in Hu'. by injection Hu' as <-.
  - rewrite lookup_insert_ne // in Hu'. by exists u'.
Qed.

Lemma completes_once x x' cs m m' : completes x x' cs m m' → NoDup (c_urb <$> cs).
Proof.
  induction 1 as [|c cs m m' u e Hu Hp He Hcs IH]; [constructor|].
  rewrite fmap_cons. constructor; [|done]. intros Hin.
  destruct (completes_pending _ _ _ _ _ _ Hcs Hin) as (u' & Hu' & Hp').
  rewrite lookup_insert_eq in Hu'. by injection Hu' as <-.
Qed.

(** The last state of a transfer that was finished. *)
Lemma completes_finished x x' cs m m' c :
  completes x x' cs m m' → c ∈ cs →
  ∃ u e, m !! c_urb c = Some u ∧ m' !! c_urb c = Some (finished c e u) ∧
    opt_errs x x' (transfer_failure (c_status c) (c_error_count c)) e.
Proof.
  induction 1 as [|c' cs m m' u e Hu Hp He Hcs IH]; [by rewrite elem_of_nil|].
  rewrite elem_of_cons. pose proof (completes_once _ _ (c' :: cs) m m' ltac:(by econstructor)) as Hnd.
  rewrite fmap_cons in Hnd. apply NoDup_cons in Hnd as [Hnotin _]. intros [->|Hin].
  - exists u, e. split_and!; [done| |done].
    by rewrite (completes_elsewhere _ _ _ _ _ _ Hcs Hnotin) lookup_insert_eq.
  - destruct (IH Hin) as (u' & e' & Hu' & Hm' & He'). exists u', e'. split_and!; [|done|done].
    rewrite lookup_insert_ne // in Hu'. intros E. apply Hnotin. rewrite E. by apply list_elem_of_fmap_2.
Qed.

(** C4. The event loop [generic_handle_events] always ends: every round takes one
    URB away from the kernel, and only transfers that were submitted and not
    reaped are handed out, each of them once.  When it returns, everything the
    kernel had finished was handled in the kernel's order: the transfers of the
    reaped URBs are not pending any more and hold the kernel's status, length and
    bytes (with an error for a bad status or error count), no other transfer
    changed, and the pending flags agree with what the kernel still has.  The
    result is no error when nothing is left to reap ([EAGAIN]) and the error of
    the system call otherwise. *)
Theorem generic_handle_events_finishes p fd h m x :
  {{ handle_own p fd h ∗ urbs fd x m }} generic_handle_events p @ x {{ r x',
    ∃ cs e m' error,
      ⟪reap_all (S (size (outstanding (x_trace x) fd))) fd (x_trace x) = Some (cs, e) ∧
       x_trace x' = EvReap fd None :: reaped_trace fd cs (x_trace x) ∧
       NoDup (c_urb <$> cs) ∧
       (∀ l, l ∉ c_urb <$> cs → m' !! l = m !! l) ∧
       (∀ c, c ∈ cs → ∃ u failure, m !! c_urb c = Some u ∧ ut_pending u = true ∧
          m' !! c_urb c = Some (finished c failure u) ∧
          opt_errs x x' (transfer_failure (c_status c) (c_error_count c)) failure) ∧
       opt_errs x x' (reap_error e) error⟫ ∗
      handle_own p fd h ∗ urbs fd x' m' ∗ opt_err r error }}.
Proof.
  iIntros "H". iApply (wp_wand with "[H]"); [by iApply generic_handle_events_spec|].
  iIntros (r x') "(%m' & %error & %H & H)". destruct H as (cs & e & Hr & Ht & _ & Hcs & He).
  iExists cs, e, m', error. iFrame "H". iPureIntro. split_and!; [done|done| | | |done].
  - by eapply completes_once.
  - intros l. by eapply completes_elsewhere.
  - intros c Hc. destruct (completes_finished _ _ _ _ _ _ Hcs Hc) as (u & f & Hu & Hm' & Hf).
    destruct (completes_pending _ _ _ _ _ (c_urb c) Hcs) as (u' & Hu' & Hp').
    { by apply list_elem_of_fmap_2. }
    rewrite Hu in Hu'. injection Hu' as <-. by exists u, f.
Qed.

(** C6. What the application gets out of a finished transfer: when the kernel
    completed the request with the bytes [c_data c] and their number, handling the
    completion and getting the results stores exactly these bytes at the start of
    the application's buffer (and leaves the rest of it alone), their number in
    [*transferred], and in [*transfer_error] a copy of the error that the status and
    the error count stand for (NULL when there is none). *)
Theorem finished_transfer_delivers l c u buffer old x :
  ut_pending u = true → c_actual_length c = Z.of_nat (List.length (c_data c)) →
  Z.of_nat (List.length (c_data c)) ≤ ut_size u → c_status c ≠ INT_MIN →
  is_null buffer = false → ut_size u ≤ Z.of_nat (List.length old) →
  {{ urb_own l (written c u) ∗ user_buffer buffer old }}
    (error ← handle_completed_urb (Heap l);
     results ← async_in_transfer_get_results (Heap l) buffer true true;
     mret (error, results)) @ x
  {{ r x', ∃ failure q, ⟪r = (NULL, (NULL, Some (Z.of_nat (List.length (c_data c))), q)) ∧
        x_trace x' = x_trace x ∧
        opt_errs x x' (transfer_failure (c_status c) (c_error_count c)) failure⟫ ∗
      urb_own l (finished c failure u) ∗ user_buffer buffer (overwrite (c_data c) old) ∗
      error_copied true q failure x x' }}.
Proof.
  iIntros (Hp Ha Hd Hs Hb Hold) "[Hu Hbuf]". wp_step.
  wp_call (handle_completed_urb_spec l (written c u) x Hp Hs).
  iIntros (r x1) "[-> (%e & %H & Hu)]". destruct H as [[Ht Ho] He].
  iDestruct (urb_own_wf with "Hu") as "[%Hwf Hu]".
  assert (Hr : received (finished c e u) = Z.of_nat (List.length (c_data c))).
  { destruct Hwf as (_ & _ & Hsz & _). unfold received. cbn in *. rewrite Ha.
    rewrite to_size_id; [lia|unfold INT_MAX, SIZE_MAX in *; lia]. }
  assert (Hrd : received_data (finished c e u) = Some <$> c_data c).
  { unfold received_data. rewrite Hr Nat2Z.id. cbn [finished set_state written ut_contents].
    unfold overwrite. by rewrite take_app_length' // length_fmap. }
  wp_step. change (set_state (written c u) false e) with (finished c e u).
  wp_call (async_in_transfer_get_results_spec l (finished c e u) buffer old true true x1 eq_refl
             ltac:(lia)).
  iIntros ([[r n] q] x2) "(%H2 & Hu & Hbuf & Hq)". destruct H2 as [H2 [Ht2 Ho2]].
  cbn [fst snd] in *. injection H2 as -> ->. wp_steps. iExists e, q. iFrame "Hu".
  rewrite ?Hb Hrd Hr. unfold copied. rewrite length_fmap. iFrame "Hbuf".
  iSplit; [|by iApply (error_copied_earlier with "Hq")].
  iPureIntro. split_and!; [done|congruence|by eapply opt_errs_mono; [| |exact He]].
Qed.

(** C7. The results of a transfer never leave the bounds of its buffer: whatever
    length the kernel reported (an [int], possibly negative or too large),
    [async_in_transfer_get_results] copies at most as many bytes as the transfer
    has, only initial bytes of the transfer's buffer, only into the same number of
    initial bytes of the application's buffer, and it reports the number it
    copied.  The transfer itself is unchanged. *)
Theorem async_in_transfer_get_results_bounded l u buffer old x :
  ut_pending u = false → is_null buffer = false → ut_size u ≤ Z.of_nat (List.length old) →
  {{ urb_own l u ∗ user_buffer buffer old }}
    async_in_transfer_get_results (Heap l) buffer true false @ x
  {{ r x', ∃ n, ⟪r = (NULL, Some n, None) ∧ x_trace x' = x_trace x ∧ 0 ≤ n ≤ ut_size u ∧
        (0 ≤ ut_actual u ≤ ut_size u → n = ut_actual u) ∧
        (ut_actual u < 0 ∨ ut_size u < ut_actual u → n = ut_size u)⟫ ∗
      urb_own l u ∗
      user_buffer buffer (take (Z.to_nat n) (ut_contents u) ++ drop (Z.to_nat n) old) }}.
Proof.
  iIntros (Hp Hb Hold) "[Hu Hbuf]". iDestruct (urb_own_wf with "Hu") as "[%Hwf Hu]".
  pose proof (received_range u Hwf) as Hr. pose proof (length_received_data u Hwf) as Hl.
  iApply (wp_wand with "[Hu Hbuf]").
  { iApply (async_in_transfer_get_results_spec l u buffer old true false x Hp ltac:(lia)). iFrame. }
  iIntros ([r q] x1) "(%H & Hu & Hbuf & %Hq)". destruct H as [Hn [Ht Ho]]. cbn [fst snd] in *.
  subst. iExists (received u). iFrame "Hu". rewrite Hb. unfold copied.
  rewrite (_ : List.length (received_data u) = Z.to_nat (received u)); [|lia]. iFrame "Hbuf".
  iPureIntro. destruct (received_cases u Hwf). split_and!; try done; lia.
Qed.

(** C21. Submitting an idle transfer hands it to the kernel, once: the URB is given
    with the transfer's endpoint, with the address of the buffer that the transfer
    owns, and with the size of this buffer.  On success the transfer
    is pending and its old error is gone; on failure it is not pending and
    holds the error of the system call (or one with [LIBUSBP_ERROR_MEMORY]).  In
    the latter case the length and the bytes of the previous run are still there:
    the next results are these bytes again, together with the error. *)
Theorem async_in_transfer_submit_outcomes fd m l u x :
  m !! l = Some u → ut_pending u = false →
  {{ fd_own fd ∗ urbs fd x m }}
    async_in_transfer_submit (Heap l);; async_in_transfer_pending (Heap l) @ x
  {{ r x', ∃ u',
      ⟪x_trace x' = EvSubmit fd l (ut_endpoint u) (ut_size u) (Heap (ut_buffer u))
                      (is_ok (os_submit (x_trace x) fd l)) :: x_trace x ∧
       match os_submit (x_trace x) fd l with
       | SysOk _ => r = true ∧ u' = set_state u true None
       | SysErr e => r = false ∧ received_data u' = received_data u ∧
           ∃ got, u' = set_state u false (Some got) ∧
             errs x x' (errno_error e "Submitting USB request block failed.") got
       end⟫ ∗
      fd_own fd ∗ urbs fd x' (<[l := u']> m) }}.
Proof.
  iIntros (Hl Hp) "H". wp_step. wp_call (submit_in_pool_spec fd m l u x Hl Hp).
  iIntros ([] x1) "[Hfd (%u' & %H & Hm)]". destruct H as (<- & Ht & Ho & Hu').
  iApply (wp_wand with "[Hm]"); [iApply (pending_in_pool_spec with "Hm"); apply lookup_insert_eq|].
  iIntros (r x2) "[%H Hm]". destruct H as [-> ->]. iExists u'. iFrame. iPureIntro. split; [done|].
  destruct (os_submit (x_trace x) (ut_fd u) l) as [n|e] eqn:E; [by subst|].
  destruct Hu' as (got & -> & He). split_and!; [done|done|]. by exists got.
Qed.

(** C22. [async_in_transfer_free] never takes the memory of a request away from the
    kernel: a pending transfer stays as it is, with its buffer, and any other is
    released completely, with its buffer and its error. *)
Theorem async_in_transfer_free_keeps_pending fd m l u x :
  m !! l = Some u →
  {{ urbs fd x m }} async_in_transfer_free (Heap l) @ x {{ r x',
    ⟪x' = x⟫ ∗ urbs fd x' (if ut_pending u then m else delete l m) }}.
Proof. apply free_in_pool_spec. Qed.
End properties.

(** ** On the example machine *)

#[local] Existing Instance Example_machine.machine.
#[local] Existing Instance Example_machine.machine_laws.

(** A transfer of four bytes on the pipe 0x81. *)
Definition example_buffer_loc : loc := 10%positive.
Definition example_urb (pending : bool) : urb :=
  Urb 3 0x81 4 (replicate 4 None) 0 0 0 pending None example_buffer_loc.

Definition example_loc : loc := 7%positive.
Definition example_completion : completion :=
  {| c_urb := example_loc; c_status := 0; c_actual_length := 2; c_error_count := 0;
     c_data := ["o"%char; "k"%char] |}.

(** The request was submitted. *)
Definition submitted_ext : ext := Ext [EvSubmit 3 example_loc 0x81 4 (Heap example_buffer_loc) true] 0 0.

Lemma generic_handle_events_finishes_witness :
  let m := {[example_loc := example_urb true]} in
  kernel_agrees 3 submitted_ext m ∧
  reap_all 2 3 (x_trace submitted_ext) = Some ([example_completion], EAGAIN) ∧
  {{ handle_own example_ptr 3 example_handle ∗ urbs 3 submitted_ext m }}
    generic_handle_events example_ptr @ submitted_ext
  {{ r x', ∃ cs e m' error,
      ⟪reap_all (S (size (outstanding (x_trace submitted_ext) 3))) 3 (x_trace submitted_ext) = Some (cs, e) ∧
       x_trace x' = EvReap 3 None :: reaped_trace 3 cs (x_trace submitted_ext) ∧
       NoDup (c_urb <$> cs) ∧
       (∀ l, l ∉ c_urb <$> cs → m' !! l = m !! l) ∧
       (∀ c, c ∈ cs → ∃ u failure, m !! c_urb c = Some u ∧ ut_pending u = true ∧
          m' !! c_urb c = Some (finished c failure u) ∧
          opt_errs submitted_ext x' (transfer_failure (c_status c) (c_error_count c)) failure) ∧
       opt_errs submitted_ext x' (reap_error e) error⟫ ∗
      handle_own example_ptr 3 example_handle ∗ urbs 3 x' m' ∗ opt_err r error }}.
Proof.
  intros m. split_and!; [by vm_compute|by vm_compute|].
  exact (generic_handle_events_finishes example_ptr 3 example_handle m submitted_ext).
Defined.

Lemma finished_transfer_delivers_witness :
  let u := example_urb true in let c := example_completion in
  let old := replicate 4 (Some nul) in
  overwrite (c_data c) old = [Some "o"%char; Some "k"%char; Some nul; Some nul] ∧
  {{ urb_own example_loc (written c u) ∗ user_buffer (Heap 9%positive) old }}
    (error ← handle_completed_urb (Heap example_loc);
     results ← async_in_transfer_get_results (Heap example_loc) (Heap 9%positive) true true;
     mret (error, results)) @ submitted_ext
  {{ r x', ∃ failure q, ⟪r = (NULL, (NULL, Some 2, q)) ∧
        x_trace x' = x_trace submitted_ext ∧
        opt_errs submitted_ext x' (transfer_failure 0 0) failure⟫ ∗
      urb_own example_loc (finished c failure u) ∗
      user_buffer (Heap 9%positive) (overwrite (c_data c) old) ∗
      error_copied true q failure submitted_ext x' }}.
Proof.
  intros u c old. split; [done|].
  apply (finished_transfer_delivers example_loc c u (Heap 9%positive) old submitted_ext);
    done.
Defined.

Lemma async_in_transfer_get_results_bounded_witness :
  let u := Urb 3 0x81 4 (replicate 4 (Some nul)) 0 (-1) 0 false None example_buffer_loc in
  let old := replicate 6 None in
  received u = 4 ∧
  {{ urb_own example_loc u ∗ user_buffer (Heap 9%positive) old }}
    async_in_transfer_get_results (Heap example_loc) (Heap 9%positive) true false @ empty_ext
  {{ r x', ∃ n, ⟪r = (NULL, Some n, None) ∧ x_trace x' = [] ∧ 0 ≤ n ≤ 4 ∧
        (0 ≤ -1 ≤ 4 → n = -1) ∧ (-1 < 0 ∨ 4 < -1 → n = 4)⟫ ∗
      urb_own example_loc u ∗
      user_buffer (Heap 9%positive) (take (Z.to_nat n) (ut_contents u) ++ drop (Z.to_nat n) old) }}.
Proof.
  intros u old. split; [done|].
  apply (async_in_transfer_get_results_bounded example_loc u (Heap 9%positive) old empty_ext); done.
Defined.

Lemma async_in_transfer_submit_outcomes_witness :
  let u := example_urb false in let m := {[example_loc := u]} in
  kernel_agrees 3 empty_ext m ∧ os_submit [] 3 example_loc = SysOk 0 ∧
  {{ fd_own 3 ∗ urbs 3 empty_ext m }}
    async_in_transfer_submit (Heap example_loc);; async_in_transfer_pending (Heap example_loc) @ empty_ext
  {{ r x', ∃ u',
      ⟪x_trace x' = EvSubmit 3 example_loc (ut_endpoint u) (ut_size u) (Heap (ut_buffer u))
                      (is_ok (os_submit (x_trace empty_ext) 3 example_loc)) :: x_trace empty_ext ∧
       match os_submit (x_trace empty_ext) 3 example_loc with
       | SysOk _ => r = true ∧ u' = set_state u true None
       | SysErr e => r = false ∧ received_data u' = received_data u ∧
           ∃ got, u' = set_state u false (Some got) ∧
             errs empty_ext x' (errno_error e "Submitting USB request block failed.") got
       end⟫ ∗
      fd_own 3 ∗ urbs 3 x' (<[example_loc := u']> m) }}.
Proof.
  intros u m. split_and!; [by vm_compute|done|].
  exact (async_in_transfer_submit_outcomes 3 m example_loc u empty_ext eq_refl eq_refl).
Defined.

Lemma async_in_transfer_free_keeps_pending_witness :
  let m := {[example_loc := example_urb true]} in
  kernel_agrees 3 submitted_ext m ∧
  {{ urbs 3 submitted_ext m }} async_in_transfer_free (Heap example_loc) @ submitted_ext {{ r x',
    ⟪x' = submitted_ext⟫ ∗ urbs 3 x' m }}.
Proof.
  intros m. split; [by vm_compute|].
  apply (async_in_transfer_free_keeps_pending 3 m example_loc (example_urb true) submitted_ext).
  done.
Defined.
