(* ===== verification/AsyncPipeLinux.v ===== *)
(** * AsyncPipeLinux: asynchronous pipes on Linux

    The transfers of src/src/linux/async_in_transfer_linux.c, with the event loop of
    src/src/linux/generic_handle_linux.c, keep the contract of AsyncTransfer.v, so
    everything proved in AsyncPipe.v holds for pipes on Linux.  The function of
    generic_handle_linux.c that opens a pipe is here too. *)

From S2P Require Import Prelude Memory Logic Format Errors Results Basics Strings Buffers AsyncTransfer AsyncPipe Pool LinuxOS ErrnoLinux UdevLinux DeviceLinux UsbfdLinux InterfaceLinux HandleLinux TransferLinux.
#[local] Set Warnings "-rewrite-rw".

Section code.
Context `{OS : LinuxOS}.

(** [generic_handle_events] and the functions of async_in_transfer_linux.c. *)
#[export] Instance linux_transfers : AsyncTransfers := {
  tr_setup := async_in_pipe_setup;
  tr_create := async_in_transfer_create;
  tr_free := async_in_transfer_free;
  tr_submit := async_in_transfer_submit;
  tr_get_results := async_in_transfer_get_results;
  tr_cancel := async_in_transfer_cancel;
  tr_pending := async_in_transfer_pending;
  tr_events := generic_handle_events;
  tr_cancels_each := true
}.

Definition libusbp_generic_handle_open_async_in_pipe (handle : ptr) (pipe_id : Z)
    (pipe_given : bool) : M (ptr * option ptr) :=
  async_in_pipe_create handle pipe_id pipe_given.
End code.

(** ** The contract *)

(** What a pipe sees of an URB. *)
Definition transfer_of (u : urb) : transfer :=
  Transfer (ut_size u) (if ut_pending u then Pending else Finished (received_data u) (ut_error u)).

Lemma is_pending_of u : is_pending (transfer_of u) = ut_pending u.
Proof. unfold transfer_of, is_pending. cbn. by destruct (ut_pending u). Qed.

Lemma transfer_of_wf u : urb_wf u → transfer_wf (transfer_of u).
Proof.
  intros Hu. pose proof (length_received_data u Hu). pose proof (received_range u Hu).
  destruct Hu as (_ & _ & ? & _). split; [cbn; lia|]. unfold transfer_of. cbn.
  destruct (ut_pending u); [done|]. lia.
Qed.

Lemma transfers_lookup (m : gmap loc urb) l t :
  (transfer_of <$> m) !! l = Some t → ∃ u, m !! l = Some u ∧ t = transfer_of u.
Proof. rewrite lookup_fmap fmap_Some. done. Qed.

Lemma handle_own_fd p fd h : handle_own p fd h ⊢ fd_own fd ∗ (fd_own fd -∗ handle_own p fd h).
Proof.
  iIntros "(%l & %pd & %H & Hl & Hd & $)". iIntros "Hfd". iExists l, pd. by iFrame.
Qed.

Lemma kernel_agrees_calm fd x x' m : calm x x' → kernel_agrees fd x m → kernel_agrees fd x' m.
Proof. apply agrees_calm. Qed.

Section laws.
Context `{OS : LinuxOS} {LAWS : LinuxLaws OS}.

(** Reaping finishes pending transfers. *)
Lemma completes_settled x x' cs m m' :
  completes x x' cs m m' → settled (transfer_of <$> m) (transfer_of <$> m').
Proof.
  induction 1 as [|c cs m m' u e Hu Hp He _ IH]; [done|]. etrans; [|exact IH]. rewrite fmap_insert.
  apply (settled_insert _ _ (transfer_of u)); [by rewrite lookup_fmap Hu|]. right.
  rewrite !is_pending_of. done.
Qed.

Definition linux_handle (p : ptr) (k : Z * handle) : hProp := handle_own p k.1 k.2.
Definition linux_pool (k : Z * handle) (x : ext) (M : gmap loc transfer) : hProp :=
  (∃ m, ⟪transfer_of <$> m = M⟫ ∗ urbs k.1 x m)%I.

Lemma linux_pool_intro k x m : urbs k.1 x m ⊢ linux_pool k x (transfer_of <$> m).
Proof. iIntros "H". iExists m. by iFrame. Qed.

Lemma linux_wf k x M :
  linux_pool k x M ⊢ ⌜map_Forall (λ _, transfer_wf) M⌝ ∧ linux_pool k x M.
Proof.
  iIntros "(%m & <- & Hm)". iDestruct (urbs_wf with "Hm") as "[[_ %Hwf] Hm]". iSplit.
  - iPureIntro. intros l t Ht. apply transfers_lookup in Ht as (u & Hu & ->).
    by apply transfer_of_wf, (Hwf l).
  - by iApply linux_pool_intro.
Qed.

Lemma linux_calm k x x' M : calm x x' → linux_pool k x M ⊢ linux_pool k x' M.
Proof. iIntros (Hc) "(%m & <- & Hm)". iApply linux_pool_intro. by iApply urbs_calm. Qed.

Lemma linux_setup p k n x :
  {{ linux_handle p k }} async_in_pipe_setup p n @ x {{ r x',
    ⟪calm x x'⟫ ∗ linux_handle p k ∗ some_error r }}.
Proof.
  iIntros "H". unfold async_in_pipe_setup. wp_steps. iSplit; [by iPureIntro|]. iFrame. by iExists None.
Qed.

Lemma new_transfer_of_linux fd n size buffer :
  0 < size → transfer_of (new_transfer fd n size buffer) = Transfer size (Finished [] None).
Proof.
  intros Hs. unfold transfer_of, new_transfer, received_data, received. cbn [ut_size ut_pending ut_contents ut_error ut_actual].
  by rewrite Z.min_l; [|change (to_size 0) with 0; lia].
Qed.

Lemma linux_create p k n size M x :
  u8 n → is_in n = true → 0 < size →
  {{ linux_handle p k ∗ linux_pool k x M }} async_in_transfer_create p n size @ x {{ r x',
    linux_handle p k ∗
    ((∃ l, ⟪r = (NULL, Some (Heap l)) ∧ M !! l = None⟫ ∗
       linux_pool k x' (<[l := Transfer size (Finished [] None)]> M)) ∨
     (∃ a, ⟪r.2 = None⟫ ∗ err_own r.1 a ∗ linux_pool k x' M)) }}.
Proof.
  iIntros (Hn Hin Hsz) "[Hh (%m & <- & Hm)]".
  wp_call (async_in_transfer_create_spec p k.1 k.2 n size x Hn Hin Hsz).
  iIntros ([e o] x1) "[$ [(%u & %H & (%l & %buffer & %Ho & Hu))|(%a & %H & He & %Ho)]]"; cbn [fst snd] in *; subst o.
  - destruct H as (-> & Hc & Hs). unfold s_transfer_create in Hs.
    destruct (INT_MAX <? size); [done|]. injection Hs as <- _.
    iDestruct (pool_insert_new _ _ _ k.1 x x1 m l with "Hm Hu") as "[%Hl Hm]";
      [apply urb_own_exclusive|done|done|done|].
    iLeft. iExists l. iSplit; [by rewrite lookup_fmap Hl|].
    iDestruct (linux_pool_intro with "Hm") as "Hm". by rewrite fmap_insert new_transfer_of_linux.
  - iRight. iExists a. iSplit; [done|]. iFrame "He". destruct H as [Hc _].
    iApply linux_pool_intro. by iApply urbs_calm.
Qed.

Lemma linux_free_null x Q : Q tt x ⊢ wp (async_in_transfer_free NULL) x Q.
Proof. iIntros "H". unfold async_in_transfer_free. by wp_steps. Qed.

Lemma linux_free k l t M x :
  M !! l = Some t →
  {{ linux_pool k x M }} async_in_transfer_free (Heap l) @ x {{ r x',
    ∃ M', ⟪M' = delete l M ∨ (is_pending t = true ∧ M' = M)⟫ ∗ linux_pool k x' M' }}.
Proof.
  iIntros (Ht) "(%m & <- & Hm)". apply transfers_lookup in Ht as (u & Hu & ->).
  rewrite is_pending_of. iApply (wp_wand with "[Hm]"); [by iApply (free_in_pool_spec k.1 m l u x Hu)|].
  iIntros ([] x') "[-> Hm]". iDestruct (linux_pool_intro with "Hm") as "Hm". iExists _. iFrame "Hm".
  iPureIntro. destruct (ut_pending u); [by right|]. left. by rewrite fmap_delete.
Qed.

Lemma linux_submit p k l t M x :
  M !! l = Some t → is_pending t = false →
  {{ linux_handle p k ∗ linux_pool k x M }} async_in_transfer_submit (Heap l) @ x {{ r x',
    linux_handle p k ∗ ∃ t', ⟪tr_size t' = tr_size t⟫ ∗ linux_pool k x' (<[l := t']> M) }}.
Proof.
  iIntros (Ht Hp) "[Hh (%m & <- & Hm)]". apply transfers_lookup in Ht as (u & Hu & ->).
  rewrite is_pending_of in Hp. iDestruct (handle_own_fd with "Hh") as "[Hfd Hh]".
  iApply (wp_wand with "[Hfd Hm]"); [iApply (submit_in_pool_spec k.1 m l u x Hu Hp); iFrame|].
  iIntros ([] x') "[Hfd (%u' & %H & Hm)]". destruct H as (_ & _ & _ & H).
  iDestruct (linux_pool_intro with "Hm") as "Hm". rewrite fmap_insert.
  iSplitL "Hfd Hh"; [by iApply "Hh"|]. iExists _. iFrame "Hm". iPureIntro.
  destruct (os_submit _ _ _); [by subst|]. by destruct H as (got & -> & _).
Qed.

Lemma linux_pending p k l t M x :
  M !! l = Some t →
  {{ linux_handle p k ∗ linux_pool k x M }} async_in_transfer_pending (Heap l) @ x {{ r x',
    linux_handle p k ∗ ∃ t', ⟪settles t t' ∧ r = is_pending t'⟫ ∗ linux_pool k x' (<[l := t']> M) }}.
Proof.
  iIntros (Ht) "[Hh (%m & <- & Hm)]". pose proof Ht as Hl. apply transfers_lookup in Ht as (u & Hu & ->).
  iApply (wp_wand with "[Hm]"); [by iApply (pending_in_pool_spec k.1 m l u x Hu)|].
  iIntros (r x') "[%H Hm]". destruct H as [-> ->]. iFrame "Hh". iExists (transfer_of u). rewrite insert_id //.
  iSplit; [by rewrite is_pending_of; iPureIntro; split; [left|]|]. by iApply linux_pool_intro.
Qed.

Lemma linux_results k l size data error M buffer old g1 g2 x :
  M !! l = Some (Transfer size (Finished data error)) →
  (is_null buffer = false → (List.length data ≤ List.length old)%nat) →
  {{ linux_pool k x M ∗ user_buffer buffer old }}
    async_in_transfer_get_results (Heap l) buffer g1 g2 @ x
  {{ r x', ⟪r.1 = (NULL, out g1 (Z.of_nat (List.length data))) ∧ quiet x x'⟫ ∗ linux_pool k x' M ∗
     user_buffer buffer (if is_null buffer then old else copied data old) ∗
     error_copied g2 r.2 error x x' }}.
Proof.
  iIntros (Ht Hold) "[(%m & <- & Hm) Hbuf]". apply transfers_lookup in Ht as (u & Hu & E).
  unfold transfer_of in E. destruct (ut_pending u) eqn:Hp; [done|]. injection E as -> -> ->.
  iDestruct (urbs_wf with "Hm") as "[[%Ha %Hwf] Hm]".
  pose proof (length_received_data u (Hwf l u Hu)) as Hlen. rewrite Hlen.
  iDestruct (urbs_take _ _ _ _ _ Hu with "Hm") as "(%Hfd & Hu & Hclose)".
  iApply (wp_wand with "[Hu Hbuf]").
  { iApply (async_in_transfer_get_results_spec l u buffer old g1 g2 x Hp); [|iFrame].
    intros Hb. specialize (Hold Hb). lia. }
  iIntros (r x') "(%H & Hu & $ & $)". destruct H as [Hr Hq]. iSplit; [done|].
  iApply linux_pool_intro. iDestruct ("Hclose" $! x' u with "[%] Hu") as "H"; rewrite insert_id //.
  split; [done|]. by eapply kernel_agrees_calm; [apply quiet_calm|].
Qed.

Lemma linux_cancel p k l t M x :
  M !! l = Some t →
  {{ linux_handle p k ∗ linux_pool k x M }} async_in_transfer_cancel (Heap l) @ x {{ r x',
    linux_handle p k ∗ linux_pool k x' M ∗ some_error r }}.
Proof.
  iIntros (Ht) "[Hh (%m & <- & Hm)]". apply transfers_lookup in Ht as (u & Hu & ->).
  iDestruct (handle_own_fd with "Hh") as "[Hfd Hh]".
  iDestruct (urbs_wf with "Hm") as "[[%Ha _] Hm]".
  iDestruct (urbs_take _ _ _ _ _ Hu with "Hm") as "(%Hfd & Hu & Hclose)".
  pose proof (async_in_transfer_cancel_spec l u x) as Hc. rewrite Hfd in Hc. wp_call Hc. clear Hc.
  iIntros (r x') "(Hu & Hfd & H)". iSplitL "Hfd Hh"; [by iApply "Hh"|].
  iDestruct (returns_some_error with "H") as "[%Hc $]".
  iApply linux_pool_intro. iDestruct ("Hclose" $! x' u with "[%] Hu") as "H"; rewrite insert_id //.
  split; [done|]. by eapply kernel_agrees_calm.
Qed.

Lemma linux_events p k M x :
  {{ linux_handle p k ∗ linux_pool k x M }} generic_handle_events p @ x {{ r x',
    ∃ M', ⟪settled M M'⟫ ∗ linux_handle p k ∗ linux_pool k x' M' ∗ some_error r }}.
Proof.
  iIntros "[Hh (%m & <- & Hm)]". iApply (wp_wand with "[Hh Hm]").
  { iApply (generic_handle_events_spec p k.1 k.2 m x). iFrame. }
  iIntros (r x') "(%m' & %error & %H & $ & Hm & He)". destruct H as (cs & e & _ & _ & _ & Hcs & _).
  iExists _. iSplit; [iPureIntro; by eapply completes_settled|]. iSplitL "Hm"; [by iApply linux_pool_intro|].
  by iExists error.
Qed.
End laws.

#[export] Instance linux_laws `{OS : LinuxOS} {LAWS : LinuxLaws OS} : AsyncTransferLaws linux_transfers := {
  handle_res := linux_handle;
  pool := linux_pool;
  law_handle p k := handle_own_not_null p k.1 k.2;
  law_wf := linux_wf;
  law_calm := linux_calm;
  law_setup := linux_setup;
  law_create := linux_create;
  law_free_null := linux_free_null;
  law_free := linux_free;
  law_submit := linux_submit;
  law_pending := linux_pending;
  law_results := linux_results;
  law_cancel := linux_cancel;
  law_events := linux_events
}.

(** ** On the example machine

    A pipe with two transfers of four bytes, the first one in flight. *)

#[local] Existing Instance Example_machine.machine.
#[local] Existing Instance Example_machine.machine_laws.

Definition example_key : Z * handle := (3, example_handle).
Definition example_pipe : ptr := Heap 6%positive.
Definition example_buffer : loc := 9%positive.
Definition example_old : list (option ascii) := replicate 4 None.
Definition example_slots : list loc := [7%positive; 8%positive].

Definition example_urbs : gmap loc urb :=
  {[7%positive := example_urb true; 8%positive := new_transfer 3 0x81 4 11%positive]}.
Definition example_state : state :=
  State true (Ring example_slots 4 0 1) (transfer_of <$> example_urbs).

(** The state can occur: the kernel has exactly the first transfer. *)
Lemma example_state_ok :
  state_ok example_state ∧ kernel_agrees 3 submitted_ext example_urbs.
Proof.
  split; [split|by vm_compute].
  - split_and!; try (vm_compute; done); [cbn; lia..|]. apply (bool_decide_unpack _). by vm_compute.
  - intros [|[|i]] l Hl; cbn in Hl; [injection Hl as <-..|done].
    + exists (transfer_of (example_urb true)). split_and!; [done..|]. intros []. by left.
    + exists (transfer_of (new_transfer 3 0x81 4 11%positive)). by split_and!.
Qed.

Lemma async_in_pipe_fifo_witness :
  state_ok example_state ∧
  {{ pipe_at example_pipe example_ptr example_key 0x81 submitted_ext example_state ∗
     example_buffer ↦ OChars example_old }}
    run_calls example_pipe (Heap example_buffer) [HandleEvents; HandleFinishedTransfer] @ submitted_ext
  {{ r x', ∃ ls s' old',
      ⟪steps example_state ls s' ∧ r = delivered ls ∧
       [0%nat] ++ submitted_slots ls = finished_slots ls ++ queue (s_ring s') ∧
       submitted_slots ls =
         round_robin (s_ring example_state) 1 (List.length (submitted_slots ls)) ∧
       state_ok s'⟫ ∗
      pipe_at example_pipe example_ptr example_key 0x81 x' s' ∗ example_buffer ↦ OChars old' }}.
Proof.
  split; [apply example_state_ok|].
  exact (async_in_pipe_fifo [HandleEvents; HandleFinishedTransfer] example_pipe example_ptr
           example_key 0x81 submitted_ext example_state example_buffer example_old ltac:(done)).
Defined.

Lemma handle_finished_transfer_outcomes_witness :
  state_ok example_state ∧
  {{ pipe_at example_pipe example_ptr example_key 0x81 submitted_ext example_state ∗
     user_buffer (Heap example_buffer) example_old }}
    libusbp_async_in_pipe_handle_finished_transfer example_pipe true (Heap example_buffer) true true
    @ submitted_ext
  {{ r x', ∃ s',
     (⟪r = (NULL, Some false, Some 0, Some NULL) ∧
       s_endless s' = true ∧ s_ring s' = s_ring example_state ∧
       settled (s_transfers example_state) (s_transfers s') ∧
       (first_in_flight s' = None ∨ ∃ t, first_in_flight s' = Some t ∧ is_pending t = true)⟫ ∗
      user_buffer (Heap example_buffer) example_old ∨
      ∃ data error q ls,
       ⟪r = (NULL, Some true, Some (Z.of_nat (List.length data)), Some q) ∧
        Z.of_nat (List.length data) ≤ 4 ∧
        steps example_state (Finishes 0 data error :: ls) s' ∧ finished_slots ls = [] ∧
        r_queued (s_ring s') = 1%nat⟫ ∗
       user_buffer (Heap example_buffer) (data ++ drop (List.length data) example_old) ∗
       match error with
       | Some a => ∃ got, ⟪got = a ∨ mem_err got⟫ ∗ err_own q got
       | None => ⟪q = NULL⟫
       end) ∗
     pipe_at example_pipe example_ptr example_key 0x81 x' s' }}.
Proof.
  split; [apply example_state_ok|].
  exact (handle_finished_transfer_outcomes example_pipe example_ptr example_key 0x81 submitted_ext
           example_state (Heap example_buffer) example_old eq_refl ltac:(done)).
Defined.

Lemma start_endless_fills_the_queue_witness :
  state_ok example_state ∧
  {{ pipe_at example_pipe example_ptr example_key 0x81 submitted_ext example_state }}
    libusbp_async_in_pipe_start_endless_transfers example_pipe @ submitted_ext
  {{ r x', ∃ ls s', ⟪r = NULL ∧ steps example_state ls s' ∧ s_endless s' = true ∧
       queue (s_ring s') = [0%nat] ++ submitted_slots ls ∧
       List.length (submitted_slots ls) = 1%nat ∧
       (∀ i, (i < 2)%nat → i ∈ queue (s_ring s'))⟫ ∗
      pipe_at example_pipe example_ptr example_key 0x81 x' s' }}.
Proof.
  split; [apply example_state_ok|].
  exact (start_endless_fills_the_queue example_pipe example_ptr example_key 0x81 submitted_ext
           example_state).
Defined.

Lemma cancelled_pipe_drains_witness :
  state_ok example_state ∧
  {{ pipe_at example_pipe example_ptr example_key 0x81 submitted_ext example_state ∗
     example_buffer ↦ OChars example_old }}
    run_calls example_pipe (Heap example_buffer) [CancelTransfers; HandleEvents; HandleFinishedTransfer]
    @ submitted_ext
  {{ r x', ∃ ls s' old',
      ⟪steps example_state ls s' ∧ r = delivered ls ∧ submitted_slots ls = [] ∧
       [0%nat] = finished_slots ls ++ queue (s_ring s') ∧ s_endless s' = false⟫ ∗
      pipe_at example_pipe example_ptr example_key 0x81 x' s' ∗ example_buffer ↦ OChars old' }}.
Proof.
  split; [apply example_state_ok|].
  exact (cancelled_pipe_drains [HandleEvents; HandleFinishedTransfer] example_pipe example_ptr
           example_key 0x81 submitted_ext example_state example_buffer example_old ltac:(done)
           ltac:(repeat constructor; done)).
Defined.

Lemma allocate_transfers_atomic_witness :
  (0 < 2) ∧
  {{ fresh_pipe_own example_pipe example_ptr 0x81 ∗ linux_handle example_ptr example_key ∗
     linux_pool example_key empty_ext ∅ }}
    libusbp_async_in_pipe_allocate_transfers example_pipe 2 4 @ empty_ext
  {{ r x',
     (∃ s, ⟪r = NULL ∧ Z.of_nat (r_count (s_ring s)) = 2 ∧ r_size (s_ring s) = 4 ∧
         queue (s_ring s) = [] ∧ s_endless s = false ∧
         (∀ l, l ∉ r_slots (s_ring s) → s_transfers s !! l = (∅ : gmap loc transfer) !! l) ∧
         (∀ l, l ∈ r_slots (s_ring s) → (∅ : gmap loc transfer) !! l = None ∧
            s_transfers s !! l = Some (Transfer 4 (Finished [] None)))⟫ ∗
        pipe_at example_pipe example_ptr example_key 0x81 x' s) ∨
     (∃ a, ⟪allocation_error a⟫ ∗ err_own r a ∗
        fresh_pipe_own example_pipe example_ptr 0x81 ∗ linux_handle example_ptr example_key ∗
        linux_pool example_key x' ∅) }}.
Proof.
  split; [done|].
  exact (allocate_transfers_atomic example_pipe example_ptr example_key 0x81 2 4 ∅ empty_ext
           eq_refl eq_refl).
Defined.

Lemma close_frees_all_but_pending_witness :
  state_ok example_state ∧
  {{ pipe_at example_pipe example_ptr example_key 0x81 submitted_ext example_state }}
    libusbp_async_in_pipe_close example_pipe @ submitted_ext
  {{ r x', ∃ m', ⟪(∀ l, l ∉ example_slots → m' !! l = s_transfers example_state !! l) ∧
           (∀ l t, m' !! l = Some t → l ∈ example_slots →
              s_transfers example_state !! l = Some t ∧ is_pending t = true)⟫ ∗
      linux_handle example_ptr example_key ∗ linux_pool example_key x' m' }}.
Proof.
  split; [apply example_state_ok|].
  exact (close_frees_all_but_pending example_pipe example_ptr example_key 0x81 submitted_ext
           example_state).
Defined.

Lemma async_in_pipe_create_validates_witness :
  u8 0x81 ∧
  {{ linux_handle example_ptr example_key }}
    libusbp_generic_handle_open_async_in_pipe example_ptr 0x81 true @ empty_ext
  {{ r x', linux_handle example_ptr example_key ∗
    ((∃ lp, ⟪r = (NULL, Some (Heap lp)) ∧ 0x81 ≤ 0x81 ≤ 0x8F⟫ ∗
        lp ↦ OPipe (fresh_struct example_ptr 0x81)) ∨
     (∃ a, ⟪r.2 = Some NULL ∧
        (0 ≤ 0x81 ≤ 15 → errs empty_ext x' out_not_supported a) ∧
        (¬ 0 ≤ 0x81 ≤ 15 → ¬ 0x81 ≤ 0x81 ≤ 0x8F → errs empty_ext x' (invalid_pipe_id 0x81) a)⟫ ∗
        err_own r.1 a)) }}.
Proof.
  assert (Hu : u8 0x81) by (split; done). split; [exact Hu|].
  exact (async_in_pipe_create_validates example_ptr example_key 0x81 empty_ext Hu).
Defined.

Lemma pipe_misuse_is_rejected_witness :
  2 ≠ 0 ∧
  {{ fresh_pipe_own example_pipe example_ptr 0x81 }}
    libusbp_async_in_pipe_allocate_transfers example_pipe 2 0 @ empty_ext
  {{ r x', misuse_error r "Transfer size cannot be zero." empty_ext x' ∗
     fresh_pipe_own example_pipe example_ptr 0x81 }}.
Proof.
  assert (H : 2 ≠ 0) by done. split; [exact H|].
  exact (proj1 (proj2 (proj2 (proj2 (pipe_misuse_is_rejected example_pipe example_ptr example_key
           0x81 2 4 example_state empty_ext)))) H).
Defined.

Lemma pipe_session_leaves_only_pending_witness :
  u8 0x81 ∧
  {{ linux_handle example_ptr example_key ∗ linux_pool example_key empty_ext ∅ ∗
     example_buffer ↦ OChars example_old }}
    pipe_session example_ptr 0x81 2 4 (Heap example_buffer)
      [StartEndlessTransfers; HandleEvents; HandleFinishedTransfer; CancelTransfers] @ empty_ext
  {{ r x', ∃ m' old',
      ⟪only_pending_left ∅ m' ∧ List.length old' = 4%nat⟫ ∗
      linux_handle example_ptr example_key ∗ linux_pool example_key x' m' ∗
      example_buffer ↦ OChars old' }}.
Proof.
  assert (Hu : u8 0x81) by (split; done). split; [exact Hu|].
  exact (pipe_session_leaves_only_pending example_ptr example_key 0x81 2 4
           [StartEndlessTransfers; HandleEvents; HandleFinishedTransfer; CancelTransfers]
           example_buffer example_old ∅ empty_ext Hu eq_refl eq_refl ltac:(done)).
Defined.
