(* ===== verification/ErrorHresult.v ===== *)
(** * ErrorHresult: errors from [HRESULT] codes (src/src/error_hresult.c)

    Shared by the backends for macOS and Windows. *)

From S2P Require Import Prelude Memory Logic Format Errors Results.
#[local] Set Warnings "-rewrite-rw".

(** [text] is what the format and its arguments render to. *)
Definition error_create_hr (hr : Z) (text : string) : M ptr :=
  error ← error_create ("HRESULT error code 0x" +:+ fmt_x 1 (to_u32 hr) +:+ ".");
  error_add_v error (Some text).

Definition hr_error (n : Z) (text : string) : aerr :=
  err_add (err_new ("HRESULT error code 0x" +:+ fmt_x 1 (to_u32 n) +:+ ".")) text.
Lemma error_create_hr_spec n text x :
  no_nul text = true →
  {{ emp }} error_create_hr n text @ x {{ r x', err_res r (hr_error n text) x x' }}.
Proof.
  iIntros (Ht) "_". unfold error_create_hr. wp_steps.
  iApply wp_error_create; [by rewrite !no_nul_app no_nul_fmt_x|]. iIntros (r x1 _) "H".
  wp_steps. by iApply error_add_res.
Qed.

(** As a rule. *)
Lemma wp_error_create_hr n text x Q :
  no_nul text = true →
  (∀ r x', ⌜is_null r = false⌝ → err_res r (hr_error n text) x x' -∗ Q r x') ⊢
  wp (error_create_hr n text) x Q.
Proof. iIntros (Hs) "HQ". iApply (wp_err_res with "[] HQ"). by iApply error_create_hr_spec. Qed.
