(* ===== verification/MacOS.v ===== *)
(** * MacOS: IOKit and Core Foundation as the macOS code sees them

    [MacOS] collects the answers of the system; an answer can depend on everything
    that happened before.  An [io_service_t] is a reference to a registry entry,
    which is named by its 64-bit ID; references, iterators, property objects,
    plug-ins and interfaces are blocks that have to be released.  A
    [kern_return_t] is given by its 32-bit pattern.  [MacLaws] states the documented
    behaviour that the code relies on. *)

From S2P Require Import Prelude Memory Logic Errors Results Buffers.
#[local] Set Warnings "-rewrite-rw".

Definition KERN_SUCCESS : Z := 0.
Definition MACH_RCV_TIMED_OUT : Z := 0x10004003.
Definition MACH_RCV_TOO_LARGE : Z := 0x10004004.

(** The plug-in type and the interface that [service_to_interface] asks for. *)
Inductive io_kind := DeviceKind | InterfaceKind.

(** The properties of a pipe that the library looks at. *)
Record pipe_properties := {
  pp_direction : Z;
  pp_endpoint_number : Z
}.

(** A message on an asynchronous port: the transfer (the callback's context), the
    result, the callback's argument, and what was written to the buffer. *)
Record mac_message := {
  m_transfer : loc;
  m_kr : Z;
  m_arg0 : Z;
  m_data : list ascii
}.

Class MacOS := {
  mac_error_string : Z → string;
  mac_id_matching : list event → Z → bool;
  mac_matching_service : list event → Z → bool;
  mac_matching : list event → string → bool;
  mac_matching_services : list event → string → Z * list Z;
  mac_children : list event → Z → Z * list Z;
  mac_descendants : list event → Z → Z * list Z;
  mac_conforms : Z → string → bool;
  mac_property : list event → Z → string → option cf_value;
  mac_registry_id : list event → Z → Z;
  mac_plug_in : list event → Z → io_kind → Z;
  mac_query : list event → Z → io_kind → Z;
  mac_get_configuration : list event → Z → Z * Z;
  mac_device_open : list event → Z → Z;
  mac_set_configuration : list event → Z → Z → Z;
  mac_interface_open : list event → Z → Z;
  mac_num_endpoints : list event → Z → Z * Z;
  mac_pipe_properties : list event → Z → Z → Z * pipe_properties;
  mac_async_port : list event → Z → Z * Z;
  mac_control : list event → Z → IOUSBDevRequestTO → Z * Z * list ascii;
  mac_read_pipe : list event → Z → Z → Z → Z → Z * Z * list ascii;
  mac_write_pipe : list event → Z → Z → list (option ascii) → Z → Z;
  mac_read_async : list event → Z → Z → loc → Z;
  mac_abort_pipe : list event → Z → Z → Z;
  mac_receive : list event → Z → mac_message + Z * Z
}.

(** Documented behaviour: registry entry IDs are positive 64-bit numbers and an entry
    is not among its own children; there are at most 255 endpoints; no more data is
    returned than was asked for; a message completes an asynchronous read
    that was submitted on the port and not completed yet, with a length that fits
    the read, and only [MACH_RCV_TOO_LARGE] and other codes, never success, come
    without a message. *)
Class MacLaws (OS : MacOS) : Prop := {
  error_string_text n : no_nul (mac_error_string n) = true;
  children_ids h id c : c ∈ (mac_children h id).2 → 0 < c < 2 ^ 64 ∧ c ≠ id;
  num_endpoints_u8 h id : u8 (mac_num_endpoints h id).2;
  pipe_properties_u8 h id i : u8 (pp_endpoint_number (mac_pipe_properties h id i).2);
  mac_control_length h id r : 0 ≤ req_wLength r →
    Z.of_nat (List.length (mac_control h id r).2) ≤ req_wLength r;
  mac_read_length h id pipe size t : 0 ≤ size →
    Z.of_nat (List.length (mac_read_pipe h id pipe size t).2) ≤ size;
  receive_outstanding h port m : mac_receive h port = inl m →
    ∃ len, outstanding h port !! m_transfer m = Some len ∧
      (0 ≤ len → Z.of_nat (List.length (m_data m)) ≤ len ∧ 0 ≤ m_arg0 m ≤ len);
  receive_failure h port mr size : mac_receive h port = inr (mr, size) → mr ≠ KERN_SUCCESS
}.

(** ** Core Foundation and the registry *)

Definition is_cf (o : obj) : bool := match o with OCf _ => true | _ => false end.
Definition as_cf (o : obj) : option cf_value := match o with OCf v => Some v | _ => None end.
Definition as_service (o : obj) : option Z := match o with OService id => Some id | _ => None end.
Definition as_iterator (o : obj) : option (list Z) :=
  match o with OIterator ids => Some ids | _ => None end.
Definition is_io_object (o : obj) : bool :=
  match o with OService _ | OIterator _ => true | _ => false end.
Definition as_plug_in (o : obj) : option Z := match o with OPlugIn id => Some id | _ => None end.
Definition as_usb_device (o : obj) : option Z := match o with OUsbDevice id => Some id | _ => None end.
Definition as_usb_interface (o : obj) : option (Z * Z) :=
  match o with OUsbInterface id port => Some (id, port) | _ => None end.
Definition is_com_object (o : obj) : bool :=
  match o with OPlugIn _ | OUsbDevice _ | OUsbInterface _ _ => true | _ => false end.

Section os.
Context `{OS : MacOS}.

Definition log_mac (ev : mac_event) : M unit := log_event (EvMac ev).

Definition CFRelease (p : ptr) : M unit := release is_cf p.

Definition IORegistryEntryIDMatching (id : Z) : M ptr :=
  h ← get_trace;
  log_mac (EvIdMatching id);;
  if mac_id_matching h id then new_block (OCf (CFIdMatching id)) else mret NULL.

Definition IOServiceMatching (class : string) : M ptr :=
  h ← get_trace;
  log_mac (EvMatching class);;
  if mac_matching h class then new_block (OCf (CFClassMatching class)) else mret NULL.

(** Both consume the reference to the dictionary. *)
Definition IOServiceGetMatchingService (dict : ptr) : M ptr :=
  v ← load_as as_cf dict;
  match v with
  | CFIdMatching id =>
      CFRelease dict;;
      h ← get_trace;
      log_mac (EvMatchingService id);;
      if mac_matching_service h id then new_block (OService id) else mret NULL
  | _ => stuck WildPointer
  end.

Definition IOServiceGetMatchingServices (dict : ptr) : M (Z * ptr) :=
  v ← load_as as_cf dict;
  match v with
  | CFClassMatching class =>
      CFRelease dict;;
      h ← get_trace;
      log_mac (EvMatchingServices class);;
      let '(kr, ids) := mac_matching_services h class in
      if kr =? KERN_SUCCESS then iterator ← new_block (OIterator ids); mret (kr, iterator)
      else mret (kr, NULL)
  | _ => stuck WildPointer
  end.

(** The result and the iterator that was made, for the children of an entry and for
    everything below it. *)
Definition IORegistryEntryGetChildIterator (service : ptr) : M (Z * ptr) :=
  id ← load_as as_service service;
  h ← get_trace;
  log_mac (EvChildren id);;
  let '(kr, ids) := mac_children h id in
  if kr =? KERN_SUCCESS then iterator ← new_block (OIterator ids); mret (kr, iterator)
  else mret (kr, NULL).

Definition IORegistryEntryCreateIterator (service : ptr) : M (Z * ptr) :=
  id ← load_as as_service service;
  h ← get_trace;
  log_mac (EvDescendants id);;
  let '(kr, ids) := mac_descendants h id in
  if kr =? KERN_SUCCESS then iterator ← new_block (OIterator ids); mret (kr, iterator)
  else mret (kr, NULL).

Definition IOIteratorNext (iterator : ptr) : M ptr :=
  ids ← load_as as_iterator iterator;
  match ids with
  | [] => mret NULL
  | id :: ids => store iterator (OIterator ids);; new_block (OService id)
  end.

Definition IOObjectRelease (p : ptr) : M unit := release is_io_object p.

Definition IOObjectConformsTo (service : ptr) (class : string) : M bool :=
  id ← load_as as_service service;
  mret (mac_conforms id class).

Definition IORegistryEntryCreateCFProperty (entry : ptr) (name : string) : M ptr :=
  id ← load_as as_service entry;
  h ← get_trace;
  log_mac (EvProperty id name);;
  match mac_property h id name with
  | Some v => new_block (OCf v)
  | None => mret NULL
  end.

(** The result and the ID. *)
Definition IORegistryEntryGetRegistryEntryID (entry : ptr) : M (Z * Z) :=
  id ← load_as as_service entry;
  h ← get_trace;
  log_mac (EvRegistryId id);;
  let kr := mac_registry_id h id in
  mret (kr, if kr =? KERN_SUCCESS then id else 0).

(** [CFStringGetCString(value, buffer, 256, kCFStringEncodingASCII)]: the text in the
    buffer, if it fits. *)
Definition CFStringGetCString (value : ptr) : M (option string) :=
  v ← load_as as_cf value;
  match v with
  | CFString (Some s) => mret (if slen s <? 256 then Some s else None)
  | CFString None => mret None
  | _ => stuck WildPointer
  end.

(** [CFNumberGetValue(value, kCFNumberSInt32Type, &n)]: the number, if it fits. *)
Definition CFNumberGetValue (value : ptr) : M (option Z) :=
  v ← load_as as_cf value;
  match v with
  | CFNumber n => mret (if bool_decide (int_range n) then Some n else None)
  | _ => stuck WildPointer
  end.

Definition is_cf_string (value : ptr) : M bool :=
  v ← load_as as_cf value; mret (match v with CFString _ => true | _ => false end).
Definition is_cf_number (value : ptr) : M bool :=
  v ← load_as as_cf value; mret (match v with CFNumber _ => true | _ => false end).

(** ** Plug-ins and interfaces *)

Definition IOCreatePlugInInterfaceForService (service : ptr) (kind : io_kind) : M (Z * ptr) :=
  id ← load_as as_service service;
  h ← get_trace;
  log_mac (EvPlugIn id);;
  let kr := mac_plug_in h id kind in
  if kr =? KERN_SUCCESS then p ← new_block (OPlugIn id); mret (kr, p) else mret (kr, NULL).

(** The [HRESULT] and the interface. *)
Definition QueryInterface (plug_in : ptr) (kind : io_kind) : M (Z * ptr) :=
  id ← load_as as_plug_in plug_in;
  h ← get_trace;
  log_mac (EvQuery id);;
  let hr := mac_query h id kind in
  if hr =? 0 then
    p ← new_block (match kind with DeviceKind => OUsbDevice id | InterfaceKind => OUsbInterface id 0 end);
    mret (hr, p)
  else mret (hr, NULL).

Definition Release (p : ptr) : M unit := release is_com_object p.

Definition GetConfiguration (dev : ptr) : M (Z * Z) :=
  id ← load_as as_usb_device dev;
  h ← get_trace;
  log_mac (EvGetConfiguration id);;
  mret (mac_get_configuration h id).

Definition USBDeviceOpen (dev : ptr) : M Z :=
  id ← load_as as_usb_device dev;
  h ← get_trace;
  log_mac (EvDeviceOpen id);;
  mret (mac_device_open h id).

Definition SetConfiguration (dev : ptr) (n : Z) : M Z :=
  id ← load_as as_usb_device dev;
  h ← get_trace;
  log_mac (EvSetConfiguration id n);;
  mret (mac_set_configuration h id n).

Definition USBDeviceClose (dev : ptr) : M unit :=
  id ← load_as as_usb_device dev;
  log_mac (EvDeviceClose id).

Definition USBInterfaceOpen (ioh : ptr) : M Z :=
  '(id, _) ← load_as as_usb_interface ioh;
  h ← get_trace;
  log_mac (EvInterfaceOpen id);;
  mret (mac_interface_open h id).

Definition USBInterfaceClose (ioh : ptr) : M unit :=
  '(id, _) ← load_as as_usb_interface ioh;
  log_mac (EvInterfaceClose id).

Definition GetNumEndpoints (ioh : ptr) : M (Z * Z) :=
  '(id, _) ← load_as as_usb_interface ioh;
  h ← get_trace;
  log_mac (EvNumEndpoints id);;
  mret (mac_num_endpoints h id).

Definition GetPipeProperties (ioh : ptr) (pipe : Z) : M (Z * pipe_properties) :=
  '(id, _) ← load_as as_usb_interface ioh;
  h ← get_trace;
  log_mac (EvPipeProperties id pipe);;
  mret (mac_pipe_properties h id pipe).

(** The port that is made belongs to the interface. *)
Definition CreateInterfaceAsyncPort (ioh : ptr) : M (Z * Z) :=
  '(id, port) ← load_as as_usb_interface ioh;
  h ← get_trace;
  log_mac (EvAsyncPort id);;
  let '(kr, new_port) := mac_async_port h id in
  if kr =? KERN_SUCCESS then store ioh (OUsbInterface id new_port);; mret (kr, new_port)
  else mret (kr, 0).

(** ** Transfers *)

(** The result and [wLenDone]; bit 7 of the request type is the direction. *)
Definition ControlRequestTO (ioh : ptr) (r : IOUSBDevRequestTO) : M (Z * Z) :=
  '(id, _) ← load_as as_usb_interface ioh;
  h ← get_trace;
  let '(kr, done, data) := mac_control h id r in
  if Z.testbit (req_bmRequestType r) 7 then
    copy_to_user (req_pData r) data;;
    log_mac (EvControlRequest id r []);;
    mret (kr, done)
  else
    sent ← copy_from_user (req_pData r) (req_wLength r);
    log_mac (EvControlRequest id r sent);;
    mret (kr, done).

(** The result and the new value of [size]. *)
Definition ReadPipeTO (ioh : ptr) (pipe : Z) (buffer : ptr) (size timeout : Z) : M (Z * Z) :=
  '(id, _) ← load_as as_usb_interface ioh;
  h ← get_trace;
  let '(kr, n, data) := mac_read_pipe h id pipe size timeout in
  copy_to_user buffer data;;
  log_mac (EvReadPipe id pipe size timeout);;
  mret (kr, n).

Definition WritePipeTO (ioh : ptr) (pipe : Z) (buffer : ptr) (size timeout : Z) : M Z :=
  '(id, _) ← load_as as_usb_interface ioh;
  h ← get_trace;
  sent ← copy_from_user buffer size;
  log_mac (EvWritePipe id pipe sent timeout);;
  mret (mac_write_pipe h id pipe sent timeout).

(** [ReadPipeAsync(ioh, pipe, buffer, size, callback, transfer)]. *)
Definition ReadPipeAsync (ioh : ptr) (pipe : Z) (buffer : ptr) (size : Z) (transfer : ptr) : M Z :=
  '(id, port) ← load_as as_usb_interface ioh;
  h ← get_trace;
  match transfer with
  | Heap l =>
      let kr := mac_read_async h port pipe l in
      log_event (EvSubmit port l pipe size buffer (kr =? KERN_SUCCESS));;
      mret kr
  | _ => stuck WildPointer
  end.

Definition AbortPipe (ioh : ptr) (pipe : Z) : M Z :=
  '(id, _) ← load_as as_usb_interface ioh;
  h ← get_trace;
  log_mac (EvAbortPipe id pipe);;
  mret (mac_abort_pipe h id pipe).

(** [mach_msg] on an asynchronous port, without waiting: a message, or the code and
    the size of the message that was too large.  The data of the read are in
    its buffer when the message is. *)
Definition mach_msg (port : Z) : M (mac_message + Z * Z) :=
  h ← get_trace;
  match mac_receive h port with
  | inl m =>
      t ← load_as as_transfer_mac (Heap (m_transfer m));
      write_chars (mat_buffer t) 0 (Some <$> m_data m);;
      log_event (EvReap port (Some (m_transfer m)));;
      mret (inl m)
  | inr e =>
      log_event (EvReap port None);;
      mret (inr e)
  end.

Definition mach_error_string (code : Z) : string := mac_error_string code.
End os.

(** ** An example machine

    A composite USB device with two interfaces, which are the control and the data
    interface of a serial port, a serial port without a name, a second device without a serial number, and a system that completes every
    asynchronous read with the bytes "ok", or as aborted after [AbortPipe]. *)

Module Example_mac.
Local Open Scope string_scope.
Local Open Scope Z_scope.

Definition composite_device : Z := 0x100000401.
Definition first_interface : Z := 0x100000402.
Definition second_interface : Z := 0x100000403.
Definition serial_client : Z := 0x100000404.
Definition control_driver : Z := 0x100000405.
Definition data_driver : Z := 0x100000406.
Definition nameless_client : Z := 0x100000407.
Definition other_device : Z := 0x100000501.

Fixpoint assoc {A B} `{EqDecision A} (k : A) (kvs : list (A * B)) : option B :=
  match kvs with
  | [] => None
  | (k', v) :: kvs => if decide (k = k') then Some v else assoc k kvs
  end.

Definition properties : list (Z * string * cf_value) :=
  [(composite_device, "idVendor", CFNumber 0x1ffb); (composite_device, "idProduct", CFNumber 0xda01);
   (composite_device, "bcdDevice", CFNumber 0x111);
   (composite_device, "USB Serial Number", CFString (Some "00012345"));
   (first_interface, "bInterfaceNumber", CFNumber 0);
   (second_interface, "bInterfaceNumber", CFNumber 2);
   (serial_client, "IOCalloutDevice", CFString (Some "/dev/cu.usbmodem00012345"));
   (other_device, "idVendor", CFNumber 0x1ffb); (other_device, "idProduct", CFNumber 0x101);
   (other_device, "bcdDevice", CFNumber 0x100)].

Definition classes : list (Z * list string) :=
  [(first_interface, ["IOUSBInterface"; "IOUSBHostInterface"]);
   (second_interface, ["IOUSBInterface"; "IOUSBHostInterface"]);
   (control_driver, ["AppleUSBACMControl"]); (data_driver, ["AppleUSBACMData"]);
   (serial_client, ["IOSerialBSDClient"]); (nameless_client, ["IOSerialBSDClient"])].

Definition aborted (h : list event) : bool :=
  existsb (λ ev, match ev with EvMac (EvAbortPipe _ _) => true | _ => false end) h.

Definition receive (h : list event) (port : Z) : mac_message + Z * Z :=
  match map_to_list (outstanding h port) with
  | (l, len) :: _ =>
      let data := if aborted h then [] else take (Z.to_nat len) ["o"%char; "k"%char] in
      inl {| m_transfer := l; m_kr := if aborted h then 0xe00002eb else 0;
             m_arg0 := Z.of_nat (List.length data); m_data := data |}
  | [] => inr (MACH_RCV_TIMED_OUT, 0)
  end.

#[export] Instance machine : MacOS := {|
  mac_error_string n := "error";
  mac_id_matching h id := true;
  mac_matching_service h id := true;
  mac_matching h class := true;
  mac_matching_services h class := (0, [composite_device; first_interface; other_device]);
  mac_children h id := (0, if id =? composite_device then [serial_client; first_interface; second_interface]
                           else []);
  mac_descendants h id := (0, if id =? composite_device
                              then [first_interface; control_driver; second_interface; data_driver;
                                    serial_client; nameless_client] else []);
  mac_conforms id class := bool_decide (class ∈ default [] (assoc id classes));
  mac_property h id name := assoc (id, name) properties;
  mac_registry_id h id := 0;
  mac_plug_in h id kind := 0;
  mac_query h id kind := 0;
  mac_get_configuration h id := (0, 1);
  mac_device_open h id := 0;
  mac_set_configuration h id n := 0;
  mac_interface_open h id := 0;
  mac_num_endpoints h id := (0, 3);
  mac_pipe_properties h id i :=
    (0, if i =? 1 then {| pp_direction := 1; pp_endpoint_number := 2 |}
        else if i =? 2 then {| pp_direction := 0; pp_endpoint_number := 2 |}
        else {| pp_direction := 1; pp_endpoint_number := 3 |});
  mac_async_port h id := (0, 77);
  mac_control h id r := (0, 0, []);
  mac_read_pipe h id pipe size t :=
    if t =? 1 then (0xe0004051, 0, []) else if 2 <=? size then (0, 2, ["o"%char; "k"%char]) else (0, 0, []);
  mac_write_pipe h id pipe sent t := 0;
  mac_read_async h port pipe l := 0;
  mac_abort_pipe h id pipe := 0;
  mac_receive := receive
|}.

#[export] Instance machine_laws : MacLaws machine.
Proof.
  split.
  - done.
  - intros h id c. cbn. unfold composite_device, serial_client, first_interface, second_interface.
    destruct (Z.eqb_spec id 0x100000401); set_unfold; [|done]. lia.
  - intros h id. cbn. unfold u8. lia.
  - intros h id i. cbn. repeat case_match; cbn; unfold u8; lia.
  - intros h id r Hr. cbn. lia.
  - intros h id pipe size t Hs. cbn. repeat case_match; cbn; lia.
  - intros h port m. cbn. unfold receive. destruct (map_to_list _) as [|[l len] rest] eqn:E; [done|].
    intros [= <-]. exists len. cbn. split.
    + apply elem_of_map_to_list. rewrite E. by left.
    + intros Hl. destruct (aborted h); cbn; [lia|]. rewrite length_take. cbn. lia.
  - intros h port mr n. cbn. unfold receive. destruct (map_to_list _) as [|[l len] rest]; [|done].
    by intros [= <- <-].
Qed.

Lemma assoc_in {A B} `{EqDecision A} (k : A) (kvs : list (A * B)) v : assoc k kvs = Some v → (k, v) ∈ kvs.
Proof.
  induction kvs as [|[k' v'] kvs IH]; [done|]. cbn [assoc].
  destruct (decide (k = k')) as [->|]; [intros [= ->]; by left|right; by apply IH].
Qed.

(** The numbers of the interfaces. *)
Definition number (id : Z) : Z := if id =? first_interface then 0 else 2.

Lemma interface_entries id class :
  mac_conforms id class = true → class = "IOUSBInterface" ∨ class = "IOUSBHostInterface" →
  id = first_interface ∨ id = second_interface.
Proof.
  intros Hc Hclass. apply bool_decide_eq_true in Hc.
  destruct (assoc id classes) as [cs|] eqn:E; [|by apply elem_of_nil in Hc].
  apply assoc_in in E. cbn [default from_option] in Hc. unfold classes in E.
  rewrite !elem_of_cons elem_of_nil in E.
  repeat destruct E as [E|E]; try done; injection E as -> ->; [by left|by right|..];
    rewrite ?elem_of_cons ?elem_of_nil in Hc; destruct Hclass as [->| ->];
    repeat destruct Hc as [Hc|Hc]; done.
Qed.

Lemma interface_property h id class :
  mac_conforms id class = true → class = "IOUSBInterface" ∨ class = "IOUSBHostInterface" →
  mac_property h id "bInterfaceNumber" = Some (CFNumber (number id)) ∧ int_range (number id).
Proof.
  intros Hc Hclass. destruct (interface_entries id class Hc Hclass) as [->| ->];
    (split; [by vm_compute|]); unfold int_range; vm_compute; by split.
Qed.
End Example_mac.
