(* ===== verification/ErrorMac.v ===== *)
(** * ErrorMac: errors from macOS (src/src/mac/error_mac.c)

    Conversion of [kern_return_t] codes into error objects, and the table of codes
    and messages that it implements. *)

From S2P Require Import Prelude Memory Logic Format Errors Results MacOS ErrorHresult.
#[local] Set Warnings "-rewrite-rw".

Definition kIOReturnNoDevice : Z := 0xe00002c0.
Definition kIOReturnExclusiveAccess : Z := 0xe00002c5.
Definition kIOReturnOverrun : Z := 0xe00002e8.
Definition kIOReturnAborted : Z := 0xe00002eb.
Definition kIOUSBPipeStalled : Z := 0xe000404f.
Definition kIOUSBTransactionTimeout : Z := 0xe0004051.

Section code.
Context `{OS : MacOS}.

(** The [switch] of [error_create_mach]: the error and [skip_standard_message]. *)
Definition error_create_mach_switch (error_code : Z) (error : ptr) : M (ptr * bool) :=
  if error_code =? kIOUSBPipeStalled then
    error ← error_add error "The request was invalid or there was an I/O problem.";
    error ← error_add_code error LIBUSBP_ERROR_STALL;
    error ← error_add_code error LIBUSBP_ERROR_DEVICE_DISCONNECTED;
    mret (error, true)
  else if error_code =? kIOReturnNoDevice then
    error ← error_add_code error LIBUSBP_ERROR_DEVICE_DISCONNECTED;
    mret (error, false)
  else if error_code =? kIOUSBTransactionTimeout then
    error ← error_add error "The operation timed out.";
    error ← error_add_code error LIBUSBP_ERROR_TIMEOUT;
    mret (error, true)
  else if error_code =? kIOReturnExclusiveAccess then
    error ← error_add error
      "Access is denied.  Try closing all other programs that are using the device.";
    error ← error_add_code error LIBUSBP_ERROR_ACCESS_DENIED;
    mret (error, true)
  else if error_code =? kIOReturnOverrun then
    error ← error_add error "The transfer overflowed.";
    mret (error, true)
  else if error_code =? kIOReturnAborted then
    error ← error_add error "The operation was cancelled.";
    error ← error_add_code error LIBUSBP_ERROR_CANCELLED;
    mret (error, true)
  else mret (error, false).

(** [text] is what the format and its arguments render to. *)
Definition error_create_mach (error_code : Z) (text : string) : M ptr :=
  error ← error_create ("Error code 0x" +:+ fmt_x 1 (to_u32 error_code) +:+ ".");
  '(error, skip_standard_message) ← error_create_mach_switch error_code error;
  error ← (if negb skip_standard_message then
             error_add error (mach_error_string error_code +:+ ".")
           else mret error);
  error_add_v error (Some text).

(** The idiom [if (kr != KERN_SUCCESS) { error = error_create_mach(kr, text); }]. *)
Definition mach_check (kr : Z) (text : string) : M ptr :=
  if negb (kr =? KERN_SUCCESS) then error_create_mach kr text else mret NULL.

(** ** The table *)

(** Codes and replacement message of a [kern_return_t]. *)
Definition mach_table (n : Z) : list Z * option string :=
  if n =? kIOUSBPipeStalled then
    ([LIBUSBP_ERROR_STALL; LIBUSBP_ERROR_DEVICE_DISCONNECTED],
     Some "The request was invalid or there was an I/O problem.")
  else if n =? kIOReturnNoDevice then ([LIBUSBP_ERROR_DEVICE_DISCONNECTED], None)
  else if n =? kIOUSBTransactionTimeout then ([LIBUSBP_ERROR_TIMEOUT], Some "The operation timed out.")
  else if n =? kIOReturnExclusiveAccess then
    ([LIBUSBP_ERROR_ACCESS_DENIED],
     Some "Access is denied.  Try closing all other programs that are using the device.")
  else if n =? kIOReturnOverrun then ([], Some "The transfer overflowed.")
  else if n =? kIOReturnAborted then ([LIBUSBP_ERROR_CANCELLED], Some "The operation was cancelled.")
  else ([], None)%string.

Definition mach_row (n : Z) (e : aerr) : aerr :=
  let e := match (mach_table n).2 with Some text => err_add e text | None => e end in
  AErr (msg e) (codes e ++ (mach_table n).1).

Definition mach_error (n : Z) (text : string) : aerr :=
  let e := mach_row n (err_new ("Error code 0x" +:+ fmt_x 1 (to_u32 n) +:+ ".")) in
  err_add (match (mach_table n).2 with
           | Some _ => e
           | None => err_add e (mac_error_string n +:+ ".")
           end) text.

End code.

(** ** Specifications *)

Section specs.
Context `{OS : MacOS} {LAWS : MacLaws OS}.

Lemma mach_switch_spec n p e x0 x :
  {{ err_res p e x0 x }} error_create_mach_switch n p @ x {{ r x',
    err_res r.1 (mach_row n e) x0 x' ∗
    ⟪r.2 = match (mach_table n).2 with Some _ => true | None => false end⟫ }}.
Proof.
  destruct e as [m cs]. iIntros "H". unfold error_create_mach_switch, mach_row, mach_table.
  repeat match goal with
         | |- context [n =? ?c] => destruct (n =? c); cbn [orb fst snd]
         end; err_chain; rewrite /err_code /= -?app_assoc ?app_nil_r; iFrame; try done.
Qed.

Lemma error_create_mach_spec n text x :
  no_nul text = true →
  {{ emp }} error_create_mach n text @ x {{ r x', err_res r (mach_error n text) x x' }}.
Proof.
  iIntros (Ht) "_". unfold error_create_mach. wp_steps.
  iApply wp_error_create; [by rewrite !no_nul_app no_nul_fmt_x|]. iIntros (r x1 _) "H".
  wp_step. wp_call (mach_switch_spec n r _ x x1). iIntros ([r' skip] x2) "[H %Hs]".
  cbn [snd] in Hs. subst skip. cbn [fst]. wp_simpl. unfold mach_error.
  destruct (mach_table n).2 as [t|]; cbn [negb].
  { wp_steps. by iApply error_add_res. }
  unfold mach_error_string. wp_steps.
  iApply (wp_error_add with "H"); [by rewrite no_nul_app error_string_text|]. iIntros (r2 x3 _) "H".
  by iApply error_add_res.
Qed.

(** As rules. *)
Lemma wp_error_create_mach n text x Q :
  no_nul text = true →
  (∀ r x', ⌜is_null r = false⌝ → err_res r (mach_error n text) x x' -∗ Q r x') ⊢
  wp (error_create_mach n text) x Q.
Proof. iIntros (Hs) "HQ". iApply (wp_err_res with "[] HQ"). by iApply error_create_mach_spec. Qed.

(** The check of a result. *)
Lemma wp_mach_check kr text x Q :
  no_nul text = true →
  (if kr =? KERN_SUCCESS then Q NULL x
   else ∀ r x', ⌜is_null r = false⌝ → err_res r (mach_error kr text) x x' -∗ Q r x') ⊢
  wp (mach_check kr text) x Q.
Proof.
  iIntros (Ht) "HQ". unfold mach_check. destruct (kr =? KERN_SUCCESS); cbn [negb].
  - by wp_steps.
  - by iApply wp_error_create_mach.
Qed.

(** One call of IOKit that is recorded as [ev] and returns [kr]. *)
Definition s_io {A} (kr : Z) (a : A) (ev : mac_event) (text : string) : Spec A := λ h,
  (if kr =? KERN_SUCCESS then inr a else inl (mach_error kr text), EvMac ev :: h).

Lemma s_io_inv {A} kr (a b : A) ev text h h' :
  s_io kr a ev text h = (inr b, h') → b = a ∧ kr = KERN_SUCCESS.
Proof. unfold s_io. destruct (Z.eqb_spec kr KERN_SUCCESS); [by intros [= ->]|done]. Qed.

Lemma calm_mac ev x : calm x (Ext (EvMac ev :: x_trace x) (x_errno x) (x_oom x)).
Proof. by apply calm_event. Qed.
End specs.
