(* ===== verification/IokitMac.v ===== *)
(** * IokitMac: the registry of macOS (src/src/mac/iokit_mac.c)

    Every function of the file: looking up registry entries, reading their
    properties, and getting an interface to talk to a device.  What a function stores
    through an output parameter is part of its result. *)

From S2P Require Import Prelude Memory Logic Format Errors Results Basics Strings MacOS ErrorHresult ErrorMac.
#[local] Set Warnings "-rewrite-rw".

Definition kIOUSBInterfaceClassName : string := "IOUSBInterface".

Section code.
Context `{OS : MacOS}.

Definition iokit_id_to_string (id : Z) : M (ptr * ptr) := string_copy (Lit (fmt_x 1 id)).

Definition service_get_from_id (id : Z) : M (ptr * ptr) :=
  dict ← IORegistryEntryIDMatching id;
  if is_null dict then
    error ← error_create "Failed to create a dictionary matching the ID.";
    mret (error, NULL)
  else
  service ← IOServiceGetMatchingService dict;
  if is_null service then
    error ← error_create ("Failed to find service with ID 0x" +:+ fmt_x 1 id +:+ ".");
    mret (error, NULL)
  else mret (NULL, service).

Definition get_id (entry : ptr) : M (ptr * Z) :=
  c_assert (negb (is_null entry));;
  '(result, id) ← IORegistryEntryGetRegistryEntryID entry;
  error ← mach_check result "Failed to get registry entry ID.";
  mret (error, id).

(** [*value] is NULL when the property is not there. *)
Definition get_string (entry : ptr) (name : string) : M (ptr * ptr) :=
  c_assert (negb (is_null entry));;
  cf_value ← IORegistryEntryCreateCFProperty entry name;
  if is_null cf_value then mret (NULL, NULL) else
  b ← is_cf_string cf_value;
  error ← (if negb b then error_create "Property is not a string." else mret NULL);
  '(error, buffer) ← if_ok error ""
    (text ← CFStringGetCString cf_value;
     match text with
     | Some s => mret (NULL, s)
     | None => error ← error_create "Failed to convert property to C string."; mret (error, "")
     end);
  '(error, value) ← if_ok error NULL (string_copy (Lit buffer));
  CFRelease cf_value;;
  mret (error, value).

Definition get_int32 (entry : ptr) (name : string) : M (ptr * Z) :=
  c_assert (negb (is_null entry));;
  cf_value ← IORegistryEntryCreateCFProperty entry name;
  error ← (if is_null cf_value then
             error_create "Failed to get int32 property from IORegistryEntry."
           else mret NULL);
  error ← then_check error
    (b ← is_cf_number cf_value;
     if negb b then error_create "Property is not a number." else mret NULL);
  '(error, value) ← if_ok error 0
    (n ← CFNumberGetValue cf_value;
     match n with
     | Some n => mret (NULL, n)
     | None => error ← error_create "Failed to convert property to C integer."; mret (error, 0)
     end);
  when (negb (is_null cf_value)) (CFRelease cf_value);;
  mret (error, value).

(** The value, when it was stored. *)
Definition get_uint16 (entry : ptr) (name : string) : M (ptr * option Z) :=
  c_assert (negb (is_null entry));;
  '(error, tmp) ← get_int32 entry name;
  mret (error, if is_null error then Some (to_u16 tmp) else None).

(** The number of rounds of a loop over an iterator. *)
Definition iterator_rounds (iterator : ptr) : M nat :=
  ids ← load_as as_iterator iterator;
  mret (S (List.length ids)).

(** The loop of [service_get_usb_interface]: the error and [*interface_service]. *)
Fixpoint service_get_usb_interface_loop (fuel : nat) (iterator : ptr) (interface_number : Z) :
    M (ptr * ptr) :=
  match fuel with
  | O => stuck OutOfFuel
  | S fuel =>
      candidate ← IOIteratorNext iterator;
      if is_null candidate then mret (NULL, NULL) else
      (* Filter out candidates that are not of class IOUSBInterface. *)
      conforms ← IOObjectConformsTo candidate kIOUSBInterfaceClassName;
      if negb conforms then
        IOObjectRelease candidate;;
        service_get_usb_interface_loop fuel iterator interface_number
      else
      (* Get bInterfaceNumber. *)
      '(error, actual_num) ← get_int32 candidate "bInterfaceNumber";
      if is_null error && (actual_num =? interface_number) then mret (NULL, candidate)
      else
        IOObjectRelease candidate;;
        if is_null error then service_get_usb_interface_loop fuel iterator interface_number
        else mret (error, NULL)
  end.

Definition service_get_usb_interface (service : ptr) (interface_number : Z) : M (ptr * ptr) :=
  c_assert (negb (is_null service));;
  '(result, iterator) ← IORegistryEntryGetChildIterator service;
  error ← mach_check result "Failed to get child iterator.";
  (* Loop through the devices to find the right one. *)
  '(error, interface_service) ← if_ok error NULL
    (fuel ← iterator_rounds iterator;
     service_get_usb_interface_loop fuel iterator interface_number);
  error ← (if is_null error && is_null interface_service then
             error ← error_create ("Could not find interface " +:+ fmt_d interface_number +:+ ".");
             error_add_code error LIBUSBP_ERROR_NOT_READY
           else mret error);
  when (negb (is_null iterator)) (IOObjectRelease iterator);;
  mret (error, interface_service).

(** The error, [*object] and what is stored in [*plug_in]. *)
Definition service_to_interface (service : ptr) (kind : io_kind) (plug_in_given : bool) :
    M (ptr * ptr * option ptr) :=
  c_assert (negb (is_null service));;
  (* Create the plug-in interface. *)
  '(kr, new_plug_in) ← IOCreatePlugInInterfaceForService service kind;
  error ← mach_check kr "Failed to create plug-in interface.";
  (* Create the device interface and pass it to the caller. *)
  '(error, object) ← if_ok error NULL
    ('(hr, object) ← QueryInterface new_plug_in kind;
     error ← (if negb (hr =? 0) then error_create_hr hr "Failed to query interface."
              else mret NULL);
     mret (error, object));
  (* Also pass the plug-in interface to the caller if they want it. *)
  let '(plug_in, new_plug_in) :=
    if is_null error && plug_in_given then (Some new_plug_in, NULL) else (None, new_plug_in) in
  (* Clean up. *)
  when (negb (is_null new_plug_in)) (Release new_plug_in);;
  mret (error, object, plug_in).
End code.

(** ** What the functions mean *)

Definition service_own (p : ptr) (id : Z) : hProp := (∃ l, ⟪p = Heap l⟫ ∗ l ↦ OService id)%I.

Lemma service_own_not_null p id : service_own p id ⊢ ⌜is_null p = false⌝ ∧ service_own p id.
Proof. iIntros "H". iSplit; [|done]. by iDestruct "H" as (l) "[-> _]". Qed.

Lemma service_own_load p id x Q :
  service_own p id -∗ (service_own p id -∗ Q id x) -∗ wp (load_as as_service p) x Q.
Proof.
  iIntros "(%l & -> & Hl) HQ". iApply (wp_load_as with "Hl"); [done|]. iIntros "Hl".
  iApply "HQ". iExists l. by iFrame.
Qed.

Definition not_ready (text : string) : aerr := err_code (err_new text) LIBUSBP_ERROR_NOT_READY.

Section specs.
Context `{OS : MacOS} {LAWS : MacLaws OS}.

Definition s_get_from_id (id : Z) : Spec unit := λ h,
  let h1 := EvMac (EvIdMatching id) :: h in
  if mac_id_matching h id then
    (if mac_matching_service h1 id then inr tt
     else inl (err_new ("Failed to find service with ID 0x" +:+ fmt_x 1 id +:+ ".")),
     EvMac (EvMatchingService id) :: h1)
  else (inl (err_new "Failed to create a dictionary matching the ID."), h1).

Definition s_property (id : Z) (name : string) : Spec (option cf_value) := λ h,
  (inr (mac_property h id name), EvMac (EvProperty id name) :: h).

(** What a property object is as a string, and as a number. *)
Definition cf_string (v : cf_value) : aerr + string :=
  match v with
  | CFString (Some s) => if slen s <? 256 then inr (until_nul s)
                         else inl (err_new "Failed to convert property to C string.")
  | CFString None => inl (err_new "Failed to convert property to C string.")
  | _ => inl (err_new "Property is not a string.")
  end.

Definition cf_number (v : cf_value) : aerr + Z :=
  match v with
  | CFNumber n => if bool_decide (int_range n) then inr n
                  else inl (err_new "Failed to convert property to C integer.")
  | _ => inl (err_new "Property is not a number.")
  end.

Definition s_get_string (id : Z) (name : string) : Spec (option string) := λ h,
  (match mac_property h id name with
   | None => inr None
   | Some v => match cf_string v with inr s => inr (Some s) | inl e => inl e end
   end, EvMac (EvProperty id name) :: h).

Definition s_get_int32 (id : Z) (name : string) : Spec Z := λ h,
  (match mac_property h id name with
   | None => inl (err_new "Failed to get int32 property from IORegistryEntry.")
   | Some v => cf_number v
   end, EvMac (EvProperty id name) :: h).

Definition s_get_uint16 (id : Z) (name : string) : Spec Z :=
  n ← s_get_int32 id name; mret (to_u16 n).

Definition s_get_id (id : Z) : Spec Z := λ h,
  s_io (mac_registry_id h id) id (EvRegistryId id) "Failed to get registry entry ID." h.

Definition s_children (id : Z) : Spec (list Z) := λ h,
  s_io (mac_children h id).1 (mac_children h id).2 (EvChildren id) "Failed to get child iterator." h.

(** The first USB interface with the number. *)
Fixpoint s_find_interface (ids : list Z) (n : Z) : Spec (option Z) :=
  match ids with
  | [] => mret None
  | id :: ids =>
      if mac_conforms id kIOUSBInterfaceClassName then
        k ← s_get_int32 id "bInterfaceNumber";
        if k =? n then mret (Some id) else s_find_interface ids n
      else s_find_interface ids n
  end.

Definition s_usb_interface (id n : Z) : Spec Z :=
  ids ← s_children id;
  found ← s_find_interface ids n;
  sopt found (not_ready ("Could not find interface " +:+ fmt_d n +:+ ".")).

Definition s_plug_in (id : Z) (kind : io_kind) : Spec unit := λ h,
  s_io (mac_plug_in h id kind) tt (EvPlugIn id) "Failed to create plug-in interface." h.

Definition s_query (id : Z) (kind : io_kind) : Spec unit := λ h,
  (if mac_query h id kind =? 0 then inr tt
   else inl (hr_error (mac_query h id kind) "Failed to query interface."),
   EvMac (EvQuery id) :: h).

Definition s_to_interface (id : Z) (kind : io_kind) : Spec unit :=
  s_plug_in id kind;; s_query id kind.

(** ** Specifications *)

(** The check of the result [kr] of the call that was recorded as [ev]. *)
Definition mac_ext (ev : mac_event) (x : ext) : ext :=
  Ext (EvMac ev :: x_trace x) (x_errno x) (x_oom x).

Lemma wp_mach_checked {A} kr (a : A) ev text (s : Spec A) x Q :
  no_nul text = true → s (x_trace x) = s_io kr a ev text (x_trace x) →
  (if kr =? KERN_SUCCESS then ⌜succeeded s x (mac_ext ev x) a⌝ → Q NULL (mac_ext ev x)
   else ∀ r x' got, ⌜is_null r = false ∧ failed s x x' got⌝ → err_own r got -∗ Q r x') ⊢
  wp (mach_check kr text) (mac_ext ev x) Q.
Proof.
  iIntros (Ht Hs) "HQ". iApply wp_mach_check; [done|]. unfold s_io in Hs.
  destruct (kr =? KERN_SUCCESS).
  - iApply "HQ". iPureIntro. split; [apply calm_mac|done].
  - iIntros (r x' Hn) "(%got & He & %Hg)". iApply ("HQ" $! r x' got with "[%] He").
    split; [done|]. destruct Hg as [Hq Hg]. split; [etrans; [apply calm_mac|by apply quiet_calm]|].
    destruct Hg as [->|[Hm Ho]]; [left|right].
    + destruct Hq as [-> _]. exact Hs.
    + split; [done|]. exact Ho.
Qed.

Lemma iokit_id_to_string_spec id x :
  {{ emp }} iokit_id_to_string id @ x {{ r x',
    returns (mret (fmt_x 1 id)) x x' r.1 (str_own r.2) ⟪r.2 = NULL⟫ }}.
Proof.
  iIntros "_". unfold iokit_id_to_string. iApply (wp_wand with "[]").
  { by iApply (string_copy_spec emp%I); [apply reads_lit, no_nul_fmt_x|apply no_nul_fmt_x| |]. }
  iIntros (r x') "[_ H]". done.
Qed.

Lemma service_get_from_id_spec id x :
  {{ emp }} service_get_from_id id @ x {{ r x',
    returns (s_get_from_id id) x x' r.1 (λ _, service_own r.2 id) ⟪r.2 = NULL⟫ }}.
Proof.
  iIntros "_". unfold service_get_from_id, IORegistryEntryIDMatching, log_mac. wp_steps.
  set (h := x_trace x). set (h1 := EvMac (EvIdMatching id) :: h).
  pose proof (calm_mac (EvIdMatching id) x) as Hc1.
  destruct (mac_id_matching h id) eqn:E1; last first.
  { wp_steps. iApply wp_error_create; [done|]. err_intro. wp_steps.
    iApply (returns_err_from with "[-]"); [exact Hc1| |by iFrame].
    unfold s_get_from_id. fold h. by rewrite E1. }
  wp_steps. iApply wp_new_block. iIntros (l) "Hl". unfold IOServiceGetMatchingService, CFRelease, log_mac.
  wp_steps. fold h1. set (h2 := EvMac (EvMatchingService id) :: h1).
  assert (Hc2 : ∀ e, calm x (Ext h2 e (x_oom x))).
  { intros e. by apply (calm_event x (Ext h1 e (x_oom x))). }
  assert (Hs : s_get_from_id id h = (if mac_matching_service h1 id then inr tt
     else inl (err_new ("Failed to find service with ID 0x" +:+ fmt_x 1 id +:+ ".")), h2)).
  { unfold s_get_from_id. by rewrite E1. }
  destruct (mac_matching_service h1 id); wp_steps.
  - iApply wp_new_block. iIntros (ls) "Hls". wp_steps.
    iApply (returns_ok _ _ _ tt); [by split|]. iExists ls. by iFrame.
  - iApply wp_error_create; [by rewrite !no_nul_app no_nul_fmt_x|]. err_intro. wp_steps.
    iApply (returns_err_from with "[-]"); [exact (Hc2 (x_errno x))|exact Hs|by iFrame].
Qed.

Lemma get_id_spec p id x :
  {{ service_own p id }} get_id p @ x {{ r x',
    service_own p id ∗ returns (s_get_id id) x x' r.1 (λ n, ⟪r.2 = n⟫) emp }}.
Proof.
  iIntros "Hs". iDestruct (service_own_not_null with "Hs") as "[%Hn Hs]".
  unfold get_id, IORegistryEntryGetRegistryEntryID, log_mac. wp_steps.
  iApply (service_own_load with "Hs"). iIntros "Hs". wp_steps.
  iApply (wp_mach_checked _ id (EvRegistryId id) _ (s_get_id id)); [done|done|].
  destruct (_ =? KERN_SUCCESS).
  - iIntros (Ha). wp_steps. iFrame. by iApply (returns_ok _ _ _ id).
  - iIntros (r x' got [Hr Hf]) "He". wp_steps. iFrame. iRight. iExists got. by iFrame.
Qed.

(** ** Properties of entries *)

(** What [IORegistryEntryCreateCFProperty] returned. *)
Definition property_own (p : ptr) (o : option cf_value) : hProp :=
  match o with Some v => ∃ l, ⟪p = Heap l⟫ ∗ l ↦ OCf v | None => ⟪p = NULL⟫ end%I.

Definition property_ext (id : Z) (name : string) (x : ext) : ext :=
  Ext (EvMac (EvProperty id name) :: x_trace x) (x_errno x) (x_oom x).

Lemma wp_property p id name x Q :
  service_own p id -∗
  (∀ q, service_own p id -∗ property_own q (mac_property (x_trace x) id name) -∗
     Q q (property_ext id name x)) -∗
  wp (IORegistryEntryCreateCFProperty p name) x Q.
Proof.
  iIntros "Hs HQ". unfold IORegistryEntryCreateCFProperty, log_mac. wp_steps.
  iApply (service_own_load with "Hs"). iIntros "Hs". wp_steps.
  destruct (mac_property _ _ _) as [v|]; wp_steps.
  - iApply wp_new_block. iIntros (lv) "Hv". iApply ("HQ" with "Hs"). iExists lv. by iFrame.
  - by iApply ("HQ" with "Hs").
Qed.

Lemma calm_property id name x : calm x (property_ext id name x).
Proof. apply calm_mac. Qed.

Lemma get_int32_spec p id name x :
  {{ service_own p id }} get_int32 p name @ x {{ r x',
    service_own p id ∗ returns (s_get_int32 id name) x x' r.1 (λ n, ⟪r.2 = n⟫) ⟪r.2 = 0⟫ }}.
Proof.
  iIntros "Hs". iDestruct (service_own_not_null with "Hs") as "[%Hn Hs]".
  unfold get_int32, then_check, if_ok. wp_steps. iApply (wp_property with "Hs").
  iIntros (q) "Hs Hq". pose proof (calm_property id name x) as Hc.
  assert (Hsp : s_get_int32 id name (x_trace x) =
    (match mac_property (x_trace x) id name with
     | None => inl (err_new "Failed to get int32 property from IORegistryEntry.")
     | Some v => cf_number v end, x_trace (property_ext id name x))) by done.
  destruct (mac_property _ _ _) as [v|]; cbn [property_own]; last first.
  { iDestruct "Hq" as %->. err_chain. iFrame.
    iApply (returns_err_from with "[-]"); [exact Hc|exact Hsp|by iFrame]. }
  iDestruct "Hq" as (lv) "[-> Hv]". unfold is_cf_number, CFRelease. wp_steps.
  destruct v as [o|n|i|c|]; cbn [cf_number] in Hsp;
    try (err_chain; iFrame; iApply (returns_err_from with "[-]"); [exact Hc|exact Hsp|by iFrame]; fail).
  wp_steps. unfold CFNumberGetValue. wp_steps.
  destruct (bool_decide (int_range n)); wp_steps.
  - iFrame. iApply (returns_ok _ _ _ n); [by split|done].
  - err_chain. iFrame. iApply (returns_err_from with "[-]"); [exact Hc|exact Hsp|by iFrame].
Qed.

Lemma get_uint16_spec p id name x :
  {{ service_own p id }} get_uint16 p name @ x {{ r x',
    service_own p id ∗ returns (s_get_uint16 id name) x x' r.1 (λ n, ⟪r.2 = Some n⟫) ⟪r.2 = None⟫ }}.
Proof.
  iIntros "Hs". iDestruct (service_own_not_null with "Hs") as "[%Hn Hs]".
  unfold get_uint16. wp_steps. wp_call (get_int32_spec p id name x).
  iIntros ([e n] x1) "[Hs H]". returned "H"; wp_steps; iFrame.
  - iDestruct "Hok" as %->. iApply (returns_ok _ _ _ (to_u16 a)); [|done].
    eapply succeeded_bind; [eassumption|]. by apply succeeded_ret.
  - iRight. iExists got. iFrame. iSplit; [iPureIntro; by apply failed_bind|].
    iDestruct "Hbad" as %Hbad. by iPureIntro.
Qed.

Lemma get_string_spec p id name x :
  {{ service_own p id }} get_string p name @ x {{ r x',
    service_own p id ∗
    returns (s_get_string id name) x x' r.1 (opt_str_own r.2) ⟪r.2 = NULL⟫ }}.
Proof.
  iIntros "Hs". iDestruct (service_own_not_null with "Hs") as "[%Hn Hs]".
  unfold get_string, if_ok. wp_steps. iApply (wp_property with "Hs").
  iIntros (q) "Hs Hq". pose proof (calm_property id name x) as Hc.
  set (x1 := property_ext id name x) in *.
  assert (Hsp : s_get_string id name (x_trace x) =
    (match mac_property (x_trace x) id name with
     | None => inr None
     | Some v => match cf_string v with inr s => inr (Some s) | inl e => inl e end end,
     x_trace x1)) by done.
  destruct (mac_property _ _ _) as [v|]; cbn [property_own]; last first.
  { iDestruct "Hq" as %->. wp_steps. iFrame. iApply (returns_ok _ _ _ None); [by split|done]. }
  iDestruct "Hq" as (lv) "[-> Hv]". unfold is_cf_string, CFRelease. wp_steps.
  destruct v as [o|n|i|c|]; cbn [cf_string] in Hsp;
    try (err_chain; iFrame; iApply (returns_err_from with "[-]"); [exact Hc|exact Hsp|by iFrame]; fail).
  wp_steps. unfold CFStringGetCString. wp_steps.
  destruct o as [s|]; [destruct (slen s <? 256)|]; wp_steps;
    try (err_chain; iFrame; iApply (returns_err_from with "[-]"); [exact Hc|exact Hsp|by iFrame]; fail).
  wp_call (string_copy_lit s x1). iIntros ([e r] x2) "H". returned "H".
  - apply succeeded_ret_inv in Ha as (-> & Ht & Hc2). wp_steps. iFrame "Hs".
    iApply (returns_ok _ _ _ (Some (until_nul s)) with "Hok").
    split; [by etrans|]. rewrite Hsp Ht. done.
  - iDestruct "Hbad" as %->. wp_steps. iFrame. iRight. iExists got. iFrame. iSplit; [|done].
    iPureIntro. destruct Hfailed as [Hc2 [E|[Hm Ho]]]; [by rewrite sret_eq in E|].
    split; [by etrans|]. right. split; [done|exact (oomed_r _ _ _ Hc Ho)].
Qed.

(** ** Interfaces *)

Definition opt_service_own (p : ptr) (o : option Z) : hProp :=
  match o with Some id => service_own p id | None => ⟪p = NULL⟫ end%I.

Lemma opt_service_own_null p o :
  opt_service_own p o ⊢ ⌜is_null p = match o with Some _ => false | None => true end⌝ ∧ opt_service_own p o.
Proof.
  destruct o; cbn; iIntros "H".
  - iApply (service_own_not_null with "H").
  - iDestruct "H" as %->. by iSplit.
Qed.

Definition iterator_own (p : ptr) : hProp := (∃ l ids, ⟪p = Heap l⟫ ∗ l ↦ OIterator ids)%I.

Lemma wp_release_iterator p x Q :
  iterator_own p -∗ Q tt x -∗ wp (IOObjectRelease p) x Q.
Proof.
  iIntros "(%l & %ids & -> & Hl) HQ". unfold IOObjectRelease. by wp_steps.
Qed.

Lemma wp_release_service p id x Q :
  service_own p id -∗ Q tt x -∗ wp (IOObjectRelease p) x Q.
Proof. iIntros "(%l & -> & Hl) HQ". unfold IOObjectRelease. by wp_steps. Qed.

(** The next entry of an iterator. *)
Lemma wp_next l ids x Q :
  l ↦ OIterator ids -∗
  (∀ p, l ↦ OIterator (tail ids) -∗ opt_service_own p (head ids) -∗ Q p x) -∗
  wp (IOIteratorNext (Heap l)) x Q.
Proof.
  iIntros "Hl HQ". unfold IOIteratorNext. wp_steps. destruct ids as [|id ids]; wp_steps.
  - iApply ("HQ" with "[$]"). by cbn.
  - iApply wp_new_block. iIntros (lc) "Hc". iApply ("HQ" with "[$]"). iExists lc. by iFrame.
Qed.

Lemma wp_conforms p id class x Q :
  service_own p id -∗ (service_own p id -∗ Q (mac_conforms id class) x) -∗
  wp (IOObjectConformsTo p class) x Q.
Proof.
  iIntros "Hs HQ". unfold IOObjectConformsTo. wp_step. iApply (service_own_load with "Hs").
  iIntros "Hs". wp_steps. by iApply "HQ".
Qed.

Lemma iterator_own_intro l ids : l ↦ OIterator ids ⊢ iterator_own (Heap l).
Proof. iIntros "H". iExists l, ids. by iFrame. Qed.

Lemma service_get_usb_interface_loop_spec l ids n x :
  {{ l ↦ OIterator ids }} service_get_usb_interface_loop (S (List.length ids)) (Heap l) n @ x
  {{ r x', iterator_own (Heap l) ∗
     returns (s_find_interface ids n) x x' r.1 (opt_service_own r.2) ⟪r.2 = NULL⟫ }}.
Proof.
  revert x. induction ids as [|id ids IH]; intros x; iIntros "Hl"; cbn [service_get_usb_interface_loop].
  all: wp_step; iApply (wp_next with "Hl"); iIntros (p) "Hl Hp"; cbn [head tail].
  { iDestruct "Hp" as %->. wp_steps. iSplitL; [by iApply iterator_own_intro|].
    iApply (returns_ok _ _ _ None); [by apply succeeded_ret|done]. }
  iDestruct (opt_service_own_null with "Hp") as "[%Hn Hp]". cbn [opt_service_own] in *. wp_steps.
  iApply (wp_conforms with "Hp"). iIntros "Hp". cbn [s_find_interface List.length].
  destruct (mac_conforms id kIOUSBInterfaceClassName); wp_steps; last first.
  { iApply (wp_release_service with "Hp"). by iApply IH. }
  wp_call (get_int32_spec p id "bInterfaceNumber" x). iIntros ([e k] x1) "[Hp H]". returned "H"; last first.
  { iDestruct "Hbad" as %->. wp_steps. iApply (wp_release_service with "Hp"). wp_steps.
    iSplitL "Hl"; [by iApply iterator_own_intro|]. iRight. iExists got. iFrame.
    iSplit; [|done]. iPureIntro. by apply failed_bind. }
  iDestruct "Hok" as %->. destruct (a =? n) eqn:E; wp_steps.
  - iSplitL "Hl"; [by iApply iterator_own_intro|].
    iApply (returns_ok _ _ _ (Some id) with "Hp").
    eapply succeeded_bind; [eassumption|]. rewrite E. by apply succeeded_ret.
  - iApply (wp_release_service with "Hp"). wp_steps. iApply (wp_wand with "[Hl]"); [by iApply IH|].
    iIntros (r x') "[$ H]". iApply (returns_bind _ _ a); [eassumption|]. by rewrite E.
Qed.

Lemma service_get_usb_interface_spec p id n x :
  {{ service_own p id }} service_get_usb_interface p n @ x {{ r x',
    service_own p id ∗
    returns (s_usb_interface id n) x x' r.1 (service_own r.2) ⟪r.2 = NULL⟫ }}.
Proof.
  iIntros "Hs". iDestruct (service_own_not_null with "Hs") as "[%Hn Hs]".
  unfold service_get_usb_interface, if_ok, IORegistryEntryGetChildIterator, log_mac. wp_steps.
  iApply (service_own_load with "Hs"). iIntros "Hs". wp_steps.
  destruct (mac_children (x_trace x) id) as [kr ids] eqn:Ec.
  assert (Hs : s_children id (x_trace x) =
    s_io kr ids (EvChildren id) "Failed to get child iterator." (x_trace x)).
  { unfold s_children. by rewrite Ec. }
  destruct (kr =? KERN_SUCCESS) eqn:Ek; wp_steps; last first.
  { iApply (wp_mach_checked _ ids _ _ (s_children id)); [done|done|]. rewrite Ek.
    iIntros (r x' got [Hr Hf]) "He". wp_steps. iFrame. iRight. iExists got. iFrame. iSplit; [|done].
    iPureIntro. by apply failed_bind. }
  iApply wp_new_block. iIntros (l) "Hl". wp_steps.
  iApply (wp_mach_checked _ ids _ _ (s_children id)); [done|done|]. rewrite Ek. iIntros (Ha).
  set (x1 := mac_ext _ x) in *. unfold iterator_rounds. wp_steps.
  iAssert (l ↦ OIterator ids)%I with "[$]" as "Hl".
  wp_call (service_get_usb_interface_loop_spec l ids n x1). iIntros ([e q] x2) "[Hi H]".
  returned "H"; last first.
  { iDestruct "Hbad" as %->. wp_steps. iApply (wp_release_iterator with "Hi"). wp_steps. iFrame.
    iRight. iExists got. iFrame. iSplit; [|done]. iPureIntro. chain. }
  iDestruct (opt_service_own_null with "Hok") as "[%Hq Hok]".
  destruct a as [c|]; cbn [opt_service_own]; wp_steps.
  - iApply (wp_release_iterator with "Hi"). wp_steps. iFrame "Hs".
    iApply (returns_ok _ _ _ c with "Hok"). chain.
  - iDestruct "Hok" as %->. iApply wp_error_create; [by rewrite !no_nul_app no_nul_fmt_d|].
    err_intro. err_chain. iApply (wp_release_iterator with "Hi"). wp_steps. iFrame "Hs".
    iApply (returns_err_from _ _ x2 with "[-]"); [by etrans; [apply Ha|apply Ha0]| |by iFrame].
    unfold s_usb_interface. destruct Ha as [_ Ha], Ha0 as [_ Ha0].
    by rewrite (sbind_ok _ _ _ _ _ Ha) (sbind_ok _ _ _ _ _ Ha0).
Qed.

(** ** Plug-ins *)

Definition kind_obj (kind : io_kind) (id port : Z) : obj :=
  match kind with DeviceKind => OUsbDevice id | InterfaceKind => OUsbInterface id port end.

Definition com_own (p : ptr) (o : obj) : hProp :=
  (∃ l, ⟪p = Heap l ∧ is_com_object o = true⟫ ∗ l ↦ o)%I.

Lemma com_own_not_null p o : com_own p o ⊢ ⌜is_null p = false⌝ ∧ com_own p o.
Proof. iIntros "H". iSplit; [|done]. by iDestruct "H" as (l) "[[-> _] _]". Qed.

Lemma com_own_load {A} (proj : obj → option A) p o a x Q :
  proj o = Some a →
  com_own p o -∗ (com_own p o -∗ Q a x) -∗ wp (load_as proj p) x Q.
Proof.
  iIntros (Ho) "(%l & %H & Hl) HQ". destruct H as [-> Hc].
  iApply (wp_load_as with "Hl"); [done|]. iIntros "Hl". iApply "HQ". iExists l. by iFrame.
Qed.

Lemma wp_release_com p o x Q : com_own p o -∗ Q tt x -∗ wp (Release p) x Q.
Proof.
  iIntros "(%l & %H & Hl) HQ". destruct H as [-> Hc]. unfold Release.
  iApply (wp_release with "Hl"); done.
Qed.

Lemma com_own_intro l o : is_com_object o = true → l ↦ o ⊢ com_own (Heap l) o.
Proof. iIntros (H) "Hl". iExists l. by iFrame. Qed.

Lemma service_to_interface_spec p id kind x :
  {{ service_own p id }} service_to_interface p kind true @ x {{ r x',
    service_own p id ∗
    returns (s_to_interface id kind) x x' r.1.1
      (λ _, com_own r.1.2 (kind_obj kind id 0) ∗ ∃ q, ⟪r.2 = Some q⟫ ∗ com_own q (OPlugIn id))
      (⟪r.1.2 = NULL ∧ r.2 = None⟫) }}.
Proof.
  iIntros "Hs". iDestruct (service_own_not_null with "Hs") as "[%Hn Hs]".
  unfold service_to_interface, if_ok, IOCreatePlugInInterfaceForService, log_mac. wp_steps.
  iApply (service_own_load with "Hs"). iIntros "Hs". wp_steps.
  set (kr := mac_plug_in (x_trace x) id kind).
  destruct (kr =? KERN_SUCCESS) eqn:Ek; wp_steps; last first.
  { iApply (wp_mach_checked _ tt _ _ (s_plug_in id kind)); [done|done|]. rewrite Ek.
    iIntros (r x' got [Hr Hf]) "He". wp_steps. iFrame. iRight. iExists got. iFrame. iSplit; [|done].
    iPureIntro. by apply failed_bind. }
  iApply wp_new_block. iIntros (l) "Hl". wp_steps.
  iApply (wp_mach_checked _ tt _ _ (s_plug_in id kind)); [done|done|]. rewrite Ek. iIntros (Ha).
  set (x1 := mac_ext _ x) in *. unfold QueryInterface, log_mac. wp_steps.
  set (hr := mac_query _ id kind). set (x2 := Ext (EvMac (EvQuery id) :: _) _ _).
  assert (Hc : calm x x2) by (etrans; [apply Ha|apply (calm_mac (EvQuery id) x1)]).
  assert (Hsp : s_to_interface id kind (x_trace x) =
    (if hr =? 0 then inr tt else inl (hr_error hr "Failed to query interface."), x_trace x2)).
  { unfold s_to_interface. destruct Ha as [_ Ha]. by rewrite (sbind_ok _ _ _ _ _ Ha). }
  iAssert (com_own (Heap l) (OPlugIn id)) with "[-Hs]" as "Hpl"; [iApply (com_own_intro with "[$]"); done|].
  destruct (hr =? 0) eqn:Eh; wp_steps.
  - iApply wp_new_block. iIntros (lo) "Ho". wp_steps. rewrite Eh. wp_steps. iFrame "Hs".
    iApply (returns_ok _ _ _ tt with "[-]"); [by split|]. iSplitL "Ho".
    + iApply (com_own_intro with "[Ho]"); [by destruct kind|]. by destruct kind.
    + iExists (Heap l). by iFrame.
  - rewrite Eh. wp_steps. iApply wp_error_create_hr; [done|]. err_intro. wp_steps. iApply (wp_release_com with "Hpl").
    wp_steps. iFrame "Hs". iApply (returns_err_from with "[-]"); [exact Hc|exact Hsp|by iFrame].
Qed.

(** ** Interface numbers that do not change *)

(** Every entry of the class has the number [number] says, at any time. *)
Definition interface_numbers (class : string) (number : Z → Z) : Prop :=
  ∀ h id, mac_conforms id class = true →
    mac_property h id "bInterfaceNumber" = Some (CFNumber (number id)) ∧ int_range (number id).

Lemma s_get_int32_number class number id h :
  interface_numbers class number → mac_conforms id class = true →
  s_get_int32 id "bInterfaceNumber" h = (inr (number id), EvMac (EvProperty id "bInterfaceNumber") :: h).
Proof.
  intros Hn Hc. destruct (Hn h id Hc) as [Hp Hr]. unfold s_get_int32. rewrite Hp. cbn [cf_number].
  by rewrite bool_decide_true.
Qed.

(** The first entry that is an interface with the number [n]. *)
Definition first_interface (number : Z → Z) (n : Z) (ids : list Z) : option Z :=
  snd <$> list_find (λ id, mac_conforms id kIOUSBInterfaceClassName = true ∧ number id = n) ids.

Lemma s_find_interface_first number n ids h :
  interface_numbers kIOUSBInterfaceClassName number →
  ∃ h', s_find_interface ids n h = (inr (first_interface number n ids), h').
Proof.
  intros Hn. revert h. induction ids as [|id ids IH]; intros h; [by exists h|].
  cbn [s_find_interface]. unfold first_interface. cbn [list_find].
  destruct (mac_conforms id kIOUSBInterfaceClassName) eqn:Ec.
  - rewrite (sbind_ok _ _ _ _ _ (s_get_int32_number _ number id h Hn Ec)).
    destruct (Z.eqb_spec (number id) n) as [E|E].
    + rewrite decide_True // sret_eq. by eexists.
    + rewrite decide_False; [|by intros [_ ?]]. destruct (IH (EvMac (EvProperty id "bInterfaceNumber") :: h)) as [h' ->].
      exists h'. unfold first_interface. by destruct (list_find _ ids) as [[]|].
  - destruct (decide _) as [[? _]|_]; [congruence|]. destruct (IH h) as [h' ->]. exists h'.
    unfold first_interface. by destruct (list_find _ ids) as [[]|].
Qed.
End specs.
