(* ===== verification/DeviceMac.v ===== *)
(** * DeviceMac: device objects on macOS (src/src/mac/device_mac.c)

    Creation of a [libusbp_device] from a registry entry, its copy, its getters and
    its release. *)

From S2P Require Import Prelude Memory Logic Format Errors Results Basics Strings MacOS ErrorMac IokitMac.
#[local] Set Warnings "-rewrite-rw".

Definition kUSBVendorID : string := "idVendor".
Definition kUSBProductID : string := "idProduct".
Definition kUSBDeviceReleaseNumber : string := "bcdDevice".
Definition kUSBSerialNumberString : string := "USB Serial Number".

Section code.
Context `{OS : MacOS}.

(** A struct from [calloc]. *)
Definition zeroed_device : libusbp_device_mac :=
  {| mdev_id := 0; mdev_product_id := 0; mdev_vendor_id := 0; mdev_revision := 0;
     mdev_serial_number := NULL |}.

Definition device_allocate : M (ptr * ptr) :=
  device ← calloc 1 sizeof_libusbp_device_mac (OMacDevice zeroed_device);
  mret (if is_null device then Static error_no_memory else NULL, device).

Definition libusbp_device_free (device : ptr) : M unit :=
  if is_null device then mret tt else
  d ← load_as as_device_mac device;
  libusbp_string_free (mdev_serial_number d);;
  free device.

(** Assignments to the fields of a device. *)
Definition set_vendor_id (n : Z) (d : libusbp_device_mac) : libusbp_device_mac :=
  {| mdev_id := mdev_id d; mdev_product_id := mdev_product_id d; mdev_vendor_id := n;
     mdev_revision := mdev_revision d; mdev_serial_number := mdev_serial_number d |}.
Definition set_product_id (n : Z) (d : libusbp_device_mac) : libusbp_device_mac :=
  {| mdev_id := mdev_id d; mdev_product_id := n; mdev_vendor_id := mdev_vendor_id d;
     mdev_revision := mdev_revision d; mdev_serial_number := mdev_serial_number d |}.
Definition set_revision (n : Z) (d : libusbp_device_mac) : libusbp_device_mac :=
  {| mdev_id := mdev_id d; mdev_product_id := mdev_product_id d; mdev_vendor_id := mdev_vendor_id d;
     mdev_revision := n; mdev_serial_number := mdev_serial_number d |}.
Definition set_id (n : Z) (d : libusbp_device_mac) : libusbp_device_mac :=
  {| mdev_id := n; mdev_product_id := mdev_product_id d; mdev_vendor_id := mdev_vendor_id d;
     mdev_revision := mdev_revision d; mdev_serial_number := mdev_serial_number d |}.
Definition set_serial_number (p : ptr) (d : libusbp_device_mac) : libusbp_device_mac :=
  {| mdev_id := mdev_id d; mdev_product_id := mdev_product_id d; mdev_vendor_id := mdev_vendor_id d;
     mdev_revision := mdev_revision d; mdev_serial_number := p |}.

Definition set_field (device : ptr) (f : libusbp_device_mac → libusbp_device_mac) : M unit :=
  d ← load_as as_device_mac device;
  store device (OMacDevice (f d)).

(** [get_uint16(service, name, &new_device->field)]. *)
Definition get_uint16_into (service : ptr) (name : string) (new_device : ptr)
    (set : Z → libusbp_device_mac → libusbp_device_mac) : M ptr :=
  '(error, value) ← get_uint16 service name;
  match value with Some n => set_field new_device (set n) | None => mret tt end;;
  mret error.

(** The error and what is stored in [*device]. *)
Definition create_device (service : ptr) : M (ptr * option ptr) :=
  c_assert (negb (is_null service));;
  (* Allocate the device. *)
  '(error, new_device) ← device_allocate;
  (* Get the numeric IDs. *)
  error ← then_check error (get_uint16_into service kUSBVendorID new_device set_vendor_id);
  error ← then_check error (get_uint16_into service kUSBProductID new_device set_product_id);
  error ← then_check error (get_uint16_into service kUSBDeviceReleaseNumber new_device set_revision);
  (* Get the serial number. *)
  error ← then_check error
    ('(error, serial) ← get_string service kUSBSerialNumberString;
     set_field new_device (set_serial_number serial);;
     mret error);
  (* Get the ID. *)
  error ← then_check error
    ('(error, id) ← get_id service;
     set_field new_device (set_id id);;
     mret error);
  (* Pass the device to the caller. *)
  let '(device, new_device) :=
    if is_null error then (Some new_device, NULL) else (None, new_device) in
  libusbp_device_free new_device;;
  mret (error, device).

Definition libusbp_device_copy (source : ptr) (dest_given : bool) : M (ptr * option ptr) :=
  if negb dest_given then
    error ← error_create "Device output pointer is null.";
    mret (error, None)
  else if is_null source then mret (NULL, Some NULL) else
  (* Allocate the device. *)
  '(error, new_device) ← device_allocate;
  (* Copy the simple fields, while leaving the pointers owned by the device NULL. *)
  when (is_null error)
    (d ← load_as as_device_mac source;
     store new_device (OMacDevice d);;
     set_field new_device (set_serial_number NULL));;
  (* Copy the serial number. *)
  error ← then_check error
    (d ← load_as as_device_mac source;
     if negb (is_null (mdev_serial_number d)) then
       '(error, serial) ← string_copy (mdev_serial_number d);
       set_field new_device (set_serial_number serial);;
       mret error
     else mret NULL);
  (* Pass the device to the caller. *)
  let '(dest, new_device) := if is_null error then (new_device, NULL) else (NULL, new_device) in
  libusbp_device_free new_device;;
  mret (error, Some dest).

Definition device_get_id (device : ptr) : M Z :=
  c_assert (negb (is_null device));;
  d ← load_as as_device_mac device;
  mret (mdev_id d).

(** The common body of the three getters of a number. *)
Definition device_get_number (field : libusbp_device_mac → Z) (name : string)
    (device : ptr) (out_given : bool) : M (ptr * option Z) :=
  if negb out_given then
    error ← error_create (name +:+ " output pointer is null.");
    mret (error, None)
  else if is_null device then
    error ← error_create "Device is null.";
    mret (error, Some 0)
  else
    d ← load_as as_device_mac device;
    mret (NULL, Some (field d)).

Definition libusbp_device_get_vendor_id : ptr → bool → M (ptr * option Z) :=
  device_get_number mdev_vendor_id "Vendor ID".
Definition libusbp_device_get_product_id : ptr → bool → M (ptr * option Z) :=
  device_get_number mdev_product_id "Product ID".
Definition libusbp_device_get_revision : ptr → bool → M (ptr * option Z) :=
  device_get_number mdev_revision "Device revision".

Definition libusbp_device_get_serial_number (device : ptr) (out_given : bool) :
    M (ptr * option ptr) :=
  if negb out_given then
    error ← error_create "Serial number output pointer is null.";
    mret (error, None)
  else if is_null device then
    error ← error_create "Device is null.";
    mret (error, Some NULL)
  else
    d ← load_as as_device_mac device;
    if is_null (mdev_serial_number d) then
      error ← error_create "Device does not have a serial number.";
      error ← error_add_code error LIBUSBP_ERROR_NO_SERIAL_NUMBER;
      mret (error, Some NULL)
    else
      '(error, copy) ← string_copy (mdev_serial_number d);
      mret (error, Some copy).

Definition libusbp_device_get_os_id (device : ptr) (out_given : bool) : M (ptr * option ptr) :=
  if negb out_given then
    error ← error_create "Device OS ID output pointer is null.";
    mret (error, None)
  else if is_null device then
    error ← error_create "Device is null.";
    mret (error, Some NULL)
  else
    d ← load_as as_device_mac device;
    '(error, copy) ← iokit_id_to_string (mdev_id d);
    mret (error, Some copy).
End code.

(** ** What a device object holds *)

Record mac_device := MacDevice {
  md_id : Z;
  md_serial : option string;
  md_product : Z;
  md_vendor : Z;
  md_revision : Z
}.

Definition mac_device_struct (sn : ptr) (d : mac_device) : libusbp_device_mac :=
  {| mdev_id := md_id d; mdev_product_id := md_product d; mdev_vendor_id := md_vendor d;
     mdev_revision := md_revision d; mdev_serial_number := sn |}.

Definition mac_device_own (p : ptr) (d : mac_device) : hProp :=
  (∃ l sn, ⟪p = Heap l⟫ ∗ l ↦ OMacDevice (mac_device_struct sn d) ∗ opt_str_own sn (md_serial d))%I.

Lemma mac_device_own_not_null p d : mac_device_own p d ⊢ ⌜is_null p = false⌝ ∧ mac_device_own p d.
Proof. iIntros "H". iSplit; [|done]. by iDestruct "H" as (l sn) "[-> _]". Qed.

Lemma mac_device_free_spec p d x :
  {{ mac_device_own p d }} libusbp_device_free p @ x {{ r x', ⟪x' = x⟫ }}.
Proof.
  iIntros "(%l & %sn & -> & Hl & Hn)". unfold libusbp_device_free, libusbp_string_free.
  wp_steps. cbn [mac_device_struct mdev_serial_number].
  wp_call (free_opt_str sn _ x). iIntros ([] ?) "->". wp_steps. by iPureIntro.
Qed.

#[export] Instance mac_device_objects : DeviceObjects mac_device libusbp_device_free := {|
  Basics.device_own := mac_device_own;
  Basics.device_own_not_null := mac_device_own_not_null;
  Basics.device_free_spec := mac_device_free_spec
|}.

Lemma mac_device_free_null x Q : Q tt x ⊢ wp (libusbp_device_free NULL) x Q.
Proof. apply wp_ret. Qed.

(** Storing a field that is a number. *)
Lemma wp_set_field f d d' p x Q :
  (∀ sn, f (mac_device_struct sn d) = mac_device_struct sn d') → md_serial d' = md_serial d →
  mac_device_own p d -∗ (mac_device_own p d' -∗ Q tt x) -∗ wp (set_field p f) x Q.
Proof.
  iIntros (Hf Hs) "(%l & %sn & -> & Hl & Hn) HQ". unfold set_field. wp_steps. rewrite Hf.
  iApply "HQ". iExists l, sn. rewrite Hs. by iFrame.
Qed.

Lemma mac_device_own_load p d x Q :
  mac_device_own p d -∗
  (∀ sn, opt_str_own sn (md_serial d) -∗ (opt_str_own sn (md_serial d) -∗ mac_device_own p d) -∗
     Q (mac_device_struct sn d) x) -∗
  wp (load_as as_device_mac p) x Q.
Proof.
  iIntros "(%l & %sn & -> & Hl & Hn) HQ". iApply (wp_load_as with "Hl"); [done|]. iIntros "Hl".
  iApply ("HQ" with "Hn"). iIntros "Hn". iExists l, sn. by iFrame.
Qed.

(** Releasing the strings and the device that local variables hold. *)
Ltac mac_frees :=
  repeat
    (wp_steps;
     lazymatch goal with
     | |- envs_entails _ (wp (libusbp_device_free NULL) ?x _) => iApply mac_device_free_null
     | |- envs_entails _ (wp (libusbp_device_free ?p) ?x _) =>
         wp_call (mac_device_free_spec p _ x); iIntros ([] ?) "->"
     end); wp_steps.

Lemma mac_device_allocate_spec x :
  {{ emp }} device_allocate @ x {{ r x',
    returns (mret tt) x x' r.1 (λ _, mac_device_own r.2 (MacDevice 0 None 0 0 0)) ⟪r.2 = NULL⟫ }}.
Proof.
  iIntros "_". unfold device_allocate, calloc. wp_step. iApply wp_malloc_pos; [done|]. iSplit.
  - iIntros (l _) "Hl". wp_steps. iApply (returns_ok _ _ _ tt); [by apply succeeded_ret|].
    iExists l, NULL. by iFrame.
  - iIntros (x' [Hq Ho]). wp_steps. by iApply returns_no_memory.
Qed.

Section specs.
Context `{OS : MacOS} {LAWS : MacLaws OS}.

(** ** Creation *)

Definition s_create_device (id : Z) : Spec mac_device :=
  vendor ← s_get_uint16 id kUSBVendorID;
  product ← s_get_uint16 id kUSBProductID;
  revision ← s_get_uint16 id kUSBDeviceReleaseNumber;
  serial ← s_get_string id kUSBSerialNumberString;
  n ← s_get_id id;
  mret (MacDevice n serial product vendor revision).

(** A number that is stored in a field: [upd] says what the device becomes. *)
Lemma get_uint16_into_spec p id q d name set (upd : Z → mac_device) x :
  (∀ n sn, set n (mac_device_struct sn d) = mac_device_struct sn (upd n)) →
  (∀ n, md_serial (upd n) = md_serial d) →
  {{ service_own p id ∗ mac_device_own q d }} get_uint16_into p name q set @ x {{ r x',
    service_own p id ∗
    returns (s_get_uint16 id name) x x' r (λ n, mac_device_own q (upd n)) (mac_device_own q d) }}.
Proof.
  iIntros (Hset Hser) "[Hs Hd]". unfold get_uint16_into. wp_step.
  wp_call (get_uint16_spec p id name x). iIntros ([e o] x1) "[Hs H]". returned "H".
  - iDestruct "Hok" as %->. wp_steps. iApply (wp_set_field _ d (upd a) with "Hd"); [done..|].
    iIntros "Hd". wp_steps. iFrame. by iApply (returns_ok _ _ _ a).
  - iDestruct "Hbad" as %->. wp_steps. iFrame. iRight. iExists got. by iFrame.
Qed.

Lemma create_device_spec p id x :
  {{ service_own p id }} create_device p @ x {{ r x',
    service_own p id ∗
    returns (s_create_device id) x x' r.1
      (λ d, ∃ q, ⟪r.2 = Some q⟫ ∗ mac_device_own q d) ⟪r.2 = None⟫ }}.
Proof.
  iIntros "Hs". iDestruct (service_own_not_null with "Hs") as "[%Hn Hs]".
  unfold create_device, then_check, if_ok. wp_steps.
  wp_call (mac_device_allocate_spec x). iIntros ([e q] x1) "H". returned "H"; last first.
  { iDestruct "Hbad" as %->. mac_frees. iFrame. iRight. iExists got. iFrame. iPureIntro.
    split; [by eapply pure_failed|done]. }
  apply succeeded_ret_inv in Ha as (-> & Ht & Hc). iRename "Hok" into "Hd".
  assert (Hsp : s_create_device id (x_trace x) = s_create_device id (x_trace x1)) by by rewrite Ht.
  wp_step. wp_call (get_uint16_into_spec p id q (MacDevice 0 None 0 0 0) kUSBVendorID set_vendor_id
    (λ n, MacDevice 0 None 0 n 0) x1 (λ _ _, eq_refl) (λ _, eq_refl)).
  iIntros (e x2) "[Hs H]". returned "H"; last first.
  { mac_frees. iFrame. iApply (returns_tail with "[-]"); [exact Hc|exact Hsp|]. fails. }
  rename a into vendor. iRename "Hok" into "Hd". wp_step.
  wp_call (get_uint16_into_spec p id q (MacDevice 0 None 0 vendor 0) kUSBProductID set_product_id
    (λ n, MacDevice 0 None n vendor 0) x2 (λ _ _, eq_refl) (λ _, eq_refl)).
  iIntros (e x3) "[Hs H]". returned "H"; last first.
  { mac_frees. iFrame. iApply (returns_tail with "[-]"); [exact Hc|exact Hsp|]. fails. }
  rename a into product. iRename "Hok" into "Hd". wp_step.
  wp_call (get_uint16_into_spec p id q (MacDevice 0 None product vendor 0) kUSBDeviceReleaseNumber set_revision
    (λ n, MacDevice 0 None product vendor n) x3 (λ _ _, eq_refl) (λ _, eq_refl)).
  iIntros (e x4) "[Hs H]". returned "H"; last first.
  { mac_frees. iFrame. iApply (returns_tail with "[-]"); [exact Hc|exact Hsp|]. fails. }
  rename a into revision. iDestruct "Hok" as (l sn) "(-> & Hl & ->)". wp_steps.
  wp_call (get_string_spec p id kUSBSerialNumberString x4). iIntros ([e s] x5) "[Hs H]". returned "H"; last first.
  { iDestruct "Hbad" as %->. unfold set_field. wp_steps.
    iAssert (mac_device_own (Heap l) (MacDevice 0 None product vendor revision)) with "[-Hs He]" as "Hd".
    { iExists l, NULL. by iFrame. }
    mac_frees. iFrame. iApply (returns_tail with "[-]"); [exact Hc|exact Hsp|]. fails. }
  rename a into serial. unfold set_field at 1. wp_steps.
  iAssert (mac_device_own (Heap l) (MacDevice 0 serial product vendor revision)) with "[-Hs]" as "Hd".
  { iExists l, s. by iFrame. }
  wp_call (get_id_spec p id x5). iIntros ([e n] x6) "[Hs H]". returned "H".
  - iDestruct "Hok" as %->. wp_step.
    iApply (wp_set_field _ _ (MacDevice a serial product vendor revision) with "Hd"); [done..|].
    iIntros "Hd". mac_frees. iFrame. iApply (returns_tail with "[-]"); [exact Hc|exact Hsp|].
    iApply (returns_ok _ _ _ (MacDevice a serial product vendor revision) with "[-]"); [chain|].
    iExists (Heap l). by iFrame.
  - wp_step. iApply (wp_set_field _ _ (MacDevice n serial product vendor revision) with "Hd"); [done..|].
    iIntros "Hd". mac_frees. iFrame. iApply (returns_tail with "[-]"); [exact Hc|exact Hsp|]. fails.
Qed.

(** ** Copies *)

Lemma mac_device_copy_spec p d x :
  {{ mac_device_own p d }} libusbp_device_copy p true @ x {{ r x',
    mac_device_own p d ∗
    returns (mret d) x x' r.1 (λ d, ∃ q, ⟪r.2 = Some q⟫ ∗ mac_device_own q d) ⟪r.2 = Some NULL⟫ }}.
Proof.
  iIntros "H". iDestruct (mac_device_own_not_null with "H") as "[%Hn H]".
  unfold libusbp_device_copy, then_check. wp_steps.
  wp_call (mac_device_allocate_spec x). iIntros ([e q] x1) "Hnew". returned "Hnew"; last first.
  { iDestruct "Hbad" as %->. mac_frees. iFrame. iRight. iExists got. iFrame. iPureIntro.
    split; [by eapply pure_failed|done]. }
  apply succeeded_ret_inv in Ha as (-> & Ht & Hc). iDestruct "Hok" as (l sn0) "(-> & Hl & ->)".
  wp_steps. iApply (mac_device_own_load with "H"). iIntros (sn) "Hsn H".
  unfold set_field. wp_steps. iDestruct ("H" with "Hsn") as "H".
  iApply (mac_device_own_load with "H"). iIntros (sn') "Hsn H".
  iDestruct (opt_str_own_null with "Hsn") as "[%Hsn Hsn]".
  cbn [mac_device_struct mdev_serial_number]. rewrite Hsn.
  iAssert (l ↦ OMacDevice (mac_device_struct NULL d))%I with "[$]" as "Hl".
  destruct d as [i [s|] v pr rv]; cbn [md_serial opt_str_own negb] in *; wp_steps; last first.
  { iDestruct ("H" with "Hsn") as "H". iApply mac_device_free_null.
    wp_steps. iFrame "H". iApply (returns_ok _ _ _ (MacDevice i None v pr rv)); [by apply succeeded_ret|].
    iExists (Heap l). iSplit; [done|]. iExists l, NULL. by iFrame. }
  wp_call (string_copy_own sn' s x1). iIntros ([e c] x2) "[Hsn Hc]".
  iDestruct ("H" with "Hsn") as "H". returned "Hc".
  - apply succeeded_ret_inv in Ha as (-> & Ht2 & Hc2). wp_steps. iApply mac_device_free_null.
    wp_steps. iFrame "H". iApply (returns_ok _ _ _ (MacDevice i (Some s) v pr rv) with "[-]").
    { apply succeeded_ret; [by etrans|congruence]. }
    iExists (Heap l). iSplit; [done|]. iExists l, c. by iFrame.
  - iDestruct "Hbad" as %->. wp_steps.
    iAssert (mac_device_own (Heap l) (MacDevice i None v pr rv)) with "[-He H]" as "Hd".
    { iExists l, NULL. by iFrame. }
    mac_frees. iFrame "H". iApply (returns_tail _ (mret (MacDevice i (Some s) v pr rv)) x x1 with "[-]");
      [exact Hc|by rewrite Ht|].
    iRight. iExists got. iFrame. iPureIntro. split; [by eapply pure_failed|done].
Qed.

(** ** Getters *)

Lemma mac_device_get_number_spec field name value p d x :
  (∀ sn, field (mac_device_struct sn d) = value) →
  {{ mac_device_own p d }} device_get_number field name p true @ x {{ r x',
    ⟪r = (NULL, Some value) ∧ x' = x⟫ ∗ mac_device_own p d }}.
Proof.
  iIntros (Hf) "H". iDestruct (mac_device_own_not_null with "H") as "[%Hn H]".
  unfold device_get_number. wp_steps. iApply (mac_device_own_load with "H").
  iIntros (sn) "Hs H". rewrite Hf. wp_steps. iSplit; [done|]. by iApply "H".
Qed.

Lemma mac_get_vendor_id_spec p d x :
  {{ mac_device_own p d }} libusbp_device_get_vendor_id p true @ x {{ r x',
    ⟪r = (NULL, Some (md_vendor d)) ∧ x' = x⟫ ∗ mac_device_own p d }}.
Proof. by apply mac_device_get_number_spec. Qed.

Lemma mac_get_product_id_spec p d x :
  {{ mac_device_own p d }} libusbp_device_get_product_id p true @ x {{ r x',
    ⟪r = (NULL, Some (md_product d)) ∧ x' = x⟫ ∗ mac_device_own p d }}.
Proof. by apply mac_device_get_number_spec. Qed.

Lemma mac_get_revision_spec p d x :
  {{ mac_device_own p d }} libusbp_device_get_revision p true @ x {{ r x',
    ⟪r = (NULL, Some (md_revision d)) ∧ x' = x⟫ ∗ mac_device_own p d }}.
Proof. by apply mac_device_get_number_spec. Qed.

Lemma mac_device_get_id_spec p d x :
  {{ mac_device_own p d }} device_get_id p @ x {{ r x',
    ⟪r = md_id d ∧ x' = x⟫ ∗ mac_device_own p d }}.
Proof.
  iIntros "H". iDestruct (mac_device_own_not_null with "H") as "[%Hn H]".
  unfold device_get_id. wp_steps. iApply (mac_device_own_load with "H").
  iIntros (sn) "Hs H". wp_steps. iSplit; [done|]. by iApply "H".
Qed.

Definition mac_no_serial_number : aerr :=
  err_code (err_new "Device does not have a serial number.") LIBUSBP_ERROR_NO_SERIAL_NUMBER.

Lemma mac_get_serial_number_spec p d x :
  {{ mac_device_own p d }} libusbp_device_get_serial_number p true @ x {{ r x',
    mac_device_own p d ∗
    returns (sopt (md_serial d) mac_no_serial_number) x x' r.1 (out_str r.2) ⟪r.2 = Some NULL⟫ }}.
Proof.
  iIntros "H". iDestruct (mac_device_own_not_null with "H") as "[%Hn H]".
  unfold libusbp_device_get_serial_number. wp_steps. iApply (mac_device_own_load with "H").
  iIntros (sn) "Hs H". iDestruct (opt_str_own_null with "Hs") as "[%Hsn Hs]".
  cbn [mac_device_struct mdev_serial_number]. rewrite Hsn.
  destruct (md_serial d) as [s|] eqn:Ed; cbn [opt_str_own].
  - wp_steps. wp_call (string_copy_own sn s x). iIntros ([e q] x1) "[Hs H']".
    iDestruct ("H" with "Hs") as "H". wp_steps. iFrame. by iApply returns_out_str.
  - wp_steps. err_chain. iDestruct ("H" with "Hs") as "H". iFrame.
    iApply (returns_sopt with "[-]"); [done|]. by iFrame.
Qed.

(** The OS ID is the registry entry ID in hexadecimal. *)
Lemma mac_get_os_id_spec p d x :
  {{ mac_device_own p d }} libusbp_device_get_os_id p true @ x {{ r x',
    mac_device_own p d ∗
    returns (mret (fmt_x 1 (md_id d))) x x' r.1 (out_str r.2) ⟪r.2 = Some NULL⟫ }}.
Proof.
  iIntros "H". iDestruct (mac_device_own_not_null with "H") as "[%Hn H]".
  unfold libusbp_device_get_os_id. wp_steps. iApply (mac_device_own_load with "H").
  iIntros (sn) "Hs H". iDestruct ("H" with "Hs") as "H". wp_steps.
  wp_call (iokit_id_to_string_spec (md_id d) x). iIntros ([e q] x1) "H'".
  wp_steps. iFrame. by iApply returns_out_str.
Qed.
End specs.
