(* ===== verification/ListMac.v ===== *)
(** * ListMac: listing devices on macOS (src/src/mac/list_mac.c)

    [libusbp_list_connected_devices] builds the array of devices from the USB host
    devices in the registry; a device that cannot be examined is left out. *)

From S2P Require Import Prelude Memory Logic Format Errors Results Basics Strings MacOS ErrorMac IokitMac DeviceMac.
#[local] Set Warnings "-rewrite-rw".

Section code.
Context `{OS : MacOS}.

(** What is stored in [*device], which is NULL before. *)
Definition try_create_device (service : ptr) : M ptr :=
  '(error, device) ← create_device service;
  let device := default NULL device in
  when (negb (is_null error))
    (c_assert (is_null device);;
     libusbp_error_free error);;
  mret device.

(** The loop over the services: the error, the list and the count. *)
Fixpoint list_connected_devices_loop (fuel : nat) (iterator new_list : ptr) (count : Z) :
    M (ptr * ptr * Z) :=
  match fuel with
  | O => stuck OutOfFuel
  | S fuel =>
      service ← IOIteratorNext iterator;
      if is_null service then mret (NULL, new_list, count) else
      device ← try_create_device service;
      '(error, new_list, count) ←
        (if negb (is_null device) then device_list_append new_list count device
         else mret (NULL, new_list, count));
      IOObjectRelease service;;
      if is_null error then list_connected_devices_loop fuel iterator new_list count
      else mret (error, new_list, count)
  end.

(** The error, what is stored in [*device_list] and what is stored in
    [*device_count]. *)
Definition libusbp_list_connected_devices (list_given count_given : bool) :
    M (ptr * option ptr * option Z) :=
  let device_count := if count_given then Some 0 else None in
  if negb list_given then
    error ← error_create "Device list output pointer is null.";
    mret (error, None, device_count)
  else
  (* Create a dictionary that says "IOProviderClass" => "IOUSBDevice". *)
  dict ← IOServiceMatching "IOUSBHostDevice";
  error ← (if is_null dict then error_create "IOServiceMatching returned null." else mret NULL);
  (* Create an iterator for all the connected USB devices. *)
  '(error, iterator, dict) ←
    (if is_null error then
       '(result, iterator) ← IOServiceGetMatchingServices dict;
       error ← mach_check result "Failed to get matching services.";
       mret (error, iterator, NULL)
     else mret (error, NULL, dict));
  (* Allocate a new list. *)
  '(error, new_list) ← if_ok error NULL device_list_create;
  (* Loop through the devices and add them to our list. *)
  '(error, new_list, count) ←
    (if is_null error then
       fuel ← iterator_rounds iterator;
       list_connected_devices_loop fuel iterator new_list 0
     else mret (error, new_list, 0));
  (* Pass the list and the count to the caller. *)
  let '(device_list, device_count, new_list) :=
    if is_null error then
      (Some new_list, if count_given then Some count else device_count, NULL)
    else (None, device_count, new_list) in
  (* Clean up. *)
  c_assert (is_null dict);;
  when (negb (is_null dict)) (CFRelease dict);;
  when (negb (is_null iterator)) (IOObjectRelease iterator);;
  free_devices_and_list libusbp_device_free new_list;;
  mret (error, device_list, device_count).
End code.

(** ** What the functions mean *)

Section specs.
Context `{OS : MacOS} {LAWS : MacLaws OS}.

(** The devices of the entries, without those that cannot be examined. *)
Fixpoint s_create_devices (ids : list Z) : Spec (list mac_device) := λ h,
  match ids with
  | [] => (inr [], h)
  | id :: ids =>
      let '(r, h) := s_create_device id h in
      let '(ds, h) := s_create_devices ids h in
      (match r, ds with
       | inr d, inr ds => inr (d :: ds)
       | _, _ => ds
       end, h)
  end.

Definition s_matching (class : string) : Spec unit := λ h,
  (if mac_matching h class then inr tt else inl (err_new "IOServiceMatching returned null."),
   EvMac (EvMatching class) :: h).

Definition s_matching_services (class : string) : Spec (list Z) := λ h,
  s_io (mac_matching_services h class).1 (mac_matching_services h class).2
    (EvMatchingServices class) "Failed to get matching services." h.

Definition s_services : Spec (list Z) :=
  s_matching "IOUSBHostDevice";; s_matching_services "IOUSBHostDevice".

Definition s_list_connected : Spec (list mac_device) :=
  ids ← s_services; s_create_devices ids.

Lemma s_create_devices_ok ids h : ∃ ds h', s_create_devices ids h = (inr ds, h').
Proof.
  revert h. induction ids as [|id ids IH]; intros h; cbn [s_create_devices]; [by eauto|].
  destruct (s_create_device id h) as [r h1]. destruct (IH h1) as (ds & h' & ->).
  destruct r; eauto.
Qed.

(** ** One device *)

Definition opt_mac_device (p : ptr) (o : option mac_device) : hProp :=
  match o with Some d => mac_device_own p d | None => ⟪p = NULL⟫ end%I.

Definition created (r : aerr + mac_device) : option mac_device :=
  match r with inr d => Some d | inl _ => None end.

Lemma try_create_device_spec p id x :
  {{ service_own p id }} try_create_device p @ x {{ r x',
    service_own p id ∗ ∃ t, opt_mac_device r (created t) ∗
      ⟪calm x x' ∧ (s_create_device id (x_trace x) = (t, x_trace x') ∨ oomed x x')⟫ }}.
Proof.
  iIntros "Hs". unfold try_create_device. wp_step. wp_call (create_device_spec p id x).
  iIntros ([e o] x1) "[Hs H]". returned "H".
  - iDestruct "Hok" as (q) "[-> Hd]". cbn [default]. wp_steps. iFrame. iExists (inr a). iFrame.
    iPureIntro. destruct Ha as [Hc E]. split; [done|by left].
  - iDestruct "Hbad" as %->. cbn [default]. wp_steps.
    wp_call (libusbp_error_free_spec e (Some got) x1). iIntros ([] ?) "->". wp_steps. iFrame.
    iExists (inl got). iPureIntro. split; [done|]. destruct Hfailed as [Hc E]. split; [done|].
    destruct E as [E|[_ E]]; [by left|by right].
Qed.

Lemma mac_mostly_cons id ids x x1 x' t ds :
  calm x x1 → (s_create_device id (x_trace x) = (t, x_trace x1) ∨ oomed x x1) →
  mostly (s_create_devices ids) x1 x' ds →
  mostly (s_create_devices (id :: ids)) x x' (option_list (created t) ++ ds).
Proof.
  intros Hc E [Hc' E']. split; [by etrans|].
  destruct E as [E|E]; [|right; by eapply oomed_l].
  destruct E' as [E'|E']; [|right; by eapply oomed_r].
  left. cbn [s_create_devices]. rewrite E E'. by destruct t.
Qed.

(** ** The whole list *)

(** A device that nothing refers to any more. *)
Definition leaked_device : hProp := (∃ q d, mac_device_own q d)%I.

Lemma mac_list_loop_spec l ids p ds x :
  {{ l ↦ OIterator ids ∗ device_list p ds }}
    list_connected_devices_loop (S (List.length ids)) (Heap l) p (Z.of_nat (List.length ds)) @ x
  {{ r x', iterator_own (Heap l) ∗
    ((∃ ds', ⟪r.1.1 = NULL ∧ r.2 = Z.of_nat (List.length (ds ++ ds')) ∧
              mostly (s_create_devices ids) x x' ds'⟫ ∗ device_list r.1.2 (ds ++ ds')) ∨
     (∃ ds', ⟪r.1.1 = Static error_no_memory ∧ calm x x' ∧ oomed x x'⟫ ∗
       device_list r.1.2 ds' ∗ leaked_device)) }}.
Proof.
  revert p ds x. induction ids as [|id ids IH]; intros p ds x;
    iIntros "[Hl Hds]"; cbn [list_connected_devices_loop].
  all: wp_step; iApply (wp_next with "Hl"); iIntros (s) "Hl Hs"; cbn [head tail].
  { iDestruct "Hs" as %->. wp_steps. iSplitL "Hl"; [by iApply iterator_own_intro|].
    iLeft. iExists []. rewrite app_nil_r. iFrame. iPureIntro. split_and!; [done..|].
    split; [done|by left]. }
  iDestruct (opt_service_own_null with "Hs") as "[%Hn Hs]". cbn [opt_service_own] in *. wp_steps.
  wp_call (try_create_device_spec s id x). iIntros (q x1) "(Hs & %t & Hd & %H)".
  destruct H as [Hc E]. destruct t as [got|d]; cbn [created opt_mac_device].
  - iDestruct "Hd" as %->. wp_steps. iApply (wp_release_service with "Hs"). wp_steps.
    iApply (wp_wand with "[Hl Hds]"); [iApply IH; iFrame|].
    iIntros (r x') "[$ [(%ds' & %H & Hds)|(%ds' & %H & Hds)]]".
    + destruct H as (H1 & H2 & H3). iLeft. iExists ds'. iFrame. iPureIntro. split_and!; [done..|].
      by eapply (mac_mostly_cons _ _ _ _ _ (inl got)).
    + destruct H as (H1 & H2 & H3). iRight. iExists ds'. iFrame. iPureIntro.
      split_and!; [done|by etrans|by eapply oomed_r].
  - iDestruct (mac_device_own_not_null with "Hd") as "[%Hq Hd]". wp_steps.
    change (mac_device_own q d) with (Basics.device_own q d).
    wp_call (device_list_append_spec p ds q d x1).
    iIntros ([[e p'] n] x2) "[[%H Hds]|[%H [Hds Hd]]]".
    + destruct H as (He & Hn2 & Hq2). cbn [fst snd] in *. subst. wp_steps.
      iApply (wp_release_service with "Hs"). wp_steps.
      iApply (wp_wand with "[Hl Hds]"); [iApply IH; iFrame|].
      pose proof (quiet_calm _ _ Hq2) as Hc2.
      iIntros (r x') "[$ [(%ds' & %H & Hds)|(%ds' & %H & Hds)]]".
      * destruct H as (H1 & H2 & H3). iLeft. iExists (d :: ds'). rewrite -!app_assoc in H2 |- *.
        iFrame. iPureIntro. split_and!; [done..|].
        eapply (mac_mostly_cons _ _ _ x2 _ (inr d)); [by etrans| |done].
        destruct E as [E|E]; [left|right; by eapply oomed_l]. by destruct Hq2 as [-> _].
      * destruct H as (H1 & H2 & H3). iRight. iExists ds'. iFrame. iPureIntro.
        split_and!; [done|by do 2 (etrans; [eassumption|])|].
        eapply oomed_r; [|done]. by etrans.
    + destruct H as ([= -> -> ->] & Hq2 & Ho). wp_steps.
      iApply (wp_release_service with "Hs"). wp_steps.
      iSplitL "Hl"; [by iApply iterator_own_intro|].
      iRight. iExists ds. iFrame. iPureIntro. split_and!; [done|etrans; [done|by apply quiet_calm]|].
      by eapply oomed_r.
Qed.

Lemma free_no_devices x Q : Q tt x ⊢ wp (free_devices_and_list libusbp_device_free NULL) x Q.
Proof. apply wp_ret. Qed.

(** The dictionary and the iterator over the services that match it. *)
Lemma wp_matching_services {B} (k : ptr * ptr * ptr → M B) x Q :
  (∀ e iterator x',
     returns s_services x x' e
       (λ ids, ∃ l, ⟪iterator = Heap l⟫ ∗ l ↦ OIterator ids) ⟪iterator = NULL⟫ -∗
     wp (k (e, iterator, NULL)) x' Q) ⊢
  wp (dict ← IOServiceMatching "IOUSBHostDevice";
      error ← (if is_null dict then error_create "IOServiceMatching returned null." else mret NULL);
      (if is_null error then
         '(result, iterator) ← IOServiceGetMatchingServices dict;
         error ← mach_check result "Failed to get matching services.";
         mret (error, iterator, NULL)
       else mret (error, NULL, dict)) ≫= k) x Q.
Proof.
  iIntros "HQ". unfold IOServiceMatching, IOServiceGetMatchingServices, CFRelease, log_mac.
  set (class := "IOUSBHostDevice"). wp_steps. set (h := x_trace x).
  set (x1 := mac_ext (EvMatching class) x). pose proof (calm_mac (EvMatching class) x) as Hc1.
  assert (Hm : s_matching class h = (if mac_matching h class then inr tt
    else inl (err_new "IOServiceMatching returned null."), x_trace x1)) by done.
  destruct (mac_matching h class); wp_steps; last first.
  { iApply wp_error_create; [done|]. err_intro. wp_steps. iApply "HQ".
    iApply (returns_err_from with "[-]"); [exact Hc1| |by iFrame]. by apply sbind_err. }
  iApply wp_new_block. iIntros (l) "Hl". wp_steps.
  assert (Ha : succeeded (s_matching class) x x1 tt) by done.
  destruct (mac_matching_services _ class) as [kr ids] eqn:Ek.
  assert (Hs : s_matching_services class (x_trace x1) =
    s_io kr ids (EvMatchingServices class) "Failed to get matching services." (x_trace x1)).
  { unfold s_matching_services. change (x_trace x1) with (EvMac (EvMatching class) :: h).
    by rewrite Ek. }
  destruct (kr =? KERN_SUCCESS) eqn:Ekr; wp_steps.
  - iApply wp_new_block. iIntros (li) "Hi". wp_steps.
    iApply (wp_mach_checked _ ids (EvMatchingServices class) _ (s_matching_services class) x1);
      [done|exact Hs|]. rewrite Ekr. iIntros (Hb). wp_steps. iApply "HQ".
    iApply (returns_ok _ _ _ ids); [chain|]. iExists li. by iFrame.
  - iApply (wp_mach_checked _ ids (EvMatchingServices class) _ (s_matching_services class) x1);
      [done|exact Hs|]. rewrite Ekr. iIntros (r x' got [Hr Hf]) "He". wp_steps. iApply "HQ".
    iRight. iExists got. iFrame. iSplit; [|done]. iPureIntro. chain.
Qed.

Lemma mac_list_connected_devices_spec count_given x :
  {{ emp }} libusbp_list_connected_devices true count_given @ x {{ r x',
    (∃ p ds, ⟪r = (NULL, Some p, if count_given then Some (Z.of_nat (List.length ds)) else None) ∧
              mostly s_list_connected x x' ds⟫ ∗ device_list p ds) ∨
    (∃ got, ⟪r.1.2 = None ∧ r.2 = (if count_given then Some 0 else None)⟫ ∗ err_own r.1.1 got ∗
       (⟪failed s_list_connected x x' got⟫ ∨
        ⟪got = no_memory ∧ calm x x' ∧ oomed x x'⟫ ∗ leaked_device)) }}.
Proof.
  iIntros "_". unfold libusbp_list_connected_devices, if_ok. wp_simpl.
  iApply wp_matching_services. iIntros (e it x1) "H". returned "H"; last first.
  { iDestruct "Hbad" as %->. wp_steps. iApply free_no_devices. wp_steps.
    iRight. iExists got. iFrame. iSplit; [done|]. iLeft. iPureIntro.
    chain. }
  rename a into ids. iDestruct "Hok" as (l) "[-> Hl]". wp_steps.
  wp_call (device_list_create_spec x1). iIntros ([e p] x2) "H". returned "H"; last first.
  { iDestruct "Hbad" as %->. wp_steps.
    iApply (wp_release_iterator with "[Hl]"); [by iApply iterator_own_intro|]. wp_steps.
    iApply free_no_devices. wp_steps. iRight. iExists got. iFrame. iSplit; [done|]. iLeft. iPureIntro.
    eapply failed_bind_r; [done|]. by eapply pure_failed. }
  apply succeeded_ret_inv in Ha0 as (_ & Ht & Hc). unfold iterator_rounds. wp_steps.
  iApply (wp_wand with "[-]"); [iApply (mac_list_loop_spec l ids p [] x2); iFrame|].
  iIntros ([[e p'] n] x3) "[Hi [(%ds & %H & Hds)|(%ds & %H & Hds & Hleak)]]"; cbn [fst snd] in *.
  - destruct H as (-> & -> & Hm). wp_steps. iApply (wp_release_iterator with "Hi"). wp_steps.
    iApply free_no_devices. wp_steps. iLeft. iExists p', ds. iFrame. iPureIntro.
    split; [by destruct count_given|]. eapply mostly_bind; [eassumption|]. by eapply mostly_quiet_l.
  - destruct H as (-> & Hc3 & Ho). wp_steps. iApply (wp_release_iterator with "Hi"). wp_steps.
    wp_call (free_devices_and_list_spec p' ds x3). iIntros ([] ?) "->". wp_steps.
    iRight. iExists no_memory. iSplit; [done|]. iSplitR; [by iLeft; iPureIntro; eexists|].
    iRight. iFrame. iPureIntro. destruct Ha as [Hc0 _]. split_and!; [done|by do 2 (etrans; [eassumption|])|].
    eapply oomed_r; [|done]. by etrans.
Qed.
End specs.

(** ** Properties *)

Section properties.
Context `{OS : MacOS} {LAWS : MacLaws OS}.

(** C36. On macOS [libusbp_list_connected_devices] lists exactly the USB host devices
    that the registry names and whose properties can be read, in the registry's
    order: [device_list p ds] is a null-terminated array at [p] whose pointers refer,
    in the order of [ds], to new device objects with the registry entry IDs, the IDs,
    revisions and serial numbers of [ds], and [ds] is the list that [s_list_connected]
    takes from the registry.  The count is the number of the devices.  The errors of
    single devices are dropped without a leak.  It fails only when the registry
    cannot be searched (with the error of that) or an allocation failed, and then stores
    no list and a count of 0.  Only when an allocation failed may the list differ,
    because a device can then be skipped; and the one leak that is possible is a single
    device, when the list cannot be made longer for it. *)
Theorem mac_list_connected_devices_lists x :
  {{ emp }} libusbp_list_connected_devices true true @ x
  {{ r x', ⟪calm x x'⟫ ∗
     ((∃ p ds, ⟪r = (NULL, Some p, Some (Z.of_nat (List.length ds))) ∧
          (s_list_connected (x_trace x) = (inr ds, x_trace x') ∨ oomed x x')⟫ ∗ device_list p ds) ∨
      (∃ e a, ⟪r = (e, None, Some 0) ∧
          (s_list_connected (x_trace x) = (inl a, x_trace x') ∨ oomed x x')⟫ ∗ err_own e a) ∨
      (∃ e, ⟪r = (e, None, Some 0) ∧ oomed x x'⟫ ∗ err_own e no_memory ∗ leaked_device)) }}.
Proof.
  iIntros "_". wp_call (mac_list_connected_devices_spec true x).
  iIntros (r x1) "[(%p & %ds & %H & Hds)|(%a & %H & He & H')]".
  - destruct H as (-> & Hc & Hm). iSplit; [done|]. iLeft. iExists p, ds. by iFrame.
  - destruct r as [[e l] n], H as [Hl Hn]. cbn [fst snd] in Hl, Hn. subst l n. cbn [fst].
    iDestruct "H'" as "[%H|[%H Hd]]".
    + destruct H as [Hc Hf]. iSplit; [done|]. iRight. iLeft. iExists e, a. iFrame. iPureIntro.
      split; [done|]. destruct Hf as [Hf|[_ Hf]]; [by left|by right].
    + destruct H as (-> & Hc & Ho). iSplit; [done|]. iRight. iRight. iExists e. by iFrame.
Qed.
End properties.

(** ** On the example machine *)

#[local] Existing Instance Example_mac.machine.
#[local] Existing Instance Example_mac.machine_laws.

(** An interface is not a device: it has no vendor ID, so it is left out. *)
Lemma mac_list_connected_devices_lists_witness :
  let x := Ext [] 0 0 in
  (∃ h, s_list_connected [] =
     (inr [MacDevice Example_mac.composite_device (Some "00012345") 0xda01 0x1ffb 0x111;
           MacDevice Example_mac.other_device None 0x101 0x1ffb 0x100], h)) ∧
  {{ emp }} libusbp_list_connected_devices true true @ x
  {{ r x', ⟪calm x x'⟫ ∗
     ((∃ p ds, ⟪r = (NULL, Some p, Some (Z.of_nat (List.length ds))) ∧
          (s_list_connected (x_trace x) = (inr ds, x_trace x') ∨ oomed x x')⟫ ∗ device_list p ds) ∨
      (∃ e a, ⟪r = (e, None, Some 0) ∧
          (s_list_connected (x_trace x) = (inl a, x_trace x') ∨ oomed x x')⟫ ∗ err_own e a) ∨
      (∃ e, ⟪r = (e, None, Some 0) ∧ oomed x x'⟫ ∗ err_own e no_memory ∗ leaked_device)) }}.
Proof.
  intros x. split; [eexists; vm_compute; reflexivity|]. exact (mac_list_connected_devices_lists x).
Defined.
