(* ===== verification/InterfaceMac.v ===== *)
(** * InterfaceMac: generic interfaces on macOS (src/src/mac/generic_interface_mac.c)

    For a composite device, the creation of a generic interface finds the registry
    entry of the USB interface; for other devices it only records what the caller
    asked for, since the device may not be configured yet. *)

From S2P Require Import Prelude Memory Logic Format Errors Results Basics Strings MacOS ErrorMac IokitMac DeviceMac.
#[local] Set Warnings "-rewrite-rw".

Section code.
Context `{OS : MacOS}.

(** A struct from [calloc]. *)
Definition zeroed_interface : libusbp_generic_interface_mac :=
  {| mgi_device_id := 0; mgi_interface_number := 0; mgi_has_interface_id := false;
     mgi_interface_id := 0 |}.

Definition generic_interface_allocate : M (ptr * ptr) :=
  gi ← calloc 1 sizeof_libusbp_generic_interface_mac (OMacInterface zeroed_interface);
  mret (if is_null gi then Static error_no_memory else NULL, gi).

Definition libusbp_generic_interface_free (gi : ptr) : M unit := free gi.

(** Assignments to the fields. *)
Definition set_device_id (n : Z) (g : libusbp_generic_interface_mac) : libusbp_generic_interface_mac :=
  {| mgi_device_id := n; mgi_interface_number := mgi_interface_number g;
     mgi_has_interface_id := mgi_has_interface_id g; mgi_interface_id := mgi_interface_id g |}.
Definition set_interface_number (n : Z) (g : libusbp_generic_interface_mac) : libusbp_generic_interface_mac :=
  {| mgi_device_id := mgi_device_id g; mgi_interface_number := n;
     mgi_has_interface_id := mgi_has_interface_id g; mgi_interface_id := mgi_interface_id g |}.
Definition set_has_interface_id (g : libusbp_generic_interface_mac) : libusbp_generic_interface_mac :=
  {| mgi_device_id := mgi_device_id g; mgi_interface_number := mgi_interface_number g;
     mgi_has_interface_id := true; mgi_interface_id := mgi_interface_id g |}.
Definition set_interface_id (n : Z) (g : libusbp_generic_interface_mac) : libusbp_generic_interface_mac :=
  {| mgi_device_id := mgi_device_id g; mgi_interface_number := mgi_interface_number g;
     mgi_has_interface_id := mgi_has_interface_id g; mgi_interface_id := n |}.

Definition set_gi (gi : ptr) (f : libusbp_generic_interface_mac → libusbp_generic_interface_mac) : M unit :=
  g ← load_as as_interface_mac gi;
  store gi (OMacInterface (f g)).

(** The block of [libusbp_generic_interface_create] for a composite device. *)
Definition find_interface_id (new_gi : ptr) (interface_number : Z) : M ptr :=
  (* Get an io_service_t for the physical device. *)
  g ← load_as as_interface_mac new_gi;
  '(error, device_service) ← service_get_from_id (mgi_device_id g);
  (* Get the io_service_t for the interface. *)
  '(error, interface_service) ← if_ok error NULL
    (service_get_usb_interface device_service interface_number);
  (* Get the registry entry ID for the interface. *)
  error ← then_check error
    (c_assert (negb (is_null interface_service));;
     '(error, id) ← get_id interface_service;
     set_gi new_gi (set_interface_id id);;
     mret error);
  (* Record the fact that we have an ID for the interface. *)
  when (is_null error)
    (g ← load_as as_interface_mac new_gi;
     c_assert (negb (mgi_interface_id g =? 0));;
     c_assert (negb (mgi_interface_id g =? mgi_device_id g));;
     set_gi new_gi set_has_interface_id);;
  when (negb (is_null device_service)) (IOObjectRelease device_service);;
  when (negb (is_null interface_service)) (IOObjectRelease interface_service);;
  mret error.

Definition libusbp_generic_interface_create (device : ptr) (interface_number : Z)
    (composite gi_given : bool) : M (ptr * option ptr) :=
  if negb gi_given then
    error ← error_create "Generic interface output pointer is null.";
    mret (error, None)
  else if is_null device then
    error ← error_create "Device is null.";
    mret (error, Some NULL)
  else
  '(error, new_gi) ← generic_interface_allocate;
  (* Record the I/O registry ID for the device. *)
  when (is_null error) (id ← device_get_id device; set_gi new_gi (set_device_id id));;
  (* Record the interface number. *)
  when (is_null error) (set_gi new_gi (set_interface_number interface_number));;
  (* If this is a composite device, get the id for the specific interface. *)
  error ← (if is_null error && composite then find_interface_id new_gi interface_number
           else mret error);
  (* Pass the new generic interface to the caller. *)
  let '(gi, new_gi) := if is_null error then (new_gi, NULL) else (NULL, new_gi) in
  libusbp_generic_interface_free new_gi;;
  mret (error, Some gi).

Definition libusbp_generic_interface_copy (source : ptr) (dest_given : bool) : M (ptr * option ptr) :=
  if negb dest_given then
    error ← error_create "Generic interface output pointer is null.";
    mret (error, None)
  else if is_null source then mret (NULL, Some NULL) else
  '(error, new_gi) ← generic_interface_allocate;
  (* Copy the simple fields. *)
  when (is_null error)
    (g ← load_as as_interface_mac source; store new_gi (OMacInterface g));;
  (* Pass the generic interface to the caller. *)
  let '(dest, new_gi) := if is_null error then (new_gi, NULL) else (NULL, new_gi) in
  libusbp_generic_interface_free new_gi;;
  mret (error, Some dest).

Definition generic_interface_get_device_id (gi : ptr) : M Z :=
  c_assert (negb (is_null gi));;
  g ← load_as as_interface_mac gi;
  mret (mgi_device_id g).

Definition generic_interface_get_interface_number (gi : ptr) : M Z :=
  c_assert (negb (is_null gi));;
  g ← load_as as_interface_mac gi;
  mret (mgi_interface_number g).

(** The result and what is stored in [*id]. *)
Definition generic_interface_get_interface_id (gi : ptr) : M (bool * Z) :=
  c_assert (negb (is_null gi));;
  g ← load_as as_interface_mac gi;
  if mgi_has_interface_id g then mret (true, mgi_interface_id g) else mret (false, 0).

Definition libusbp_generic_interface_get_os_id (gi : ptr) (id_given : bool) : M (ptr * option ptr) :=
  if negb id_given then
    error ← error_create "String output pointer is null.";
    mret (error, None)
  else if is_null gi then
    error ← error_create "Generic interface is null.";
    mret (error, Some NULL)
  else
    g ← load_as as_interface_mac gi;
    let idnum := if mgi_has_interface_id g then mgi_interface_id g else mgi_device_id g in
    '(error, copy) ← iokit_id_to_string idnum;
    mret (error, Some copy).

Definition libusbp_generic_interface_get_os_filename (gi : ptr) (filename_given : bool) :
    M (ptr * option ptr) :=
  libusbp_generic_interface_get_os_id gi filename_given.
End code.

(** ** What a generic interface holds *)

Record mac_interface := MacInterface {
  mi_device : Z;
  mi_number : Z;
  mi_id : option Z
}.

Definition mac_interface_struct (i : mac_interface) : libusbp_generic_interface_mac :=
  {| mgi_device_id := mi_device i; mgi_interface_number := mi_number i;
     mgi_has_interface_id := match mi_id i with Some _ => true | None => false end;
     mgi_interface_id := default 0 (mi_id i) |}.

(** A block that is being filled in, and a finished object. *)
Definition gi_block (p : ptr) (g : libusbp_generic_interface_mac) : hProp :=
  (∃ l, ⟪p = Heap l⟫ ∗ l ↦ OMacInterface g)%I.

Definition mac_interface_own (p : ptr) (i : mac_interface) : hProp :=
  gi_block p (mac_interface_struct i).

Lemma gi_block_not_null p g : gi_block p g ⊢ ⌜is_null p = false⌝ ∧ gi_block p g.
Proof. iIntros "H". iSplit; [|done]. by iDestruct "H" as (l) "[-> _]". Qed.

Lemma gi_block_load p g x Q :
  gi_block p g -∗ (gi_block p g -∗ Q g x) -∗ wp (load_as as_interface_mac p) x Q.
Proof.
  iIntros "(%l & -> & Hl) HQ". iApply (wp_load_as with "Hl"); [done|]. iIntros "Hl".
  iApply "HQ". iExists l. by iFrame.
Qed.

Lemma wp_set_gi p g f x Q :
  gi_block p g -∗ (gi_block p (f g) -∗ Q tt x) -∗ wp (set_gi p f) x Q.
Proof.
  iIntros "(%l & -> & Hl) HQ". unfold set_gi. wp_steps. iApply "HQ". iExists l. by iFrame.
Qed.

Lemma mac_interface_free_spec p g x :
  {{ gi_block p g }} libusbp_generic_interface_free p @ x {{ r x', ⟪x' = x⟫ }}.
Proof.
  iIntros "(%l & -> & Hl)". unfold libusbp_generic_interface_free. wp_steps. by iPureIntro.
Qed.

Lemma mac_interface_free_null x Q : Q tt x ⊢ wp (libusbp_generic_interface_free NULL) x Q.
Proof. apply wp_ret. Qed.

Lemma mac_interface_allocate_spec x :
  {{ emp }} generic_interface_allocate @ x {{ r x',
    returns (mret tt) x x' r.1 (λ _, gi_block r.2 zeroed_interface) ⟪r.2 = NULL⟫ }}.
Proof.
  iIntros "_". unfold generic_interface_allocate, calloc. wp_step. iApply wp_malloc_pos; [done|]. iSplit.
  - iIntros (l _) "Hl". wp_steps. iApply (returns_ok _ _ _ tt); [by apply succeeded_ret|].
    iExists l. by iFrame.
  - iIntros (x' [Hq Ho]). wp_steps. by iApply returns_no_memory.
Qed.

Section specs.
Context `{OS : MacOS} {LAWS : MacLaws OS}.

(** ** Creation *)

(** The ID of the interface [n] of the device [id]. *)
Definition s_interface_id (id n : Z) : Spec Z :=
  s_get_from_id id;; c ← s_usb_interface id n; s_get_id c.

Definition s_interface_create (d : mac_device) (n : Z) (composite : bool) : Spec mac_interface :=
  if composite then c ← s_interface_id (md_id d) n; mret (MacInterface (md_id d) n (Some c))
  else mret (MacInterface (md_id d) n None).

Lemma s_find_interface_in ids n h c h' :
  s_find_interface ids n h = (inr (Some c), h') → c ∈ ids.
Proof.
  revert h. induction ids as [|id ids IH]; intros h; cbn [s_find_interface].
  { rewrite sret_eq. by intros [=]. }
  destruct (mac_conforms id kIOUSBInterfaceClassName); [|intros H; apply IH in H; by right].
  intros (k & h1 & _ & H)%sbind_inv. destruct (k =? n).
  - rewrite sret_eq in H. injection H as -> _. by left.
  - apply IH in H. by right.
Qed.

(** The interface that is found is a child of the device. *)
Lemma s_usb_interface_child id n x x' c :
  succeeded (s_usb_interface id n) x x' c → 0 < c < 2 ^ 64 ∧ c ≠ id.
Proof.
  intros [_ (ids & h1 & H1 & (o & h2 & H2 & [-> _]%sopt_inv)%sbind_inv)%sbind_inv].
  apply s_find_interface_in in H2. unfold s_children in H1. apply s_io_inv in H1 as [-> _].
  by apply (children_ids (x_trace x)).
Qed.

Lemma s_get_id_value id x x' n : succeeded (s_get_id id) x x' n → n = id.
Proof. intros [_ H]. unfold s_get_id in H. by apply s_io_inv in H as [-> _]. Qed.

(** Either way, the services are released. *)
Ltac release_services :=
  repeat (wp_steps;
    first [ iApply (wp_release_service with "Hd") | iApply (wp_release_service with "Hi") ]);
  wp_steps.

Lemma find_interface_id_spec p g n x :
  {{ gi_block p g }} find_interface_id p n @ x {{ r x',
    returns (s_interface_id (mgi_device_id g) n) x x' r
      (λ c, gi_block p (set_has_interface_id (set_interface_id c g)))
      (∃ g', gi_block p g') }}.
Proof.
  iIntros "Hg". unfold find_interface_id, if_ok, then_check. wp_step.
  iApply (gi_block_load with "Hg"). iIntros "Hg". set (id := mgi_device_id g). wp_step.
  wp_call (service_get_from_id_spec id x). iIntros ([e d] x1) "H". returned "H"; last first.
  { iDestruct "Hbad" as %->. wp_steps. iRight. iExists got. iFrame. iPureIntro. chain. }
  destruct a. iRename "Hok" into "Hd". iDestruct (service_own_not_null with "Hd") as "[%Hdn Hd]". wp_step.
  wp_call (service_get_usb_interface_spec d id n x1). iIntros ([e s] x2) "[Hd H]". returned "H"; last first.
  { iDestruct "Hbad" as %->. release_services. iRight. iExists got. iFrame. iPureIntro. chain. }
  rename a into c. iRename "Hok" into "Hi". iDestruct (service_own_not_null with "Hi") as "[%Hin Hi]".
  wp_steps. wp_call (get_id_spec s c x2). iIntros ([e k] x3) "[Hi H]".
  assert (Hc : 0 < c < 2 ^ 64 ∧ c ≠ id) by by eapply s_usb_interface_child.
  returned "H"; last first.
  { wp_step. iApply (wp_set_gi with "Hg"). iIntros "Hg". release_services.
    iRight. iExists got. iFrame. iPureIntro. chain. }
  iDestruct "Hok" as %->. pose proof (s_get_id_value _ _ _ _ Ha1) as ->. wp_step.
  iApply (wp_set_gi with "Hg"). iIntros "Hg". wp_steps.
  iApply (gi_block_load with "Hg"). iIntros "Hg". cbn [set_interface_id mgi_interface_id mgi_device_id].
  fold id. destruct (Z.eqb_spec c 0); [lia|]. destruct (Z.eqb_spec c id); [naive_solver|]. wp_steps.
  iApply (wp_set_gi with "Hg"). iIntros "Hg". release_services.
  iApply (returns_ok _ _ _ c with "Hg"). unfold s_interface_id.
  do 2 (eapply succeeded_bind; [eassumption|]). done.
Qed.

Lemma mac_interface_create_spec p d n composite x :
  {{ mac_device_own p d }} libusbp_generic_interface_create p n composite true @ x {{ r x',
    mac_device_own p d ∗
    returns (s_interface_create d n composite) x x' r.1
      (λ i, ∃ q, ⟪r.2 = Some q⟫ ∗ mac_interface_own q i) ⟪r.2 = Some NULL⟫ }}.
Proof.
  iIntros "Hp". iDestruct (mac_device_own_not_null with "Hp") as "[%Hn Hp]".
  unfold libusbp_generic_interface_create. wp_steps.
  wp_call (mac_interface_allocate_spec x). iIntros ([e q] x1) "H". returned "H"; last first.
  { iDestruct "Hbad" as %->. wp_steps. iApply mac_interface_free_null. wp_steps. iFrame.
    iRight. iExists got. iFrame. iPureIntro. split; [by eapply pure_failed|done]. }
  apply succeeded_ret_inv in Ha as (-> & Ht & Hc). iRename "Hok" into "Hg". wp_steps.
  wp_call (mac_device_get_id_spec p d x1). iIntros (? ?) "[%H Hp]". destruct H as [-> ->].
  iApply (wp_set_gi with "Hg"). iIntros "Hg". wp_steps.
  iApply (wp_set_gi with "Hg"). iIntros "Hg".
  set (g := set_interface_number _ _). destruct composite; wp_steps; last first.
  { iApply mac_interface_free_null. wp_steps. iFrame "Hp".
    iApply (returns_ok _ _ _ (MacInterface (md_id d) n None)); [by apply succeeded_ret|].
    iExists q. by iFrame. }
  wp_call (find_interface_id_spec q g n x1). iIntros (e x2) "H".
  assert (Hs : s_interface_create d n true (x_trace x) = s_interface_create d n true (x_trace x1)).
  { by rewrite Ht. }
  returned "H".
  - wp_steps. iApply mac_interface_free_null. wp_steps. iFrame "Hp".
    iApply (returns_tail with "[-]"); [exact Hc|exact Hs|].
    iApply (returns_ok _ _ _ (MacInterface (md_id d) n (Some a))); [chain|].
    iExists q. by iFrame.
  - iDestruct "Hbad" as (g') "Hg". wp_steps. wp_call (mac_interface_free_spec q g' x2).
    iIntros ([] ?) "->". wp_steps. iFrame "Hp".
    iApply (returns_tail with "[-]"); [exact Hc|exact Hs|]. fails.
Qed.

(** ** Copies and getters *)

Lemma mac_interface_copy_spec p i x :
  {{ mac_interface_own p i }} libusbp_generic_interface_copy p true @ x {{ r x',
    mac_interface_own p i ∗
    returns (mret i) x x' r.1 (λ i, ∃ q, ⟪r.2 = Some q⟫ ∗ mac_interface_own q i) ⟪r.2 = Some NULL⟫ }}.
Proof.
  iIntros "Hp". iDestruct (gi_block_not_null with "Hp") as "[%Hn Hp]".
  unfold libusbp_generic_interface_copy. wp_steps.
  wp_call (mac_interface_allocate_spec x). iIntros ([e q] x1) "H". returned "H".
  - apply succeeded_ret_inv in Ha as (-> & Ht & Hc). iDestruct "Hok" as (l) "[-> Hl]". wp_steps.
    iApply (gi_block_load with "Hp"). iIntros "Hp". wp_steps. iApply mac_interface_free_null.
    wp_steps. iFrame "Hp". iApply (returns_ok _ _ _ i); [by apply succeeded_ret|].
    iExists (Heap l). iSplit; [done|]. iExists l. by iFrame.
  - iDestruct "Hbad" as %->. wp_steps. iApply mac_interface_free_null. wp_steps. iFrame.
    iRight. iExists got. iFrame. iPureIntro. split; [by eapply pure_failed|done].
Qed.

Lemma mac_interface_get_device_id_spec p i x :
  {{ mac_interface_own p i }} generic_interface_get_device_id p @ x {{ r x',
    ⟪r = mi_device i ∧ x' = x⟫ ∗ mac_interface_own p i }}.
Proof.
  iIntros "Hp". iDestruct (gi_block_not_null with "Hp") as "[%Hn Hp]".
  unfold generic_interface_get_device_id. wp_steps. iApply (gi_block_load with "Hp").
  iIntros "Hp". wp_steps. by iFrame.
Qed.

Lemma mac_interface_get_number_spec p i x :
  {{ mac_interface_own p i }} generic_interface_get_interface_number p @ x {{ r x',
    ⟪r = mi_number i ∧ x' = x⟫ ∗ mac_interface_own p i }}.
Proof.
  iIntros "Hp". iDestruct (gi_block_not_null with "Hp") as "[%Hn Hp]".
  unfold generic_interface_get_interface_number. wp_steps. iApply (gi_block_load with "Hp").
  iIntros "Hp". wp_steps. by iFrame.
Qed.

Lemma mac_interface_get_id_spec p i x :
  {{ mac_interface_own p i }} generic_interface_get_interface_id p @ x {{ r x',
    ⟪r = match mi_id i with Some id => (true, id) | None => (false, 0) end ∧ x' = x⟫ ∗
    mac_interface_own p i }}.
Proof.
  iIntros "Hp". iDestruct (gi_block_not_null with "Hp") as "[%Hn Hp]".
  unfold generic_interface_get_interface_id. wp_steps. iApply (gi_block_load with "Hp").
  iIntros "Hp". destruct i as [dv n [id|]]; cbn [mac_interface_struct mgi_has_interface_id mi_id];
    wp_steps; by iFrame.
Qed.

Definition mac_os_id (i : mac_interface) : string := fmt_x 1 (default (mi_device i) (mi_id i)).

Lemma mac_interface_get_os_id_spec p i x :
  {{ mac_interface_own p i }} libusbp_generic_interface_get_os_id p true @ x {{ r x',
    mac_interface_own p i ∗
    returns (mret (mac_os_id i)) x x' r.1 (out_str r.2) ⟪r.2 = Some NULL⟫ }}.
Proof.
  iIntros "Hp". iDestruct (gi_block_not_null with "Hp") as "[%Hn Hp]".
  unfold libusbp_generic_interface_get_os_id. wp_steps. iApply (gi_block_load with "Hp").
  iIntros "Hp". wp_step.
  rewrite (_ : (if mgi_has_interface_id (mac_interface_struct i)
                then mgi_interface_id (mac_interface_struct i)
                else mgi_device_id (mac_interface_struct i)) = default (mi_device i) (mi_id i));
    [|by destruct i as [? ? []]].
  wp_call (iokit_id_to_string_spec (default (mi_device i) (mi_id i)) x).
  iIntros ([e q] x1) "H'". wp_steps. iFrame. by iApply returns_out_str.
Qed.
End specs.

(** ** Properties *)

Section properties.
Context `{OS : MacOS} {LAWS : MacLaws OS}.

Lemma s_interface_id_first number id n h c h' :
  interface_numbers kIOUSBInterfaceClassName number → s_interface_id id n h = (inr c, h') →
  ∃ h1 ids, mac_children h1 id = (KERN_SUCCESS, ids) ∧ first_interface number n ids = Some c.
Proof.
  intros Hn (u & h1 & _ & (k & h2 & Hk & Hid)%sbind_inv)%sbind_inv.
  unfold s_get_id in Hid. apply s_io_inv in Hid as [-> _].
  destruct (sbind_inv _ _ _ _ _ Hk) as (ids & h3 & Hc & (o & h4 & Ho & [-> _]%sopt_inv)%sbind_inv).
  destruct (s_find_interface_first number n ids h3 Hn) as [h5 E]. rewrite E in Ho.
  unfold s_children in Hc. apply s_io_inv in Hc as [-> Hkr].
  exists h1, (mac_children h1 id).2. split; [|by injection Ho].
  by rewrite {1}(surjective_pairing (mac_children h1 id)) Hkr.
Qed.

(** C35. On macOS [libusbp_generic_interface_create] records the device and the number,
    and for a composite device also the registry ID of the interface: that of the
    first child of the device that is a USB interface with this number.  Without
    [composite] the system is not asked at all, since the interface may not exist
    before the device is configured.  On failure NULL is stored, with the error of the
    step that failed, and nothing is kept. *)
Theorem mac_generic_interface_create_finds p d n composite number x :
  interface_numbers kIOUSBInterfaceClassName number →
  {{ mac_device_own p d }} libusbp_generic_interface_create p n composite true @ x {{ r x',
    mac_device_own p d ∗ ⟪calm x x'⟫ ∗
    ((∃ q i, ⟪r = (NULL, Some q) ∧ mi_device i = md_id d ∧ mi_number i = n ∧
        if composite then ∃ c h ids, mi_id i = Some c ∧
          mac_children h (md_id d) = (KERN_SUCCESS, ids) ∧ first_interface number n ids = Some c
        else mi_id i = None ∧ x_trace x' = x_trace x⟫ ∗ mac_interface_own q i) ∨
     (∃ got, ⟪r.2 = Some NULL ∧ failed (s_interface_create d n composite) x x' got⟫ ∗
        err_own r.1 got)) }}.
Proof.
  iIntros (Hn) "Hp". iApply (wp_wand with "[Hp]"); [by iApply mac_interface_create_spec|].
  iIntros ([e o] x') "[$ [(%i & %H & %q & %Ho & Hi)|(%got & %H & He & %Ho)]]"; cbn [fst snd] in *; subst.
  - destruct H as (-> & Hc & H). iSplit; [done|]. iLeft. iExists q, i. iFrame "Hi". iPureIntro.
    destruct composite; cbn [s_interface_create] in H.
    + apply sbind_inv in H as (c & h1 & Hid & H). rewrite sret_eq in H. injection H as <- _.
      destruct (s_interface_id_first number _ _ _ _ _ Hn Hid) as (h2 & ids & ? & ?).
      split_and!; [done..|]. by exists c, h2, ids.
    + rewrite sret_eq in H. injection H as <- Ht. by split_and!.
  - iSplit; [by destruct H as [? _]|]. iRight. iExists got. by iFrame.
Qed.
End properties.

(** ** On the example machine *)

#[local] Existing Instance Example_mac.machine.
#[local] Existing Instance Example_mac.machine_laws.

Definition example_mac_device : mac_device :=
  MacDevice Example_mac.composite_device (Some "00012345") 0xda01 0x1ffb 0x111.

Lemma mac_generic_interface_create_finds_witness :
  let p := Heap 4%positive in let x := Ext [] 0 0 in
  interface_numbers kIOUSBInterfaceClassName Example_mac.number ∧
  first_interface Example_mac.number 2 (mac_children [] Example_mac.composite_device).2 =
    Some Example_mac.second_interface ∧
  {{ mac_device_own p example_mac_device }} libusbp_generic_interface_create p 2 true true @ x {{ r x',
    mac_device_own p example_mac_device ∗ ⟪calm x x'⟫ ∗
    ((∃ q i, ⟪r = (NULL, Some q) ∧ mi_device i = md_id example_mac_device ∧ mi_number i = 2 ∧
        ∃ c h ids, mi_id i = Some c ∧
          mac_children h (md_id example_mac_device) = (KERN_SUCCESS, ids) ∧
          first_interface Example_mac.number 2 ids = Some c⟫ ∗ mac_interface_own q i) ∨
     (∃ got, ⟪r.2 = Some NULL ∧ failed (s_interface_create example_mac_device 2 true) x x' got⟫ ∗
        err_own r.1 got)) }}.
Proof.
  intros p x.
  assert (Hn : interface_numbers kIOUSBInterfaceClassName Example_mac.number).
  { intros h id Hc. apply (Example_mac.interface_property h id _ Hc). by left. }
  split_and!; [done|by vm_compute|].
  exact (mac_generic_interface_create_finds p example_mac_device 2 true Example_mac.number x Hn).
Defined.
