(* ===== verification/SerialPortMac.v ===== *)
(** * SerialPortMac: serial ports on macOS (src/src/mac/serial_port_mac.c)

    A [libusbp_serial_port] holds the name of the call-out device behind an
    interface of a USB device.  Its creation walks over everything below the
    device in the registry and remembers which interface it is in. *)

From S2P Require Import Prelude Memory Logic Format Errors Results Basics Strings MacOS ErrorMac IokitMac DeviceMac.
#[local] Set Warnings "-rewrite-rw".

Definition kIOUSBHostInterfaceClassName : string := "IOUSBHostInterface".
Definition kIOSerialBSDServiceValue : string := "IOSerialBSDClient".
Definition kIOCalloutDeviceKey : string := "IOCalloutDevice".

(** The local variables of the loop. *)
Record port_search := PortSearch {
  current_interface : Z;
  last_acm_control_interface_with_no_port : Z;
  last_acm_data_interface : Z
}.

(** The interface a serial port is considered to belong to. *)
Definition fixed_interface (st : port_search) : Z :=
  if (last_acm_data_interface st =? current_interface st) &&
     (0 <=? last_acm_control_interface_with_no_port st)
  then last_acm_control_interface_with_no_port st
  else current_interface st.

Section code.
Context `{OS : MacOS}.

(** The loop: the error and [serial_service]. *)
Fixpoint serial_port_loop (fuel : nat) (iterator : ptr) (interface_number : Z) (st : port_search) :
    M (ptr * ptr) :=
  match fuel with
  | O => stuck OutOfFuel
  | S fuel =>
      let '(PortSearch current control data) := st in
      service ← IOIteratorNext iterator;
      if is_null service then mret (NULL, NULL) else
      is_interface ← IOObjectConformsTo service kIOUSBHostInterfaceClassName;
      if is_interface : bool then
        '(error, n) ← get_int32 service "bInterfaceNumber";
        IOObjectRelease service;;
        if is_null error
        then serial_port_loop fuel iterator interface_number (PortSearch n control data)
        else mret (error, NULL)
      else
      is_control ← IOObjectConformsTo service "AppleUSBACMControl";
      if is_control : bool then
        IOObjectRelease service;;
        serial_port_loop fuel iterator interface_number (PortSearch current current data)
      else
      is_data ← IOObjectConformsTo service "AppleUSBACMData";
      if is_data : bool then
        IOObjectRelease service;;
        serial_port_loop fuel iterator interface_number (PortSearch current control current)
      else
      is_port ← IOObjectConformsTo service kIOSerialBSDServiceValue;
      if is_port : bool then
        if fixed_interface st =? interface_number then
          (* We found the serial port the user is looking for. *)
          mret (NULL, service)
        else
          IOObjectRelease service;;
          serial_port_loop fuel iterator interface_number (PortSearch current (-1) data)
      else
        IOObjectRelease service;;
        serial_port_loop fuel iterator interface_number st
  end.

Definition libusbp_serial_port_free (port : ptr) : M unit :=
  if is_null port then mret tt else
  name ← load_as as_serial_port_mac port;
  libusbp_string_free name;;
  free port.

Definition set_port_name (port name : ptr) : M unit :=
  load_as as_serial_port_mac port;;
  store port (OMacSerialPort name).

Definition libusbp_serial_port_create (device : ptr) (interface_number : Z) (composite : bool)
    (port_given : bool) : M (ptr * option ptr) :=
  if negb port_given then
    error ← error_create "Serial port output pointer is null.";
    mret (error, None)
  else if is_null device then
    error ← error_create "Device is null.";
    mret (error, Some NULL)
  else
  new_port ← calloc 1 sizeof_libusbp_serial_port_mac (OMacSerialPort NULL);
  let error := if is_null new_port then Static error_no_memory else NULL in
  (* Get an io_service_t for the physical device. *)
  '(error, device_service) ← if_ok error NULL
    (device_id ← device_get_id device; service_get_from_id device_id);
  '(error, iterator) ← if_ok error NULL
    ('(result, iterator) ← IORegistryEntryCreateIterator device_service;
     error ← mach_check result "Failed to get recursive iterator.";
     mret (error, iterator));
  '(error, serial_service) ← if_ok error NULL
    (fuel ← iterator_rounds iterator;
     serial_port_loop fuel iterator interface_number (PortSearch (-1) (-1) (-1)));
  error ← (if is_null error && is_null serial_service then
             error ← error_create "Could not find entry with class IOSerialBSDClient.";
             error_add_code error LIBUSBP_ERROR_NOT_READY
           else mret error);
  (* Get the port name. *)
  error ← then_check error
    ('(error, name) ← get_string serial_service kIOCalloutDeviceKey;
     set_port_name new_port name;;
     mret error);
  (* Pass the new object to the caller. *)
  let '(port, new_port) := if is_null error then (new_port, NULL) else (NULL, new_port) in
  when (negb (is_null serial_service)) (IOObjectRelease serial_service);;
  when (negb (is_null iterator)) (IOObjectRelease iterator);;
  when (negb (is_null device_service)) (IOObjectRelease device_service);;
  libusbp_serial_port_free new_port;;
  mret (error, Some port).

Definition libusbp_serial_port_copy (source : ptr) (dest_given : bool) : M (ptr * option ptr) :=
  if negb dest_given then
    error ← error_create "Serial port output pointer is null.";
    mret (error, None)
  else if is_null source then mret (NULL, Some NULL) else
  (* Allocate memory for the new object. *)
  new_port ← calloc 1 sizeof_libusbp_serial_port_mac (OMacSerialPort NULL);
  let error := if is_null new_port then Static error_no_memory else NULL in
  (* Copy the port name. *)
  error ← then_check error
    (name ← load_as as_serial_port_mac source;
     '(error, copy) ← string_copy name;
     set_port_name new_port copy;;
     mret error);
  (* Pass the new object to the caller. *)
  let '(dest, new_port) := if is_null error then (new_port, NULL) else (NULL, new_port) in
  libusbp_serial_port_free new_port;;
  mret (error, Some dest).

Definition libusbp_serial_port_get_name (port : ptr) (name_given : bool) : M (ptr * option ptr) :=
  if negb name_given then
    error ← error_create "String output pointer is null.";
    mret (error, None)
  else if is_null port then
    error ← error_create "Serial port is null.";
    mret (error, Some NULL)
  else
    name ← load_as as_serial_port_mac port;
    '(error, copy) ← string_copy name;
    mret (error, Some copy).
End code.

(** ** What a serial port object holds

    The name is missing when the registry entry has no [kIOCalloutDeviceKey]. *)

Definition mac_port_own (p : ptr) (name : option string) : hProp :=
  (∃ l q, ⟪p = Heap l⟫ ∗ l ↦ OMacSerialPort q ∗ opt_str_own q name)%I.

Lemma mac_port_not_null p name : mac_port_own p name ⊢ ⌜is_null p = false⌝ ∧ mac_port_own p name.
Proof. iIntros "H". iSplit; [|done]. by iDestruct "H" as (l q) "[-> _]". Qed.

Lemma mac_port_free_spec p name x :
  {{ mac_port_own p name }} libusbp_serial_port_free p @ x {{ r x', ⟪x' = x⟫ }}.
Proof.
  iIntros "(%l & %q & -> & Hl & Hq)". unfold libusbp_serial_port_free, libusbp_string_free.
  wp_steps. wp_call (free_opt_str q name x). iIntros ([] ?) "->". wp_steps. by iPureIntro.
Qed.

Lemma mac_port_free_null x Q : Q tt x ⊢ wp (libusbp_serial_port_free NULL) x Q.
Proof. apply wp_ret. Qed.

(** ** Which interface a serial port belongs to

    This is told from the entries of the registry that come before the port, the latest
    one first. *)

Inductive entry :=
  | InterfaceEntry (number : Z)   (* a USB interface *)
  | ControlEntry                  (* the driver of an ACM control interface *)
  | DataEntry                     (* the driver of an ACM data interface *)
  | PortEntry                     (* a serial port *)
  | OtherEntry.

#[export] Instance entry_eq_dec : EqDecision entry.
Proof. solve_decision. Defined.

(** The interface that the next entry is in, -1 when there is none. *)
Fixpoint interface_of (before : list entry) : Z :=
  match before with
  | [] => -1
  | InterfaceEntry number :: _ => number
  | _ :: before => interface_of before
  end.

(** The interface of the latest ACM data driver. *)
Fixpoint data_interface (before : list entry) : Z :=
  match before with
  | [] => -1
  | DataEntry :: before => interface_of before
  | _ :: before => data_interface before
  end.

(** The interface of the latest ACM control driver, unless a port came after it. *)
Fixpoint control_without_port (before : list entry) : option Z :=
  match before with
  | [] | PortEntry :: _ => None
  | ControlEntry :: before => Some (interface_of before)
  | _ :: before => control_without_port before
  end.

(** A port in the interface of an ACM data driver, when an ACM control driver has had no
    port yet, belongs to the interface of the control driver; any other port belongs to
    the interface it is in. *)
Definition owner (before : list entry) : Z :=
  match control_without_port before with
  | Some control =>
      if bool_decide (0 ≤ control ∧ data_interface before = interface_of before) then control
      else interface_of before
  | None => interface_of before
  end.

(** The variables of the loop hold what it takes to know the owner of the next port. *)
Definition remembers (st : port_search) (before : list entry) : Prop :=
  current_interface st = interface_of before ∧
  last_acm_data_interface st = data_interface before ∧
  last_acm_control_interface_with_no_port st = default (-1) (control_without_port before).

Lemma remembers_owner st before : remembers st before → fixed_interface st = owner before.
Proof.
  intros (H1 & H2 & H3). unfold fixed_interface, owner. rewrite H1 H2 H3.
  destruct (control_without_port before) as [c|]; cbn [default]; [|by rewrite andb_false_r].
  change (id c) with c.
  destruct (Z.eqb_spec (data_interface before) (interface_of before)), (Z.leb_spec 0 c); cbn [andb];
    case_bool_decide; (done || lia).
Qed.

Section specs.
Context `{OS : MacOS} {LAWS : MacLaws OS}.

(** ** The search *)

Definition s_descendants (id : Z) : Spec (list Z) := λ h,
  s_io (mac_descendants h id).1 (mac_descendants h id).2 (EvDescendants id)
    "Failed to get recursive iterator." h.

(** What an entry is; the classes are tried in this order. *)
Definition driver_entry (id : Z) : entry :=
  if mac_conforms id "AppleUSBACMControl" then ControlEntry
  else if mac_conforms id "AppleUSBACMData" then DataEntry
  else if mac_conforms id kIOSerialBSDServiceValue then PortEntry
  else OtherEntry.

Definition s_entry (id : Z) : Spec entry :=
  if mac_conforms id kIOUSBHostInterfaceClassName then
    number ← s_get_int32 id "bInterfaceNumber"; mret (InterfaceEntry number)
  else mret (driver_entry id).

(** The first port of the interface [n] among the entries [ids]. *)
Fixpoint s_find_port (ids : list Z) (n : Z) (before : list entry) : Spec (option Z) :=
  match ids with
  | [] => mret None
  | id :: ids =>
      e ← s_entry id;
      if bool_decide (e = PortEntry ∧ owner before = n) then mret (Some id)
      else s_find_port ids n (e :: before)
  end.

Definition s_serial_port_create (d : mac_device) (n : Z) : Spec (option string) :=
  s_get_from_id (md_id d);;
  ids ← s_descendants (md_id d);
  found ← s_find_port ids n [];
  port ← sopt found (not_ready "Could not find entry with class IOSerialBSDClient.");
  s_get_string port kIOCalloutDeviceKey.

(** An entry that is not an interface. *)
Lemma s_find_port_driver id ids n before h :
  mac_conforms id kIOUSBHostInterfaceClassName = false →
  s_find_port (id :: ids) n before h =
    (if bool_decide (driver_entry id = PortEntry ∧ owner before = n) then mret (Some id)
     else s_find_port ids n (driver_entry id :: before)) h.
Proof. intros E. cbn [s_find_port]. unfold s_entry. rewrite E. by rewrite (sbind_ok _ _ _ _ _ (sret_eq _ h)). Qed.

(** So the search goes on behind it. *)
Lemma returns_next_entry e id ids n before x x' r ok bad :
  mac_conforms id kIOUSBHostInterfaceClassName = false → driver_entry id = e →
  (e = PortEntry → owner before ≠ n) →
  returns (s_find_port ids n (e :: before)) x x' r ok bad ⊢
  returns (s_find_port (id :: ids) n before) x x' r ok bad.
Proof.
  intros Ei <- Hp. apply returns_tail; [done|]. rewrite s_find_port_driver //.
  rewrite bool_decide_false //. intros [H Ho]. by apply Hp in H.
Qed.

Lemma serial_port_loop_spec l ids n st before x :
  remembers st before →
  {{ l ↦ OIterator ids }} serial_port_loop (S (List.length ids)) (Heap l) n st @ x
  {{ r x', iterator_own (Heap l) ∗
     returns (s_find_port ids n before) x x' r.1 (opt_service_own r.2) ⟪r.2 = NULL⟫ }}.
Proof.
  revert st before x. induction ids as [|id ids IH]; intros [current control data] before x Hst; iIntros "Hl";
    cbn [serial_port_loop].
  all: wp_step; iApply (wp_next with "Hl"); iIntros (p) "Hl Hp"; cbn [head tail].
  { iDestruct "Hp" as %->. wp_steps. iSplitL; [by iApply iterator_own_intro|].
    iApply (returns_ok _ _ _ None); [by apply succeeded_ret|done]. }
  iDestruct (opt_service_own_null with "Hp") as "[%Hn Hp]". cbn [opt_service_own] in *. wp_steps.
  iApply (wp_conforms with "Hp"). iIntros "Hp". cbn [List.length].
  pose proof (remembers_owner _ _ Hst) as Ho.
  destruct (mac_conforms id kIOUSBHostInterfaceClassName) eqn:Ei; wp_steps.
  { wp_call (get_int32_spec p id "bInterfaceNumber" x). iIntros ([e k] x1) "[Hp H]".
    assert (Hs : ∀ h r h', s_get_int32 id "bInterfaceNumber" h = (r, h') →
      s_find_port (id :: ids) n before h =
        match r with inr k => s_find_port ids n (InterfaceEntry k :: before) h' | inl e => (inl e, h') end).
    { intros h r h' E. cbn [s_find_port]. unfold s_entry. rewrite Ei.
      destruct r as [got|k']; [by rewrite (sbind_err _ _ got _ h') // (sbind_err _ _ _ _ _ E)|].
      rewrite (sbind_ok _ _ (InterfaceEntry k') _ h') // (sbind_ok _ _ _ _ _ E) //. }
    returned "H".
    - iDestruct "Hok" as %->. wp_steps. iApply (wp_release_service with "Hp"). wp_steps.
      iApply (wp_wand with "[Hl]"); [iApply (IH (PortSearch a control data) (InterfaceEntry a :: before)); [by destruct Hst as (? & ? & ?)|done]|].
      iIntros (r x') "[$ H]". destruct Ha as [Hc Ha].
      iApply (returns_tail with "H"); [exact Hc|]. by rewrite (Hs _ _ _ Ha).
    - iDestruct "Hbad" as %->. wp_steps. iApply (wp_release_service with "Hp"). wp_steps.
      iSplitL "Hl"; [by iApply iterator_own_intro|]. iRight. iExists got. iFrame.
      iSplit; [|done]. iPureIntro. destruct Hfailed as [Hc [E|E]]; split; [done| |done|by right].
      left. by rewrite (Hs _ _ _ E). }
  assert (Hnext : ∀ e st', driver_entry id = e → (e = PortEntry → owner before ≠ n) → remembers st' (e :: before) →
    service_own p id ∗ l ↦ OIterator ids ⊢
    wp (IOObjectRelease p;; serial_port_loop (S (List.length ids)) (Heap l) n st') x (λ r x',
      iterator_own (Heap l) ∗
      returns (s_find_port (id :: ids) n before) x x' r.1 (opt_service_own r.2) ⟪r.2 = NULL⟫)).
  { intros e st' He Hp Hst'. iIntros "[Hp Hl]". wp_step. iApply (wp_release_service with "Hp").
    iApply (wp_wand with "[Hl]"); [by iApply (IH st' (e :: before))|].
    iIntros (r x') "[$ H]". by iApply (returns_next_entry e). }
  unfold driver_entry in Hnext.
  iApply (wp_conforms with "Hp"). iIntros "Hp".
  destruct (mac_conforms id "AppleUSBACMControl") eqn:Ec; wp_simpl.
  { iApply (Hnext ControlEntry (PortSearch current current data)); [done..| |iFrame]. by destruct Hst as (? & ? & ?). }
  wp_step. iApply (wp_conforms with "Hp"). iIntros "Hp".
  destruct (mac_conforms id "AppleUSBACMData") eqn:Ed; wp_simpl.
  { iApply (Hnext DataEntry (PortSearch current control current)); [done..| |iFrame]. by destruct Hst as (? & ? & ?). }
  wp_step. iApply (wp_conforms with "Hp"). iIntros "Hp".
  destruct (mac_conforms id kIOSerialBSDServiceValue) eqn:Ep; wp_simpl; last first.
  { iApply (Hnext OtherEntry (PortSearch current control data)); [done..| |iFrame]. by destruct Hst as (? & ? & ?). }
  rewrite Ho. destruct (Z.eqb_spec (owner before) n) as [E|E]; wp_simpl; last first.
  { iApply (Hnext PortEntry (PortSearch current (-1) data)); [done..| |iFrame]. by destruct Hst as (? & ? & ?). }
  wp_steps. iSplitL "Hl"; [by iApply iterator_own_intro|].
  iApply (returns_ok _ _ _ (Some id) with "Hp"). split; [done|]. rewrite s_find_port_driver //.
  rewrite bool_decide_true //. unfold driver_entry. by rewrite Ec Ed Ep.
Qed.

(** ** Creation *)

(** A step that calls [IORegistryEntryCreateIterator]. *)
Lemma descendants_spec p id x :
  {{ service_own p id }}
    ('(result, iterator) ← IORegistryEntryCreateIterator p;
     error ← mach_check result "Failed to get recursive iterator.";
     mret (error, iterator)) @ x
  {{ r x', service_own p id ∗
    returns (s_descendants id) x x' r.1
      (λ ids, ∃ l, ⟪r.2 = Heap l⟫ ∗ l ↦ OIterator ids) ⟪r.2 = NULL⟫ }}.
Proof.
  iIntros "Hs". unfold IORegistryEntryCreateIterator, log_mac. wp_steps.
  iApply (service_own_load with "Hs"). iIntros "Hs". wp_steps.
  destruct (mac_descendants (x_trace x) id) as [kr ids] eqn:Ec.
  assert (Hs : s_descendants id (x_trace x) =
    s_io kr ids (EvDescendants id) "Failed to get recursive iterator." (x_trace x)).
  { unfold s_descendants. by rewrite Ec. }
  destruct (kr =? KERN_SUCCESS) eqn:Ek; wp_steps.
  - iApply wp_new_block. iIntros (l) "Hl". wp_steps.
    iApply (wp_mach_checked _ ids _ _ (s_descendants id)); [done|exact Hs|]. rewrite Ek. iIntros (Ha).
    wp_steps. iFrame "Hs". iApply (returns_ok _ _ _ ids); [done|]. iExists l. by iFrame.
  - iApply (wp_mach_checked _ ids _ _ (s_descendants id)); [done|exact Hs|]. rewrite Ek.
    iIntros (r x' got [Hr Hf]) "He". wp_steps. iFrame. iRight. iExists got. by iFrame.
Qed.

(** Storing the name in the object. *)
Lemma wp_set_port_name p name q x Q :
  mac_port_own p None -∗ opt_str_own q name -∗
  (mac_port_own p name -∗ Q tt x) -∗ wp (set_port_name p q) x Q.
Proof.
  iIntros "(%l & %q0 & -> & Hl & ->) Hq HQ". unfold set_port_name. wp_steps.
  iApply "HQ". iExists l, q. by iFrame.
Qed.

(** Releasing what the local variables of the creation hold. *)
Ltac port_frees :=
  repeat
    (wp_steps;
     first [ iApply (wp_release_service with "Hp") | iApply (wp_release_iterator with "Hi")
           | iApply (wp_release_service with "Hd") | iApply mac_port_free_null
           | wp_call (mac_port_free_spec _ _ _); iIntros ([] ?) "->" ]);
  wp_steps.

Lemma mac_serial_port_create_spec p d n c x :
  {{ mac_device_own p d }} libusbp_serial_port_create p n c true @ x {{ r x',
    mac_device_own p d ∗
    returns (s_serial_port_create d n) x x' r.1
      (λ name, ∃ q, ⟪r.2 = Some q⟫ ∗ mac_port_own q name) ⟪r.2 = Some NULL⟫ }}.
Proof.
  iIntros "Hdev". iDestruct (mac_device_own_not_null with "Hdev") as "[%Hn Hdev]".
  unfold libusbp_serial_port_create, if_ok, then_check, calloc. wp_steps.
  iApply wp_malloc_pos; [done|]. iSplit; last first.
  { iIntros (x1 [Hq Ho]). port_frees. iFrame. by iApply returns_no_memory. }
  iIntros (lg Hlg) "Hg".
  iAssert (mac_port_own (Heap lg) None) with "[Hg]" as "Hg"; [iExists lg, NULL; by iFrame|]. wp_steps.
  wp_call (mac_device_get_id_spec p d x). iIntros (? ?) "[%H Hdev]". destruct H as [-> ->].
  wp_call (service_get_from_id_spec (md_id d) x). iIntros ([e ds] x1) "H". returned "H"; last first.
  { iDestruct "Hbad" as %->. port_frees. iFrame. fails. }
  destruct a. iRename "Hok" into "Hd". iDestruct (service_own_not_null with "Hd") as "[%Hdn Hd]". wp_step.
  wp_call (descendants_spec ds (md_id d) x1). iIntros ([e it] x2) "[Hd H]". returned "H"; last first.
  { iDestruct "Hbad" as %->. port_frees. iFrame. fails. }
  rename a into ids. iDestruct "Hok" as (l) "[-> Hl]". unfold iterator_rounds. wp_steps.
  iAssert (l ↦ OIterator ids)%I with "[$]" as "Hl".
  wp_call (serial_port_loop_spec l ids n (PortSearch (-1) (-1) (-1)) [] x2 ltac:(done)).
  iIntros ([e sp] x3) "[Hi H]". returned "H"; last first.
  { iDestruct "Hbad" as %->. port_frees. iFrame "Hdev". fails. }
  iDestruct (opt_service_own_null with "Hok") as "[%Hsp Hp]".
  destruct a as [port|]; cbn [opt_service_own]; last first.
  { iDestruct "Hp" as %->. wp_steps. err_chain. port_frees. iFrame "Hdev".
    iApply (returns_err_from _ _ x3 with "[-]");
      [by do 2 (etrans; [apply Ha || apply Ha0|]); apply Ha1| |by iFrame].
    unfold s_serial_port_create. destruct Ha as [_ Ha], Ha0 as [_ Ha0], Ha1 as [_ Ha1].
    by rewrite (sbind_ok _ _ _ _ _ Ha) (sbind_ok _ _ _ _ _ Ha0) (sbind_ok _ _ _ _ _ Ha1). }
  assert (Hport : succeeded (sopt (Some port)
    (not_ready "Could not find entry with class IOSerialBSDClient.")) x3 x3 port) by by apply succeeded_ret.
  wp_steps. wp_call (get_string_spec sp port kIOCalloutDeviceKey x3).
  iIntros ([e q] x4) "[Hp H]". returned "H".
  - wp_step. iApply (wp_set_port_name with "Hg Hok"). iIntros "Hg". port_frees. iFrame "Hdev".
    iApply (returns_ok _ _ _ a with "[-]").
    { unfold s_serial_port_create. do 4 (eapply succeeded_bind; [eassumption|]). done. }
    iExists (Heap lg). by iFrame.
  - iDestruct "Hbad" as %->. wp_step. iApply (wp_set_port_name _ None with "Hg []"); [done|].
    iIntros "Hg". port_frees. iFrame "Hdev". iRight. iExists got. iFrame. iSplit; [|done]. iPureIntro.
    unfold s_serial_port_create. do 4 (eapply failed_bind_r; [eassumption|]). done.
Qed.

(** ** Copies and the getter, for a port that has a name *)

Lemma mac_serial_port_copy_spec p s x :
  {{ mac_port_own p (Some s) }} libusbp_serial_port_copy p true @ x {{ r x',
    mac_port_own p (Some s) ∗
    returns (mret (Some s)) x x' r.1 (λ name, ∃ q, ⟪r.2 = Some q⟫ ∗ mac_port_own q name)
      ⟪r.2 = Some NULL⟫ }}.
Proof.
  iIntros "(%lp & %qp & -> & Hlp & Hqp)". unfold libusbp_serial_port_copy, then_check, calloc.
  wp_steps. iApply wp_malloc_pos; [done|]. iSplit; last first.
  { iIntros (x1 [Hq Ho]). port_frees. iSplitR "".
    - iExists lp, qp. by iFrame.
    - by iApply returns_no_memory. }
  iIntros (lg Hlg) "Hg".
  iAssert (mac_port_own (Heap lg) None) with "[Hg]" as "Hg"; [iExists lg, NULL; by iFrame|]. wp_steps.
  cbn [opt_str_own]. wp_call (string_copy_own qp s x). iIntros ([e q] x1) "[Hqp H]". returned "H".
  - apply succeeded_ret_inv in Ha as (-> & Ht & Hc). wp_step.
    iApply (wp_set_port_name _ (Some s) with "Hg Hok"). iIntros "Hg". port_frees.
    iAssert (mac_port_own (Heap lp) (Some s)) with "[-Hg]" as "$"; [iExists lp, qp; by iFrame|].
    iApply (returns_ok _ _ _ (Some s)); [by apply succeeded_ret|]. iExists (Heap lg). by iFrame.
  - iDestruct "Hbad" as %->. wp_step. iApply (wp_set_port_name _ None with "Hg []"); [done|].
    iIntros "Hg". iAssert (mac_port_own (Heap lp) (Some s)) with "[-Hg He]" as "Hs";
      [iExists lp, qp; by iFrame|].
    wp_steps. wp_call (mac_port_free_spec (Heap lg) None x1). iIntros ([] ?) "->". wp_steps.
    iFrame. iRight. iExists got. iFrame. iPureIntro. split; [by eapply pure_failed|done].
Qed.

Lemma mac_serial_port_get_name_spec p s x :
  {{ mac_port_own p (Some s) }} libusbp_serial_port_get_name p true @ x {{ r x',
    mac_port_own p (Some s) ∗
    returns (mret s) x x' r.1 (out_str r.2) ⟪r.2 = Some NULL⟫ }}.
Proof.
  iIntros "(%lp & %qp & -> & Hlp & Hqp)". unfold libusbp_serial_port_get_name. wp_steps.
  cbn [opt_str_own]. wp_call (string_copy_own qp s x). iIntros ([e q] x1) "[Hqp H]". wp_steps.
  iSplitR "H"; [iExists lp, qp; by iFrame|]. by iApply returns_out_str.
Qed.
End specs.

(** ** Properties *)

Section properties.
Context `{OS : MacOS} {LAWS : MacLaws OS}.

(** What an entry is, when the interface numbers do not change. *)
Definition entry_of (number : Z → Z) (id : Z) : entry :=
  if mac_conforms id kIOUSBHostInterfaceClassName then InterfaceEntry (number id) else driver_entry id.

(** The entry behind [before] is a serial port of the interface [n]. *)
Definition owned_port (number : Z → Z) (n : Z) (before : list Z) (id : Z) : Prop :=
  entry_of number id = PortEntry ∧ owner (reverse (entry_of number <$> before)) = n.

(** [port] is the first such port among the entries [ids]. *)
Definition first_port (number : Z → Z) (n : Z) (ids : list Z) (port : Z) : Prop :=
  ∃ before after, ids = before ++ port :: after ∧ owned_port number n before port ∧
    ∀ before' id between, before = before' ++ id :: between → ¬ owned_port number n before' id.

Lemma s_entry_number number id h :
  interface_numbers kIOUSBHostInterfaceClassName number →
  ∃ h', s_entry id h = (inr (entry_of number id), h').
Proof.
  intros Hn. unfold s_entry, entry_of. destruct (mac_conforms id kIOUSBHostInterfaceClassName) eqn:Ec; [|by exists h].
  rewrite (sbind_ok _ _ _ _ _ (s_get_int32_number _ number id h Hn Ec)) sret_eq. eexists. reflexivity.
Qed.

Lemma s_find_port_first number n pre ids h port h' :
  interface_numbers kIOUSBHostInterfaceClassName number →
  (∀ before' id between, pre = before' ++ id :: between → ¬ owned_port number n before' id) →
  s_find_port ids n (reverse (entry_of number <$> pre)) h = (inr (Some port), h') →
  first_port number n (pre ++ ids) port.
Proof.
  intros Hn. revert pre h. induction ids as [|id ids IH]; intros pre h Hpre; cbn [s_find_port]; [by rewrite sret_eq|].
  destruct (s_entry_number number id h Hn) as [h1 E]. rewrite (sbind_ok _ _ _ _ _ E).
  case_bool_decide as Hid.
  - rewrite sret_eq. intros [= -> _]. by exists pre, ids.
  - intros H. assert (Hr : entry_of number id :: reverse (entry_of number <$> pre) =
      reverse (entry_of number <$> pre ++ [id])) by by rewrite fmap_app reverse_app.
    rewrite Hr in H. apply IH in H; [by rewrite -app_assoc in H|].
    intros before' id' between Hsplit. destruct between as [|a between _] using rev_ind.
    + apply app_inj_tail in Hsplit as [-> ->]. exact Hid.
    + rewrite app_comm_cons app_assoc in Hsplit. apply app_inj_tail in Hsplit as [-> _]. by eapply Hpre.
Qed.

(** What the property of the port says about its name. *)
Definition port_name_of (v : option cf_value) (name : option string) : Prop :=
  match v with
  | None => name = None
  | Some v => ∃ s, cf_string v = inr s ∧ name = Some s
  end.

Lemma s_serial_port_create_port d n number h name h' :
  interface_numbers kIOUSBHostInterfaceClassName number →
  s_serial_port_create d n h = (inr name, h') →
  ∃ h1 h2 ids port, mac_descendants h1 (md_id d) = (KERN_SUCCESS, ids) ∧
    first_port number n ids port ∧ port_name_of (mac_property h2 port kIOCalloutDeviceKey) name.
Proof.
  intros Hn (_ & h1 & _ & (ids & h2 & Hd & (o & h3 & Hf & (port & h4 & Ho & Hs)%sbind_inv)
    %sbind_inv)%sbind_inv)%sbind_inv.
  apply sopt_inv in Ho as [-> _]. 
  apply (s_find_port_first number n [] ids h2 port _ Hn) in Hf; [|by intros [|]].
  unfold s_descendants in Hd. apply s_io_inv in Hd as [-> Hkr].
  exists h1, h4, (mac_descendants h1 (md_id d)).2, port. split_and!; [|done|].
  - by rewrite {1}(surjective_pairing (mac_descendants h1 (md_id d))) Hkr.
  - unfold s_get_string in Hs. injection Hs as Hs _. unfold port_name_of.
    destruct (mac_property h4 port kIOCalloutDeviceKey) as [v|]; [|by injection Hs].
    destruct (cf_string v) as [e|s]; [done|]. exists s. by injection Hs.
Qed.

(** C34. On macOS [libusbp_serial_port_create] takes the first serial port below the
    device, in the registry's order, that belongs to the interface with the given
    number ([first_port]).  The entries before a port tell which interface owns it
    ([owner]): the latest USB interface before it; but when the latest ACM data driver is
    in that interface, and an ACM control driver came before the port with no other port
    in between, then the interface of the latest such control driver, as on the other
    systems.  The name of the port is its call-out device; without this property the
    object gets no name and the creation still succeeds.  On failure NULL is stored and
    nothing is kept. *)
Theorem mac_serial_port_create_finds p d n composite number x :
  interface_numbers kIOUSBHostInterfaceClassName number →
  {{ mac_device_own p d }} libusbp_serial_port_create p n composite true @ x {{ r x',
    mac_device_own p d ∗ ⟪calm x x'⟫ ∗
    ((∃ q name, ⟪r = (NULL, Some q) ∧ ∃ h1 h2 ids port,
        mac_descendants h1 (md_id d) = (KERN_SUCCESS, ids) ∧ first_port number n ids port ∧
        port_name_of (mac_property h2 port kIOCalloutDeviceKey) name⟫ ∗ mac_port_own q name) ∨
     (∃ got, ⟪r.2 = Some NULL ∧ failed (s_serial_port_create d n) x x' got⟫ ∗ err_own r.1 got)) }}.
Proof.
  iIntros (Hn) "Hp". iApply (wp_wand with "[Hp]"); [by iApply mac_serial_port_create_spec|].
  iIntros ([e o] x') "[$ [(%name & %H & %q & %Ho & Hi)|(%got & %H & He & %Ho)]]"; cbn [fst snd] in *; subst.
  - destruct H as (-> & Hc & H). iSplit; [done|]. iLeft. iExists q, name. iFrame "Hi". iPureIntro.
    split; [done|]. by eapply s_serial_port_create_port.
  - iSplit; [by destruct H as [? _]|]. iRight. iExists got. by iFrame.
Qed.
End properties.

(** ** On the example machine *)

#[local] Existing Instance Example_mac.machine.
#[local] Existing Instance Example_mac.machine_laws.

Definition example_serial_device : mac_device :=
  MacDevice Example_mac.composite_device (Some "00012345") 0xda01 0x1ffb 0x111.

(** The port after the data interface 2 belongs to the control interface 0. *)
Lemma mac_serial_port_create_finds_witness :
  let p := Heap 4%positive in let x := Ext [] 0 0 in let d := example_serial_device in
  let ids := (mac_descendants [] Example_mac.composite_device).2 in
  interface_numbers kIOUSBHostInterfaceClassName Example_mac.number ∧
  (s_find_port ids 0 [] []).1 = inr (Some Example_mac.serial_client) ∧
  (s_find_port ids 2 [] []).1 = inr (Some Example_mac.nameless_client) ∧
  {{ mac_device_own p d }} libusbp_serial_port_create p 0 true true @ x {{ r x',
    mac_device_own p d ∗ ⟪calm x x'⟫ ∗
    ((∃ q name, ⟪r = (NULL, Some q) ∧ ∃ h1 h2 ids port,
        mac_descendants h1 (md_id d) = (KERN_SUCCESS, ids) ∧
        first_port Example_mac.number 0 ids port ∧
        port_name_of (mac_property h2 port kIOCalloutDeviceKey) name⟫ ∗ mac_port_own q name) ∨
     (∃ got, ⟪r.2 = Some NULL ∧ failed (s_serial_port_create d 0) x x' got⟫ ∗ err_own r.1 got)) }}.
Proof.
  intros p x d ids.
  assert (Hn : interface_numbers kIOUSBHostInterfaceClassName Example_mac.number).
  { intros h id Hc. apply (Example_mac.interface_property h id _ Hc). by right. }
  split_and!; [done|by vm_compute|by vm_compute|].
  exact (mac_serial_port_create_finds p d 0 true Example_mac.number x Hn).
Defined.

(** A port without a call-out device is created without a name, and asking for its
    name afterwards makes [string_copy] dereference NULL (or fail its assertion). *)
Definition serial_port_memory : heap :=
  list_to_map [(1%positive, OMacDevice {| mdev_id := Example_mac.composite_device; mdev_serial_number := NULL;
                                          mdev_product_id := 0xda01; mdev_vendor_id := 0x1ffb;
                                          mdev_revision := 0x111 |})].

Lemma serial_port_without_name :
  match libusbp_serial_port_create (Heap 1%positive) 2 true true
          (World serial_port_memory [] (Ext [] 0 0)) with
  | Ret (NULL, Some (Heap q)) w => libusbp_serial_port_get_name (Heap q) true w
  | _ => Stuck OutOfFuel
  end = Stuck AssertionFailed.
Proof. vm_compute. reflexivity. Qed.
