(* ===== verification/HandleMac.v ===== *)
(** * HandleMac: generic handles on macOS (src/src/mac/generic_handle_mac.c)

    Opening a handle: configuring the device if that is necessary, finding and
    opening the interface, the tables that translate endpoint addresses to pipe
    indexes, and the asynchronous port; closing it, timeouts and synchronous
    transfers.  The event loop of the file is in TransferMac.v. *)

From S2P Require Import Prelude Memory Logic Format Errors Results Basics Strings Buffers MacOS ErrorMac IokitMac DeviceMac InterfaceMac.
#[local] Set Warnings "-rewrite-rw".

Section code.
Context `{OS : MacOS}.

(** [calloc] fills the struct with zeros. *)
Definition zero_handle : libusbp_generic_handle_mac :=
  {| mgh_ioh := NULL; mgh_plug_in := NULL; mgh_async_port := 0;
     mgh_out_timeout := replicate 16 0; mgh_in_timeout := replicate 16 0;
     mgh_out_pipe_index := replicate 16 0; mgh_in_pipe_index := replicate 16 0 |}.

(** Assignments to the fields of a handle. *)
Definition set_interfaces (ioh plug_in : ptr) (h : libusbp_generic_handle_mac) :
    libusbp_generic_handle_mac :=
  {| mgh_ioh := ioh; mgh_plug_in := plug_in; mgh_async_port := mgh_async_port h;
     mgh_out_timeout := mgh_out_timeout h; mgh_in_timeout := mgh_in_timeout h;
     mgh_out_pipe_index := mgh_out_pipe_index h; mgh_in_pipe_index := mgh_in_pipe_index h |}.
Definition set_async_port (port : Z) (h : libusbp_generic_handle_mac) : libusbp_generic_handle_mac :=
  {| mgh_ioh := mgh_ioh h; mgh_plug_in := mgh_plug_in h; mgh_async_port := port;
     mgh_out_timeout := mgh_out_timeout h; mgh_in_timeout := mgh_in_timeout h;
     mgh_out_pipe_index := mgh_out_pipe_index h; mgh_in_pipe_index := mgh_in_pipe_index h |}.
Definition set_timeouts (out_timeout in_timeout : list Z) (h : libusbp_generic_handle_mac) :
    libusbp_generic_handle_mac :=
  {| mgh_ioh := mgh_ioh h; mgh_plug_in := mgh_plug_in h; mgh_async_port := mgh_async_port h;
     mgh_out_timeout := out_timeout; mgh_in_timeout := in_timeout;
     mgh_out_pipe_index := mgh_out_pipe_index h; mgh_in_pipe_index := mgh_in_pipe_index h |}.
Definition set_indexes (out_index in_index : list Z) (h : libusbp_generic_handle_mac) :
    libusbp_generic_handle_mac :=
  {| mgh_ioh := mgh_ioh h; mgh_plug_in := mgh_plug_in h; mgh_async_port := mgh_async_port h;
     mgh_out_timeout := mgh_out_timeout h; mgh_in_timeout := mgh_in_timeout h;
     mgh_out_pipe_index := out_index; mgh_in_pipe_index := in_index |}.

Definition set_handle (handle : ptr) (f : libusbp_generic_handle_mac → libusbp_generic_handle_mac) :
    M unit :=
  h ← load_as as_handle_mac handle;
  store handle (OMacHandle (f h)).

(** [handle->in_pipe_index[endpoint_number] = i] or the same for OUT. *)
Definition store_pipe_index (handle : ptr) (p : pipe_properties) (i : Z) : M unit :=
  if pp_endpoint_number p <=? MAX_ENDPOINT_NUMBER then
    h ← load_as as_handle_mac handle;
    if negb (pp_direction p =? 0) then
      index ← endpoint_set (mgh_in_pipe_index h) (pp_endpoint_number p) (to_u8 i);
      set_handle handle (set_indexes (mgh_out_pipe_index h) index)
    else
      index ← endpoint_set (mgh_out_pipe_index h) (pp_endpoint_number p) (to_u8 i);
      set_handle handle (set_indexes index (mgh_in_pipe_index h))
  else mret tt.

(** The loop from [i], with [n] iterations left. *)
Fixpoint process_pipes_loop (handle : ptr) (i : Z) (n : nat) : M ptr :=
  match n with
  | O => mret NULL
  | S n =>
      h ← load_as as_handle_mac handle;
      '(kr, p) ← GetPipeProperties (mgh_ioh h) i;
      if negb (kr =? KERN_SUCCESS) then
        error_create_mach kr ("Failed to get pipe properties for pipe " +:+ fmt_d i +:+ ".")
      else
        store_pipe_index handle p i;;
        process_pipes_loop handle (i + 1) n
  end.

Definition process_pipe_properties (handle : ptr) : M ptr :=
  h ← load_as as_handle_mac handle;
  '(kr, endpoint_count) ← GetNumEndpoints (mgh_ioh h);
  if negb (kr =? KERN_SUCCESS) then error_create_mach kr "Failed to get number of endpoints."
  else process_pipes_loop handle 1 (Z.to_nat endpoint_count).

(** Sets the configuration of a device to 1 if it is not configured. *)
Definition set_configuration (service : ptr) : M ptr :=
  c_assert (negb (is_null service));;
  (* Turn io_service_t into something we can actually use. *)
  '(error, dev_handle, plug_in) ← service_to_interface service DeviceKind true;
  let plug_in := default NULL plug_in in
  config_num ← (if is_null error then
                  '(kr, config_num) ← GetConfiguration dev_handle;
                  mret (if negb (kr =? KERN_SUCCESS) then 0 else config_num)
                else mret 0);
  (* Open the device for exclusive access. *)
  error ← (if is_null error && (config_num =? 0) then
             kr ← USBDeviceOpen dev_handle;
             mach_check kr "Failed to open handle to device."
           else mret error);
  (* Set the configuration. *)
  error ← (if is_null error && (config_num =? 0) then
             kr ← SetConfiguration dev_handle 1;
             mach_check kr "Failed to set configuration to 1."
           else mret error);
  (* Clean up. *)
  when (negb (is_null dev_handle))
    (USBDeviceClose dev_handle;; Release dev_handle;; Release plug_in);;
  mret error.

(** The error and [*service]. *)
Definition set_configuration_and_get_service (gi : ptr) : M (ptr * ptr) :=
  c_assert (negb (is_null gi));;
  device_id ← generic_interface_get_device_id gi;
  interface_number ← generic_interface_get_interface_number gi;
  (* Get an io_service_t for the physical device. *)
  '(error, device_service) ← service_get_from_id device_id;
  (* Set the configuration to 1 if it is not set. *)
  error ← then_check error (set_configuration device_service);
  (* Get the io_service_t for the interface. *)
  '(error, service) ← if_ok error NULL (service_get_usb_interface device_service interface_number);
  when (negb (is_null device_service)) (IOObjectRelease device_service);;
  mret (error, service).

Definition libusbp_generic_handle_close (handle : ptr) : M unit :=
  if is_null handle then mret tt else
  h ← load_as as_handle_mac handle;
  when (negb (is_null (mgh_ioh h)))
    (USBInterfaceClose (mgh_ioh h);; Release (mgh_ioh h);; Release (mgh_plug_in h));;
  free handle.

(** The stage of [libusbp_generic_handle_open] that finds the interface. *)
Definition find_interface_service (gi : ptr) : M (ptr * ptr) :=
  '(has_interface_id, interface_id) ← generic_interface_get_interface_id gi;
  if has_interface_id : bool then service_get_from_id interface_id
  else set_configuration_and_get_service gi.

Definition libusbp_generic_handle_open (gi : ptr) (handle_given : bool) : M (ptr * option ptr) :=
  if negb handle_given then
    error ← error_create "Generic handle output pointer is null.";
    mret (error, None)
  else if is_null gi then
    error ← error_create "Generic interface is null.";
    mret (error, Some NULL)
  else
  (* Allocate memory for the handle. *)
  new_handle ← calloc 1 sizeof_libusbp_generic_handle_mac (OMacHandle zero_handle);
  let error := if is_null new_handle then Static error_no_memory else NULL in
  (* Get the io_service_t representing the IOUSBInterface. *)
  '(error, service) ← if_ok error NULL (find_interface_service gi);
  (* Get the IOInterfaceInterface. *)
  error ← then_check error
    ('(error, ioh, plug_in) ← service_to_interface service InterfaceKind true;
     set_handle new_handle (set_interfaces ioh (default NULL plug_in));;
     mret error);
  (* Open the interface for exclusive access. *)
  error ← then_check error
    (h ← load_as as_handle_mac new_handle;
     kr ← USBInterfaceOpen (mgh_ioh h);
     mach_check kr "Failed to open generic handle.");
  (* Retrieve and store important information from the pipe properties. *)
  error ← then_check error (process_pipe_properties new_handle);
  (* Create the async port. *)
  error ← then_check error
    (h ← load_as as_handle_mac new_handle;
     '(kr, port) ← CreateInterfaceAsyncPort (mgh_ioh h);
     set_handle new_handle (set_async_port port);;
     mach_check kr "Failed to create asynchronous port.");
  (* Pass the handle to the caller. *)
  let '(handle, new_handle) :=
    if is_null error then (new_handle, NULL) else (NULL, new_handle) in
  (* Clean up. *)
  libusbp_generic_handle_close new_handle;;
  when (negb (is_null service)) (IOObjectRelease service);;
  mret (error, Some handle).

Definition libusbp_generic_handle_set_timeout (handle : ptr) (pipe_id timeout : Z) : M ptr :=
  if is_null handle then error_create "Generic handle is null." else
  error ← check_pipe_id pipe_id;
  if is_null error then
    let endpoint_number := Z.land pipe_id MAX_ENDPOINT_NUMBER in
    h ← load_as as_handle_mac handle;
    (if negb (Z.land pipe_id 0x80 =? 0) then
       in_timeout ← endpoint_set (mgh_in_timeout h) endpoint_number timeout;
       set_handle handle (set_timeouts (mgh_out_timeout h) in_timeout)
     else
       out_timeout ← endpoint_set (mgh_out_timeout h) endpoint_number timeout;
       set_handle handle (set_timeouts out_timeout (mgh_in_timeout h)));;
    mret error
  else mret error.

Definition libusbp_control_transfer (handle : ptr) (bmRequestType bRequest wValue wIndex : Z)
    (buffer : ptr) (wLength : Z) (transferred_given : bool) : M (ptr * option Z) :=
  if is_null handle then
    error ← error_create "Generic handle is null.";
    mret (error, out transferred_given 0)
  else
    h ← load_as as_handle_mac handle;
    timeout ← endpoint_get (mgh_out_timeout h) 0;
    '(kr, wLenDone) ← ControlRequestTO (mgh_ioh h)
      {| req_bmRequestType := bmRequestType; req_bRequest := bRequest; req_wValue := wValue;
         req_wIndex := wIndex; req_wLength := wLength; req_pData := buffer;
         req_completionTimeout := timeout |};
    error ← mach_check kr "Control transfer failed.";
    mret (error, out transferred_given wLenDone).

Definition libusbp_read_pipe (handle : ptr) (pipe_id : Z) (buffer : ptr) (size : Z)
    (transferred_given : bool) : M (ptr * option Z) :=
  if is_null handle then
    error ← error_create "Generic handle is null.";
    mret (error, out transferred_given 0)
  else
  error ← (if size =? 0 then error_create "Transfer size 0 is not allowed." else mret NULL);
  error ← then_check error
    (if UINT32_MAX <? size then error_create "Transfer size is too large." else mret NULL);
  error ← then_check error
    (if is_null buffer then error_create "Buffer is null." else mret NULL);
  error ← then_check error (check_pipe_id_in pipe_id);
  '(error, transferred) ← if_ok error (out transferred_given 0)
    (let endpoint_number := Z.land pipe_id MAX_ENDPOINT_NUMBER in
     h ← load_as as_handle_mac handle;
     completion_timeout ← endpoint_get (mgh_in_timeout h) endpoint_number;
     pipe_index ← endpoint_get (mgh_in_pipe_index h) endpoint_number;
     '(kr, iokit_size) ← ReadPipeTO (mgh_ioh h) pipe_index buffer (to_u32 size) completion_timeout;
     error ← mach_check kr "";
     mret (error, out transferred_given iokit_size));
  error ← (if negb (is_null error) then error_add error "Failed to read from pipe."
           else mret error);
  mret (error, transferred).

Definition libusbp_write_pipe (handle : ptr) (pipe_id : Z) (buffer : ptr) (size : Z)
    (transferred_given : bool) : M (ptr * option Z) :=
  if is_null handle then
    error ← error_create "Generic handle is null.";
    mret (error, out transferred_given 0)
  else
  error ← (if UINT32_MAX <? size then error_create "Transfer size is too large." else mret NULL);
  error ← then_check error
    (if is_null buffer && negb (size =? 0) then error_create "Buffer is null." else mret NULL);
  error ← then_check error (check_pipe_id_out pipe_id);
  error ← then_check error
    (let endpoint_number := Z.land pipe_id MAX_ENDPOINT_NUMBER in
     h ← load_as as_handle_mac handle;
     completion_timeout ← endpoint_get (mgh_out_timeout h) endpoint_number;
     pipe_index ← endpoint_get (mgh_out_pipe_index h) endpoint_number;
     kr ← WritePipeTO (mgh_ioh h) pipe_index buffer (to_u32 size) completion_timeout;
     mach_check kr "");
  let transferred := out transferred_given (if is_null error then size else 0) in
  error ← (if negb (is_null error) then error_add error "Failed to write to pipe."
           else mret error);
  mret (error, transferred).

Definition libusbp_generic_handle_get_cf_plug_in (handle : ptr) : M ptr :=
  if is_null handle then mret NULL else
  h ← load_as as_handle_mac handle;
  mret (mgh_plug_in h).

Definition generic_handle_get_ioh (handle : ptr) : M ptr :=
  c_assert (negb (is_null handle));;
  h ← load_as as_handle_mac handle;
  mret (mgh_ioh h).

Definition generic_handle_get_pipe_index (handle : ptr) (pipe_id : Z) : M Z :=
  let endpoint_number := Z.land pipe_id MAX_ENDPOINT_NUMBER in
  h ← load_as as_handle_mac handle;
  if negb (Z.land pipe_id 0x80 =? 0) then endpoint_get (mgh_in_pipe_index h) endpoint_number
  else endpoint_get (mgh_out_pipe_index h) endpoint_number.
End code.

(** ** What a handle holds *)

Record mac_handle := MacHandle {
  mh_id : Z;
  mh_port : Z;
  mh_out : list Z;
  mh_in : list Z;
  mh_out_index : list Z;
  mh_in_index : list Z
}.

Definition mac_handle_wf (h : mac_handle) : Prop :=
  List.length (mh_out h) = 16%nat ∧ List.length (mh_in h) = 16%nat ∧
  List.length (mh_out_index h) = 16%nat ∧ List.length (mh_in_index h) = 16%nat.

Definition mac_handle_struct (ioh plug_in : ptr) (h : mac_handle) : libusbp_generic_handle_mac :=
  {| mgh_ioh := ioh; mgh_plug_in := plug_in; mgh_async_port := mh_port h;
     mgh_out_timeout := mh_out h; mgh_in_timeout := mh_in h;
     mgh_out_pipe_index := mh_out_index h; mgh_in_pipe_index := mh_in_index h |}.

(** The handle [p] with the interface [ioh]. *)
Definition mac_handle_own (p ioh : ptr) (h : mac_handle) : hProp :=
  (∃ l pl, ⟪p = Heap l ∧ mac_handle_wf h⟫ ∗ l ↦ OMacHandle (mac_handle_struct ioh pl h) ∗
     com_own ioh (OUsbInterface (mh_id h) (mh_port h)) ∗ com_own pl (OPlugIn (mh_id h)))%I.

Lemma mac_handle_not_null p ioh h :
  mac_handle_own p ioh h ⊢ ⌜is_null p = false ∧ mac_handle_wf h⌝ ∧ mac_handle_own p ioh h.
Proof. iIntros "H". iSplit; [|done]. by iDestruct "H" as (l pl) "[[-> %] _]". Qed.

(** Reading the fields of a handle. *)
Lemma mac_handle_load p ioh h x Q :
  mac_handle_own p ioh h -∗
  (∀ pl, com_own ioh (OUsbInterface (mh_id h) (mh_port h)) -∗
     (com_own ioh (OUsbInterface (mh_id h) (mh_port h)) -∗ mac_handle_own p ioh h) -∗
     Q (mac_handle_struct ioh pl h) x) -∗
  wp (load_as as_handle_mac p) x Q.
Proof.
  iIntros "(%l & %pl & %H & Hl & Hi & Hp) HQ". pose proof H as [-> Hwf].
  iApply (wp_load_as with "Hl"); [done|]. iIntros "Hl". iApply ("HQ" with "Hi").
  iIntros "Hi". iExists l, pl. by iFrame.
Qed.

(** Assigning to fields that do not concern the interface. *)
Lemma wp_set_handle f h' h p ioh x Q :
  (∀ pl, f (mac_handle_struct ioh pl h) = mac_handle_struct ioh pl h') →
  mh_id h' = mh_id h → mh_port h' = mh_port h → mac_handle_wf h' →
  mac_handle_own p ioh h -∗ (mac_handle_own p ioh h' -∗ Q tt x) -∗ wp (set_handle p f) x Q.
Proof.
  iIntros (Hf Hid Hport Hwf') "(%l & %pl & %H & Hl & Hi & Hp) HQ". destruct H as [-> Hwf].
  unfold set_handle. wp_steps. rewrite Hf. iApply "HQ". iExists l, pl. rewrite Hid Hport.
  iFrame. by iPureIntro.
Qed.

Section specs.
Context `{OS : MacOS} {LAWS : MacLaws OS}.

(** ** Pipe indexes *)

Definition with_indexes (h : mac_handle) (t : list Z * list Z) : mac_handle :=
  MacHandle (mh_id h) (mh_port h) (mh_out h) (mh_in h) t.1 t.2.

(** The tables after looking at pipe [i]. *)
Definition record_pipe (t : list Z * list Z) (i : Z) (p : pipe_properties) : list Z * list Z :=
  if pp_endpoint_number p <=? MAX_ENDPOINT_NUMBER then
    let e := Z.to_nat (pp_endpoint_number p) in
    if negb (pp_direction p =? 0) then (t.1, <[e := to_u8 i]> t.2) else (<[e := to_u8 i]> t.1, t.2)
  else t.

Lemma record_pipe_lengths t i p :
  List.length (record_pipe t i p).1 = List.length t.1 ∧
  List.length (record_pipe t i p).2 = List.length t.2.
Proof.
  unfold record_pipe. repeat case_match; cbn; by rewrite ?length_insert.
Qed.

Definition s_pipe_properties (id i : Z) : Spec pipe_properties := λ h,
  s_io (mac_pipe_properties h id i).1 (mac_pipe_properties h id i).2 (EvPipeProperties id i)
    ("Failed to get pipe properties for pipe " +:+ fmt_d i +:+ ".") h.

Fixpoint s_pipes (id i : Z) (n : nat) (t : list Z * list Z) : Spec (list Z * list Z) :=
  match n with
  | O => mret t
  | S n => p ← s_pipe_properties id i; s_pipes id (i + 1) n (record_pipe t i p)
  end.

Definition s_num_endpoints (id : Z) : Spec Z := λ h,
  s_io (mac_num_endpoints h id).1 (mac_num_endpoints h id).2 (EvNumEndpoints id)
    "Failed to get number of endpoints." h.

Definition s_pipe_tables (id : Z) (t : list Z * list Z) : Spec (list Z * list Z) :=
  n ← s_num_endpoints id; s_pipes id 1 (Z.to_nat n) t.

Definition indexes (h : mac_handle) : list Z * list Z := (mh_out_index h, mh_in_index h).

Lemma with_indexes_id h : with_indexes h (indexes h) = h.
Proof. by destruct h. Qed.

Lemma indexes_with h t : indexes (with_indexes h t) = t.
Proof. by destruct t. Qed.

Lemma wp_store_pipe_index p ioh h pp i x Q :
  u8 (pp_endpoint_number pp) →
  mac_handle_own p ioh h -∗
  (mac_handle_own p ioh (with_indexes h (record_pipe (indexes h) i pp)) -∗ Q tt x) -∗
  wp (store_pipe_index p pp i) x Q.
Proof.
  iIntros (He) "Hh HQ". iDestruct (mac_handle_not_null with "Hh") as "[[%Hn %Hwf] Hh]".
  unfold store_pipe_index, record_pipe. unfold u8 in He. unfold MAX_ENDPOINT_NUMBER.
  destruct (Z.leb_spec (pp_endpoint_number pp) 15); last first.
  { rewrite with_indexes_id. wp_steps. by iApply "HQ". }
  destruct Hwf as (H1 & H2 & H3 & H4). wp_step.
  iApply (mac_handle_load with "Hh"). iIntros (pl) "Hi Hclose". iDestruct ("Hclose" with "Hi") as "Hh".
  cbn [mac_handle_struct mgh_in_pipe_index mgh_out_pipe_index].
  destruct (pp_direction pp =? 0); wp_steps; (iApply wp_endpoint_set; [lia|]); cbn [negb];
    (iApply (wp_set_handle _ (with_indexes h (_, _)) with "Hh"); [done..| |iApply "HQ"]);
    split_and!; cbn; rewrite ?length_insert; done.
Qed.

Lemma calm_checked {A} (s : Spec A) x x' a : succeeded s x x' a → calm x x'.
Proof. by intros []. Qed.

Lemma process_pipes_loop_spec p ioh h n i x :
  {{ mac_handle_own p ioh h }} process_pipes_loop p i n @ x {{ r x',
    returns (s_pipes (mh_id h) i n (indexes h)) x x' r
      (λ t, mac_handle_own p ioh (with_indexes h t)) (∃ t, mac_handle_own p ioh (with_indexes h t)) }}.
Proof.
  revert h i x. induction n as [|n IH]; intros h i x; iIntros "Hh"; cbn [process_pipes_loop s_pipes].
  { wp_steps. iApply (returns_ok _ _ _ (indexes h)); [by apply succeeded_ret|]. by rewrite with_indexes_id. }
  wp_step. iApply (mac_handle_load with "Hh"). iIntros (pl) "Hi Hclose".
  cbn [mac_handle_struct mgh_ioh]. unfold GetPipeProperties, log_mac. wp_steps.
  iApply (com_own_load as_usb_interface with "Hi"); [done|]. iIntros "Hi". wp_steps.
  iDestruct ("Hclose" with "Hi") as "Hh". set (id := mh_id h).
  pose proof (pipe_properties_u8 (x_trace x) id i) as Hu8.
  destruct (mac_pipe_properties (x_trace x) id i) as [kr pp] eqn:Ep.
  set (text := "Failed to get pipe properties for pipe " +:+ fmt_d i +:+ ".").
  assert (Hs : s_pipe_properties id i (x_trace x) = s_io kr pp (EvPipeProperties id i) text (x_trace x)).
  { unfold s_pipe_properties. by rewrite Ep. }
  wp_steps. destruct (kr =? KERN_SUCCESS) eqn:Ek; wp_steps.
  - assert (Ha : succeeded (s_pipe_properties id i) x (mac_ext (EvPipeProperties id i) x) pp).
    { split; [apply calm_mac|]. rewrite Hs. unfold s_io. by rewrite Ek. }
    iApply (wp_store_pipe_index with "Hh"); [done|]. iIntros "Hh". wp_steps.
    iApply (wp_wand with "[Hh]"); [by iApply (IH (with_indexes h (record_pipe (indexes h) i pp)))|].
    iIntros (r x') "H". iApply (returns_bind with "[H]"); [exact Ha|]. by rewrite indexes_with.
  - iApply wp_error_create_mach; [by rewrite !no_nul_app no_nul_fmt_d|]. iIntros (r x') "%Hr He".
    iApply (returns_err_from _ _ (mac_ext (EvPipeProperties id i) x) with "[-]");
      [apply calm_mac| |iFrame "He"; iExists (indexes h); by rewrite with_indexes_id].
    apply sbind_err. rewrite Hs. unfold s_io. by rewrite Ek.
Qed.

Lemma process_pipe_properties_spec p ioh h x :
  {{ mac_handle_own p ioh h }} process_pipe_properties p @ x {{ r x',
    returns (s_pipe_tables (mh_id h) (indexes h)) x x' r
      (λ t, mac_handle_own p ioh (with_indexes h t)) (∃ t, mac_handle_own p ioh (with_indexes h t)) }}.
Proof.
  iIntros "Hh". unfold process_pipe_properties, GetNumEndpoints, log_mac. wp_step.
  iApply (mac_handle_load with "Hh"). iIntros (pl) "Hi Hclose".
  cbn [mac_handle_struct mgh_ioh]. wp_steps.
  iApply (com_own_load as_usb_interface with "Hi"); [done|]. iIntros "Hi". wp_steps.
  iDestruct ("Hclose" with "Hi") as "Hh". set (id := mh_id h).
  destruct (mac_num_endpoints (x_trace x) id) as [kr n] eqn:En.
  assert (Hs : s_num_endpoints id (x_trace x) =
    s_io kr n (EvNumEndpoints id) "Failed to get number of endpoints." (x_trace x)).
  { unfold s_num_endpoints. by rewrite En. }
  wp_steps. destruct (kr =? KERN_SUCCESS) eqn:Ek; wp_steps.
  - iApply (wp_wand with "[Hh]"); [by iApply process_pipes_loop_spec|]. iIntros (r x') "H".
    iApply (returns_bind _ _ n _ (mac_ext (EvNumEndpoints id) x)); [|done].
    split; [apply calm_mac|]. rewrite Hs. unfold s_io. by rewrite Ek.
  - iApply wp_error_create_mach; [done|]. iIntros (r x') "%Hr He".
    iApply (returns_err_from _ _ (mac_ext (EvNumEndpoints id) x) with "[-]");
      [apply calm_mac| |iFrame "He"; iExists (indexes h); by rewrite with_indexes_id].
    apply sbind_err. rewrite Hs. unfold s_io. by rewrite Ek.
Qed.

(** ** Configuring the device *)

(** A call that is made at the end in any case. *)
Definition s_finally {A} (ev : mac_event) (s : Spec A) : Spec A := λ h,
  let '(r, h') := s h in (r, EvMac ev :: h').

Lemma succeeded_finally {A} ev (s : Spec A) x x' a :
  succeeded s x x' a → succeeded (s_finally ev s) x (mac_ext ev x') a.
Proof.
  intros [Hc E]. split; [etrans; [done|apply calm_mac]|]. unfold s_finally. by rewrite E.
Qed.

Lemma failed_finally {A} ev (s : Spec A) x x' got :
  failed s x x' got → failed (s_finally ev s) x (mac_ext ev x') got.
Proof.
  intros [Hc E]. split; [etrans; [done|apply calm_mac]|].
  destruct E as [E|[? ?]]; [left|by right]. unfold s_finally. by rewrite E.
Qed.

(** The configuration that is set; a device that does not say is not configured. *)
Definition s_get_configuration (id : Z) : Spec Z := λ h,
  let '(kr, n) := mac_get_configuration h id in
  (inr (if kr =? KERN_SUCCESS then n else 0), EvMac (EvGetConfiguration id) :: h).

Definition s_device_open (id : Z) : Spec unit := λ h,
  s_io (mac_device_open h id) tt (EvDeviceOpen id) "Failed to open handle to device." h.

Definition s_configuration_1 (id : Z) : Spec unit := λ h,
  s_io (mac_set_configuration h id 1) tt (EvSetConfiguration id 1)
    "Failed to set configuration to 1." h.

Definition s_configure (id : Z) : Spec unit :=
  n ← s_get_configuration id;
  if n =? 0 then s_device_open id;; s_configuration_1 id else mret tt.

Definition s_set_configuration (id : Z) : Spec unit :=
  s_to_interface id DeviceKind;; s_finally (EvDeviceClose id) (s_configure id).

(** The cleanup of [set_configuration]. *)
Ltac close_device :=
  unfold USBDeviceClose, log_mac; wp_steps;
  iApply (com_own_load as_usb_device with "Hd"); [done|]; iIntros "Hd"; wp_steps;
  iApply (wp_release_com with "Hd"); wp_steps; iApply (wp_release_com with "Hp"); wp_steps;
  iFrame "Hs".

Lemma set_configuration_spec p id x :
  {{ service_own p id }} set_configuration p @ x {{ r x',
    service_own p id ∗ returns (s_set_configuration id) x x' r (λ _, emp) emp }}.
Proof.
  iIntros "Hs". iDestruct (service_own_not_null with "Hs") as "[%Hn Hs]".
  unfold set_configuration. wp_steps.
  wp_call (service_to_interface_spec p id DeviceKind x). iIntros ([[e dev] o] x1) "[Hs H]".
  returned "H"; last first.
  { iDestruct "Hbad" as %[-> ->]. wp_steps. iFrame "Hs". iRight. iExists got. iFrame. iPureIntro. chain. }
  iDestruct "Hok" as "[Hd (%pl & -> & Hp)]". iDestruct (com_own_not_null with "Hd") as "[%Hdn Hd]".
  cbn [default kind_obj]. unfold GetConfiguration, USBDeviceOpen, SetConfiguration, log_mac.
  wp_steps. iApply (com_own_load as_usb_device with "Hd"); [done|]. iIntros "Hd". wp_steps.
  set (h1 := x_trace x1). set (x2 := mac_ext (EvGetConfiguration id) x1).
  destruct (mac_get_configuration h1 id) as [kr n] eqn:Eg.
  assert (Hg : succeeded (s_get_configuration id) x1 x2 (if kr =? KERN_SUCCESS then n else 0)).
  { split; [apply calm_mac|]. unfold s_get_configuration. fold h1. by rewrite Eg. }
  wp_steps. rewrite (_ : (if negb (kr =? KERN_SUCCESS) then 0 else n) = (if kr =? KERN_SUCCESS then n else 0));
    [|by destruct (kr =? KERN_SUCCESS)].
  set (config := if kr =? KERN_SUCCESS then n else 0) in *.
  destruct (config =? 0) eqn:Ec; wp_steps; last first.
  { close_device.
    iApply (returns_ok _ _ _ tt (λ _, emp)%I); [|done]. unfold s_set_configuration.
    eapply succeeded_bind; [exact Ha|]. apply (succeeded_finally _ _ _ x2). unfold s_configure. rewrite /= in Hg.
    eapply succeeded_bind; [exact Hg|]. rewrite Ec. by apply succeeded_ret. }
  iApply (com_own_load as_usb_device with "Hd"); [done|]. iIntros "Hd". wp_steps.
  iApply (wp_mach_checked _ tt (EvDeviceOpen id) _ (s_device_open id) x2);
    [done|done|].
  destruct (mac_device_open _ id =? KERN_SUCCESS); last first.
  { iIntros (r x3 got [Hr Hf]) "He". wp_steps. close_device.
    iRight. iExists got. iFrame. iPureIntro. unfold s_set_configuration.
    eapply failed_bind_r; [exact Ha|]. apply (failed_finally _ _ _ x3). unfold s_configure.
    eapply failed_bind_r; [exact Hg|]. rewrite Ec. by apply failed_bind. }
  iIntros (Ho). set (x3 := mac_ext (EvDeviceOpen id) x2) in *. wp_steps.
  iApply (com_own_load as_usb_device with "Hd"); [done|]. iIntros "Hd". wp_steps.
  iApply (wp_mach_checked _ tt (EvSetConfiguration id 1) _ (s_configuration_1 id) x3);
    [done|done|].
  destruct (mac_set_configuration _ id 1 =? KERN_SUCCESS).
  - iIntros (Hsc). wp_steps. close_device.
    iApply (returns_ok _ _ _ tt (λ _, emp)%I); [|done]. unfold s_set_configuration.
    eapply succeeded_bind; [exact Ha|]. apply (succeeded_finally _ _ _ (mac_ext (EvSetConfiguration id 1) x3)). unfold s_configure.
    eapply succeeded_bind; [exact Hg|]. rewrite Ec. eapply succeeded_bind; [exact Ho|done].
  - iIntros (r x4 got [Hr Hf]) "He". wp_steps. close_device.
    iRight. iExists got. iFrame. iPureIntro. unfold s_set_configuration.
    eapply failed_bind_r; [exact Ha|]. apply (failed_finally _ _ _ x4). unfold s_configure.
    eapply failed_bind_r; [exact Hg|]. rewrite Ec. eapply failed_bind_r; [exact Ho|done].
Qed.

(** The registry entry of the interface that a generic interface stands for. *)
Definition s_configured_service (id n : Z) : Spec Z :=
  s_get_from_id id;; s_set_configuration id;; s_usb_interface id n.

Definition s_interface_service (i : mac_interface) : Spec Z :=
  match mi_id i with
  | Some id => s_get_from_id id;; mret id
  | None => s_configured_service (mi_device i) (mi_number i)
  end.

Lemma configured_service_spec p i x :
  {{ mac_interface_own p i }} set_configuration_and_get_service p @ x {{ r x',
    mac_interface_own p i ∗
    returns (s_configured_service (mi_device i) (mi_number i)) x x' r.1 (service_own r.2) ⟪r.2 = NULL⟫ }}.
Proof.
  iIntros "Hg". iDestruct (gi_block_not_null with "Hg") as "[%Hn Hg]".
  unfold set_configuration_and_get_service, then_check, if_ok. wp_steps.
  wp_call (mac_interface_get_device_id_spec p i x). iIntros (? ?) "[%H Hg]". destruct H as [-> ->]. wp_step.
  wp_call (mac_interface_get_number_spec p i x). iIntros (? ?) "[%H Hg]". destruct H as [-> ->]. wp_step.
  wp_call (service_get_from_id_spec (mi_device i) x). iIntros ([e d] x1) "H". returned "H"; last first.
  { iDestruct "Hbad" as %->. wp_steps. iFrame "Hg". fails. }
  destruct a. iRename "Hok" into "Hd". iDestruct (service_own_not_null with "Hd") as "[%Hdn Hd]". wp_step.
  wp_call (set_configuration_spec d (mi_device i) x1). iIntros (e x2) "[Hd H]". returned "H"; last first.
  { wp_steps. iApply (wp_release_service with "Hd"). wp_steps. iFrame "Hg". iRight. iExists got. iFrame.
    iSplit; [|done]. iPureIntro. chain. }
  iClear "Hok". destruct a. wp_step.
  wp_call (service_get_usb_interface_spec d (mi_device i) (mi_number i) x2). iIntros ([e s] x3) "[Hd H]".
  wp_steps. iApply (wp_release_service with "Hd"). wp_steps. iFrame "Hg".
  do 2 (iApply (returns_bind with "[H]"); [eassumption|]). done.
Qed.

Lemma find_interface_service_spec p i x :
  {{ mac_interface_own p i }} find_interface_service p @ x {{ r x',
    mac_interface_own p i ∗
    returns (s_interface_service i) x x' r.1 (service_own r.2) ⟪r.2 = NULL⟫ }}.
Proof.
  iIntros "Hg". unfold find_interface_service, s_interface_service. wp_step.
  wp_call (mac_interface_get_id_spec p i x). iIntros ([b id] ?) "[%H Hg]". destruct H as [H ->].
  cbn [fst snd] in H. destruct (mi_id i) as [id'|]; injection H as -> ->; wp_simpl.
  - wp_call (service_get_from_id_spec id' x). iIntros ([e s] x1) "H". iFrame "Hg". returned "H".
    + iApply (returns_ok _ _ _ id' with "Hok"). eapply succeeded_bind; [eassumption|].
      by apply succeeded_ret.
    + iRight. iExists got. iFrame. iPureIntro. chain.
  - by iApply configured_service_spec.
Qed.

(** ** Opening and closing *)

Lemma mac_handle_close_spec p ioh h x :
  {{ mac_handle_own p ioh h }} libusbp_generic_handle_close p @ x {{ r x',
    ⟪x' = mac_ext (EvInterfaceClose (mh_id h)) x⟫ }}.
Proof.
  iIntros "(%l & %pl & %H & Hl & Hi & Hp)". destruct H as [-> _].
  iDestruct (com_own_not_null with "Hi") as "[%Hn Hi]".
  unfold libusbp_generic_handle_close, USBInterfaceClose, log_mac. wp_steps.
  cbn [mac_handle_struct mgh_ioh mgh_plug_in]. wp_steps.
  iApply (com_own_load as_usb_interface with "Hi"); [done|]. iIntros "Hi". wp_steps.
  iApply (wp_release_com with "Hi"). wp_steps. iApply (wp_release_com with "Hp"). wp_steps.
  by iPureIntro.
Qed.

(** A handle without an interface. *)
Lemma wp_close_zero_handle l x Q :
  l ↦ OMacHandle zero_handle -∗ Q tt x -∗ wp (libusbp_generic_handle_close (Heap l)) x Q.
Proof.
  iIntros "Hl HQ". unfold libusbp_generic_handle_close. wp_steps. cbn [zero_handle mgh_ioh]. by wp_steps.
Qed.

Lemma wp_close_no_handle x Q : Q tt x ⊢ wp (libusbp_generic_handle_close NULL) x Q.
Proof. apply wp_ret. Qed.

(** A call that is made when [s] fails. *)
Definition s_on_failure {A} (ev : mac_event) (s : Spec A) : Spec A := λ h,
  match s h with (inl e, h') => (inl e, EvMac ev :: h') | r => r end.

Lemma succeeded_on_failure {A} ev (s : Spec A) x x' a :
  succeeded s x x' a → succeeded (s_on_failure ev s) x x' a.
Proof. intros [Hc E]. split; [done|]. unfold s_on_failure. by rewrite E. Qed.

Lemma failed_on_failure {A} ev (s : Spec A) x x' got :
  failed s x x' got → failed (s_on_failure ev s) x (mac_ext ev x') got.
Proof.
  intros [Hc E]. split; [etrans; [done|apply calm_mac]|].
  destruct E as [E|[? ?]]; [left|by right]. unfold s_on_failure. by rewrite E.
Qed.

Definition zeros : list Z := replicate 16 0.

(** A handle as it is when the interface has been found. *)
Definition fresh_handle (id : Z) : mac_handle := MacHandle id 0 zeros zeros zeros zeros.

Definition with_port (h : mac_handle) (port : Z) : mac_handle :=
  MacHandle (mh_id h) port (mh_out h) (mh_in h) (mh_out_index h) (mh_in_index h).

Definition s_interface_open (id : Z) : Spec unit := λ h,
  s_io (mac_interface_open h id) tt (EvInterfaceOpen id) "Failed to open generic handle." h.

Definition s_async_port (id : Z) : Spec Z := λ h,
  s_io (mac_async_port h id).1 (mac_async_port h id).2 (EvAsyncPort id)
    "Failed to create asynchronous port." h.

Definition s_handle_setup (id : Z) : Spec mac_handle :=
  s_interface_open id;;
  t ← s_pipe_tables id (zeros, zeros);
  port ← s_async_port id;
  mret (with_port (with_indexes (fresh_handle id) t) port).

Definition s_handle_open (i : mac_interface) : Spec mac_handle :=
  id ← s_interface_service i;
  s_to_interface id InterfaceKind;;
  s_on_failure (EvInterfaceClose id) (s_handle_setup id).

(** The stages of [libusbp_generic_handle_open]. *)
Lemma interfaces_stage_spec s id l x :
  {{ service_own s id ∗ l ↦ OMacHandle zero_handle }}
    ('(error, ioh, plug_in) ← service_to_interface s InterfaceKind true;
     set_handle (Heap l) (set_interfaces ioh (default NULL plug_in));;
     mret error) @ x
  {{ r x', service_own s id ∗ returns (s_to_interface id InterfaceKind) x x' r
      (λ _, ∃ ioh, mac_handle_own (Heap l) ioh (fresh_handle id)) (l ↦ OMacHandle zero_handle) }}.
Proof.
  iIntros "[Hs Hl]". wp_step. wp_call (service_to_interface_spec s id InterfaceKind x).
  iIntros ([[e ioh] o] x1) "[Hs H]". unfold set_handle. returned "H".
  - iDestruct "Hok" as "[Hi (%pl & -> & Hp)]". wp_steps. iFrame "Hs".
    iApply (returns_ok _ _ _ a with "[-]"); [done|]. iExists ioh, l, pl. by iFrame.
  - iDestruct "Hbad" as %[-> ->]. wp_steps. iFrame "Hs". iRight. iExists got. by iFrame.
Qed.

Lemma interface_open_stage_spec p ioh h x :
  {{ mac_handle_own p ioh h }}
    (h ← load_as as_handle_mac p;
     kr ← USBInterfaceOpen (mgh_ioh h);
     mach_check kr "Failed to open generic handle.") @ x
  {{ r x', mac_handle_own p ioh h ∗ returns (s_interface_open (mh_id h)) x x' r (λ _, emp) emp }}.
Proof.
  iIntros "Hh". unfold USBInterfaceOpen, log_mac. wp_step.
  iApply (mac_handle_load with "Hh"). iIntros (pl) "Hi Hclose". cbn [mac_handle_struct mgh_ioh]. wp_steps.
  iApply (com_own_load as_usb_interface with "Hi"); [done|]. iIntros "Hi". wp_steps.
  iDestruct ("Hclose" with "Hi") as "Hh".
  iApply (wp_mach_checked _ tt (EvInterfaceOpen (mh_id h)) _ (s_interface_open (mh_id h)) x);
    [done|done|].
  destruct (mac_interface_open _ _ =? KERN_SUCCESS).
  - iIntros (Ha). iFrame. by iApply (returns_ok _ _ _ tt (λ _, emp)%I).
  - iIntros (r x' got [Hr Hf]) "He". iFrame. iRight. iExists got. by iFrame.
Qed.

Lemma async_port_stage_spec p ioh h x :
  mh_port h = 0 →
  {{ mac_handle_own p ioh h }}
    (h ← load_as as_handle_mac p;
     '(kr, port) ← CreateInterfaceAsyncPort (mgh_ioh h);
     set_handle p (set_async_port port);;
     mach_check kr "Failed to create asynchronous port.") @ x
  {{ r x', returns (s_async_port (mh_id h)) x x' r
      (λ port, mac_handle_own p ioh (with_port h port)) (mac_handle_own p ioh h) }}.
Proof.
  iIntros (Hport) "(%l & %pl & %H & Hl & Hi & Hp)". destruct H as [-> Hwf].
  iDestruct "Hi" as (li) "[[-> _] Hi]". unfold CreateInterfaceAsyncPort, set_handle, log_mac.
  wp_steps. cbn [mac_handle_struct mgh_ioh]. wp_steps. set (id := mh_id h).
  destruct (mac_async_port (x_trace x) id) as [kr port] eqn:Ep.
  assert (Hs : s_async_port id (x_trace x) =
    s_io kr port (EvAsyncPort id) "Failed to create asynchronous port." (x_trace x)).
  { unfold s_async_port. by rewrite Ep. }
  destruct (kr =? KERN_SUCCESS) eqn:Ek; wp_steps.
  - iApply (wp_mach_checked _ port (EvAsyncPort id) _ (s_async_port id) x); [done|exact Hs|].
    rewrite Ek. iIntros (Ha). iApply (returns_ok _ _ _ port with "[-]"); [done|].
    iAssert (li ↦ OUsbInterface id port)%I with "[$]" as "Hi".
    iDestruct (com_own_intro with "Hi") as "Hi"; [done|].
    iExists l, pl. iFrame "Hp Hi". iSplit; [done|].
    iAssert (l ↦ OMacHandle (mac_handle_struct (Heap li) pl (with_port h port)))%I with "[$]" as "$".
  - iApply (wp_mach_checked _ port (EvAsyncPort id) _ (s_async_port id) x); [done|exact Hs|].
    rewrite Ek. iIntros (r x' got [Hr Hf]) "He".
    iAssert (li ↦ OUsbInterface id (mh_port h))%I with "[$]" as "Hi".
    iDestruct (com_own_intro with "Hi") as "Hi"; [done|].
    iAssert (l ↦ OMacHandle (mac_handle_struct (Heap li) pl (with_port h 0)))%I with "[$]" as "Hl".
    rewrite -Hport (_ : with_port h (mh_port h) = h); [|by destruct h].
    iRight. iExists got. iFrame "He". iSplit; [done|]. iExists l, pl. by iFrame.
Qed.

Lemma mac_handle_open_spec p i x :
  {{ mac_interface_own p i }} libusbp_generic_handle_open p true @ x {{ r x',
    mac_interface_own p i ∗
    returns (s_handle_open i) x x' r.1
      (λ h, ∃ q ioh, ⟪r.2 = Some q⟫ ∗ mac_handle_own q ioh h) ⟪r.2 = Some NULL⟫ }}.
Proof.
  iIntros "Hg". iDestruct (gi_block_not_null with "Hg") as "[%Hn Hg]".
  unfold libusbp_generic_handle_open, if_ok, then_check, calloc. wp_steps.
  iApply wp_malloc_pos; [done|]. iSplit; last first.
  { iIntros (x1 [Hq Ho]). wp_steps. iApply wp_close_no_handle. wp_steps. iFrame. by iApply returns_no_memory. }
  iIntros (l Hl) "Hl". wp_step. wp_call (find_interface_service_spec p i x).
  iIntros ([e s] x1) "[Hg H]". returned "H"; last first.
  { iDestruct "Hbad" as %->. wp_steps. iApply (wp_close_zero_handle with "Hl"). wp_steps.
    iFrame "Hg". fails. }
  rename a into id. iRename "Hok" into "Hs". iDestruct (service_own_not_null with "Hs") as "[%Hs Hs]". wp_step.
  wp_call (interfaces_stage_spec s id l x1). iIntros (e x2) "[Hs H]". returned "H"; last first.
  { wp_steps. iApply (wp_close_zero_handle with "Hbad"). wp_steps.
    iApply (wp_release_service with "Hs"). wp_steps. iFrame "Hg".
    iRight. iExists got. iFrame. iSplit; [|done]. iPureIntro. chain. }
  destruct a. iDestruct "Hok" as (ioh) "Hh". set (h := fresh_handle id). wp_step.
  wp_call (interface_open_stage_spec (Heap l) ioh h x2). iIntros (e x3) "[Hh H]". returned "H"; last first.
  { wp_steps. wp_call (mac_handle_close_spec (Heap l) ioh h x3). iIntros ([] ?) "->". wp_steps.
    iApply (wp_release_service with "Hs"). wp_steps. iFrame "Hg".
    iRight. iExists got. iFrame. iSplit; [|done]. iPureIntro. unfold s_handle_open.
    do 2 (eapply failed_bind_r; [eassumption|]). apply (failed_on_failure _ _ _ x3). by apply failed_bind. }
  iClear "Hok". destruct a. wp_step.
  wp_call (process_pipe_properties_spec (Heap l) ioh h x3). iIntros (e x4) "H". returned "H"; last first.
  { iDestruct "Hbad" as (t) "Hh". wp_steps.
    wp_call (mac_handle_close_spec (Heap l) ioh (with_indexes h t) x4). iIntros ([] ?) "->". wp_steps.
    iApply (wp_release_service with "Hs"). wp_steps. iFrame "Hg".
    iRight. iExists got. iFrame. iSplit; [|done]. iPureIntro. unfold s_handle_open.
    do 2 (eapply failed_bind_r; [eassumption|]). apply (failed_on_failure _ _ _ x4).
    eapply failed_bind_r; [eassumption|]. by apply failed_bind. }
  rename a into t. iRename "Hok" into "Hh". wp_step.
  wp_call (async_port_stage_spec (Heap l) ioh (with_indexes h t) x4 eq_refl).
  iIntros (e x5) "H". returned "H".
  - wp_steps. iApply wp_close_no_handle. wp_steps. iApply (wp_release_service with "Hs"). wp_steps.
    iFrame "Hg". iApply (returns_ok _ _ _ (with_port (with_indexes h t) a) with "[-]").
    { unfold s_handle_open. do 2 (eapply succeeded_bind; [eassumption|]). apply succeeded_on_failure.
      unfold s_handle_setup. do 3 (eapply succeeded_bind; [eassumption|]). by apply succeeded_ret. }
    iExists (Heap l), ioh. by iFrame.
  - wp_steps. wp_call (mac_handle_close_spec (Heap l) ioh (with_indexes h t) x5). iIntros ([] ?) "->".
    wp_steps. iApply (wp_release_service with "Hs"). wp_steps. iFrame "Hg".
    iRight. iExists got. iFrame. iSplit; [|done]. iPureIntro. unfold s_handle_open.
    do 2 (eapply failed_bind_r; [eassumption|]). apply (failed_on_failure _ _ _ x5).
    do 2 (eapply failed_bind_r; [eassumption|]). by apply failed_bind.
Qed.

(** ** Timeouts *)

Definition with_mac_timeout (h : mac_handle) (pipe_id timeout : Z) : mac_handle :=
  let i := Z.to_nat (Z.land pipe_id MAX_ENDPOINT_NUMBER) in
  if is_in pipe_id
  then MacHandle (mh_id h) (mh_port h) (mh_out h) (<[i := timeout]> (mh_in h)) (mh_out_index h) (mh_in_index h)
  else MacHandle (mh_id h) (mh_port h) (<[i := timeout]> (mh_out h)) (mh_in h) (mh_out_index h) (mh_in_index h).

(** The timeout and the pipe index for an endpoint. *)
Definition mac_timeout (h : mac_handle) (pipe_id : Z) : Z :=
  default 0 ((if is_in pipe_id then mh_in h else mh_out h)
             !! Z.to_nat (Z.land pipe_id MAX_ENDPOINT_NUMBER)).
Definition pipe_index (h : mac_handle) (pipe_id : Z) : Z :=
  default 0 ((if is_in pipe_id then mh_in_index h else mh_out_index h)
             !! Z.to_nat (Z.land pipe_id MAX_ENDPOINT_NUMBER)).

Lemma mac_set_timeout_spec p ioh h n t x :
  u8 n →
  {{ mac_handle_own p ioh h }} libusbp_generic_handle_set_timeout p n t @ x {{ r x',
    if pipe_id_exists n then ⟪r = NULL ∧ x' = x⟫ ∗ mac_handle_own p ioh (with_mac_timeout h n t)
    else err_res r (invalid_pipe_id n) x x' ∗ mac_handle_own p ioh h }}.
Proof.
  iIntros (Hn) "H". iDestruct (mac_handle_not_null with "H") as "[[%Hp %Hwf] H]".
  unfold libusbp_generic_handle_set_timeout, with_mac_timeout. wp_steps.
  wp_call (check_pipe_id_exact n x Hn). iIntros (e x1) "H'". unfold check_result.
  destruct (pipe_id_exists n); last first.
  { iDestruct (err_res_not_null with "H'") as "[%He H']". wp_steps. iFrame. }
  iDestruct "H'" as %[-> ->]. wp_steps. iApply (mac_handle_load with "H"). iIntros (pl) "Hi Hclose".
  iDestruct ("Hclose" with "Hi") as "H". destruct Hwf as (H1 & H2 & H3 & H4).
  pose proof (endpoint_number_range n) as Hr. unfold u8 in Hn. specialize (Hr ltac:(lia)).
  cbn [mac_handle_struct mgh_in_timeout mgh_out_timeout].
  rewrite pipe_id_direction // negb_involutive.
  destruct (is_in n); wp_steps; (iApply wp_endpoint_set; [lia|]);
    (iApply (wp_set_handle _ (MacHandle _ _ _ _ _ _) with "H");
      [done..|split_and!; cbn; rewrite ?length_insert; done|]); iIntros "H"; wp_steps; by iFrame.
Qed.

(** ** Transfers *)

Definition control_request (h : mac_handle) (bmRequestType bRequest wValue wIndex : Z) (buffer : ptr)
    (wLength : Z) : IOUSBDevRequestTO :=
  {| req_bmRequestType := bmRequestType; req_bRequest := bRequest; req_wValue := wValue;
     req_wIndex := wIndex; req_wLength := wLength; req_pData := buffer;
     req_completionTimeout := mac_timeout h 0 |}.

(** What is sent: the data of an OUT request. *)
Definition control_sent (r : IOUSBDevRequestTO) (cs : list (option ascii)) : list (option ascii) :=
  if Z.testbit (req_bmRequestType r) 7 then [] else sent_of (req_pData r) (req_wLength r) cs.

Definition s_control_request (id : Z) (r : IOUSBDevRequestTO) (cs : list (option ascii)) : Spec unit := λ h,
  s_io (mac_control h id r).1.1 tt (EvControlRequest id r (control_sent r cs))
    "Control transfer failed." h.

Lemma mac_control_transfer_spec p ioh h ty req value index buffer len given cs x :
  let r := control_request h ty req value index buffer len in
  let answer := mac_control (x_trace x) (mh_id h) r in
  u16 len → (is_null buffer = false → len ≤ Z.of_nat (List.length cs)) →
  {{ mac_handle_own p ioh h ∗ user_buffer buffer cs }}
    libusbp_control_transfer p ty req value index buffer len given @ x
  {{ res x', mac_handle_own p ioh h ∗
     user_buffer buffer (if Z.testbit ty 7 then overwrite answer.2 cs else cs) ∗
     ⟪res.2 = out given answer.1.2⟫ ∗
     returns (s_control_request (mh_id h) r cs) x x' res.1 (λ _, emp) emp }}.
Proof.
  iIntros (r answer Hlen Hcs) "[Hh Hb]". iDestruct (mac_handle_not_null with "Hh") as "[[%Hn %Hwf] Hh]".
  destruct Hwf as (H1 & H2 & H3 & H4). unfold libusbp_control_transfer. wp_steps.
  iApply (mac_handle_load with "Hh"). iIntros (pl) "Hi Hclose".
  cbn [mac_handle_struct mgh_out_timeout mgh_ioh]. wp_steps. iApply wp_endpoint_get; [lia|].
  change (default 0 (mh_out h !! Z.to_nat 0)) with (mac_timeout h 0). wp_steps.
  fold (control_request h ty req value index buffer len). fold r.
  unfold ControlRequestTO, log_mac. wp_steps.
  iApply (com_own_load as_usb_interface with "Hi"); [done|]. iIntros "Hi".
  iDestruct ("Hclose" with "Hi") as "Hh". wp_steps. fold answer.
  assert (Hd : Z.of_nat (List.length answer.2) ≤ len).
  { apply (mac_control_length (x_trace x) (mh_id h) r). unfold u16 in Hlen. cbn. lia. }
  assert (Hspec : s_control_request (mh_id h) r cs (x_trace x) =
    s_io answer.1.1 tt (EvControlRequest (mh_id h) r (control_sent r cs))
      "Control transfer failed." (x_trace x)) by done.
  destruct answer as [[kr done] data]. cbn [fst snd] in *. cbn [r control_request req_bmRequestType].
  unfold control_sent in Hspec. cbn [r control_request req_bmRequestType req_pData req_wLength] in Hspec.
  destruct (Z.testbit ty 7); wp_steps.
  - iApply (wp_copy_to_user with "Hb"). { intros Hb. specialize (Hcs Hb). lia. }
    iIntros "Hb". wp_steps.
    iApply (wp_mach_checked _ tt _ _ (s_control_request (mh_id h) r cs) x); [done|exact Hspec|].
    destruct (kr =? KERN_SUCCESS).
    + iIntros (Ha). wp_steps. iFrame. iSplit; [done|]. by iApply (returns_ok _ _ _ tt (λ _, emp)%I).
    + iIntros (e x' got [Hr Hf]) "He". wp_steps. iFrame. iSplit; [done|]. iRight. iExists got. by iFrame.
  - iApply (wp_copy_from_user with "Hb"); [done|]. iIntros "Hb". wp_steps.
    iApply (wp_mach_checked _ tt _ _ (s_control_request (mh_id h) r cs) x); [done|exact Hspec|].
    destruct (kr =? KERN_SUCCESS).
    + iIntros (Ha). wp_steps. iFrame. iSplit; [done|]. by iApply (returns_ok _ _ _ tt (λ _, emp)%I).
    + iIntros (e x' got [Hr Hf]) "He". wp_steps. iFrame. iSplit; [done|]. iRight. iExists got. by iFrame.
Qed.

(** Why a transfer is refused before the system is asked. *)
Definition read_guard (n size : Z) (null : bool) : option aerr :=
  if size =? 0 then Some (err_new "Transfer size 0 is not allowed.")
  else if UINT32_MAX <? size then Some (err_new "Transfer size is too large.")
  else if null then Some (err_new "Buffer is null.")
  else if is_in n && pipe_id_exists n then None else Some (invalid_pipe_id n).

Definition write_guard (n size : Z) (null : bool) : option aerr :=
  if UINT32_MAX <? size then Some (err_new "Transfer size is too large.")
  else if null && negb (size =? 0) then Some (err_new "Buffer is null.")
  else if negb (is_in n) && pipe_id_exists n then None else Some (invalid_pipe_id n).

Definition s_read_pipe (id pipe size timeout : Z) : Spec unit := λ h,
  s_io (mac_read_pipe h id pipe size timeout).1.1 tt (EvReadPipe id pipe size timeout) "" h.

Definition s_write_pipe (id pipe : Z) (sent : list (option ascii)) (timeout : Z) : Spec unit := λ h,
  s_io (mac_write_pipe h id pipe sent timeout) tt (EvWritePipe id pipe sent timeout) "" h.

Lemma mac_read_pipe_rejected p ioh h n buffer size given e x :
  u8 n → read_guard n size (is_null buffer) = Some e →
  {{ mac_handle_own p ioh h }} libusbp_read_pipe p n buffer size given @ x {{ r x',
    mac_handle_own p ioh h ∗ err_res r.1 (err_add e "Failed to read from pipe.") x x' ∗
    ⟪r.2 = out given 0⟫ }}.
Proof.
  iIntros (Hu He) "Hh". iDestruct (mac_handle_not_null with "Hh") as "[[%Hn _] Hh]".
  unfold libusbp_read_pipe, then_check, if_ok. unfold read_guard in He.
  destruct (size =? 0).
  { injection He as <-. err_chain. by iFrame. }
  destruct (UINT32_MAX <? size).
  { injection He as <-. err_chain. by iFrame. }
  destruct (is_null buffer).
  { injection He as <-. err_chain. by iFrame. }
  wp_steps. wp_call (check_pipe_id_in_exact n x Hu). iIntros (e1 x1) "H".
  destruct (is_in n && pipe_id_exists n); [done|]. injection He as <-. cbn [check_result].
  iDestruct (err_res_not_null with "H") as "[%He1 H]". err_chain. by iFrame.
Qed.

Lemma mac_write_pipe_rejected p ioh h n buffer size given e x :
  u8 n → write_guard n size (is_null buffer) = Some e →
  {{ mac_handle_own p ioh h }} libusbp_write_pipe p n buffer size given @ x {{ r x',
    mac_handle_own p ioh h ∗ err_res r.1 (err_add e "Failed to write to pipe.") x x' ∗
    ⟪r.2 = out given 0⟫ }}.
Proof.
  iIntros (Hu He) "Hh". iDestruct (mac_handle_not_null with "Hh") as "[[%Hn _] Hh]".
  unfold libusbp_write_pipe, then_check. unfold write_guard in He.
  destruct (UINT32_MAX <? size).
  { injection He as <-. err_chain. by iFrame. }
  destruct (is_null buffer && negb (size =? 0)).
  { injection He as <-. err_chain. by iFrame. }
  wp_steps. wp_call (check_pipe_id_out_exact n x Hu). iIntros (e1 x1) "H".
  destruct (negb (is_in n) && pipe_id_exists n); [done|]. injection He as <-. cbn [check_result].
  iDestruct (err_res_not_null with "H") as "[%He1 H]". err_chain. by iFrame.
Qed.

Lemma guard_size size : 0 ≤ size → (UINT32_MAX <? size) = false → to_u32 size = size.
Proof.
  intros ? H%Z.ltb_ge. unfold to_u32, wrap, UINT32_MAX in *. apply Z.mod_small. lia.
Qed.

Lemma mac_read_pipe_spec p ioh h n buffer size given cs x :
  let id := mh_id h in let pipe := pipe_index h n in let timeout := mac_timeout h n in
  let answer := mac_read_pipe (x_trace x) id pipe size timeout in
  u8 n → 0 ≤ size → read_guard n size (is_null buffer) = None → size ≤ Z.of_nat (List.length cs) →
  {{ mac_handle_own p ioh h ∗ user_buffer buffer cs }} libusbp_read_pipe p n buffer size given @ x
  {{ r x', mac_handle_own p ioh h ∗ user_buffer buffer (overwrite answer.2 cs) ∗
     ⟪r.2 = out given answer.1.2⟫ ∗
     returns (scontext "Failed to read from pipe." (s_read_pipe id pipe size timeout)) x x' r.1
       (λ _, emp) emp }}.
Proof.
  iIntros (id pipe timeout answer Hu Hsize Hg Hcs) "[Hh Hb]".
  iDestruct (mac_handle_not_null with "Hh") as "[[%Hn %Hwf] Hh]".
  destruct Hwf as (H1 & H2 & H3 & H4). unfold libusbp_read_pipe, then_check, if_ok.
  unfold read_guard in Hg. destruct (size =? 0); [done|].
  destruct (UINT32_MAX <? size) eqn:Hbig; [done|]. destruct (is_null buffer) eqn:Hbuf; [done|].
  destruct (is_in n && pipe_id_exists n) eqn:Hok; [|done]. wp_steps.
  wp_call (check_pipe_id_in_exact n x Hu). iIntros (e1 x1) "H". rewrite Hok. cbn [check_result].
  iDestruct "H" as %[-> ->]. apply andb_true_iff in Hok as [Hin _]. wp_simpl. wp_step. wp_step.
  iApply (mac_handle_load with "Hh"). iIntros (pl) "Hi Hclose".
  cbn [mac_handle_struct mgh_in_timeout mgh_in_pipe_index mgh_ioh]. pose proof Hu as Hu'. unfold u8 in Hu'.
  pose proof (endpoint_number_range n ltac:(lia)). wp_step. iApply wp_endpoint_get; [lia|].
  wp_step. iApply wp_endpoint_get; [lia|].
  rewrite (_ : default 0 (mh_in h !! _) = timeout); [|by unfold timeout, mac_timeout; rewrite Hin].
  rewrite (_ : default 0 (mh_in_index h !! _) = pipe); [|by unfold pipe, pipe_index; rewrite Hin].
  rewrite guard_size //. unfold ReadPipeTO, log_mac. wp_steps.
  iApply (com_own_load as_usb_interface with "Hi"); [done|]. iIntros "Hi".
  iDestruct ("Hclose" with "Hi") as "Hh". wp_steps. fold id. fold answer.
  pose proof (mac_read_length (x_trace x) id pipe size timeout Hsize) as Hd. fold answer in Hd.
  assert (Hspec : s_read_pipe id pipe size timeout (x_trace x) =
    s_io answer.1.1 tt (EvReadPipe id pipe size timeout) "" (x_trace x)) by done.
  destruct answer as [[kr k] data]. cbn [fst snd] in *. wp_steps.
  iApply (wp_copy_to_user with "Hb"); [lia|]. iIntros "Hb". wp_steps.
  iApply (wp_mach_checked _ tt _ _ (s_read_pipe id pipe size timeout) x); [done|exact Hspec|].
  destruct (kr =? KERN_SUCCESS).
  - iIntros (Ha). wp_steps. iFrame. iSplit; [done|]. iApply (returns_ok _ _ _ tt (λ _, emp)%I); [|done].
    by apply scontext_ok.
  - iIntros (r x' got [Hr Hf]) "He". wp_steps.
    iApply (wp_add_context (s_read_pipe id pipe size timeout) with "He"); [done|done|].
    iIntros (r2 x2 got' [Hr2 Hf2]) "He". wp_steps. iFrame. iSplit; [done|]. iRight. iExists got'. by iFrame.
Qed.

Lemma mac_write_pipe_spec p ioh h n buffer size given cs x :
  let id := mh_id h in let pipe := pipe_index h n in let timeout := mac_timeout h n in
  let sent := sent_of buffer size cs in
  u8 n → 0 ≤ size → write_guard n size (is_null buffer) = None →
  (is_null buffer = false → size ≤ Z.of_nat (List.length cs)) →
  {{ mac_handle_own p ioh h ∗ user_buffer buffer cs }} libusbp_write_pipe p n buffer size given @ x
  {{ r x', mac_handle_own p ioh h ∗ user_buffer buffer cs ∗
     returns (scontext "Failed to write to pipe." (s_write_pipe id pipe sent timeout)) x x' r.1
       (λ _, ⟪r.2 = out given size⟫) ⟪r.2 = out given 0⟫ }}.
Proof.
  iIntros (id pipe timeout sent Hu Hsize Hg Hcs) "[Hh Hb]".
  iDestruct (mac_handle_not_null with "Hh") as "[[%Hn %Hwf] Hh]".
  destruct Hwf as (H1 & H2 & H3 & H4). unfold libusbp_write_pipe, then_check.
  unfold write_guard in Hg. destruct (UINT32_MAX <? size) eqn:Hbig; [done|].
  destruct (is_null buffer && negb (size =? 0)); [done|].
  destruct (negb (is_in n) && pipe_id_exists n) eqn:Hok; [|done]. wp_steps.
  wp_call (check_pipe_id_out_exact n x Hu). iIntros (e1 x1) "H". rewrite Hok. cbn [check_result].
  iDestruct "H" as %[-> ->]. apply andb_true_iff in Hok as [Hin%negb_true_iff _]. wp_simpl. wp_step. wp_step.
  iApply (mac_handle_load with "Hh"). iIntros (pl) "Hi Hclose".
  cbn [mac_handle_struct mgh_out_timeout mgh_out_pipe_index mgh_ioh]. pose proof Hu as Hu'. unfold u8 in Hu'.
  pose proof (endpoint_number_range n ltac:(lia)). wp_step. iApply wp_endpoint_get; [lia|].
  wp_step. iApply wp_endpoint_get; [lia|].
  rewrite (_ : default 0 (mh_out h !! _) = timeout); [|by unfold timeout, mac_timeout; rewrite Hin].
  rewrite (_ : default 0 (mh_out_index h !! _) = pipe); [|by unfold pipe, pipe_index; rewrite Hin].
  rewrite guard_size //. unfold WritePipeTO, log_mac. wp_steps.
  iApply (com_own_load as_usb_interface with "Hi"); [done|]. iIntros "Hi".
  iDestruct ("Hclose" with "Hi") as "Hh". wp_steps.
  iApply (wp_copy_from_user with "Hb"); [done|]. iIntros "Hb". wp_steps. fold id. fold sent.
  iApply (wp_mach_checked _ tt _ _ (s_write_pipe id pipe sent timeout) x); [done|done|].
  destruct (mac_write_pipe _ _ _ _ _ =? KERN_SUCCESS).
  - iIntros (Ha). wp_steps. iFrame. iApply (returns_ok _ _ _ tt); [|done]. by apply scontext_ok.
  - iIntros (r x' got [Hr Hf]) "He". wp_steps.
    iApply (wp_add_context (s_write_pipe id pipe sent timeout) with "He"); [done|done|].
    iIntros (r2 x2 got' [Hr2 Hf2]) "He". wp_steps. iFrame. iRight. iExists got'. by iFrame.
Qed.

(** ** Getters *)

Lemma mac_get_ioh_spec p ioh h x :
  {{ mac_handle_own p ioh h }} generic_handle_get_ioh p @ x {{ r x',
    ⟪r = ioh ∧ x' = x⟫ ∗ mac_handle_own p ioh h }}.
Proof.
  iIntros "Hh". iDestruct (mac_handle_not_null with "Hh") as "[[%Hn %Hwf] Hh]".
  unfold generic_handle_get_ioh. wp_steps. iApply (mac_handle_load with "Hh").
  iIntros (pl) "Hi Hclose". iDestruct ("Hclose" with "Hi") as "Hh". wp_steps. by iFrame.
Qed.

Lemma mac_get_pipe_index_spec p ioh h n x :
  u8 n →
  {{ mac_handle_own p ioh h }} generic_handle_get_pipe_index p n @ x {{ r x',
    ⟪r = pipe_index h n ∧ x' = x⟫ ∗ mac_handle_own p ioh h }}.
Proof.
  iIntros (Hu) "Hh". iDestruct (mac_handle_not_null with "Hh") as "[[%Hn %Hwf] Hh]".
  destruct Hwf as (H1 & H2 & H3 & H4). unfold generic_handle_get_pipe_index, pipe_index. wp_steps.
  iApply (mac_handle_load with "Hh"). iIntros (pl) "Hi Hclose". iDestruct ("Hclose" with "Hi") as "Hh".
  cbn [mac_handle_struct mgh_in_pipe_index mgh_out_pipe_index].
  rewrite pipe_id_direction // negb_involutive. unfold u8 in Hu.
  pose proof (endpoint_number_range n ltac:(lia)).
  destruct (is_in n); (iApply wp_endpoint_get; [lia|]); by iFrame.
Qed.
End specs.

(** ** Properties *)

Section properties.
Context `{OS : MacOS} {LAWS : MacLaws OS}.

(** The properties of the pipes [i], [i + 1], ... *)
Fixpoint s_pipe_list (id i : Z) (n : nat) : Spec (list pipe_properties) :=
  match n with
  | O => mret []
  | S n => p ← s_pipe_properties id i; ps ← s_pipe_list id (i + 1) n; mret (p :: ps)
  end.

Definition s_pipe_infos (id : Z) : Spec (list pipe_properties) :=
  n ← s_num_endpoints id; s_pipe_list id 1 (Z.to_nat n).

(** What opening a handle asks the system: the entry of the interface, its pipes and
    its port.  The interface is closed again when a step fails after it was
    opened. *)
Definition s_open_pipes (i : mac_interface) : Spec (Z * list pipe_properties * Z) :=
  id ← s_interface_service i;
  s_to_interface id InterfaceKind;;
  s_on_failure (EvInterfaceClose id)
    (s_interface_open id;;
     ps ← s_pipe_infos id;
     port ← s_async_port id;
     mret (id, ps, port)).

(** The pipe serves the endpoint with the address [pipe_id]. *)
Definition serves (pipe_id : Z) (p : pipe_properties) : Prop :=
  pp_endpoint_number p = Z.land pipe_id MAX_ENDPOINT_NUMBER ∧
  negb (pp_direction p =? 0) = is_in pipe_id.

#[export] Instance serves_dec pipe_id p : Decision (serves pipe_id p).
Proof. unfold serves. apply _. Defined.

(** The number of the last pipe that serves an endpoint; pipes count from 1, and 0
    says that there is none. *)
Definition pipe_number (ps : list pipe_properties) (pipe_id : Z) : Z :=
  match list_find (serves pipe_id) (reverse ps) with
  | Some (k, _) => Z.of_nat (List.length ps) - Z.of_nat k
  | None => 0
  end.

Lemma pipe_number_snoc ps p n :
  pipe_number (ps ++ [p]) n = if decide (serves n p) then Z.of_nat (List.length ps) + 1 else pipe_number ps n.
Proof.
  unfold pipe_number. rewrite reverse_snoc length_app. cbn [list_find List.length].
  destruct (decide (serves n p)); [lia|].
  destruct (list_find _ (reverse ps)) as [[k q]|]; cbn; [lia|done].
Qed.

(** The tables hold the numbers of the pipes [ps]. *)
Definition numbers (ps : list pipe_properties) (t : list Z * list Z) : Prop :=
  List.length t.1 = 16%nat ∧ List.length t.2 = 16%nat ∧
  ∀ n, u8 n → default 0 ((if is_in n then t.2 else t.1) !! Z.to_nat (Z.land n MAX_ENDPOINT_NUMBER))
              = pipe_number ps n.

Lemma numbers_record ps t p :
  u8 (pp_endpoint_number p) → (List.length ps < 255)%nat → numbers ps t →
  numbers (ps ++ [p]) (record_pipe t (Z.of_nat (List.length ps) + 1) p).
Proof.
  intros Hp Hlen (H1 & H2 & H). unfold numbers. unfold u8 in Hp.
  destruct (record_pipe_lengths t (Z.of_nat (List.length ps) + 1) p) as [-> ->].
  split_and!; [done..|]. intros n Hn. specialize (H n Hn). rewrite pipe_number_snoc -H.
  pose proof (endpoint_number_range n ltac:(unfold u8 in Hn; lia)) as Hr.
  unfold record_pipe. set (k := Z.of_nat (List.length ps) + 1) in *.
  rewrite (_ : to_u8 k = k); [|unfold to_u8, wrap; apply Z.mod_small; lia].
  destruct (decide (serves n p)) as [[E Ed]|Hs].
  - rewrite E Ed. destruct (Z.leb_spec (Z.land n MAX_ENDPOINT_NUMBER) MAX_ENDPOINT_NUMBER);
      [|unfold MAX_ENDPOINT_NUMBER in *; lia].
    destruct (is_in n); cbn [fst snd]; (rewrite list_lookup_insert_eq; [done|unfold MAX_ENDPOINT_NUMBER in *; lia]).
  - unfold serves in Hs. destruct (pp_endpoint_number p <=? MAX_ENDPOINT_NUMBER); [|done].
    destruct (pp_direction p =? 0), (is_in n); cbn [negb fst snd] in *; try done;
      rewrite list_lookup_insert_ne //; naive_solver lia.
Qed.

Lemma refines_pipes id i n t ps :
  numbers ps t → i = Z.of_nat (List.length ps) + 1 → (List.length ps + n ≤ 255)%nat →
  refines (λ t' qs, numbers (ps ++ qs) t') (s_pipes id i n t) (s_pipe_list id i n).
Proof.
  revert i t ps. induction n as [|n IH]; intros i t ps Ht -> Hn; cbn [s_pipes s_pipe_list].
  { apply refines_ret. by rewrite app_nil_r. }
  apply (refines_bind (λ p q, p = q ∧ u8 (pp_endpoint_number p))).
  { apply refines_same. intros h p h' H. unfold s_pipe_properties in H.
    apply s_io_inv in H as [-> _]. apply pipe_properties_u8. }
  intros p _ [<- Hp]. eapply refines_map_r.
  - apply (IH _ _ (ps ++ [p])); rewrite ?length_app; cbn; [apply numbers_record; [done|lia|done]|lia|lia].
  - intros t' qs Hq. by rewrite -app_assoc in Hq.
Qed.

Lemma numbers_zeros : numbers [] (zeros, zeros).
Proof.
  split_and!; [done..|]. intros n Hn. cbn [fst snd].
  rewrite (_ : (if is_in n then zeros else zeros) = zeros); [|by destruct (is_in n)].
  unfold zeros. destruct (replicate 16 0 !! _) as [z|] eqn:E; [|done].
  by apply lookup_replicate in E as [-> _].
Qed.

Lemma refines_pipe_tables id :
  refines (λ t ps, numbers ps t) (s_pipe_tables id (zeros, zeros)) (s_pipe_infos id).
Proof.
  apply (refines_bind (λ m n, m = n ∧ u8 m)).
  { apply refines_same. intros h n h' H. unfold s_num_endpoints in H.
    apply s_io_inv in H as [-> _]. apply num_endpoints_u8. }
  intros n _ [<- Hn]. apply (refines_pipes id 1 _ _ []); [apply numbers_zeros|done|].
  unfold u8 in Hn. cbn. lia.
Qed.

(** The handle that was opened, and what was learnt while opening it. *)
Definition handle_of (h : mac_handle) (o : Z * list pipe_properties * Z) : Prop :=
  ∃ ps, o = (mh_id h, ps, mh_port h) ∧ numbers ps (indexes h) ∧ mh_out h = zeros ∧ mh_in h = zeros.

Lemma refines_on_failure {A B} (R : A → B → Prop) ev s t :
  refines R s t → refines R (s_on_failure ev s) (s_on_failure ev t).
Proof.
  intros H h. unfold s_on_failure. specialize (H h). destruct (s h) as [[e|a] h'].
  - by rewrite H.
  - destruct H as (b & -> & H). by exists b.
Qed.

Lemma refines_open i : refines handle_of (s_handle_open i) (s_open_pipes i).
Proof.
  unfold s_handle_open, s_open_pipes, s_handle_setup.
  apply (refines_bind eq); [apply refines_refl|]. intros id _ <-.
  apply (refines_bind eq); [apply refines_refl|]. intros _ _ _.
  apply refines_on_failure.
  apply (refines_bind eq); [apply refines_refl|]. intros _ _ _.
  eapply refines_bind; [apply refines_pipe_tables|]. intros t ps Ht.
  apply (refines_bind eq); [apply refines_refl|]. intros port _ <-.
  apply refines_ret. exists ps. by rewrite /= /indexes /= -surjective_pairing.
Qed.

(** C15. On macOS, opening a handle numbers the pipes: for every endpoint address, the
    translation of the handle gives the number of the last pipe of the interface
    with that endpoint number and direction, and 0 when there is none, so pipes
    with an endpoint number over 15 are never used; all timeouts start at 0.
    Opening asks the system exactly for the entry of the interface, its plug-in, its
    pipes and its port, in this order, and stops at the first failure; an interface that
    was opened is closed again in that case, and by [libusbp_generic_handle_close].
    Either way everything that was acquired is released. *)
Theorem mac_generic_handle_open_numbers_pipes p i n x :
  u8 n →
  {{ mac_interface_own p i }}
    ('(error, handle) ← libusbp_generic_handle_open p true;
     if is_null error then
       handle ← initialised handle;
       h ← load_as as_handle_mac handle;
       index ← generic_handle_get_pipe_index handle n;
       libusbp_generic_handle_close handle;;
       mret (Some (index, mgh_out_timeout h ++ mgh_in_timeout h))
     else libusbp_error_free error;; mret None) @ x
  {{ r x', mac_interface_own p i ∗ ⟪calm x x' ∧
     match r with
     | Some (index, timeouts) => ∃ id ps port h,
         s_open_pipes i (x_trace x) = (inr (id, ps, port), h) ∧
         index = pipe_number ps n ∧ timeouts = replicate 32 0 ∧
         x_trace x' = EvMac (EvInterfaceClose id) :: h
     | None => (∃ e, s_open_pipes i (x_trace x) = (inl e, x_trace x')) ∨ oomed x x'
     end⟫ }}.
Proof.
  iIntros (Hn) "Hp". wp_step. wp_call (mac_handle_open_spec p i x). iIntros ([e o] x1) "[Hp H]".
  pose proof (refines_open i (x_trace x)) as Hr. returned "H".
  - iDestruct "Hok" as (q ioh) "[-> Hh]". unfold initialised. wp_steps.
    destruct Ha as [Hc Ha]. rewrite Ha in Hr. destruct Hr as (b & Hs & ps & -> & (H1 & H2 & Hps) & Ho & Hi).
    iApply (mac_handle_load with "Hh"). iIntros (pl) "Hio Hclose". iDestruct ("Hclose" with "Hio") as "Hh".
    wp_steps. wp_call (mac_get_pipe_index_spec q ioh a n x1 Hn). iIntros (? ?) "[%H Hh]".
    destruct H as [-> ->]. wp_steps. wp_call (mac_handle_close_spec q ioh a x1). iIntros ([] ?) "->".
    wp_steps. iFrame "Hp". iPureIntro. split; [etrans; [exact Hc|apply calm_mac]|].
    exists (mh_id a), ps, (mh_port a), (x_trace x1). split_and!; [done|by apply (Hps n)| |done].
    cbn. by rewrite Ho Hi.
  - wp_step. wp_call (libusbp_error_free_spec e (Some got) x1). iIntros ([] ?) "->". wp_steps. iFrame "Hp".
    iPureIntro. destruct Hfailed as [Hc [Ha|[_ Ho]]]; (split; [done|]); [left|by right].
    rewrite Ha in Hr. by exists got.
Qed.

(** C29. On macOS a read works on the pipe that the handle translates its
    endpoint address to, with the timeout that was set last for this address.
    After [libusbp_generic_handle_set_timeout], [libusbp_read_pipe] asks
    IOKit once to read exactly [size] bytes from that pipe with that timeout, the
    data that is returned is the start of the buffer and nothing else changes there,
    the length that IOKit reports is stored even when the read fails, and the
    error is IOKit's, with the context "Failed to read from pipe.". *)
Theorem mac_read_pipe_reads p ioh h n t buffer size cs x :
  let id := mh_id h in let pipe := pipe_index h n in
  let answer := mac_read_pipe (x_trace x) id pipe size t in
  u8 n → is_in n = true → pipe_id_exists n = true → 0 < size ≤ UINT32_MAX →
  is_null buffer = false → size ≤ Z.of_nat (List.length cs) →
  {{ mac_handle_own p ioh h ∗ user_buffer buffer cs }}
    (error ← libusbp_generic_handle_set_timeout p n t;
     results ← libusbp_read_pipe p n buffer size true;
     mret (error, results)) @ x
  {{ r x', mac_handle_own p ioh (with_mac_timeout h n t) ∗
     user_buffer buffer (overwrite answer.2 cs) ∗
     ⟪Z.of_nat (List.length answer.2) ≤ size ∧ r.1 = NULL ∧ r.2.2 = Some answer.1.2 ∧ calm x x'⟫ ∗
     (⟪r.2.1 = NULL ∧ answer.1.1 = KERN_SUCCESS ∧
       x_trace x' = EvMac (EvReadPipe id pipe size t) :: x_trace x⟫ ∨
      ∃ a, err_own r.2.1 a ∗
       ⟪(answer.1.1 ≠ KERN_SUCCESS ∧ a = err_add (mach_error answer.1.1 "") "Failed to read from pipe." ∧
          x_trace x' = EvMac (EvReadPipe id pipe size t) :: x_trace x) ∨
         (mem_err a ∧ oomed x x')⟫) }}.
Proof.
  iIntros (id pipe answer Hn Hin Hex Hsize Hbuf Hcs) "[Hh Hb]".
  iDestruct (mac_handle_not_null with "Hh") as "[[%Hp %Hwf] Hh]". destruct Hwf as (_ & Hlen & _ & _).
  wp_step. wp_call (mac_set_timeout_spec p ioh h n t x Hn). iIntros (e x1) "H". rewrite Hex.
  iDestruct "H" as "[%H Hh]". destruct H as [-> ->].
  assert (Hnum := endpoint_number_range n ltac:(unfold u8 in Hn; lia)).
  assert (Ht : mac_timeout (with_mac_timeout h n t) n = t).
  { unfold mac_timeout, with_mac_timeout. rewrite Hin. cbn [mh_in].
    rewrite list_lookup_insert_eq; [done|]. lia. }
  assert (Hi : pipe_index (with_mac_timeout h n t) n = pipe).
  { unfold pipe, pipe_index, with_mac_timeout. by rewrite Hin. }
  assert (Hid : mh_id (with_mac_timeout h n t) = id).
  { unfold with_mac_timeout. by destruct (is_in n). }
  assert (Hg : read_guard n size (is_null buffer) = None).
  { unfold read_guard. rewrite Hbuf Hin Hex. destruct (Z.eqb_spec size 0); [lia|].
    destruct (Z.ltb_spec UINT32_MAX size); [lia|done]. }
  pose proof (mac_read_pipe_spec p ioh (with_mac_timeout h n t) n buffer size true cs x Hn
    ltac:(lia) Hg Hcs) as Hspec. cbv zeta in Hspec. rewrite Ht Hi Hid in Hspec.
  wp_step. wp_call Hspec. iIntros (r x1) "(Hh & Hb & %Hout & H)". wp_steps. iFrame "Hh Hb".
  fold answer in Hout |- *.
  assert (Hl : Z.of_nat (List.length answer.2) ≤ size) by (apply mac_read_length; lia).
  assert (Hs : scontext "Failed to read from pipe." (s_read_pipe id pipe size t) (x_trace x) =
    (if answer.1.1 =? KERN_SUCCESS then inr tt
     else inl (err_add (mach_error answer.1.1 "") "Failed to read from pipe."),
     EvMac (EvReadPipe id pipe size t) :: x_trace x)).
  { unfold scontext, s_read_pipe, s_io. fold answer. by destruct (answer.1.1 =? KERN_SUCCESS). }
  iDestruct "H" as "[(%u & %H & _)|(%a & %H & He & _)]".
  - destruct H as (Hr & Hc & E). iSplit; [done|]. iLeft. iPureIntro. rewrite Hs in E.
    destruct (Z.eqb_spec answer.1.1 KERN_SUCCESS); [|done]. by injection E as _ <-.
  - destruct H as (Hc & E). iSplit; [done|]. iRight. iExists a. iFrame "He". iPureIntro.
    destruct E as [E|E]; [left|by right]. rewrite Hs in E.
    destruct (Z.eqb_spec answer.1.1 KERN_SUCCESS); [done|]. by injection E as <- <-.
Qed.
End properties.

(** ** On the example machine *)

#[local] Existing Instance Example_mac.machine.
#[local] Existing Instance Example_mac.machine_laws.

Definition example_mac_ext : ext := Ext [] 0 0.
Definition example_mac_ptr : ptr := Heap 5%positive.

(** The first interface of a composite device. *)
Definition example_mac_interface : mac_interface :=
  MacInterface Example_mac.composite_device 0 (Some Example_mac.first_interface).

Lemma mac_generic_handle_open_numbers_pipes_witness :
  (∃ ps h, s_open_pipes example_mac_interface [] = (inr (Example_mac.first_interface, ps, 77), h) ∧
     pipe_number ps 0x82 = 1 ∧ pipe_number ps 0x02 = 2 ∧ pipe_number ps 0x83 = 3 ∧
     pipe_number ps 0x84 = 0) ∧
  {{ mac_interface_own example_mac_ptr example_mac_interface }}
    ('(error, handle) ← libusbp_generic_handle_open example_mac_ptr true;
     if is_null error then
       handle ← initialised handle;
       h ← load_as as_handle_mac handle;
       index ← generic_handle_get_pipe_index handle 0x83;
       libusbp_generic_handle_close handle;;
       mret (Some (index, mgh_out_timeout h ++ mgh_in_timeout h))
     else libusbp_error_free error;; mret None) @ example_mac_ext
  {{ r x', mac_interface_own example_mac_ptr example_mac_interface ∗ ⟪calm example_mac_ext x' ∧
     match r with
     | Some (index, timeouts) => ∃ id ps port h,
         s_open_pipes example_mac_interface (x_trace example_mac_ext) = (inr (id, ps, port), h) ∧
         index = pipe_number ps 0x83 ∧ timeouts = replicate 32 0 ∧
         x_trace x' = EvMac (EvInterfaceClose id) :: h
     | None => (∃ e, s_open_pipes example_mac_interface (x_trace example_mac_ext) = (inl e, x_trace x'))
               ∨ oomed example_mac_ext x'
     end⟫ }}.
Proof.
  split.
  - eexists _, _. split; [vm_compute; reflexivity|by vm_compute].
  - apply (mac_generic_handle_open_numbers_pipes example_mac_ptr example_mac_interface 0x83 example_mac_ext).
    unfold u8. lia.
Defined.

Definition example_mac_handle : mac_handle :=
  MacHandle Example_mac.first_interface 77 zeros zeros (<[2%nat := 2]> zeros)
    (<[3%nat := 3]> (<[2%nat := 1]> zeros)).

Definition example_mac_ioh : ptr := Heap 6%positive.

Lemma mac_read_pipe_reads_witness :
  let cs := replicate 6 (Some "-"%char) in
  let h := example_mac_handle in let buffer := Heap 9%positive in
  let answer := mac_read_pipe [] Example_mac.first_interface 3 4 500 in
  overwrite answer.2 cs = Some <$> ["o"; "k"; "-"; "-"; "-"; "-"]%char ∧
  {{ mac_handle_own example_mac_ptr example_mac_ioh h ∗ user_buffer buffer cs }}
    (error ← libusbp_generic_handle_set_timeout example_mac_ptr 0x83 500;
     results ← libusbp_read_pipe example_mac_ptr 0x83 buffer 4 true;
     mret (error, results)) @ example_mac_ext
  {{ r x', mac_handle_own example_mac_ptr example_mac_ioh (with_mac_timeout h 0x83 500) ∗
     user_buffer buffer (overwrite answer.2 cs) ∗
     ⟪Z.of_nat (List.length answer.2) ≤ 4 ∧ r.1 = NULL ∧ r.2.2 = Some answer.1.2 ∧
       calm example_mac_ext x'⟫ ∗
     (⟪r.2.1 = NULL ∧ answer.1.1 = KERN_SUCCESS ∧
       x_trace x' = EvMac (EvReadPipe Example_mac.first_interface 3 4 500) :: []⟫ ∨
      ∃ a, err_own r.2.1 a ∗
       ⟪(answer.1.1 ≠ KERN_SUCCESS ∧ a = err_add (mach_error answer.1.1 "") "Failed to read from pipe." ∧
          x_trace x' = EvMac (EvReadPipe Example_mac.first_interface 3 4 500) :: []) ∨
         (mem_err a ∧ oomed example_mac_ext x')⟫) }}.
Proof.
  intros cs h buffer answer. split; [done|].
  apply (mac_read_pipe_reads example_mac_ptr example_mac_ioh h 0x83 500 buffer 4 cs example_mac_ext);
    first [done | unfold u8; lia | unfold UINT32_MAX; lia | cbn; lia].
Defined.
