(* ===== verification/TransferMac.v ===== *)
(** * TransferMac: asynchronous IN transfers on macOS (src/src/mac/async_in_transfer_mac.c)

    An [async_in_transfer] is an asynchronous read of a pipe.  The system owns it
    from the submission until the message on the handle's port that completes it
    has been dispatched to the callback; meanwhile it may write to its memory, so
    it must not be freed.  The event loop of src/src/mac/generic_handle_mac.c, which
    receives and dispatches the messages, is here too. *)

From S2P Require Import Prelude Memory Logic Format Errors Results Basics Strings Buffers Pool MacOS ErrorMac IokitMac DeviceMac InterfaceMac HandleMac.
#[local] Set Warnings "-rewrite-rw".

Section code.
Context `{OS : MacOS}.

Definition async_in_pipe_setup (gh : ptr) (pipe_id : Z) : M ptr := mret NULL.

(** A struct from [calloc]. *)
Definition zeroed_transfer : async_in_transfer_mac :=
  {| mat_ioh := NULL; mat_pipe_index := 0; mat_buffer := NULL; mat_size := 0;
     mat_pending := false; mat_transferred := 0; mat_error := NULL |}.

(** Assignments to the fields of a transfer. *)
Definition set_memory (size : Z) (buffer : ptr) (t : async_in_transfer_mac) : async_in_transfer_mac :=
  {| mat_ioh := mat_ioh t; mat_pipe_index := mat_pipe_index t; mat_buffer := buffer; mat_size := size;
     mat_pending := mat_pending t; mat_transferred := mat_transferred t; mat_error := mat_error t |}.
Definition set_pipe (ioh : ptr) (index : Z) (t : async_in_transfer_mac) : async_in_transfer_mac :=
  {| mat_ioh := ioh; mat_pipe_index := index; mat_buffer := mat_buffer t; mat_size := mat_size t;
     mat_pending := mat_pending t; mat_transferred := mat_transferred t; mat_error := mat_error t |}.
Definition set_state (pending : bool) (transferred : Z) (error : ptr) (t : async_in_transfer_mac) :
    async_in_transfer_mac :=
  {| mat_ioh := mat_ioh t; mat_pipe_index := mat_pipe_index t; mat_buffer := mat_buffer t;
     mat_size := mat_size t; mat_pending := pending; mat_transferred := transferred;
     mat_error := error |}.

Definition set_transfer (transfer : ptr) (f : async_in_transfer_mac → async_in_transfer_mac) : M unit :=
  t ← load_as as_transfer_mac transfer;
  store transfer (OMacTransfer (f t)).

Definition async_in_transfer_callback (context : ptr) (kr arg0 : Z) : M unit :=
  c_assert (negb (is_null context));;
  t ← load_as as_transfer_mac context;
  c_assert (mat_pending t);;
  c_assert (is_null (mat_error t));;
  c_assert (mat_transferred t =? 0);;
  error ← mach_check kr "Asynchronous IN transfer failed.";
  set_transfer context (set_state false (to_size arg0) error).

Definition async_in_transfer_free (transfer : ptr) : M unit :=
  if is_null transfer then mret tt else
  t ← load_as as_transfer_mac transfer;
  (* The kernel needs to be able to write to a pending transfer: leak it. *)
  if mat_pending t then mret tt else
  libusbp_error_free (mat_error t);;
  free (mat_buffer t);;
  free transfer.

(** The error and, when it was stored, the value of [*transfer]. *)
Definition async_in_transfer_create (handle : ptr) (pipe_id transfer_size : Z) :
    M (ptr * option ptr) :=
  c_assert (negb (is_null handle));;
  if UINT32_MAX <? transfer_size then
    error ← error_create "Transfer size is too large.";
    mret (error, None)
  else
  (* Allocate memory for the transfer struct. *)
  new_transfer ← calloc 1 sizeof_async_in_transfer_mac (OMacTransfer zeroed_transfer);
  let error := if is_null new_transfer then Static error_no_memory else NULL in
  (* Allocate memory for the buffer. *)
  error ← then_check error
    (buffer ← malloc_chars transfer_size;
     set_transfer new_transfer (set_memory (to_u32 transfer_size) buffer);;
     mret (if is_null buffer then Static error_no_memory else NULL));
  (* Get needed information from the generic handle. *)
  when (is_null error)
    (ioh ← generic_handle_get_ioh handle;
     index ← generic_handle_get_pipe_index handle pipe_id;
     set_transfer new_transfer (set_pipe ioh index));;
  (* Pass the transfer to the caller. *)
  let '(transfer, new_transfer) :=
    if is_null error then (Some new_transfer, NULL) else (None, new_transfer) in
  async_in_transfer_free new_transfer;;
  mret (error, transfer).

Definition async_in_transfer_submit (transfer : ptr) : M unit :=
  c_assert (negb (is_null transfer));;
  t ← load_as as_transfer_mac transfer;
  c_assert (negb (mat_pending t));;
  libusbp_error_free (mat_error t);;
  set_transfer transfer (set_state true 0 NULL);;
  kr ← ReadPipeAsync (mat_ioh t) (mat_pipe_index t) (mat_buffer t) (mat_size t) transfer;
  when (negb (kr =? KERN_SUCCESS))
    (error ← error_create_mach kr "Failed to submit asynchronous read transfer.";
     set_transfer transfer (set_state false 0 error)).

(** The error and what is stored in [*transferred] and [*transfer_error]. *)
Definition async_in_transfer_get_results (transfer buffer : ptr)
    (transferred_given transfer_error_given : bool) : M (ptr * option Z * option ptr) :=
  c_assert (negb (is_null transfer));;
  t ← load_as as_transfer_mac transfer;
  c_assert (negb (mat_pending t));;
  (* Make sure we don't overflow the user's buffer. *)
  tmp_transferred ← (if mat_size t <? mat_transferred t then c_assert false;; mret (mat_size t)
                     else mret (mat_transferred t));
  when (negb (is_null buffer)) (memcpy_chars buffer (mat_buffer t) tmp_transferred);;
  transfer_error ←
    (if transfer_error_given : bool then
       e ← libusbp_error_copy (mat_error t);
       mret (Some e)
     else mret None);
  mret (NULL, out transferred_given tmp_transferred, transfer_error).

(** This cancels all the transfers of the pipe. *)
Definition async_in_transfer_cancel (transfer : ptr) : M ptr :=
  if is_null transfer then mret NULL else
  t ← load_as as_transfer_mac transfer;
  kr ← AbortPipe (mat_ioh t) (mat_pipe_index t);
  mach_check kr "Failed to cancel transfers.".

Definition async_in_transfer_pending (transfer : ptr) : M bool :=
  c_assert (negb (is_null transfer));;
  t ← load_as as_transfer_mac transfer;
  mret (mat_pending t).

(** ** The event loop of a handle *)

(** [sizeof(our_msg)]: the header and 1024 bytes. *)
Definition sizeof_our_msg : Z := 1048.

(** The message names the callback and its arguments. *)
Definition IODispatchCalloutFromMessage (m : mac_message) : M unit :=
  async_in_transfer_callback (Heap (m_transfer m)) (m_kr m) (m_arg0 m).

(** The error for a [mach_msg] that did not receive a message. *)
Definition receive_failed (mr size : Z) : M ptr :=
  if mr =? MACH_RCV_TIMED_OUT then mret NULL
  else if mr =? MACH_RCV_TOO_LARGE then
    error_create ("Mach message received was too large: " +:+ fmt_d (to_int size) +:+ " > " +:+
                  fmt_d sizeof_our_msg +:+ newline)
  else error_create_mach mr "Failed to receive mach message.".

(** [while(1)], with fuel. *)
Fixpoint generic_handle_events_loop (fuel : nat) (handle : ptr) : M ptr :=
  match fuel with
  | O => stuck OutOfFuel
  | S fuel =>
      h ← load_as as_handle_mac handle;
      r ← mach_msg (mgh_async_port h);
      match r with
      | inr (mr, size) => receive_failed mr size
      | inl m =>
          IODispatchCalloutFromMessage m;;
          generic_handle_events_loop fuel handle
      end
  end.

(** Every message completes one outstanding transfer, so one more round than there
    are outstanding transfers is enough. *)
Definition generic_handle_events (handle : ptr) : M ptr :=
  c_assert (negb (is_null handle));;
  h ← load_as as_handle_mac handle;
  trace ← get_trace;
  generic_handle_events_loop (S (size (outstanding trace (mgh_async_port h)))) handle.
End code.

(** ** What a transfer holds *)

Record mac_transfer := MacTransfer {
  mt_ioh : ptr;
  mt_pipe : Z;
  mt_size : Z;
  mt_contents : list (option ascii);
  mt_pending : bool;
  mt_transferred : Z;
  mt_error : option aerr
}.

Definition mac_transfer_struct (lb : loc) (pe : ptr) (t : mac_transfer) : async_in_transfer_mac :=
  {| mat_ioh := mt_ioh t; mat_pipe_index := mt_pipe t; mat_buffer := Heap lb; mat_size := mt_size t;
     mat_pending := mt_pending t; mat_transferred := mt_transferred t; mat_error := pe |}.

(** A pending transfer has no error and no length; a length never exceeds the
    buffer. *)
Definition mac_transfer_wf (t : mac_transfer) : Prop :=
  0 < mt_size t ≤ UINT32_MAX ∧ Z.of_nat (List.length (mt_contents t)) = mt_size t ∧
  0 ≤ mt_transferred t ≤ mt_size t ∧
  (mt_pending t = true → mt_error t = None ∧ mt_transferred t = 0).

Definition mac_transfer_own (l : loc) (t : mac_transfer) : hProp :=
  (∃ lb pe, ⟪mac_transfer_wf t⟫ ∗ l ↦ OMacTransfer (mac_transfer_struct lb pe t) ∗
     lb ↦ OChars (mt_contents t) ∗ opt_err pe (mt_error t))%I.

Lemma mac_transfer_own_wf l t : mac_transfer_own l t ⊢ ⌜mac_transfer_wf t⌝ ∧ mac_transfer_own l t.
Proof. iIntros "H". iSplit; [|done]. by iDestruct "H" as (lb pe) "[% _]". Qed.

Lemma mac_transfer_exclusive l t t' : mac_transfer_own l t -∗ mac_transfer_own l t' -∗ False.
Proof.
  iIntros "(%lb & %pe & _ & Hl & _) (%lb' & %pe' & _ & Hl' & _)".
  iApply (pt_exclusive with "Hl Hl'").
Qed.

Definition received_bytes (t : mac_transfer) : list (option ascii) :=
  take (Z.to_nat (mt_transferred t)) (mt_contents t).

Lemma length_received_bytes t :
  mac_transfer_wf t → Z.of_nat (List.length (received_bytes t)) = mt_transferred t.
Proof. intros (_ & Hl & Ht & _). unfold received_bytes. rewrite length_take. lia. Qed.

Definition with_state (t : mac_transfer) (pending : bool) (transferred : Z) (error : option aerr) :
    mac_transfer :=
  MacTransfer (mt_ioh t) (mt_pipe t) (mt_size t) (mt_contents t) pending transferred error.

Lemma with_state_wf t b n e :
  mac_transfer_wf t → 0 ≤ n ≤ mt_size t → (b = true → e = None ∧ n = 0) →
  mac_transfer_wf (with_state t b n e).
Proof. unfold mac_transfer_wf. cbn. naive_solver. Qed.

(** ** Operations on one transfer *)

Section specs.
Context `{OS : MacOS} {LAWS : MacLaws OS}.

Lemma wp_set_state l lb pe t b n e oe x Q :
  l ↦ OMacTransfer (mac_transfer_struct lb pe t) -∗
  (l ↦ OMacTransfer (mac_transfer_struct lb e (with_state t b n oe)) -∗ Q tt x) -∗
  wp (set_transfer (Heap l) (set_state b n e)) x Q.
Proof. iIntros "Hl HQ". unfold set_transfer. wp_steps. by iApply "HQ". Qed.

Lemma mac_free_spec l t x :
  mt_pending t = false →
  {{ mac_transfer_own l t }} async_in_transfer_free (Heap l) @ x {{ r x', ⟪x' = x⟫ }}.
Proof.
  iIntros (Hp) "(%lb & %pe & _ & Hl & Hb & He)". unfold async_in_transfer_free.
  unfold mac_transfer_struct. wp_steps. cbn [mat_pending mat_error mat_buffer]. rewrite Hp. wp_steps.
  wp_call (libusbp_error_free_spec pe _ x). iIntros ([] ?) "->". wp_steps. by iPureIntro.
Qed.

(** A pending transfer is left alone. *)
Lemma mac_free_pending l t x :
  mt_pending t = true →
  {{ mac_transfer_own l t }} async_in_transfer_free (Heap l) @ x {{ r x',
    ⟪x' = x⟫ ∗ mac_transfer_own l t }}.
Proof.
  iIntros (Hp) "(%lb & %pe & %Hu & Hl & Hb & He)". unfold async_in_transfer_free.
  wp_steps. cbn [mac_transfer_struct mat_pending]. rewrite Hp. wp_steps. iSplit; [done|].
  iExists lb, pe. by iFrame.
Qed.

Lemma mac_free_null x Q : Q tt x ⊢ wp (async_in_transfer_free NULL) x Q.
Proof. apply wp_ret. Qed.

Lemma mac_pending_spec l t x :
  {{ mac_transfer_own l t }} async_in_transfer_pending (Heap l) @ x {{ r x',
    ⟪r = mt_pending t ∧ x' = x⟫ ∗ mac_transfer_own l t }}.
Proof.
  iIntros "(%lb & %pe & %Hu & Hl & Hb & He)". unfold async_in_transfer_pending.
  wp_steps. iSplit; [done|]. iExists lb, pe. by iFrame.
Qed.

(** What submitting the idle transfer [t] does: it is pending, or has an error. *)
Definition mac_submitted (port : Z) (x x' : ext) (l : loc) (t t' : mac_transfer) : Prop :=
  let kr := mac_read_async (x_trace x) port (mt_pipe t) l in
  (∃ buffer, x_trace x' = EvSubmit port l (mt_pipe t) (mt_size t) buffer (kr =? KERN_SUCCESS)
                          :: x_trace x) ∧
  (x_oom x ≤ x_oom x')%nat ∧
  if kr =? KERN_SUCCESS then t' = with_state t true 0 None
  else ∃ got, t' = with_state t false 0 (Some got) ∧
         errs x x' (mach_error kr "Failed to submit asynchronous read transfer.") got.

Lemma mac_submit_spec l t id port x :
  mt_pending t = false →
  {{ mac_transfer_own l t ∗ com_own (mt_ioh t) (OUsbInterface id port) }}
    async_in_transfer_submit (Heap l) @ x
  {{ r x', com_own (mt_ioh t) (OUsbInterface id port) ∗
     ∃ t', ⟪mac_submitted port x x' l t t'⟫ ∗ mac_transfer_own l t' }}.
Proof.
  iIntros (Hp) "[(%lb & %pe & %Hu & Hl & Hb & He) Hi]". unfold async_in_transfer_submit.
  iApply wp_bind. wp_steps. cbn [mac_transfer_struct mat_pending mat_error mat_ioh mat_pipe_index
    mat_buffer mat_size]. rewrite Hp. wp_steps. wp_call (libusbp_error_free_spec pe _ x).
  iIntros ([] ?) "->". wp_steps.
  iApply (wp_set_state _ _ _ _ _ _ _ None with "[$]"). iIntros "Hl".
  unfold ReadPipeAsync. wp_steps. iApply (com_own_load as_usb_interface with "Hi"); [done|].
  iIntros "Hi". wp_steps. unfold mac_submitted. set (h := x_trace x).
  destruct (mac_read_async h port (mt_pipe t) l =? KERN_SUCCESS) eqn:Ek; wp_steps.
  - iFrame "Hi". iExists (with_state t true 0 None). iSplit.
    + iPureIntro. split_and!; [by eexists|done|done].
    + iExists lb, NULL. iFrame. iSplit; [|done]. iPureIntro. apply with_state_wf; [done| |done].
      destruct Hu as (? & _ & ? & _). lia.
  - iApply wp_error_create_mach; [done|]. iIntros (r x1 Hr) "(%got & He & %H)".
    destruct H as [[Ht Ho] H]. cbn [x_trace x_oom] in *.
    iApply (wp_set_state _ _ _ _ _ _ _ (Some got) with "Hl"). iIntros "Hl". iFrame "Hi".
    iExists (with_state t false 0 (Some got)). iSplit.
    + iPureIntro. split_and!; [eexists; by rewrite Ht|done|]. exists got. split; [done|].
      by eapply errs_mono; [| |exact H].
    + iExists lb, r. iFrame. iPureIntro. apply with_state_wf; [done| |done].
      destruct Hu as (? & _ & ? & _). lia.
Qed.

(** ** Completion *)

(** The error of a finished transfer. *)
Definition mac_failure (kr : Z) : option aerr :=
  if kr =? KERN_SUCCESS then None else Some (mach_error kr "Asynchronous IN transfer failed.").

Lemma mac_callback_spec l t kr n x :
  mt_pending t = true → 0 ≤ n ≤ mt_size t →
  {{ mac_transfer_own l t }} async_in_transfer_callback (Heap l) kr n @ x {{ r x',
    ∃ e, ⟪quiet x x' ∧ opt_errs x x' (mac_failure kr) e⟫ ∗ mac_transfer_own l (with_state t false n e) }}.
Proof.
  iIntros (Hp Hn) "(%lb & %pe & %Hu & Hl & Hb & He)".
  assert (Hwf : ∀ e, mac_transfer_wf (with_state t false n e)) by (intros e; by apply with_state_wf).
  destruct Hu as (Hsz & _ & _ & Hpend). destruct (Hpend Hp) as [Herr Htr]. rewrite Herr.
  iDestruct "He" as %->. unfold async_in_transfer_callback, mac_failure. iApply wp_bind. wp_steps.
  cbn [mac_transfer_struct mat_pending mat_error mat_transferred]. rewrite Hp Htr. wp_steps. wp_constants. wp_steps.
  rewrite to_size_id; [|unfold UINT32_MAX, SIZE_MAX in *; lia].
  iApply wp_mach_check; [done|]. destruct (kr =? KERN_SUCCESS).
  - iApply (wp_set_state _ _ _ _ _ _ _ None with "[$]"). iIntros "Hl". iExists None. iSplit; [done|].
    iExists lb, NULL. by iFrame.
  - iIntros (r x' Hr) "(%got & He & %H)". destruct H as [Hq H].
    iApply (wp_set_state _ _ _ _ _ _ _ (Some got) with "[$]"). iIntros "Hl". iExists (Some got).
    iSplit; [done|]. iExists lb, r. by iFrame.
Qed.

(** ** Results *)

Lemma mac_get_results_spec l t buffer old g1 g2 x :
  mt_pending t = false →
  (is_null buffer = false → mt_transferred t ≤ Z.of_nat (List.length old)) →
  {{ mac_transfer_own l t ∗ user_buffer buffer old }}
    async_in_transfer_get_results (Heap l) buffer g1 g2 @ x
  {{ r x', ⟪r.1 = (NULL, out g1 (mt_transferred t)) ∧ quiet x x'⟫ ∗ mac_transfer_own l t ∗
     user_buffer buffer (if is_null buffer then old else copied (received_bytes t) old) ∗
     error_copied g2 r.2 (mt_error t) x x' }}.
Proof.
  iIntros (Hp Hlen) "[(%lb & %pe & %Hu & Hl & Hb & He) Hbuf]".
  unfold async_in_transfer_get_results. iApply wp_bind. wp_steps.
  cbn [mac_transfer_struct mat_pending mat_size mat_transferred mat_buffer mat_error].
  rewrite Hp. pose proof Hu as (_ & Hcl & Hr & _).
  rewrite (_ : (mt_size t <? mt_transferred t) = false); [|lia]. wp_steps.
  destruct (is_null buffer) eqn:En; cbn [negb].
  - wp_step. iApply (wp_wand with "[He]"); [by iApply (copy_transfer_error g2 pe _ x)|].
    iIntros (r x1) "(%Hq & He & Hc)". wp_steps. iFrame "Hbuf Hc". iSplit; [done|].
    iExists lb, pe. by iFrame.
  - iApply (wp_memcpy_chars with "[$] Hbuf"); [done|lia|by apply Hlen|]. iIntros "Hb Hbuf".
    wp_step. iApply (wp_wand with "[He]"); [by iApply (copy_transfer_error g2 pe _ x)|].
    iIntros (r x1) "(%Hq & He & Hc)". wp_steps. iFrame "Hbuf Hc". iSplit; [done|].
    iExists lb, pe. by iFrame.
Qed.

(** ** Cancellation *)

Definition s_abort_pipe (id pipe : Z) : Spec unit := λ h,
  s_io (mac_abort_pipe h id pipe) tt (EvAbortPipe id pipe) "Failed to cancel transfers." h.

Lemma mac_cancel_spec l t id port x :
  {{ mac_transfer_own l t ∗ com_own (mt_ioh t) (OUsbInterface id port) }}
    async_in_transfer_cancel (Heap l) @ x
  {{ r x', mac_transfer_own l t ∗ com_own (mt_ioh t) (OUsbInterface id port) ∗
     returns (s_abort_pipe id (mt_pipe t)) x x' r (λ _, emp) emp }}.
Proof.
  iIntros "[(%lb & %pe & %Hu & Hl & Hb & He) Hi]". unfold async_in_transfer_cancel, AbortPipe, log_mac.
  iApply wp_bind. wp_steps. cbn [mac_transfer_struct mat_ioh mat_pipe_index].
  iApply (com_own_load as_usb_interface with "Hi"); [done|]. iIntros "Hi". wp_steps.
  iAssert (mac_transfer_own l t) with "[-Hi]" as "Ht"; [iExists lb, pe; by iFrame|].
  iApply (wp_mach_checked _ tt (EvAbortPipe id (mt_pipe t)) _ (s_abort_pipe id (mt_pipe t)) x);
    [done|done|].
  destruct (mac_abort_pipe _ _ _ =? KERN_SUCCESS).
  - iIntros (Ha). iFrame. by iApply (returns_ok _ _ _ tt (λ _, emp)%I).
  - iIntros (r x' got [Hr Hf]) "He". iFrame. iRight. iExists got. by iFrame.
Qed.

(** ** Creation *)

(** A transfer that was never submitted. *)
Definition new_mac_transfer (ioh : ptr) (pipe size : Z) : mac_transfer :=
  MacTransfer ioh pipe size (replicate (Z.to_nat size) None) false 0 None.

Definition s_transfer_create (ioh : ptr) (pipe size : Z) : Spec mac_transfer :=
  if UINT32_MAX <? size then sfail (err_new "Transfer size is too large.")
  else mret (new_mac_transfer ioh pipe size).

(** A transfer without a buffer. *)
Lemma wp_free_zeroed l n x Q :
  l ↦ OMacTransfer (set_memory n NULL zeroed_transfer) -∗ Q tt x -∗
  wp (async_in_transfer_free (Heap l)) x Q.
Proof.
  iIntros "Hl HQ". unfold async_in_transfer_free. wp_steps.
  cbn [set_memory zeroed_transfer mat_pending mat_error mat_buffer]. unfold libusbp_error_free. by wp_steps.
Qed.

Lemma mac_create_spec p ioh h pipe_id size x :
  u8 pipe_id → 0 < size →
  {{ mac_handle_own p ioh h }} async_in_transfer_create p pipe_id size @ x {{ r x',
    mac_handle_own p ioh h ∗
    returns (s_transfer_create ioh (pipe_index h pipe_id) size) x x' r.1
      (λ t, ∃ l, ⟪r.2 = Some (Heap l)⟫ ∗ mac_transfer_own l t) ⟪r.2 = None⟫ }}.
Proof.
  iIntros (Hn Hsz) "Hh". iDestruct (mac_handle_not_null with "Hh") as "[[%Hp %Hwf] Hh]".
  unfold async_in_transfer_create, s_transfer_create, then_check, calloc. wp_steps.
  destruct (UINT32_MAX <? size) eqn:Hbig.
  { wp_steps. iApply wp_error_create; [done|]. err_intro. wp_steps. iFrame "Hh".
    iApply (returns_err with "[-]"); [done|by iFrame]. }
  wp_steps. iApply wp_malloc_pos; [done|]. iSplit; last first.
  { iIntros (x1 [Hq Ho]). wp_steps. iApply mac_free_null. wp_steps. iFrame "Hh". by iApply returns_no_memory. }
  iIntros (l Hl) "Hl". wp_steps. unfold malloc_chars, set_transfer. iApply wp_malloc_pos; [lia|]. iSplit; last first.
  { iIntros (x1 [Hq Ho]). wp_steps. iApply (wp_free_zeroed with "[$]"). wp_steps. iFrame "Hh".
    by iApply returns_no_memory. }
  iIntros (lb Hlb) "Hb". wp_steps. wp_call (mac_get_ioh_spec p ioh h x).
  iIntros (? ?) "[%H Hh]". destruct H as [-> ->].
  wp_steps. wp_call (mac_get_pipe_index_spec p ioh h pipe_id x Hn).
  iIntros (? ?) "[%H Hh]". destruct H as [-> ->]. wp_steps. iApply mac_free_null. wp_steps.
  iFrame "Hh". set (t := new_mac_transfer ioh (pipe_index h pipe_id) size).
  rewrite guard_size; [|lia|done].
  iApply (returns_ok _ _ _ t); [by apply succeeded_ret|].
  iExists l. iSplit; [done|]. iExists lb, NULL. iFrame. iSplit; [|done]. iPureIntro.
  apply Z.ltb_ge in Hbig. unfold mac_transfer_wf. cbn. rewrite length_replicate. split_and!; try done; lia.
Qed.

(** ** The transfers of a handle *)

Definition in_system (t : mac_transfer) : option Z := if mt_pending t then Some (mt_size t) else None.

(** The transfers that were created for the interface [ioh] with the port [port]. *)
Definition mac_transfers (ioh : ptr) (port : Z) : ext → gmap loc mac_transfer → hProp :=
  pool_own mac_transfer_own in_system (λ t, mt_ioh t = ioh) port.

Lemma mac_transfers_wf ioh port x m :
  mac_transfers ioh port x m ⊢
  ⌜agrees in_system port x m ∧ map_Forall (λ _ t, mac_transfer_wf t) m⌝ ∧ mac_transfers ioh port x m.
Proof. apply pool_facts, mac_transfer_own_wf. Qed.

Lemma mac_transfers_take ioh port x m l t :
  m !! l = Some t →
  mac_transfers ioh port x m ⊢ ⌜mt_ioh t = ioh⌝ ∧ mac_transfer_own l t ∗
    (∀ x' t', ⌜mt_ioh t' = ioh ∧ agrees in_system port x' (<[l := t']> m)⌝ → mac_transfer_own l t' -∗
       mac_transfers ioh port x' (<[l := t']> m)).
Proof. intros Hl. by apply (pool_take mac_transfer_own in_system (λ t, mt_ioh t = ioh)). Qed.

(** Operations that leave a transfer as it is. *)
Lemma mac_transfers_same {A} (e : M A) ioh port x m l t Q :
  m !! l = Some t →
  mac_transfers ioh port x m -∗
  (mac_transfer_own l t -∗ wp e x (λ a x', ⌜calm x x'⌝ ∧ mac_transfer_own l t ∗
     (mac_transfers ioh port x' m -∗ Q a x'))) -∗
  wp e x Q.
Proof.
  iIntros (Hl) "Hm He". iDestruct (mac_transfers_wf with "Hm") as "[[%Ha _] Hm]".
  iDestruct (mac_transfers_take _ _ _ _ _ _ Hl with "Hm") as "(%Hi & Ht & Hclose)".
  iApply (wp_wand with "[He Ht]"); [by iApply "He"|]. iIntros (a x') "(%Hc & Ht & HQ)".
  iApply "HQ". iDestruct ("Hclose" $! x' t with "[%] Ht") as "H"; rewrite insert_id //.
  split; [done|]. by eapply agrees_calm.
Qed.

Lemma mac_pending_in_pool ioh port m l t x :
  m !! l = Some t →
  {{ mac_transfers ioh port x m }} async_in_transfer_pending (Heap l) @ x {{ r x',
    ⟪r = mt_pending t ∧ x' = x⟫ ∗ mac_transfers ioh port x m }}.
Proof.
  iIntros (Hl) "Hm". iApply (mac_transfers_same with "Hm"); [done|]. iIntros "Ht".
  iApply (wp_wand with "[Ht]"); [by iApply mac_pending_spec|]. iIntros (r x') "[%H $]".
  destruct H as [-> ->]. iSplit; [done|]. iIntros "$". done.
Qed.

(** Freeing a transfer of the pool: not while it is pending. *)
Lemma mac_free_in_pool ioh port m l t x :
  m !! l = Some t →
  {{ mac_transfers ioh port x m }} async_in_transfer_free (Heap l) @ x {{ r x',
    ⟪x' = x⟫ ∗ mac_transfers ioh port x' (if mt_pending t then m else delete l m) }}.
Proof.
  iIntros (Hl) "Hm". destruct (mt_pending t) eqn:Hp.
  - iApply (mac_transfers_same with "Hm"); [done|]. iIntros "Ht".
    iApply (wp_wand with "[Ht]"); [by iApply mac_free_pending|]. iIntros (r x') "[-> $]".
    iSplit; [done|]. iIntros "$". done.
  - iDestruct (pool_delete _ _ _ _ _ _ l t Hl with "Hm") as "[Ht Hm]"; [by rewrite /in_system Hp|].
    iApply (wp_wand with "[Ht]"); [by iApply (mac_free_spec l t x Hp)|].
    iIntros (r x') "->". by iFrame.
Qed.

(** Submitting a transfer of the pool: the system has its buffer then. *)
Lemma mac_submit_in_pool ioh id port m l t x :
  m !! l = Some t → mt_pending t = false →
  {{ com_own ioh (OUsbInterface id port) ∗ mac_transfers ioh port x m }}
    async_in_transfer_submit (Heap l) @ x
  {{ r x', com_own ioh (OUsbInterface id port) ∗
     ∃ t', ⟪mac_submitted port x x' l t t'⟫ ∗ mac_transfers ioh port x' (<[l := t']> m) }}.
Proof.
  iIntros (Hl Hp) "[Hi Hm]". iDestruct (mac_transfers_wf with "Hm") as "[[%Ha _] Hm]".
  iDestruct (mac_transfers_take _ _ _ _ _ _ Hl with "Hm") as "(<- & Ht & Hclose)".
  iApply (wp_wand with "[Ht Hi]"); [iApply (mac_submit_spec l t id port x Hp); iFrame|].
  iIntros ([] x1) "[$ (%t' & %H & Ht)]". iExists t'. iSplit; [done|].
  iApply ("Hclose" with "[%] Ht"). destruct H as ((buf & Htr) & Ho & Ht').
  destruct (_ =? KERN_SUCCESS).
  - subst t'. split; [done|]. destruct x1 as [tr n1 k1]. cbn in Htr. rewrite Htr.
    by apply (agrees_submitted _ port x).
  - destruct Ht' as (got & -> & He). split; [done|]. apply (agrees_same _ _ x _ _ _ t); [done| | |done].
    + unfold in_system. cbn. by rewrite Hp.
    + split; [done|]. intros key. by rewrite Htr.
Qed.

(** ** The event loop *)

(** A finished transfer: the data of the message, its length, and the error. *)
Definition mac_written (m : mac_message) (t : mac_transfer) : mac_transfer :=
  MacTransfer (mt_ioh t) (mt_pipe t) (mt_size t) (overwrite (m_data m) (mt_contents t))
    (mt_pending t) (mt_transferred t) (mt_error t).
Definition mac_finished (m : mac_message) (error : option aerr) (t : mac_transfer) : mac_transfer :=
  with_state (mac_written m t) false (m_arg0 m) error.

(** The messages that the system delivers until it has none, and how it says so. *)
Inductive drains (port : Z) : list event → list mac_message → Z * Z → list event → Prop :=
  | drains_end h e : mac_receive h port = inr e → drains port h [] e (EvReap port None :: h)
  | drains_message h m ms e h' :
      mac_receive h port = inl m →
      drains port (EvReap port (Some (m_transfer m)) :: h) ms e h' →
      drains port h (m :: ms) e h'.

(** The transfers [ts] after the messages [ms] were dispatched, in this order. *)
Inductive dispatches (x x' : ext) :
    list mac_message → gmap loc mac_transfer → gmap loc mac_transfer → Prop :=
  | dispatches_nil ts : dispatches x x' [] ts ts
  | dispatches_cons m ms ts ts' t e :
      ts !! m_transfer m = Some t → mt_pending t = true →
      opt_errs x x' (mac_failure (m_kr m)) e →
      dispatches x x' ms (<[m_transfer m := mac_finished m e t]> ts) ts' →
      dispatches x x' (m :: ms) ts ts'.

Lemma dispatches_mono x0 x1 x2 x3 ms ts ts' :
  (x_oom x0 ≤ x_oom x1)%nat → (x_oom x2 ≤ x_oom x3)%nat →
  dispatches x1 x2 ms ts ts' → dispatches x0 x3 ms ts ts'.
Proof. induction 3; econstructor; try done. by eapply opt_errs_mono. Qed.

(** The error for a failed [mach_msg]; there is none when there is no message. *)
Definition receive_error (e : Z * Z) : option aerr :=
  if e.1 =? MACH_RCV_TIMED_OUT then None
  else if e.1 =? MACH_RCV_TOO_LARGE then
    Some (err_new ("Mach message received was too large: " +:+ fmt_d (to_int e.2) +:+ " > " +:+
                   fmt_d sizeof_our_msg +:+ newline))
  else Some (mach_error e.1 "Failed to receive mach message.").

Lemma receive_failed_spec mr n x :
  {{ emp }} receive_failed mr n @ x {{ r x',
    ∃ error, ⟪quiet x x' ∧ opt_errs x x' (receive_error (mr, n)) error⟫ ∗ opt_err r error }}.
Proof.
  iIntros "_". unfold receive_failed, receive_error. cbn [fst snd].
  destruct (mr =? MACH_RCV_TIMED_OUT); [|destruct (mr =? MACH_RCV_TOO_LARGE)].
  - wp_steps. iExists None. by iPureIntro.
  - iApply wp_error_create; [by rewrite !no_nul_app !no_nul_fmt_d|].
    iIntros (r x' Hr) "(%got & He & %H)". destruct H as [Hq H]. iExists (Some got). by iFrame.
  - iApply wp_error_create_mach; [done|].
    iIntros (r x' Hr) "(%got & He & %H)". destruct H as [Hq H]. iExists (Some got). by iFrame.
Qed.

(** One round when there is a message. *)
Definition dispatches_one (x x' : ext) (port : Z) (m : mac_message)
    (ts ts' : gmap loc mac_transfer) : Prop :=
  ∃ t e, ts !! m_transfer m = Some t ∧ mt_pending t = true ∧
    ts' = <[m_transfer m := mac_finished m e t]> ts ∧
    x_trace x' = EvReap port (Some (m_transfer m)) :: x_trace x ∧ (x_oom x ≤ x_oom x')%nat ∧
    opt_errs x x' (mac_failure (m_kr m)) e.

Lemma wp_message_round ioh port m ts x (k : M ptr) Q :
  mac_receive (x_trace x) port = inl m →
  mac_transfers ioh port x ts -∗
  (∀ x' ts', ⌜dispatches_one x x' port m ts ts'⌝ → mac_transfers ioh port x' ts' -∗ wp k x' Q) -∗
  wp (r ← mach_msg port;
      match r with
      | inr (mr, size) => receive_failed mr size
      | inl m => IODispatchCalloutFromMessage m;; k
      end) x Q.
Proof.
  iIntros (E) "Hm HQ". iDestruct (mac_transfers_wf with "Hm") as "[[%Ha %Hwf] Hm]".
  destruct (receive_outstanding _ _ _ E) as (len & Hlen & Hm).
  destruct (agrees_lookup in_system _ _ _ _ _ Ha Hlen) as (t & Ht & Hk). unfold in_system in Hk.
  destruct (mt_pending t) eqn:Hp; [|done]. injection Hk as <-.
  pose proof (Hwf _ _ Ht) as (Hsz & Hcl & _). destruct Hm as [Hd Hn]; [lia|].
  iDestruct (mac_transfers_take _ _ _ _ _ _ Ht with "Hm") as "(%Hi & Ht & Hclose)".
  iDestruct "Ht" as (lb pe) "(%Hu & Hl & Hb & He)". unfold mach_msg. wp_steps. rewrite E. wp_steps.
  cbn [mac_transfer_struct mat_buffer].
  iApply (wp_write_prefix lb [] (mt_contents t) with "Hb"); [done|rewrite length_fmap; lia|].
  rewrite length_fmap. iIntros "Hb". wp_steps.
  iAssert (mac_transfer_own (m_transfer m) (mac_written m t)) with "[-HQ Hclose]" as "Ht".
  { iExists lb, pe. iFrame. iPureIntro. destruct Hu as (? & ? & ? & ?).
    unfold mac_transfer_wf. cbn. rewrite length_overwrite; [done|lia]. }
  unfold IODispatchCalloutFromMessage.
  set (x1 := Ext (EvReap port (Some (m_transfer m)) :: x_trace x) (x_errno x) (x_oom x)).
  iApply (wp_wand with "[Ht]").
  { by iApply (mac_callback_spec (m_transfer m) (mac_written m t) (m_kr m) (m_arg0 m) x1 Hp). }
  iIntros ([] x2) "(%e & %H & Ht)". destruct H as [[Htr Ho] He]. cbn [x1 x_trace x_oom] in Htr, Ho.
  iApply ("HQ" $! x2 with "[%]"); [by exists t, e|]. iApply ("Hclose" with "[%] Ht").
  split; [done|]. destruct x2 as [tr n2 k2]. cbn in Htr. rewrite Htr.
  by apply (agrees_completed in_system port x).
Qed.

(** The result of handling the events of a handle. *)
Definition mac_events_handled (port : Z) (x x' : ext) (ts ts' : gmap loc mac_transfer)
    (error : option aerr) : Prop :=
  ∃ ms e, drains port (x_trace x) ms e (x_trace x') ∧ (x_oom x ≤ x_oom x')%nat ∧
    dispatches x x' ms ts ts' ∧ opt_errs x x' (receive_error e) error.

Lemma mac_events_step port m x x1 x' ts ts1 ts' error :
  mac_receive (x_trace x) port = inl m → dispatches_one x x1 port m ts ts1 →
  mac_events_handled port x1 x' ts1 ts' error → mac_events_handled port x x' ts ts' error.
Proof.
  intros E (t & e & Ht & Hp & -> & Htr & Ho & He) (ms & n & Hd & Ho' & Hms & Herr).
  exists (m :: ms), n. rewrite Htr in Hd. split_and!; [by econstructor|lia| |].
  - econstructor; [done|done|by eapply opt_errs_mono; [| |exact He]; lia|].
    by eapply dispatches_mono; [| |exact Hms]; lia.
  - by eapply opt_errs_mono; [| |exact Herr]; lia.
Qed.

Lemma mac_events_loop_spec fuel p ioh h ts x :
  (size (outstanding (x_trace x) (mh_port h)) < fuel)%nat →
  {{ mac_handle_own p ioh h ∗ mac_transfers ioh (mh_port h) x ts }}
    generic_handle_events_loop fuel p @ x
  {{ r x', ∃ ts' error, ⟪mac_events_handled (mh_port h) x x' ts ts' error⟫ ∗
      mac_handle_own p ioh h ∗ mac_transfers ioh (mh_port h) x' ts' ∗ opt_err r error }}.
Proof.
  revert ts x. induction fuel as [|fuel IH]; intros ts x Hfuel; [lia|].
  iIntros "[Hh Hm]". cbn [generic_handle_events_loop]. wp_step.
  iApply (mac_handle_load with "Hh"). iIntros (pl) "Hi Hclose". iDestruct ("Hclose" with "Hi") as "Hh".
  cbn [mac_handle_struct mgh_async_port]. set (port := mh_port h) in *.
  destruct (mac_receive (x_trace x) port) as [m|[mr n]] eqn:E.
  - iApply (wp_message_round with "Hm"); [done|]. iIntros (x1 ts1 H1) "Hm".
    iApply (wp_wand with "[Hh Hm]").
    { iApply (IH ts1 x1); [|by iFrame]. destruct H1 as (t & e & _ & _ & _ & Htr & _). rewrite Htr.
      destruct (receive_outstanding _ _ _ E) as (len & Hlen & _).
      pose proof (outstanding_completed port (m_transfer m) len (x_trace x) Hlen). lia. }
    iIntros (r x') "(%ts' & %error & %H & H)". iExists ts', error. iFrame. iPureIntro.
    by eapply mac_events_step.
  - unfold mach_msg. wp_steps. rewrite E. wp_steps.
    set (x1 := Ext (EvReap port None :: x_trace x) (x_errno x) (x_oom x)).
    wp_call (receive_failed_spec mr n x1). iIntros (r x2) "(%error & %H & He)".
    destruct H as [[Ht Ho] H]. cbn [x1 x_trace x_oom] in Ht, Ho. iExists ts, error. iFrame "Hh He". iSplit.
    + iPureIntro. exists [], (mr, n). rewrite Ht. split_and!; [by constructor|done|constructor|].
      by eapply opt_errs_mono; [| |exact H].
    + iApply (pool_calm with "Hm"). split; [done|]. intros key. by rewrite Ht.
Qed.

Lemma mac_events_spec p ioh h ts x :
  {{ mac_handle_own p ioh h ∗ mac_transfers ioh (mh_port h) x ts }} generic_handle_events p @ x
  {{ r x', ∃ ts' error, ⟪mac_events_handled (mh_port h) x x' ts ts' error⟫ ∗
      mac_handle_own p ioh h ∗ mac_transfers ioh (mh_port h) x' ts' ∗ opt_err r error }}.
Proof.
  iIntros "[Hh Hm]". iDestruct (mac_handle_not_null with "Hh") as "[[%Hp _] Hh]".
  unfold generic_handle_events. wp_steps. iApply (mac_handle_load with "Hh").
  iIntros (pl) "Hi Hclose". iDestruct ("Hclose" with "Hi") as "Hh". wp_steps.
  iApply (mac_events_loop_spec with "[$Hh $Hm]"). cbn [mac_handle_struct mgh_async_port]. lia.
Qed.
End specs.

(** ** Properties *)

Section properties.
Context `{OS : MacOS} {LAWS : MacLaws OS}.

(** Every message is about another transfer: after its message a transfer is not
    pending, and a message is dispatched only for a pending one. *)
Lemma dispatches_idle x x' ms ts ts' l t :
  dispatches x x' ms ts ts' → ts !! l = Some t → mt_pending t = false →
  l ∉ m_transfer <$> ms ∧ ts' !! l = Some t.
Proof.
  intros H Hl Hp. induction H as [ts|m ms ts ts' u e Hu Hpu He H IH]; [split; [apply not_elem_of_nil|done]|].
  assert (l ≠ m_transfer m) by (intros ->; congruence).
  destruct IH as [Hn Hl']; [by rewrite lookup_insert_ne|]. split; [|done].
  by apply not_elem_of_cons.
Qed.

Lemma dispatches_facts x x' ms ts ts' :
  dispatches x x' ms ts ts' →
  NoDup (m_transfer <$> ms) ∧
  (∀ l, l ∉ m_transfer <$> ms → ts' !! l = ts !! l) ∧
  (∀ m, m ∈ ms → ∃ t error, ts !! m_transfer m = Some t ∧ mt_pending t = true ∧
     ts' !! m_transfer m = Some (mac_finished m error t) ∧
     opt_errs x x' (mac_failure (m_kr m)) error).
Proof.
  induction 1 as [ts|m ms ts ts' t e Ht Hp He H (Hd & Hsame & Hall)].
  { split_and!; [constructor|done|by intros m ?%elem_of_nil]. }
  destruct (dispatches_idle _ _ _ _ _ (m_transfer m) (mac_finished m e t) H) as [Hn Hl];
    [apply lookup_insert_eq|done|].
  split_and!; cbn.
  - by constructor.
  - intros l [? ?]%not_elem_of_cons. by rewrite Hsame // lookup_insert_ne.
  - intros m' [->|Hin]%elem_of_cons; [by exists t, e|].
    destruct (Hall m' Hin) as (t' & e' & Ht' & Hrest). exists t', e'. split; [|done].
    destruct (decide (m_transfer m' = m_transfer m)) as [E|E]; [|by rewrite lookup_insert_ne in Ht'].
    exfalso. apply Hn. rewrite -E. by apply list_elem_of_fmap_2.
Qed.

(** The history after the messages, the latest first. *)
Definition received_trace (port : Z) (ms : list mac_message) (h : list event) : list event :=
  EvReap port None :: reverse ((λ m, EvReap port (Some (m_transfer m))) <$> ms) ++ h.

Lemma drains_trace port h ms e h' :
  drains port h ms e h' → h' = received_trace port ms h.
Proof.
  unfold received_trace. induction 1 as [|h m ms e h' _ _ ->]; [done|].
  by rewrite fmap_cons reverse_cons -app_assoc.
Qed.

(** What [mach_msg] says in the end. *)
Lemma drains_last port h ms e h' :
  drains port h ms e h' → ∃ h0, h' = EvReap port None :: h0 ∧ mac_receive h0 port = inr e.
Proof. induction 1; [by eexists|done]. Qed.

(** C16. On macOS handling the events of a handle terminates: it receives messages
    until the system has none or fails, at most as many as transfers are pending,
    so the loop cannot spin.  Each message finishes a different pending transfer of the
    handle, whose callback's assertions all hold: it gets the data, the length and
    the error of its message; every other transfer is as it was.  The result
    says why the receiving ended; having no more messages is no error. *)
Theorem mac_generic_handle_events_finishes p ioh h ts x :
  {{ mac_handle_own p ioh h ∗ mac_transfers ioh (mh_port h) x ts }} generic_handle_events p @ x
  {{ r x', ∃ ms e h0 ts' error,
      ⟪x_trace x' = received_trace (mh_port h) ms (x_trace x) ∧
       x_trace x' = EvReap (mh_port h) None :: h0 ∧ mac_receive h0 (mh_port h) = inr e ∧
       NoDup (m_transfer <$> ms) ∧
       (∀ l, l ∉ m_transfer <$> ms → ts' !! l = ts !! l) ∧
       (∀ m, m ∈ ms → ∃ t failure, ts !! m_transfer m = Some t ∧ mt_pending t = true ∧
          ts' !! m_transfer m = Some (mac_finished m failure t) ∧
          opt_errs x x' (mac_failure (m_kr m)) failure) ∧
       opt_errs x x' (receive_error e) error⟫ ∗
      mac_handle_own p ioh h ∗ mac_transfers ioh (mh_port h) x' ts' ∗ opt_err r error }}.
Proof.
  iIntros "H". iApply (wp_wand with "[H]"); [by iApply mac_events_spec|].
  iIntros (r x') "(%ts' & %error & %H & H)". destruct H as (ms & e & Hd & Ho & Hms & He).
  destruct (drains_last _ _ _ _ _ Hd) as (h0 & E0 & Hr).
  destruct (dispatches_facts _ _ _ _ _ Hms) as (H1 & H2 & H3).
  iExists ms, e, h0, ts', error. iFrame "H". iPureIntro.
  split_and!; [by eapply drains_trace|done..].
Qed.

End properties.

(** ** On the example machine *)

#[local] Existing Instance Example_mac.machine.
#[local] Existing Instance Example_mac.machine_laws.

(** A transfer of four bytes that was submitted on the pipe 3. *)
Definition example_mac_transfer : mac_transfer :=
  MacTransfer example_mac_ioh 3 4 (replicate 4 None) true 0 None.
Definition example_mac_loc : loc := 7%positive.
Definition submitted_mac_ext : ext := Ext [EvSubmit 77 example_mac_loc 3 4 NULL true] 0 0.
Definition example_mac_message : mac_message :=
  {| m_transfer := example_mac_loc; m_kr := 0; m_arg0 := 2; m_data := ["o"; "k"]%char |}.

Lemma mac_generic_handle_events_finishes_witness :
  let ts := {[example_mac_loc := example_mac_transfer]} in
  agrees in_system 77 submitted_mac_ext ts ∧
  mac_receive (x_trace submitted_mac_ext) 77 = inl example_mac_message ∧
  {{ mac_handle_own example_mac_ptr example_mac_ioh example_mac_handle ∗
     mac_transfers example_mac_ioh 77 submitted_mac_ext ts }}
    generic_handle_events example_mac_ptr @ submitted_mac_ext
  {{ r x', ∃ ms e h0 ts' error,
      ⟪x_trace x' = received_trace 77 ms (x_trace submitted_mac_ext) ∧
       x_trace x' = EvReap 77 None :: h0 ∧ mac_receive h0 77 = inr e ∧
       NoDup (m_transfer <$> ms) ∧
       (∀ l, l ∉ m_transfer <$> ms → ts' !! l = ts !! l) ∧
       (∀ m, m ∈ ms → ∃ t failure, ts !! m_transfer m = Some t ∧ mt_pending t = true ∧
          ts' !! m_transfer m = Some (mac_finished m failure t) ∧
          opt_errs submitted_mac_ext x' (mac_failure (m_kr m)) failure) ∧
       opt_errs submitted_mac_ext x' (receive_error e) error⟫ ∗
      mac_handle_own example_mac_ptr example_mac_ioh example_mac_handle ∗
      mac_transfers example_mac_ioh 77 x' ts' ∗ opt_err r error }}.
Proof.
  intros ts. split_and!; [by vm_compute|by vm_compute|].
  exact (mac_generic_handle_events_finishes example_mac_ptr example_mac_ioh example_mac_handle ts
           submitted_mac_ext).
Defined.
