(* ===== verification/AsyncPipeMac.v ===== *)
(** * AsyncPipeMac: asynchronous pipes on macOS

    The transfers of src/src/mac/async_in_transfer_mac.c, with the event loop of
    src/src/mac/generic_handle_mac.c, keep the contract of AsyncTransfer.v, so
    everything proved in AsyncPipe.v holds for pipes on macOS.  The function of
    generic_handle_mac.c that opens a pipe is here too. *)

From S2P Require Import Prelude Memory Logic Format Errors Results Basics Strings Buffers Pool AsyncTransfer AsyncPipe MacOS ErrorMac IokitMac DeviceMac InterfaceMac HandleMac TransferMac.
#[local] Set Warnings "-rewrite-rw".

Section code.
Context `{OS : MacOS}.

(** [generic_handle_events] and the functions of async_in_transfer_mac.c; one
    cancellation is for the whole pipe. *)
#[export] Instance mac_transfer_functions : AsyncTransfers := {
  tr_setup := async_in_pipe_setup;
  tr_create := async_in_transfer_create;
  tr_free := async_in_transfer_free;
  tr_submit := async_in_transfer_submit;
  tr_get_results := async_in_transfer_get_results;
  tr_cancel := async_in_transfer_cancel;
  tr_pending := async_in_transfer_pending;
  tr_events := generic_handle_events;
  tr_cancels_each := false
}.

Definition libusbp_generic_handle_open_async_in_pipe (handle : ptr) (pipe_id : Z)
    (pipe_given : bool) : M (ptr * option ptr) :=
  async_in_pipe_create handle pipe_id pipe_given.
End code.

(** ** The contract *)

(** What a pipe sees of a transfer. *)
Definition mac_transfer_of (t : mac_transfer) : transfer :=
  Transfer (mt_size t) (if mt_pending t then Pending else Finished (received_bytes t) (mt_error t)).

Lemma mac_is_pending t : is_pending (mac_transfer_of t) = mt_pending t.
Proof. unfold mac_transfer_of, is_pending. cbn. by destruct (mt_pending t). Qed.

Lemma mac_transfer_of_wf t : mac_transfer_wf t → transfer_wf (mac_transfer_of t).
Proof.
  intros Ht. pose proof (length_received_bytes t Ht). destruct Ht as (? & _ & ? & _).
  split; [cbn; lia|]. unfold mac_transfer_of. cbn. destruct (mt_pending t); [done|]. lia.
Qed.

Lemma mac_transfers_lookup (m : gmap loc mac_transfer) l t :
  (mac_transfer_of <$> m) !! l = Some t → ∃ u, m !! l = Some u ∧ t = mac_transfer_of u.
Proof. rewrite lookup_fmap fmap_Some. done. Qed.

Lemma mac_handle_interface p ioh h :
  mac_handle_own p ioh h ⊢ com_own ioh (OUsbInterface (mh_id h) (mh_port h)) ∗
    (com_own ioh (OUsbInterface (mh_id h) (mh_port h)) -∗ mac_handle_own p ioh h).
Proof.
  iIntros "(%l & %pl & %H & Hl & $ & Hp)". iIntros "Hi". iExists l, pl. by iFrame.
Qed.

Section laws.
Context `{OS : MacOS} {LAWS : MacLaws OS}.

(** Dispatching messages finishes pending transfers. *)
Lemma dispatches_settled x x' ms ts ts' :
  dispatches x x' ms ts ts' → settled (mac_transfer_of <$> ts) (mac_transfer_of <$> ts').
Proof.
  induction 1 as [|m ms ts ts' t e Ht Hp He _ IH]; [done|]. etrans; [|exact IH]. rewrite fmap_insert.
  apply (settled_insert _ _ (mac_transfer_of t)); [by rewrite lookup_fmap Ht|]. right.
  rewrite !mac_is_pending. done.
Qed.

Definition mac_handle_res (p : ptr) (k : ptr * mac_handle) : hProp := mac_handle_own p k.1 k.2.
Definition mac_pool (k : ptr * mac_handle) (x : ext) (M : gmap loc transfer) : hProp :=
  (∃ m, ⟪mac_transfer_of <$> m = M⟫ ∗ mac_transfers k.1 (mh_port k.2) x m)%I.

Lemma mac_pool_intro k x m :
  mac_transfers k.1 (mh_port k.2) x m ⊢ mac_pool k x (mac_transfer_of <$> m).
Proof. iIntros "H". iExists m. by iFrame. Qed.

Lemma mac_law_handle p k : mac_handle_res p k ⊢ ⌜is_null p = false⌝ ∧ mac_handle_res p k.
Proof.
  iIntros "H". iDestruct (mac_handle_not_null with "H") as "[[%Hp _] H]". by iSplit.
Qed.

Lemma mac_law_wf k x M : mac_pool k x M ⊢ ⌜map_Forall (λ _, transfer_wf) M⌝ ∧ mac_pool k x M.
Proof.
  iIntros "(%m & <- & Hm)". iDestruct (mac_transfers_wf with "Hm") as "[[_ %Hwf] Hm]". iSplit.
  - iPureIntro. intros l t Ht. apply mac_transfers_lookup in Ht as (u & Hu & ->).
    by apply mac_transfer_of_wf, (Hwf l).
  - by iApply mac_pool_intro.
Qed.

Lemma mac_law_calm k x x' M : calm x x' → mac_pool k x M ⊢ mac_pool k x' M.
Proof. iIntros (Hc) "(%m & <- & Hm)". iApply mac_pool_intro. by iApply pool_calm. Qed.

Lemma mac_law_setup p k n x :
  {{ mac_handle_res p k }} async_in_pipe_setup p n @ x {{ r x',
    ⟪calm x x'⟫ ∗ mac_handle_res p k ∗ some_error r }}.
Proof.
  iIntros "H". unfold async_in_pipe_setup. wp_steps. iSplit; [by iPureIntro|]. iFrame. by iExists None.
Qed.

Lemma mac_law_create p k n size M x :
  u8 n → is_in n = true → 0 < size →
  {{ mac_handle_res p k ∗ mac_pool k x M }} async_in_transfer_create p n size @ x {{ r x',
    mac_handle_res p k ∗
    ((∃ l, ⟪r = (NULL, Some (Heap l)) ∧ M !! l = None⟫ ∗
       mac_pool k x' (<[l := Transfer size (Finished [] None)]> M)) ∨
     (∃ a, ⟪r.2 = None⟫ ∗ err_own r.1 a ∗ mac_pool k x' M)) }}.
Proof.
  iIntros (Hn Hin Hsz) "[Hh (%m & <- & Hm)]".
  wp_call (mac_create_spec p k.1 k.2 n size x Hn Hsz).
  iIntros ([e o] x1) "[$ [(%t & %H & (%l & %Ho & Ht))|(%a & %H & He & %Ho)]]"; cbn [fst snd] in *; subst o.
  - destruct H as (-> & Hc & Hs). unfold s_transfer_create in Hs.
    destruct (UINT32_MAX <? size); [done|]. injection Hs as <- _.
    iDestruct (pool_insert_new _ _ _ (mh_port k.2) x x1 m l with "Hm Ht") as "[%Hl Hm]";
      [apply mac_transfer_exclusive|done|done|done|].
    iLeft. iExists l. iSplit; [by rewrite lookup_fmap Hl|].
    iDestruct (mac_pool_intro with "Hm") as "Hm". by rewrite fmap_insert.
  - iRight. iExists a. iSplit; [done|]. iFrame "He". destruct H as [Hc _].
    iApply mac_pool_intro. by iApply pool_calm.
Qed.

Lemma mac_law_free k l t M x :
  M !! l = Some t →
  {{ mac_pool k x M }} async_in_transfer_free (Heap l) @ x {{ r x',
    ∃ M', ⟪M' = delete l M ∨ (is_pending t = true ∧ M' = M)⟫ ∗ mac_pool k x' M' }}.
Proof.
  iIntros (Ht) "(%m & <- & Hm)". apply mac_transfers_lookup in Ht as (u & Hu & ->).
  rewrite mac_is_pending.
  iApply (wp_wand with "[Hm]"); [by iApply (mac_free_in_pool k.1 (mh_port k.2) m l u x Hu)|].
  iIntros ([] x') "[-> Hm]". iDestruct (mac_pool_intro with "Hm") as "Hm". iExists _. iFrame "Hm".
  iPureIntro. destruct (mt_pending u); [by right|]. left. by rewrite fmap_delete.
Qed.

Lemma mac_law_submit p k l t M x :
  M !! l = Some t → is_pending t = false →
  {{ mac_handle_res p k ∗ mac_pool k x M }} async_in_transfer_submit (Heap l) @ x {{ r x',
    mac_handle_res p k ∗ ∃ t', ⟪tr_size t' = tr_size t⟫ ∗ mac_pool k x' (<[l := t']> M) }}.
Proof.
  iIntros (Ht Hp) "[Hh (%m & <- & Hm)]". apply mac_transfers_lookup in Ht as (u & Hu & ->).
  rewrite mac_is_pending in Hp. iDestruct (mac_handle_interface with "Hh") as "[Hi Hh]".
  iApply (wp_wand with "[Hi Hm]");
    [iApply (mac_submit_in_pool k.1 (mh_id k.2) (mh_port k.2) m l u x Hu Hp); iFrame|].
  iIntros ([] x') "[Hi (%u' & %H & Hm)]". destruct H as (_ & _ & H).
  iDestruct (mac_pool_intro with "Hm") as "Hm". rewrite fmap_insert.
  iSplitL "Hi Hh"; [by iApply "Hh"|]. iExists _. iFrame "Hm". iPureIntro.
  destruct (_ =? KERN_SUCCESS); [by subst|]. by destruct H as (got & -> & _).
Qed.

Lemma mac_law_pending p k l t M x :
  M !! l = Some t →
  {{ mac_handle_res p k ∗ mac_pool k x M }} async_in_transfer_pending (Heap l) @ x {{ r x',
    mac_handle_res p k ∗ ∃ t', ⟪settles t t' ∧ r = is_pending t'⟫ ∗ mac_pool k x' (<[l := t']> M) }}.
Proof.
  iIntros (Ht) "[Hh (%m & <- & Hm)]". pose proof Ht as Hl. apply mac_transfers_lookup in Ht as (u & Hu & ->).
  iApply (wp_wand with "[Hm]"); [by iApply (mac_pending_in_pool k.1 (mh_port k.2) m l u x Hu)|].
  iIntros (r x') "[%H Hm]". destruct H as [-> ->]. iFrame "Hh". iExists (mac_transfer_of u). rewrite insert_id //.
  iSplit; [by rewrite mac_is_pending; iPureIntro; split; [left|]|]. by iApply mac_pool_intro.
Qed.

Lemma mac_law_results k l size data error M buffer old g1 g2 x :
  M !! l = Some (Transfer size (Finished data error)) →
  (is_null buffer = false → (List.length data ≤ List.length old)%nat) →
  {{ mac_pool k x M ∗ user_buffer buffer old }}
    async_in_transfer_get_results (Heap l) buffer g1 g2 @ x
  {{ r x', ⟪r.1 = (NULL, out g1 (Z.of_nat (List.length data))) ∧ quiet x x'⟫ ∗ mac_pool k x' M ∗
     user_buffer buffer (if is_null buffer then old else copied data old) ∗
     error_copied g2 r.2 error x x' }}.
Proof.
  iIntros (Ht Hold) "[(%m & <- & Hm) Hbuf]". apply mac_transfers_lookup in Ht as (u & Hu & E).
  unfold mac_transfer_of in E. destruct (mt_pending u) eqn:Hp; [done|]. injection E as -> -> ->.
  iDestruct (mac_transfers_wf with "Hm") as "[[%Ha %Hwf] Hm]".
  pose proof (length_received_bytes u (Hwf l u Hu)) as Hlen. rewrite Hlen.
  iApply (mac_transfers_same with "Hm"); [done|]. iIntros "Hu".
  iApply (wp_wand with "[Hu Hbuf]").
  { iApply (mac_get_results_spec l u buffer old g1 g2 x Hp); [|iFrame].
    intros Hb. specialize (Hold Hb). lia. }
  iIntros (r x') "(%H & $ & $ & $)". destruct H as [Hr Hq]. iSplit; [iPureIntro; by apply quiet_calm|].
  iIntros "Hm". iSplit; [done|]. by iApply mac_pool_intro.
Qed.

Lemma mac_law_cancel p k l t M x :
  M !! l = Some t →
  {{ mac_handle_res p k ∗ mac_pool k x M }} async_in_transfer_cancel (Heap l) @ x {{ r x',
    mac_handle_res p k ∗ mac_pool k x' M ∗ some_error r }}.
Proof.
  iIntros (Ht) "[Hh (%m & <- & Hm)]". apply mac_transfers_lookup in Ht as (u & Hu & ->).
  iDestruct (mac_handle_interface with "Hh") as "[Hi Hh]".
  iDestruct (mac_transfers_wf with "Hm") as "[[%Ha _] Hm]".
  iDestruct (mac_transfers_take _ _ _ _ _ _ Hu with "Hm") as "(%Hioh & Hu & Hclose)".
  iApply (wp_wand with "[Hu Hi]").
  { iApply (mac_cancel_spec l u (mh_id k.2) (mh_port k.2) x). rewrite Hioh. iFrame. }
  rewrite Hioh. iIntros (r x') "(Hu & Hi & H)". iSplitL "Hi Hh"; [by iApply "Hh"|].
  iDestruct (returns_some_error with "H") as "[%Hc $]".
  iApply mac_pool_intro. iDestruct ("Hclose" $! x' u with "[%] Hu") as "H"; rewrite insert_id //.
  split; [done|]. by eapply agrees_calm.
Qed.

Lemma mac_law_events p k M x :
  {{ mac_handle_res p k ∗ mac_pool k x M }} generic_handle_events p @ x {{ r x',
    ∃ M', ⟪settled M M'⟫ ∗ mac_handle_res p k ∗ mac_pool k x' M' ∗ some_error r }}.
Proof.
  iIntros "[Hh (%m & <- & Hm)]". iApply (wp_wand with "[Hh Hm]").
  { iApply (mac_events_spec p k.1 k.2 m x). iFrame. }
  iIntros (r x') "(%m' & %error & %H & $ & Hm & He)". destruct H as (ms & e & _ & _ & Hms & _).
  iExists _. iSplit; [iPureIntro; by eapply dispatches_settled|].
  iSplitL "Hm"; [by iApply mac_pool_intro|]. by iExists error.
Qed.
End laws.

#[export] Instance mac_laws `{OS : MacOS} {LAWS : MacLaws OS} : AsyncTransferLaws mac_transfer_functions := {
  handle_res := mac_handle_res;
  pool := mac_pool;
  law_handle := mac_law_handle;
  law_wf := mac_law_wf;
  law_calm := mac_law_calm;
  law_setup := mac_law_setup;
  law_create := mac_law_create;
  law_free_null := mac_free_null;
  law_free := mac_law_free;
  law_submit := mac_law_submit;
  law_pending := mac_law_pending;
  law_results := mac_law_results;
  law_cancel := mac_law_cancel;
  law_events := mac_law_events
}.
