(* ===== verification/MultiSz.v ===== *)
(** * MultiSz: lists of strings as the Windows registry stores them

    A REG_MULTI_SZ value holds strings that are not empty, each with its NUL, and one
    more NUL at the end.  [multi_sz] reads one; anything that ends with two NULs starts
    with one. *)

From S2P Require Import Prelude.

Definition bytes_of (s : string) : list ascii := String.list_ascii_of_string s ++ [nul].

(** The value with the strings [ss], and what follows it in the buffer. *)
Definition multi (ss : list string) (junk : list ascii) : list ascii :=
  mjoin (bytes_of <$> ss) ++ nul :: junk.

(** The pieces between the NULs. *)
Fixpoint pieces (cs : list ascii) : list string :=
  match cs with
  | [] => [""]
  | c :: cs =>
      if bool_decide (c = nul) then "" :: pieces cs
      else match pieces cs with
           | s :: ss => String c s :: ss
           | [] => []
           end
  end%string.

Fixpoint until_empty (ss : list string) : list string :=
  match ss with
  | "" :: _ | [] => []
  | s :: ss => s :: until_empty ss
  end%string.

Definition multi_sz (cs : list ascii) : list string := until_empty (pieces cs).

Definition entry (s : string) : Prop := no_nul s = true ∧ s ≠ ""%string.

Lemma pieces_text s cs : no_nul s = true → pieces (bytes_of s ++ cs) = s :: pieces cs.
Proof.
  unfold bytes_of. induction s as [|c s IH]; [done|]. cbn. intros [Hc Hs]%andb_true_iff.
  case_bool_decide; [done|]. rewrite <- app_assoc in IH |- *. cbn [app] in IH |- *. by rewrite IH.
Qed.

Lemma multi_cons s ss junk : multi (s :: ss) junk = bytes_of s ++ multi ss junk.
Proof. unfold multi. cbn [fmap list_fmap mjoin list_join]. by rewrite <- app_assoc. Qed.

(** Reading what was written. *)
Lemma multi_sz_multi ss junk : Forall entry ss → multi_sz (multi ss junk) = ss.
Proof.
  unfold multi_sz. induction ss as [|s ss IH]; intros H; [done|].
  apply Forall_cons in H as [[Hs Hne] H]. rewrite multi_cons, pieces_text; [|done].
  specialize (IH H). destruct s; [done|]. cbn [until_empty]. by f_equal.
Qed.

(** The text before the first NUL. *)
Lemma first_piece cs : nul ∈ cs → ∃ s rest, no_nul s = true ∧ cs = bytes_of s ++ rest.
Proof.
  induction cs as [|c cs IH]; [by intros ?%elem_of_nil|]. intros H.
  destruct (decide (c = nul)) as [->|Hc]; [by exists "", cs|].
  destruct IH as (s & rest & Hs & ->); [by apply elem_of_cons in H as [?|?]|].
  exists (String c s), rest. split; [|done]. cbn. by rewrite bool_decide_false.
Qed.

Lemma two_nuls_multi n init : (List.length init < n)%nat →
  ∃ ss junk, Forall entry ss ∧ init ++ [nul; nul] = multi ss junk.
Proof.
  revert init. induction n as [|n IH]; intros init Hn; [lia|].
  destruct init as [|c init]; [by exists [], [nul]|].
  destruct (decide (c = nul)) as [->|Hc]; [by exists [], (init ++ [nul; nul])|].
  destruct (first_piece (init ++ [nul])) as (s & rest & Hs & E); [set_solver|].
  assert (He : entry (String c s)).
  { split; [|done]. cbn. by rewrite bool_decide_false. }
  destruct (decide (rest = [])) as [->|Hr].
  - exists [String c s], []. split; [by constructor|]. rewrite multi_cons.
    rewrite app_nil_r in E. change (bytes_of (String c s)) with (c :: bytes_of s).
    rewrite <- E. cbn [app multi]. by rewrite <- app_assoc.
  - destruct (exists_last Hr) as (rest' & y & ->).
    rewrite app_assoc in E. apply app_inj_tail in E as [E <-].
    destruct (IH rest') as (ss & junk & Hss & Hm).
    { apply (f_equal List.length) in E. rewrite length_app in E. cbn in Hn. lia. }
    exists (String c s :: ss), junk. split; [by constructor|].
    rewrite multi_cons, <- Hm, app_assoc. change (bytes_of (String c s)) with (c :: bytes_of s).
    cbn [app]. by rewrite E.
Qed.

(** What the last two bytes say. *)
Lemma ends_multi cs :
  (2 ≤ List.length cs)%nat → cs !! (List.length cs - 2)%nat = Some nul →
  cs !! (List.length cs - 1)%nat = Some nul →
  ∃ ss junk, Forall entry ss ∧ cs = multi ss junk.
Proof.
  intros Hlen H2 H1. set (init := take (List.length cs - 2) cs).
  assert (E : cs = init ++ [nul; nul]).
  { unfold init. apply list_eq. intros i. destruct (decide (i < List.length cs - 2)%nat).
    - rewrite lookup_app_l; [|rewrite length_take; lia]. by rewrite lookup_take_lt.
    - rewrite lookup_app_r; [|rewrite length_take; lia]. rewrite length_take.
      destruct (decide (i = List.length cs - 2)%nat) as [->|].
      { rewrite H2, Nat.min_l; [|lia]. by rewrite Nat.sub_diag. }
      destruct (decide (i = List.length cs - 1)%nat) as [->|].
      { rewrite H1, Nat.min_l; [|lia]. by replace (List.length cs - 1 - (List.length cs - 2))%nat with 1%nat by lia. }
      rewrite !lookup_ge_None_2; [done|cbn; lia|lia]. }
  rewrite E. by apply (two_nuls_multi (S (List.length init))), Nat.lt_succ_diag_r.
Qed.

(** ** Capital letters *)

Definition is_lower (c : ascii) : bool :=
  (Z.of_nat (nat_of_ascii "a") <=? Z.of_nat (nat_of_ascii c)) &&
  (Z.of_nat (nat_of_ascii c) <=? Z.of_nat (nat_of_ascii "z")).

Definition to_upper (c : ascii) : ascii :=
  if is_lower c then ascii_of_nat (nat_of_ascii c - (nat_of_ascii "a" - nat_of_ascii "A")) else c.

Lemma to_upper_nul c : to_upper c = nul ↔ c = nul.
Proof.
  split; [|by intros ->]. destruct c as [[] [] [] [] [] [] [] []]; vm_compute; congruence.
Qed.

Lemma fmap_upper_nul (cs : list ascii) (i : nat) : (to_upper <$> cs) !! i = Some nul ↔ cs !! i = Some nul.
Proof.
  rewrite list_lookup_fmap. destruct (cs !! i) as [c|]; [|done]. cbn. split.
  - intros [= H]. by apply to_upper_nul in H as ->.
  - intros [= ->]. done.
Qed.

(** The strings of a value in capital letters. *)
Definition upper (s : string) : string :=
  String.string_of_list_ascii (to_upper <$> String.list_ascii_of_string s).

Lemma bytes_of_upper s : to_upper <$> bytes_of s = bytes_of (upper s).
Proof. unfold bytes_of, upper. by rewrite fmap_app, String.list_ascii_of_string_of_list_ascii. Qed.

Lemma multi_upper ss junk : to_upper <$> multi ss junk = multi (upper <$> ss) (to_upper <$> junk).
Proof.
  induction ss as [|s ss IH]; [done|]. rewrite fmap_cons, !multi_cons, fmap_app, IH. by rewrite bytes_of_upper.
Qed.

Lemma entry_upper s : entry s → entry (upper s).
Proof.
  unfold entry, upper. intros [Hs Hne]. split; [|by destruct s].
  clear Hne. induction s as [|c s IH]; [done|]. cbn in Hs |- *. apply andb_true_iff in Hs as [Hc Hs].
  apply andb_true_iff. split; [|by apply IH]. rewrite negb_true_iff, bool_decide_eq_false in Hc |- *.
  by rewrite to_upper_nul.
Qed.

Example multi_example :
  multi_sz (multi ["USB\VID_1FFB&PID_DA01&REV_0111"; "USB\VID_1FFB&PID_DA01"]%string [nul]) =
  ["USB\VID_1FFB&PID_DA01&REV_0111"; "USB\VID_1FFB&PID_DA01"]%string.
Proof. reflexivity. Qed.
