(* ===== verification/Sscanf.v ===== *)
(** * Sscanf: formats of [sscanf] with several conversions

    The Windows code picks hexadecimal numbers out of device IDs with formats such as
    "USB\\VID_%4hx&PID_%4hx&REV_%4hx".  A format is a list of directives here; the
    result is the list of the numbers that were stored, so that its length is what
    [sscanf] returns. *)

From S2P Require Import Prelude Format MultiSz.

Inductive directive :=
  | Text (s : string)             (* ordinary characters *)
  | Hex (w : option nat)          (* [%x], or [%wx] *)
  | SkipHex (w : nat)             (* [%*wx] *)
  | SkipUntil (c : ascii).        (* [%*[^c]] *)

(** The conversion of [%wx]: the number and the rest of the input.  Without a
    width as much is taken as there is. *)
Definition scan_hex_rest (w : option nat) (cs : list ascii) : option (Z * list ascii) :=
  let cs := skip_space cs in
  let '(neg, w, cs) := scan_sign (match w with Some w => w | None => List.length cs end) cs in
  let '(w, cs) := scan_prefix w cs in
  match take_hex w cs with
  | [] => None
  | ds => Some (if neg : bool then - value ds else value ds, drop (List.length ds) cs)
  end.

Fixpoint match_text (s : string) (cs : list ascii) : option (list ascii) :=
  match s, cs with
  | "", _ => Some cs
  | String a s, c :: cs => if Ascii.eqb a c then match_text s cs else None
  | String _ _, [] => None
  end%string.

Fixpoint skip_until (c : ascii) (cs : list ascii) : list ascii :=
  match cs with
  | a :: cs' => if Ascii.eqb a c then cs else skip_until c cs'
  | [] => []
  end.

Fixpoint sscanf (fmt : list directive) (cs : list ascii) : list Z :=
  match fmt with
  | [] => []
  | Text s :: fmt => match match_text s cs with Some cs => sscanf fmt cs | None => [] end
  | Hex w :: fmt =>
      match scan_hex_rest w cs with Some (n, cs) => n :: sscanf fmt cs | None => [] end
  | SkipHex w :: fmt =>
      match scan_hex_rest (Some w) cs with Some (_, cs) => sscanf fmt cs | None => [] end
  | SkipUntil c :: fmt =>
      match cs with
      | a :: _ => if Ascii.eqb a c then [] else sscanf fmt (skip_until c cs)
      | [] => []
      end
  end.

(** At most one number for every conversion that stores one. *)
Lemma stored fmt cs :
  (List.length (sscanf fmt cs) ≤
   List.length (List.filter (λ d, match d with Hex _ => true | _ => false end) fmt))%nat.
Proof.
  revert cs. induction fmt as [|[] fmt IH]; intros cs; cbn [sscanf List.filter]; [done|..];
    repeat case_match; cbn [List.length]; try lia; try apply IH. apply le_n_S, IH.
Qed.

(** It extends the single conversion of Format.v. *)
Lemma scan_hex_rest_value w s :
  fst <$> scan_hex_rest (Some w) (String.list_ascii_of_string s) = scan_hex w s.
Proof.
  unfold scan_hex_rest, scan_hex.
  destruct (scan_sign w _) as [[neg w1] cs1]. destruct (scan_prefix w1 cs1) as [w2 cs2].
  by destruct (take_hex w2 cs2).
Qed.

Example sscanf_ids :
  sscanf [Text "USB\VID_"; Hex (Some 4%nat); Text "&PID_"; Hex (Some 4%nat); Text "&REV_"; Hex (Some 4%nat)]
    (String.list_ascii_of_string "USB\VID_1FFB&PID_DA01&REV_0111&MI_00") = [0x1ffb; 0xda01; 0x111].
Proof. reflexivity. Qed.

Example sscanf_stops :
  sscanf [Text "USB\VID_"; Hex (Some 4%nat); Text "&PID_"; Hex (Some 4%nat); Text "&REV_"; Hex (Some 4%nat)]
    (String.list_ascii_of_string "USB\VID_1FFB&PID_DA01&MI_00") = [0x1ffb; 0xda01].
Proof. reflexivity. Qed.

Example sscanf_skips :
  sscanf [Text "FTDIBUS\"; SkipUntil "\"%char; Text "\"; Hex None]
    (String.list_ascii_of_string "FTDIBUS\VID_0403+PID_6001+A9\0000") = [0].
Proof. reflexivity. Qed.

(** ** What the conversion of [%x] is

    As the C standard has it: after white space, the input item is the longest sequence
    of characters, within the width, that is a hexadecimal numeral or the beginning of
    one; the conversion fails when the item is not a numeral. *)

Definition numeral (item : list ascii) (n : Z) : Prop :=
  ∃ sign prefix digits ds,
    item = sign ++ prefix ++ digits ∧
    (sign = [] ∨ sign = ["+"%char] ∨ sign = ["-"%char]) ∧
    (prefix = [] ∨ prefix = ["0"; "x"]%char ∨ prefix = ["0"; "X"]%char) ∧
    Forall2 (λ c d, hex_digit c = Some d) digits ds ∧ ds ≠ [] ∧
    n = if bool_decide (sign = ["-"%char]) then - value ds else value ds.

Definition starts_numeral (item : list ascii) : Prop := ∃ more n, numeral (item ++ more) n.

Definition fits (w : option nat) (n : nat) : Prop :=
  match w with Some w => (n ≤ w)%nat | None => True end.

(** The item at the start of [cs], and what follows it. *)
Definition longest_numeral (w : option nat) (cs : list ascii) (n : Z) (rest : list ascii) : Prop :=
  ∃ item, cs = item ++ rest ∧ numeral item n ∧ fits w (List.length item) ∧
    ∀ more rest', rest = more ++ rest' → more ≠ [] → fits w (List.length (item ++ more)) →
      ¬ starts_numeral (item ++ more).

Definition hex_item (w : option nat) (cs : list ascii) (n : Z) (rest : list ascii) : Prop :=
  ∃ blanks cs', cs = blanks ++ cs' ∧ Forall (λ c, is_space c = true) blanks ∧
    longest_numeral w cs' n rest.

(** The conversion behind the white space, with a width. *)
Definition scan_numeral (w : nat) (cs : list ascii) : option (Z * list ascii) :=
  let '(neg, w, cs) := scan_sign w cs in
  let '(w, cs) := scan_prefix w cs in
  match take_hex w cs with
  | [] => None
  | ds => Some (if neg : bool then - value ds else value ds, drop (List.length ds) cs)
  end.

Lemma scan_hex_rest_numeral w cs :
  scan_hex_rest w cs =
    scan_numeral (match w with Some w => w | None => List.length (skip_space cs) end) (skip_space cs).
Proof. done. Qed.

Lemma hex_digit_facts c d : hex_digit c = Some d →
  is_space c = false ∧ Ascii.eqb c "-" = false ∧ Ascii.eqb c "+" = false ∧
  Ascii.eqb c "x" = false ∧ Ascii.eqb c "X" = false.
Proof. destruct c as [[] [] [] [] [] [] [] []]; vm_compute; try done; by intros _. Qed.

Lemma skip_blanks blanks cs :
  Forall (λ c, is_space c = true) blanks → (∀ c, head cs = Some c → is_space c = false) →
  skip_space (blanks ++ cs) = cs.
Proof.
  intros Hb Hc. induction Hb as [|c blanks Hs _ IH]; cbn [app skip_space].
  - destruct cs as [|c cs]; [done|]. cbn. by rewrite (Hc c eq_refl).
  - by rewrite Hs.
Qed.

Lemma skip_space_split cs :
  ∃ blanks, cs = blanks ++ skip_space cs ∧ Forall (λ c, is_space c = true) blanks.
Proof.
  induction cs as [|c cs IH]; [by exists []|]. cbn [skip_space]. destruct (is_space c) eqn:E; [|by exists []].
  destruct IH as (blanks & IH & Hb). exists (c :: blanks). split; [cbn [app]; by f_equal|by constructor].
Qed.

Lemma take_hex_all w digits ds rest :
  Forall2 (λ c d, hex_digit c = Some d) digits ds → (List.length digits ≤ w)%nat →
  (List.length digits = w ∨ ∀ c, head rest = Some c → hex_digit c = None) →
  take_hex w (digits ++ rest) = ds.
Proof.
  intros Hd. revert w. induction Hd as [|c d digits ds Hc _ IH]; intros w Hw Hend; cbn [app].
  - destruct w; [done|]. destruct rest as [|c rest]; [done|]. cbn [take_hex].
    destruct Hend as [|Hend]; [done|]. by rewrite (Hend c eq_refl).
  - destruct w; cbn in Hw; [lia|]. cbn [take_hex]. rewrite Hc, IH; [done|lia|].
    destruct Hend as [Hend|Hend]; [left; cbn in Hend; lia|by right].
Qed.

Lemma take_hex_split w cs :
  ∃ digits rest, cs = digits ++ rest ∧ Forall2 (λ c d, hex_digit c = Some d) digits (take_hex w cs) ∧
    (List.length digits ≤ w)%nat ∧ rest = drop (List.length (take_hex w cs)) cs ∧
    (List.length digits = w ∨ ∀ c, head rest = Some c → hex_digit c = None).
Proof.
  revert cs. induction w as [|w IH]; intros cs; [exists [], cs; cbn; split_and!; [done|constructor|lia|done|by left]|].
  destruct cs as [|c cs]; [exists [], []; cbn; split_and!; [done|constructor|lia|done|by right]|]. cbn [take_hex].
  destruct (hex_digit c) as [d|] eqn:Ec.
  - destruct (IH cs) as (digits & rest & Hcs & Hd & Hl & Hr & Hend). exists (c :: digits), rest.
    cbn [List.length drop app]. split_and!; [by rewrite Hcs|by constructor|lia|done|].
    destruct Hend as [Hend|Hend]; [left; lia|by right].
  - exists [], (c :: cs). cbn. split_and!; [done|constructor|lia|done|]. right. by intros ? [= <-].
Qed.

(** The first character of a numeral without its sign is not a sign, and the sign is
    what [scan_sign] takes. *)
Lemma scan_sign_split w sign cs :
  (sign = [] ∨ sign = ["+"%char] ∨ sign = ["-"%char]) →
  (∀ c, head cs = Some c → Ascii.eqb c "-" = false ∧ Ascii.eqb c "+" = false) →
  scan_sign w (sign ++ cs) = (bool_decide (sign = ["-"%char]), (w - List.length sign)%nat, cs).
Proof.
  intros Hs Hc. destruct Hs as [->|[->| ->]]; cbn [app].
  - rewrite Nat.sub_0_r. destruct cs as [|c cs]; [done|]. cbn [scan_sign].
    by destruct (Hc c eq_refl) as [-> ->].
  - cbn. do 2 f_equal. lia.
  - cbn. do 2 f_equal. lia.
Qed.

(** A prefix and digits: the first character is the digit 0 or a digit. *)
Definition digits_of (prefix digits : list ascii) (ds : list Z) : Prop :=
  (prefix = [] ∨ prefix = ["0"; "x"]%char ∨ prefix = ["0"; "X"]%char) ∧
  Forall2 (λ c d, hex_digit c = Some d) digits ds ∧ ds ≠ [].

Lemma digits_head prefix digits ds rest c :
  digits_of prefix digits ds → head (prefix ++ digits ++ rest) = Some c →
  is_space c = false ∧ Ascii.eqb c "-" = false ∧ Ascii.eqb c "+" = false.
Proof.
  intros (Hp & Hd & Hne) Hc. assert (∃ d, hex_digit c = Some d) as [d Hh].
  { destruct Hp as [->|[->| ->]]; [|injection Hc as <-; by exists 0..].
    destruct Hd as [|c' d digits ds Hc' _]; [done|]. injection Hc as <-. by exists d. }
  apply hex_digit_facts in Hh as (? & ? & ? & _). done.
Qed.

(** [scan_prefix] takes the prefix, unless the input goes on as one behind a single 0. *)
Lemma scan_prefix_split w prefix digits ds rest :
  digits_of prefix digits ds → (List.length (prefix ++ digits) ≤ w)%nat →
  (prefix = [] → digits = ["0"%char] → (1 < w)%nat →
     ∀ c, head rest = Some c → Ascii.eqb c "x" = false ∧ Ascii.eqb c "X" = false) →
  scan_prefix w (prefix ++ digits ++ rest) = ((w - List.length prefix)%nat, digits ++ rest).
Proof.
  intros (Hp & Hd & Hne) Hw Hx. destruct Hp as [->|[->| ->]].
  - cbn [app List.length]. rewrite Nat.sub_0_r. destruct w as [|[|w]]; [done|by destruct (digits ++ rest)|].
    destruct Hd as [|a d digits ds Ha Hd]; [done|]. cbn [app]. destruct (digits ++ rest) as [|b cs] eqn:E; [done|].
    cbn [scan_prefix]. destruct (Ascii.eqb_spec a "0") as [->|]; [|done]. cbn [andb].
    assert (Ascii.eqb b "x" = false ∧ Ascii.eqb b "X" = false) as [-> ->]; [|done].
    destruct Hd as [|b' d' digits ds Hb Hd].
    + cbn [app] in E. subst rest. by apply Hx; [..|lia|].
    + injection E as -> _. by apply hex_digit_facts in Hb as (_ & _ & _ & ?).
  - destruct Hd as [|a d digits ds Ha Hd]; [done|]. cbn in Hw. destruct w as [|[|w]]; [lia..|]. cbn. by rewrite Nat.sub_0_r.
  - destruct Hd as [|a d digits ds Ha Hd]; [done|]. cbn in Hw. destruct w as [|[|w]]; [lia..|]. cbn. by rewrite Nat.sub_0_r.
Qed.

(** A longest numeral is what is scanned. *)
Lemma longest_scanned w cs n rest :
  longest_numeral (Some w) cs n rest → scan_numeral w cs = Some (n, rest).
Proof.
  intros (item & -> & (sign & prefix & digits & ds & -> & Hs & Hp & Hd & Hne & ->) & Hw & Hmax).
  cbn [fits] in Hw, Hmax. rewrite !length_app in Hw. assert (Ho : digits_of prefix digits ds) by done.
  assert (Hend : ∀ c, head rest = Some c → (List.length (sign ++ prefix ++ digits) < w)%nat →
    ¬ starts_numeral ((sign ++ prefix ++ digits) ++ [c])).
  { intros c Hc Hl. destruct rest as [|c' rest]; [done|]. injection Hc as ->.
    apply (Hmax [c] rest); [done..|]. rewrite length_app. cbn. lia. }
  unfold scan_numeral. rewrite <-!(assoc_L (++)).
  rewrite scan_sign_split; [|done|intros c Hc; by apply (digits_head _ _ _ _ _ Ho) in Hc as (_ & ?)].
  rewrite (scan_prefix_split _ _ _ _ _ Ho).
  - rewrite (take_hex_all _ digits ds); [|done|lia|].
    + destruct ds as [|d ds]; [done|]. rewrite <-(Forall2_length _ _ _ Hd), drop_app_length.
      by case_bool_decide.
    + destruct (decide (List.length digits = w - List.length sign - List.length prefix)%nat) as [|Hl]; [by left|right].
      intros c Hc. destruct (hex_digit c) as [d|] eqn:Ec; [|done]. exfalso.
      apply (Hend c Hc); [rewrite !length_app; lia|]. exists [], (if bool_decide (sign = ["-"%char]) then - value (ds ++ [d]) else value (ds ++ [d])).
      exists sign, prefix, (digits ++ [c]), (ds ++ [d]). rewrite app_nil_r, <-!(assoc_L (++)).
      split_and!; [done..| |by destruct ds|done]. apply Forall2_app; [done|by constructor].
  - rewrite length_app. lia.
  - intros -> -> Hl c Hc. cbn [app List.length] in *.
    destruct (Ascii.eqb c "x" || Ascii.eqb c "X") eqn:Ex; [exfalso|by apply orb_false_iff in Ex].
    apply (Hend c Hc); [rewrite !length_app; cbn; lia|]. exists ["0"%char].
    exists (if bool_decide (sign = ["-"%char]) then - value [0] else value [0]), sign, ["0"%char; c], ["0"%char], [0].
    rewrite <-!(assoc_L (++)). split_and!; [done|done| |by repeat constructor|done|done].
    apply orb_true_iff in Ex as [->%Ascii.eqb_eq| ->%Ascii.eqb_eq]; auto.
Qed.

(** A sign is not the start of anything else. *)
Lemma same_sign sign sign' cs cs' :
  (sign = [] ∨ sign = ["+"%char] ∨ sign = ["-"%char]) →
  (sign' = [] ∨ sign' = ["+"%char] ∨ sign' = ["-"%char]) →
  (∀ c, head cs = Some c → Ascii.eqb c "-" = false ∧ Ascii.eqb c "+" = false) →
  (∀ c, head cs' = Some c → Ascii.eqb c "-" = false ∧ Ascii.eqb c "+" = false) →
  sign ++ cs = sign' ++ cs' → cs = cs'.
Proof.
  intros Hs Hs' Hc Hc' E. pose proof (scan_sign_split 0 sign cs Hs Hc) as H.
  rewrite E, (scan_sign_split 0 sign' cs' Hs' Hc') in H. by injection H.
Qed.

(** Nothing can follow the digits of a numeral that ends before another character. *)
Lemma no_longer sign prefix digits ds c more :
  (sign = [] ∨ sign = ["+"%char] ∨ sign = ["-"%char]) → digits_of prefix digits ds →
  hex_digit c = None →
  (prefix = [] → digits = ["0"%char] → Ascii.eqb c "x" = false ∧ Ascii.eqb c "X" = false) →
  ¬ starts_numeral ((sign ++ prefix ++ digits) ++ c :: more).
Proof.
  intros Hs Ho Hc Hx (tl & n & sign' & prefix' & digits' & ds' & E & Hs' & Hp' & Hd' & Hne' & _).
  assert (Ho' : digits_of prefix' digits' ds') by done. rewrite <-!(assoc_L (++)) in E.
  apply same_sign in E; [|done|done| |]; last first.
  { intros a Ha. rewrite <-(app_nil_r digits') in Ha. by apply (digits_head _ _ _ _ _ Ho') in Ha as (_ & ?). }
  { intros a Ha. by apply (digits_head _ _ _ _ _ Ho) in Ha as (_ & ?). }
  assert (Hin : ∀ a, a ∈ digits' → is_Some (hex_digit a)).
  { intros a Ha. apply list_elem_of_lookup in Ha as [i Hi].
    destruct (Forall2_lookup_l _ _ _ _ _ Hd' Hi) as (d & _ & ?). by exists d. }
  assert (Hno : ∀ cs1 cs2, digits' ≠ cs1 ++ c :: cs2).
  { intros cs1 cs2 ->. destruct (Hin c) as [d Hd]; [set_solver|congruence]. }
  assert (Hnx : ∀ a cs1, (a = "x" ∨ a = "X")%char → digits' ≠ "0"%char :: a :: cs1).
  { intros a cs1 Ha ->. destruct (Hin a) as [d Hd]; [set_solver|]. by destruct Ha as [-> | ->]. }
  destruct Ho as (Hp & Hd & Hne).
  assert (Hmix : ∀ a, (a = "x" ∨ a = "X")%char → prefix = [] →
    digits ++ c :: more ++ tl = "0"%char :: a :: digits' → False).
  { intros a Ha Hpre E'. destruct Hd as [|d0 d digits ds H0 Hd]; [done|]. cbn [app] in E'. injection E' as -> E'.
    destruct Hd as [|d1 d' digits ds H1 Hd]; cbn [app] in E'; injection E' as -> E'.
    - destruct (Hx Hpre eq_refl). by destruct Ha as [-> | ->].
    - by destruct Ha as [-> | ->]. }
  destruct Hp as [->|[->| ->]], Hp' as [->|[->| ->]]; cbn [app] in E.
  - by apply (Hno digits (more ++ tl)).
  - by apply (Hmix "x"%char); [left|..].
  - by apply (Hmix "X"%char); [right|..].
  - by apply (Hnx "x"%char (digits ++ c :: more ++ tl)); [left|].
  - injection E as E. by apply (Hno digits (more ++ tl)).
  - done.
  - by apply (Hnx "X"%char (digits ++ c :: more ++ tl)); [right|].
  - done.
  - injection E as E. by apply (Hno digits (more ++ tl)).
Qed.

Lemma scan_sign_inv w cs neg w' cs' :
  scan_sign w cs = (neg, w', cs') →
  ∃ sign, cs = sign ++ cs' ∧ (sign = [] ∨ sign = ["+"%char] ∨ sign = ["-"%char]) ∧
    w' = (w - List.length sign)%nat ∧ neg = bool_decide (sign = ["-"%char]).
Proof.
  destruct cs as [|c cs]; cbn [scan_sign]; [intros [= <- <- <-]; exists []|].
  { split_and!; [done|by left|cbn; lia|done]. }
  destruct (Ascii.eqb_spec c "-") as [->|]; [intros [= <- <- <-]; exists ["-"%char]|].
  { split_and!; [done|by right; right|cbn; lia|done]. }
  destruct (Ascii.eqb_spec c "+") as [->|]; intros [= <- <- <-]; [exists ["+"%char]|exists []].
  - split_and!; [done|by right; left|cbn; lia|done].
  - split_and!; [done|by left|cbn; lia|done].
Qed.

Lemma scan_prefix_inv w cs w' cs' :
  scan_prefix w cs = (w', cs') →
  ∃ prefix, cs = prefix ++ cs' ∧ (prefix = [] ∨ prefix = ["0"; "x"]%char ∨ prefix = ["0"; "X"]%char) ∧
    w' = (w - List.length prefix)%nat ∧
    (prefix = [] → (1 < w)%nat → ∀ c more, cs = "0"%char :: c :: more →
       Ascii.eqb c "x" = false ∧ Ascii.eqb c "X" = false).
Proof.
  assert (Hnone : (∀ c more, cs = "0"%char :: c :: more → (1 < w)%nat →
      Ascii.eqb c "x" = false ∧ Ascii.eqb c "X" = false) → (w, cs) = (w', cs') →
    ∃ prefix, cs = prefix ++ cs' ∧ (prefix = [] ∨ prefix = ["0"; "x"]%char ∨ prefix = ["0"; "X"]%char) ∧
      w' = (w - List.length prefix)%nat ∧ (prefix = [] → (1 < w)%nat → ∀ c more, cs = "0"%char :: c :: more →
       Ascii.eqb c "x" = false ∧ Ascii.eqb c "X" = false)).
  { intros H [= <- <-]. exists []. split_and!; [done|by left|cbn; lia|]. intros _ ????. by eapply H. }
  destruct w as [|[|w]]; cbn [scan_prefix]; [apply Hnone; intros; lia..|].
  destruct cs as [|a [|b cs]]; [by apply Hnone..|].
  destruct (Ascii.eqb_spec a "0") as [->|Ha]; cbn [andb]; [|apply Hnone; by intros c more [= -> -> _]].
  destruct (Ascii.eqb b "x" || Ascii.eqb b "X") eqn:Eb.
  - intros [= <- <-]. apply orb_true_iff in Eb as [->%Ascii.eqb_eq| ->%Ascii.eqb_eq].
    + exists ["0"; "x"]%char. split_and!; [done|by right; left|cbn; lia|done].
    + exists ["0"; "X"]%char. split_and!; [done|by right; right|cbn; lia|done].
  - apply Hnone. intros c more [= <- _] _. by apply orb_false_iff in Eb.
Qed.

Lemma scanned_longest w cs n rest :
  scan_numeral w cs = Some (n, rest) → longest_numeral (Some w) cs n rest.
Proof.
  unfold scan_numeral. destruct (scan_sign w cs) as [[neg w1] cs1] eqn:E1.
  apply scan_sign_inv in E1 as (sign & -> & Hs & -> & ->).
  destruct (scan_prefix _ cs1) as [w2 cs2] eqn:E2.
  apply scan_prefix_inv in E2 as (prefix & -> & Hp & -> & Hx).
  destruct (take_hex_split (w - List.length sign - List.length prefix) cs2) as (digits & rest' & Hcs & Hd & Hl & Hr & Hend).
  destruct (take_hex _ cs2) as [|d ds] eqn:Et; [done|]. intros E. injection E as <- E.
  assert (Hrest : rest = rest') by by rewrite Hr, <-E. clear E Hr Et. subst rest' cs2.
  assert (Hpos : (0 < List.length digits)%nat) by (rewrite (Forall2_length _ _ _ Hd); cbn; lia).
  exists (sign ++ prefix ++ digits). split_and!; [by rewrite <-!(assoc_L (++))| | |].
  - by exists sign, prefix, digits, (d :: ds).
  - cbn [fits]. rewrite !length_app. lia.
  - intros more rest'' -> Hmore Hfit. cbn [fits] in Hfit. destruct more as [|c more]; [done|].
    rewrite !length_app in Hfit. cbn [List.length] in Hfit.
    apply (no_longer sign prefix digits (d :: ds)); [done|done| |].
    + destruct Hend as [Hend|Hend]; [lia|by apply Hend].
    + intros -> ->. cbn [app List.length] in *. by apply (Hx eq_refl ltac:(lia) c (more ++ rest'')).
Qed.

(** ** Printed numbers are read back *)

Lemma match_text_app s t : match_text s (String.list_ascii_of_string (s +:+ t)) = Some (String.list_ascii_of_string t).
Proof. induction s as [|c s IH]; [by destruct t|].
  change (match_text (String c s) (c :: String.list_ascii_of_string (s +:+ t)) =
    Some (String.list_ascii_of_string t)).
  cbn [match_text]. by rewrite Ascii.eqb_refl. Qed.

(** Digits that are printed, in capital letters. *)
Lemma hex_digit_upper d : 0 ≤ d < 16 →
  let c := to_upper (digit_char d) in
  hex_digit c = Some d ∧ is_space c = false ∧ Ascii.eqb c "-" = false ∧ Ascii.eqb c "+" = false ∧
  Ascii.eqb c "x" = false ∧ Ascii.eqb c "X" = false.
Proof.
  apply (digit_cases (λ d, let c := to_upper (digit_char d) in
    hex_digit c = Some d ∧ is_space c = false ∧ Ascii.eqb c "-" = false ∧ Ascii.eqb c "+" = false ∧
    Ascii.eqb c "x" = false ∧ Ascii.eqb c "X" = false)); by vm_compute.
Qed.

(** Four digits are read back, whatever follows them. *)
Lemma scan_upper n rest : 0 ≤ n < 65536 →
  scan_hex_rest (Some 4%nat) ((to_upper <$> String.list_ascii_of_string (fmt_x 4 n)) ++ rest) = Some (n, rest).
Proof.
  intros Hn. rewrite fmt_x_digs; [|lia|done]. unfold of_digits.
  rewrite String.list_ascii_of_string_of_list_ascii.
  pose proof (Forall_digs 16 4 n ltac:(lia)) as Hd. pose proof (value_digs 4 n Hn) as Hv.
  pose proof (length_digs 16 4 n) as Hl. revert Hd Hv Hl. generalize (digs 16 4 n). intros ds Hd Hv Hl.
  destruct ds as [|a [|b [|c [|d [|]]]]]; try done. clear Hl.
  rewrite !Forall_cons in Hd. destruct Hd as (Ha & Hb & Hc & Hd & _).
  destruct (hex_digit_upper a Ha) as (Da & Sa & Ma & Pa & _). destruct (hex_digit_upper b Hb) as (Db & _ & _ & _ & Xb & Yb).
  destruct (hex_digit_upper c Hc) as (Dc & _). destruct (hex_digit_upper d Hd) as (Dd & _).
  unfold scan_hex_rest. cbn [fmap list_fmap app skip_space]. rewrite Sa. cbn [scan_sign]. rewrite Ma, Pa.
  cbn [scan_prefix]. rewrite Xb, Yb, andb_false_r. cbn [take_hex]. rewrite Da, Db, Dc, Dd.
  by rewrite Hv.
Qed.

Lemma match_text_chars s cs : match_text s (String.list_ascii_of_string s ++ cs) = Some cs.
Proof. induction s as [|c s IH]; [by destruct cs|]. cbn. by rewrite Ascii.eqb_refl. Qed.

(** ** The directives one by one *)

Lemma longest_unbounded cs n rest :
  longest_numeral None cs n rest ↔ longest_numeral (Some (List.length cs)) cs n rest.
Proof.
  split; intros (item & -> & Hi & Hw & Hmax); exists item; (split_and!; [done|done| |]);
    cbn [fits] in *; [rewrite length_app; lia| |done|]; intros more rest' -> Hmore Hfit; apply (Hmax more rest');
    try done; rewrite !length_app; lia.
Qed.

Lemma longest_head w cs n rest c :
  longest_numeral w cs n rest → head cs = Some c → is_space c = false.
Proof.
  intros (item & -> & (sign & prefix & digits & ds & -> & Hs & Hp & Hd & Hne & _) & _). rewrite <-!(assoc_L (++)).
  destruct Hs as [->|[->| ->]]; [|by intros [= <-]..]. cbn [app]. intros Hc.
  by apply (digits_head prefix digits ds) in Hc as (? & _).
Qed.

(** The conversion is the one of the standard. *)
Lemma scan_hex_rest_item w cs n rest :
  scan_hex_rest w cs = Some (n, rest) ↔ hex_item w cs n rest.
Proof.
  rewrite scan_hex_rest_numeral. transitivity (longest_numeral w (skip_space cs) n rest).
  - destruct w as [w|]; [split; [apply scanned_longest|apply longest_scanned]|].
    rewrite longest_unbounded. split; [apply scanned_longest|apply longest_scanned].
  - split.
    + intros H. destruct (skip_space_split cs) as (blanks & E & Hb). by exists blanks, (skip_space cs).
    + intros (blanks & cs' & -> & Hb & H). rewrite skip_blanks; [done|done|].
      intros c. by apply (longest_head w cs' n rest).
Qed.

(** Ordinary characters. *)
Lemma match_text_split s cs cs' :
  match_text s cs = Some cs' ↔ cs = String.list_ascii_of_string s ++ cs'.
Proof.
  split; [|intros ->; apply match_text_chars]. revert cs. induction s as [|a s IH]; intros cs; cbn [match_text].
  - destruct cs; by intros [= <-].
  - destruct cs as [|c cs]; [done|]. destruct (Ascii.eqb_spec a c) as [->|]; [|done]. intros H. cbn. f_equal. by apply IH.
Qed.

(** [%*[^c]] takes at least one character. *)
Lemma skip_until_split c cs : ∃ skipped, cs = skipped ++ skip_until c cs ∧ c ∉ skipped ∧
  (∀ a, head (skip_until c cs) = Some a → a = c).
Proof.
  induction cs as [|a cs (skipped & IH & Hn & Hh)]; [by exists []; split_and!; [|apply not_elem_of_nil|]|].
  cbn [skip_until]. destruct (Ascii.eqb_spec a c) as [->|Ha].
  - exists []. split_and!; [done|apply not_elem_of_nil|by intros ? [= <-]].
  - exists (a :: skipped). split_and!; [cbn [app]; by f_equal|set_solver|done].
Qed.

Lemma skip_until_app c skipped cs :
  c ∉ skipped → skip_until c (skipped ++ c :: cs) = c :: cs.
Proof.
  induction skipped as [|a skipped IH]; cbn [app skip_until]; [by rewrite Ascii.eqb_refl|].
  intros [Ha Hs]%not_elem_of_cons. destruct (Ascii.eqb_spec a c) as [->|]; [done|]. by apply IH.
Qed.
