(* ===== verification/WindowsOS.v ===== *)
(** * WindowsOS: SetupAPI, the registry and WinUSB as the Windows code sees them

    [WindowsOS] collects the answers of the system; an answer can depend on everything
    that happened before.  A device node ([DEVINST], and the [SP_DEVINFO_DATA] of it) is
    a number; device information sets, registry keys, files, WinUSB handles and
    events are blocks that have to be released.  [GetLastError()] is the [x_errno] of
    the external state.  [WindowsLaws] states the documented behaviour that the code
    relies on. *)

From S2P Require Import Prelude Memory Logic Errors Results Buffers.
#[local] Set Warnings "-rewrite-rw".

(** ** Constants *)

Definition ERROR_SUCCESS : Z := 0.
Definition ERROR_FILE_NOT_FOUND : Z := 2.
Definition ERROR_ACCESS_DENIED : Z := 5.
Definition ERROR_INVALID_HANDLE : Z := 6.
Definition ERROR_NOT_ENOUGH_MEMORY : Z := 8.
Definition ERROR_INVALID_DATA : Z := 13.
Definition ERROR_OUTOFMEMORY : Z := 14.
Definition ERROR_GEN_FAILURE : Z := 31.
Definition ERROR_SEM_TIMEOUT : Z := 121.
Definition ERROR_INSUFFICIENT_BUFFER : Z := 122.
Definition ERROR_MORE_DATA : Z := 234.
Definition ERROR_NO_MORE_ITEMS : Z := 259.
Definition ERROR_OPERATION_ABORTED : Z := 995.
Definition ERROR_IO_INCOMPLETE : Z := 996.
Definition ERROR_IO_PENDING : Z := 997.
Definition REG_SZ : Z := 1.
Definition REG_MULTI_SZ : Z := 7.
Definition CR_SUCCESS : Z := 0.
Definition CR_BUFFER_SMALL : Z := 0x1a.
Definition MAX_DEVICE_ID_LEN : Z := 200.
Definition INVALID_HANDLE_VALUE : HANDLE := None.

Definition is_valid (h : HANDLE) : bool := match h with Some _ => true | None => false end.

(** What an overlapped read came to: its code, [ERROR_SUCCESS] if it succeeded, the
    number of bytes that is reported, and what was written to the buffer. *)
Record overlapped_result := {
  o_code : Z;
  o_transferred : Z;
  o_data : list ascii
}.

(** Answers that are an error code instead of a value are on the right; [option Z] is
    the error code of a call that has no other answer. *)
Class WindowsOS := {
  win_message : Z → string;
  win_class_devs : list event → device_class → list Z + Z;
  win_enum_failure : list event → Z → option Z;
  win_instance_id : list event → Z → string + Z;
  win_property : list event → Z → node_property → Z * list ascii + Z;
  win_locate : list event → string → Z + Z;
  win_parent : list event → Z → Z + Z;
  win_device_id : list event → Z → string + Z;
  win_same_ignoring_case : string → string → bool;
  win_open_key : list event → Z → option Z;
  win_guids : list event → Z → Z * list ascii + Z;
  win_iid : list ascii → Z + Z;
  win_port_name : list event → Z → Z * list ascii + Z;
  win_interface : list event → Z → Z → option Z;
  win_interface_path : list event → Z → Z → string + Z;
  win_create_file : list event → string → option Z;
  win_initialize : list event → string → option Z;
  win_set_policy : list event → string → Z → pipe_policy → option Z;
  win_control : list event → string → WINUSB_SETUP_PACKET → option Z * Z * list ascii;
  win_read : list event → string → Z → Z → option Z * Z * list ascii;
  win_write : list event → string → Z → list (option ascii) → option Z * Z;
  win_read_overlapped : list event → Z → Z → loc → Z → overlapped_result;
  win_overlapped : list event → Z → loc → overlapped_result;
  win_abort : list event → string → Z → option Z;
  win_create_event : list event → option Z
}.

(** A UTF-16 string in a buffer, little endian, up to its terminating zero: its bytes.
    [None] when an uninitialised byte or the end of the buffer comes before it. *)
Fixpoint scan_wide (cs : list (option ascii)) : option (list ascii) :=
  match cs with
  | Some a :: Some b :: cs =>
      if bool_decide (a = nul ∧ b = nul) then Some [] else ([a; b] ++.) <$> scan_wide cs
  | _ => None
  end.

(** The size of the details of a device interface: a [DWORD] and the path with its NUL. *)
Definition offset_DevicePath : Z := 4.
Definition sizeof_detail (path : string) : Z := offset_DevicePath + (slen path + 1).

(** Documented behaviour: messages are text of at most 255 bytes that fit the buffer
    given to FormatMessage; nodes are numbered, and sizes are given, with 32 bits; a buffer
    that is too small is the only reason for ERROR_INSUFFICIENT_BUFFER when a path is
    asked for; error codes are not the code for success; no more data is returned than was asked
    for. *)
Class WindowsLaws (OS : WindowsOS) : Prop := {
  message_text n : no_nul (win_message n) = true ∧ slen (win_message n) < 256;
  class_devs_count h c nodes :
    win_class_devs h c = inl nodes → Z.of_nat (List.length nodes) ≤ UINT32_MAX;
  property_size h node p ty bytes :
    win_property h node p = inl (ty, bytes) → Z.of_nat (List.length bytes) ≤ UINT32_MAX;
  interface_path_size h node guid path :
    win_interface_path h node guid = inl path → sizeof_detail path ≤ UINT32_MAX;
  interface_path_error h node guid : win_interface_path h node guid ≠ inr ERROR_INSUFFICIENT_BUFFER;
  locate_error h id cr : win_locate h id = inr cr → cr ≠ CR_SUCCESS;
  parent_error h node cr : win_parent h node = inr cr → cr ≠ CR_SUCCESS;
  device_id_error h node cr : win_device_id h node = inr cr → cr ≠ CR_SUCCESS;
  guids_error h node code : win_guids h node = inr code → code ≠ ERROR_SUCCESS;
  port_name_error h node code : win_port_name h node = inr code → code ≠ ERROR_SUCCESS;
  iid_error text hr : win_iid text = inr hr → Z.testbit hr 31 = true;
  guids_size h node ty bytes :
    win_guids h node = inl (ty, bytes) → Z.of_nat (List.length bytes) ≤ UINT32_MAX;
  win_control_length h path packet : 0 ≤ packet_Length packet →
    Z.of_nat (List.length (win_control h path packet).2) ≤ packet_Length packet;
  win_read_length h path pipe size : 0 ≤ size →
    Z.of_nat (List.length (win_read h path pipe size).2) ≤ size;
  overlapped_length h key l len :
    outstanding h key !! l = Some len → 0 ≤ len →
    Z.of_nat (List.length (o_data (win_overlapped h key l))) ≤ len;
  overlapped_transferred h key l : 0 ≤ o_transferred (win_overlapped h key l) ≤ UINT32_MAX;
  read_overlapped_length h key pipe l size : 0 ≤ size →
    Z.of_nat (List.length (o_data (win_read_overlapped h key pipe l size))) ≤ size;
  read_overlapped_transferred h key pipe l size :
    0 ≤ o_transferred (win_read_overlapped h key pipe l size) ≤ UINT32_MAX
}.

(** Assumptions that Windows does not make true.  Each is a class of its own, and what
    needs it says so.

    A property of a device keeps its type and data between the call that asks for its
    size and the call that reads it.  Nothing prevents a change in between, and the
    code does not look for one. *)
Class PropertiesStable (OS : WindowsOS) : Prop :=
  property_stable h node p :
    win_property (EvWin (WinPropertySize node p) :: h) node p = win_property h node p.

(** The strings that the code reads from the registry are terminated.  The documentation of
    the registry says that the zeros may be missing when whoever wrote the string did not
    store them; the code does not check, and then reads on behind the data. *)
Class ServicesTerminated (OS : WindowsOS) : Prop :=
  service_terminated h node bytes :
    win_property h node ServiceName = inl (REG_SZ, bytes) → nul ∈ bytes.
Class GuidsTerminated (OS : WindowsOS) : Prop :=
  guids_terminated h node bytes :
    win_guids h node = inl (REG_MULTI_SZ, bytes) → is_Some (scan_wide (Some <$> bytes)).
Class PortNamesTerminated (OS : WindowsOS) : Prop :=
  port_name_terminated h node bytes :
    win_port_name h node = inl (REG_SZ, bytes) → nul ∈ bytes.

Definition is_set (o : obj) : bool := match o with ODevInfoSet _ => true | _ => false end.
Definition as_set (o : obj) : option (list Z) := match o with ODevInfoSet ns => Some ns | _ => None end.
Definition is_key (o : obj) : bool := match o with ORegKey _ => true | _ => false end.
Definition as_key (o : obj) : option Z := match o with ORegKey n => Some n | _ => None end.
Definition as_file (o : obj) : option string := match o with OFile path => Some path | _ => None end.
Definition is_winusb (o : obj) : bool := match o with OWinUsb _ => true | _ => false end.
Definition as_winusb (o : obj) : option string := match o with OWinUsb path => Some path | _ => None end.
(** What [CloseHandle] closes. *)
Definition is_handle (o : obj) : bool := match o with OFile _ | OEvent => true | _ => false end.

Section os.
Context `{OS : WindowsOS}.

Definition log_win (ev : win_event) : M unit := log_event (EvWin ev).

Definition GetLastError : M Z := get_errno.
Definition SetLastError (code : Z) : M unit := set_errno code.

(** Functions that return FALSE, or a value that says so, set the last error. *)
Definition win_result {A} (r : A + Z) : M (option A) :=
  match r with
  | inl a => mret (Some a)
  | inr code => SetLastError code;; mret None
  end.
Definition win_success (r : option Z) : M bool :=
  match r with
  | None => mret true
  | Some code => SetLastError code;; mret false
  end.

(** The object behind a handle that was opened. *)
Definition load_handle {A} (proj : obj → option A) (h : HANDLE) : M A :=
  match h with Some p => load_as proj p | None => stuck WildPointer end.

(** A new object and its handle. *)
Definition new_handle (o : obj) : M HANDLE := p ← new_block o; mret (Some p).

(** A buffer of [n] bytes that holds [bytes] and is not initialised behind them. *)
Definition local_buffer (n : nat) (bytes : list ascii) : list (option ascii) :=
  (Some <$> bytes) ++ replicate (n - List.length bytes) None.

(** The string in a local array. *)
Definition local_string (cs : list (option ascii)) : M string :=
  match scan cs with Some s => mret s | None => stuck Uninitialised end.

(** ** SetupAPI *)

Definition SetupDiGetClassDevs (c : device_class) : M HANDLE :=
  h ← get_trace;
  log_win (WinClassDevs c);;
  nodes ← win_result (win_class_devs h c);
  match nodes with
  | Some nodes => new_handle (ODevInfoSet nodes)
  | None => mret INVALID_HANDLE_VALUE
  end.

Definition SetupDiDestroyDeviceInfoList (devs : HANDLE) : M unit :=
  match devs with
  | Some p => release is_set p
  | None => SetLastError ERROR_INVALID_HANDLE
  end.

(** The node with the number [index]. *)
Definition SetupDiEnumDeviceInfo (devs : HANDLE) (index : Z) : M (option Z) :=
  match devs with
  | None => SetLastError ERROR_INVALID_HANDLE;; mret None
  | Some p =>
      nodes ← load_as as_set p;
      h ← get_trace;
      log_win (WinEnumDevice index);;
      win_result (match win_enum_failure h index, nodes !! Z.to_nat index with
                  | Some code, _ => inr code
                  | None, Some node => inl node
                  | None, None => inr ERROR_NO_MORE_ITEMS
                  end)
  end.

(** The ID that is written to a buffer of [MAX_DEVICE_ID_LEN + 1] bytes. *)
Definition fitting_id (r : string + Z) : string + Z :=
  match r with
  | inl id => if slen (until_nul id) <=? MAX_DEVICE_ID_LEN then inl (until_nul id)
              else inr ERROR_INSUFFICIENT_BUFFER
  | inr code => inr code
  end.

Definition SetupDiGetDeviceInstanceId (devs : HANDLE) (node : Z) : M (option string) :=
  load_handle as_set devs;;
  h ← get_trace;
  log_win (WinInstanceId node);;
  win_result (fitting_id (win_instance_id h node)).

(** [SetupDiGetDeviceRegistryProperty(list, info, p, &type, NULL, 0, &size)]: whether
    it succeeded, and the type and the size; both are 0 before. *)
Definition SetupDiGetDeviceRegistryProperty_size (devs : HANDLE) (node : Z) (p : node_property) :
    M (bool * Z * Z) :=
  load_handle as_set devs;;
  h ← get_trace;
  log_win (WinPropertySize node p);;
  match win_property h node p with
  | inl (ty, bytes) =>
      let size := Z.of_nat (List.length bytes) in
      if size =? 0 then mret (true, ty, 0)
      else SetLastError ERROR_INSUFFICIENT_BUFFER;; mret (false, ty, to_u32 size)
  | inr code => SetLastError code;; mret (false, 0, 0)
  end.

(** The data for a buffer of [size] bytes, with its type. *)
Definition property_data (devs : HANDLE) (node : Z) (p : node_property) (size : Z) :
    M (option (Z * list ascii)) :=
  load_handle as_set devs;;
  h ← get_trace;
  log_win (WinProperty node p);;
  win_result (match win_property h node p with
              | inl (ty, bytes) => if Z.of_nat (List.length bytes) <=? size then inl (ty, bytes)
                                   else inr ERROR_INSUFFICIENT_BUFFER
              | inr code => inr code
              end).

(** [SetupDiGetDeviceRegistryProperty] with a buffer: the type, when it succeeds. *)
Definition SetupDiGetDeviceRegistryProperty (devs : HANDLE) (node : Z) (p : node_property)
    (buffer : ptr) (size : Z) : M (option Z) :=
  r ← property_data devs node p size;
  match r with
  | Some (ty, bytes) => write_chars buffer 0 (Some <$> bytes);; mret (Some ty)
  | None => mret None
  end.

(** The same with a local array of [n] bytes. *)
Definition SetupDiGetDeviceRegistryProperty_local (devs : HANDLE) (node : Z) (p : node_property)
    (n : nat) : M (option (Z * list (option ascii))) :=
  r ← property_data devs node p (Z.of_nat n);
  match r with
  | Some (ty, bytes) => mret (Some (ty, local_buffer n bytes))
  | None => mret None
  end.

(** ** Configuration manager: the [CONFIGRET] and the value *)

Definition cr_result {A} (dflt : A) (r : A + Z) : Z * A :=
  match r with inl a => (CR_SUCCESS, a) | inr cr => (cr, dflt) end.

(** The ID that is written to a buffer of [MAX_DEVICE_ID_LEN + 1] bytes. *)
Definition fitting_device_id (r : string + Z) : string + Z :=
  match r with
  | inl id => if slen (until_nul id) <=? MAX_DEVICE_ID_LEN then inl (until_nul id)
              else inr CR_BUFFER_SMALL
  | inr cr => inr cr
  end.

Definition CM_Locate_DevNode (id : string) : M (Z * Z) :=
  h ← get_trace; log_win (WinLocate id);; mret (cr_result 0 (win_locate h id)).
Definition CM_Get_Parent (node : Z) : M (Z * Z) :=
  h ← get_trace; log_win (WinParent node);; mret (cr_result 0 (win_parent h node)).
Definition CM_Get_Device_ID (node : Z) : M (Z * string) :=
  h ← get_trace; log_win (WinDeviceId node);; mret (cr_result "" (fitting_device_id (win_device_id h node))).

(** ** The registry *)

Definition SetupDiOpenDevRegKey (devs : HANDLE) (node : Z) : M HANDLE :=
  load_handle as_set devs;;
  h ← get_trace;
  log_win (WinOpenKey node);;
  ok ← win_success (win_open_key h node);
  if ok : bool then new_handle (ORegKey node) else mret INVALID_HANDLE_VALUE.

Definition RegCloseKey (key : HANDLE) : M unit :=
  match key with Some p => release is_key p | None => stuck WildPointer end.

(** [RegQueryValueExW(key, L"DeviceInterfaceGUIDs", ...)] for the size. *)
Definition RegQueryValue_guids_size (key : HANDLE) : M (Z * Z) :=
  node ← load_handle as_key key;
  h ← get_trace;
  log_win (WinGuidsSize node);;
  mret (match win_guids h node with
        | inl (_, bytes) => (ERROR_SUCCESS, to_u32 (Z.of_nat (List.length bytes)))
        | inr code => (code, 0)
        end).

(** The same for the data: the result and the type. *)
Definition RegQueryValue_guids (key : HANDLE) (buffer : ptr) (size : Z) : M (Z * Z) :=
  node ← load_handle as_key key;
  h ← get_trace;
  log_win (WinGuids node);;
  match win_guids h node with
  | inl (ty, bytes) =>
      if Z.of_nat (List.length bytes) <=? size then
        write_chars buffer 0 (Some <$> bytes);; mret (ERROR_SUCCESS, ty)
      else mret (ERROR_MORE_DATA, ty)
  | inr code => mret (code, 0)
  end.

(** [RegQueryValueEx(key, "PortName", ...)] with an array of [n] bytes. *)
Definition RegQueryValue_port_name (key : HANDLE) (n : nat) : M (Z * Z * list (option ascii)) :=
  node ← load_handle as_key key;
  h ← get_trace;
  log_win (WinPortName node);;
  mret (match win_port_name h node with
        | inl (ty, bytes) =>
            if (List.length bytes <=? n)%nat then (ERROR_SUCCESS, ty, local_buffer n bytes)
            else (ERROR_MORE_DATA, ty, replicate n None)
        | inr code => (code, 0, replicate n None)
        end).

(** [IIDFromString(guids, guid)]: the [HRESULT] and the GUID. *)
Definition IIDFromString (guids : ptr) : M (Z * Z) :=
  cs ← load_as as_chars guids;
  match scan_wide cs with
  | Some text => mret (match win_iid text with inl guid => (0, guid) | inr hr => (hr, 0) end)
  | None => stuck OutOfBounds
  end.

(** [FAILED(hr)] for the bits of an [HRESULT]. *)
Definition FAILED (hr : Z) : bool := Z.testbit hr 31.

(** [CompareString(LOCALE_INVARIANT, NORM_IGNORECASE, ...) == CSTR_EQUAL]. *)
Definition CompareString (s : ptr) (t : string) : M bool :=
  s ← read_cstr s; mret (win_same_ignoring_case s t).

(** ** Device interfaces *)

Definition SetupDiEnumDeviceInterfaces (devs : HANDLE) (node guid : Z) : M bool :=
  load_handle as_set devs;;
  h ← get_trace;
  log_win (WinInterface node guid);;
  win_success (win_interface h node guid).

(** [SetupDiGetDeviceInterfaceDetail]: the size of the details, and the details; whoever
    asks for them has stored a size in the [DWORD]. *)
Definition SetupDiGetDeviceInterfaceDetail_size (devs : HANDLE) (node guid : Z) : M (bool * Z) :=
  load_handle as_set devs;;
  h ← get_trace;
  log_win (WinInterfaceSize node guid);;
  match win_interface_path h node guid with
  | inl path => SetLastError ERROR_INSUFFICIENT_BUFFER;; mret (false, to_u32 (sizeof_detail path))
  | inr code => SetLastError code;; mret (false, 0)
  end.

Definition SetupDiGetDeviceInterfaceDetail (devs : HANDLE) (node guid : Z) (buffer : ptr) (size : Z) :
    M bool :=
  load_handle as_set devs;;
  h ← get_trace;
  log_win (WinInterfaceDetail node guid);;
  path ← win_result (match win_interface_path h node guid with
                     | inl path => if sizeof_detail path <=? size then inl (until_nul path)
                                   else inr ERROR_INSUFFICIENT_BUFFER
                     | inr code => inr code
                     end);
  match path with
  | Some path => write_chars buffer offset_DevicePath (cstr path);; mret true
  | None => mret false
  end.

(** ** Files, WinUSB and events *)

Definition CreateFile (path : ptr) : M HANDLE :=
  path ← read_cstr path;
  h ← get_trace;
  log_win (WinCreateFile path);;
  ok ← win_success (win_create_file h path);
  if ok : bool then new_handle (OFile path) else mret INVALID_HANDLE_VALUE.

Definition CreateEvent : M HANDLE :=
  h ← get_trace;
  log_win WinCreateEvent;;
  ok ← win_success (win_create_event h);
  if ok : bool then new_handle OEvent else mret (Some NULL).

Definition CloseHandle (handle : HANDLE) : M unit :=
  match handle with
  | None | Some NULL => SetLastError ERROR_INVALID_HANDLE
  | Some p => release is_handle p
  end.

(** The handle, if it succeeds. *)
Definition WinUsb_Initialize (file : HANDLE) : M (option HANDLE) :=
  path ← load_handle as_file file;
  h ← get_trace;
  log_win (WinInitialize path);;
  ok ← win_success (win_initialize h path);
  if ok : bool then handle ← new_handle (OWinUsb path); mret (Some handle) else mret None.

Definition WinUsb_Free (handle : HANDLE) : M unit :=
  path ← load_handle as_winusb handle;
  log_win (WinFree path);;
  match handle with Some p => release is_winusb p | None => stuck WildPointer end.

Definition WinUsb_SetPipePolicy (handle : HANDLE) (pipe : Z) (policy : pipe_policy) : M bool :=
  path ← load_handle as_winusb handle;
  h ← get_trace;
  log_win (WinSetPolicy path pipe policy);;
  win_success (win_set_policy h path pipe policy).

(** Whether it succeeded and the number of bytes; bit 7 of the request type is the
    direction. *)
Definition WinUsb_ControlTransfer (handle : HANDLE) (packet : WINUSB_SETUP_PACKET) (buffer : ptr) :
    M (bool * Z) :=
  path ← load_handle as_winusb handle;
  h ← get_trace;
  let '(code, transferred, data) := win_control h path packet in
  (if Z.testbit (packet_RequestType packet) 7 then
     copy_to_user buffer data;;
     log_win (WinControl path packet [])
   else
     sent ← copy_from_user buffer (packet_Length packet);
     log_win (WinControl path packet sent));;
  ok ← win_success code;
  mret (ok, transferred).

Definition WinUsb_ReadPipe (handle : HANDLE) (pipe : Z) (buffer : ptr) (size : Z) : M (bool * Z) :=
  path ← load_handle as_winusb handle;
  h ← get_trace;
  let '(code, transferred, data) := win_read h path pipe size in
  copy_to_user buffer data;;
  log_win (WinRead path pipe size);;
  ok ← win_success code;
  mret (ok, transferred).

Definition WinUsb_WritePipe (handle : HANDLE) (pipe : Z) (buffer : ptr) (size : Z) : M (bool * Z) :=
  path ← load_handle as_winusb handle;
  h ← get_trace;
  sent ← copy_from_user buffer size;
  let '(code, transferred) := win_write h path pipe sent in
  log_win (WinWrite path pipe sent);;
  ok ← win_success code;
  mret (ok, transferred).

Definition WinUsb_AbortPipe (handle : HANDLE) (pipe : Z) : M bool :=
  path ← load_handle as_winusb handle;
  h ← get_trace;
  log_win (WinAbort path pipe);;
  win_success (win_abort h path pipe).

(** ** Overlapped reads

    The number of the handle's block tells the reads of different handles apart.  A
    read that does not complete at once is pending; its data are in its buffer when
    its result is. *)

Definition handle_key (handle : HANDLE) : M Z :=
  match handle with
  | Some (Heap l) => load_as as_winusb (Heap l);; mret (Z.pos l)
  | _ => stuck WildPointer
  end.

(** [WinUsb_ReadPipe(handle, pipe, buffer, size, &transfer->transferred,
    &transfer->overlapped)]: what it returns, and [transferred] when it completed. *)
Definition WinUsb_ReadPipe_overlapped (handle : HANDLE) (pipe : Z) (buffer : ptr) (size : Z)
    (transfer : ptr) : M (bool * option Z) :=
  key ← handle_key handle;
  h ← get_trace;
  match transfer with
  | Heap l =>
      let o := win_read_overlapped h key pipe l size in
      let pending := o_code o =? ERROR_IO_PENDING in
      (if pending then mret tt else copy_to_user buffer (o_data o));;
      log_event (EvSubmit key l pipe size buffer pending);;
      if o_code o =? ERROR_SUCCESS then mret (true, Some (o_transferred o))
      else SetLastError (o_code o);; mret (false, None)
  | _ => stuck WildPointer
  end.

(** [WinUsb_GetOverlappedResult(handle, &transfer->overlapped, &transferred, false)]:
    whether it succeeded, and [transferred]. *)
Definition WinUsb_GetOverlappedResult (handle : HANDLE) (buffer : ptr) (transfer : ptr) : M (bool * Z) :=
  key ← handle_key handle;
  h ← get_trace;
  match transfer with
  | Heap l =>
      let o := win_overlapped h key l in
      if o_code o =? ERROR_IO_INCOMPLETE then
        log_event (EvReap key None);;
        SetLastError ERROR_IO_INCOMPLETE;; mret (false, o_transferred o)
      else
        copy_to_user buffer (o_data o);;
        log_event (EvReap key (Some l));;
        if o_code o =? ERROR_SUCCESS then mret (true, o_transferred o)
        else SetLastError (o_code o);; mret (false, o_transferred o)
  | _ => stuck WildPointer
  end.
End os.

(** ** Rules *)

Section rules.
Context `{OS : WindowsOS}.

(** One call of Windows, and its effect on the last error. *)
Definition win_ext (ev : win_event) (x : ext) : ext := Ext (EvWin ev :: x_trace x) (x_errno x) (x_oom x).
Definition with_error (code : Z) (x : ext) : ext := Ext (x_trace x) code (x_oom x).

Lemma calm_win ev x : calm x (win_ext ev x).
Proof. by apply calm_event. Qed.

Lemma calm_with_error code x : calm x (with_error code x).
Proof. done. Qed.

(** A handle that is open, with its object. *)
Definition handle_own (h : HANDLE) (o : obj) : hProp := (∃ l, ⟪h = Some (Heap l)⟫ ∗ l ↦ o)%I.

Lemma handle_own_valid h o : handle_own h o ⊢ ⌜is_valid h = true⌝ ∧ handle_own h o.
Proof. iIntros "H". iSplit; [|done]. by iDestruct "H" as (l) "[-> _]". Qed.

Lemma handle_own_intro l o : l ↦ o ⊢ handle_own (Some (Heap l)) o.
Proof. iIntros "H". iExists l. by iFrame. Qed.

Lemma wp_load_handle {A} (proj : obj → option A) h o a x Q :
  proj o = Some a → handle_own h o -∗ (handle_own h o -∗ Q a x) -∗ wp (load_handle proj h) x Q.
Proof.
  iIntros (Ho) "(%l & -> & Hl) HQ". iApply (wp_load_as with "Hl"); [done|]. iIntros "Hl".
  iApply "HQ". iExists l. by iFrame.
Qed.

Lemma wp_new_handle o x Q : (∀ h, handle_own h o -∗ Q h x) ⊢ wp (new_handle o) x Q.
Proof.
  iIntros "HQ". unfold new_handle. wp_step. iApply wp_new_block. iIntros (l) "Hl". wp_steps.
  iApply "HQ". by iApply handle_own_intro.
Qed.

Lemma wp_win_result {A} (r : A + Z) x Q :
  match r with inl a => Q (Some a) x | inr code => Q None (with_error code x) end ⊢
  wp (win_result r) x Q.
Proof. iIntros "H". destruct r; unfold win_result, SetLastError; by wp_steps. Qed.

Lemma wp_win_success r x Q :
  match r with None => Q true x | Some code => Q false (with_error code x) end ⊢
  wp (win_success r) x Q.
Proof. iIntros "H". destruct r; unfold win_success, SetLastError; by wp_steps. Qed.
End rules.

(** ** An example machine

    A composite device with a WinUSB interface and a serial port, and a device without
    usable hardware IDs. *)

Module Example_win.
Local Open Scope string_scope.
Local Open Scope Z_scope.

Definition composite_device : Z := 10.
Definition first_interface : Z := 11.
Definition serial_interface : Z := 12.
Definition other_device : Z := 13.
Definition interface_guid : Z := 7.
Definition interface_path : string := "\\?\usb#vid_1ffb&pid_da01&mi_00".

Definition ids : list (Z * string) :=
  [(composite_device, "USB\VID_1FFB&PID_DA01\00012345");
   (first_interface, "USB\VID_1FFB&PID_DA01&MI_00\6&1A2B3C4D&0&0000");
   (serial_interface, "USB\VID_1FFB&PID_DA01&MI_02\6&1A2B3C4D&0&0002");
   (other_device, "USB\UNKNOWN\5&1A2B3C4D&0&1")].

Fixpoint id_of (node : Z) (kvs : list (Z * string)) : string + Z :=
  match kvs with
  | [] => inr ERROR_INVALID_DATA
  | (k, id) :: kvs => if node =? k then inl id else id_of node kvs
  end.
Fixpoint node_of (wanted : string) (kvs : list (Z * string)) : Z + Z :=
  match kvs with
  | [] => inr 13
  | (node, id) :: kvs => if String.eqb id wanted then inl node else node_of wanted kvs
  end.

Lemma node_of_error wanted kvs cr : node_of wanted kvs = inr cr → cr = 13.
Proof. induction kvs as [|[node id] kvs IH]; cbn; [by intros [= <-]|]. by destruct (String.eqb id wanted). Qed.

Definition text (s : string) : list ascii := String.list_ascii_of_string s ++ [nul].
Definition wide (s : string) : list ascii := mjoin ((λ c, [c; nul]) <$> String.list_ascii_of_string s) ++ [nul; nul].

Definition hardware_ids : list ascii :=
  (text "USB\Vid_1ffb&Pid_da01&Rev_0111" ++ text "USB\Vid_1ffb&Pid_da01" ++ [nul])%list.

Definition property (node : Z) (p : node_property) : Z * list ascii + Z :=
  match p with
  | HardwareIds => if node =? composite_device then inl (REG_MULTI_SZ, hardware_ids) else inr ERROR_INVALID_DATA
  | ServiceName => if node =? first_interface then inl (REG_SZ, text "WinUSB") else inr ERROR_INVALID_DATA
  end.

Definition guids (node : Z) : Z * list ascii + Z :=
  if node =? first_interface then inl (REG_MULTI_SZ, (wide "{A}" ++ [nul; nul])%list) else inr ERROR_FILE_NOT_FOUND.
Definition port_name (node : Z) : Z * list ascii + Z :=
  if node =? serial_interface then inl (REG_SZ, text "COM4") else inr ERROR_FILE_NOT_FOUND.

Definition aborted (h : list event) : bool :=
  existsb (λ ev, match ev with EvWin (WinAbort _ _) => true | _ => false end) h.

(** Every finished read reports two bytes, even when its buffer is shorter. *)
Definition overlapped (h : list event) (key : Z) (l : loc) : overlapped_result :=
  if aborted h then {| o_code := ERROR_OPERATION_ABORTED; o_transferred := 0; o_data := [] |}
  else {| o_code := ERROR_SUCCESS; o_transferred := 2;
          o_data := take (Z.to_nat (default 0 (outstanding h key !! l))) ["o"%char; "k"%char] |}.

#[export] Instance machine : WindowsOS := {|
  win_message n := "An error. ";
  win_class_devs h c :=
    inl (match c with
         | UsbDevices => [other_device; composite_device]
         | UsbNodes => [other_device; composite_device; first_interface]
         | ComPorts => [serial_interface]
         | Modems => []
         | WithInterface guid => if guid =? interface_guid then [first_interface] else []
         end);
  win_enum_failure h i := None;
  win_instance_id h node := id_of node ids;
  win_property h node p := property node p;
  win_locate h id := node_of id ids;
  win_parent h node := inl (if (node =? first_interface) || (node =? serial_interface) then composite_device else 1);
  win_device_id h node := match id_of node ids with inl id => inl id | inr _ => inr 13 end;
  win_same_ignoring_case s t := String.eqb s "WinUSB" && String.eqb t "winusb";
  win_open_key h node := None;
  win_guids h node := guids node;
  win_iid bytes := if bool_decide (bytes = ["{"; nul; "A"; nul; "}"; nul]%char) then inl interface_guid
                   else inr 0x800401f3;
  win_port_name h node := port_name node;
  win_interface h node guid :=
    if (node =? first_interface) && (guid =? interface_guid) then None else Some ERROR_NO_MORE_ITEMS;
  win_interface_path h node guid := inl interface_path;
  win_create_file h path := None;
  win_initialize h path := None;
  win_set_policy h path pipe policy := None;
  win_control h path packet := (None, 0, []);
  win_read h path pipe size :=
    if 2 <=? size then (None, 2, ["o"%char; "k"%char]) else (Some ERROR_SEM_TIMEOUT, 0, []);
  win_write h path pipe sent := (None, Z.of_nat (List.length sent));
  win_read_overlapped h key pipe l size := {| o_code := ERROR_IO_PENDING; o_transferred := 0; o_data := [] |};
  win_overlapped := overlapped;
  win_abort h path pipe := None;
  win_create_event h := None
|}.

#[export] Instance machine_laws : WindowsLaws machine.
Proof.
  split.
  - done.
  - intros h c nodes [= <-]. destruct c; cbn; try (unfold UINT32_MAX; lia). case_match; cbn; unfold UINT32_MAX; lia.
  - intros h node p ty bytes. cbn [machine win_property]. unfold property. repeat case_match; intros [= <- <-]; vm_compute; congruence.
  - intros h node guid path [= <-]. vm_compute. congruence.
  - done.
  - intros h id cr H. by rewrite (node_of_error _ _ _ H).
  - done.
  - intros h node cr. cbn [machine win_device_id]. destruct (id_of node ids); [done|]. by intros [= <-].
  - intros h node code. cbn [machine win_guids]. unfold guids. case_match; by intros [= <-].
  - intros h node code. cbn [machine win_port_name]. unfold port_name. case_match; by intros [= <-].
  - intros text hr. cbn [machine win_iid]. case_match; by intros [= <-].
  - intros h node ty bytes. cbn [machine win_guids]. unfold guids. case_match; intros [= <- <-]. vm_compute. congruence.
  - intros h path packet H. cbn. lia.
  - intros h path pipe size Hs. cbn [machine win_read]. destruct (Z.leb_spec 2 size); cbn; lia.
  - intros h key l len Hl Hlen. cbn [machine win_overlapped]. unfold overlapped. destruct (aborted h); cbn [o_data]; [cbn; lia|].
    rewrite Hl length_take. cbn. lia.
  - intros h key l. cbn [machine win_overlapped]. unfold overlapped. destruct (aborted h); cbn; unfold UINT32_MAX; lia.
  - intros. cbn. lia.
  - intros. cbn. unfold UINT32_MAX. lia.
Qed.

#[export] Instance machine_properties : PropertiesStable machine.
Proof. done. Qed.
#[export] Instance machine_services : ServicesTerminated machine.
Proof.
  intros h node bytes. cbn [machine win_property]. unfold property. case_match; intros [= <-].
  unfold text. apply elem_of_app; right; by left.
Qed.
#[export] Instance machine_guids : GuidsTerminated machine.
Proof.
  intros h node bytes. cbn [machine win_guids]. unfold guids. case_match; intros [= <-].
  vm_compute. by eexists.
Qed.
#[export] Instance machine_port_names : PortNamesTerminated machine.
Proof.
  intros h node bytes. cbn [machine win_port_name]. unfold port_name. case_match; intros [= <-].
  apply elem_of_app; right; by left.
Qed.
End Example_win.
