(* ===== verification/ErrorWindows.v ===== *)
(** * ErrorWindows: errors from Windows (src/src/windows/error_windows.c)

    Conversion of Windows error codes and [CONFIGRET] codes into error objects, the
    table of codes and messages that it implements, and the specification of a
    single call of Windows that is checked. *)

From S2P Require Import Prelude Memory Logic Format Errors Results WindowsOS.
#[local] Set Warnings "-rewrite-rw".

Section code.
Context `{OS : WindowsOS}.

(** The [switch] of [error_create_winapi_v]: the error and [skip_windows_message]. *)
Definition error_create_winapi_switch (error_code : Z) (error : ptr) : M (ptr * bool) :=
  if error_code =? ERROR_ACCESS_DENIED then
    error ← error_add error "Try closing all other programs that are using the device.";
    error ← error_add_code error LIBUSBP_ERROR_ACCESS_DENIED;
    mret (error, false)
  else if (error_code =? ERROR_OUTOFMEMORY) || (error_code =? ERROR_NOT_ENOUGH_MEMORY) then
    error ← error_add_code error LIBUSBP_ERROR_MEMORY;
    mret (error, false)
  else if error_code =? ERROR_GEN_FAILURE then
    error ← error_add error "The request was invalid or there was an I/O problem.";
    error ← error_add_code error LIBUSBP_ERROR_STALL;
    error ← error_add_code error LIBUSBP_ERROR_DEVICE_DISCONNECTED;
    mret (error, true)
  else if error_code =? ERROR_SEM_TIMEOUT then
    error ← error_add error "The operation timed out.";
    error ← error_add_code error LIBUSBP_ERROR_TIMEOUT;
    mret (error, true)
  else if error_code =? ERROR_OPERATION_ABORTED then
    error ← error_add error "The operation was cancelled.";
    error ← error_add_code error LIBUSBP_ERROR_CANCELLED;
    mret (error, true)
  else mret (error, false).

(** [if (buffer[size - 1] == ' ') { buffer[--size] = 0; }] on a text that is not empty. *)
Fixpoint drop_last_space (s : string) : string :=
  match s with
  | "" => ""
  | String c "" => if Ascii.eqb c " " then "" else s
  | String c s => String c (drop_last_space s)
  end%string.

(** [text] is what the format and its arguments render to. *)
Definition error_create_winapi_v (error_code : Z) (text : string) : M ptr :=
  error ← error_create ("Windows error code 0x" +:+ fmt_x 1 (to_u32 error_code) +:+ ".");
  (* Convert certain Windows error codes into libusbp error codes. *)
  '(error, skip_windows_message) ← error_create_winapi_switch error_code error;
  (* Get an English sentence from Windows to help describe the error. *)
  error ← (if negb skip_windows_message then
             let buffer := win_message error_code in
             let size := slen buffer in
             if negb (size =? 0) then error_add error (drop_last_space buffer) else mret error
           else mret error);
  (* Finally, add the context message provided by the caller. *)
  error_add_v error (Some text).

Definition error_create_winapi (text : string) : M ptr :=
  error_code ← GetLastError;
  error_create_winapi_v error_code text.

(** For [WinUsb_GetOverlappedResult]. *)
Definition error_create_overlapped (text : string) : M ptr :=
  error_code ← GetLastError;
  if error_code =? ERROR_FILE_NOT_FOUND then
    error ← error_create ("Windows error code 0x" +:+ fmt_x 1 (to_u32 error_code) +:+ ".");
    error ← error_add error "The device was disconnected.";
    error ← error_add_code error LIBUSBP_ERROR_DEVICE_DISCONNECTED;
    error_add_v error (Some text)
  else error_create_winapi_v error_code text.

Definition error_create_cr (cr : Z) (text : string) : M ptr :=
  error ← error_create ("CONFIGRET error code 0x" +:+ fmt_x 1 (to_u32 cr) +:+ ".");
  error_add_v error (Some text).

(** The idiom [if (!success) { error = error_create_winapi(text); }]. *)
Definition win_check (success : bool) (text : string) : M ptr :=
  if negb success then error_create_winapi text else mret NULL.

(** The idiom [if (cr != CR_SUCCESS) { error = error_create_cr(cr, text); }]. *)
Definition cr_check (cr : Z) (text : string) : M ptr :=
  if negb (cr =? CR_SUCCESS) then error_create_cr cr text else mret NULL.

(** ** The table *)

(** What is added for an error code: the message, the codes, and whether the message
    of Windows follows. *)
Definition winapi_table (n : Z) : option string * list Z * bool :=
  if n =? ERROR_ACCESS_DENIED then
    (Some "Try closing all other programs that are using the device.",
     [LIBUSBP_ERROR_ACCESS_DENIED], true)
  else if (n =? ERROR_OUTOFMEMORY) || (n =? ERROR_NOT_ENOUGH_MEMORY) then
    (None, [LIBUSBP_ERROR_MEMORY], true)
  else if n =? ERROR_GEN_FAILURE then
    (Some "The request was invalid or there was an I/O problem.",
     [LIBUSBP_ERROR_STALL; LIBUSBP_ERROR_DEVICE_DISCONNECTED], false)
  else if n =? ERROR_SEM_TIMEOUT then (Some "The operation timed out.", [LIBUSBP_ERROR_TIMEOUT], false)
  else if n =? ERROR_OPERATION_ABORTED then
    (Some "The operation was cancelled.", [LIBUSBP_ERROR_CANCELLED], false)
  else (None, [], true)%string.

Definition winapi_row (n : Z) (e : aerr) : aerr :=
  let '(text, cs, _) := winapi_table n in
  let e := match text with Some text => err_add e text | None => e end in
  AErr (msg e) (codes e ++ cs).

Definition win_error (n : Z) (text : string) : aerr :=
  let e := winapi_row n (err_new ("Windows error code 0x" +:+ fmt_x 1 (to_u32 n) +:+ ".")) in
  err_add (if (winapi_table n).2 && negb (slen (win_message n) =? 0)
           then err_add e (drop_last_space (win_message n)) else e) text.

Definition overlapped_error (n : Z) (text : string) : aerr :=
  if n =? ERROR_FILE_NOT_FOUND then
    let e := err_new ("Windows error code 0x" +:+ fmt_x 1 (to_u32 n) +:+ ".") in
    err_add (err_code (err_add e "The device was disconnected.") LIBUSBP_ERROR_DEVICE_DISCONNECTED) text
  else win_error n text.

Definition cr_error (n : Z) (text : string) : aerr :=
  err_add (err_new ("CONFIGRET error code 0x" +:+ fmt_x 1 (to_u32 n) +:+ ".")) text.
End code.

(** ** Specifications *)

Lemma drop_last_space_text s : no_nul s = true → no_nul (drop_last_space s) = true.
Proof.
  induction s as [|c s IH]; [done|]. cbn. intros [Hc Hs]%andb_true_iff.
  destruct s as [|c' s]; [by destruct (Ascii.eqb c " "); cbn; rewrite ?Hc|].
  cbn [no_nul]. rewrite Hc. by apply IH.
Qed.

(** Calls of Windows in chains. *)
Lemma calm_win_r ev x x' : calm x x' → calm x (win_ext ev x').
Proof. intros H. etrans; [exact H|apply calm_win]. Qed.
Lemma calm_error_r code x x' : calm x x' → calm x (with_error code x').
Proof. intros H. etrans; [exact H|apply calm_with_error]. Qed.
#[export] Hint Resolve calm_win_r calm_error_r : calm.

Section specs.
Context `{OS : WindowsOS} {LAWS : WindowsLaws OS}.

Lemma winapi_switch_spec n p e x0 x :
  {{ err_res p e x0 x }} error_create_winapi_switch n p @ x {{ r x',
    err_res r.1 (winapi_row n e) x0 x' ∗ ⟪r.2 = negb (winapi_table n).2⟫ }}.
Proof.
  destruct e as [m cs]. iIntros "H". unfold error_create_winapi_switch, winapi_row, winapi_table.
  repeat match goal with
         | |- context [n =? ?c] => destruct (n =? c); cbn [orb fst snd]
         end; err_chain; rewrite /err_code /= -?app_assoc ?app_nil_r; iFrame; try done.
Qed.

Lemma error_create_winapi_v_spec n text x :
  no_nul text = true →
  {{ emp }} error_create_winapi_v n text @ x {{ r x', err_res r (win_error n text) x x' }}.
Proof.
  iIntros (Ht) "_". unfold error_create_winapi_v. wp_steps.
  iApply wp_error_create; [by rewrite !no_nul_app no_nul_fmt_x|]. iIntros (r x1 _) "H".
  wp_step. wp_call (winapi_switch_spec n r _ x x1). iIntros ([r' skip] x2) "[H %Hs]".
  cbn [snd] in Hs. subst skip. cbn [fst]. wp_simpl. unfold win_error.
  destruct (winapi_table n).2; cbn [negb andb]; [|wp_steps; by iApply error_add_res].
  destruct (slen (win_message n) =? 0); cbn [negb]; wp_steps; [by iApply error_add_res|].
  iApply (wp_error_add with "H"); [apply drop_last_space_text, message_text|].
  iIntros (r2 x3 _) "H". by iApply error_add_res.
Qed.

(** As a rule. *)
Lemma wp_error_create_winapi text x Q :
  no_nul text = true →
  (∀ r x', ⌜is_null r = false⌝ → err_res r (win_error (x_errno x) text) x x' -∗ Q r x') ⊢
  wp (error_create_winapi text) x Q.
Proof.
  iIntros (Hs) "HQ". unfold error_create_winapi, GetLastError. wp_steps.
  iApply (wp_err_res with "[] HQ"). by iApply error_create_winapi_v_spec.
Qed.

Lemma error_create_overlapped_spec text x :
  no_nul text = true →
  {{ emp }} error_create_overlapped text @ x {{ r x',
    err_res r (overlapped_error (x_errno x) text) x x' }}.
Proof.
  iIntros (Hs) "_". unfold error_create_overlapped, overlapped_error, GetLastError. wp_steps.
  destruct (x_errno x =? ERROR_FILE_NOT_FOUND); [|by iApply error_create_winapi_v_spec].
  wp_steps. iApply wp_error_create; [by rewrite !no_nul_app no_nul_fmt_x|]. iIntros (r x1 _) "H".
  err_chain. by iApply error_add_res.
Qed.

Lemma error_create_cr_spec n text x :
  no_nul text = true →
  {{ emp }} error_create_cr n text @ x {{ r x', err_res r (cr_error n text) x x' }}.
Proof.
  iIntros (Ht) "_". unfold error_create_cr. wp_steps.
  iApply wp_error_create; [by rewrite !no_nul_app no_nul_fmt_x|]. iIntros (r x1 _) "H".
  wp_steps. by iApply error_add_res.
Qed.

Lemma wp_error_create_cr n text x Q :
  no_nul text = true →
  (∀ r x', ⌜is_null r = false⌝ → err_res r (cr_error n text) x x' -∗ Q r x') ⊢
  wp (error_create_cr n text) x Q.
Proof. iIntros (Hs) "HQ". iApply (wp_err_res with "[] HQ"). by iApply error_create_cr_spec. Qed.

(** ** One call of Windows

    It is recorded as [ev] and returns a value or an error code. *)
Definition s_win {A} (r : A + Z) (ev : win_event) (text : string) : Spec A := λ h,
  (match r with inl a => inr a | inr code => inl (win_error code text) end, EvWin ev :: h).

Definition s_cr {A} (r : A + Z) (ev : win_event) (text : string) : Spec A := λ h,
  (match r with inl a => inr a | inr code => inl (cr_error code text) end, EvWin ev :: h).

(** An error that was made when [s] failed. *)
Lemma failed_err_res {A} (s : Spec A) x x1 r e x' Q :
  calm x x1 → s (x_trace x) = (inl e, x_trace x1) → is_null r = false →
  err_res r e x1 x' -∗
  (∀ got, ⌜is_null r = false ∧ failed s x x' got⌝ → err_own r got -∗ Q) -∗ Q.
Proof.
  iIntros (Hc Hs Hn) "(%got & He & %Hg) HQ". iApply ("HQ" $! got with "[%] He").
  destruct Hg as [Hq Hg]. split; [done|]. split; [etrans; [apply Hc|by apply quiet_calm]|].
  destruct Hg as [->|[Hm Ho]]; [left|right].
  - destruct Hq as [-> _]. exact Hs.
  - split; [done|]. by eapply oomed_r.
Qed.

Lemma wp_winapi_failed {A} (s : Spec A) text x x1 Q :
  no_nul text = true → calm x x1 → s (x_trace x) = (inl (win_error (x_errno x1) text), x_trace x1) →
  (∀ r x' got, ⌜is_null r = false ∧ failed s x x' got⌝ → err_own r got -∗ Q r x') ⊢
  wp (error_create_winapi text) x1 Q.
Proof.
  iIntros (Ht Hc Hs) "HQ". iApply wp_error_create_winapi; [done|]. iIntros (r x' Hn) "He".
  iApply (failed_err_res with "He"); [exact Hc|exact Hs|done|]. iIntros (got Hg) "He".
  by iApply "HQ".
Qed.

Lemma wp_cr_failed {A} (s : Spec A) cr text x x1 Q :
  no_nul text = true → calm x x1 → s (x_trace x) = (inl (cr_error cr text), x_trace x1) →
  (∀ r x' got, ⌜is_null r = false ∧ failed s x x' got⌝ → err_own r got -∗ Q r x') ⊢
  wp (error_create_cr cr text) x1 Q.
Proof.
  iIntros (Ht Hc Hs) "HQ". iApply wp_error_create_cr; [done|]. iIntros (r x' Hn) "He".
  iApply (failed_err_res with "He"); [exact Hc|exact Hs|done|]. iIntros (got Hg) "He".
  by iApply "HQ".
Qed.
End specs.

(** ** What success says *)

Section inversion.
Context `{OS : WindowsOS}.

Lemma s_win_inv {A} (r : A + Z) ev text h (a : A) h' :
  s_win r ev text h = (inr a, h') → r = inl a ∧ h' = EvWin ev :: h.
Proof. unfold s_win. destruct r; [by intros [= -> ->]|done]. Qed.

Lemma s_cr_inv {A} (r : A + Z) ev text h (a : A) h' :
  s_cr r ev text h = (inr a, h') → r = inl a ∧ h' = EvWin ev :: h.
Proof. unfold s_cr. destruct r; [by intros [= -> ->]|done]. Qed.

Lemma scontext_inv {A} text (s : Spec A) h a h' : scontext text s h = (inr a, h') → s h = (inr a, h').
Proof. unfold scontext. destruct (s h) as [[]]; [done|by intros [= -> ->]]. Qed.
End inversion.
