(* ===== verification/SetupWindows.v ===== *)
(** * SetupWindows: sets of device nodes

    Rules for the calls of SetupAPI that make a set of device nodes, enumerate it and
    destroy it, and the bound on the rounds of a loop over a set. *)

From S2P Require Import Prelude Memory Logic Errors Results WindowsOS ErrorWindows.
#[local] Set Warnings "-rewrite-rw".

(** The number of rounds of a loop over a set; an index past its end is an error. *)
Definition set_rounds (devs : HANDLE) : M nat :=
  match devs with
  | Some _ => nodes ← load_handle as_set devs; mret (S (List.length nodes))
  | None => mret 1%nat
  end.

(** [index++] for a [DWORD]. *)
Definition next_index (index : Z) : Z := to_u32 (index + 1).

Section rules.
Context `{OS : WindowsOS} {LAWS : WindowsLaws OS}.

(** A set that [SetupDiGetClassDevs] made. *)
Definition set_own (devs : HANDLE) (nodes : list Z) : hProp :=
  (⟪Z.of_nat (List.length nodes) ≤ UINT32_MAX⟫ ∗ handle_own devs (ODevInfoSet nodes))%I.

Lemma set_own_valid devs nodes : set_own devs nodes ⊢ ⌜is_valid devs = true⌝ ∧ set_own devs nodes.
Proof. iIntros "H". iSplit; [|done]. by iDestruct "H" as "[_ (%l & -> & _)]". Qed.

(** Lending the set to a function. *)
Lemma set_own_use devs nodes :
  set_own devs nodes ⊢ handle_own devs (ODevInfoSet nodes) ∗
    (handle_own devs (ODevInfoSet nodes) -∗ set_own devs nodes).
Proof. iIntros "[%H Hd]". iFrame. iIntros "Hd". by iFrame. Qed.

(** What the call returned. *)
Lemma wp_class_devs c x Q :
  (let x1 := win_ext (WinClassDevs c) x in
   match win_class_devs (x_trace x) c with
   | inl nodes => ∀ devs, set_own devs nodes -∗ Q devs x1
   | inr code => Q None (with_error code x1)
   end) ⊢
  wp (SetupDiGetClassDevs c) x Q.
Proof.
  iIntros "HQ". unfold SetupDiGetClassDevs, log_win. wp_steps. iApply wp_win_result. cbn zeta.
  destruct (win_class_devs (x_trace x) c) as [nodes|code] eqn:E; wp_steps; [|iExact "HQ"].
  iApply wp_new_handle. iIntros (devs) "Hd". iApply "HQ". iFrame. iPureIntro. by eapply class_devs_count.
Qed.

Lemma wp_destroy devs nodes x Q :
  set_own devs nodes -∗ Q tt x -∗ wp (SetupDiDestroyDeviceInfoList devs) x Q.
Proof.
  iIntros "[_ (%l & -> & Hl)] HQ". cbn [SetupDiDestroyDeviceInfoList].
  iApply (wp_release with "Hl"); [done|]. iExact "HQ".
Qed.

Definition enum_result (h : list event) (nodes : list Z) (index : Z) : Z + Z :=
  match win_enum_failure h index, nodes !! Z.to_nat index with
  | Some code, _ => inr code
  | None, Some node => inl node
  | None, None => inr ERROR_NO_MORE_ITEMS
  end.

Lemma wp_enum devs nodes index x Q :
  set_own devs nodes -∗
  (set_own devs nodes -∗
   match enum_result (x_trace x) nodes index with
   | inl node => Q (Some node) (win_ext (WinEnumDevice index) x)
   | inr code => Q None (with_error code (win_ext (WinEnumDevice index) x))
   end) -∗
  wp (SetupDiEnumDeviceInfo devs index) x Q.
Proof.
  iIntros "[%Hn (%l & -> & Hl)] HQ". unfold SetupDiEnumDeviceInfo, log_win. wp_steps.
  iApply wp_win_result. fold (enum_result (x_trace x) nodes index).
  iAssert (l ↦ ODevInfoSet nodes)%I with "[$]" as "Hl".
  iSpecialize ("HQ" with "[Hl]"); [iSplit; [done|by iApply handle_own_intro]|].
  by destruct (enum_result _ _ _).
Qed.

(** Seen from the node that comes next. *)
Definition enum_next (h : list event) (n : nat) (rest : list Z) : Z + Z :=
  match win_enum_failure h (Z.of_nat n), rest with
  | Some code, _ => inr code
  | None, node :: _ => inl node
  | None, [] => inr ERROR_NO_MORE_ITEMS
  end.

Lemma enum_result_app h pre rest :
  enum_result h (pre ++ rest) (Z.of_nat (List.length pre)) = enum_next h (List.length pre) rest.
Proof.
  unfold enum_result, enum_next. rewrite Nat2Z.id lookup_app_r // Nat.sub_diag.
  by destruct (win_enum_failure _ _), rest.
Qed.

Lemma enum_next_inl h n rest node :
  enum_next h n rest = inl node → ∃ rest', rest = node :: rest'.
Proof. unfold enum_next. destruct (win_enum_failure _ _), rest; try done. intros [= ->]. by eexists. Qed.

Lemma enum_result_end h nodes : ∃ code, enum_result h nodes (Z.of_nat (List.length nodes)) = inr code.
Proof.
  unfold enum_result. rewrite Nat2Z.id lookup_ge_None_2 //. destruct (win_enum_failure _ _); eauto.
Qed.

Lemma wp_set_rounds devs nodes x Q :
  set_own devs nodes -∗ (set_own devs nodes -∗ Q (S (List.length nodes)) x) -∗
  wp (set_rounds devs) x Q.
Proof.
  iIntros "[%Hn (%l & -> & Hl)] HQ". unfold set_rounds, load_handle. wp_steps.
  iApply "HQ". iSplit; [done|]. by iApply handle_own_intro.
Qed.

(** The next index is in the set or its end. *)
Lemma next_index_nat n (nodes : list Z) :
  (n < List.length nodes)%nat → Z.of_nat (List.length nodes) ≤ UINT32_MAX →
  next_index (Z.of_nat n) = Z.of_nat (S n).
Proof. intros. unfold next_index, to_u32. rewrite wrap_id; unfold UINT32_MAX in *; lia. Qed.
End rules.

(** ** Searching a set

    [visit] looks at a node, and may find what is searched for; [over] is what happens at
    the end of the set. *)

Section search.
Context `{OS : WindowsOS} {LAWS : WindowsLaws OS} {A : Type}.
Variables (text : string) (visit : Z → Spec (option A)) (over : Spec A).

Fixpoint s_search (n : nat) (nodes : list Z) : Spec A := λ h,
  let h1 := EvWin (WinEnumDevice (Z.of_nat n)) :: h in
  match win_enum_failure h (Z.of_nat n), nodes with
  | Some code, _ => if code =? ERROR_NO_MORE_ITEMS then over h1 else (inl (win_error code text), h1)
  | None, [] => over h1
  | None, node :: nodes =>
      match visit node h1 with
      | (inr (Some a), h2) => (inr a, h2)
      | (inr None, h2) => s_search (S n) nodes h2
      | (inl e, h2) => (inl e, h2)
      end
  end.

Lemma s_search_stop n nodes h code :
  enum_next h n nodes = inr code →
  s_search n nodes h =
    (let h1 := EvWin (WinEnumDevice (Z.of_nat n)) :: h in
     if code =? ERROR_NO_MORE_ITEMS then over h1 else (inl (win_error code text), h1)).
Proof.
  unfold enum_next. destruct nodes; cbn [s_search]; destruct (win_enum_failure _ _);
    intros H; try discriminate H; injection H as H; by subst.
Qed.

Lemma s_search_visit n node nodes h :
  enum_next h n (node :: nodes) = inl node →
  s_search n (node :: nodes) h =
    match visit node (EvWin (WinEnumDevice (Z.of_nat n)) :: h) with
    | (inr (Some a), h2) => (inr a, h2)
    | (inr None, h2) => s_search (S n) nodes h2
    | (inl e, h2) => (inl e, h2)
    end.
Proof. unfold enum_next. cbn [s_search]. by destruct (win_enum_failure _ _). Qed.

(** What a visit means for the search. *)
Lemma search_failed n node nodes x x' got :
  enum_next (x_trace x) n (node :: nodes) = inl node →
  failed (visit node) (win_ext (WinEnumDevice (Z.of_nat n)) x) x' got →
  failed (s_search n (node :: nodes)) x x' got.
Proof.
  intros He [Hc E]. pose proof (calm_win (WinEnumDevice (Z.of_nat n)) x) as Hc0.
  split; [by etrans|]. rewrite s_search_visit //.
  destruct E as [E|[? ?]]; [left|right; split; [done|by eapply oomed_r]].
  cbn [win_ext x_trace] in E. by rewrite E.
Qed.

Lemma search_found n node nodes x x' a :
  enum_next (x_trace x) n (node :: nodes) = inl node →
  succeeded (visit node) (win_ext (WinEnumDevice (Z.of_nat n)) x) x' (Some a) →
  succeeded (s_search n (node :: nodes)) x x' a.
Proof.
  intros He [Hc E]. pose proof (calm_win (WinEnumDevice (Z.of_nat n)) x) as Hc0.
  split; [by etrans|]. rewrite s_search_visit //. cbn [win_ext x_trace] in E. by rewrite E.
Qed.

Lemma search_next n node nodes x x1 :
  enum_next (x_trace x) n (node :: nodes) = inl node →
  succeeded (visit node) (win_ext (WinEnumDevice (Z.of_nat n)) x) x1 None →
  calm x x1 ∧ s_search n (node :: nodes) (x_trace x) = s_search (S n) nodes (x_trace x1).
Proof.
  intros He [Hc E]. pose proof (calm_win (WinEnumDevice (Z.of_nat n)) x) as Hc0.
  split; [by etrans|]. rewrite s_search_visit //. cbn [win_ext x_trace] in E. by rewrite E.
Qed.

Lemma returns_search_next n node nodes x x1 x' e ok bad :
  enum_next (x_trace x) n (node :: nodes) = inl node →
  succeeded (visit node) (win_ext (WinEnumDevice (Z.of_nat n)) x) x1 None →
  returns (s_search (S n) nodes) x1 x' e ok bad ⊢ returns (s_search n (node :: nodes)) x x' e ok bad.
Proof. intros He Ha. destruct (search_next _ _ _ _ _ He Ha). by apply returns_tail. Qed.
End search.

(** The rest of a set, from the index [length pre] on. *)
Section rest.
Context `{OS : WindowsOS} {LAWS : WindowsLaws OS}.

Lemma wp_enum_rest devs pre rest x Q :
  set_own devs (pre ++ rest) -∗
  (∀ code, ⌜enum_next (x_trace x) (List.length pre) rest = inr code⌝ → set_own devs (pre ++ rest) -∗
     Q None (with_error code (win_ext (WinEnumDevice (Z.of_nat (List.length pre))) x))) ∧
  (∀ node rest', ⌜enum_next (x_trace x) (List.length pre) rest = inl node ∧ rest = node :: rest' ∧
      next_index (Z.of_nat (List.length pre)) = Z.of_nat (List.length (pre ++ [node]))⌝ →
     set_own devs ((pre ++ [node]) ++ rest') -∗
     Q (Some node) (win_ext (WinEnumDevice (Z.of_nat (List.length pre))) x)) -∗
  wp (SetupDiEnumDeviceInfo devs (Z.of_nat (List.length pre))) x Q.
Proof.
  iIntros "Hs HQ". iAssert (⌜Z.of_nat (List.length (pre ++ rest)) ≤ UINT32_MAX⌝ ∧ set_own devs (pre ++ rest))%I
    with "[Hs]" as "[%Hlen Hs]".
  { iSplit; [|done]. by iDestruct "Hs" as "[%H _]". }
  iApply (wp_enum with "Hs"). iIntros "Hs". rewrite enum_result_app.
  destruct (enum_next _ _ _) as [node|code] eqn:E.
  - destruct (enum_next_inl _ _ _ _ E) as [rest' ->]. iDestruct "HQ" as "[_ HQ]".
    iApply ("HQ" $! node rest' with "[%]"); [|by rewrite -app_assoc].
    split_and!; [done..|]. rewrite (next_index_nat _ (pre ++ node :: rest')) //.
    + rewrite length_app. cbn. f_equal. lia.
    + rewrite length_app. cbn. lia.
  - iDestruct "HQ" as "[HQ _]". by iApply ("HQ" $! code with "[%]").
Qed.
End rest.

(** A search that succeeds has visited a node that it wanted, or was over. *)
Lemma s_search_inv `{OS : WindowsOS} {A} text (visit : Z → Spec (option A)) over n nodes h a h' :
  s_search text visit over n nodes h = (inr a, h') →
  (∃ node h1 h2, node ∈ nodes ∧ visit node h1 = (inr (Some a), h2)) ∨ (∃ h1, over h1 = (inr a, h')).
Proof.
  revert n h. induction nodes as [|node nodes IH]; intros n h; cbn [s_search].
  - destruct (win_enum_failure _ _) as [code|]; [destruct (code =? _)|]; [|done|]; intros H; right; by eexists.
  - destruct (win_enum_failure _ _) as [code|].
    { destruct (code =? _); [|done]. intros H. right. by eexists. }
    destruct (visit node _) as [[e|[b|]] h2] eqn:E; [done| |].
    + intros [= -> ->]. left. exists node. do 2 eexists. split; [by left|done].
    + intros H. destruct (IH _ _ H) as [(node' & h3 & h4 & Hn & Hv)|Ho]; [left|by right].
      exists node', h3, h4. split; [by right|done].
Qed.
