(* ===== verification/InstanceIdWindows.v ===== *)
(** * InstanceIdWindows: device instance IDs (src/src/windows/device_instance_id_windows.c)

    Reading the instance ID of a device node, and the resource of a text in a buffer
    that can be larger than it.  [malloc] is that of Microsoft's library, where a
    request of no bytes fails only when there is no memory. *)

From S2P Require Import Prelude Memory Logic Errors Results Basics Strings WindowsOS ErrorWindows.
#[local] Set Warnings "-rewrite-rw".

Definition malloc_bytes (size : Z) : M ptr :=
  malloc (Z.max 1 size) (OChars (replicate (Z.to_nat size) None)).

Section code.
Context `{OS : WindowsOS}.

(** The error and, on success, [*id]. *)
Definition create_id_string (list : HANDLE) (info : Z) : M (ptr * option ptr) :=
  c_assert (is_valid list);;
  let size := MAX_DEVICE_ID_LEN + 1 in
  new_id ← malloc_bytes size;
  if is_null new_id then mret (Static error_no_memory, None) else
  id ← SetupDiGetDeviceInstanceId list info;
  match id with
  | Some id => write_chars new_id 0 (cstr id);; mret (NULL, Some new_id)
  | None =>
      free new_id;;
      error ← error_create_winapi "Error getting device instance ID.";
      mret (error, None)
  end.
End code.

(** ** Texts in buffers *)

(** A buffer that starts with the string [s] and its terminator. *)
Definition text_own (p : ptr) (s : string) : hProp :=
  (∃ l rest, ⟪p = Heap l ∧ no_nul s = true ∧ slen s < PTRDIFF_MAX⟫ ∗ l ↦ OChars (cstr s ++ rest))%I.

Definition opt_text_own (p : ptr) (o : option string) : hProp :=
  match o with Some s => text_own p s | None => ⟪p = NULL⟫ end%I.

Lemma str_text p s : str_own p s ⊢ text_own p s.
Proof. iIntros "(%l & %H & Hl)". iExists l, []. rewrite app_nil_r. by iFrame. Qed.

Lemma text_own_facts p s :
  text_own p s ⊢ ⌜no_nul s = true ∧ slen s < PTRDIFF_MAX ∧ is_null p = false⌝ ∧ text_own p s.
Proof.
  iIntros "H". iSplit; [|done]. iDestruct "H" as (l rest) "[%H _]".
  by destruct H as (-> & ? & ?).
Qed.

Lemma scan_text s rest : no_nul s = true → scan (cstr s ++ rest) = Some s.
Proof.
  unfold cstr, chars. induction s as [|c s IH]; cbn; [done|].
  intros [Hc Hs]%andb_true_iff. case_bool_decide; [done|]. by rewrite IH.
Qed.

Lemma reads_text p s : reads (text_own p s) p s.
Proof.
  iIntros (x Q) "(%l & %rest & %H & Hl) HQ". destruct H as (-> & Hs & Hlen).
  change (read_cstr (Heap l)) with
    (cs ← load_as as_chars (Heap l);
     match scan cs with Some s => mret s | None => stuck OutOfBounds end).
  iApply wp_bind. iApply (wp_load_as with "Hl"); [done|]. iIntros "Hl".
  rewrite scan_text //. iApply wp_ret. iApply "HQ". iExists l, rest. by iFrame.
Qed.

Lemma free_text p s x : {{ text_own p s }} free p @ x {{ r x', ⟪x' = x⟫ }}.
Proof. iIntros "(%l & %rest & %H & Hl)". destruct H as (-> & _). wp_steps. by iPureIntro. Qed.

Lemma free_opt_text p o x : {{ opt_text_own p o }} free p @ x {{ r x', ⟪x' = x⟫ }}.
Proof. destruct o; cbn; [apply free_text|]. iIntros (->). wp_steps. by iPureIntro. Qed.

Lemma string_copy_text p s x :
  {{ text_own p s }} string_copy p @ x {{ r x',
    text_own p s ∗ returns (mret s) x x' r.1 (str_own r.2) ⟪r.2 = NULL⟫ }}.
Proof.
  iIntros "H". iDestruct (text_own_facts with "H") as "[%Hs H]". destruct Hs as (Hs & _ & Hn).
  iApply (string_copy_spec with "H"); [apply reads_text|done|done].
Qed.

(** A buffer with nothing in it yet. *)
Lemma wp_malloc_bytes n x Q :
  0 ≤ n →
  (∀ l, ⌜n ≤ PTRDIFF_MAX⌝ → l ↦ OChars (replicate (Z.to_nat n) None) -∗ Q (Heap l) x) ∧
  (∀ x', ⌜quiet x x' ∧ oomed x x'⌝ → Q NULL x')
  ⊢ wp (malloc_bytes n) x Q.
Proof.
  iIntros (Hn) "H". iApply wp_malloc_pos; [lia|]. iSplit.
  - iIntros (l Hl) "Hl". iDestruct "H" as "[H _]". iApply ("H" $! l with "[%] Hl"). lia.
  - iDestruct "H" as "[_ H]". done.
Qed.

Section specs.
Context `{OS : WindowsOS} {LAWS : WindowsLaws OS}.

Definition s_instance_id (text : string) (node : Z) : Spec string := λ h,
  s_win (fitting_id (win_instance_id h node)) (WinInstanceId node) text h.

Lemma fitting_id_text r s : fitting_id r = inl s → no_nul s = true ∧ slen s ≤ MAX_DEVICE_ID_LEN.
Proof.
  unfold fitting_id. destruct r as [id|]; [|done]. destruct (Z.leb_spec (slen (until_nul id)) MAX_DEVICE_ID_LEN);
    [|done]. intros [= <-]. split; [apply until_nul_no_nul|done].
Qed.

Lemma create_id_string_spec devs node nodes x :
  {{ handle_own devs (ODevInfoSet nodes) }} create_id_string devs node @ x {{ r x',
    handle_own devs (ODevInfoSet nodes) ∗
    returns (s_instance_id "Error getting device instance ID." node) x x' r.1
      (λ s, ∃ q, ⟪r.2 = Some q⟫ ∗ text_own q s) ⟪r.2 = None⟫ }}.
Proof.
  iIntros "Hd". iDestruct (handle_own_valid with "Hd") as "[%Hv Hd]".
  unfold create_id_string, SetupDiGetDeviceInstanceId, log_win. rewrite Hv. wp_step. wp_steps.
  iApply wp_malloc_bytes; [done|]. iSplit; last first.
  { iIntros (x' [Hq Ho]). wp_steps. iFrame. iApply returns_no_memory; [|done..|done]. reflexivity. }
  iIntros (l _) "Hl". wp_steps.
  iApply (wp_load_handle as_set with "Hd"); [done|]. iIntros "Hd". wp_steps.
  iApply wp_win_result.
  destruct (fitting_id (win_instance_id (x_trace x) node)) as [s|code] eqn:E; wp_steps.
  - apply fitting_id_text in E as Hs. destruct Hs as [Hs Hlen].
    iApply (wp_write_prefix l [] with "Hl"); [done| |].
    { rewrite length_cstr length_replicate. unfold slen, MAX_DEVICE_ID_LEN in *. lia. }
    iIntros "Hl". wp_steps. iFrame. iApply (returns_ok _ _ _ s with "[-]").
    { split; [apply calm_win|]. unfold s_instance_id, s_win. by rewrite E. }
    iExists (Heap l). iSplit; [done|]. iExists l, _. iFrame. iPureIntro. split_and!; [done..|].
    unfold MAX_DEVICE_ID_LEN, PTRDIFF_MAX in *. lia.
  - iApply (wp_winapi_failed (s_instance_id "Error getting device instance ID." node) _ x); [done| | |].
    { apply calm_win. }
    { unfold s_instance_id, s_win. by rewrite E. }
    iIntros (r x' got [Hr Hf]) "He". wp_steps. iFrame. iRight. iExists got. by iFrame.
Qed.
End specs.
