(* ===== verification/DeviceWindows.v ===== *)
(** * DeviceWindows: device objects on Windows (src/src/windows/device_windows.c)

    Creation of a [libusbp_device] from a device node: its instance ID, and the numbers
    that its hardware IDs hold; its copy, its getters and its release. *)

From S2P Require Import Prelude Memory Logic Format Sscanf MultiSz Errors Results Basics Strings WindowsOS ErrorWindows InstanceIdWindows.
#[local] Set Warnings "-rewrite-rw".

Section code.
Context `{OS : WindowsOS}.

(** A struct from [calloc]. *)
Definition zeroed_device : libusbp_device_windows :=
  {| wdev_device_instance_id := NULL; wdev_product_id := 0; wdev_vendor_id := 0; wdev_revision := 0 |}.

Definition device_allocate : M (ptr * ptr) :=
  device ← calloc 1 sizeof_libusbp_device_windows (OWinDevice zeroed_device);
  mret (if is_null device then Static error_no_memory else NULL, device).

Definition libusbp_device_free (device : ptr) : M unit :=
  if is_null device then mret tt else
  d ← load_as as_device_windows device;
  free (wdev_device_instance_id d);;
  free device.

(** The test of the last two bytes: [size < 2 || new_ids[size - 2] != 0 || ...]. *)
Definition not_terminated (new_ids : ptr) (size : Z) : M bool :=
  if size <? 2 then mret true else
  c ← load_elem as_chars new_ids (size - 2);
  if negb (bool_decide (c = nul)) then mret true else
  c ← load_elem as_chars new_ids (size - 1);
  mret (negb (bool_decide (c = nul))).

(** The loop that capitalizes; [n] is the number of bytes that are left. *)
Fixpoint capitalize_loop (n : nat) (new_ids : ptr) (i : Z) : M unit :=
  match n with
  | O => mret tt
  | S n =>
      c ← load_elem as_chars new_ids i;
      when (is_lower c) (store_elem as_chars OChars new_ids i (to_upper c));;
      capitalize_loop n new_ids (i + 1)
  end.

Definition device_get_hardware_ids (list : HANDLE) (info : Z) : M (ptr * ptr) :=
  c_assert (is_valid list);;
  (* Get the size of the hardware IDs. *)
  '(success, data_type, size) ← SetupDiGetDeviceRegistryProperty_size list info HardwareIds;
  code ← GetLastError;
  error ← (if negb success && negb (code =? ERROR_INSUFFICIENT_BUFFER) then
             error_create_winapi "Failed to get size of hardware IDs."
           else mret NULL);
  (* Allocate memory. *)
  '(error, new_ids) ← if_ok error NULL
    (new_ids ← malloc_bytes size;
     mret (if is_null new_ids then Static error_no_memory else NULL, new_ids));
  (* Get the actual hardware IDs. *)
  '(error, data_type) ← if_ok error data_type
    (r ← SetupDiGetDeviceRegistryProperty list info HardwareIds new_ids size;
     match r with
     | Some data_type => mret (NULL, data_type)
     | None => error ← error_create_winapi "Failed to get hardware IDs."; mret (error, data_type)
     end);
  (* Check the data type. *)
  error ← then_check error
    (if negb (data_type =? REG_MULTI_SZ) then
       error_create ("Hardware IDs are wrong data type: " +:+ fmt_d (to_int data_type) +:+ ".")
     else mret NULL);
  error ← then_check error
    (bad ← not_terminated new_ids size;
     if bad : bool then error_create "Hardware IDs are empty or not terminated correctly."
     else mret NULL);
  (* Capitalize the hardware IDs. *)
  when (is_null error) (capitalize_loop (Z.to_nat size) new_ids 0);;
  (* Pass the IDs to the caller. *)
  let '(ids, new_ids) := if is_null error then (new_ids, NULL) else (NULL, new_ids) in
  free new_ids;;
  mret (error, ids).

(** Assignments to the fields of a device. *)
Definition set_vendor_id (n : Z) (d : libusbp_device_windows) : libusbp_device_windows :=
  {| wdev_device_instance_id := wdev_device_instance_id d; wdev_product_id := wdev_product_id d;
     wdev_vendor_id := n; wdev_revision := wdev_revision d |}.
Definition set_product_id (n : Z) (d : libusbp_device_windows) : libusbp_device_windows :=
  {| wdev_device_instance_id := wdev_device_instance_id d; wdev_product_id := n;
     wdev_vendor_id := wdev_vendor_id d; wdev_revision := wdev_revision d |}.
Definition set_revision (n : Z) (d : libusbp_device_windows) : libusbp_device_windows :=
  {| wdev_device_instance_id := wdev_device_instance_id d; wdev_product_id := wdev_product_id d;
     wdev_vendor_id := wdev_vendor_id d; wdev_revision := n |}.
Definition set_instance_id (p : ptr) (d : libusbp_device_windows) : libusbp_device_windows :=
  {| wdev_device_instance_id := p; wdev_product_id := wdev_product_id d;
     wdev_vendor_id := wdev_vendor_id d; wdev_revision := wdev_revision d |}.

Definition set_field (device : ptr) (f : libusbp_device_windows → libusbp_device_windows) : M unit :=
  d ← load_as as_device_windows device;
  store device (OWinDevice (f d)).

(** ["USB\\VID_%4hx&PID_%4hx&REV_%4hx"]. *)
Definition hardware_id_format : list directive :=
  [Text "USB\VID_"; Hex (Some 4%nat); Text "&PID_"; Hex (Some 4%nat); Text "&REV_"; Hex (Some 4%nat)].

(** The string at offset [off] of a buffer. *)
Definition read_text_at (p : ptr) (off : Z) : M string :=
  cs ← load_as as_chars p;
  match scan (drop (Z.to_nat off) cs) with Some s => mret s | None => stuck OutOfBounds end.

(** The loop of [device_take_info_from_hardware_ids], [off] bytes into the IDs. *)
Fixpoint hardware_ids_loop (fuel : nat) (device ids : ptr) (off : Z) : M ptr :=
  match fuel with
  | O => stuck OutOfFuel
  | S fuel =>
      c ← load_elem as_chars ids off;
      if bool_decide (c = nul) then
        error_create "Device has no hardware ID with the correct format."
      else
      s ← read_text_at ids off;
      match sscanf hardware_id_format (String.list_ascii_of_string s) with
      | [vendor_id; product_id; revision] =>
          set_field device (set_vendor_id (to_u16 vendor_id));;
          set_field device (set_product_id (to_u16 product_id));;
          set_field device (set_revision (to_u16 revision));;
          mret NULL
      | _ => hardware_ids_loop fuel device ids (off + (slen s + 1))
      end
  end.

Definition device_take_info_from_hardware_ids (device ids : ptr) : M ptr :=
  c_assert (negb (is_null ids));;
  c_assert (negb (is_null device));;
  set_field device (set_vendor_id 0);;
  set_field device (set_product_id 0);;
  set_field device (set_revision 0);;
  cs ← load_as as_chars ids;
  hardware_ids_loop (List.length cs) device ids 0.

(** The error and [*device]. *)
Definition create_device (list : HANDLE) (info : Z) : M (ptr * ptr) :=
  c_assert (is_valid list);;
  (* Allocate memory for the device itself. *)
  '(error, new_device) ← device_allocate;
  (* Get the device instance ID. *)
  error ← then_check error
    ('(error, id) ← create_id_string list info;
     match id with Some id => set_field new_device (set_instance_id id) | None => mret tt end;;
     mret error);
  (* Get the vendor ID, product ID, and revision from the hardware IDs. *)
  '(error, new_ids) ← if_ok error NULL (device_get_hardware_ids list info);
  error ← then_check error (device_take_info_from_hardware_ids new_device new_ids);
  (* Return the device to the caller. *)
  let '(device, new_device) := if is_null error then (new_device, NULL) else (NULL, new_device) in
  libusbp_string_free new_ids;;
  libusbp_device_free new_device;;
  mret (error, device).

(** [malloc(strlen(s) + 1)] and [memcpy]. *)
Definition copy_id (s : ptr) : M ptr :=
  c_assert (negb (is_null s));;
  n ← strlen s;
  let size := to_size (n + 1) in
  new_id ← malloc_bytes size;
  if is_null new_id then mret NULL else
  cs ← load_as as_chars s;
  (if size <=? Z.of_nat (List.length cs) then write_chars new_id 0 (take (Z.to_nat size) cs)
   else stuck OutOfBounds);;
  mret new_id.

Definition libusbp_device_copy (source : ptr) (dest_given : bool) : M (ptr * option ptr) :=
  if negb dest_given then
    error ← error_create "Device output pointer is null.";
    mret (error, None)
  else if is_null source then mret (NULL, Some NULL) else
  (* Allocate memory for the device itself. *)
  '(error, new_device) ← device_allocate;
  (* Copy the device instance ID. *)
  error ← then_check error
    (d ← load_as as_device_windows source;
     new_id ← copy_id (wdev_device_instance_id d);
     if is_null new_id then mret (Static error_no_memory)
     else set_field new_device (set_instance_id new_id);; mret NULL);
  when (is_null error)
    (d ← load_as as_device_windows source;
     set_field new_device (set_vendor_id (wdev_vendor_id d));;
     set_field new_device (set_product_id (wdev_product_id d));;
     set_field new_device (set_revision (wdev_revision d)));;
  (* Pass the device to the caller. *)
  let '(dest, new_device) := if is_null error then (new_device, NULL) else (NULL, new_device) in
  libusbp_device_free new_device;;
  mret (error, Some dest).

(** The common body of the three getters of a number. *)
Definition device_get_number (field : libusbp_device_windows → Z) (name : string)
    (device : ptr) (out_given : bool) : M (ptr * option Z) :=
  if negb out_given then
    error ← error_create (name +:+ " output pointer is null.");
    mret (error, None)
  else if is_null device then
    error ← error_create "Device is null.";
    mret (error, Some 0)
  else
    d ← load_as as_device_windows device;
    mret (NULL, Some (field d)).

Definition libusbp_device_get_vendor_id : ptr → bool → M (ptr * option Z) :=
  device_get_number wdev_vendor_id "Vendor ID".
Definition libusbp_device_get_product_id : ptr → bool → M (ptr * option Z) :=
  device_get_number wdev_product_id "Product ID".
Definition libusbp_device_get_revision : ptr → bool → M (ptr * option Z) :=
  device_get_number wdev_revision "Device revision".

(** [string_copy(s + off, &output)]. *)
Definition string_copy_at (s : ptr) (off : Z) : M (ptr * ptr) :=
  text ← read_text_at s off;
  new_string ← malloc (slen text + 1) (OChars (cstr text));
  if is_null new_string then mret (Static error_no_memory, NULL)
  else mret (NULL, new_string).

Definition libusbp_device_get_serial_number (device : ptr) (out_given : bool) :
    M (ptr * option ptr) :=
  if negb out_given then
    error ← error_create "Serial number output pointer is null.";
    mret (error, None)
  else if is_null device then
    error ← error_create "Device is null.";
    mret (error, Some NULL)
  else
    d ← load_as as_device_windows device;
    n ← strlen (wdev_device_instance_id d);
    error ← (if n <? 22 then error_create "Device instance ID is too short." else mret NULL);
    '(error, serial_number) ← if_ok error NULL (string_copy_at (wdev_device_instance_id d) 22);
    error ← (if negb (is_null error) then error_add error "Failed to get serial number."
             else mret NULL);
    mret (error, Some serial_number).

Definition libusbp_device_get_os_id (device : ptr) (out_given : bool) : M (ptr * option ptr) :=
  if negb out_given then
    error ← error_create "Device OS ID output pointer is null.";
    mret (error, None)
  else if is_null device then
    error ← error_create "Device is null.";
    mret (error, Some NULL)
  else
    d ← load_as as_device_windows device;
    '(error, id) ← string_copy (wdev_device_instance_id d);
    mret (error, Some id).
End code.

(** ** What a device object holds *)

Record win_device := WinDevice {
  wd_id : string;
  wd_product : Z;
  wd_vendor : Z;
  wd_revision : Z
}.

Definition win_device_struct (p : ptr) (d : win_device) : libusbp_device_windows :=
  {| wdev_device_instance_id := p; wdev_product_id := wd_product d; wdev_vendor_id := wd_vendor d;
     wdev_revision := wd_revision d |}.

Definition win_device_own (p : ptr) (d : win_device) : hProp :=
  (∃ l q, ⟪p = Heap l⟫ ∗ l ↦ OWinDevice (win_device_struct q d) ∗ text_own q (wd_id d))%I.

Lemma win_device_own_not_null p d : win_device_own p d ⊢ ⌜is_null p = false⌝ ∧ win_device_own p d.
Proof. iIntros "H". iSplit; [|done]. by iDestruct "H" as (l q) "[-> _]". Qed.

(** Also of a device that is not complete. *)
Lemma win_device_free_no_id l s x :
  wdev_device_instance_id s = NULL →
  {{ l ↦ OWinDevice s }} libusbp_device_free (Heap l) @ x {{ r x', ⟪x' = x⟫ }}.
Proof.
  iIntros (Hs) "Hl". unfold libusbp_device_free. wp_steps. rewrite Hs. wp_steps. by iPureIntro.
Qed.

Lemma win_device_free_parts l s q t x :
  wdev_device_instance_id s = q →
  {{ l ↦ OWinDevice s ∗ text_own q t }} libusbp_device_free (Heap l) @ x {{ r x', ⟪x' = x⟫ }}.
Proof.
  iIntros (<-) "[Hl Hq]". unfold libusbp_device_free. wp_steps.
  wp_call (free_text _ t x). iIntros ([] ?) "->". wp_steps. by iPureIntro.
Qed.

Lemma win_device_free_spec p d x :
  {{ win_device_own p d }} libusbp_device_free p @ x {{ r x', ⟪x' = x⟫ }}.
Proof.
  iIntros "(%l & %q & -> & Hl & Hq)". 
  iApply (win_device_free_parts l (win_device_struct q d) q (wd_id d) x eq_refl). iFrame.
Qed.

#[export] Instance win_device_objects : DeviceObjects win_device libusbp_device_free := {|
  Basics.device_own := win_device_own;
  Basics.device_own_not_null := win_device_own_not_null;
  Basics.device_free_spec := win_device_free_spec
|}.

Lemma win_device_free_null x Q : Q tt x ⊢ wp (libusbp_device_free NULL) x Q.
Proof. apply wp_ret. Qed.

Lemma win_device_own_load p d x Q :
  win_device_own p d -∗
  (∀ q, text_own q (wd_id d) -∗ (text_own q (wd_id d) -∗ win_device_own p d) -∗
     Q (win_device_struct q d) x) -∗
  wp (load_as as_device_windows p) x Q.
Proof.
  iIntros "(%l & %q & -> & Hl & Hn) HQ". iApply (wp_load_as with "Hl"); [done|]. iIntros "Hl".
  iApply ("HQ" with "Hn"). iIntros "Hn". iExists l, q. by iFrame.
Qed.

Lemma wp_win_set_field l s f x Q :
  l ↦ OWinDevice s -∗ (l ↦ OWinDevice (f s) -∗ Q tt x) -∗ wp (set_field (Heap l) f) x Q.
Proof. iIntros "Hl HQ". unfold set_field. wp_steps. by iApply "HQ". Qed.

Lemma win_device_allocate_spec x :
  {{ emp }} device_allocate @ x {{ r x',
    returns (mret tt) x x' r.1 (λ _, ∃ l, ⟪r.2 = Heap l⟫ ∗ l ↦ OWinDevice zeroed_device) ⟪r.2 = NULL⟫ }}.
Proof.
  iIntros "_". unfold device_allocate, calloc. wp_step. iApply wp_malloc_pos; [done|]. iSplit.
  - iIntros (l _) "Hl". wp_steps. iApply (returns_ok _ _ _ tt); [by apply succeeded_ret|].
    iExists l. by iFrame.
  - iIntros (x' [Hq Ho]). wp_steps. by iApply returns_no_memory.
Qed.

(** ** Hardware IDs *)

(** A buffer with a list of strings. *)
Definition multi_own (p : ptr) (ss : list string) : hProp :=
  (∃ l junk, ⟪p = Heap l ∧ Forall entry ss⟫ ∗ l ↦ OChars (Some <$> multi ss junk))%I.

Definition ends_in_nuls (bytes : list ascii) : bool :=
  (2 <=? List.length bytes)%nat &&
  bool_decide (bytes !! (List.length bytes - 2)%nat = Some nul) &&
  bool_decide (bytes !! (List.length bytes - 1)%nat = Some nul).

(** What a property with the type [ty] means as hardware IDs. *)
Definition hardware_ids_of (ty : Z) (bytes : list ascii) : aerr + list string :=
  if negb (ty =? REG_MULTI_SZ) then
    inl (err_new ("Hardware IDs are wrong data type: " +:+ fmt_d (to_int ty) +:+ "."))
  else if negb (ends_in_nuls bytes) then
    inl (err_new "Hardware IDs are empty or not terminated correctly.")
  else inr (multi_sz (to_upper <$> bytes)).

(** The numbers in a hardware ID. *)
Definition hardware_info (s : string) : option (Z * Z * Z) :=
  match sscanf hardware_id_format (String.list_ascii_of_string s) with
  | [vendor; product; revision] => Some (to_u16 vendor, to_u16 product, to_u16 revision)
  | _ => None
  end.

Definition first_info (ss : list string) : option (Z * Z * Z) := head (omap hardware_info ss).

(** Characters of a buffer all of which is initialised. *)
Lemma wp_load_char l (bytes : list ascii) i c x Q :
  0 ≤ i → bytes !! Z.to_nat i = Some c →
  l ↦ OChars (Some <$> bytes) -∗ (l ↦ OChars (Some <$> bytes) -∗ Q c x) -∗
  wp (load_elem as_chars (Heap l) i) x Q.
Proof.
  iIntros (Hi Hc) "Hl HQ". iApply (wp_load_elem with "Hl"); [done|done| |done].
  by rewrite list_lookup_fmap Hc.
Qed.

Lemma not_terminated_spec l bytes x :
  {{ l ↦ OChars (Some <$> bytes) }} not_terminated (Heap l) (Z.of_nat (List.length bytes)) @ x
  {{ r x', ⟪r = negb (ends_in_nuls bytes) ∧ x' = x⟫ ∗ l ↦ OChars (Some <$> bytes) }}.
Proof.
  iIntros "Hl". unfold not_terminated, ends_in_nuls. set (n := List.length bytes) in *.
  destruct (Nat.leb_spec 2 n) as [Hn|Hn]; cbn [andb].
  2: { destruct (Z.ltb_spec (Z.of_nat n) 2); [|lia]. wp_steps. by iFrame. }
  destruct (Z.ltb_spec (Z.of_nat n) 2); [lia|].
  destruct (lookup_lt_is_Some_2 bytes (n - 2)) as [c2 E2]; [lia|].
  destruct (lookup_lt_is_Some_2 bytes (n - 1)) as [c1 E1]; [lia|].
  assert (Ht : ∀ c, bool_decide (Some c = Some nul) = bool_decide (c = nul)).
  { intros c. apply bool_decide_ext. naive_solver. }
  rewrite E1 E2 !Ht. wp_step. iApply (wp_load_char with "Hl"); [lia| |].
  { by replace (Z.to_nat (Z.of_nat n - 2)) with (n - 2)%nat by lia. }
  iIntros "Hl".
  destruct (bool_decide (c2 = nul)); wp_simpl; [|wp_steps; by iFrame].
  wp_step. iApply (wp_load_char with "Hl"); [lia| |].
  { by replace (Z.to_nat (Z.of_nat n - 1)) with (n - 1)%nat by lia. }
  iIntros "Hl". wp_steps. by iFrame.
Qed.

Lemma capitalize_loop_spec l pre bytes x :
  {{ l ↦ OChars (Some <$> (pre ++ bytes)) }}
    capitalize_loop (List.length bytes) (Heap l) (Z.of_nat (List.length pre)) @ x
  {{ r x', ⟪x' = x⟫ ∗ l ↦ OChars (Some <$> (pre ++ (to_upper <$> bytes))) }}.
Proof.
  revert pre. induction bytes as [|c bytes IH]; intros pre; iIntros "Hl"; cbn [capitalize_loop List.length].
  { wp_steps. by iFrame. }
  wp_step. iApply (wp_load_char _ _ _ c with "Hl"); [lia| |].
  { rewrite Nat2Z.id. by rewrite lookup_app_r // Nat.sub_diag. }
  iIntros "Hl". specialize (IH (pre ++ [to_upper c])).
  rewrite length_app Nat2Z.inj_add -!app_assoc in IH. cbn [app fmap list_fmap].
  destruct (is_lower c) eqn:Ec; wp_steps.
  - iApply (wp_store_elem with "Hl"); [done| |].
    { rewrite length_fmap length_app. cbn [List.length]. lia. }
    iIntros "Hl". iApply IH. rewrite Nat2Z.id -list_fmap_insert insert_app_r_alt // Nat.sub_diag. iFrame.
  - iApply IH. unfold to_upper at 1. by rewrite Ec.
Qed.

Section specs.
Context `{OS : WindowsOS} {LAWS : WindowsLaws OS}.

Definition s_hardware_ids (node : Z) : Spec (list string) := λ h,
  let h1 := EvWin (WinPropertySize node HardwareIds) :: h in
  let h2 := EvWin (WinProperty node HardwareIds) :: h1 in
  match win_property h node HardwareIds with
  | inl (ty, bytes) => (hardware_ids_of ty bytes, h2)
  | inr code =>
      if code =? ERROR_INSUFFICIENT_BUFFER then
        (inl (win_error code "Failed to get hardware IDs."), h2)
      else (inl (win_error code "Failed to get size of hardware IDs."), h1)
  end.

(** The size and the data of a property, in two calls. *)
Lemma wp_property_size devs node nodes p x Q :
  handle_own devs (ODevInfoSet nodes) -∗
  (handle_own devs (ODevInfoSet nodes) -∗
   match win_property (x_trace x) node p with
   | inl (ty, bytes) => ∀ success x1,
       ⌜calm x x1 ∧ x_trace x1 = EvWin (WinPropertySize node p) :: x_trace x ∧
        negb success && negb (x_errno x1 =? ERROR_INSUFFICIENT_BUFFER) = false⌝ →
       Q (success, ty, Z.of_nat (List.length bytes)) x1
   | inr code => Q (false, 0, 0) (with_error code (win_ext (WinPropertySize node p) x))
   end) -∗
  wp (SetupDiGetDeviceRegistryProperty_size devs node p) x Q.
Proof.
  iIntros "Hd HQ". unfold SetupDiGetDeviceRegistryProperty_size, log_win, SetLastError. wp_step.
  iApply (wp_load_handle as_set with "Hd"); [done|]. iIntros "Hd". iSpecialize ("HQ" with "Hd").
  wp_steps. destruct (win_property (x_trace x) node p) as [[ty bytes]|code] eqn:E; wp_steps; [|iExact "HQ"].
  apply property_size in E. pose proof (calm_win (WinPropertySize node p) x) as Hc.
  destruct (Z.eqb_spec (Z.of_nat (List.length bytes)) 0) as [E0|E0]; wp_steps.
  - rewrite -E0. iApply "HQ". by iPureIntro.
  - unfold to_u32. rewrite wrap_id; [|unfold UINT32_MAX in E; lia]. iApply "HQ". by iPureIntro.
Qed.

Lemma wp_property_data devs node nodes p size x Q :
  handle_own devs (ODevInfoSet nodes) -∗
  (handle_own devs (ODevInfoSet nodes) -∗
   let x1 := win_ext (WinProperty node p) x in
   match win_property (x_trace x) node p with
   | inl (ty, bytes) => if Z.of_nat (List.length bytes) <=? size then Q (Some (ty, bytes)) x1
                        else Q None (with_error ERROR_INSUFFICIENT_BUFFER x1)
   | inr code => Q None (with_error code x1)
   end) -∗
  wp (property_data devs node p size) x Q.
Proof.
  iIntros "Hd HQ". unfold property_data, log_win. wp_step.
  iApply (wp_load_handle as_set with "Hd"); [done|]. iIntros "Hd". iSpecialize ("HQ" with "Hd").
  wp_steps. iApply wp_win_result. destruct (win_property _ _ _) as [[ty bytes]|code]; [|iExact "HQ"].
  destruct (_ <=? _); iExact "HQ".
Qed.

(** The part of [device_get_hardware_ids] that looks at the data. *)
Lemma hardware_ids_of_ends ty bytes :
  ty = REG_MULTI_SZ → ends_in_nuls bytes = true → hardware_ids_of ty bytes = inr (multi_sz (to_upper <$> bytes)).
Proof. intros -> E. unfold hardware_ids_of. by rewrite E. Qed.

Lemma capital_multi bytes :
  ends_in_nuls bytes = true →
  ∃ junk, Forall entry (multi_sz (to_upper <$> bytes)) ∧
    to_upper <$> bytes = multi (multi_sz (to_upper <$> bytes)) junk.
Proof.
  unfold ends_in_nuls. intros [[H1 H2]%andb_true_iff H3]%andb_true_iff.
  apply Nat.leb_le in H1. apply bool_decide_eq_true in H2, H3.
  destruct (ends_multi (to_upper <$> bytes)) as (ss & junk & Hss & E).
  { by rewrite length_fmap. }
  { rewrite length_fmap. by apply fmap_upper_nul. }
  { rewrite length_fmap. by apply fmap_upper_nul. }
  exists junk. rewrite E multi_sz_multi //.
Qed.

(** The hardware IDs of a node do not change while they are read. *)
Definition stable_ids (node : Z) : Prop := ∀ h,
  win_property (EvWin (WinPropertySize node HardwareIds) :: h) node HardwareIds =
  win_property h node HardwareIds.

Lemma device_get_hardware_ids_spec devs node nodes x :
  stable_ids node →
  {{ handle_own devs (ODevInfoSet nodes) }} device_get_hardware_ids devs node @ x {{ r x',
    handle_own devs (ODevInfoSet nodes) ∗
    returns (s_hardware_ids node) x x' r.1 (multi_own r.2) ⟪r.2 = NULL⟫ }}.
Proof.
  iIntros (Hstable) "Hd". iDestruct (handle_own_valid with "Hd") as "[%Hv Hd]".
  unfold device_get_hardware_ids, GetLastError, if_ok, then_check. rewrite Hv. wp_step. wp_steps.
  iApply (wp_property_size with "Hd"). iIntros "Hd".
  destruct (win_property (x_trace x) node HardwareIds) as [[ty bytes]|code] eqn:E.
  - iIntros (success x1 (Hc & Ht & Hb)). wp_steps. rewrite Hb. wp_steps.
    pose proof (property_size _ _ _ _ _ E) as Hsz.
    iApply wp_malloc_bytes; [lia|]. iSplit; last first.
    { iIntros (x' [Hq Ho]). wp_steps. iFrame. iApply returns_no_memory; [exact Hc|exact Hq|exact Ho|done]. }
    iIntros (l _) "Hl". unfold SetupDiGetDeviceRegistryProperty. wp_steps.
    iApply (wp_property_data with "Hd"). iIntros "Hd". cbn zeta. rewrite Ht Hstable E Z.leb_refl.
    set (x2 := win_ext _ x1). wp_steps.
    assert (Hs : s_hardware_ids node (x_trace x) = (hardware_ids_of ty bytes, x_trace x2)).
    { unfold s_hardware_ids, x2. cbn [win_ext x_trace]. by rewrite E Ht. }
    assert (Hc2 : calm x x2) by (etrans; [exact Hc|apply calm_win]).
    iApply (wp_write_prefix l [] with "Hl"); [done|by rewrite length_fmap length_replicate Nat2Z.id|].
    rewrite drop_ge; [|by rewrite length_fmap length_replicate Nat2Z.id].
    cbn [app]. rewrite app_nil_r. iIntros "Hl". wp_steps. unfold hardware_ids_of in Hs.
    destruct (ty =? REG_MULTI_SZ); wp_steps; cbn [negb] in Hs; last first.
    { iApply wp_error_create; [by rewrite !no_nul_app no_nul_fmt_d|]. err_intro. err_chain.
      iFrame "Hd". iApply (returns_err_from with "[-]"); [exact Hc2|exact Hs|by iFrame]. }
    wp_call (not_terminated_spec l bytes x2). iIntros (r ?) "[%Hr Hl]". destruct Hr as [-> ->].
    destruct (ends_in_nuls bytes) eqn:En; cbn [negb] in *; wp_steps; last first.
    { err_chain. iFrame "Hd". iApply (returns_err_from with "[-]"); [exact Hc2|exact Hs|by iFrame]. }
    rewrite Nat2Z.id. iApply (wp_wand with "[Hl]"); [by iApply (capitalize_loop_spec l [])|].
    iIntros ([] ?) "[-> Hl]". wp_steps. iFrame. iApply (returns_ok with "[Hl]"); [by split|].
    destruct (capital_multi bytes En) as (junk & Hj & Ej). cbn [app].
    revert Hj Ej. generalize (multi_sz (to_upper <$> bytes)). intros ss Hj ->.
    iExists l, junk. by iFrame.
  - wp_steps. cbn [with_error x_errno]. destruct (code =? ERROR_INSUFFICIENT_BUFFER) eqn:Ecode; wp_steps; last first.
    { iApply (wp_winapi_failed (s_hardware_ids node) _ x); [done|apply calm_win| |].
      { unfold s_hardware_ids. by rewrite E Ecode. }
      iIntros (r x' got [Hr Hf]) "He". wp_steps. iFrame. iRight. iExists got. by iFrame. }
    iApply wp_malloc_bytes; [done|]. iSplit; last first.
    { iIntros (x' [Hq Ho]). wp_steps. iFrame.
      iApply returns_no_memory; [apply (calm_win (WinPropertySize node HardwareIds) x)|exact Hq|exact Ho|done]. }
    iIntros (l _) "Hl". unfold SetupDiGetDeviceRegistryProperty. wp_steps.
    iApply (wp_property_data with "Hd"). iIntros "Hd". cbn zeta.
    change (x_trace (with_error code (win_ext (WinPropertySize node HardwareIds) x))) with
      (EvWin (WinPropertySize node HardwareIds) :: x_trace x).
    rewrite Hstable E. wp_steps.
    iApply (wp_winapi_failed (s_hardware_ids node) _ x); [done| | |].
    { auto with calm. }
    { unfold s_hardware_ids. by rewrite E Ecode. }
    iIntros (r x' got [Hr Hf]) "He". wp_steps. iFrame. iRight. iExists got. by iFrame.
Qed.

(** ** Numbers in the hardware IDs *)

Definition with_info (i : Z * Z * Z) (s : libusbp_device_windows) : libusbp_device_windows :=
  let '(vendor, product, revision) := i in
  {| wdev_device_instance_id := wdev_device_instance_id s; wdev_product_id := product;
     wdev_vendor_id := vendor; wdev_revision := revision |}.

Definition no_hardware_id : aerr := err_new "Device has no hardware ID with the correct format.".

Lemma scan_bytes s rest : no_nul s = true → scan (Some <$> (bytes_of s ++ rest)) = Some s.
Proof.
  intros Hs. unfold bytes_of. rewrite !fmap_app. change (Some <$> [nul]) with [Some nul].
  by apply (scan_text s (Some <$> rest)).
Qed.

Lemma hardware_ids_loop_spec fuel ld li pre ss junk s x :
  Forall entry ss → (List.length ss < fuel)%nat →
  {{ ld ↦ OWinDevice s ∗ li ↦ OChars (Some <$> (pre ++ multi ss junk)) }}
    hardware_ids_loop fuel (Heap ld) (Heap li) (Z.of_nat (List.length pre)) @ x
  {{ r x', li ↦ OChars (Some <$> (pre ++ multi ss junk)) ∗
     match first_info ss with
     | Some i => ⟪r = NULL ∧ x' = x⟫ ∗ ld ↦ OWinDevice (with_info i s)
     | None => err_res r no_hardware_id x x' ∗ ld ↦ OWinDevice s
     end }}.
Proof.
  revert fuel pre. induction ss as [|t ss IH]; intros fuel pre Hss Hf; (destruct fuel as [|fuel]; [cbn in Hf; lia|]);
    iIntros "[Hd Hl]"; cbn [hardware_ids_loop]; wp_step.
  { iApply (wp_load_char _ _ _ nul with "Hl"); [lia| |].
    { rewrite Nat2Z.id. by rewrite lookup_app_r // Nat.sub_diag. }
    iIntros "Hl". rewrite bool_decide_true //. iApply wp_error_create; [done|]. err_intro.
    iFrame. }
  apply Forall_cons in Hss as [[Ht Hne] Hss].
  assert (Hb : ∃ c t', bytes_of t = c :: t' ∧ bool_decide (c = nul) = false).
  { destruct t as [|c t]; [done|]. exists c, (bytes_of t). split; [done|].
    cbn in Ht. by destruct (bool_decide (c = nul)). }
  destruct Hb as (c & t' & Hb & Hc).
  iApply (wp_load_char _ _ _ c with "Hl"); [lia| |].
  { rewrite Nat2Z.id. by rewrite lookup_app_r // Nat.sub_diag multi_cons Hb. }
  iIntros "Hl". rewrite Hc. unfold read_text_at. wp_steps.
  rewrite Nat2Z.id -fmap_drop drop_app_length multi_cons scan_bytes //. wp_steps.
  assert (E : (Z.of_nat (List.length pre) + (slen t + 1))%Z = Z.of_nat (List.length (pre ++ bytes_of t))).
  { unfold bytes_of, slen. rewrite !length_app length_list_ascii. cbn. lia. }
  iAssert (li ↦ OChars (Some <$> (pre ++ bytes_of t ++ multi ss junk)))%I with "[$]" as "Hl".
  assert (Hrec : first_info (t :: ss) = match hardware_info t with Some i => Some i | None => first_info ss end).
  { unfold first_info. cbn. by destruct (hardware_info t). }
  rewrite Hrec. unfold hardware_info.
  destruct (sscanf hardware_id_format _) as [|v [|pr [|rv [|]]]] eqn:Es.
  4: { wp_step. iApply (wp_win_set_field with "Hd"). iIntros "Hd". wp_step.
       iApply (wp_win_set_field with "Hd"). iIntros "Hd". wp_step.
       iApply (wp_win_set_field with "Hd"). iIntros "Hd". wp_steps. iFrame. by iPureIntro. }
  all: rewrite E app_assoc; iApply (IH fuel (pre ++ bytes_of t)); [done|cbn in Hf; lia|]; iFrame.
Qed.

Lemma length_multi ss junk : (List.length ss < List.length (multi ss junk))%nat.
Proof.
  induction ss as [|s ss IH]; [cbn; lia|]. rewrite multi_cons length_app. unfold bytes_of.
  rewrite length_app. cbn [List.length]. lia.
Qed.

Lemma take_info_spec ld p ss s x :
  {{ ld ↦ OWinDevice s ∗ multi_own p ss }}
    device_take_info_from_hardware_ids (Heap ld) p @ x
  {{ r x', multi_own p ss ∗
     match first_info ss with
     | Some i => ⟪r = NULL ∧ x' = x⟫ ∗ ld ↦ OWinDevice (with_info i s)
     | None => err_res r no_hardware_id x x' ∗ ld ↦ OWinDevice (with_info (0, 0, 0)%Z s)
     end }}.
Proof.
  iIntros "[Hd (%li & %junk & %H & Hl)]". destruct H as [-> Hss].
  unfold device_take_info_from_hardware_ids. wp_steps.
  iApply (wp_win_set_field with "Hd"). iIntros "Hd". wp_step.
  iApply (wp_win_set_field with "Hd"). iIntros "Hd". wp_step.
  iApply (wp_win_set_field with "Hd"). iIntros "Hd". wp_steps.
  iAssert (li ↦ OChars (Some <$> multi ss junk))%I with "[$]" as "Hl".
  iApply (wp_wand with "[Hd Hl]").
  { iApply (hardware_ids_loop_spec _ ld li [] ss junk); [done| |iFrame].
    rewrite length_fmap. apply length_multi. }
  iIntros (r x') "[Hl H]". cbn [app]. iSplitL "Hl"; [iExists li, junk; by iFrame|].
  destruct (first_info ss) as [[[v pr] rv]|]; iFrame.
Qed.

(** ** Creation *)

Definition s_create_device (node : Z) : Spec win_device :=
  id ← s_instance_id "Error getting device instance ID." node;
  ids ← s_hardware_ids node;
  info ← sopt (first_info ids) no_hardware_id;
  let '(vendor, product, revision) := info in
  mret (WinDevice id product vendor revision).

Lemma free_multi p ss x : {{ multi_own p ss }} free p @ x {{ r x', ⟪x' = x⟫ }}.
Proof. iIntros "(%l & %junk & %H & Hl)". destruct H as [-> _]. wp_steps. by iPureIntro. Qed.

Lemma win_create_device_spec devs node nodes x :
  stable_ids node →
  {{ handle_own devs (ODevInfoSet nodes) }} create_device devs node @ x {{ r x',
    handle_own devs (ODevInfoSet nodes) ∗
    returns (s_create_device node) x x' r.1 (win_device_own r.2) ⟪r.2 = NULL⟫ }}.
Proof.
  iIntros (Hstable) "Hs". iDestruct (handle_own_valid with "Hs") as "[%Hv Hs]".
  unfold create_device, then_check, if_ok, libusbp_string_free. rewrite Hv. wp_step. wp_steps.
  wp_call (win_device_allocate_spec x). iIntros ([e q] x1) "H". returned "H"; last first.
  { iDestruct "Hbad" as %->. wp_steps. iApply win_device_free_null. wp_steps. iFrame. iRight. iExists got.
    iFrame. iPureIntro. split; [by eapply pure_failed|done]. }
  apply succeeded_ret_inv in Ha as (-> & Ht & Hc). iDestruct "Hok" as (ld) "[-> Hd]".
  assert (Hsp : s_create_device node (x_trace x) = s_create_device node (x_trace x1)) by by rewrite Ht.
  wp_steps. wp_call (create_id_string_spec devs node nodes x1). iIntros ([e id] x2) "[Hs H]".
  returned "H"; last first.
  { iDestruct "Hbad" as %->. wp_steps.
    wp_call (win_device_free_no_id ld zeroed_device x2 eq_refl). iIntros ([] ?) "->". wp_steps. iFrame.
    iApply (returns_tail with "[-]"); [exact Hc|exact Hsp|]. fails. }
  rename a into id_text. iDestruct "Hok" as (qi) "[-> Hi]". wp_step.
  iApply (wp_win_set_field with "Hd"). iIntros "Hd". wp_steps.
  set (s1 := set_instance_id qi zeroed_device).
  wp_call (device_get_hardware_ids_spec devs node nodes x2 Hstable). iIntros ([e ids] x3) "[Hs H]".
  returned "H"; last first.
  { iDestruct "Hbad" as %->. wp_steps.
    wp_call (win_device_free_parts ld s1 qi id_text x3 eq_refl). iIntros ([] ?) "->". wp_steps. iFrame.
    iApply (returns_tail with "[-]"); [exact Hc|exact Hsp|]. fails. }
  rename a into ss. wp_step. wp_call (take_info_spec ld ids ss s1 x3). iIntros (r x4) "[Hm H]".
  destruct (first_info ss) as [[[v pr] rv]|] eqn:Ei.
  - iDestruct "H" as "[%H Hd]". destruct H as [-> ->]. wp_steps.
    wp_call (free_multi ids ss x3). iIntros ([] ?) "->". wp_steps. iApply win_device_free_null.
    wp_steps. iFrame. iApply (returns_tail with "[-]"); [exact Hc|exact Hsp|].
    iApply (returns_ok _ _ _ (WinDevice id_text pr v rv) with "[-]").
    { eapply succeeded_bind; [eassumption|]. eapply succeeded_bind; [eassumption|].
      rewrite Ei. by eapply succeeded_bind; apply succeeded_ret. }
    iExists ld, qi. by iFrame.
  - iDestruct "H" as "[He Hd]". iDestruct (err_res_not_null with "He") as "[%Hn He]". wp_steps.
    wp_call (free_multi ids ss x4). iIntros ([] ?) "->". wp_steps.
    wp_call (win_device_free_parts ld (with_info (0, 0, 0)%Z s1) qi id_text x4 eq_refl). iIntros ([] ?) "->".
    wp_steps. iFrame. iApply (returns_tail with "[-]"); [exact Hc|exact Hsp|].
    destruct Ha as [Hc2 E2], Ha0 as [Hc3 E3].
    iApply (returns_err_from with "[-]"); [exact (transitivity Hc2 Hc3)| |by iFrame].
    unfold s_create_device. rewrite (sbind_ok _ _ _ _ _ E2) (sbind_ok _ _ _ _ _ E3) Ei. by apply sbind_err.
Qed.
End specs.

(** ** Copies *)

Lemma take_cstr s rest : take (Z.to_nat (slen s + 1)) (cstr s ++ rest) = cstr s.
Proof.
  rewrite (_ : Z.to_nat (slen s + 1) = List.length (cstr s)); [apply take_app_length|].
  rewrite length_cstr. unfold slen. lia.
Qed.

Lemma copy_id_spec p s x :
  {{ text_own p s }} copy_id p @ x {{ r x',
    text_own p s ∗
    ((⟪is_null r = false ∧ x' = x⟫ ∗ text_own r s) ∨ ⟪r = NULL ∧ quiet x x' ∧ oomed x x'⟫) }}.
Proof.
  iIntros "H". iDestruct (text_own_facts with "H") as "[%Hs H]". destruct Hs as (Hs & Hlen & Hn).
  pose proof (slen_nonneg s). unfold copy_id. rewrite Hn. wp_step. wp_steps.
  iApply (wp_strlen with "H"); [apply reads_text|]. iIntros "H". wp_steps.
  rewrite to_size_id; [|unfold SIZE_MAX, PTRDIFF_MAX in *; lia].
  iApply wp_malloc_bytes; [lia|]. iSplit.
  - iIntros (l Hl) "Hl". iDestruct "H" as (lp rest) "[%Hp Hp]". destruct Hp as (-> & _ & _). wp_steps.
    iAssert (lp ↦ OChars (cstr s ++ rest))%I with "[$]" as "Hp".
    assert (Hle : (slen s + 1 <=? Z.of_nat (List.length (cstr s ++ rest))) = true).
    { apply Z.leb_le. rewrite length_app length_cstr. unfold slen. lia. }
    rewrite Hle.
    rewrite take_cstr. iApply (wp_write_prefix l [] with "Hl"); [done| |].
    { rewrite length_cstr length_replicate. unfold slen. lia. }
    iIntros "Hl". cbn [app]. rewrite drop_ge; [|rewrite length_cstr length_replicate; unfold slen; lia].
    wp_steps. iSplitL "Hp"; [iExists lp, rest; by iFrame|]. iLeft. iSplit; [done|].
    iExists l, []. by iFrame.
  - iIntros (x' [Hq Ho]). wp_steps. iFrame. by iRight.
Qed.

Lemma win_device_copy_spec p d x :
  {{ win_device_own p d }} libusbp_device_copy p true @ x {{ r x',
    win_device_own p d ∗
    returns (mret d) x x' r.1 (λ d, ∃ q, ⟪r.2 = Some q⟫ ∗ win_device_own q d) ⟪r.2 = Some NULL⟫ }}.
Proof.
  iIntros "H". iDestruct (win_device_own_not_null with "H") as "[%Hn H]".
  unfold libusbp_device_copy, then_check. wp_steps.
  wp_call (win_device_allocate_spec x). iIntros ([e q] x1) "Hnew". returned "Hnew"; last first.
  { iDestruct "Hbad" as %->. wp_steps. iApply win_device_free_null. wp_steps. iFrame. iRight. iExists got.
    iFrame. iPureIntro. split; [by eapply pure_failed|done]. }
  apply succeeded_ret_inv in Ha as (-> & Ht & Hc). iDestruct "Hok" as (l) "[-> Hl]".
  wp_steps. iApply (win_device_own_load with "H"). iIntros (qi) "Hi H".
  wp_steps. cbn [win_device_struct wdev_device_instance_id].
  wp_call (copy_id_spec qi (wd_id d) x1). iIntros (r x2) "[Hi [[%Hr Hnew]|%Hr]]";
    iDestruct ("H" with "Hi") as "H".
  - destruct Hr as [Hr ->]. wp_steps. iApply (wp_win_set_field with "Hl"). iIntros "Hl". wp_steps.
    iApply (win_device_own_load with "H"). iIntros (q2) "Hi H". iDestruct ("H" with "Hi") as "H". wp_step.
    iApply (wp_win_set_field with "Hl"). iIntros "Hl". wp_step.
    iApply (wp_win_set_field with "Hl"). iIntros "Hl".
    iApply (wp_win_set_field with "Hl"). iIntros "Hl". wp_steps. iApply win_device_free_null. wp_steps.
    iFrame "H". iApply (returns_ok _ _ _ d with "[-]"); [by apply succeeded_ret|].
    iExists (Heap l). iSplit; [done|]. iExists l, r. by iFrame.
  - destruct Hr as (-> & Hq & Ho). wp_steps.
    wp_call (win_device_free_no_id l zeroed_device x2 eq_refl). iIntros ([] ?) "->". wp_steps. iFrame "H".
    iApply (returns_no_memory _ _ x1); done.
Qed.

(** ** Getters *)

Lemma win_device_get_number_spec field name value p d x :
  (∀ q, field (win_device_struct q d) = value) →
  {{ win_device_own p d }} device_get_number field name p true @ x {{ r x',
    ⟪r = (NULL, Some value) ∧ x' = x⟫ ∗ win_device_own p d }}.
Proof.
  iIntros (Hf) "H". iDestruct (win_device_own_not_null with "H") as "[%Hn H]".
  unfold device_get_number. wp_steps. iApply (win_device_own_load with "H").
  iIntros (q) "Hs H". rewrite Hf. wp_steps. iSplit; [done|]. by iApply "H".
Qed.

Lemma win_get_vendor_id_spec p d x :
  {{ win_device_own p d }} libusbp_device_get_vendor_id p true @ x {{ r x',
    ⟪r = (NULL, Some (wd_vendor d)) ∧ x' = x⟫ ∗ win_device_own p d }}.
Proof. by apply win_device_get_number_spec. Qed.

Lemma win_get_product_id_spec p d x :
  {{ win_device_own p d }} libusbp_device_get_product_id p true @ x {{ r x',
    ⟪r = (NULL, Some (wd_product d)) ∧ x' = x⟫ ∗ win_device_own p d }}.
Proof. by apply win_device_get_number_spec. Qed.

Lemma win_get_revision_spec p d x :
  {{ win_device_own p d }} libusbp_device_get_revision p true @ x {{ r x',
    ⟪r = (NULL, Some (wd_revision d)) ∧ x' = x⟫ ∗ win_device_own p d }}.
Proof. by apply win_device_get_number_spec. Qed.

Lemma win_get_os_id_spec p d x :
  {{ win_device_own p d }} libusbp_device_get_os_id p true @ x {{ r x',
    win_device_own p d ∗
    returns (mret (wd_id d)) x x' r.1 (out_str r.2) ⟪r.2 = Some NULL⟫ }}.
Proof.
  iIntros "H". iDestruct (win_device_own_not_null with "H") as "[%Hn H]".
  unfold libusbp_device_get_os_id. wp_steps. iApply (win_device_own_load with "H").
  iIntros (q) "Hs H". wp_steps. cbn [win_device_struct wdev_device_instance_id].
  wp_call (string_copy_text q (wd_id d) x). iIntros ([e c] x1) "[Hs Hc]". wp_steps.
  iDestruct ("H" with "Hs") as "H". iFrame. by iApply returns_out_str.
Qed.

(** Everything from the character [n] on. *)
Fixpoint sdrop (n : nat) (s : string) : string :=
  match n, s with
  | O, _ => s
  | S n, String _ s => sdrop n s
  | S _, "" => ""
  end%string.

Lemma scan_drop n s rest :
  no_nul s = true → (n ≤ String.length s)%nat →
  scan (drop n (cstr s ++ rest)) = Some (sdrop n s) ∧ no_nul (sdrop n s) = true.
Proof.
  revert s. induction n as [|n IH]; intros s Hs Hn; [by rewrite scan_text|].
  destruct s as [|c s]; [cbn in Hn; lia|]. cbn in Hs, Hn.
  apply andb_true_iff in Hs as [_ Hs]. apply IH; [done|lia].
Qed.

(** On Windows the serial number is what follows "USB\VID_xxxx&PID_xxxx\" in the ID. *)
Definition s_serial_number (d : win_device) : Spec string :=
  scontext "Failed to get serial number."
    (if slen (wd_id d) <? 22 then sfail (err_new "Device instance ID is too short.")
     else mret (sdrop 22 (wd_id d))).

Lemma sdrop_shorter n s : slen (sdrop n s) ≤ slen s.
Proof.
  revert s. induction n as [|n IH]; intros [|c s]; cbn [sdrop]; try lia.
  specialize (IH s). unfold slen in *. cbn [String.length]. lia.
Qed.

Lemma win_get_serial_number_spec p d x :
  {{ win_device_own p d }} libusbp_device_get_serial_number p true @ x {{ r x',
    win_device_own p d ∗
    returns (s_serial_number d) x x' r.1 (out_str r.2) ⟪r.2 = Some NULL⟫ }}.
Proof.
  iIntros "H". iDestruct (win_device_own_not_null with "H") as "[%Hn H]".
  unfold libusbp_device_get_serial_number, if_ok, s_serial_number. wp_steps.
  iApply (win_device_own_load with "H").
  iIntros (q) "Hs H". wp_steps. cbn [win_device_struct wdev_device_instance_id].
  iDestruct (text_own_facts with "Hs") as "[%Hf Hs]". destruct Hf as (Hno & Hlen & Hqn).
  iApply (wp_strlen with "Hs"); [apply reads_text|]. iIntros "Hs". wp_steps.
  destruct (Z.ltb_spec (slen (wd_id d)) 22) as [Hlt|Hge].
  - iDestruct ("H" with "Hs") as "H". iApply wp_error_create; [done|].
    iIntros (r x1 Hr) "He". wp_steps. iApply (wp_error_add with "He"); [done|].
    iIntros (r2 x2 Hr2) "He". wp_steps. iFrame "H".
    iApply (returns_err with "[-]"); [done|by iFrame].
  - wp_steps. unfold string_copy_at, read_text_at.
    iDestruct "Hs" as (lq rest) "[%Hq Hq]". destruct Hq as (-> & _ & _). wp_steps.
    destruct (scan_drop 22 (wd_id d) rest Hno) as [Hsc Hsn].
    { unfold slen in Hge. lia. }
    rewrite (_ : Z.to_nat 22 = 22%nat) // Hsc. wp_steps.
    iAssert (lq ↦ OChars (cstr (wd_id d) ++ rest))%I with "[$]" as "Hq".
    iDestruct ("H" with "[Hq]") as "H"; [iExists lq, rest; by iFrame|].
    pose proof (slen_nonneg (sdrop 22 (wd_id d))). pose proof (sdrop_shorter 22 (wd_id d)).
    iApply wp_malloc_pos; [lia|]. iSplit.
    + iIntros (l Hl) "Hl". wp_steps. iFrame "H".
      iApply (returns_ok _ _ _ (sdrop 22 (wd_id d)) with "[-]"); [by apply scontext_ok, succeeded_ret|].
      iExists (Heap l). iSplit; [done|]. iExists l. iFrame. iPureIntro. split_and!; [done..|lia].
    + iIntros (x' [Hq Ho]). wp_steps.
      iApply (wp_add_context (mret (sdrop 22 (wd_id d))) _ _ no_memory x); [done| |by iLeft; iPureIntro; eexists|].
      { by apply failed_no_memory. }
      iIntros (r x2 got [Hr Hf]) "He". wp_steps. iFrame "H". iRight. iExists got. by iFrame.
Qed.

(** ** Properties *)

Section properties.
Context `{OS : WindowsOS} {LAWS : WindowsLaws OS}.

(** A hardware ID of a device, in small or capital letters, as Windows prints it:
    four digits for each number, and something after them. *)
Definition names_device (s : string) (v p r : Z) : Prop :=
  ∃ rest, upper s = upper ("USB\VID_" +:+ fmt_x 4 v +:+ "&PID_" +:+ fmt_x 4 p +:+ "&REV_" +:+
                           fmt_x 4 r +:+ rest).

Lemma list_ascii_upper s : String.list_ascii_of_string (upper s) = to_upper <$> String.list_ascii_of_string s.
Proof. apply String.list_ascii_of_string_of_list_ascii. Qed.

Lemma hardware_info_printed s v p r :
  u16 v → u16 p → u16 r → names_device s v p r → hardware_info (upper s) = Some (v, p, r).
Proof.
  intros Hv Hp Hr [rest E]. unfold u16 in *. unfold hardware_info. rewrite E list_ascii_upper.
  rewrite !list_ascii_app !fmap_app. unfold hardware_id_format. cbn [sscanf].
  rewrite (_ : to_upper <$> String.list_ascii_of_string "USB\VID_" = String.list_ascii_of_string "USB\VID_") //.
  rewrite match_text_chars scan_upper //.
  rewrite (_ : to_upper <$> String.list_ascii_of_string "&PID_" = String.list_ascii_of_string "&PID_") //.
  rewrite match_text_chars scan_upper //.
  rewrite (_ : to_upper <$> String.list_ascii_of_string "&REV_" = String.list_ascii_of_string "&REV_") //.
  rewrite match_text_chars scan_upper //. unfold to_u16. by rewrite !wrap_id.
Qed.

Lemma first_info_found pre s post i :
  Forall (λ t, hardware_info t = None) pre → hardware_info s = Some i → first_info (pre ++ s :: post) = Some i.
Proof.
  intros Hpre Hs. unfold first_info. induction Hpre as [|t pre Ht _ IH]; cbn; [by rewrite Hs|]. by rewrite Ht.
Qed.

Lemma multi_ends ss : ss ≠ [] → ends_in_nuls (multi ss []) = true.
Proof.
  intros Hne. destruct (exists_last Hne) as (init & s & ->). unfold ends_in_nuls, multi.
  rewrite fmap_app join_app. cbn [fmap list_fmap mjoin list_join]. rewrite app_nil_r. unfold bytes_of at 2 4 6 8.
  set (a := mjoin _). set (b := String.list_ascii_of_string s).
  rewrite (_ : (a ++ b ++ [nul]) ++ [nul] = (a ++ b) ++ [nul; nul]); [|by rewrite -!app_assoc].
  generalize (a ++ b). intros cs. rewrite length_app. cbn [List.length].
  rewrite (proj2 (Nat.leb_le 2 (List.length cs + 2)) ltac:(lia)).
  rewrite lookup_app_r; [|lia]. rewrite lookup_app_r; [|lia].
  rewrite (_ : (List.length cs + 2 - 2 - List.length cs)%nat = 0%nat); [|lia].
  rewrite (_ : (List.length cs + 2 - 1 - List.length cs)%nat = 1%nat); [|lia]. done.
Qed.

Lemma instance_id_reads text node id h :
  no_nul id = true → slen id ≤ MAX_DEVICE_ID_LEN → win_instance_id h node = inl id →
  s_instance_id text node h = (inr id, EvWin (WinInstanceId node) :: h).
Proof.
  intros Hno Hlen Hi. unfold s_instance_id, s_win, fitting_id. rewrite Hi until_nul_id //.
  by rewrite (proj2 (Z.leb_le _ _) Hlen).
Qed.

Lemma hardware_ids_read node ids h :
  ids ≠ [] → Forall entry ids → (∀ h, win_property h node HardwareIds = inl (REG_MULTI_SZ, multi ids [])) →
  ∃ h', s_hardware_ids node h = (inr (upper <$> ids), h').
Proof.
  intros Hne Hids Hp. unfold s_hardware_ids. rewrite Hp. eexists. unfold hardware_ids_of.
  rewrite Z.eqb_refl multi_ends //. cbn [negb]. rewrite multi_upper multi_sz_multi; [done|].
  apply Forall_fmap. eapply Forall_impl; [exact Hids|apply entry_upper].
Qed.

Lemma create_device_reads node id pre s post v p r h :
  u16 v → u16 p → u16 r → names_device s v p r →
  Forall entry (pre ++ s :: post) → Forall (λ t, hardware_info (upper t) = None) pre →
  (∀ h, win_property h node HardwareIds = inl (REG_MULTI_SZ, multi (pre ++ s :: post) [])) →
  no_nul id = true → slen id ≤ MAX_DEVICE_ID_LEN → (∀ h, win_instance_id h node = inl id) →
  ∃ h', s_create_device node h = (inr (WinDevice id p v r), h').
Proof.
  intros Hv Hp Hr Hs Hentry Hpre Hprop Hno Hlen Hinst. unfold s_create_device.
  erewrite sbind_ok; [|by apply instance_id_reads].
  destruct (hardware_ids_read node (pre ++ s :: post) (EvWin (WinInstanceId node) :: h)) as [h1 E];
    [by destruct pre|done|done|]. exists h1. erewrite sbind_ok; [|exact E].
  rewrite fmap_app fmap_cons (first_info_found _ _ _ (v, p, r)); [|by apply Forall_fmap|by apply hardware_info_printed].
  cbn [sopt]. rewrite (sbind_ok _ _ (v, p, r) h1 h1); by rewrite sret_eq.
Qed.

Lemma sdrop_app s t : sdrop (String.length s) (s +:+ t) = t.
Proof. induction s as [|c s IH]; [by destruct t|]. exact IH. Qed.

Lemma string_assoc (a b c : string) : (a +:+ b) +:+ c = a +:+ b +:+ c.
Proof.
  induction a as [|x a IH]; [done|].
  change (String x ((a +:+ b) +:+ c) = String x (a +:+ b +:+ c)). by rewrite IH.
Qed.

Lemma serial_number_reads v4 p4 serial p v r h :
  slen v4 = 4 → slen p4 = 4 →
  s_serial_number (WinDevice ("USB\VID_" +:+ v4 +:+ "&PID_" +:+ p4 +:+ "\" +:+ serial) p v r) h =
    (inr serial, h).
Proof.
  intros Hv Hp. set (front := "USB\VID_" +:+ v4 +:+ "&PID_" +:+ p4 +:+ "\").
  rewrite (_ : "USB\VID_" +:+ v4 +:+ _ = front +:+ serial); [|by unfold front; rewrite !string_assoc].
  assert (Hlen : slen front = 22).
  { unfold front. rewrite !slen_app Hv Hp. done. }
  unfold s_serial_number, scontext. cbn [wd_id].
  pose proof (slen_nonneg serial). rewrite (proj2 (Z.ltb_ge _ _)); [|rewrite slen_app; lia].
  rewrite sret_eq. assert (22%nat = String.length front) as -> by (unfold slen in Hlen; lia).
  by rewrite sdrop_app.
Qed.

Lemma returns_same {A} (s : Spec A) a x x' e ok bad :
  s (x_trace x) = (inr a, x_trace x) → returns s x x' e ok bad ⊢ returns (mret a) x x' e ok bad.
Proof. intros H. unfold returns, succeeded, failed. by rewrite H sret_eq. Qed.

(** C33. On Windows the identity of a device survives its way through the registry: when
    one of the hardware IDs of a node, as REG_MULTI_SZ in any case, was printed from a vendor
    ID, a product ID and a revision, and no ID before it has this form, then creating the
    device and asking it gives exactly these numbers; and when the instance ID is the usual
    one, the serial number is what was printed at its end.  Only a failed allocation can
    prevent that, and nothing is kept then. *)
Theorem win_device_identity_roundtrip devs nodes node id v4 p4 serial pre s post v p r x :
  u16 v → u16 p → u16 r → names_device s v p r →
  Forall entry (pre ++ s :: post) → Forall (λ t, hardware_info (upper t) = None) pre →
  (∀ h, win_property h node HardwareIds = inl (REG_MULTI_SZ, multi (pre ++ s :: post) [])) →
  id = "USB\VID_" +:+ v4 +:+ "&PID_" +:+ p4 +:+ "\" +:+ serial → slen v4 = 4 → slen p4 = 4 →
  no_nul id = true → slen id ≤ MAX_DEVICE_ID_LEN →
  (∀ h, win_instance_id h node = inl id) →
  {{ handle_own devs (ODevInfoSet nodes) }}
    ('(e, d) ← create_device devs node;
     if is_null e then
       '(_, vendor) ← libusbp_device_get_vendor_id d true;
       '(_, product) ← libusbp_device_get_product_id d true;
       '(_, revision) ← libusbp_device_get_revision d true;
       '(e, number) ← libusbp_device_get_serial_number d true;
       libusbp_device_free d;;
       mret (Some (vendor, product, revision), e, number)
     else mret (None, e, None)) @ x
  {{ res x', handle_own devs (ODevInfoSet nodes) ∗
     ((∃ x1, ⟪calm x x1 ∧ res.1.1 = Some (Some v, Some p, Some r)⟫ ∗
        returns (mret serial) x1 x' res.1.2 (out_str res.2) ⟪res.2 = Some NULL⟫) ∨
      (∃ got, ⟪res.1.1 = None ∧ oomed x x' ∧ mem_err got⟫ ∗ err_own res.1.2 got)) }}.
Proof.
  iIntros (Hv Hp Hr Hs Hentry Hpre Hprop Hid H4v H4p Hno Hlen Hinst) "Hd".
  destruct (create_device_reads node id pre s post v p r (x_trace x)) as [h' E]; [done..|].
  assert (Hstable : stable_ids node) by (intros h; by rewrite (Hprop h) Hprop).
  set (dev := WinDevice id p v r). wp_step. wp_call (win_create_device_spec devs node nodes x Hstable).
  iIntros ([e d] x1) "[Hd H]". returned "H"; last first.
  { iDestruct "Hbad" as %->. wp_steps. iFrame "Hd". iRight. iExists got. iFrame "He". iPureIntro.
    destruct Hfailed as [_ [Hf|[Hm Ho]]]; [by rewrite E in Hf|done]. }
  destruct Ha as [Hc Ha]. rewrite E in Ha. injection Ha as <- _. fold dev. wp_steps.
  wp_call (win_get_vendor_id_spec d dev x1). iIntros (? ?) "[%H Hw]". destruct H as [-> ->]. wp_steps.
  wp_call (win_get_product_id_spec d dev x1). iIntros (? ?) "[%H Hw]". destruct H as [-> ->]. wp_steps.
  wp_call (win_get_revision_spec d dev x1). iIntros (? ?) "[%H Hw]". destruct H as [-> ->]. wp_steps.
  wp_call (win_get_serial_number_spec d dev x1). iIntros ([e2 number] x2) "[Hw Hs]". wp_steps.
  wp_call (win_device_free_spec d dev x2). iIntros ([] ?) "->". wp_steps. iFrame "Hd". iLeft. iExists x1.
  iSplit; [by iPureIntro|]. iApply (returns_same with "Hs"). unfold dev. by apply serial_number_reads.
Qed.
End properties.

(** ** On the example machine *)

#[local] Existing Instance Example_win.machine.
#[local] Existing Instance Example_win.machine_laws.

Lemma win_device_identity_roundtrip_witness :
  let devs := Some (Heap 4%positive) in let nodes := [Example_win.composite_device] in
  let x := Ext [] 0 0 in
  let s := "USB\Vid_1ffb&Pid_da01&Rev_0111" in let rest := ["USB\Vid_1ffb&Pid_da01"] in
  names_device s 0x1ffb 0xda01 0x111 ∧ multi (s :: rest) [] = Example_win.hardware_ids ∧
  {{ handle_own devs (ODevInfoSet nodes) }}
    ('(e, d) ← create_device devs Example_win.composite_device;
     if is_null e then
       '(_, vendor) ← libusbp_device_get_vendor_id d true;
       '(_, product) ← libusbp_device_get_product_id d true;
       '(_, revision) ← libusbp_device_get_revision d true;
       '(e, number) ← libusbp_device_get_serial_number d true;
       libusbp_device_free d;;
       mret (Some (vendor, product, revision), e, number)
     else mret (None, e, None)) @ x
  {{ res x', handle_own devs (ODevInfoSet nodes) ∗
     ((∃ x1, ⟪calm x x1 ∧ res.1.1 = Some (Some 0x1ffb, Some 0xda01, Some 0x111)⟫ ∗
        returns (mret "00012345") x1 x' res.1.2 (out_str res.2) ⟪res.2 = Some NULL⟫) ∨
      (∃ got, ⟪res.1.1 = None ∧ oomed x x' ∧ mem_err got⟫ ∗ err_own res.1.2 got)) }}.
Proof.
  intros devs nodes x s rest.
  assert (Hs : names_device s 0x1ffb 0xda01 0x111) by (exists ""; by vm_compute).
  assert (He : ∀ t, bool_decide (t ∈ s :: rest) = true → entry t).
  { intros t Ht%bool_decide_eq_true_1. unfold rest in Ht. rewrite !elem_of_cons elem_of_nil in Ht.
    destruct_or?; subst; by vm_compute. }
  split; [done|]. split; [by vm_compute|].
  refine (win_device_identity_roundtrip devs nodes Example_win.composite_device
    "USB\VID_1FFB&PID_DA01\00012345" "1FFB" "DA01" "00012345" [] s rest 0x1ffb 0xda01 0x111 x
    _ _ _ Hs _ _ (λ _, _) _ _ _ _ _ (λ _, _)).
  - unfold u16. lia.
  - unfold u16. lia.
  - unfold u16. lia.
  - apply Forall_forall. intros t Ht. apply He. by apply bool_decide_eq_true_2.
  - constructor.
  - by vm_compute.
  - done.
  - done.
  - done.
  - done.
  - by vm_compute.
  - done.
Defined.
