(* ===== verification/ListWindows.v ===== *)
(** * ListWindows: listing devices on Windows (src/src/windows/list_windows.c)

    [libusbp_list_connected_devices] builds the array of devices from the USB device
    nodes; a device that cannot be examined is left out. *)

From S2P Require Import Prelude Memory Logic Errors Results Basics Strings WindowsOS ErrorWindows SetupWindows DeviceWindows.
#[local] Set Warnings "-rewrite-rw".

Section code.
Context `{OS : WindowsOS}.

(** What is stored in [*device], which is NULL before. *)
Definition try_create_device (list : HANDLE) (info : Z) : M ptr :=
  '(error, device) ← create_device list info;
  when (negb (is_null error))
    (c_assert (is_null device);;
     libusbp_error_free error);;
  mret device.

(** The loop: the error, the list and the count. *)
Fixpoint list_connected_devices_loop (fuel : nat) (handle : HANDLE) (index : Z)
    (new_list : ptr) (count : Z) : M (ptr * ptr * Z) :=
  match fuel with
  | O => stuck OutOfFuel
  | S fuel =>
      (* See if we have reached the end of the list. *)
      info ← SetupDiEnumDeviceInfo handle index;
      match info with
      | None =>
          code ← GetLastError;
          if code =? ERROR_NO_MORE_ITEMS then mret (NULL, new_list, count) else
          error ← error_create_winapi "Failed to test for the end of the USB device list.";
          mret (error, new_list, count)
      | Some info =>
          device ← try_create_device handle info;
          '(error, new_list, count) ←
            (if negb (is_null device) then device_list_append new_list count device
             else mret (NULL, new_list, count));
          if is_null error then
            list_connected_devices_loop fuel handle (next_index index) new_list count
          else mret (error, new_list, count)
      end
  end.

(** The error, what is stored in [*device_list] and what is stored in
    [*device_count]. *)
Definition libusbp_list_connected_devices (list_given count_given : bool) :
    M (ptr * option ptr * option Z) :=
  let device_count := if count_given then Some 0 else None in
  if negb list_given then
    error ← error_create "Device list output pointer is null.";
    mret (error, None, device_count)
  else
  (* Get a list of all USB devices from Windows. *)
  handle ← SetupDiGetClassDevs UsbDevices;
  error ← win_check (is_valid handle) "Failed to list all USB devices.";
  (* Start a new device list. *)
  '(error, new_list) ← if_ok error NULL device_list_create;
  (* Each iteration of this loop attempts to set up a new device. *)
  '(error, new_list, count) ←
    (if is_null error then
       fuel ← set_rounds handle;
       list_connected_devices_loop fuel handle 0 new_list 0
     else mret (error, new_list, 0));
  (* Give the list and count to the caller. *)
  let '(device_list, device_count, new_list) :=
    if is_null error then
      (Some new_list, if count_given then Some count else device_count, NULL)
    else (None, device_count, new_list) in
  (* Clean up. *)
  when (is_valid handle) (SetupDiDestroyDeviceInfoList handle);;
  when (negb (is_null new_list)) (free_devices_and_list libusbp_device_free new_list);;
  mret (error, device_list, device_count).
End code.

(** ** What the functions mean *)

Section specs.
Context `{OS : WindowsOS} {LAWS : WindowsLaws OS} {STABLE : PropertiesStable OS}.

(** The devices of the nodes from number [n] on, without those that cannot be examined. *)
Fixpoint s_create_devices (n : nat) (nodes : list Z) : Spec (list win_device) := λ h,
  let h1 := EvWin (WinEnumDevice (Z.of_nat n)) :: h in
  match win_enum_failure h (Z.of_nat n), nodes with
  | Some code, _ =>
      (if code =? ERROR_NO_MORE_ITEMS then inr []
       else inl (win_error code "Failed to test for the end of the USB device list."), h1)
  | None, [] => (inr [], h1)
  | None, node :: nodes =>
      let '(r, h2) := s_create_device node h1 in
      let '(ds, h3) := s_create_devices (S n) nodes h2 in
      (match r, ds with
       | inr d, inr ds => inr (d :: ds)
       | _, _ => ds
       end, h3)
  end.

Definition s_class_devs (c : device_class) (text : string) : Spec (list Z) := λ h,
  s_win (win_class_devs h c) (WinClassDevs c) text h.

Definition s_list_connected : Spec (list win_device) :=
  nodes ← s_class_devs UsbDevices "Failed to list all USB devices.";
  s_create_devices 0 nodes.

(** ** One device *)

Definition opt_win_device (p : ptr) (o : option win_device) : hProp :=
  match o with Some d => win_device_own p d | None => ⟪p = NULL⟫ end%I.

Definition created (r : aerr + win_device) : option win_device :=
  match r with inr d => Some d | inl _ => None end.

Lemma win_try_create_device_spec devs nodes node x :
  {{ set_own devs nodes }} try_create_device devs node @ x {{ r x',
    set_own devs nodes ∗ ∃ t, opt_win_device r (created t) ∗ ⟪roughly (s_create_device node) x x' t⟫ }}.
Proof.
  iIntros "Hs". iDestruct (set_own_use with "Hs") as "[Hd Hs]".
  unfold try_create_device. wp_step. wp_call (win_create_device_spec devs node nodes x (λ h, property_stable h node HardwareIds)).
  iIntros ([e p] x1) "[Hd H]". iSpecialize ("Hs" with "Hd"). returned "H".
  - wp_steps. iFrame. iExists (inr a). iFrame. iPureIntro. destruct Ha as [Hc E]. split; [done|by left].
  - iDestruct "Hbad" as %->. wp_steps.
    wp_call (libusbp_error_free_spec e (Some got) x1). iIntros ([] ?) "->". wp_steps. iFrame.
    iExists (inl got). iPureIntro. split; [done|]. destruct Hfailed as [Hc E]. split; [done|].
    destruct E as [E|[_ E]]; [by left|by right].
Qed.

Definition with_device (t : aerr + win_device) (r : aerr + list win_device) : aerr + list win_device :=
  match t, r with inr d, inr ds => inr (d :: ds) | _, _ => r end.

(** The first node and the rest. *)
Lemma roughly_cons n node nodes x x1 x' t r :
  win_enum_failure (x_trace x) (Z.of_nat n) = None →
  roughly (s_create_device node) (win_ext (WinEnumDevice (Z.of_nat n)) x) x1 t →
  roughly (s_create_devices (S n) nodes) x1 x' r →
  roughly (s_create_devices n (node :: nodes)) x x' (with_device t r).
Proof.
  intros Hf [Hc E] [Hc' E']. pose proof (calm_win (WinEnumDevice (Z.of_nat n)) x) as Hc0.
  split; [exact (transitivity Hc0 (transitivity Hc Hc'))|].
  destruct E as [E|E]; [|right; exact (oomed_l _ _ _ (oomed_r _ _ _ Hc0 E) Hc')].
  destruct E' as [E'|E']; [|right; exact (oomed_r _ _ _ (transitivity Hc0 Hc) E')].
  left. cbn [s_create_devices]. cbn [win_ext x_trace] in E. by rewrite Hf E E'.
Qed.

(** ** The whole list *)

Lemma win_device_list_not_null p (ds : list win_device) :
  device_list p ds ⊢ ⌜is_null p = false⌝ ∧ device_list p ds.
Proof.
  iIntros "H". iSplit; [|done]. by iDestruct "H" as (ps) "[(%l & [-> _] & _) _]".
Qed.

(** A device that nothing refers to any more. *)
Definition leaked_device : hProp := (∃ q d, win_device_own q d)%I.

(** The three ways to leave the loop: with a list that starts with [ds], with an error,
    and with a device that could not be added. *)
Definition loop_result (n : nat) (rest : list Z) (ds : list win_device) (x : ext)
    (r : ptr * ptr * Z) (x' : ext) : hProp :=
  ((∃ ds', ⟪r.1.1 = NULL ∧ r.2 = Z.of_nat (List.length (ds ++ ds')) ∧
            roughly (s_create_devices n rest) x x' (inr ds')⟫ ∗ device_list r.1.2 (ds ++ ds')) ∨
   (∃ ds' got, ⟪roughly (s_create_devices n rest) x x' (inl got)⟫ ∗ err_own r.1.1 got ∗
      device_list r.1.2 ds') ∨
   (∃ ds', ⟪r.1.1 = Static error_no_memory ∧ calm x x' ∧ oomed x x'⟫ ∗
      device_list r.1.2 ds' ∗ leaked_device))%I.

(** One more round before the rest. *)
Lemma loop_result_cons n node rest ds t x x1 r x' :
  win_enum_failure (x_trace x) (Z.of_nat n) = None →
  roughly (s_create_device node) (win_ext (WinEnumDevice (Z.of_nat n)) x) x1 t →
  loop_result (S n) rest (ds ++ option_list (created t)) x1 r x' ⊢ loop_result n (node :: rest) ds x r x'.
Proof.
  intros Hf Ht. assert (Hc : calm x x1).
  { exact (transitivity (calm_win (WinEnumDevice (Z.of_nat n)) x) (proj1 Ht)). }
  iIntros "[(%ds' & %H & Hl)|[(%ds' & %got & %H & He & Hl)|(%ds' & %H & Hl)]]".
  - destruct H as (H1 & H2 & H3). iLeft. iExists (option_list (created t) ++ ds'). rewrite -!app_assoc in H2 |- *.
    iFrame. iPureIntro. split_and!; [done..|].
    pose proof (roughly_cons n node rest x x1 x' t _ Hf Ht H3) as Hr. by destruct t.
  - iRight. iLeft. iExists ds', got. iFrame. iPureIntro.
    pose proof (roughly_cons n node rest x x1 x' t _ Hf Ht H) as Hr. by destruct t.
  - destruct H as (H1 & H2 & H3). iRight. iRight. iExists ds'. iFrame. iPureIntro.
    split_and!; [done|by etrans|by eapply oomed_r].
Qed.

Lemma win_list_loop_spec fuel devs pre rest p ds x :
  (List.length rest < fuel)%nat →
  {{ set_own devs (pre ++ rest) ∗ device_list p ds }}
    list_connected_devices_loop fuel devs (Z.of_nat (List.length pre)) p (Z.of_nat (List.length ds)) @ x
  {{ r x', set_own devs (pre ++ rest) ∗ loop_result (List.length pre) rest ds x r x' }}.
Proof.
  revert pre rest p ds x. induction fuel as [|fuel IH]; intros pre rest p ds x Hfuel; [lia|].
  iIntros "[Hs Hds]"; cbn [list_connected_devices_loop]. unfold GetLastError. wp_step.
  iApply (wp_enum with "Hs"). iIntros "Hs". rewrite enum_result_app. unfold enum_next.
  set (n := List.length pre). set (ev := WinEnumDevice (Z.of_nat n)).
  pose proof (calm_win ev x) as Hcw.
  assert (Hstop : ∀ code, (win_enum_failure (x_trace x) (Z.of_nat n) = Some code ∨
      win_enum_failure (x_trace x) (Z.of_nat n) = None ∧ rest = [] ∧ code = ERROR_NO_MORE_ITEMS) →
    s_create_devices n rest (x_trace x) = (if code =? ERROR_NO_MORE_ITEMS then inr []
       else inl (win_error code "Failed to test for the end of the USB device list."), EvWin ev :: x_trace x)).
  { intros code [E|(E & -> & ->)]; [|cbn [s_create_devices]; by rewrite E].
    destruct rest; cbn [s_create_devices]; by rewrite E. }
  assert (Hend : ∀ code x1, x1 = with_error code (win_ext ev x) →
    s_create_devices n rest (x_trace x) = (if code =? ERROR_NO_MORE_ITEMS then inr []
       else inl (win_error code "Failed to test for the end of the USB device list."), EvWin ev :: x_trace x) →
    set_own devs (pre ++ rest) ∗ device_list p ds ⊢
    wp (code ← get_errno;
        if code =? ERROR_NO_MORE_ITEMS then mret (NULL, p, Z.of_nat (List.length ds)) else
        error ← error_create_winapi "Failed to test for the end of the USB device list.";
        mret (error, p, Z.of_nat (List.length ds))) x1
      (λ r x', set_own devs (pre ++ rest) ∗ loop_result n rest ds x r x')).
  { intros code x1 -> Hsp. iIntros "[Hs Hds]". wp_steps. cbn [with_error x_errno].
    destruct (code =? ERROR_NO_MORE_ITEMS) eqn:Ec; wp_steps.
    - iFrame "Hs". iLeft. iExists []. rewrite app_nil_r. iFrame. iPureIntro. split_and!; [done..|].
      split; [exact Hcw|by left].
    - iApply (wp_winapi_failed (s_create_devices n rest) _ x); [done|exact Hcw|exact Hsp|].
      iIntros (r x' got [Hr Hf]) "He". wp_steps. iFrame "Hs". iRight. iLeft. iExists ds, got. iFrame.
      iPureIntro. by apply failed_roughly. }
  destruct (win_enum_failure (x_trace x) (Z.of_nat n)) as [code|] eqn:Ef.
  { wp_simpl. iApply (Hend code); [done| |iFrame]. apply Hstop. by left. }
  destruct rest as [|node rest].
  { wp_simpl. iApply (Hend ERROR_NO_MORE_ITEMS); [done| |iFrame]. apply Hstop. by right. }
  clear Hend Hstop. wp_step. wp_call (win_try_create_device_spec devs (pre ++ node :: rest) node (win_ext ev x)).
  iIntros (q x1) "(Hs & %t & Hd & %Ht)".
  assert (Hp : pre ++ node :: rest = (pre ++ [node]) ++ rest) by by rewrite -app_assoc.
  iAssert (⌜Z.of_nat (List.length (pre ++ node :: rest)) ≤ UINT32_MAX⌝ ∧ set_own devs (pre ++ node :: rest))%I
    with "[Hs]" as "[%Hlen Hs]".
  { iSplit; [|done]. by iDestruct "Hs" as "[%H _]". }
  rewrite (next_index_nat (List.length pre) (pre ++ node :: rest)); [|rewrite length_app; cbn; lia|done].
  specialize (IH (pre ++ [node]) rest). rewrite -Hp length_app Nat.add_1_r in IH.
  destruct t as [got|d]; cbn [created opt_win_device].
  - iDestruct "Hd" as %->. wp_steps.
    iApply (wp_wand with "[-]"); [iApply IH; [cbn in Hfuel; lia|iFrame]|].
    iIntros (r x') "[$ H]". iApply (loop_result_cons _ _ _ _ (inl got)); [done|exact Ht|].
    cbn [created option_list]. by rewrite app_nil_r.
  - iDestruct (win_device_own_not_null with "Hd") as "[%Hq Hd]". wp_steps.
    change (win_device_own q d) with (Basics.device_own q d).
    wp_call (device_list_append_spec p ds q d x1).
    iIntros ([[e p'] k] x2) "[[%H Hds]|[%H [Hds Hd]]]".
    + destruct H as (He & Hk & Hq2). cbn [fst snd] in *. subst. wp_steps.
      iApply (wp_wand with "[-]"); [iApply IH; [cbn in Hfuel; lia|iFrame]|].
      iIntros (r x') "[$ H]". iApply (loop_result_cons _ _ _ _ (inr d)); [done| |iExact "H"].
      destruct Ht as [Hc E]. pose proof (quiet_calm _ _ Hq2) as Hc2. split; [by etrans|].
      destruct E as [E|E]; [left|right; by eapply oomed_l]. by destruct Hq2 as [-> _].
    + destruct H as ([= -> -> ->] & Hq2 & Ho). wp_steps. iFrame "Hs".
      iRight. iRight. iExists ds. iFrame. iPureIntro. destruct Ht as [Hc E].
      split_and!; [done|exact (transitivity Hcw (transitivity Hc (quiet_calm _ _ Hq2)))|].
      exact (oomed_r _ _ _ (transitivity Hcw Hc) Ho).
Qed.

Lemma win_list_connected_devices_spec count_given x :
  {{ emp }} libusbp_list_connected_devices true count_given @ x {{ r x',
    (∃ p ds, ⟪r = (NULL, Some p, if count_given then Some (Z.of_nat (List.length ds)) else None) ∧
              roughly s_list_connected x x' (inr ds)⟫ ∗ device_list p ds) ∨
    (∃ got, ⟪r.1.2 = None ∧ r.2 = (if count_given then Some 0 else None)⟫ ∗ err_own r.1.1 got ∗
       (⟪roughly s_list_connected x x' (inl got)⟫ ∨
        ⟪got = no_memory ∧ calm x x' ∧ oomed x x'⟫ ∗ leaked_device)) }}.
Proof.
  iIntros "_". unfold libusbp_list_connected_devices, if_ok, win_check. wp_step.
  iApply wp_class_devs. cbn zeta. set (x1 := win_ext (WinClassDevs UsbDevices) x).
  set (text := "Failed to list all USB devices.").
  assert (Hsp : s_class_devs UsbDevices text (x_trace x) =
    (match win_class_devs (x_trace x) UsbDevices with inl a => inr a | inr code => inl (win_error code text) end,
     x_trace x1)) by done.
  pose proof (calm_win (WinClassDevs UsbDevices) x) as Hc1.
  destruct (win_class_devs (x_trace x) UsbDevices) as [nodes|code]; last first.
  { wp_steps. iApply (wp_winapi_failed (s_class_devs UsbDevices text) _ x); [done|exact Hc1|exact Hsp|].
    iIntros (r x' got [Hr Hf]) "He". wp_steps. iRight. iExists got. iFrame. iSplit; [done|]. iLeft.
    iPureIntro. apply failed_roughly. by apply failed_bind. }
  iIntros (devs) "Hs". iDestruct (set_own_valid with "Hs") as "[%Hv Hs]". rewrite Hv. wp_step. wp_steps.
  assert (Ha : succeeded (s_class_devs UsbDevices text) x x1 nodes) by done.
  wp_call (device_list_create_spec x1). iIntros ([e p] x2) "H". returned "H"; last first.
  { iDestruct "Hbad" as %->. wp_steps. iApply (wp_destroy with "Hs"). wp_steps.
    iRight. iExists got. iFrame. iSplit; [done|]. iLeft. iPureIntro. apply failed_roughly.
    eapply failed_bind_r; [done|]. by eapply pure_failed. }
  apply succeeded_ret_inv in Ha0 as (_ & Ht & Hc). wp_steps.
  iApply (wp_set_rounds with "Hs"). iIntros "Hs".
  iApply (wp_wand with "[-]"); [iApply (win_list_loop_spec _ devs [] nodes p [] x2); [lia|iFrame]|].
  iIntros ([[e p'] k] x3) "[Hs [(%ds & %H & Hds)|[(%ds & %got & %H & He & Hds)|(%ds & %H & Hds & Hleak)]]]";
    cbn [fst snd app List.length] in *.
  - destruct H as (-> & -> & Hm). wp_steps. iApply (wp_destroy with "Hs"). wp_steps.
    iLeft. iExists p', ds. iFrame. iPureIntro. split; [by destruct count_given|].
    eapply roughly_bind; [exact Ha|]. by eapply roughly_quiet_l.
  - iDestruct (err_own_not_null with "He") as "[%Hn He]". wp_steps. iApply (wp_destroy with "Hs"). wp_steps.
    iDestruct (win_device_list_not_null with "Hds") as "[%Hp Hds]". rewrite Hp. wp_steps.
    wp_call (free_devices_and_list_spec p' ds x3). iIntros ([] ?) "->". wp_steps.
    iRight. iExists got. iFrame. iSplit; [done|]. iLeft. iPureIntro.
    eapply roughly_bind; [exact Ha|]. by eapply roughly_quiet_l.
  - destruct H as (-> & Hc3 & Ho). wp_steps. iApply (wp_destroy with "Hs"). wp_steps.
    iDestruct (win_device_list_not_null with "Hds") as "[%Hp Hds]". rewrite Hp. wp_steps.
    wp_call (free_devices_and_list_spec p' ds x3). iIntros ([] ?) "->". wp_steps.
    iRight. iExists no_memory. iSplit; [done|]. iSplitR; [by iLeft; iPureIntro; eexists|].
    iRight. iFrame. iPureIntro. split_and!; [done|exact (transitivity Hc1 (transitivity Hc Hc3))|].
    exact (oomed_r _ _ _ (transitivity Hc1 Hc) Ho).
Qed.
End specs.

(** ** Properties *)

Section properties.
Context `{OS : WindowsOS} {LAWS : WindowsLaws OS} {STABLE : PropertiesStable OS}.

(** C37. On Windows [libusbp_list_connected_devices] lists exactly the devices of the set
    of all USB devices whose instance ID and hardware IDs can be read, in the order of the
    set: [device_list p ds] is a null-terminated array at [p] whose pointers refer, in the
    order of [ds], to new device objects with the instance IDs, the IDs and the revisions
    of [ds], and [ds] is the list that [s_list_connected] takes from the set.  The count is
    the number of the devices.  The errors of single devices are dropped without a leak.
    It fails when the set cannot be made or enumerated (with the error of that) or an
    allocation failed, and then stores no list and a count of 0.  Only when an allocation
    failed may the list differ, because a device can then be skipped; and the one leak that
    is possible is a single device, when the list cannot be made longer for it.  The
    hardware IDs are assumed not to change between the two times they are read
    ([PropertiesStable]), which Windows does not promise. *)
Theorem win_list_connected_devices_lists x :
  {{ emp }} libusbp_list_connected_devices true true @ x
  {{ r x', ⟪calm x x'⟫ ∗
     ((∃ p ds, ⟪r = (NULL, Some p, Some (Z.of_nat (List.length ds))) ∧
          (s_list_connected (x_trace x) = (inr ds, x_trace x') ∨ oomed x x')⟫ ∗ device_list p ds) ∨
      (∃ e a, ⟪r = (e, None, Some 0) ∧
          (s_list_connected (x_trace x) = (inl a, x_trace x') ∨ oomed x x')⟫ ∗ err_own e a) ∨
      (∃ e, ⟪r = (e, None, Some 0) ∧ oomed x x'⟫ ∗ err_own e no_memory ∗ leaked_device)) }}.
Proof.
  iIntros "_". wp_call (win_list_connected_devices_spec true x).
  iIntros (r x1) "[(%p & %ds & %H & Hds)|(%a & %H & He & H')]".
  - destruct H as (-> & Hc & Hm). iSplit; [done|]. iLeft. iExists p, ds. by iFrame.
  - destruct r as [[e l] n], H as [Hl Hn]. cbn [fst snd] in Hl, Hn. subst l n. cbn [fst].
    iDestruct "H'" as "[%H|[%H Hd]]".
    + destruct H as [Hc Hf]. iSplit; [done|]. iRight. iLeft. iExists e, a. iFrame. iPureIntro.
      split; [done|]. exact Hf.
    + destruct H as (-> & Hc & Ho). iSplit; [done|]. iRight. iRight. iExists e. by iFrame.
Qed.
End properties.

(** ** On the example machine *)

#[local] Existing Instance Example_win.machine.
#[local] Existing Instance Example_win.machine_laws.
#[local] Existing Instance Example_win.machine_properties.

(** The device without hardware IDs is left out. *)
Lemma win_list_connected_devices_lists_witness :
  let x := Ext [] 0 0 in
  (∃ h, s_list_connected [] = (inr [WinDevice "USB\VID_1FFB&PID_DA01\00012345" 0xda01 0x1ffb 0x111], h)) ∧
  {{ emp }} libusbp_list_connected_devices true true @ x
  {{ r x', ⟪calm x x'⟫ ∗
     ((∃ p ds, ⟪r = (NULL, Some p, Some (Z.of_nat (List.length ds))) ∧
          (s_list_connected (x_trace x) = (inr ds, x_trace x') ∨ oomed x x')⟫ ∗ device_list p ds) ∨
      (∃ e a, ⟪r = (e, None, Some 0) ∧
          (s_list_connected (x_trace x) = (inl a, x_trace x') ∨ oomed x x')⟫ ∗ err_own e a) ∨
      (∃ e, ⟪r = (e, None, Some 0) ∧ oomed x x'⟫ ∗ err_own e no_memory ∗ leaked_device)) }}.
Proof.
  intros x. split; [eexists; vm_compute; reflexivity|]. exact (win_list_connected_devices_lists x).
Defined.
