(* ===== verification/NodeWindows.v ===== *)
(** * NodeWindows: device nodes of interfaces (src/src/windows/interface_windows.c)

    Finding the device node of an interface of a device, by the instance ID of the
    device or, for a composite device, among the children of its node, and finding the
    file name of a node's device interface. *)

From S2P Require Import Prelude Memory Logic Format Sscanf Errors Results Basics Strings WindowsOS ErrorWindows SetupWindows InstanceIdWindows DeviceWindows ListWindows.
#[local] Set Warnings "-rewrite-rw".

Section code.
Context `{OS : WindowsOS}.

(** The loop of [get_interface_non_composite]: the error and the node. *)
Fixpoint get_interface_non_composite_loop (fuel : nat) (device_instance_id : ptr)
    (new_list : HANDLE) (i : Z) : M (ptr * option Z) :=
  match fuel with
  | O => stuck OutOfFuel
  | S fuel =>
      device_info_data ← SetupDiEnumDeviceInfo new_list i;
      match device_info_data with
      | None =>
          code ← GetLastError;
          error ← (if code =? ERROR_NO_MORE_ITEMS then error_create "Failed to find device node."
                   else error_create_winapi "Failed to enumerate device info.");
          mret (error, None)
      | Some device_info_data =>
          id ← SetupDiGetDeviceInstanceId new_list device_info_data;
          match id with
          | None => error ← error_create_winapi "Failed to get device instance ID."; mret (error, None)
          | Some id =>
              c ← strcmp (Lit id) device_instance_id;
              if c =? 0 then mret (NULL, Some device_info_data)
              else get_interface_non_composite_loop fuel device_instance_id new_list (next_index i)
          end
      end
  end.

(** The error, [*list] and [*info]. *)
Definition get_interface_non_composite (device_instance_id : ptr) : M (ptr * HANDLE * option Z) :=
  new_list ← SetupDiGetClassDevs UsbDevices;
  (* The code compares [list], the address of the caller's variable, instead of
     [new_list] with INVALID_HANDLE_VALUE; they always differ. *)
  error ← win_check true "Failed to list all USB devices.";
  '(error, info) ← if_ok error None
    (fuel ← set_rounds new_list;
     get_interface_non_composite_loop fuel device_instance_id new_list 0);
  let '(list, new_list) := match info with
                           | Some _ => (new_list, INVALID_HANDLE_VALUE)
                           | None => (INVALID_HANDLE_VALUE, new_list)
                           end in
  when (is_valid new_list) (SetupDiDestroyDeviceInfoList new_list);;
  error ← (if negb (is_null error) then error_add error "Failed to find non-composite device node."
           else mret NULL);
  mret (error, list, info).

(** The interface number that the instance ID of a node ends with. *)
Definition id_interface_number (device_id : string) : option Z :=
  match sscanf [Text "USB\VID_"; SkipHex 4%nat; Text "&PID_"; SkipHex 4%nat; Text "&MI_";
                Hex (Some 2%nat); Text "\"] (String.list_ascii_of_string device_id) with
  | [n] => Some (to_u32 n)
  | _ =>
      match sscanf [Text "FTDIBUS\"; SkipUntil "\"%char; Text "\"; Hex None]
              (String.list_ascii_of_string device_id) with
      | [n] => Some (to_u32 n)
      | _ => None
      end
  end.

(** The rounds of the [while (true)] of [get_interface_composite] with one list, which
    they destroy unless they find the node: [None] when the list is done, otherwise what
    the function returns. *)
Fixpoint composite_list_loop (fuel : nat) (new_list : HANDLE) (i dev_inst interface_number : Z) :
    M (option (ptr * option Z)) :=
  match fuel with
  | O => stuck OutOfFuel
  | S fuel =>
      device_info_data ← SetupDiEnumDeviceInfo new_list i;
      match device_info_data with
      | None =>
          code ← GetLastError;
          if code =? ERROR_NO_MORE_ITEMS then
            (* This list is done. *)
            SetupDiDestroyDeviceInfoList new_list;;
            mret None
          else
            error ← error_create_winapi "Failed to get device info to find an interface.";
            SetupDiDestroyDeviceInfoList new_list;;
            mret (Some (error, None))
      | Some device_info_data =>
          '(cr, parent_dev_inst) ← CM_Get_Parent device_info_data;
          if negb (cr =? CR_SUCCESS) then
            SetupDiDestroyDeviceInfoList new_list;;
            error ← error_create_cr cr "Failed to get parent of an interface.";
            mret (Some (error, None))
          else if negb (parent_dev_inst =? dev_inst) then
            (* This device is not a child of our device. *)
            composite_list_loop fuel new_list (next_index i) dev_inst interface_number
          else
          (* Get the device instance ID. *)
          '(cr, device_id) ← CM_Get_Device_ID device_info_data;
          if negb (cr =? CR_SUCCESS) then
            error ← error_create_cr cr "Failed to get device instance ID while finding an interface.";
            SetupDiDestroyDeviceInfoList new_list;;
            mret (Some (error, None))
          else
          match id_interface_number device_id with
          | None => composite_list_loop fuel new_list (next_index i) dev_inst interface_number
          | Some actual_interface_number =>
              if negb (actual_interface_number =? interface_number) then
                (* This is not the right interface. *)
                composite_list_loop fuel new_list (next_index i) dev_inst interface_number
              else mret (Some (NULL, Some device_info_data))
          end
      end
  end.

Definition list_class (list_index : Z) : option device_class :=
  if list_index =? 0 then Some UsbNodes
  else if list_index =? 1 then Some ComPorts
  else if list_index =? 2 then Some Modems
  else None.

(** The same loop from the point where a new list is needed. *)
Fixpoint composite_loop (fuel : nat) (list_index dev_inst interface_number : Z) :
    M (ptr * HANDLE * option Z) :=
  match fuel with
  | O => stuck OutOfFuel
  | S fuel =>
      match list_class list_index with
      | None =>
          error ← error_create ("Could not find interface " +:+ fmt_d interface_number +:+ ".");
          error ← error_add_code error LIBUSBP_ERROR_NOT_READY;
          mret (error, INVALID_HANDLE_VALUE, None)
      | Some c =>
          new_list ← SetupDiGetClassDevs c;
          if negb (is_valid new_list) then
            error ← error_create_winapi
              ("Failed to list devices to find an interface (" +:+ fmt_u list_index +:+ ").");
            mret (error, INVALID_HANDLE_VALUE, None)
          else
          rounds ← set_rounds new_list;
          r ← composite_list_loop rounds new_list 0 dev_inst interface_number;
          match r with
          | None => composite_loop fuel (to_u32 (list_index + 1)) dev_inst interface_number
          | Some (error, None) => mret (error, INVALID_HANDLE_VALUE, None)
          | Some (error, Some info) => mret (error, new_list, Some info)
          end
      end
  end.

Definition get_interface_composite (device_instance_id : ptr) (interface_number : Z) :
    M (ptr * HANDLE * option Z) :=
  (* Get the DEVINST for this device. *)
  id ← read_cstr device_instance_id;
  '(cr, dev_inst) ← CM_Locate_DevNode id;
  if negb (cr =? CR_SUCCESS) then
    error ← error_create_cr cr "Failed to get device node in order to find an interface.";
    mret (error, INVALID_HANDLE_VALUE, None)
  else composite_loop 4 0 dev_inst interface_number.

Definition get_interface (device_instance_id : ptr) (interface_number : Z) (composite : bool) :
    M (ptr * HANDLE * option Z) :=
  c_assert (negb (is_null device_instance_id));;
  if composite then get_interface_composite device_instance_id interface_number
  else get_interface_non_composite device_instance_id.

(** The loop of [get_filename_from_devinst_and_guid]: the error and whether the node is
    in the list, which is destroyed if not. *)
Fixpoint find_devinst_loop (fuel : nat) (list : HANDLE) (index devinst : Z) : M ptr :=
  match fuel with
  | O => stuck OutOfFuel
  | S fuel =>
      device_info_data ← SetupDiEnumDeviceInfo list index;
      match device_info_data with
      | None =>
          code ← GetLastError;
          if code =? ERROR_NO_MORE_ITEMS then
            (* We reached the end of the list. *)
            SetupDiDestroyDeviceInfoList list;;
            error ← error_create "Could not find matching device in order to get its filename.";
            error_add_code error LIBUSBP_ERROR_NOT_READY
          else
            error ← error_create_winapi "Failed to enumerate list item to find matching device.";
            SetupDiDestroyDeviceInfoList list;;
            mret error
      | Some device_info_data =>
          if device_info_data =? devinst then mret NULL
          else find_devinst_loop fuel list (next_index index) devinst
      end
  end.

(** [cbSize] as the bytes of a [DWORD]. *)
Definition cbSize_bytes : list (option ascii) := [Some (ascii_of_nat 8); Some nul; Some nul; Some nul].

(** The error and, on success, [*filename]. *)
Definition get_filename_from_devinst_and_guid (devinst guid : Z) : M (ptr * option ptr) :=
  (* Make a list of devices that have the specified device interface GUID. *)
  list ← SetupDiGetClassDevs (WithInterface guid);
  if negb (is_valid list) then
    error ← error_create_winapi "Failed to create a list of devices to find a device filename.";
    mret (error, None)
  else
  (* Iterate through the list looking for one that matches the given DEVINST. *)
  rounds ← set_rounds list;
  error ← find_devinst_loop rounds list 0 devinst;
  if negb (is_null error) then mret (error, None) else
  (* Get the DeviceInterfaceData struct. *)
  success ← SetupDiEnumDeviceInterfaces list devinst guid;
  if negb success then
    error ← error_create_winapi "Failed to get device interface data.";
    SetupDiDestroyDeviceInfoList list;;
    mret (error, None)
  else
  (* Get the DeviceInterfaceDetailData struct size. *)
  '(success, size) ← SetupDiGetDeviceInterfaceDetail_size list devinst guid;
  code ← GetLastError;
  if negb success && negb (code =? ERROR_INSUFFICIENT_BUFFER) then
    error ← error_create_winapi "Failed to get the size of the device interface details.";
    SetupDiDestroyDeviceInfoList list;;
    mret (error, None)
  else
  (* Get the DeviceInterfaceDetailData struct data *)
  device_interface_detail_data ← malloc_bytes size;
  if is_null device_interface_detail_data then mret (Static error_no_memory, None) else
  write_chars device_interface_detail_data 0 cbSize_bytes;;
  success ← SetupDiGetDeviceInterfaceDetail list devinst guid device_interface_detail_data size;
  if negb success then
    error ← error_create_winapi "Failed to get the device interface details.";
    free device_interface_detail_data;;
    SetupDiDestroyDeviceInfoList list;;
    mret (error, None)
  else
  path ← read_text_at device_interface_detail_data offset_DevicePath;
  new_string ← malloc (slen path + 1) (OChars (cstr path));
  if is_null new_string then
    free device_interface_detail_data;;
    SetupDiDestroyDeviceInfoList list;;
    mret (Static error_no_memory, None)
  else
  free device_interface_detail_data;;
  SetupDiDestroyDeviceInfoList list;;
  mret (NULL, Some new_string).
End code.

(** ** IDs that name an interface

    The ID of a node that Windows makes for an interface of a composite device is
    "USB\VID_vvvv&PID_pppp&MI_mm" and more, with the interface number in hexadecimal; the driver of
    FTDI makes "FTDIBUS\", anything up to the next backslash, and a number.  Each
    number is an item in the sense of [sscanf]. *)

Definition usb_number (cs : list ascii) (n : Z) : Prop :=
  ∃ cs1 vid cs2 pid cs3 rest,
    cs = String.list_ascii_of_string "USB\VID_" ++ cs1 ∧
    hex_item (Some 4%nat) cs1 vid (String.list_ascii_of_string "&PID_" ++ cs2) ∧
    hex_item (Some 4%nat) cs2 pid (String.list_ascii_of_string "&MI_" ++ cs3) ∧
    hex_item (Some 2%nat) cs3 n rest.

Definition ftdi_number (cs : list ascii) (n : Z) : Prop :=
  ∃ bus cs1 rest,
    cs = String.list_ascii_of_string "FTDIBUS\" ++ bus ++ "\"%char :: cs1 ∧ bus ≠ [] ∧ "\"%char ∉ bus ∧
    hex_item None cs1 n rest.

(** The number is stored in an [unsigned int]. *)
Definition names_interface (id : string) (k : Z) : Prop :=
  ∃ n, (usb_number (String.list_ascii_of_string id) n ∨ ftdi_number (String.list_ascii_of_string id) n) ∧
    k = to_u32 n.

Lemma usb_scanned cs n :
  usb_number cs n ↔ sscanf [Text "USB\VID_"; SkipHex 4%nat; Text "&PID_"; SkipHex 4%nat; Text "&MI_";
                            Hex (Some 2%nat); Text "\"] cs = [n].
Proof.
  split.
  - intros (cs1 & v & cs2 & p & cs3 & rest & -> & H1%scan_hex_rest_item & H2%scan_hex_rest_item & H3%scan_hex_rest_item).
    cbn [sscanf]. rewrite match_text_chars H1 match_text_chars H2 match_text_chars H3.
    by destruct (match_text "\" rest).
  - cbn [sscanf]. destruct (match_text "USB\VID_" cs) as [cs1|] eqn:E1; [|done].
    destruct (scan_hex_rest _ cs1) as [[v cs2]|] eqn:H1; [|done].
    destruct (match_text "&PID_" cs2) as [cs3|] eqn:E2; [|done].
    destruct (scan_hex_rest _ cs3) as [[p cs4]|] eqn:H2; [|done].
    destruct (match_text "&MI_" cs4) as [cs5|] eqn:E3; [|done].
    destruct (scan_hex_rest _ cs5) as [[m rest]|] eqn:H3; [|done]. intros [= <- _].
    apply match_text_split in E1 as ->, E2 as ->, E3 as ->. exists cs1, v, cs3, p, cs5, rest.
    by rewrite -!scan_hex_rest_item.
Qed.

Lemma ftdi_scanned cs n :
  ftdi_number cs n ↔
  sscanf [Text "FTDIBUS\"; SkipUntil "\"%char; Text "\"; Hex None] cs = [n].
Proof.
  split.
  - intros (bus & cs1 & rest & -> & Hne & Hno & H%scan_hex_rest_item). cbn [sscanf].
    rewrite match_text_chars. destruct bus as [|a bus]; [done|]. cbn [app].
    destruct (Ascii.eqb_spec a "\") as [->|Ha]; [by destruct Hno; left|].
    change (a :: bus ++ "\"%char :: cs1) with ((a :: bus) ++ "\"%char :: cs1). rewrite skip_until_app //.
    cbn [match_text]. rewrite Ascii.eqb_refl H //.
  - cbn [sscanf]. destruct (match_text "FTDIBUS\" cs) as [cs1|] eqn:E1; [|done].
    destruct cs1 as [|a cs1]; [done|]. destruct (Ascii.eqb_spec a "\") as [->|Ha]; [done|].
    destruct (skip_until_split "\"%char (a :: cs1)) as (bus & Hb & Hno & _).
    destruct (skip_until _ _) as [|b cs2] eqn:Es; cbn [match_text]; [done|].
    destruct (Ascii.eqb_spec "\" b) as [<-|]; [|done].
    destruct (scan_hex_rest None _) as [[m rest]|] eqn:H; [|done]. intros [= <-].
    apply match_text_split in E1 as ->. exists bus, cs2, rest. rewrite Hb -scan_hex_rest_item.
    split_and!; [done| |done|done]. intros ->. cbn [app] in Hb. by injection Hb as -> _.
Qed.

(** The code finds the number exactly when the ID has one. *)
Lemma id_interface_number_names id k : id_interface_number id = Some k ↔ names_interface id k.
Proof.
  unfold id_interface_number, names_interface. set (cs := String.list_ascii_of_string id).
  set (usb := [Text "USB\VID_"; SkipHex 4%nat; Text "&PID_"; SkipHex 4%nat; Text "&MI_";
               Hex (Some 2%nat); Text "\"]).
  set (ftdi := [Text "FTDIBUS\"; SkipUntil "\"%char; Text "\"; Hex None]).
  assert (Hex : ∀ n m, usb_number cs n → ftdi_number cs m → False).
  { intros n m (cs1 & ? & ? & ? & ? & ? & E & _) (? & ? & ? & E' & _). rewrite E in E'. discriminate E'. }
  pose proof (usb_scanned cs) as Hu. pose proof (ftdi_scanned cs) as Hf. fold usb in Hu. fold ftdi in Hf.
  assert (Lu : (List.length (sscanf usb cs) ≤ 1)%nat) by apply (stored usb cs).
  assert (Lf : (List.length (sscanf ftdi cs) ≤ 1)%nat) by apply (stored ftdi cs).
  destruct (sscanf usb cs) as [|n [|n' ns]]; [|clear Lu|cbn in Lu; lia].
  - destruct (sscanf ftdi cs) as [|n [|n' ns]]; [|clear Lf|cbn in Lf; lia].
    + split; [done|]. intros (n & [H%Hu|H%Hf] & _); done.
    + split; [intros [= <-]; exists n; split; [right; by apply Hf|done]|].
      intros (m & [H%Hu|H%Hf] & ->); [done|]. by injection H as ->.
  - split; [intros [= <-]; exists n; split; [left; by apply Hu|done]|].
    intros (m & [H%Hu|H] & ->); [by injection H as ->|]. destruct (Hex n m); [by apply Hu|done].
Qed.

(** So the ID of a node can be examined. *)
#[export] Instance names_interface_dec id k : Decision (names_interface id k).
Proof.
  refine (cast_if (decide (id_interface_number id = Some k)));
    abstract (by rewrite -id_interface_number_names).
Defined.

(** ** What the functions mean *)

Section specs.
Context `{OS : WindowsOS} {LAWS : WindowsLaws OS}.

(** The node whose instance ID is [wanted]. *)
Definition visit_id (wanted : string) (node : Z) : Spec (option Z) :=
  id ← s_instance_id "Failed to get device instance ID." node;
  mret (if bool_decide (id = wanted) then Some node else None).

Definition s_find_id (wanted : string) : nat → list Z → Spec Z :=
  s_search "Failed to enumerate device info." (visit_id wanted) (sfail (err_new "Failed to find device node.")).

(** A set that could not be made is only noticed when it is enumerated. *)
Definition s_non_composite (wanted : string) : Spec Z :=
  scontext "Failed to find non-composite device node." (λ h,
    let h1 := EvWin (WinClassDevs UsbDevices) :: h in
    match win_class_devs h UsbDevices with
    | inl nodes => s_find_id wanted 0 nodes h1
    | inr _ => (inl (win_error ERROR_INVALID_HANDLE "Failed to enumerate device info."), h1)
    end).

Definition s_parent (node : Z) : Spec Z := λ h,
  s_cr (win_parent h node) (WinParent node) "Failed to get parent of an interface." h.
Definition s_device_id (node : Z) : Spec string := λ h,
  s_cr (fitting_device_id (win_device_id h node)) (WinDeviceId node)
    "Failed to get device instance ID while finding an interface." h.

(** The child of [dev_inst] whose ID has the number [k]. *)
Definition visit_child (dev_inst k : Z) (node : Z) : Spec (option (option Z)) :=
  parent ← s_parent node;
  if negb (parent =? dev_inst) then mret None else
  id ← s_device_id node;
  mret (if bool_decide (names_interface id k) then Some (Some node) else None).

Definition s_find_child (dev_inst k : Z) : nat → list Z → Spec (option Z) :=
  s_search "Failed to get device info to find an interface." (visit_child dev_inst k) (mret None).

Definition no_interface (k : Z) : aerr :=
  err_code (err_new ("Could not find interface " +:+ fmt_d k +:+ ".")) LIBUSBP_ERROR_NOT_READY.

(** The sets are searched one after the other. *)
Fixpoint s_find_in_sets (list_index : Z) (cs : list device_class) (dev_inst k : Z) : Spec Z :=
  match cs with
  | [] => sfail (no_interface k)
  | c :: cs =>
      nodes ← s_class_devs c ("Failed to list devices to find an interface (" +:+ fmt_u list_index +:+ ").");
      o ← s_find_child dev_inst k 0 nodes;
      match o with
      | Some node => mret node
      | None => s_find_in_sets (list_index + 1) cs dev_inst k
      end
  end.

Definition s_locate (id : string) : Spec Z := λ h,
  s_cr (win_locate h id) (WinLocate id) "Failed to get device node in order to find an interface." h.

Definition s_composite (id : string) (k : Z) : Spec Z :=
  dev_inst ← s_locate id;
  s_find_in_sets 0 [UsbNodes; ComPorts; Modems] dev_inst k.

Definition s_get_interface (id : string) (k : Z) (composite : bool) : Spec Z :=
  if composite then s_composite id k else s_non_composite id.

(** ** Searching by ID *)

Lemma wp_instance_id devs nodes node x Q :
  set_own devs nodes -∗
  (set_own devs nodes -∗
   match fitting_id (win_instance_id (x_trace x) node) with
   | inl s => Q (Some s) (win_ext (WinInstanceId node) x)
   | inr code => Q None (with_error code (win_ext (WinInstanceId node) x))
   end) -∗
  wp (SetupDiGetDeviceInstanceId devs node) x Q.
Proof.
  iIntros "Hs HQ". iDestruct (set_own_use with "Hs") as "[Hd Hs]".
  unfold SetupDiGetDeviceInstanceId, log_win. wp_step.
  iApply (wp_load_handle as_set with "Hd"); [done|]. iIntros "Hd". iSpecialize ("Hs" with "Hd"). wp_steps.
  iApply wp_win_result. iSpecialize ("HQ" with "Hs"). destruct (fitting_id _); iExact "HQ".
Qed.

Lemma find_id_spec fuel devs pre rest p wanted x :
  (List.length rest < fuel)%nat →
  {{ set_own devs (pre ++ rest) ∗ text_own p wanted }}
    get_interface_non_composite_loop fuel p devs (Z.of_nat (List.length pre)) @ x
  {{ r x', set_own devs (pre ++ rest) ∗ text_own p wanted ∗
    returns (s_find_id wanted (List.length pre) rest) x x' r.1 (λ node, ⟪r.2 = Some node⟫) ⟪r.2 = None⟫ }}.
Proof.
  revert pre rest x. induction fuel as [|fuel IH]; intros pre rest x Hfuel; [lia|].
  iIntros "[Hs Hp]". cbn [get_interface_non_composite_loop]. unfold GetLastError. wp_step.
  iApply (wp_enum_rest with "Hs"). iSplit.
  - iIntros (code He) "Hs". wp_steps. cbn [with_error x_errno].
    set (x1 := with_error code (win_ext _ x)).
    assert (Hc : calm x x1) by apply calm_win.
    pose proof (s_search_stop "Failed to enumerate device info." (visit_id wanted)
      (sfail (err_new "Failed to find device node.")) _ _ _ _ He) as Hsp. cbn zeta in Hsp.
    destruct (code =? ERROR_NO_MORE_ITEMS).
    + iApply wp_error_create; [done|]. err_intro. wp_steps. iFrame.
      iApply (returns_err_from with "[-]"); [exact Hc|exact Hsp|by iFrame].
    + iApply (wp_winapi_failed (s_find_id wanted (List.length pre) rest) _ x); [done|exact Hc|exact Hsp|].
      iIntros (r x' got [Hr Hf]) "He". wp_steps. iFrame. iRight. iExists got. by iFrame.
  - iIntros (node rest' (He & -> & Hn)) "Hs". wp_step. iApply (wp_instance_id with "Hs"). iIntros "Hs".
    set (x0 := win_ext (WinEnumDevice _) x). 
    assert (Hsi : s_instance_id "Failed to get device instance ID." node (x_trace x0) =
      s_win (fitting_id (win_instance_id (x_trace x0) node)) (WinInstanceId node)
        "Failed to get device instance ID." (x_trace x0)) by done.
    assert (Hp : pre ++ node :: rest' = (pre ++ [node]) ++ rest') by by rewrite -app_assoc.
    destruct (fitting_id _) as [id|code] eqn:Eid; wp_steps; last first.
    { iApply (wp_winapi_failed (s_instance_id "Failed to get device instance ID." node) _ x0);
        [done|apply calm_win|exact Hsi|].
      iIntros (r x' got [Hr Hf]) "He". wp_steps. rewrite Hp. iFrame. iRight. iExists got. iFrame.
      iPureIntro. split; [|done]. eapply search_failed; [exact He|]. by apply failed_bind. }
    pose proof (fitting_id_text _ _ Eid) as [Hid _].
    iApply (wp_strcmp_zero emp%I _ _ _ id wanted with "[] Hp"); [by apply reads_lit|apply reads_text|done|].
    iIntros (c Hcmp) "_ Hp". rewrite Hcmp.
    assert (Ha : succeeded (visit_id wanted node) x0 (win_ext (WinInstanceId node) x0)
      (if bool_decide (id = wanted) then Some node else None)).
    { eapply succeeded_bind; [split; [apply calm_win|exact Hsi]|]. by apply succeeded_ret. }
    destruct (bool_decide (id = wanted)); wp_steps.
    + rewrite Hp. iFrame. iApply (returns_ok _ _ _ node); [|done]. by eapply search_found.
    + rewrite Hn. iApply (wp_wand with "[-]"); [iApply (IH (pre ++ [node]) rest'); [cbn in Hfuel; lia|iFrame]|].
      iIntros (r x') "(Hs & $ & H)". rewrite Hp. iFrame "Hs".
      rewrite length_app Nat.add_1_r. by iApply (returns_search_next _ _ _ _ _ _ _ _ _ _ _ _ He Ha).
Qed.

(** The resources of a node that was found: the set it is in. *)
Definition node_own (r : ptr * HANDLE * option Z) (node : Z) : hProp :=
  (⟪r.2 = Some node⟫ ∗ ∃ nodes, set_own r.1.2 nodes)%I.

Definition no_node (r : ptr * HANDLE * option Z) : hProp := ⟪r.1.2 = None ∧ r.2 = None⟫%I.

Lemma get_interface_non_composite_spec p id x :
  {{ text_own p id }} get_interface_non_composite p @ x {{ r x',
    text_own p id ∗ returns (s_non_composite id) x x' r.1.1 (node_own r) (no_node r) }}.
Proof.
  iIntros "Hp". unfold get_interface_non_composite, win_check, if_ok. wp_step.
  iApply wp_class_devs. cbn zeta. set (x1 := win_ext (WinClassDevs UsbDevices) x).
  pose proof (calm_win (WinClassDevs UsbDevices) x) as Hc1.
  set (ctx := "Failed to find non-composite device node.").
  destruct (win_class_devs (x_trace x) UsbDevices) as [nodes|code] eqn:E; last first.
  { unfold set_rounds, SetLastError, GetLastError. wp_steps.
    cbn [get_interface_non_composite_loop SetupDiEnumDeviceInfo]. unfold SetLastError, GetLastError. wp_steps.
    set (s := sfail (win_error ERROR_INVALID_HANDLE "Failed to enumerate device info.") : Spec Z).
    iApply (wp_winapi_failed s _ x1); [done|auto with calm|done|].
    iIntros (r x2 got [Hr Hf]) "He". wp_steps.
    iApply (wp_add_context s ctx _ got x1 with "He"); [done|exact Hf|].
    iIntros (r2 x3 got' [Hr2 [Hc Hf2]]) "He". wp_steps. iFrame. iRight. iExists got'. iFrame. iPureIntro.
    split; [|done]. split; [by etrans|]. destruct Hf2 as [Hf2|[? ?]]; [left|right; by split].
    rewrite -Hf2. unfold s_non_composite. cbn zeta. unfold scontext, s. by rewrite E. }
  iIntros (devs) "Hs". iDestruct (set_own_valid with "Hs") as "[%Hv Hs]". wp_steps.
  iApply (wp_set_rounds with "Hs"). iIntros "Hs".
  iApply (wp_wand with "[-]"); [iApply (find_id_spec _ devs [] nodes p id x1); [lia|iFrame]|].
  iIntros ([e o] x2) "(Hs & Hp & H)". cbn [app List.length fst snd].
  assert (Hsp : s_non_composite id (x_trace x) = scontext ctx (s_find_id id 0 nodes) (x_trace x1)).
  { unfold s_non_composite, scontext. by rewrite E. }
  returned "H".
  - iDestruct "Hok" as %->. wp_steps. iFrame "Hp".
    iApply (returns_ok _ _ _ a with "[-]"); [|iSplit; [done|iExists nodes; by iFrame]].
    destruct (scontext_ok ctx _ _ _ _ Ha) as [Hc E2]. split; [by etrans|]. by rewrite Hsp.
  - iDestruct "Hbad" as %->. rewrite Hv. wp_steps. iApply (wp_destroy with "Hs"). wp_steps.
    iApply (wp_add_context (s_find_id id 0 nodes) ctx _ got x1 with "He"); [done|exact Hfailed|].
    iIntros (r2 x3 got' [Hr2 [Hc Hf2]]) "He". wp_steps. iFrame "Hp". iRight. iExists got'. iFrame. iPureIntro.
    split; [|done]. split; [by etrans|]. rewrite Hsp. destruct Hf2 as [Hf2|[? ?]]; [by left|right; by split].
Qed.

(** ** Searching the children of a node *)

(** A call of the configuration manager. *)
Lemma wp_cm {A} (s : Spec A) (r : A + Z) ev text x :
  s (x_trace x) = s_cr r ev text (x_trace x) →
  match r with
  | inl a => succeeded s x (win_ext ev x) a
  | inr cr => calm x (win_ext ev x) ∧ s (x_trace x) = (inl (cr_error cr text), x_trace (win_ext ev x))
  end.
Proof. intros Hs. unfold s_cr in Hs. destruct r; (split; [apply calm_win|exact Hs]). Qed.

Lemma fitting_device_id_error h node cr :
  fitting_device_id (win_device_id h node) = inr cr → cr ≠ CR_SUCCESS.
Proof.
  unfold fitting_device_id. destruct (win_device_id h node) eqn:E; [|intros [= <-]; by eapply device_id_error].
  destruct (_ <=? _); [done|]. by intros [= <-].
Qed.

Lemma cr_nonzero cr : cr ≠ CR_SUCCESS → (cr =? CR_SUCCESS) = false.
Proof. apply Z.eqb_neq. Qed.

Definition child_result (devs : HANDLE) (nodes : list Z) (r : option (ptr * option Z))
    (s : Spec (option Z)) (x x' : ext) : hProp :=
  match r with
  | None => ⟪succeeded s x x' None⟫
  | Some (e, o) => returns s x x' e (λ a, ⟪a = o ∧ is_Some o⟫ ∗ set_own devs nodes) ⟪o = None⟫
  end%I.

Lemma find_child_spec fuel devs pre rest dev_inst k x :
  (List.length rest < fuel)%nat →
  {{ set_own devs (pre ++ rest) }}
    composite_list_loop fuel devs (Z.of_nat (List.length pre)) dev_inst k @ x
  {{ r x', child_result devs (pre ++ rest) r (s_find_child dev_inst k (List.length pre) rest) x x' }}.
Proof.
  revert pre rest x. induction fuel as [|fuel IH]; intros pre rest x Hfuel; [lia|].
  iIntros "Hs". cbn [composite_list_loop]. unfold GetLastError. wp_step.
  set (s := s_find_child dev_inst k (List.length pre) rest).
  iApply (wp_enum_rest with "Hs"). iSplit.
  - iIntros (code He) "Hs". wp_steps. cbn [with_error x_errno].
    set (x1 := with_error code (win_ext _ x)).
    assert (Hc : calm x x1) by apply calm_win.
    pose proof (s_search_stop "Failed to get device info to find an interface." (visit_child dev_inst k)
      (mret None) _ _ _ _ He : s (x_trace x) = _) as Hsp. cbn zeta in Hsp.
    destruct (code =? ERROR_NO_MORE_ITEMS); wp_steps.
    + iApply (wp_destroy with "Hs"). wp_steps. iPureIntro. split; [exact Hc|]. by rewrite Hsp sret_eq.
    + iApply (wp_winapi_failed s _ x); [done|exact Hc|exact Hsp|].
      iIntros (r x' got [Hr Hf]) "He". wp_steps. iApply (wp_destroy with "Hs"). wp_steps.
      iRight. iExists got. by iFrame.
  - iIntros (node rest' (He & -> & Hn)) "Hs". set (x0 := win_ext (WinEnumDevice _) x).
    assert (Hp : pre ++ node :: rest' = (pre ++ [node]) ++ rest') by by rewrite -app_assoc.
    assert (Hnext : ∀ x1, succeeded (visit_child dev_inst k node) x0 x1 None →
      set_own devs ((pre ++ [node]) ++ rest') ⊢
      wp (composite_list_loop fuel devs (next_index (Z.of_nat (List.length pre))) dev_inst k) x1
        (λ r x', child_result devs (pre ++ node :: rest') r s x x')).
    { intros x1 Ha. iIntros "Hs". rewrite Hn. iApply (wp_wand with "[-]").
      { iApply (IH (pre ++ [node]) rest'); [cbn in Hfuel; lia|iFrame]. }
      rewrite length_app Nat.add_1_r Hp.
      destruct (search_next "Failed to get device info to find an interface." _ (mret None) _ _ _ _ _ He Ha) as [Hc E].
      iIntros ([[e o]|] x') "H"; cbn [child_result].
      - by iApply (returns_tail with "H").
      - iDestruct "H" as %[Hc' E']. iPureIntro. split; [by etrans|]. rewrite /s /s_find_child E. exact E'. }
    unfold CM_Get_Parent, log_win. wp_steps.
    pose proof (wp_cm (s_parent node) (win_parent (x_trace x0) node) (WinParent node) _ x0 eq_refl) as Hpar.
    destruct (win_parent (x_trace x0) node) as [parent|cr] eqn:Epar; cbn [cr_result]; wp_steps; last first.
    { rewrite (cr_nonzero cr); [|by eapply parent_error]. wp_steps. iApply (wp_destroy with "Hs"). wp_steps.
      destruct Hpar as [Hcp Hsp].
      iApply (wp_cr_failed (s_parent node) cr _ x0); [done|exact Hcp|exact Hsp|].
      iIntros (r x' got [Hr Hf]) "He". wp_steps. iRight. iExists got. iFrame. iPureIntro. split; [|done].
      eapply search_failed; [exact He|]. by apply failed_bind. }
    rewrite Z.eqb_refl. wp_simpl. destruct (parent =? dev_inst) eqn:Ep; wp_simpl; last first.
    { iApply Hnext; [|iFrame]. eapply succeeded_bind; [exact Hpar|]. rewrite Ep. by apply succeeded_ret. }
    set (x1 := win_ext (WinParent node) x0) in *.
    pose proof (wp_cm (s_device_id node) (fitting_device_id (win_device_id (x_trace x1) node))
      (WinDeviceId node) _ x1 eq_refl) as Hid.
    unfold CM_Get_Device_ID, log_win. wp_steps.
    change (x_trace x1) with (EvWin (WinParent node) :: x_trace x0) in Hid.
    destruct (fitting_device_id _) as [id|cr] eqn:Eid; cbn [cr_result]; wp_simpl; last first.
    { rewrite (cr_nonzero cr); [|by eapply fitting_device_id_error]. wp_steps.
      destruct Hid as [Hcp Hsp].
      iApply (wp_cr_failed (s_device_id node) cr _ x1); [done|exact Hcp|exact Hsp|].
      iIntros (r x' got [Hr Hf]) "He". wp_steps. iApply (wp_destroy with "Hs"). wp_steps.
      iRight. iExists got. iFrame. iPureIntro. split; [|done].
      eapply search_failed; [exact He|]. eapply failed_bind_r; [exact Hpar|]. rewrite Ep.
      by apply failed_bind. }
    rewrite Z.eqb_refl. wp_simpl.
    assert (Ha : succeeded (visit_child dev_inst k node) x0 (win_ext (WinDeviceId node) x1)
      (if bool_decide (names_interface id k) then Some (Some node) else None)).
    { eapply succeeded_bind; [exact Hpar|]. rewrite Ep. eapply succeeded_bind; [exact Hid|].
      by apply succeeded_ret. }
    rewrite (bool_decide_ext _ _ (iff_sym (id_interface_number_names id k))) in Ha.
    destruct (id_interface_number id) as [m|]; [|wp_simpl; iApply Hnext; [exact Ha|iFrame]].
    destruct (Z.eqb_spec m k) as [->|Hm]; wp_simpl.
    + rewrite bool_decide_true // in Ha. wp_steps. rewrite Hp.
      iApply (returns_ok _ _ _ (Some node)); [|iFrame; by iPureIntro; eauto].
      by eapply search_found.
    + iApply Hnext; [|iFrame]. rewrite bool_decide_false // in Ha. congruence.
Qed.

(** The sets from number [i] on. *)
Lemma composite_loop_spec cs i dev_inst k x fuel :
  (∀ j, list_class (i + Z.of_nat j) = cs !! j) → 0 ≤ i → i + Z.of_nat (List.length cs) ≤ 3 → (List.length cs < fuel)%nat →
  {{ emp }} composite_loop fuel i dev_inst k @ x {{ r x',
    returns (s_find_in_sets i cs dev_inst k) x x' r.1.1 (node_own r) (no_node r) }}.
Proof.
  revert i x fuel. induction cs as [|c cs IH]; intros i x fuel Hcs Hi Hi3 Hf; (destruct fuel as [|fuel]; [cbn in Hf; lia|]);
    iIntros "_"; cbn [composite_loop]; pose proof (Hcs 0%nat) as Hc0; cbn [Z.of_nat lookup list_lookup] in Hc0;
    rewrite Z.add_0_r in Hc0; rewrite Hc0.
  { wp_steps. iApply wp_error_create; [by rewrite !no_nul_app no_nul_fmt_d|]. err_intro. err_chain.
    iApply (returns_err with "[-]"); [done|]. by iFrame. }
  wp_step. iApply wp_class_devs. cbn zeta. set (x1 := win_ext (WinClassDevs c) x).
  set (text := "Failed to list devices to find an interface (" +:+ fmt_u i +:+ ").").
  assert (Htext : no_nul text = true) by by rewrite /text !no_nul_app no_nul_fmt_u.
  assert (Hsp : s_class_devs c text (x_trace x) =
    (match win_class_devs (x_trace x) c with inl a => inr a | inr code => inl (win_error code text) end,
     x_trace x1)) by done.
  pose proof (calm_win (WinClassDevs c) x) as Hcw.
  destruct (win_class_devs (x_trace x) c) as [nodes|code]; last first.
  { cbn [is_valid]. wp_steps. iApply (wp_winapi_failed (s_class_devs c text) _ x); [exact Htext|exact Hcw|exact Hsp|].
    iIntros (r x' got [Hr Hfl]) "He". wp_steps. iRight. iExists got. iFrame. iPureIntro. split; [|done].
    by apply failed_bind. }
  iIntros (devs) "Hs". iDestruct (set_own_valid with "Hs") as "[%Hv Hs]". rewrite Hv. wp_step.
  assert (Ha : succeeded (s_class_devs c text) x x1 nodes) by done.
  iApply (wp_set_rounds with "Hs"). iIntros "Hs". wp_step.
  iApply (wp_wand with "[Hs]"); [iApply (find_child_spec _ devs [] nodes dev_inst k x1); [lia|iFrame]|].
  iIntros ([[e o]|] x2) "H"; cbn [child_result app List.length].
  - returned "H".
    + iDestruct "Hok" as "[%Ho Hs]". destruct Ho as [-> [node ->]]. wp_steps.
      iApply (returns_ok _ _ _ node with "[-]"); [|iSplit; [done|iExists nodes; by iFrame]].
      eapply succeeded_bind; [exact Ha|]. eapply succeeded_bind; [eassumption|]. by apply succeeded_ret.
    + iDestruct "Hbad" as %->. wp_steps. iRight. iExists got. iFrame. iPureIntro. split; [|done].
      eapply failed_bind_r; [exact Ha|]. by apply failed_bind.
  - iDestruct "H" as %Hn. unfold to_u32. cbn in Hi3. rewrite wrap_id; [|lia].
    iApply (wp_wand with "[]").
    { iApply (IH (i + 1)); [|lia|lia|cbn in Hf; lia|done]. intros j. change (cs !! j) with ((c :: cs) !! S j). rewrite -Hcs. f_equal. lia. }
    iIntros (r x') "H". iApply (returns_bind _ _ nodes); [exact Ha|].
    by iApply (returns_bind _ _ None with "H").
Qed.

Lemma get_interface_composite_spec p id k x :
  {{ text_own p id }} get_interface_composite p k @ x {{ r x',
    text_own p id ∗ returns (s_composite id k) x x' r.1.1 (node_own r) (no_node r) }}.
Proof.
  iIntros "Hp". unfold get_interface_composite, CM_Locate_DevNode, log_win. wp_step.
  iApply (reads_text with "Hp"). iIntros "Hp". wp_steps.
  pose proof (wp_cm (s_locate id) (win_locate (x_trace x) id) (WinLocate id) _ x eq_refl) as Hl.
  destruct (win_locate (x_trace x) id) as [dev_inst|cr] eqn:E; cbn [cr_result]; wp_simpl; last first.
  { rewrite (cr_nonzero cr); [|by eapply locate_error]. wp_steps. destruct Hl as [Hc Hsp].
    iApply (wp_cr_failed (s_locate id) cr _ x); [done|exact Hc|exact Hsp|].
    iIntros (r x' got [Hr Hf]) "He". wp_steps. iFrame. iRight. iExists got. iFrame. iPureIntro.
    split; [|done]. by apply failed_bind. }
  rewrite Z.eqb_refl. wp_simpl. iApply (wp_wand with "[]").
  { iApply (composite_loop_spec [UsbNodes; ComPorts; Modems] 0 dev_inst k _ 4); [|lia|cbn; lia|cbn; lia|done].
    intros [|[|[|j]]]; try done. unfold list_class.
    destruct (Z.eqb_spec (0 + Z.of_nat (S (S (S j)))) 0); [lia|].
    destruct (Z.eqb_spec (0 + Z.of_nat (S (S (S j)))) 1); [lia|].
    destruct (Z.eqb_spec (0 + Z.of_nat (S (S (S j)))) 2); [lia|done]. }
  iIntros (r x') "H". iFrame. by iApply (returns_bind _ _ dev_inst).
Qed.

Lemma get_interface_spec p id k composite x :
  {{ text_own p id }} get_interface p k composite @ x {{ r x',
    text_own p id ∗ returns (s_get_interface id k composite) x x' r.1.1 (node_own r) (no_node r) }}.
Proof.
  iIntros "Hp". iDestruct (text_own_facts with "Hp") as "[%H Hp]". destruct H as (_ & _ & Hn).
  unfold get_interface, s_get_interface. rewrite Hn. wp_step. wp_step. destruct composite.
  - by iApply get_interface_composite_spec.
  - by iApply get_interface_non_composite_spec.
Qed.

(** ** File names *)

Definition visit_devinst (devinst node : Z) : Spec (option unit) :=
  mret (if node =? devinst then Some tt else None).

Definition no_filename : aerr :=
  err_code (err_new "Could not find matching device in order to get its filename.")
    LIBUSBP_ERROR_NOT_READY.

Definition s_find_devinst (devinst : Z) : nat → list Z → Spec unit :=
  s_search "Failed to enumerate list item to find matching device." (visit_devinst devinst)
    (sfail no_filename).

Definition answered (r : option Z) : unit + Z := match r with None => inl tt | Some code => inr code end.

Definition s_has_interface (devinst guid : Z) : Spec unit := λ h,
  s_win (answered (win_interface h devinst guid)) (WinInterface devinst guid)
    "Failed to get device interface data." h.

Definition s_detail_size (devinst guid : Z) : Spec Z := λ h,
  s_win (match win_interface_path h devinst guid with inl path => inl (sizeof_detail path) | inr code => inr code end)
    (WinInterfaceSize devinst guid) "Failed to get the size of the device interface details." h.

Definition fitting_path (r : string + Z) (size : Z) : string + Z :=
  match r with
  | inl path => if sizeof_detail path <=? size then inl (until_nul path) else inr ERROR_INSUFFICIENT_BUFFER
  | inr code => inr code
  end.

Definition s_detail (devinst guid size : Z) : Spec string := λ h,
  s_win (fitting_path (win_interface_path h devinst guid) size) (WinInterfaceDetail devinst guid)
    "Failed to get the device interface details." h.

Definition s_filename (devinst guid : Z) : Spec string :=
  nodes ← s_class_devs (WithInterface guid)
    "Failed to create a list of devices to find a device filename.";
  s_find_devinst devinst 0 nodes;;
  s_has_interface devinst guid;;
  size ← s_detail_size devinst guid;
  s_detail devinst guid size.

Lemma find_devinst_spec fuel devs pre rest devinst x :
  (List.length rest < fuel)%nat →
  {{ set_own devs (pre ++ rest) }} find_devinst_loop fuel devs (Z.of_nat (List.length pre)) devinst @ x
  {{ r x', returns (s_find_devinst devinst (List.length pre) rest) x x' r
             (λ _, set_own devs (pre ++ rest)) emp }}.
Proof.
  revert pre rest x. induction fuel as [|fuel IH]; intros pre rest x Hfuel; [lia|].
  iIntros "Hs". cbn [find_devinst_loop]. unfold GetLastError. wp_step.
  iApply (wp_enum_rest with "Hs"). iSplit.
  - iIntros (code He) "Hs". wp_steps. cbn [with_error x_errno].
    set (x1 := with_error code (win_ext _ x)).
    assert (Hc : calm x x1) by apply calm_win.
    pose proof (s_search_stop _ (visit_devinst devinst) (sfail no_filename) _ _ _ _ He
      : s_find_devinst devinst (List.length pre) rest (x_trace x) = _) as Hsp. cbn zeta in Hsp.
    destruct (code =? ERROR_NO_MORE_ITEMS); wp_steps.
    + iApply (wp_destroy with "Hs"). wp_steps. iApply wp_error_create; [done|]. err_intro. err_chain.
      iApply (returns_err_from with "[-]"); [exact Hc|exact Hsp|by iFrame].
    + iApply (wp_winapi_failed (s_find_devinst devinst (List.length pre) rest) _ x); [done|exact Hc|exact Hsp|].
      iIntros (r x' got [Hr Hf]) "He". wp_steps. iApply (wp_destroy with "Hs"). wp_steps.
      iRight. iExists got. by iFrame.
  - iIntros (node rest' (He & -> & Hn)) "Hs". set (x0 := win_ext (WinEnumDevice _) x).
    assert (Hp : pre ++ node :: rest' = (pre ++ [node]) ++ rest') by by rewrite -app_assoc.
    assert (Ha : succeeded (visit_devinst devinst node) x0 x0 (if node =? devinst then Some tt else None)).
    { by apply succeeded_ret. }
    destruct (node =? devinst); wp_steps.
    + rewrite Hp. iApply (returns_ok _ _ _ tt with "Hs"). by eapply search_found.
    + rewrite Hn. iApply (wp_wand with "[-]"); [iApply (IH (pre ++ [node]) rest'); [cbn in Hfuel; lia|iFrame]|].
      iIntros (r x') "H". rewrite Hp length_app Nat.add_1_r.
      by iApply (returns_search_next _ _ _ _ _ _ _ _ _ _ _ _ He Ha).
Qed.

(** A set that nothing refers to any more. *)
Definition leaked_set : hProp := (∃ devs nodes, set_own devs nodes)%I.

Definition filename_result (devinst guid : Z) (r : ptr * option ptr) (x x' : ext) : hProp :=
  (returns (s_filename devinst guid) x x' r.1 (out_str r.2) ⟪r.2 = None⟫ ∨
   ⟪r = (Static error_no_memory, None) ∧ calm x x' ∧ oomed x x'⟫ ∗ leaked_set)%I.

Lemma slen_until_nul s : slen (until_nul s) ≤ slen s.
Proof.
  unfold slen. induction s as [|c s IH]; cbn [until_nul]; [done|].
  case_bool_decide; cbn [String.length]; lia.
Qed.

Lemma wp_has_interface devs nodes devinst guid x Q :
  set_own devs nodes -∗
  (set_own devs nodes -∗
   let x1 := win_ext (WinInterface devinst guid) x in
   match win_interface (x_trace x) devinst guid with
   | None => ⌜succeeded (s_has_interface devinst guid) x x1 tt⌝ → Q true x1
   | Some code =>
       ⌜s_has_interface devinst guid (x_trace x) =
          (inl (win_error code "Failed to get device interface data."), x_trace x1)⌝ →
       Q false (with_error code x1)
   end) -∗
  wp (SetupDiEnumDeviceInterfaces devs devinst guid) x Q.
Proof.
  iIntros "Hs HQ". iDestruct (set_own_use with "Hs") as "[Hd Hs]".
  unfold SetupDiEnumDeviceInterfaces, log_win. wp_step.
  iApply (wp_load_handle as_set with "Hd"); [done|]. iIntros "Hd". iSpecialize ("Hs" with "Hd"). wp_steps.
  iApply wp_win_success. iSpecialize ("HQ" with "Hs"). cbn zeta.
  pose proof (calm_win (WinInterface devinst guid) x) as Hc.
  destruct (win_interface _ _ _) as [code|] eqn:E; iApply "HQ"; iPureIntro;
    [|split; [exact Hc|]]; unfold s_has_interface, s_win; by rewrite E.
Qed.

Lemma wp_detail_size devs nodes devinst guid x Q :
  set_own devs nodes -∗
  (set_own devs nodes -∗
   let x1 := win_ext (WinInterfaceSize devinst guid) x in
   match win_interface_path (x_trace x) devinst guid with
   | inl path =>
       ⌜succeeded (s_detail_size devinst guid) x (with_error ERROR_INSUFFICIENT_BUFFER x1) (sizeof_detail path) ∧
        sizeof_detail path ≤ UINT32_MAX⌝ →
       Q (false, sizeof_detail path) (with_error ERROR_INSUFFICIENT_BUFFER x1)
   | inr code =>
       ⌜s_detail_size devinst guid (x_trace x) =
          (inl (win_error code "Failed to get the size of the device interface details."), x_trace x1) ∧
        (code =? ERROR_INSUFFICIENT_BUFFER) = false⌝ →
       Q (false, 0) (with_error code x1)
   end) -∗
  wp (SetupDiGetDeviceInterfaceDetail_size devs devinst guid) x Q.
Proof.
  iIntros "Hs HQ". iDestruct (set_own_use with "Hs") as "[Hd Hs]".
  unfold SetupDiGetDeviceInterfaceDetail_size, log_win, SetLastError. wp_step.
  iApply (wp_load_handle as_set with "Hd"); [done|]. iIntros "Hd". iSpecialize ("Hs" with "Hd"). wp_steps.
  iSpecialize ("HQ" with "Hs"). cbn zeta.
  pose proof (calm_win (WinInterfaceSize devinst guid) x) as Hc.
  destruct (win_interface_path _ _ _) as [path|code] eqn:E; wp_steps.
  - apply interface_path_size in E as Hsz. unfold to_u32. rewrite wrap_id.
    + iApply "HQ". iPureIntro. split; [|done]. split; [exact Hc|]. unfold s_detail_size, s_win. by rewrite E.
    + unfold sizeof_detail, offset_DevicePath, UINT32_MAX in *. pose proof (slen_nonneg path). lia.
  - iApply "HQ". iPureIntro. split; [unfold s_detail_size, s_win; by rewrite E|]. apply Z.eqb_neq. intros ->. by eapply interface_path_error.
Qed.

(** The block of the details: its first four bytes, the path and the rest. *)
Lemma wp_detail devs nodes devinst guid l pre rest x Q :
  List.length pre = 4%nat →
  set_own devs nodes -∗ l ↦ OChars (pre ++ rest) -∗
  (set_own devs nodes -∗
   let x1 := win_ext (WinInterfaceDetail devinst guid) x in
   let size := 4 + Z.of_nat (List.length rest) in
   match fitting_path (win_interface_path (x_trace x) devinst guid) size with
   | inl path => ∀ rest',
       ⌜succeeded (s_detail devinst guid size) x x1 path ∧ no_nul path = true ∧ slen path < size⌝ →
       l ↦ OChars (pre ++ cstr path ++ rest') -∗ Q true x1
   | inr code =>
       ⌜s_detail devinst guid size (x_trace x) =
          (inl (win_error code "Failed to get the device interface details."), x_trace x1)⌝ →
       l ↦ OChars (pre ++ rest) -∗ Q false (with_error code x1)
   end) -∗
  wp (SetupDiGetDeviceInterfaceDetail devs devinst guid (Heap l) (4 + Z.of_nat (List.length rest))) x Q.
Proof.
  iIntros (Hpre) "Hs Hl HQ". iDestruct (set_own_use with "Hs") as "[Hd Hs]".
  unfold SetupDiGetDeviceInterfaceDetail, log_win. wp_step.
  iApply (wp_load_handle as_set with "Hd"); [done|]. iIntros "Hd". iSpecialize ("Hs" with "Hd"). wp_steps.
  iApply wp_win_result. iSpecialize ("HQ" with "Hs"). cbn zeta.
  pose proof (calm_win (WinInterfaceDetail devinst guid) x) as Hc.
  set (size := 4 + Z.of_nat (List.length rest)).
  assert (Hsp : s_detail devinst guid size (x_trace x) =
    s_win (fitting_path (win_interface_path (x_trace x) devinst guid) size) (WinInterfaceDetail devinst guid)
      "Failed to get the device interface details." (x_trace x)) by done.
  revert Hsp. unfold fitting_path.
  destruct (win_interface_path _ _ _) as [path|code]; intros Hsp; [|wp_steps; iApply ("HQ" with "[%] Hl"); done].
  destruct (Z.leb_spec (sizeof_detail path) size) as [Hle|Hgt];
    [|wp_steps; iApply ("HQ" with "[%] Hl"); done].
  wp_steps. unfold size, sizeof_detail, offset_DevicePath in Hle. pose proof (slen_nonneg path) as Hn.
  pose proof (slen_until_nul path) as Hu.
  iApply (wp_write_prefix l pre with "Hl").
  { by rewrite Hpre. }
  { rewrite length_cstr. unfold slen in *. lia. }
  iIntros "Hl". wp_steps. iApply ("HQ" with "[%] Hl"). split_and!; [by split|apply until_nul_no_nul|unfold size; lia].
Qed.

(** The error of a stage, after which the set is destroyed. *)
Ltac fail_and_destroy :=
  iIntros (? ? ? [? ?]) "He"; wp_steps; iApply (wp_destroy with "Hs"); wp_steps;
  iLeft; iRight; iExists _; iFrame "He"; iPureIntro; (split; [chain|done]).

Lemma get_filename_spec devinst guid x :
  {{ emp }} get_filename_from_devinst_and_guid devinst guid @ x {{ r x', filename_result devinst guid r x x' }}.
Proof.
  iIntros "_". unfold get_filename_from_devinst_and_guid. wp_step.
  iApply wp_class_devs. cbn zeta. set (x1 := win_ext (WinClassDevs (WithInterface guid)) x).
  set (text := "Failed to create a list of devices to find a device filename.").
  assert (Hsp : s_class_devs (WithInterface guid) text (x_trace x) =
    (match win_class_devs (x_trace x) (WithInterface guid) with
     | inl a => inr a | inr code => inl (win_error code text) end, x_trace x1)) by done.
  pose proof (calm_win (WinClassDevs (WithInterface guid)) x) as Hcw.
  destruct (win_class_devs (x_trace x) (WithInterface guid)) as [nodes|code]; last first.
  { cbn [is_valid]. wp_steps. iApply (wp_winapi_failed (s_class_devs (WithInterface guid) text) _ x);
      [done|exact Hcw|exact Hsp|].
    iIntros (r x' got [Hr Hf]) "He". wp_steps. iLeft. iRight. iExists got. iFrame. iPureIntro.
    split; [by apply failed_bind|done]. }
  assert (Ha1 : succeeded (s_class_devs (WithInterface guid) text) x x1 nodes) by done. clear Hsp.
  iIntros (devs) "Hs". iDestruct (set_own_valid with "Hs") as "[%Hv Hs]". rewrite Hv. wp_step.
  iApply (wp_set_rounds with "Hs"). iIntros "Hs". wp_step.
  iApply (wp_wand with "[Hs]"); [iApply (find_devinst_spec _ devs [] nodes devinst x1); [lia|iFrame]|].
  iIntros (e x2) "H". cbn [app List.length]. returned "H"; last first.
  { wp_steps. iLeft. fails. }
  iRename "Hok" into "Hs". destruct a. rename Ha into Ha2. wp_step.
  iApply (wp_has_interface with "Hs"). iIntros "Hs". cbn zeta.
  pose proof (calm_win (WinInterface devinst guid) x2) as Hc3. set (x3 := win_ext _ x2) in *.
  destruct (win_interface (x_trace x2) devinst guid) as [code|].
  { iIntros (Hs). wp_steps. iApply (wp_winapi_failed (s_has_interface devinst guid) _ x2); [done|exact Hc3|exact Hs|].
    fail_and_destroy. }
  iIntros (Ha3). wp_step. wp_steps. iApply (wp_detail_size with "Hs"). iIntros "Hs". cbn zeta.
  pose proof (calm_win (WinInterfaceSize devinst guid) x3) as Hc4.
  destruct (win_interface_path (x_trace x3) devinst guid) as [path|code]; last first.
  { iIntros ([Hs Hcode]). unfold GetLastError. wp_steps. cbn [with_error x_errno]. rewrite Hcode. wp_steps.
    iApply (wp_winapi_failed (s_detail_size devinst guid) _ x3); [done|exact Hc4|exact Hs|].
    fail_and_destroy. }
  iIntros ([Ha4 Hsz]). set (x4 := with_error _ _) in *. clear Hc4. unfold GetLastError. wp_steps.
  change (x_errno x4 =? ERROR_INSUFFICIENT_BUFFER) with true. wp_step. wp_steps.
  assert (Hc : calm x x4).
  { destruct Ha1 as [H1 _], Ha2 as [H2 _], Ha3 as [H3 _], Ha4 as [H4 _].
    exact (transitivity H1 (transitivity H2 (transitivity H3 H4))). }
  pose proof (slen_nonneg path) as Hpos. unfold sizeof_detail, offset_DevicePath in Hsz.
  iApply wp_malloc_bytes; [unfold sizeof_detail, offset_DevicePath; lia|]. iSplit; last first.
  { iIntros (x' [Hq Ho]). wp_steps. iRight. iSplitR.
    - iPureIntro. split_and!; [done|exact (transitivity Hc (quiet_calm _ _ Hq))|exact (oomed_r _ _ _ Hc Ho)].
    - iExists devs, nodes. iFrame. }
  iIntros (l _) "Hl". wp_steps.
  iApply (wp_write_prefix l [] with "Hl"); [done| |].
  { rewrite length_replicate. unfold sizeof_detail, offset_DevicePath. cbn [List.length cbSize_bytes]. lia. }
  cbn [app]. set (rest := drop _ _). iIntros "Hl". wp_step.
  assert (Hrest : sizeof_detail path = 4 + Z.of_nat (List.length rest)).
  { unfold rest. rewrite length_drop length_replicate.
    unfold sizeof_detail, offset_DevicePath. cbn [List.length cbSize_bytes]. lia. }
  rewrite Hrest. iApply (wp_detail devs nodes devinst guid l cbSize_bytes rest x4 with "Hs Hl"); [done|].
  iIntros "Hs". cbn zeta. set (x5 := win_ext _ x4).
  assert (Hc5 : calm x x5) by (etrans; [exact Hc|apply calm_win]). rewrite -!Hrest.
  destruct (fitting_path _ _) as [path5|code]; last first.
  { iIntros (Hs) "Hl". wp_steps.
    iApply (wp_winapi_failed (s_detail devinst guid (sizeof_detail path)) _ x4); [done|apply calm_win|exact Hs|].
    iIntros (r x' got [? ?]) "He"; wp_steps; iApply (wp_destroy with "Hs"); wp_steps.
    iLeft. iRight. iExists got. iFrame "He". iPureIntro. split; [chain|done]. }
  iIntros (rest' (Ha5 & Hp5 & Hlen)) "Hl". wp_steps. unfold read_text_at. wp_steps.
  rewrite (_ : drop (Z.to_nat offset_DevicePath) (cbSize_bytes ++ cstr path5 ++ rest') = cstr path5 ++ rest') //.
  rewrite scan_text //. wp_steps. pose proof (slen_nonneg path5).
  assert (Hall : succeeded (s_filename devinst guid) x x5 path5).
  { do 4 (eapply succeeded_bind; [eassumption|]). exact Ha5. }
  iApply wp_malloc_pos; [lia|]. iSplit.
  - iIntros (lp Hlp) "Hp". wp_steps. iApply (wp_destroy with "Hs"). wp_steps. iLeft.
    iApply (returns_ok _ _ _ path5 with "[-]"); [exact Hall|]. iExists (Heap lp). iSplit; [done|].
    iExists lp. iFrame. iPureIntro. split_and!; [done..|lia].
  - iIntros (x' [Hq Ho]). wp_steps. iApply (wp_destroy with "Hs"). wp_steps. iLeft.
    iApply returns_no_memory; [exact Hc5|exact Hq|exact Ho|done].
Qed.
End specs.

(** ** Which node is found *)

Section found.
Context `{OS : WindowsOS}.

(** The node of a device with the instance ID [id], or of its interface [k]: one of the
    nodes whose parent is the node of the device, and whose ID names [k]. *)
Definition interface_node (id : string) (k : Z) (composite : bool) (node : Z) : Prop :=
  if composite then
    ∃ h dev h1 c nodes h2 h3 child,
      win_locate h id = inl dev ∧ c ∈ [UsbNodes; ComPorts; Modems] ∧
      win_class_devs h1 c = inl nodes ∧ node ∈ nodes ∧ win_parent h2 node = inl dev ∧
      fitting_device_id (win_device_id h3 node) = inl child ∧ names_interface child k
  else
    ∃ h nodes h1, win_class_devs h UsbDevices = inl nodes ∧ node ∈ nodes ∧
      fitting_id (win_instance_id h1 node) = inl id.

Lemma find_child_inv dev k n nodes h node h' :
  s_find_child dev k n nodes h = (inr (Some node), h') →
  node ∈ nodes ∧ ∃ h2 h3 child, win_parent h2 node = inl dev ∧
    fitting_device_id (win_device_id h3 node) = inl child ∧ names_interface child k.
Proof.
  intros [(node' & h1 & h2 & Hn & Hv)|(h1 & Ho)]%s_search_inv; [|by rewrite sret_eq in Ho].
  unfold visit_child in Hv. apply sbind_inv in Hv as (parent & h3 & Hp & Hv).
  apply s_cr_inv in Hp as [Hp _]. destruct (Z.eqb_spec parent dev) as [->|]; cbn [negb] in Hv; [|by rewrite sret_eq in Hv].
  apply sbind_inv in Hv as (child & h4 & Hc & Hv). apply s_cr_inv in Hc as [Hc _]. rewrite sret_eq in Hv.
  case_bool_decide; [|done]. injection Hv as <- _. split; [done|]. by exists h1, h3, child.
Qed.

Lemma find_in_sets_inv i cs dev k h node h' :
  s_find_in_sets i cs dev k h = (inr node, h') →
  ∃ c h1 nodes h2 h3 child, c ∈ cs ∧ win_class_devs h1 c = inl nodes ∧ node ∈ nodes ∧
    win_parent h2 node = inl dev ∧ fitting_device_id (win_device_id h3 node) = inl child ∧
    names_interface child k.
Proof.
  revert i h. induction cs as [|c cs IH]; intros i h; cbn [s_find_in_sets]; [done|].
  intros (nodes & h1 & Hc & (o & h2 & Ho & H)%sbind_inv)%sbind_inv. apply s_win_inv in Hc as [Hc _].
  destruct o as [node'|].
  - rewrite sret_eq in H. injection H as -> _.
    destruct (find_child_inv _ _ _ _ _ _ _ Ho) as (Hn & h3 & h4 & child & Hrest).
    exists c, h, nodes, h3, h4, child. split; [by left|]. split; [done|]. by split.
  - destruct (IH _ _ H) as (c' & Hrest). exists c'. destruct Hrest as (h3 & nodes' & h4 & h5 & child & Hin & Hrest).
    exists h3, nodes', h4, h5, child. split; [by right|done].
Qed.

Lemma get_interface_inv id k composite h node h' :
  s_get_interface id k composite h = (inr node, h') → interface_node id k composite node.
Proof.
  unfold s_get_interface, interface_node. destruct composite.
  - intros (dev & h1 & Hl & Hs)%sbind_inv. apply s_cr_inv in Hl as [Hl _].
    apply find_in_sets_inv in Hs as (c & h2 & nodes & h3 & h4 & child & Hrest).
    destruct Hrest as (? & ? & ? & ? & ? & ?). by exists h, dev, h2, c, nodes, h3, h4, child.
  - unfold s_non_composite. intros H%scontext_inv. cbn beta zeta in H. destruct (win_class_devs h UsbDevices) as [nodes|] eqn:Ec; [|done].
    apply s_search_inv in H as [(node' & h1 & h2 & Hn & Hv)|(h1 & Ho)]; [|done].
    apply sbind_inv in Hv as (id' & h3 & Hi & Hv). apply s_win_inv in Hi as [Hi _]. rewrite sret_eq in Hv.
    case_bool_decide; [|done]. injection Hv as <- _. subst id'. by exists h, nodes, h1.
Qed.
End found.
