(* ===== verification/InterfaceWindows.v ===== *)
(** * InterfaceWindows: generic interfaces on Windows (src/src/windows/generic_interface_windows.c)

    The creation of a generic interface finds the device node of the interface, checks
    that its driver is WinUSB, and finds the file that stands for it by the first device
    interface GUID in the registry. *)

From S2P Require Import Prelude Memory Logic Format MultiSz Errors ErrorHresult Results Basics Strings WindowsOS ErrorWindows SetupWindows InstanceIdWindows DeviceWindows ListWindows NodeWindows.
#[local] Set Warnings "-rewrite-rw".

Section code.
Context `{OS : WindowsOS}.

(** The error and [*driver_name]. *)
Definition get_driver_name (list : HANDLE) (info : Z) : M (ptr * ptr) :=
  c_assert (is_valid list);;
  r ← SetupDiGetDeviceRegistryProperty_local list info ServiceName 64;
  match r with
  | None =>
      code ← GetLastError;
      (* The registry key isn't present: the device does not have a driver. *)
      if code =? ERROR_INVALID_DATA then mret (NULL, NULL) else
      error ← error_create_winapi "Failed to get the service name.";
      mret (error, NULL)
  | Some (data_type, service) =>
      if negb (data_type =? REG_SZ) then
        error ← error_create ("Service name is the wrong data type: " +:+ fmt_d (to_int data_type) +:+ ".");
        mret (error, NULL)
      else
      service ← local_string service;
      string_copy (Lit service)
  end.

(** The error, [*good_driver_installed], [*bad_driver_installed] and [*driver_name]. *)
Definition check_driver_installation (list : HANDLE) (info : Z) : M (ptr * bool * bool * ptr) :=
  c_assert (is_valid list);;
  '(error, driver_name) ← get_driver_name list info;
  if negb (is_null error) then mret (error, false, false, driver_name)
  (* No driver installed. *)
  else if is_null driver_name then mret (NULL, false, false, NULL)
  else
  equal ← CompareString driver_name "winusb";
  if equal : bool then mret (NULL, true, false, driver_name)
  else mret (NULL, false, true, driver_name).

(** The error and [*guid]. *)
Definition get_first_device_interface_guid (list : HANDLE) (info : Z) : M (ptr * Z) :=
  c_assert (is_valid list);;
  key ← SetupDiOpenDevRegKey list info;
  if negb (is_valid key) then
    error ← error_create_winapi
      "Failed to get device registry key in order to find its device interface GUIDs.";
    mret (error, 0)
  else
  (* Get the size of the DeviceInterfaceGUIDs key. *)
  '(reg_result, size) ← RegQueryValue_guids_size key;
  if negb (reg_result =? ERROR_SUCCESS) then
    if reg_result =? ERROR_FILE_NOT_FOUND then
      RegCloseKey key;;
      error ← error_create "DeviceInterfaceGUIDs key does not exist.";
      mret (error, 0)
    else
      RegCloseKey key;;
      SetLastError reg_result;;
      error ← error_create_winapi "Failed to get DeviceInterfaceGUIDs key size.";
      mret (error, 0)
  else
  guids ← malloc_bytes size;
  if is_null guids then mret (Static error_no_memory, 0) else
  '(reg_result, reg_type) ← RegQueryValue_guids key guids size;
  RegCloseKey key;;
  if negb (reg_result =? ERROR_SUCCESS) then
    free guids;;
    SetLastError reg_result;;
    error ← error_create_winapi "Failed to get DeviceInterfaceGUIDs key.";
    mret (error, 0)
  else if negb (reg_type =? REG_MULTI_SZ) then
    free guids;;
    error ← error_create ("Expected DeviceInterfaceGUIDs key to be a REG_MULTI_SZ (0x" +:+
      fmt_x 1 REG_MULTI_SZ +:+ "), got 0x" +:+ fmt_x 1 reg_type +:+ ".");
    mret (error, 0)
  else
  '(hr, guid) ← IIDFromString guids;
  free guids;;
  if FAILED hr then
    error ← error_create_hr hr "Failed to parse device interface GUID.";
    mret (error, 0)
  else mret (NULL, guid).

(** Assignments to the fields. *)
Definition set_gi (gi : ptr) (f : libusbp_generic_interface_windows → libusbp_generic_interface_windows) :
    M unit :=
  g ← load_as as_interface_windows gi;
  store gi (OWinInterface (f g)).
Definition set_instance (p : ptr) (g : libusbp_generic_interface_windows) : libusbp_generic_interface_windows :=
  {| wgi_interface_number := wgi_interface_number g; wgi_device_instance_id := p;
     wgi_filename := wgi_filename g |}.
Definition set_filename (p : ptr) (g : libusbp_generic_interface_windows) : libusbp_generic_interface_windows :=
  {| wgi_interface_number := wgi_interface_number g;
     wgi_device_instance_id := wgi_device_instance_id g; wgi_filename := p |}.

(** The value of a variable that an earlier stage has set. *)
Definition was_set (o : option Z) : M Z := match o with Some n => mret n | None => stuck Uninitialised end.

(** A string that is stored in a field when there is one. *)
Definition store_string (gi : ptr) (set : ptr → libusbp_generic_interface_windows → libusbp_generic_interface_windows)
    (o : option ptr) : M unit :=
  match o with Some p => set_gi gi (set p) | None => mret tt end.

(** The block that checks the driver: the error and [driver_name]. *)
Definition check_driver (list : HANDLE) (device_info_data : Z) : M (ptr * ptr) :=
  '(error, good_driver_installed, bad_driver_installed, driver_name) ←
    check_driver_installation list device_info_data;
  error ← (if is_null error && bad_driver_installed then
             name ← read_cstr driver_name;
             error_create ("Device is attached to an incorrect driver: " +:+ name +:+ ".")
           else mret error);
  error ← (if is_null error && negb good_driver_installed then
             error ← error_create "Device is not using any driver.";
             error_add_code error LIBUSBP_ERROR_NOT_READY
           else mret error);
  mret (error, driver_name).

(** The end of [generic_interface_initialize]. *)
Definition generic_interface_initialize_cleanup (list : HANDLE) (driver_name usb_device_id error : ptr) : M ptr :=
  when (is_valid list) (SetupDiDestroyDeviceInfoList list);;
  libusbp_string_free driver_name;;
  libusbp_string_free usb_device_id;;
  if negb (is_null error) then error_add error "Failed to initialize generic interface."
  else mret NULL.

Definition generic_interface_initialize (gi device : ptr) (interface_number : Z) (composite : bool) : M ptr :=
  c_assert (negb (is_null gi));;
  c_assert (negb (is_null device));;
  (* First, initialize everything so that the struct can safely be freed. *)
  store gi (OWinInterface {| wgi_interface_number := interface_number; wgi_device_instance_id := NULL;
                             wgi_filename := NULL |});;
  (* Get the device instance ID of the overall USB device. *)
  '(error, usb_device_id) ← libusbp_device_get_os_id device true;
  usb_device_id ← initialised usb_device_id;
  (* Access the generic interface device node with SetupAPI. *)
  '(error, list, device_info_data) ←
    (if is_null error then get_interface usb_device_id interface_number composite
     else mret (error, INVALID_HANDLE_VALUE, None));
  (* Record the device instance ID. *)
  error ← then_check error
    (info ← was_set device_info_data;
     '(error, id) ← create_id_string list info;
     store_string gi set_instance id;;
     mret error);
  (* Check the driver situation. *)
  '(error, driver_name) ← if_ok error NULL
    (info ← was_set device_info_data;
     check_driver list info);
  (* Get the first device interface GUID. *)
  '(error, guid) ← if_ok error 0
    (info ← was_set device_info_data;
     get_first_device_interface_guid list info);
  (* Use that GUID to get an actual filename. *)
  error ← then_check error
    (info ← was_set device_info_data;
     '(error, filename) ← get_filename_from_devinst_and_guid info guid;
     store_string gi set_filename filename;;
     mret error);
  generic_interface_initialize_cleanup list driver_name usb_device_id error.

Definition libusbp_generic_interface_free (gi : ptr) : M unit :=
  if is_null gi then mret tt else
  g ← load_as as_interface_windows gi;
  free (wgi_device_instance_id g);;
  free (wgi_filename g);;
  free gi.

(** The error and [*gi]. *)
Definition libusbp_generic_interface_create (device : ptr) (interface_number : Z)
    (composite gi_given : bool) : M (ptr * option ptr) :=
  if negb gi_given then
    error ← error_create "Generic interface output pointer is null.";
    mret (error, None)
  else if is_null device then
    error ← error_create "Device is null.";
    mret (error, Some NULL)
  else
  new_gi ← malloc sizeof_libusbp_generic_interface_windows OUninit;
  if is_null new_gi then mret (Static error_no_memory, Some NULL) else
  error ← generic_interface_initialize new_gi device interface_number composite;
  if negb (is_null error) then
    libusbp_generic_interface_free new_gi;;
    mret (error, Some NULL)
  else mret (NULL, Some new_gi).

Definition libusbp_generic_interface_copy (source : ptr) (dest_given : bool) : M (ptr * option ptr) :=
  if negb dest_given then
    error ← error_create "Generic interface output pointer is null.";
    mret (error, None)
  else if is_null source then mret (NULL, Some NULL) else
  g ← load_as as_interface_windows source;
  c_assert (negb (is_null (wgi_device_instance_id g)));;
  c_assert (negb (is_null (wgi_filename g)));;
  new_gi ← calloc 1 sizeof_libusbp_generic_interface_windows
    (OWinInterface {| wgi_interface_number := 0; wgi_device_instance_id := NULL; wgi_filename := NULL |});
  id ← strdup (wgi_device_instance_id g);
  filename ← strdup (wgi_filename g);
  if is_null new_gi || is_null id || is_null filename then
    free new_gi;;
    free id;;
    free filename;;
    mret (Static error_no_memory, Some NULL)
  else
  store new_gi (OWinInterface {| wgi_interface_number := wgi_interface_number g;
                                 wgi_device_instance_id := id; wgi_filename := filename |});;
  mret (NULL, Some new_gi).

(** The common body of the two getters. *)
Definition interface_get_string (field : libusbp_generic_interface_windows → ptr) (gi : ptr)
    (out_given : bool) : M (ptr * option ptr) :=
  if negb out_given then
    error ← error_create "String output pointer is null.";
    mret (error, None)
  else if is_null gi then
    error ← error_create "Generic interface is null.";
    mret (error, Some NULL)
  else
    g ← load_as as_interface_windows gi;
    '(error, copy) ← string_copy (field g);
    mret (error, Some copy).

Definition libusbp_generic_interface_get_os_id : ptr → bool → M (ptr * option ptr) :=
  interface_get_string wgi_device_instance_id.
Definition libusbp_generic_interface_get_os_filename : ptr → bool → M (ptr * option ptr) :=
  interface_get_string wgi_filename.
End code.

(** ** What a generic interface holds *)

Record win_interface := WinInterfaceObject {
  wi_number : Z;
  wi_id : string;
  wi_filename : string
}.

Definition win_interface_struct (p q : ptr) (i : win_interface) : libusbp_generic_interface_windows :=
  {| wgi_interface_number := wi_number i; wgi_device_instance_id := p; wgi_filename := q |}.

Definition win_interface_own (p : ptr) (i : win_interface) : hProp :=
  (∃ l pi pf, ⟪p = Heap l⟫ ∗ l ↦ OWinInterface (win_interface_struct pi pf i) ∗
     text_own pi (wi_id i) ∗ str_own pf (wi_filename i))%I.

(** ** What the functions mean *)

Section specs.
Context `{OS : WindowsOS} {LAWS : WindowsLaws OS}.
Context {SERVICES : ServicesTerminated OS} {GUIDS : GuidsTerminated OS}.

(** The text of a value in the registry. *)
Definition reg_text (bytes : list ascii) : string := default "" (scan (Some <$> bytes)).

Lemma reg_text_scan bytes rest :
  nul ∈ bytes → scan ((Some <$> bytes) ++ rest) = Some (reg_text bytes) ∧ no_nul (reg_text bytes) = true.
Proof.
  intros H. destruct (first_piece bytes H) as (s & cs & Hs & ->). unfold reg_text.
  rewrite scan_bytes //. cbn [default]. split; [|done]. unfold bytes_of.
  pose proof (scan_text s ((Some <$> cs) ++ rest) Hs) as E. unfold cstr in E.
  rewrite -app_assoc in E. rewrite !fmap_app -!app_assoc. exact E.
Qed.

(** The service that drives a node, if there is one. *)
Definition service_of (r : Z * list ascii + Z) : aerr + option string :=
  match r with
  | inl (ty, bytes) =>
      if 64 <? Z.of_nat (List.length bytes) then
        inl (win_error ERROR_INSUFFICIENT_BUFFER "Failed to get the service name.")
      else if negb (ty =? REG_SZ) then
        inl (err_new ("Service name is the wrong data type: " +:+ fmt_d (to_int ty) +:+ "."))
      else inr (Some (reg_text bytes))
  | inr code =>
      if code =? ERROR_INVALID_DATA then inr None
      else inl (win_error code "Failed to get the service name.")
  end.

Definition s_driver_name (node : Z) : Spec (option string) := λ h,
  (service_of (win_property h node ServiceName), EvWin (WinProperty node ServiceName) :: h).

(** The driver has to be WinUSB. *)
Definition check_service (o : option string) : Spec string :=
  match o with
  | None => sfail (err_code (err_new "Device is not using any driver.") LIBUSBP_ERROR_NOT_READY)
  | Some name =>
      if win_same_ignoring_case name "winusb" then mret name
      else sfail (err_new ("Device is attached to an incorrect driver: " +:+ name +:+ "."))
  end.

Definition s_check_driver (node : Z) : Spec string :=
  o ← s_driver_name node; check_service o.

Lemma wp_property_local devs nodes node p n x Q :
  set_own devs nodes -∗
  (set_own devs nodes -∗
   let x1 := win_ext (WinProperty node p) x in
   match win_property (x_trace x) node p with
   | inl (ty, bytes) =>
       if 64 <? Z.of_nat (List.length bytes) then Q None (with_error ERROR_INSUFFICIENT_BUFFER x1)
       else Q (Some (ty, local_buffer n bytes)) x1
   | inr code => Q None (with_error code x1)
   end) -∗
  ⟪n = 64%nat⟫ -∗
  wp (SetupDiGetDeviceRegistryProperty_local devs node p n) x Q.
Proof.
  iIntros "Hs HQ ->". iDestruct (set_own_use with "Hs") as "[Hd Hs]".
  unfold SetupDiGetDeviceRegistryProperty_local. wp_step. iApply (wp_property_data with "Hd").
  iIntros "Hd". iSpecialize ("HQ" with "[Hs Hd]"); [by iApply "Hs"|]. cbn zeta.
  destruct (win_property _ _ _) as [[ty bytes]|code]; [|wp_steps; iExact "HQ"].
  rewrite Z.ltb_antisym. change (Z.of_nat 64) with 64.
  destruct (Z.of_nat (List.length bytes) <=? 64); cbn [negb]; wp_steps; iExact "HQ".
Qed.

Lemma get_driver_name_spec devs nodes node x :
  {{ set_own devs nodes }} get_driver_name devs node @ x {{ r x',
    set_own devs nodes ∗
    returns (s_driver_name node) x x' r.1 (opt_str_own r.2) ⟪r.2 = NULL⟫ }}.
Proof.
  iIntros "Hs". iDestruct (set_own_valid with "Hs") as "[%Hv Hs]".
  unfold get_driver_name, GetLastError. rewrite Hv. wp_step. wp_steps.
  iApply (wp_property_local with "Hs [] [//]"). iIntros "Hs". cbn zeta.
  set (x1 := win_ext (WinProperty node ServiceName) x).
  assert (Hsp : s_driver_name node (x_trace x) =
    (service_of (win_property (x_trace x) node ServiceName), x_trace x1)) by done.
  pose proof (calm_win (WinProperty node ServiceName) x) as Hc.
  destruct (win_property (x_trace x) node ServiceName) as [[ty bytes]|code] eqn:E; cbn [service_of] in Hsp.
  - destruct (64 <? Z.of_nat (List.length bytes)) eqn:El.
    { wp_steps. change (x_errno _ =? ERROR_INVALID_DATA) with false. wp_steps.
      iApply (wp_winapi_failed (s_driver_name node) _ x); [done|exact Hc|exact Hsp|].
      iIntros (r x' got [Hr Hf]) "He". wp_steps. iFrame. iRight. iExists got. by iFrame. }
    wp_steps. destruct (Z.eqb_spec ty REG_SZ) as [->|Hty]; cbn [negb] in *; wp_steps; last first.
    { iApply wp_error_create; [by rewrite !no_nul_app no_nul_fmt_d|]. err_intro. wp_steps. iFrame.
      iApply (returns_err_from with "[-]"); [exact Hc|exact Hsp|by iFrame]. }
    apply service_terminated in E. destruct (reg_text_scan bytes (replicate (64 - List.length bytes) None) E) as [Es Hno].
    unfold local_string, local_buffer. rewrite Es. wp_steps.
    wp_call (string_copy_lit (reg_text bytes) x1). iIntros ([e q] x2) "H". rewrite until_nul_id //.
    iFrame "Hs". iApply (returns_tail _ (mret (Some (reg_text bytes))) x x1 with "[-]"); [exact Hc|by rewrite Hsp sret_eq|].
    by iApply (returns_ret with "H").
  - wp_steps. cbn [with_error x_errno]. destruct (code =? ERROR_INVALID_DATA); wp_steps.
    + iFrame. iApply (returns_ok _ _ _ None); [by split|done].
    + iApply (wp_winapi_failed (s_driver_name node) _ x); [done|exact Hc|exact Hsp|].
      iIntros (r x' got [Hr Hf]) "He". wp_steps. iFrame. iRight. iExists got. by iFrame.
Qed.

Lemma check_driver_spec devs nodes node x :
  {{ set_own devs nodes }} check_driver devs node @ x {{ r x',
    set_own devs nodes ∗
    returns (s_check_driver node) x x' r.1 (str_own r.2) (∃ o, opt_str_own r.2 o) }}.
Proof.
  iIntros "Hs". iDestruct (set_own_valid with "Hs") as "[%Hv Hs]".
  unfold check_driver, check_driver_installation. rewrite Hv. wp_step. wp_step. wp_step. wp_step.
  wp_call (get_driver_name_spec devs nodes node x). iIntros ([e q] x1) "[Hs H]". returned "H"; last first.
  { iDestruct "Hbad" as %->. wp_steps. iFrame. iRight. iExists got. iFrame. iSplit; [|by iExists None].
    iPureIntro. by apply failed_bind. }
  iDestruct (opt_str_own_null with "Hok") as "[%Hq Hok]". destruct a as [name|]; cbn [opt_str_own]; wp_steps.
  - unfold CompareString. wp_steps. iApply (reads_str with "Hok"). iIntros "Hok". wp_steps.
    destruct (win_same_ignoring_case name "winusb") eqn:Ew; wp_steps.
    + iFrame. iApply (returns_ok _ _ _ name with "Hok"). eapply succeeded_bind; [eassumption|].
      cbn [check_service]. rewrite Ew. by apply succeeded_ret.
    + iApply (reads_str with "Hok"). iIntros "Hok".
      iDestruct (str_own_no_nul with "Hok") as "[[%Hn _] Hok]".
      iApply wp_error_create; [by rewrite !no_nul_app Hn|]. err_intro. wp_steps. iFrame "Hs".
      destruct Ha as [Hc Ha].
      iApply (returns_err_from with "[-]"); [exact Hc| |iFrame; iExists (Some name); by iFrame].
      unfold s_check_driver. rewrite (sbind_ok _ _ _ _ _ Ha). cbn [check_service]. by rewrite Ew.
  - err_chain. iFrame "Hs". destruct Ha as [Hc Ha].
    iApply (returns_err_from with "[-]"); [exact Hc| |iFrame; by iExists None].
    unfold s_check_driver. by rewrite (sbind_ok _ _ _ _ _ Ha).
Qed.

(** ** The device interface GUID *)

Definition s_open_key (text : string) (node : Z) : Spec unit := λ h,
  s_win (answered (win_open_key h node)) (WinOpenKey node) text h.

Definition guid_key_text : string :=
  "Failed to get device registry key in order to find its device interface GUIDs.".

Definition s_guids_size (node : Z) : Spec Z := λ h,
  (match win_guids h node with
   | inl (_, bytes) => inr (Z.of_nat (List.length bytes))
   | inr code =>
       inl (if code =? ERROR_FILE_NOT_FOUND then err_new "DeviceInterfaceGUIDs key does not exist."
            else win_error code "Failed to get DeviceInterfaceGUIDs key size.")
   end, EvWin (WinGuidsSize node) :: h).

Definition guids_of (size : Z) (r : Z * list ascii + Z) : aerr + list ascii :=
  match r with
  | inl (ty, bytes) =>
      if negb (Z.of_nat (List.length bytes) <=? size) then
        inl (win_error ERROR_MORE_DATA "Failed to get DeviceInterfaceGUIDs key.")
      else if negb (ty =? REG_MULTI_SZ) then
        inl (err_new ("Expected DeviceInterfaceGUIDs key to be a REG_MULTI_SZ (0x" +:+
          fmt_x 1 REG_MULTI_SZ +:+ "), got 0x" +:+ fmt_x 1 ty +:+ "."))
      else inr bytes
  | inr code => inl (win_error code "Failed to get DeviceInterfaceGUIDs key.")
  end.

Definition s_guids (node size : Z) : Spec (list ascii) := λ h,
  (guids_of size (win_guids h node), EvWin (WinGuids node) :: h).

(** The first of the strings, as a GUID. *)
Definition s_parse_guid (bytes : list ascii) : Spec Z :=
  match win_iid (default [] (scan_wide (Some <$> bytes))) with
  | inl guid => mret guid
  | inr hr => sfail (hr_error hr "Failed to parse device interface GUID.")
  end.

Definition s_guid (node : Z) : Spec Z :=
  s_open_key guid_key_text node;;
  size ← s_guids_size node;
  bytes ← s_guids node size;
  s_parse_guid bytes.

(** A registry key that nothing refers to any more. *)
Definition leaked_key : hProp := (∃ key node, handle_own key (ORegKey node))%I.

Lemma wp_close_key key node x Q : handle_own key (ORegKey node) -∗ Q tt x -∗ wp (RegCloseKey key) x Q.
Proof.
  iIntros "(%l & -> & Hl) HQ". cbn [RegCloseKey]. iApply (wp_release with "Hl"); [done|]. iExact "HQ".
Qed.

Lemma wp_open_key text devs nodes node x Q :
  set_own devs nodes -∗
  (set_own devs nodes -∗
   let x1 := win_ext (WinOpenKey node) x in
   match win_open_key (x_trace x) node with
   | None => ∀ key, ⌜succeeded (s_open_key text node) x x1 tt⌝ → handle_own key (ORegKey node) -∗ Q key x1
   | Some code =>
       ⌜s_open_key text node (x_trace x) = (inl (win_error code text), x_trace x1)⌝ →
       Q INVALID_HANDLE_VALUE (with_error code x1)
   end) -∗
  wp (SetupDiOpenDevRegKey devs node) x Q.
Proof.
  iIntros "Hs HQ". iDestruct (set_own_use with "Hs") as "[Hd Hs]".
  unfold SetupDiOpenDevRegKey, log_win. wp_step.
  iApply (wp_load_handle as_set with "Hd"); [done|]. iIntros "Hd". iSpecialize ("Hs" with "Hd"). wp_steps.
  iApply wp_win_success. iSpecialize ("HQ" with "Hs"). cbn zeta.
  pose proof (calm_win (WinOpenKey node) x) as Hc.
  destruct (win_open_key _ _) as [code|] eqn:E; wp_steps.
  - iApply "HQ". iPureIntro. unfold s_open_key, s_win. by rewrite E.
  - iApply wp_new_handle. iIntros (key) "Hk". iApply ("HQ" with "[%] Hk"). split; [exact Hc|].
    unfold s_open_key, s_win. by rewrite E.
Qed.

Lemma scan_wide_app cs rest text : scan_wide cs = Some text → scan_wide (cs ++ rest) = Some text.
Proof.
  assert (H : ∀ n cs text, (List.length cs < n)%nat → scan_wide cs = Some text →
    scan_wide (cs ++ rest) = Some text); [|apply (H (S (List.length cs))); lia].
  clear. induction n as [|n IH]; intros cs text Hn; [lia|].
  destruct cs as [|[a|] [|[b|] cs]]; try done. cbn [scan_wide app].
  case_bool_decide; [done|]. destruct (scan_wide cs) as [t|] eqn:E; [|done].
  intros [= <-]. rewrite (IH cs t); [done|cbn in Hn; lia|done].
Qed.

(** The data of the value, in a buffer for [n] bytes. *)
Lemma wp_query_guids key node l n x Q :
  handle_own key (ORegKey node) -∗ l ↦ OChars (replicate n None) -∗
  (handle_own key (ORegKey node) -∗
   let x1 := win_ext (WinGuids node) x in
   match win_guids (x_trace x) node with
   | inl (ty, bytes) =>
       if Z.of_nat (List.length bytes) <=? Z.of_nat n then
         l ↦ OChars ((Some <$> bytes) ++ replicate (n - List.length bytes) None) -∗ Q (ERROR_SUCCESS, ty) x1
       else l ↦ OChars (replicate n None) -∗ Q (ERROR_MORE_DATA, ty) x1
   | inr code => l ↦ OChars (replicate n None) -∗ Q (code, 0) x1
   end) -∗
  wp (RegQueryValue_guids key (Heap l) (Z.of_nat n)) x Q.
Proof.
  iIntros "Hk Hl HQ". unfold RegQueryValue_guids, log_win. wp_step.
  iApply (wp_load_handle as_key with "Hk"); [done|]. iIntros "Hk". iSpecialize ("HQ" with "Hk"). cbn zeta. wp_steps.
  destruct (win_guids (x_trace x) node) as [[ty bytes]|code]; wp_steps; [|by iApply "HQ"].
  destruct (Z.leb_spec (Z.of_nat (List.length bytes)) (Z.of_nat n)); wp_steps; [|by iApply "HQ"].
  iApply (wp_write_prefix l [] with "Hl"); [done|rewrite length_fmap length_replicate; lia|].
  cbn [app]. rewrite drop_replicate length_fmap. iIntros "Hl". wp_steps. by iApply "HQ".
Qed.

(** What the function returns, and what it forgets when there is no memory. *)
Definition guid_result (node : Z) (r : ptr * Z) (x x' : ext) : hProp :=
  (returns (s_guid node) x x' r.1 (λ guid, ⟪r.2 = guid⟫) emp ∨
   ⟪r.1 = Static error_no_memory ∧ calm x x' ∧ oomed x x'⟫ ∗ leaked_key)%I.

(** From the point where the value has been read. *)
Definition guid_rest (key : HANDLE) (guids : ptr) (reg_result reg_type : Z) : M (ptr * Z) :=
  RegCloseKey key;;
  if negb (reg_result =? ERROR_SUCCESS) then
    free guids;;
    SetLastError reg_result;;
    error ← error_create_winapi "Failed to get DeviceInterfaceGUIDs key.";
    mret (error, 0)
  else if negb (reg_type =? REG_MULTI_SZ) then
    free guids;;
    error ← error_create ("Expected DeviceInterfaceGUIDs key to be a REG_MULTI_SZ (0x" +:+
      fmt_x 1 REG_MULTI_SZ +:+ "), got 0x" +:+ fmt_x 1 reg_type +:+ ".");
    mret (error, 0)
  else
  '(hr, guid) ← IIDFromString guids;
  free guids;;
  if FAILED hr then
    error ← error_create_hr hr "Failed to parse device interface GUID.";
    mret (error, 0)
  else mret (NULL, guid).

Lemma guid_rest_spec key node n l x :
  {{ handle_own key (ORegKey node) ∗ l ↦ OChars (replicate n None) }}
    ('(reg_result, reg_type) ← RegQueryValue_guids key (Heap l) (Z.of_nat n);
     guid_rest key (Heap l) reg_result reg_type) @ x
  {{ r x', returns (bytes ← s_guids node (Z.of_nat n); s_parse_guid bytes) x x' r.1
             (λ guid, ⟪r.2 = guid⟫) emp }}.
Proof.
  iIntros "[Hk Hl]". wp_step. iApply (wp_query_guids with "Hk Hl"). iIntros "Hk". cbn zeta.
  set (x1 := win_ext (WinGuids node) x). pose proof (calm_win (WinGuids node) x) as Hc.
  assert (Hsp : s_guids node (Z.of_nat n) (x_trace x) =
    (guids_of (Z.of_nat n) (win_guids (x_trace x) node), x_trace x1)) by done.
  assert (Hfail : ∀ code o, code ≠ ERROR_SUCCESS →
    s_guids node (Z.of_nat n) (x_trace x) =
      (inl (win_error code "Failed to get DeviceInterfaceGUIDs key."), x_trace x1) →
    handle_own key (ORegKey node) ∗ l ↦ OChars o ⊢
    wp (guid_rest key (Heap l) code 0) x1 (λ r x',
      returns (bytes ← s_guids node (Z.of_nat n); s_parse_guid bytes) x x' r.1 (λ guid, ⟪r.2 = guid⟫) emp)).
  { intros code o Hcode Hs. iIntros "[Hk Hl]". unfold guid_rest, SetLastError. wp_step.
    iApply (wp_close_key with "Hk"). rewrite (cr_nonzero code Hcode). wp_steps.
    iApply (wp_winapi_failed (s_guids node (Z.of_nat n)) _ x); [done|exact Hc|exact Hs|].
    iIntros (r x' got [Hr Hf]) "He". wp_steps. iRight. iExists got. iFrame. iPureIntro. by apply failed_bind. }
  destruct (win_guids (x_trace x) node) as [[ty bytes]|code] eqn:E; cbn [guids_of] in Hsp; last first.
  { iIntros "Hl". iApply (Hfail code); [by eapply guids_error|exact Hsp|iFrame]. }
  destruct (Z.of_nat (List.length bytes) <=? Z.of_nat n) eqn:El; cbn [negb] in Hsp; last first.
  { iIntros "Hl". iApply (Hfail ERROR_MORE_DATA); [done|exact Hsp|iFrame]. }
  clear Hfail. iIntros "Hl". unfold guid_rest. wp_step. iApply (wp_close_key with "Hk").
  wp_constants. rewrite Z.eqb_refl. wp_simpl.
  destruct (Z.eqb_spec ty REG_MULTI_SZ) as [->|Hty]; cbn [negb] in Hsp; wp_steps; last first.
  { iApply wp_error_create; [by rewrite !no_nul_app !no_nul_fmt_x|]. err_intro. wp_steps.
    iApply (returns_err_from with "[-]"); [exact Hc| |by iFrame]. by apply sbind_err. }
  apply guids_terminated in E as [text Et]. unfold IIDFromString. wp_steps.
  rewrite (scan_wide_app _ _ _ Et). wp_steps.
  assert (Ha : succeeded (s_guids node (Z.of_nat n)) x x1 bytes) by done.
  assert (Hparse : s_parse_guid bytes (x_trace x1) = match win_iid text with
    | inl guid => (inr guid, x_trace x1)
    | inr hr => (inl (hr_error hr "Failed to parse device interface GUID."), x_trace x1) end).
  { unfold s_parse_guid. rewrite Et. cbn [from_option]. change (id text) with text.
    destruct (win_iid text); [by rewrite sret_eq|done]. }
  destruct (win_iid text) as [guid|hr] eqn:Ei; wp_steps.
  - change (FAILED 0) with false. wp_steps. iApply (returns_ok _ _ _ guid); [|done].
    eapply succeeded_bind; [exact Ha|]. by split.
  - apply iid_error in Ei. unfold FAILED. rewrite Ei. wp_steps. iApply wp_error_create_hr; [done|]. err_intro. wp_steps.
    iApply (returns_err_from with "[-]"); [exact Hc| |by iFrame]. by rewrite (sbind_ok _ _ _ _ _ Hsp).
Qed.

Lemma get_guid_spec devs nodes node x :
  {{ set_own devs nodes }} get_first_device_interface_guid devs node @ x {{ r x',
    set_own devs nodes ∗ guid_result node r x x' }}.
Proof.
  iIntros "Hs". iDestruct (set_own_valid with "Hs") as "[%Hv Hs]".
  unfold get_first_device_interface_guid, SetLastError. rewrite Hv. wp_step. wp_step. wp_step.
  iApply (wp_open_key guid_key_text with "Hs"). iIntros "Hs". cbn zeta. set (x1 := win_ext (WinOpenKey node) x).
  pose proof (calm_win (WinOpenKey node) x) as Hc1.
  destruct (win_open_key (x_trace x) node) as [code|].
  { iIntros (Hs). cbn [is_valid INVALID_HANDLE_VALUE]. wp_steps.
    iApply (wp_winapi_failed (s_open_key guid_key_text node) _ x); [done|exact Hc1|exact Hs|].
    iIntros (r x' got [Hr Hf]) "He". wp_steps. iFrame. iLeft. iRight. iExists got. iFrame. iPureIntro.
    by apply failed_bind. }
  iIntros (key Ha) "Hk". iDestruct (handle_own_valid with "Hk") as "[%Hkv Hk]". rewrite Hkv. wp_step.
  unfold RegQueryValue_guids_size, log_win. wp_step.
  iApply (wp_load_handle as_key with "Hk"); [done|]. iIntros "Hk". wp_steps.
  set (x2 := win_ext (WinGuidsSize node) x1).
  assert (Hc : calm x x2) by (etrans; [apply Hc1|apply (calm_win (WinGuidsSize node) x1)]).
  assert (Hsp : s_guids_size node (x_trace x1) = (match win_guids (x_trace x1) node with
   | inl (_, bytes) => inr (Z.of_nat (List.length bytes))
   | inr code =>
       inl (if code =? ERROR_FILE_NOT_FOUND then err_new "DeviceInterfaceGUIDs key does not exist."
            else win_error code "Failed to get DeviceInterfaceGUIDs key size.")
   end, x_trace x2)) by done.
  pose proof (calm_win (WinGuidsSize node) x1) as Hc2.
  destruct (win_guids (x_trace x1) node) as [[ty bytes]|code] eqn:Eg; wp_steps; last first.
  { rewrite (cr_nonzero code); [|by eapply guids_error]. wp_simpl.
    destruct (code =? ERROR_FILE_NOT_FOUND); wp_step; iApply (wp_close_key with "Hk"); wp_steps.
    - iApply wp_error_create; [done|]. err_intro. wp_steps. iFrame "Hs". iLeft.
      iApply (returns_err_from with "[-]"); [exact Hc| |by iFrame].
      destruct Ha as [_ Ha]. rewrite /s_guid (sbind_ok _ _ _ _ _ Ha). by apply sbind_err.
    - iApply (wp_winapi_failed (s_guids_size node) _ x1); [done|exact Hc2|exact Hsp|].
      iIntros (r x' got [Hr Hf]) "He". wp_steps. iFrame "Hs". iLeft. iRight. iExists got. iFrame.
      iPureIntro. chain. }
  wp_constants. rewrite Z.eqb_refl. wp_simpl. apply guids_size in Eg as Hsz.
  unfold to_u32. rewrite wrap_id; [|unfold UINT32_MAX in Hsz; lia]. wp_step.
  iApply wp_malloc_bytes; [lia|]. iSplit.
  - iIntros (l _) "Hl". rewrite Nat2Z.id. wp_simpl.
    assert (Ha2 : succeeded (s_guids_size node) x1 x2 (Z.of_nat (List.length bytes))) by done.
    iApply (wp_wand with "[Hk Hl]").
    { iApply (guid_rest_spec key node (List.length bytes) l x2). iFrame. }
    iIntros (r x') "H". iFrame. iLeft. iApply (returns_bind _ _ tt); [exact Ha|].
    by iApply (returns_bind _ _ (Z.of_nat (List.length bytes))).
  - iIntros (x' [Hq Ho]). wp_steps. iFrame "Hs". iRight. iSplitR.
    + iPureIntro. split_and!; [done|exact (transitivity Hc (quiet_calm _ _ Hq))|exact (oomed_r _ _ _ Hc Ho)].
    + iExists key, node. iFrame.
Qed.

(** ** Initialization *)

Definition s_find_interface (d : win_device) (k : Z) (composite : bool) : Spec win_interface :=
  node ← s_get_interface (wd_id d) k composite;
  id ← s_instance_id "Error getting device instance ID." node;
  s_check_driver node;;
  guid ← s_guid node;
  filename ← s_filename node guid;
  mret (WinInterfaceObject k id filename).

Definition s_interface (d : win_device) (k : Z) (composite : bool) : Spec win_interface :=
  scontext "Failed to initialize generic interface." (s_find_interface d k composite).

(** What is forgotten when an allocation fails: at most one set or one key. *)
Definition lost (x x' : ext) : hProp := (emp ∨ ⟪oomed x x'⟫ ∗ (leaked_set ∨ leaked_key))%I.

Lemma lost_mono x0 x1 x2 x3 : calm x0 x1 → calm x2 x3 → lost x1 x2 ⊢ lost x0 x3.
Proof.
  iIntros (H1 H2) "[H|[%Ho H]]"; [by iLeft|iRight]. iFrame. iPureIntro.
  exact (oomed_l _ _ _ (oomed_r _ _ _ H1 Ho) H2).
Qed.

Lemma returns_lost {A} (s : Spec A) x x' e ok bad :
  returns s x x' e ok bad ⊢ returns s x x' e ok (bad ∗ lost x x').
Proof.
  iIntros "[H|(%got & H & He & Hb)]"; [by iLeft|iRight]. iExists got. iFrame. by iLeft.
Qed.

Lemma returns_leaked {A} (s : Spec A) x x' ok bad :
  calm x x' → oomed x x' →
  bad ∗ (leaked_set ∨ leaked_key) ⊢ returns s x x' (Static error_no_memory) ok (bad ∗ lost x x').
Proof.
  iIntros (Hc Ho) "[Hb H]". iRight. iExists no_memory. iFrame "Hb". iSplitR.
  { iPureIntro. split; [done|]. right. split; [apply mem_err_no_memory|done]. }
  iSplitR; [iLeft; iPureIntro; by eexists|]. iRight. by iFrame.
Qed.

Lemma guid_result_lost node r x x' :
  guid_result node r x x' ⊢ returns (s_guid node) x x' r.1 (λ guid, ⟪r.2 = guid⟫) (lost x x').
Proof.
  iIntros "[H|[%H Hl]]".
  - iDestruct (returns_lost with "H") as "[H|(%got & H & He & [_ Hb])]"; [by iLeft|iRight].
    iExists got. iFrame.
  - destruct H as (-> & Hc & Ho). iDestruct (returns_leaked (s_guid node) x x' (λ guid, ⟪r.2 = guid⟫)%I emp%I Hc Ho with "[Hl]") as "[H|(%got & H & He & [_ Hb])]".
    { iSplit; [done|]. by iRight. }
    + by iLeft.
    + iRight. iExists got. iFrame.
Qed.

Lemma filename_result_lost node guid r x x' :
  filename_result node guid r x x' ⊢
  returns (s_filename node guid) x x' r.1 (out_str r.2) (⟪r.2 = None⟫ ∗ lost x x').
Proof.
  iIntros "[H|[%H Hl]]"; [by iApply returns_lost|]. destruct H as (-> & Hc & Ho).
  iApply returns_leaked; [done|done|]. iSplitR; [done|]. by iLeft.
Qed.

(** A generic interface that is being filled in. *)
Definition gi_partial (l : loc) (k : Z) (o1 o2 : option string) : hProp :=
  (∃ pi pf, l ↦ OWinInterface {| wgi_interface_number := k; wgi_device_instance_id := pi;
                                  wgi_filename := pf |} ∗
     opt_text_own pi o1 ∗ opt_str_own pf o2)%I.

Definition opt_set_own (devs : HANDLE) : hProp := (⟪devs = None⟫ ∨ ∃ nodes, set_own devs nodes)%I.

(** [wp_add_context], with what adding the message did. *)
Lemma wp_add_context_calm {A} (s : Spec A) text e got x x1 Q :
  no_nul text = true → failed s x x1 got →
  err_own e got -∗
  (∀ r x2 got', ⌜is_null r = false ∧ calm x1 x2 ∧ failed (scontext text s) x x2 got'⌝ →
     err_own r got' -∗ Q r x2) -∗
  wp (error_add e text) x1 Q.
Proof.
  iIntros (Ht [Hc Hf]) "He HQ".
  iApply (wp_add_context (sfail got : Spec A) text e got x1 with "He"); [done|split; [done|by left]|].
  iIntros (r x2 got' [Hr [Hc2 Hg]]) "He". iApply ("HQ" $! r x2 got' with "[%] He").
  split_and!; [done..|]. split; [by etrans|]. destruct Hg as [[= <- Ht2]|[Hm Ho]].
  - destruct Hf as [Hf|[Hm Ho]]; [left|right; split; [by apply mem_err_add|by eapply oomed_l]].
    unfold scontext. by rewrite Hf Ht2.
  - right. split; [done|by eapply oomed_r].
Qed.

(** The cleanup after a failure. *)
Lemma cleanup_failed {A} (s : Spec A) devs drv o uid t e got x0 x1 Q :
  failed s x0 x1 got →
  opt_set_own devs -∗ opt_str_own drv o -∗ opt_text_own uid t -∗ err_own e got -∗
  (∀ r x' got', ⌜is_null r = false ∧ calm x1 x' ∧
     failed (scontext "Failed to initialize generic interface." s) x0 x' got'⌝ → err_own r got' -∗ Q r x') -∗
  wp (generic_interface_initialize_cleanup devs drv uid e) x1 Q.
Proof.
  iIntros (Hf) "Hs Hd Hu He HQ". iDestruct (err_own_not_null with "He") as "[%Hn He]".
  unfold generic_interface_initialize_cleanup, libusbp_string_free. wp_step.
  iAssert (wp (when (is_valid devs) (SetupDiDestroyDeviceInfoList devs)) x1 (λ _ x', ⟪x' = x1⟫))%I
    with "[Hs]" as "Hs".
  { iDestruct "Hs" as "[->|(%nodes & Hs)]"; [wp_steps; by iPureIntro|].
    iDestruct (set_own_valid with "Hs") as "[%Hv Hs]". rewrite Hv. wp_steps.
    iApply (wp_destroy with "Hs"). by iPureIntro. }
  iApply (wp_wand with "Hs"). iIntros ([] ?) "->". wp_step.
  wp_call (free_opt_str drv o x1). iIntros ([] ?) "->". wp_step.
  wp_call (free_opt_text uid t x1). iIntros ([] ?) "->". wp_simpl. wp_nulls.
  by iApply (wp_add_context_calm s _ _ got x0 x1 with "He").
Qed.

Lemma cleanup_done devs nodes drv t1 uid t2 x1 Q :
  set_own devs nodes -∗ str_own drv t1 -∗ text_own uid t2 -∗ Q NULL x1 -∗
  wp (generic_interface_initialize_cleanup devs drv uid NULL) x1 Q.
Proof.
  iIntros "Hs Hd Hu HQ". iDestruct (set_own_valid with "Hs") as "[%Hv Hs]".
  unfold generic_interface_initialize_cleanup, libusbp_string_free. rewrite Hv. wp_steps.
  iApply (wp_destroy with "Hs"). wp_steps.
  wp_call (free_str drv t1 x1). iIntros ([] ?) "->". wp_steps.
  wp_call (free_text uid t2 x1). iIntros ([] ?) "->". wp_steps. iExact "HQ".
Qed.

(** Where a failure of the initialization leads. *)
Definition initialized (d : win_device) (p : ptr) (l : loc) (k : Z) (composite : bool) (x : ext)
    (r : ptr) (x' : ext) : hProp :=
  (win_device_own p d ∗
   returns (s_interface d k composite) x x' r
     (λ i, gi_partial l k (Some (wi_id i)) (Some (wi_filename i)) ∗ ⟪wi_number i = k⟫)
     ((∃ o1 o2, gi_partial l k o1 o2) ∗ lost x x'))%I.

Lemma cleanup_initialized d p l k composite o1 o2 devs drv o uid t e got x0 x1 :
  failed (s_find_interface d k composite) x0 x1 got →
  win_device_own p d -∗ gi_partial l k o1 o2 -∗ lost x0 x1 -∗
  opt_set_own devs -∗ opt_str_own drv o -∗ opt_text_own uid t -∗ err_own e got -∗
  wp (generic_interface_initialize_cleanup devs drv uid e) x1 (initialized d p l k composite x0).
Proof.
  iIntros (Hf) "Hp Hg Hlost Hs Hd Hu He". iApply (cleanup_failed with "Hs Hd Hu He"); [exact Hf|].
  iIntros (r x' got' (Hr & Hc & Hf')) "He". iFrame "Hp". iRight. iExists got'. iFrame "He".
  iSplit; [done|]. iSplitL "Hg"; [by iExists o1, o2|].
  iApply (lost_mono with "Hlost"); [reflexivity|exact Hc].
Qed.

Lemma no_loss x x' : ⊢ lost x x'.
Proof. by iLeft. Qed.

Lemma initialize_spec l p d k composite o x :
  {{ l ↦ o ∗ win_device_own p d }} generic_interface_initialize (Heap l) p k composite @ x
  {{ r x', initialized d p l k composite x r x' }}.
Proof.
  iIntros "[Hl Hp]". iDestruct (win_device_own_not_null with "Hp") as "[%Hn Hp]".
  unfold generic_interface_initialize, if_ok, then_check. rewrite Hn. wp_step. wp_steps.
  iAssert (gi_partial l k None None) with "[-Hp]" as "Hg"; [iExists NULL, NULL; by iFrame|].
  wp_call (win_get_os_id_spec p d x). iIntros ([e u] x1) "[Hp H]".
  returned "H"; unfold initialised at 1.
  2: { iDestruct "Hbad" as %->. wp_steps.
       iApply (cleanup_initialized _ _ l _ _ None None _ NULL None NULL None with "Hp Hg [] [] [//] [//] He");
         [by eapply pure_failed|iApply no_loss|by iLeft]. }
  apply succeeded_ret_inv in Ha as (-> & Ht & Hc). iDestruct "Hok" as (uid) "[-> Hu]".
  iDestruct (str_text with "Hu") as "Hu". wp_steps.
  assert (Hlift : ∀ x' got, failed (s_find_interface d k composite) x1 x' got →
    failed (s_find_interface d k composite) x x' got).
  { intros x' got [Hc2 E]. split; [by etrans|]. rewrite -Ht. destruct E as [E|[? ?]]; [by left|right].
    split; [done|by eapply oomed_r]. }
  wp_call (get_interface_spec uid (wd_id d) k composite x1). iIntros ([[e devs] o1] x2) "[Hu H]".
  returned "H".
  2: { iDestruct "Hbad" as %[Hno1 Hno2]. cbn [fst snd] in Hno1, Hno2. subst. wp_steps.
       iApply (cleanup_initialized _ _ l _ _ None None _ NULL None uid (Some (wd_id d)) with "Hp Hg [] [] [//] Hu He");
         [apply Hlift; chain|iApply no_loss|by iLeft]. }
  iDestruct "Hok" as "[%Ho (%nodes & Hs)]". cbn [fst snd] in Ho |- *. subst. rename a into node, Ha into Ha1.
  wp_step. unfold was_set. wp_steps. iDestruct (set_own_use with "Hs") as "[Hd Hs]".
  wp_call (create_id_string_spec devs node nodes x2). iIntros ([e oid] x3) "[Hd H]".
  iSpecialize ("Hs" with "Hd"). returned "H".
  2: { iDestruct "Hbad" as %->. unfold store_string. wp_steps.
       iApply (cleanup_initialized _ _ l _ _ None None _ NULL None uid (Some (wd_id d)) with "Hp Hg [] [Hs] [//] Hu He");
         [apply Hlift; chain|iApply no_loss|iRight; by iExists nodes]. }
  iDestruct "Hok" as (pid) "[-> Hid]". rename a into id, Ha into Ha2.
  iDestruct "Hg" as (pi pf) "(Hl & -> & ->)". unfold store_string, set_gi at 1. wp_steps.
  iAssert (gi_partial l k (Some id) None) with "[-Hp Hu Hs]" as "Hg".
  { iExists pid, NULL. by iFrame. }
  wp_call (check_driver_spec devs nodes node x3). iIntros ([e drv] x4) "[Hs H]". returned "H".
  2: { iDestruct "Hbad" as (od) "Hod". wp_steps.
       iApply (cleanup_initialized _ _ l _ _ (Some id) None _ drv od uid (Some (wd_id d)) with "Hp Hg [] [Hs] Hod Hu He");
         [apply Hlift; chain|iApply no_loss|iRight; by iExists nodes]. }
  rename a into name, Ha into Ha3. iRename "Hok" into "Hname". wp_steps.
  assert (Hc4 : calm x x4).
  { destruct Ha1 as [H1 _], Ha2 as [H2 _], Ha3 as [H3 _].
    exact (transitivity Hc (transitivity H1 (transitivity H2 H3))). }
  wp_call (get_guid_spec devs nodes node x4). iIntros ([e guid] x5) "[Hs H]".
  iDestruct (guid_result_lost with "H") as "H". returned "H".
  2: { wp_steps.
       iApply (cleanup_initialized _ _ l _ _ (Some id) None _ drv (Some name) uid (Some (wd_id d))
         with "Hp Hg [Hbad] [Hs] Hname Hu He");
         [apply Hlift; chain|iApply (lost_mono with "Hbad"); [exact Hc4|done]|iRight; by iExists nodes]. }
  iDestruct "Hok" as %->. rename a into g, Ha into Ha4. wp_steps.
  wp_call (get_filename_spec node g x5). iIntros ([e ofn] x6) "H".
  iDestruct (filename_result_lost with "H") as "H". returned "H".
  2: { iDestruct "Hbad" as "[-> Hlost]". wp_steps.
       iApply (cleanup_initialized _ _ l _ _ (Some id) None _ drv (Some name) uid (Some (wd_id d))
         with "Hp Hg [Hlost] [Hs] Hname Hu He");
         [apply Hlift; chain|iApply (lost_mono with "Hlost")|iRight; by iExists nodes]; [|done].
       destruct Ha4 as [H4 _]. exact (transitivity Hc4 H4). }
  rename a into filename, Ha into Ha5. iDestruct "Hok" as (pf2) "[-> Hf]".
  iDestruct "Hg" as (pi2 pf3) "(Hl & Hid & ->)". unfold set_gi. wp_steps.
  iAssert (gi_partial l k (Some id) (Some filename)) with "[-Hp Hu Hs Hname]" as "Hg".
  { iExists pi2, pf2. by iFrame. }
  iApply (cleanup_done with "Hs Hname Hu"). iFrame "Hp".
  iApply (returns_ok _ _ _ (WinInterfaceObject k id filename) with "[-]"); [|by iFrame].
  apply scontext_ok. destruct Ha5 as [H5 E5]. split.
  { destruct Ha4 as [H4 _]. exact (transitivity Hc4 (transitivity H4 H5)). }
  rewrite -Ht. destruct Ha1 as [_ E1], Ha2 as [_ E2], Ha3 as [_ E3], Ha4 as [_ E4].
  by rewrite /s_find_interface (sbind_ok _ _ _ _ _ E1) (sbind_ok _ _ _ _ _ E2) (sbind_ok _ _ _ _ _ E3)
    (sbind_ok _ _ _ _ _ E4) (sbind_ok _ _ _ _ _ E5) sret_eq.
Qed.

(** ** Creation, copies and getters *)

Lemma free_partial l k o1 o2 x :
  {{ gi_partial l k o1 o2 }} libusbp_generic_interface_free (Heap l) @ x {{ r x', ⟪x' = x⟫ }}.
Proof.
  iIntros "(%pi & %pf & Hl & H1 & H2)". unfold libusbp_generic_interface_free. wp_steps.
  wp_call (free_opt_text pi o1 x). iIntros ([] ?) "->". wp_steps.
  wp_call (free_opt_str pf o2 x). iIntros ([] ?) "->". wp_steps. by iPureIntro.
Qed.

Lemma win_interface_partial p i :
  win_interface_own p i ⊢ ∃ l, ⟪p = Heap l⟫ ∗ gi_partial l (wi_number i) (Some (wi_id i)) (Some (wi_filename i)).
Proof.
  iIntros "(%l & %pi & %pf & -> & Hl & H1 & H2)". iExists l. iSplit; [done|]. iExists pi, pf. iFrame.
Qed.

Lemma win_interface_free_spec p i x :
  {{ win_interface_own p i }} libusbp_generic_interface_free p @ x {{ r x', ⟪x' = x⟫ }}.
Proof.
  iIntros "H". iDestruct (win_interface_partial with "H") as (l) "[-> H]". by iApply free_partial.
Qed.

Lemma win_interface_create_spec p d k composite x :
  {{ win_device_own p d }} libusbp_generic_interface_create p k composite true @ x {{ r x',
    win_device_own p d ∗
    returns (s_interface d k composite) x x' r.1
      (λ i, ∃ q, ⟪r.2 = Some q ∧ wi_number i = k⟫ ∗ win_interface_own q i)
      (⟪r.2 = Some NULL⟫ ∗ lost x x') }}.
Proof.
  iIntros "Hp". iDestruct (win_device_own_not_null with "Hp") as "[%Hn Hp]".
  unfold libusbp_generic_interface_create. wp_steps. iApply wp_malloc_pos; [done|]. iSplit; last first.
  { iIntros (x' [Hq Ho]). wp_steps. iFrame "Hp". iApply returns_no_memory; [reflexivity|done|done|].
    iSplit; [done|]. by iLeft. }
  iIntros (l _) "Hl". wp_step.
  wp_call (initialize_spec l p d k composite OUninit x). iIntros (r x') "[Hp H]". returned "H".
  - iDestruct "Hok" as "[(%pi & %pf & Hl & H1 & H2) %Hk]". wp_steps. iFrame "Hp".
    iApply (returns_ok _ _ _ a with "[-]"); [eassumption|]. iExists (Heap l). iSplit; [done|].
    iExists l, pi, pf. unfold win_interface_struct. rewrite Hk. cbn [opt_text_own opt_str_own]. by iFrame.
  - iDestruct "Hbad" as "[(%o1 & %o2 & Hg) Hlost]". wp_steps.
    wp_call (free_partial l k o1 o2 x'). iIntros ([] ?) "->". wp_steps. iFrame "Hp". iRight. iExists got. by iFrame.
Qed.

Lemma free_opt_block p o x Q : is_malloced o = true → opt_block p o -∗ Q tt x -∗ wp (free p) x Q.
Proof.
  iIntros (Ho) "H HQ". iApply (wp_wand with "[H]"); [by iApply (free_spec p o x)|].
  iIntros ([] ?) "->". iExact "HQ".
Qed.

(** [strdup] before the test for NULL: the copy, or nothing because there is no memory. *)
Definition dup_own (q : ptr) (s : string) (x x' : ext) : hProp :=
  (⟪is_null q = false ∧ x' = x⟫ ∗ str_own q s ∨ ⟪q = NULL ∧ quiet x x' ∧ oomed x x'⟫)%I.

Lemma strdup_spec R p s x :
  reads R p s → no_nul s = true → {{ R }} strdup p @ x {{ q x', R ∗ dup_own q s x x' }}.
Proof.
  iIntros (Hr Hs) "HR". iApply (wp_strdup with "HR"); [done|done|]. iSplit.
  - iIntros (q) "$ Hq". iDestruct (str_own_not_null with "Hq") as "[%Hn Hq]". iLeft. by iFrame.
  - iIntros (x' [Hq Ho]) "$". by iRight.
Qed.

Lemma dup_own_facts q s x x' :
  dup_own q s x x' ⊢ ⌜quiet x x' ∧ (if is_null q then oomed x x' else True)⌝ ∧ dup_own q s x x'.
Proof.
  iIntros "H". iSplit; [|done]. iDestruct "H" as "[[%H _]|%H]".
  - destruct H as [-> ->]. by iPureIntro.
  - destruct H as (-> & Hq & Ho). by iPureIntro.
Qed.

Lemma dup_own_str q s x x' : is_null q = false → dup_own q s x x' ⊢ str_own q s.
Proof. iIntros (Hq) "[[_ H]|%H]"; [done|]. destruct H as (-> & _). done. Qed.

Lemma free_dup q s x x' x1 Q : dup_own q s x x' -∗ Q tt x1 -∗ wp (free q) x1 Q.
Proof.
  iIntros "[[_ H]|%H] HQ".
  - iApply (wp_wand with "[H]"); [by iApply (free_str q s x1)|]. iIntros ([] ?) "->". iExact "HQ".
  - destruct H as (-> & _). wp_steps. iExact "HQ".
Qed.

Lemma win_interface_copy_spec p i x :
  {{ win_interface_own p i }} libusbp_generic_interface_copy p true @ x {{ r x',
    win_interface_own p i ∗
    returns (mret i) x x' r.1 (λ i, ∃ q, ⟪r.2 = Some q⟫ ∗ win_interface_own q i) ⟪r.2 = Some NULL⟫ }}.
Proof.
  iIntros "(%l & %pi & %pf & -> & Hl & H1 & H2)". unfold libusbp_generic_interface_copy, calloc.
  iDestruct (text_own_facts with "H1") as "[%Ht H1]". destruct Ht as (Hno1 & _ & Hn1).
  iDestruct (str_own_no_nul with "H2") as "[[%Hno2 %Hn2] H2]". wp_steps.
  iAssert (l ↦ OWinInterface (win_interface_struct pi pf i))%I with "[$]" as "Hl".
  wp_call (malloc_spec (1 * sizeof_libusbp_generic_interface_windows) (OWinInterface
    {| wgi_interface_number := 0; wgi_device_instance_id := NULL; wgi_filename := NULL |}) x).
  iIntros (g x1) "[Hg %Hg]". wp_step. destruct Hg as [Hq1 Hg].
  iApply (wp_wand with "[H1]"); [by iApply (strdup_spec with "H1"); [apply reads_text|]|].
  iIntros (q1 x2) "[H1 Hd1]". wp_step.
  iApply (wp_wand with "[H2]"); [by iApply (strdup_spec with "H2"); [apply reads_str|]|].
  iIntros (q2 x3) "[H2 Hd2]".
  iAssert (win_interface_own (Heap l) i) with "[Hl H1 H2]" as "Hi"; [iExists l, pi, pf; by iFrame|].
  iDestruct (dup_own_facts with "Hd1") as "[%F1 Hd1]". iDestruct (dup_own_facts with "Hd2") as "[%F2 Hd2]".
  destruct F1 as [Hx2 F1], F2 as [Hx3 F2].
  assert (Hx : quiet x x3) by exact (transitivity Hq1 (transitivity Hx2 Hx3)).
  assert (Hfail : is_null g || is_null q1 || is_null q2 = true → oomed x x3).
  { intros [[Hg'|Hg']%orb_true_iff|Hg']%orb_true_iff.
    - rewrite Hg' in Hg. specialize (Hg ltac:(done)). ext_tac.
    - rewrite Hg' in F1. ext_tac.
    - rewrite Hg' in F2. ext_tac. }
  destruct (is_null g || is_null q1 || is_null q2) eqn:En.
  - wp_step. iApply (free_opt_block with "Hg"); [done|]. wp_step.
    iApply (free_dup with "Hd1"). wp_step. iApply (free_dup with "Hd2"). wp_steps. iFrame "Hi".
    iApply returns_no_memory; [reflexivity|exact Hx|by apply Hfail|done].
  - apply orb_false_iff in En as [[Eg E1]%orb_false_iff E2].
    iDestruct (opt_block_nonnull with "Hg") as (lg) "[-> Hg]"; [done|].
    iDestruct (dup_own_str with "Hd1") as "Hd1"; [done|]. iDestruct (dup_own_str with "Hd2") as "Hd2"; [done|].
    wp_steps. iFrame "Hi". iApply (returns_ok _ _ _ i with "[-]").
    { apply succeeded_ret; [by apply quiet_calm|]. by destruct Hx as [-> _]. }
    iExists (Heap lg). iSplit; [done|]. iExists lg, q1, q2. iSplit; [done|]. iFrame.
    by iApply str_text.
Qed.

Lemma win_interface_get_string_spec field text p i x :
  (field = wgi_device_instance_id ∧ text = wi_id i) ∨ (field = wgi_filename ∧ text = wi_filename i) →
  {{ win_interface_own p i }} interface_get_string field p true @ x {{ r x',
    win_interface_own p i ∗ returns (mret text) x x' r.1 (out_str r.2) ⟪r.2 = Some NULL⟫ }}.
Proof.
  iIntros (Hf) "(%l & %pi & %pf & -> & Hl & H1 & H2)". unfold interface_get_string. wp_steps.
  iAssert (l ↦ OWinInterface (win_interface_struct pi pf i))%I with "[$]" as "Hl".
  destruct Hf as [[-> ->]|[-> ->]]; cbn [win_interface_struct wgi_device_instance_id wgi_filename].
  - wp_call (string_copy_text pi (wi_id i) x). iIntros ([e c] x1) "[H1 Hc]". wp_steps.
    iSplitR "Hc"; [iExists l, pi, pf; by iFrame|]. by iApply returns_out_str.
  - wp_call (string_copy_own pf (wi_filename i) x). iIntros ([e c] x1) "[H2 Hc]". wp_steps.
    iSplitR "Hc"; [iExists l, pi, pf; by iFrame|]. by iApply returns_out_str.
Qed.

Lemma win_interface_get_os_id_spec p i x :
  {{ win_interface_own p i }} libusbp_generic_interface_get_os_id p true @ x {{ r x',
    win_interface_own p i ∗ returns (mret (wi_id i)) x x' r.1 (out_str r.2) ⟪r.2 = Some NULL⟫ }}.
Proof. apply win_interface_get_string_spec. by left. Qed.

Lemma win_interface_get_os_filename_spec p i x :
  {{ win_interface_own p i }} libusbp_generic_interface_get_os_filename p true @ x {{ r x',
    win_interface_own p i ∗ returns (mret (wi_filename i)) x x' r.1 (out_str r.2) ⟪r.2 = Some NULL⟫ }}.
Proof. apply win_interface_get_string_spec. by right. Qed.
End specs.

(** ** Properties *)

Section properties.
Context `{OS : WindowsOS} {LAWS : WindowsLaws OS}.

(** The node of the interface, its driver, and the path of its file, which belongs to the
    first of its device interface GUIDs. *)
Definition interface_found (d : win_device) (k : Z) (composite : bool) (i : win_interface) : Prop :=
  wi_number i = k ∧ ∃ node, interface_node (wd_id d) k composite node ∧
    (∃ h, fitting_id (win_instance_id h node) = inl (wi_id i)) ∧
    (∃ h name, service_of (win_property h node ServiceName) = inr (Some name) ∧
       win_same_ignoring_case name "winusb" = true) ∧
    (∃ h bytes guid h1 path, win_guids h node = inl (REG_MULTI_SZ, bytes) ∧
       win_iid (default [] (scan_wide (Some <$> bytes))) = inl guid ∧
       win_interface_path h1 node guid = inl path ∧ wi_filename i = until_nul path).

Lemma check_driver_inv node h name h' :
  s_check_driver node h = (inr name, h') →
  service_of (win_property h node ServiceName) = inr (Some name) ∧ win_same_ignoring_case name "winusb" = true.
Proof.
  intros (o & h1 & Ho & Hc)%sbind_inv. unfold s_driver_name in Ho. injection Ho as Ho _. rewrite Ho.
  destruct o as [name'|]; [|done]. unfold check_service in Hc.
  destruct (win_same_ignoring_case name' "winusb") eqn:E; [|done]. rewrite sret_eq in Hc. injection Hc as <- _.
  by split.
Qed.

Lemma guid_inv node h guid h' :
  s_guid node h = (inr guid, h') →
  ∃ h1 bytes, win_guids h1 node = inl (REG_MULTI_SZ, bytes) ∧
    win_iid (default [] (scan_wide (Some <$> bytes))) = inl guid.
Proof.
  intros (u & h1 & _ & (n & h2 & _ & (bytes & h3 & Hg & Hp)%sbind_inv)%sbind_inv)%sbind_inv.
  unfold s_guids in Hg. injection Hg as Hg _. exists h2, bytes. unfold guids_of in Hg.
  destruct (win_guids h2 node) as [[ty bs]|]; [|done].
  destruct (_ <=? _); [cbn [negb] in Hg|done]. destruct (Z.eqb_spec ty REG_MULTI_SZ) as [->|]; [cbn [negb] in Hg|done].
  injection Hg as <-. split; [done|]. unfold s_parse_guid in Hp.
  destruct (win_iid _) as [g|]; [|done]. rewrite sret_eq in Hp. by injection Hp as <- _.
Qed.

Lemma filename_inv node guid h name h' :
  s_filename node guid h = (inr name, h') →
  ∃ h1 path, win_interface_path h1 node guid = inl path ∧ name = until_nul path.
Proof.
  intros (ns & h1 & _ & (u & h2 & _ & (v & h3 & _ & (n & h4 & _ & H)%sbind_inv)%sbind_inv)%sbind_inv)%sbind_inv.
  unfold s_detail in H. apply s_win_inv in H as [H _]. exists h4. unfold fitting_path in H.
  destruct (win_interface_path h4 node guid) as [path|]; [|done]. exists path.
  destruct (_ <=? _); [|done]. by injection H as <-.
Qed.

Lemma interface_inv d k composite h i h' :
  s_interface d k composite h = (inr i, h') → interface_found d k composite i.
Proof.
  intros (node & h1 & Hn & (id & h2 & Hi & (name & h3 & Hd & (guid & h4 & Hg & (file & h5 & Hf & H)
    %sbind_inv)%sbind_inv)%sbind_inv)%sbind_inv)%scontext_inv%sbind_inv.
  rewrite sret_eq in H. injection H as <- _. split; [done|]. exists node.
  apply get_interface_inv in Hn. apply s_win_inv in Hi as [Hi _]. apply check_driver_inv in Hd as [Hd Hs].
  apply guid_inv in Hg as (h6 & bytes & Hg & Hu). apply filename_inv in Hf as (h7 & path & Hp & ->).
  split; [done|]. split; [by exists h1|]. split; [by exists h2, name|]. by exists h6, bytes, guid, h7, path.
Qed.

(** C31. On Windows, as long as the service names and the interface GUIDs in the registry
    end with a zero, [libusbp_generic_interface_create] looks for the node of the device,
    or, for a composite device, for a node whose parent is the device and whose ID names
    the interface, among the USB nodes, the serial ports and the modems; it makes sure
    that the driver is WinUSB, and records the node's ID and the path of the device
    interface whose GUID comes first in the registry.  An ID names the interface when it
    is "USB\VID_", "&PID_" and "&MI_", each followed by the longest hexadecimal numeral of
    at most 4, 4 and 2 characters, the last one being the number, or "FTDIBUS\", anything up
    to a backslash, and the number.  On failure NULL is stored, with
    the error of the step that failed, and every set and key is closed again, except for
    one when an allocation failed.  The registry does not guarantee the zeros
    ([ServicesTerminated], [GuidsTerminated]); without one the code reads beyond the data,
    and the theorem says nothing. *)
Theorem win_generic_interface_create_finds p d k composite x :
  ServicesTerminated OS → GuidsTerminated OS →
  {{ win_device_own p d }} libusbp_generic_interface_create p k composite true @ x {{ r x',
    win_device_own p d ∗
    ((∃ q i, ⟪r = (NULL, Some q) ∧ calm x x' ∧ s_interface d k composite (x_trace x) = (inr i, x_trace x') ∧
        interface_found d k composite i⟫ ∗ win_interface_own q i) ∨
     (∃ got, ⟪r.2 = Some NULL ∧ failed (s_interface d k composite) x x' got⟫ ∗ err_own r.1 got ∗
        (emp ∨ ⟪oomed x x'⟫ ∗ (leaked_set ∨ leaked_key)))) }}.
Proof.
  iIntros (SERVICES GUIDS) "Hp". iApply (wp_wand with "[Hp]"); [by iApply win_interface_create_spec|].
  iIntros ([e o] x') "[$ [(%i & %H & %q & %Ho & Hi)|(%got & %H & He & %Ho & Hlost)]]"; cbn [fst snd] in *.
  - destruct Ho as [-> Hk]. destruct H as (-> & Hc & H). iLeft. iExists q, i. iFrame "Hi". iPureIntro.
    split_and!; [done..|]. by eapply interface_inv.
  - subst o. iRight. iExists got. iFrame "He Hlost". by iPureIntro.
Qed.
End properties.

(** ** On the example machine *)

#[local] Existing Instance Example_win.machine.
#[local] Existing Instance Example_win.machine_laws.

Definition example_win_device : win_device := WinDevice "USB\VID_1FFB&PID_DA01\00012345" 0xda01 0x1ffb 0x111.
Definition example_win_interface : win_interface :=
  WinInterfaceObject 0 "USB\VID_1FFB&PID_DA01&MI_00\6&1A2B3C4D&0&0000" Example_win.interface_path.

Lemma win_generic_interface_create_finds_witness :
  let p := Heap 4%positive in let x := Ext [] 0 0 in let d := example_win_device in
  (∃ h, s_interface d 0 true [] = (inr example_win_interface, h)) ∧
  {{ win_device_own p d }} libusbp_generic_interface_create p 0 true true @ x {{ r x',
    win_device_own p d ∗
    ((∃ q i, ⟪r = (NULL, Some q) ∧ calm x x' ∧ s_interface d 0 true (x_trace x) = (inr i, x_trace x') ∧
        interface_found d 0 true i⟫ ∗ win_interface_own q i) ∨
     (∃ got, ⟪r.2 = Some NULL ∧ failed (s_interface d 0 true) x x' got⟫ ∗ err_own r.1 got ∗
        (emp ∨ ⟪oomed x x'⟫ ∗ (leaked_set ∨ leaked_key)))) }}.
Proof.
  intros p x d. split; [eexists; vm_compute; reflexivity|].
  exact (win_generic_interface_create_finds p d 0 true x Example_win.machine_services Example_win.machine_guids).
Defined.
