(* ===== verification/SerialPortWindows.v ===== *)
(** * SerialPortWindows: serial ports on Windows (src/src/windows/serial_port_windows.c)

    The creation of a serial port reads the port name that the registry keeps for the
    device node of an interface; a port that is not composite is also looked for as
    interface 0 of a composite device. *)

From S2P Require Import Prelude Memory Logic Format MultiSz Errors Results Basics Strings WindowsOS ErrorWindows SetupWindows InstanceIdWindows DeviceWindows ListWindows NodeWindows InterfaceWindows.
#[local] Set Warnings "-rewrite-rw".

Section code.
Context `{OS : WindowsOS}.

(** A struct from [calloc]. *)
Definition zeroed_serial_port : libusbp_serial_port_windows :=
  {| wsp_device_instance_id := NULL; wsp_port_name := NULL |}.

Definition serial_port_allocate : M (ptr * ptr) :=
  new_sp ← calloc 1 sizeof_libusbp_serial_port_windows (OWinSerialPort zeroed_serial_port);
  mret (if is_null new_sp then Static error_no_memory else NULL, new_sp).

Definition libusbp_serial_port_free (port : ptr) : M unit :=
  if is_null port then mret tt else
  sp ← load_as as_serial_port_windows port;
  libusbp_string_free (wsp_device_instance_id sp);;
  libusbp_string_free (wsp_port_name sp);;
  free port.

(** Assignments to the fields. *)
Definition set_sp (port : ptr) (f : libusbp_serial_port_windows → libusbp_serial_port_windows) : M unit :=
  sp ← load_as as_serial_port_windows port;
  store port (OWinSerialPort (f sp)).
Definition set_sp_instance (p : ptr) (sp : libusbp_serial_port_windows) : libusbp_serial_port_windows :=
  {| wsp_device_instance_id := p; wsp_port_name := wsp_port_name sp |}.
Definition set_sp_name (p : ptr) (sp : libusbp_serial_port_windows) : libusbp_serial_port_windows :=
  {| wsp_device_instance_id := wsp_device_instance_id sp; wsp_port_name := p |}.

(** Getting the port name from the registry: the error and [portName]. *)
Definition query_port_name (keyDev : HANDLE) : M (ptr * list (option ascii)) :=
  '(reg_result, reg_type, portName) ← RegQueryValue_port_name keyDev 128;
  error ← (if negb (reg_result =? ERROR_SUCCESS) then
             if reg_result =? ERROR_FILE_NOT_FOUND then error_create "The PortName key was not found."
             else
               SetLastError reg_result;;
               error_create_winapi "Failed to get PortName key."
           else if negb (reg_type =? REG_SZ) then
             error_create ("Expected PortName key to be a REG_SZ (0x" +:+ fmt_x 1 REG_SZ +:+
               "), got 0x" +:+ fmt_x 1 reg_type +:+ ".")
           else mret NULL);
  mret (error, portName).

(** The end of that: giving the serial port to the caller, and the cleanup. *)
Definition serial_port_create_end (error new_sp usb_device_id : ptr) (list keyDev : HANDLE) : M (ptr * ptr) :=
  (* Give the new serial port to the caller. *)
  let '(port, new_sp) := if is_null error then (new_sp, NULL) else (NULL, new_sp) in
  (* Clean up. *)
  when (is_valid keyDev) (RegCloseKey keyDev);;
  when (is_valid list) (SetupDiDestroyDeviceInfoList list);;
  libusbp_string_free usb_device_id;;
  libusbp_serial_port_free new_sp;;
  mret (error, port).

(** [libusbp_serial_port_create] without the workaround at its end: the error and what
    is stored in [*port]. *)
Definition serial_port_create_once (device : ptr) (interface_number : Z) (composite : bool) : M (ptr * ptr) :=
  '(error, new_sp) ← serial_port_allocate;
  (* Get the device instance ID of the overall USB device. *)
  '(error, usb_device_id) ← if_ok error NULL
    ('(error, usb_device_id) ← libusbp_device_get_os_id device true;
     mret (error, default NULL usb_device_id));
  (* Access the serial port interface device node with SetupAPI. *)
  '(error, list, device_info_data) ←
    (if is_null error then get_interface usb_device_id interface_number composite
     else mret (error, INVALID_HANDLE_VALUE, None));
  (* Record the device instance ID. *)
  error ← then_check error
    (info ← was_set device_info_data;
     '(error, id) ← create_id_string list info;
     match id with Some id => set_sp new_sp (set_sp_instance id) | None => mret tt end;;
     mret error);
  (* Open the registry key for device-specific configuration information. *)
  '(error, keyDev) ← if_ok error INVALID_HANDLE_VALUE
    (info ← was_set device_info_data;
     keyDev ← SetupDiOpenDevRegKey list info;
     error ← win_check (is_valid keyDev)
       "Failed to get device registry key in order to find its COM port name.";
     mret (error, keyDev));
  (* Get the port name from the registry (e.g. "COM8"). *)
  '(error, portName) ← if_ok error [] (query_port_name keyDev);
  (* Copy the port name into the serial port object. *)
  error ← then_check error
    (portName ← local_string portName;
     '(error, port_name) ← string_copy (Lit portName);
     set_sp new_sp (set_sp_name port_name);;
     mret error);
  serial_port_create_end error new_sp usb_device_id list keyDev.

(** The error and [*port]; the function calls itself once at most. *)
Fixpoint serial_port_create (fuel : nat) (device : ptr) (interface_number : Z) (composite port_given : bool) :
    M (ptr * option ptr) :=
  match fuel with
  | O => stuck OutOfFuel
  | S fuel =>
      if negb port_given then
        error ← error_create "Serial port output pointer is null.";
        mret (error, None)
      else if is_null device then
        error ← error_create "Device is null.";
        mret (error, Some NULL)
      else
      '(error, port) ← serial_port_create_once device interface_number composite;
      if negb (is_null error) && negb composite then
        '(error2, port2) ← serial_port_create fuel device 0 true port_given;
        if negb (is_null error2) then
          libusbp_error_free error2;;
          mret (error, port2)
        else
          libusbp_error_free error;;
          mret (NULL, port2)
      else mret (error, Some port)
  end.

Definition libusbp_serial_port_create : ptr → Z → bool → bool → M (ptr * option ptr) := serial_port_create 2.

Definition libusbp_serial_port_copy (source : ptr) (dest_given : bool) : M (ptr * option ptr) :=
  if negb dest_given then
    error ← error_create "Serial port output pointer is null.";
    mret (error, None)
  else if is_null source then mret (NULL, Some NULL) else
  sp ← load_as as_serial_port_windows source;
  c_assert (negb (is_null (wsp_device_instance_id sp)));;
  c_assert (negb (is_null (wsp_port_name sp)));;
  '(error, new_sp) ← serial_port_allocate;
  error ← then_check error
    ('(error, id) ← string_copy (wsp_device_instance_id sp);
     set_sp new_sp (set_sp_instance id);;
     mret error);
  error ← then_check error
    ('(error, port_name) ← string_copy (wsp_port_name sp);
     set_sp new_sp (set_sp_name port_name);;
     mret error);
  let '(dest, new_sp) := if is_null error then (new_sp, NULL) else (NULL, new_sp) in
  libusbp_serial_port_free new_sp;;
  mret (error, Some dest).

Definition libusbp_serial_port_get_name (port : ptr) (name_given : bool) : M (ptr * option ptr) :=
  if negb name_given then
    error ← error_create "String output pointer is null.";
    mret (error, None)
  else if is_null port then
    error ← error_create "Serial port is null.";
    mret (error, Some NULL)
  else
    sp ← load_as as_serial_port_windows port;
    '(error, copy) ← string_copy (wsp_port_name sp);
    mret (error, Some copy).
End code.

(** ** What a serial port holds *)

Record win_serial_port := WinSerialPort {
  ws_id : string;
  ws_name : string
}.

(** Also one that is being filled in. *)
Definition sp_partial (l : loc) (o1 o2 : option string) : hProp :=
  (∃ pi pn, l ↦ OWinSerialPort {| wsp_device_instance_id := pi; wsp_port_name := pn |} ∗
     opt_text_own pi o1 ∗ opt_str_own pn o2)%I.

Definition win_serial_port_own (p : ptr) (sp : win_serial_port) : hProp :=
  (∃ l, ⟪p = Heap l⟫ ∗ sp_partial l (Some (ws_id sp)) (Some (ws_name sp)))%I.

Lemma free_sp_partial l o1 o2 x :
  {{ sp_partial l o1 o2 }} libusbp_serial_port_free (Heap l) @ x {{ r x', ⟪x' = x⟫ }}.
Proof.
  iIntros "(%pi & %pn & Hl & H1 & H2)". unfold libusbp_serial_port_free, libusbp_string_free. wp_steps.
  wp_call (free_opt_text pi o1 x). iIntros ([] ?) "->". wp_steps.
  wp_call (free_opt_str pn o2 x). iIntros ([] ?) "->". wp_steps. by iPureIntro.
Qed.

Lemma win_serial_port_free_spec p sp x :
  {{ win_serial_port_own p sp }} libusbp_serial_port_free p @ x {{ r x', ⟪x' = x⟫ }}.
Proof. iIntros "(%l & -> & H)". by iApply free_sp_partial. Qed.

(** ** What the functions mean *)

Section specs.
Context `{OS : WindowsOS} {LAWS : WindowsLaws OS} {PORT_NAMES : PortNamesTerminated OS}.

Definition port_key_text : string := "Failed to get device registry key in order to find its COM port name.".

Definition port_name_of (r : Z * list ascii + Z) : aerr + string :=
  match r with
  | inl (ty, bytes) =>
      if (128 <? List.length bytes)%nat then inl (win_error ERROR_MORE_DATA "Failed to get PortName key.")
      else if negb (ty =? REG_SZ) then
        inl (err_new ("Expected PortName key to be a REG_SZ (0x" +:+ fmt_x 1 REG_SZ +:+
               "), got 0x" +:+ fmt_x 1 ty +:+ "."))
      else inr (reg_text bytes)
  | inr code =>
      inl (if code =? ERROR_FILE_NOT_FOUND then err_new "The PortName key was not found."
           else win_error code "Failed to get PortName key.")
  end.

Definition s_port_name (node : Z) : Spec string := λ h,
  (port_name_of (win_port_name h node), EvWin (WinPortName node) :: h).

Definition s_serial_port_once (d : win_device) (k : Z) (composite : bool) : Spec win_serial_port :=
  node ← s_get_interface (wd_id d) k composite;
  id ← s_instance_id "Error getting device instance ID." node;
  s_open_key port_key_text node;;
  name ← s_port_name node;
  mret (WinSerialPort id name).

(** With the workaround: interface 0 of a composite device, if that helps. *)
Definition s_serial_port (d : win_device) (k : Z) (composite : bool) : Spec win_serial_port := λ h,
  match s_serial_port_once d k composite h with
  | (inr sp, h1) => (inr sp, h1)
  | (inl e, h1) =>
      if composite then (inl e, h1)
      else match s_serial_port_once d 0 true h1 with
           | (inr sp, h2) => (inr sp, h2)
           | (inl _, h2) => (inl e, h2)
           end
  end.

Lemma query_port_name_spec key node x :
  {{ handle_own key (ORegKey node) }} query_port_name key @ x {{ r x',
    handle_own key (ORegKey node) ∗
    returns (s_port_name node) x x' r.1 (λ name, ⟪scan r.2 = Some name ∧ no_nul name = true⟫) emp }}.
Proof.
  iIntros "Hk". unfold query_port_name, RegQueryValue_port_name, log_win, SetLastError. wp_step. wp_step.
  iApply (wp_load_handle as_key with "Hk"); [done|]. iIntros "Hk". wp_steps.
  set (x1 := win_ext (WinPortName node) x). pose proof (calm_win (WinPortName node) x) as Hc.
  assert (Hsp : s_port_name node (x_trace x) = (port_name_of (win_port_name (x_trace x) node), x_trace x1)) by done.
  assert (Hfail : ∀ code ty o, code ≠ ERROR_SUCCESS → port_name_of (win_port_name (x_trace x) node) =
      inl (if code =? ERROR_FILE_NOT_FOUND then err_new "The PortName key was not found."
           else win_error code "Failed to get PortName key.") →
    handle_own key (ORegKey node) ⊢
    wp (error ← (if negb (code =? ERROR_SUCCESS) then
             if code =? ERROR_FILE_NOT_FOUND then error_create "The PortName key was not found."
             else set_errno code;; error_create_winapi "Failed to get PortName key."
           else if negb (ty =? REG_SZ) then
             error_create ("Expected PortName key to be a REG_SZ (0x" +:+ fmt_x 1 REG_SZ +:+
               "), got 0x" +:+ fmt_x 1 ty +:+ ".")
           else mret NULL);
        mret (error, o)) x1 (λ r x', handle_own key (ORegKey node) ∗
      returns (s_port_name node) x x' r.1 (λ name, ⟪scan r.2 = Some name ∧ no_nul name = true⟫) emp)).
  { intros code ty o Hcode Hs. iIntros "Hk". rewrite (cr_nonzero code Hcode). rewrite Hs in Hsp.
    destruct (code =? ERROR_FILE_NOT_FOUND); wp_steps.
    - iApply wp_error_create; [done|]. err_intro. wp_steps. iFrame "Hk".
      iApply (returns_err_from with "[-]"); [exact Hc|exact Hsp|by iFrame].
    - iApply (wp_winapi_failed (s_port_name node) _ x); [done|exact Hc|exact Hsp|].
      iIntros (r x' got [Hr Hf]) "He". wp_steps. iFrame. iRight. iExists got. by iFrame. }
  destruct (win_port_name (x_trace x) node) as [[ty bytes]|code] eqn:E; cbn [port_name_of] in *; last first.
  { wp_simpl. iApply (Hfail code 0 (replicate 128 None)); [by eapply port_name_error|done|iFrame]. }
  rewrite Nat.ltb_antisym in Hsp, Hfail. destruct (List.length bytes <=? 128)%nat; cbn [negb] in Hsp, Hfail; last first.
  { wp_simpl. iApply (Hfail ERROR_MORE_DATA ty (replicate 128 None)); [done|done|iFrame]. }
  clear Hfail. wp_simpl. rewrite Z.eqb_refl. wp_simpl.
  destruct (Z.eqb_spec ty REG_SZ) as [->|Hty]; cbn [negb] in *; wp_steps; last first.
  { iApply wp_error_create; [by rewrite !no_nul_app !no_nul_fmt_x|]. err_intro. wp_steps. iFrame "Hk".
    iApply (returns_err_from with "[-]"); [exact Hc|exact Hsp|by iFrame]. }
  apply port_name_terminated in E.
  destruct (reg_text_scan bytes (replicate (128 - List.length bytes) None) E) as [Es Hno].
  iFrame. iApply (returns_ok _ _ _ (reg_text bytes)); [by split|]. by iPureIntro.
Qed.

(** ** Creation *)

Definition opt_key_own (key : HANDLE) : hProp := (⟪key = None⟫ ∨ ∃ node, handle_own key (ORegKey node))%I.

(** The last steps, with whatever there is. *)
Lemma wp_opt_close key x Q :
  opt_key_own key -∗ Q tt x -∗ wp (when (is_valid key) (RegCloseKey key)) x Q.
Proof.
  iIntros "[->|(%node & Hk)] HQ"; [wp_steps; iExact "HQ"|].
  iDestruct (handle_own_valid with "Hk") as "[%Hv Hk]". rewrite Hv. wp_steps.
  iApply (wp_close_key with "Hk"). iExact "HQ".
Qed.

Lemma wp_opt_destroy devs x Q :
  opt_set_own devs -∗ Q tt x -∗ wp (when (is_valid devs) (SetupDiDestroyDeviceInfoList devs)) x Q.
Proof.
  iIntros "[->|(%nodes & Hs)] HQ"; [wp_steps; iExact "HQ"|].
  iDestruct (set_own_valid with "Hs") as "[%Hv Hs]". rewrite Hv. wp_steps.
  iApply (wp_destroy with "Hs"). iExact "HQ".
Qed.

Definition once_result (d : win_device) (p : ptr) (k : Z) (composite : bool) (x : ext) (r : ptr * ptr) (x' : ext) : hProp :=
  (win_device_own p d ∗
   returns (s_serial_port_once d k composite) x x' r.1 (win_serial_port_own r.2) ⟪r.2 = NULL⟫)%I.

Lemma end_failed d p k composite e got l o1 o2 uid t devs key x0 x1 :
  failed (s_serial_port_once d k composite) x0 x1 got →
  win_device_own p d -∗ err_own e got -∗ sp_partial l o1 o2 -∗ opt_text_own uid t -∗ opt_set_own devs -∗
  opt_key_own key -∗
  wp (serial_port_create_end e (Heap l) uid devs key) x1 (once_result d p k composite x0).
Proof.
  iIntros (Hf) "Hp He Hl Hu Hs Hk". iDestruct (err_own_not_null with "He") as "[%Hn He]".
  unfold serial_port_create_end, libusbp_string_free. rewrite Hn. wp_step.
  iApply (wp_opt_close with "Hk"). wp_step. iApply (wp_opt_destroy with "Hs"). wp_step.
  wp_call (free_opt_text uid t x1). iIntros ([] ?) "->". wp_step.
  wp_call (free_sp_partial l o1 o2 x1). iIntros ([] ?) "->". wp_steps. iFrame "Hp".
  iRight. iExists got. by iFrame.
Qed.

Lemma end_done d p k composite sp l uid t devs key x0 x1 :
  succeeded (s_serial_port_once d k composite) x0 x1 sp →
  win_device_own p d -∗ sp_partial l (Some (ws_id sp)) (Some (ws_name sp)) -∗ opt_text_own uid t -∗
  opt_set_own devs -∗ opt_key_own key -∗
  wp (serial_port_create_end NULL (Heap l) uid devs key) x1 (once_result d p k composite x0).
Proof.
  iIntros (Hf) "Hp Hl Hu Hs Hk". unfold serial_port_create_end, libusbp_string_free. wp_step.
  iApply (wp_opt_close with "Hk"). wp_step. iApply (wp_opt_destroy with "Hs"). wp_step.
  wp_call (free_opt_text uid t x1). iIntros ([] ?) "->". unfold libusbp_serial_port_free. wp_steps. iFrame "Hp".
  iApply (returns_ok _ _ _ sp with "[-]"); [done|]. iExists l. by iFrame.
Qed.

Lemma serial_port_allocate_spec x :
  {{ emp }} serial_port_allocate @ x {{ r x',
    returns (mret tt) x x' r.1 (λ _, ∃ l, ⟪r.2 = Heap l⟫ ∗ sp_partial l None None) ⟪r.2 = NULL⟫ }}.
Proof.
  iIntros "_". unfold serial_port_allocate, calloc. wp_step. iApply wp_malloc_pos; [done|]. iSplit.
  - iIntros (l _) "Hl". wp_steps. iApply (returns_ok _ _ _ tt); [by apply succeeded_ret|].
    iExists l. iSplit; [done|]. iExists NULL, NULL. by iFrame.
  - iIntros (x' [Hq Ho]). wp_steps. by iApply returns_no_memory.
Qed.

Lemma serial_port_create_once_spec p d k composite x :
  {{ win_device_own p d }} serial_port_create_once p k composite @ x {{ r x', once_result d p k composite x r x' }}.
Proof.
  iIntros "Hp". unfold serial_port_create_once, if_ok, then_check, was_set, win_check. wp_step.
  wp_call (serial_port_allocate_spec x). iIntros ([e q] x1) "H". returned "H"; last first.
  { iDestruct "Hbad" as %->. unfold serial_port_create_end, libusbp_string_free, libusbp_serial_port_free.
    wp_steps. iFrame "Hp". iRight. iExists got. iFrame. iPureIntro. split; [by eapply pure_failed|done]. }
  apply succeeded_ret_inv in Ha as (-> & Ht1 & Hc1). iDestruct "Hok" as (l) "[-> Hl]". wp_steps.
  wp_call (win_get_os_id_spec p d x1). iIntros ([e u] x2) "[Hp H]". returned "H".
  2: { iDestruct "Hbad" as %->. wp_steps.
       iApply (end_failed _ _ _ _ _ _ l None None NULL None with "Hp He Hl [//]"); [|by iLeft..].
       destruct Hfailed as [Hc2 [E|[? ?]]]; [by rewrite sret_eq in E|].
       split; [by etrans|]. right. split; [done|by eapply oomed_r]. }
  apply succeeded_ret_inv in Ha as (-> & Ht2 & Hc2). iDestruct "Hok" as (uid) "[-> Hu]".
  iDestruct (str_text with "Hu") as "Hu". wp_steps.
  assert (Hc : calm x x2) by (etrans; eassumption). assert (Ht : x_trace x2 = x_trace x) by congruence.
  assert (Hlift : ∀ x' got, failed (s_serial_port_once d k composite) x2 x' got →
    failed (s_serial_port_once d k composite) x x' got).
  { intros x' got [Hc' E]. split; [by etrans|]. rewrite -Ht. destruct E as [E|[? ?]]; [by left|right].
    split; [done|by eapply oomed_r]. }
  wp_call (get_interface_spec uid (wd_id d) k composite x2). iIntros ([[e devs] o1] x3) "[Hu H]".
  returned "H".
  2: { iDestruct "Hbad" as %[Hno1 Hno2]. cbn [fst snd] in Hno1, Hno2. subst. wp_steps.
       iApply (end_failed _ _ _ _ _ _ l None None uid (Some (wd_id d)) with "Hp He Hl Hu");
         [apply Hlift; chain|by iLeft..]. }
  iDestruct "Hok" as "[%Ho (%nodes & Hs)]". cbn [fst snd] in Ho |- *. subst. rename a into node, Ha into Ha1.
  wp_steps. iDestruct (set_own_use with "Hs") as "[Hd Hs]".
  wp_call (create_id_string_spec devs node nodes x3). iIntros ([e oid] x4) "[Hd H]".
  iSpecialize ("Hs" with "Hd"). returned "H".
  2: { iDestruct "Hbad" as %->. wp_steps.
       iApply (end_failed _ _ _ _ _ _ l None None uid (Some (wd_id d)) with "Hp He Hl Hu [Hs]");
         [apply Hlift; chain|iRight; by iExists nodes|by iLeft]. }
  iDestruct "Hok" as (pid) "[-> Hid]". rename a into id, Ha into Ha2.
  iDestruct "Hl" as (pi pn) "(Hl & -> & ->)". unfold set_sp at 1. wp_steps.
  iAssert (sp_partial l (Some id) None) with "[-Hp Hu Hs]" as "Hl"; [iExists pid, NULL; by iFrame|].
  iApply (wp_open_key port_key_text with "Hs"). iIntros "Hs". cbn zeta.
  pose proof (calm_win (WinOpenKey node) x4) as Hc5. set (x5 := win_ext _ x4) in *.
  destruct (win_open_key (x_trace x4) node) as [code|].
  { iIntros (Hsp). cbn [is_valid INVALID_HANDLE_VALUE]. wp_steps.
    iApply (wp_winapi_failed (s_open_key port_key_text node) _ x4); [done|exact Hc5|exact Hsp|].
    iIntros (r x' got [Hr Hf]) "He". wp_steps.
    iApply (end_failed _ _ _ _ _ _ l (Some id) None uid (Some (wd_id d)) with "Hp He Hl Hu [Hs]");
      [apply Hlift; chain|iRight; by iExists nodes|by iLeft]. }
  iIntros (key Ha3) "Hk". iDestruct (handle_own_valid with "Hk") as "[%Hkv Hk]". rewrite Hkv. wp_steps.
  wp_call (query_port_name_spec key node x5). iIntros ([e cs] x6) "[Hk H]". returned "H".
  2: { wp_steps. iApply (end_failed _ _ _ _ _ _ l (Some id) None uid (Some (wd_id d)) with "Hp He Hl Hu [Hs] [Hk]");
         [apply Hlift; chain|iRight; by iExists nodes|iRight; by iExists node]. }
  iDestruct "Hok" as %[Hscan Hno]. rename a into name, Ha into Ha4. unfold local_string. rewrite Hscan. wp_steps.
  wp_call (string_copy_lit name x6). rewrite until_nul_id //. iIntros ([e c] x7) "H".
  iDestruct "Hl" as (pi2 pn2) "(Hl & Hid & ->)". unfold set_sp. returned "H".
  - apply succeeded_ret_inv in Ha as (-> & Ht7 & Hc7). wp_steps.
    iApply (end_done _ _ _ _ (WinSerialPort id name) l uid (Some (wd_id d)) with "Hp [-Hu Hs Hk] Hu [Hs] [Hk]").
    { destruct Ha1 as [H1 E1], Ha2 as [H2 E2], Ha3 as [H3 E3], Ha4 as [H4 E4].
      split; [exact (transitivity Hc (transitivity H1 (transitivity H2 (transitivity H3 (transitivity H4 Hc7)))))|].
      by rewrite -Ht /s_serial_port_once (sbind_ok _ _ _ _ _ E1) (sbind_ok _ _ _ _ _ E2)
        (sbind_ok _ _ _ _ _ E3) (sbind_ok _ _ _ _ _ E4) sret_eq Ht7. }
    { iExists pi2, c. by iFrame. }
    { iRight; by iExists nodes. }
    { iRight; by iExists node. }
  - iDestruct "Hbad" as %->. wp_steps.
    iApply (end_failed _ _ _ _ _ _ l (Some id) None uid (Some (wd_id d)) with "Hp He [-Hu Hs Hk] Hu [Hs] [Hk]").
    { apply Hlift. do 4 (eapply failed_bind_r; [eassumption|]). by eapply pure_failed. }
    { iExists pi2, NULL. by iFrame. }
    { iRight; by iExists nodes. }
    { iRight; by iExists node. }
Qed.

(** What the function returns: the errors of the second attempt, and those of the first
    when the second succeeds, are dropped. *)
Definition serial_port_result (s : Spec win_serial_port) (x : ext) (r : ptr * option ptr) (x' : ext) : hProp :=
  ((∃ sp q, ⟪r = (NULL, Some q) ∧ roughly s x x' (inr sp)⟫ ∗ win_serial_port_own q sp) ∨
   (∃ got, ⟪r.2 = Some NULL ∧ roughly s x x' (inl got)⟫ ∗ err_own r.1 got))%I.

Lemma serial_port_create_composite fuel p d k x :
  {{ win_device_own p d }} serial_port_create (S fuel) p k true true @ x {{ r x',
    win_device_own p d ∗ serial_port_result (s_serial_port_once d k true) x r x' }}.
Proof.
  iIntros "Hp". iDestruct (win_device_own_not_null with "Hp") as "[%Hn Hp]". cbn [serial_port_create].
  wp_steps. wp_call (serial_port_create_once_spec p d k true x). iIntros ([e q] x1) "[Hp H]". returned "H".
  - wp_steps. iFrame "Hp". iLeft. iExists a, q. iFrame. iPureIntro. destruct Ha as [Hc E].
    split; [done|]. split; [done|by left].
  - iDestruct "Hbad" as %->. wp_steps. iFrame "Hp". iRight. iExists got. iFrame. iPureIntro.
    split; [done|by apply failed_roughly].
Qed.

Lemma win_serial_port_create_spec p d k composite x :
  {{ win_device_own p d }} libusbp_serial_port_create p k composite true @ x {{ r x',
    win_device_own p d ∗ serial_port_result (s_serial_port d k composite) x r x' }}.
Proof.
  destruct composite.
  { iIntros "Hp". iApply (wp_wand with "[Hp]"); [by iApply (serial_port_create_composite 1)|].
    iIntros (r x') "[$ H]". assert (E : ∀ h, s_serial_port d k true h = s_serial_port_once d k true h).
    { intros h. unfold s_serial_port. by destruct (s_serial_port_once d k true h) as [[]]. }
    unfold serial_port_result, roughly. rewrite E. iExact "H". }
  iIntros "Hp". iDestruct (win_device_own_not_null with "Hp") as "[%Hn Hp]".
  unfold libusbp_serial_port_create. remember 1%nat as f eqn:Ef. cbn [serial_port_create]. subst f.
  wp_steps. wp_call (serial_port_create_once_spec p d k false x). iIntros ([e q] x1) "[Hp H]". returned "H".
  { wp_steps. iFrame "Hp". iLeft. iExists a, q. iFrame. iPureIntro. destruct Ha as [Hc E].
    split; [done|]. split; [done|]. left. unfold s_serial_port. by rewrite E. }
  iDestruct "Hbad" as %->. wp_steps. destruct Hfailed as [Hc E].
  wp_call (serial_port_create_composite 0 p d 0 x1). iIntros ([e2 o2] x2) "[Hp H]".
  iDestruct "H" as "[(%sp & %q2 & %H & Hq)|(%got2 & %H & He2)]"; cbn [fst snd] in H.
  - destruct H as [[= -> ->] [Hc2 E2]]. wp_steps.
    wp_call (libusbp_error_free_spec e (Some got) x2). iIntros ([] ?) "->". wp_steps. iFrame "Hp".
    iLeft. iExists sp, q2. iFrame. iPureIntro. split; [done|]. split; [by etrans|].
    destruct E as [E|[_ Ho]]; [|right; by eapply oomed_l].
    destruct E2 as [E2|Ho]; [left|right; by eapply oomed_r]. unfold s_serial_port. by rewrite E E2.
  - destruct H as [-> [Hc2 E2]]. iDestruct (err_own_not_null with "He2") as "[%Hn2 He2]". wp_steps.
    wp_call (libusbp_error_free_spec e2 (Some got2) x2). iIntros ([] ?) "->". wp_steps. iFrame "Hp".
    iRight. iExists got. iFrame. iPureIntro. split; [done|]. split; [by etrans|].
    destruct E as [E|[_ Ho]]; [|right; by eapply oomed_l].
    destruct E2 as [E2|Ho]; [left|right; by eapply oomed_r]. unfold s_serial_port. by rewrite E E2.
Qed.

(** ** Copies and the name *)

Lemma win_serial_port_copy_spec p sp x :
  {{ win_serial_port_own p sp }} libusbp_serial_port_copy p true @ x {{ r x',
    win_serial_port_own p sp ∗
    returns (mret sp) x x' r.1 (λ sp, ∃ q, ⟪r.2 = Some q⟫ ∗ win_serial_port_own q sp) ⟪r.2 = Some NULL⟫ }}.
Proof.
  iIntros "(%l & -> & (%pi & %pn & Hl & H1 & H2))". cbn [opt_text_own opt_str_own].
  unfold libusbp_serial_port_copy, then_check.
  iDestruct (text_own_facts with "H1") as "[%Hf1 H1]". destruct Hf1 as (_ & _ & Hn1).
  iDestruct (str_own_no_nul with "H2") as "[[_ %Hn2] H2]". wp_steps.
  iAssert (l ↦ OWinSerialPort {| wsp_device_instance_id := pi; wsp_port_name := pn |})%I with "[$]" as "Hl".
  wp_call (serial_port_allocate_spec x). iIntros ([e q] x1) "H". returned "H"; last first.
  { iDestruct "Hbad" as %->. unfold libusbp_serial_port_free. wp_steps.
    iSplitR "He"; [iExists l; iSplit; [done|]; iExists pi, pn; by iFrame|].
    iRight. iExists got. iFrame. iPureIntro. split; [by eapply pure_failed|done]. }
  apply succeeded_ret_inv in Ha as (-> & Ht & Hc). iDestruct "Hok" as (lq) "[-> (%qi & %qn & Hq & -> & ->)]".
  unfold set_sp. wp_steps.
  wp_call (string_copy_text pi (ws_id sp) x1). iIntros ([e c1] x2) "[H1 H]". returned "H"; last first.
  { iDestruct "Hbad" as %->. wp_steps.
    iApply (wp_wand with "[-He Hl H1 H2]").
    { iApply (free_sp_partial lq None None x2). iExists NULL, NULL. by iFrame. }
    iIntros ([] ?) "->". wp_steps.
    iSplitR "He"; [iExists l; iSplit; [done|]; iExists pi, pn; by iFrame|].
    iApply (returns_tail _ (mret sp) x x1 with "[-]"); [exact Hc|by rewrite Ht|].
    iRight. iExists got. iFrame. iPureIntro. split; [by eapply pure_failed|done]. }
  apply succeeded_ret_inv in Ha as (-> & Ht2 & Hc2). iRename "Hok" into "Hid". wp_steps.
  wp_call (string_copy_own pn (ws_name sp) x2). iIntros ([e c2] x3) "[H2 H]". returned "H"; last first.
  { iDestruct "Hbad" as %->. wp_steps.
    iApply (wp_wand with "[-He Hl H1 H2]").
    { iApply (free_sp_partial lq (Some (ws_id sp)) None x3). iExists c1, NULL. iFrame.
      iSplitL; [by iApply str_text|done]. }
    iIntros ([] ?) "->". wp_steps.
    iSplitR "He"; [iExists l; iSplit; [done|]; iExists pi, pn; by iFrame|].
    iApply (returns_tail _ (mret sp) x x2 with "[-]"); [by etrans|by rewrite Ht2 Ht|].
    iRight. iExists got. iFrame. iPureIntro. split; [by eapply pure_failed|done]. }
  apply succeeded_ret_inv in Ha as (-> & Ht3 & Hc3). unfold libusbp_serial_port_free. wp_steps.
  iSplitL "Hl H1 H2"; [iExists l; iSplit; [done|]; iExists pi, pn; by iFrame|].
  iApply (returns_ok _ _ _ sp with "[-]").
  { apply succeeded_ret; [by do 2 (etrans; [eassumption|])|congruence]. }
  iExists (Heap lq). iSplit; [done|]. iExists lq. iSplit; [done|]. iExists c1, c2. iFrame.
  by iApply str_text.
Qed.

Lemma win_serial_port_get_name_spec p sp x :
  {{ win_serial_port_own p sp }} libusbp_serial_port_get_name p true @ x {{ r x',
    win_serial_port_own p sp ∗ returns (mret (ws_name sp)) x x' r.1 (out_str r.2) ⟪r.2 = Some NULL⟫ }}.
Proof.
  iIntros "(%l & -> & (%pi & %pn & Hl & H1 & H2))". cbn [opt_str_own].
  unfold libusbp_serial_port_get_name. wp_steps.
  iAssert (l ↦ OWinSerialPort {| wsp_device_instance_id := pi; wsp_port_name := pn |})%I with "[$]" as "Hl".
  wp_call (string_copy_own pn (ws_name sp) x). iIntros ([e c] x1) "[H2 Hc]". wp_steps.
  iSplitR "Hc"; [iExists l; iSplit; [done|]; iExists pi, pn; by iFrame|]. by iApply returns_out_str.
Qed.
End specs.

(** ** Properties *)

(** What happens without the terminating zero: copying the name runs out of the bytes
    that the registry stored, which is undefined behaviour. *)
Lemma unterminated_port_name bytes w :
  nul ∉ bytes → local_string (local_buffer 128 bytes) w = Stuck Uninitialised.
Proof.
  intros H. unfold local_string, local_buffer. enough (scan ((Some <$> bytes) ++ replicate (128 - List.length bytes) None) = None) as -> by done.
  generalize (128 - List.length bytes)%nat. intros n. revert H. induction bytes as [|c bytes IH]; intros H.
  - by destruct n.
  - apply not_elem_of_cons in H as [Hc H]. cbn [fmap list_fmap app scan].
    rewrite bool_decide_false // (IH H) //.
Qed.

Section properties.
Context `{OS : WindowsOS} {LAWS : WindowsLaws OS}.

Definition port_found (d : win_device) (k : Z) (composite : bool) (sp : win_serial_port) : Prop :=
  ∃ node, interface_node (wd_id d) k composite node ∧
    (∃ h, fitting_id (win_instance_id h node) = inl (ws_id sp)) ∧
    (∃ h, port_name_of (win_port_name h node) = inr (ws_name sp)).

Lemma serial_port_once_inv d k composite h sp h' :
  s_serial_port_once d k composite h = (inr sp, h') → port_found d k composite sp.
Proof.
  intros (node & h1 & Hn & (id & h2 & Hi & (u & h3 & _ & (name & h4 & Hp & H)%sbind_inv)%sbind_inv)
    %sbind_inv)%sbind_inv.
  rewrite sret_eq in H. injection H as <- _. exists node. apply get_interface_inv in Hn.
  apply s_win_inv in Hi as [Hi _]. unfold s_port_name in Hp. injection Hp as Hp _.
  split; [done|]. split; [by exists h1|by exists h3].
Qed.

(** C32. On Windows, as long as the port names in the registry end with a zero,
    [libusbp_serial_port_create] takes the name from the registry key of
    the node of the device, or of its interface with the given number for a composite
    device.  When that fails for a device that is not called composite, it tries interface 0
    of a composite device before it gives up, once, and then reports the first error;
    so the recursion ends.  Without a failed allocation nothing else can happen; on failure NULL is
    stored and nothing is kept.  The registry does not guarantee the zero
    ([PortNamesTerminated]); without it the code reads beyond the name
    ([unterminated_port_name]), and the theorem says nothing. *)
Theorem win_serial_port_create_finds p d k composite x :
  PortNamesTerminated OS →
  {{ win_device_own p d }} libusbp_serial_port_create p k composite true @ x {{ r x',
    win_device_own p d ∗ ⟪calm x x'⟫ ∗
    ((∃ sp q, ⟪r = (NULL, Some q) ∧
        (port_found d k composite sp ∨
         composite = false ∧ (∃ e h, s_serial_port_once d k false (x_trace x) = (inl e, h)) ∧
           port_found d 0 true sp ∨
         oomed x x')⟫ ∗ win_serial_port_own q sp) ∨
     (∃ got, ⟪r.2 = Some NULL ∧
        ((∃ h, s_serial_port_once d k composite (x_trace x) = (inl got, h) ∧
            if composite then x_trace x' = h
            else ∃ e, s_serial_port_once d 0 true h = (inl e, x_trace x')) ∨
         oomed x x')⟫ ∗ err_own r.1 got)) }}.
Proof.
  iIntros (PORT_NAMES) "Hp". iApply (wp_wand with "[Hp]"); [by iApply win_serial_port_create_spec|].
  iIntros ([e o] x') "[$ [(%sp & %q & %H & Hq)|(%got & %H & He)]]"; destruct H as [Ho [Hc H]]; cbn [fst snd] in *;
    (iSplit; [done|]).
  - injection Ho as -> ->. iLeft. iExists sp, q. iFrame "Hq". iPureIntro. split; [done|].
    destruct H as [H|H]; [|by right; right]. unfold s_serial_port in H.
    destruct (s_serial_port_once d k composite (x_trace x)) as [[e1|sp1] h1] eqn:E1.
    + destruct composite; [done|]. destruct (s_serial_port_once d 0 true h1) as [[e2|sp2] h2] eqn:E2; [done|].
      injection H as <- _. right. left. split; [done|]. split; [by exists e1, h1|by eapply serial_port_once_inv].
    + injection H as <- _. left. by eapply serial_port_once_inv.
  - subst o. iRight. iExists got. iFrame "He". iPureIntro. split; [done|].
    destruct H as [H|H]; [left|by right]. unfold s_serial_port in H.
    destruct (s_serial_port_once d k composite (x_trace x)) as [[e1|sp1] h1] eqn:E1; [|done]. exists h1.
    destruct composite; [injection H as -> <-; by split|].
    destruct (s_serial_port_once d 0 true h1) as [[e2|sp2] h2] eqn:E2; [|done].
    injection H as -> <-. split; [done|]. by exists e2.
Qed.
End properties.

(** ** On the example machine *)

#[local] Existing Instance Example_win.machine.
#[local] Existing Instance Example_win.machine_laws.

(** The port belongs to interface 2; without [composite] interface 0 would be tried, which
    has none. *)
Lemma win_serial_port_create_finds_witness :
  let p := Heap 4%positive in let x := Ext [] 0 0 in let d := example_win_device in
  (∃ h, s_serial_port d 2 true [] =
     (inr (WinSerialPort "USB\VID_1FFB&PID_DA01&MI_02\6&1A2B3C4D&0&0002" "COM4"), h)) ∧
  (∃ e h, s_serial_port d 0 false [] = (inl e, h)) ∧
  {{ win_device_own p d }} libusbp_serial_port_create p 2 true true @ x {{ r x',
    win_device_own p d ∗ ⟪calm x x'⟫ ∗
    ((∃ sp q, ⟪r = (NULL, Some q) ∧
        (port_found d 2 true sp ∨
         true = false ∧ (∃ e h, s_serial_port_once d 2 false (x_trace x) = (inl e, h)) ∧
           port_found d 0 true sp ∨
         oomed x x')⟫ ∗ win_serial_port_own q sp) ∨
     (∃ got, ⟪r.2 = Some NULL ∧
        ((∃ h, s_serial_port_once d 2 true (x_trace x) = (inl got, h) ∧ x_trace x' = h) ∨
         oomed x x')⟫ ∗ err_own r.1 got)) }}.
Proof.
  intros p x d. split; [eexists; vm_compute; reflexivity|].
  split; [do 2 eexists; vm_compute; reflexivity|]. exact (win_serial_port_create_finds p d 2 true x Example_win.machine_port_names).
Defined.
