(* ===== verification/HandleWindows.v ===== *)
(** * HandleWindows: generic handles on Windows (src/src/windows/generic_handle_windows.c)

    Opening the file of a generic interface and WinUSB on top of it, synchronous
    transfers, and closing.  WinUSB keeps the timeouts. *)

From S2P Require Import Prelude Memory Logic Format Errors Results Basics Strings Buffers WindowsOS ErrorWindows SetupWindows InstanceIdWindows NodeWindows InterfaceWindows.
#[local] Set Warnings "-rewrite-rw".

(** The largest [ULONG], which has 32 bits. *)
Definition ULONG_MAX : Z := 4294967295.

Section code.
Context `{OS : WindowsOS}.

Definition set_gh (gh : ptr) (f : libusbp_generic_handle_windows → libusbp_generic_handle_windows) : M unit :=
  h ← load_as as_handle_windows gh;
  store gh (OWinHandle (f h)).
Definition set_file (f : HANDLE) (h : libusbp_generic_handle_windows) : libusbp_generic_handle_windows :=
  {| wgh_file_handle := f; wgh_winusb_handle := wgh_winusb_handle h |}.
Definition set_winusb (w : HANDLE) (h : libusbp_generic_handle_windows) : libusbp_generic_handle_windows :=
  {| wgh_file_handle := wgh_file_handle h; wgh_winusb_handle := w |}.

Definition libusbp_generic_handle_close (gh : ptr) : M unit :=
  if is_null gh then mret tt else
  h ← load_as as_handle_windows gh;
  when (is_valid (wgh_winusb_handle h)) (WinUsb_Free (wgh_winusb_handle h));;
  when (is_valid (wgh_file_handle h)) (CloseHandle (wgh_file_handle h));;
  free gh.

(** The error and [*gh]. *)
Definition libusbp_generic_handle_open (gi : ptr) (gh_given : bool) : M (ptr * option ptr) :=
  if negb gh_given then
    error ← error_create "Generic handle output pointer is null.";
    mret (error, None)
  else if is_null gi then
    error ← error_create "Generic interface is null.";
    mret (error, Some NULL)
  else
  (* Allocate memory for the struct. *)
  new_gh ← malloc sizeof_libusbp_generic_handle_windows OUninit;
  let error := if is_null new_gh then Static error_no_memory else NULL in
  (* Initialize the handles so we can clean up properly. *)
  when (is_null error)
    (store new_gh (OWinHandle {| wgh_file_handle := INVALID_HANDLE_VALUE;
                                 wgh_winusb_handle := INVALID_HANDLE_VALUE |}));;
  (* Get the filename. *)
  '(error, filename) ← if_ok error NULL
    ('(error, filename) ← libusbp_generic_interface_get_os_filename gi true;
     mret (error, default NULL filename));
  (* Open the file. *)
  error ← then_check error
    (file_handle ← CreateFile filename;
     set_gh new_gh (set_file file_handle);;
     win_check (is_valid file_handle) "Failed to open generic handle.");
  (* Initialize WinUSB. *)
  error ← then_check error
    (h ← load_as as_handle_windows new_gh;
     winusb_handle ← WinUsb_Initialize (wgh_file_handle h);
     match winusb_handle with
     | Some winusb_handle => set_gh new_gh (set_winusb winusb_handle);; mret NULL
     | None => error_create_winapi "Failed to initialize WinUSB."
     end);
  let '(gh, new_gh) := if is_null error then (new_gh, NULL) else (NULL, new_gh) in
  libusbp_string_free filename;;
  libusbp_generic_handle_close new_gh;;
  mret (error, Some gh).

Definition libusbp_generic_handle_set_timeout (gh : ptr) (pipe_id timeout : Z) : M ptr :=
  if is_null gh then error_create "Generic handle is null." else
  h ← load_as as_handle_windows gh;
  success ← WinUsb_SetPipePolicy (wgh_winusb_handle h) pipe_id (PipeTransferTimeout timeout);
  win_check success "Failed to set timeout.".

(** The error and [*transferred]. *)
Definition libusbp_control_transfer (gh : ptr) (bmRequestType bRequest wValue wIndex : Z) (data : ptr)
    (wLength : Z) (transferred_given : bool) : M (ptr * option Z) :=
  if is_null gh then
    error ← error_create "Generic handle is null.";
    mret (error, out transferred_given 0)
  else if negb (wLength =? 0) && is_null data then
    error ← error_create "Control transfer buffer was null while wLength was non-zero.";
    mret (error, out transferred_given 0)
  else
  let packet := {| packet_RequestType := bmRequestType; packet_Request := bRequest;
                   packet_Value := wValue; packet_Index := wIndex; packet_Length := wLength |} in
  h ← load_as as_handle_windows gh;
  '(success, winusb_transferred) ← WinUsb_ControlTransfer (wgh_winusb_handle h) packet data;
  if negb success then
    error ← error_create_winapi "Control transfer failed.";
    mret (error, out transferred_given 0)
  else mret (NULL, out transferred_given winusb_transferred).

Definition libusbp_write_pipe (handle : ptr) (pipe_id : Z) (data : ptr) (size : Z)
    (transferred_given : bool) : M (ptr * option Z) :=
  if is_null handle then
    error ← error_create "Generic handle is null.";
    mret (error, out transferred_given 0)
  else
  error ← check_pipe_id_out pipe_id;
  error ← then_check error
    (if ULONG_MAX <? size then error_create "Transfer size is too large." else mret NULL);
  error ← then_check error
    (if is_null data && negb (size =? 0) then error_create "Buffer is null." else mret NULL);
  '(error, winusb_transferred) ← if_ok error 0
    (h ← load_as as_handle_windows handle;
     '(success, winusb_transferred) ← WinUsb_WritePipe (wgh_winusb_handle h) pipe_id data (to_u32 size);
     error ← win_check success "";
     mret (error, winusb_transferred));
  error ← (if negb (is_null error) then error_add error "Failed to write to pipe."
           else mret error);
  mret (error, out transferred_given winusb_transferred).

Definition libusbp_read_pipe (handle : ptr) (pipe_id : Z) (data : ptr) (size : Z)
    (transferred_given : bool) : M (ptr * option Z) :=
  if is_null handle then
    error ← error_create "Generic handle is null.";
    mret (error, out transferred_given 0)
  else
  error ← check_pipe_id_in pipe_id;
  error ← then_check error
    (if size =? 0 then error_create "Transfer size 0 is not allowed." else mret NULL);
  error ← then_check error
    (if ULONG_MAX <? size then error_create "Transfer size is too large." else mret NULL);
  error ← then_check error
    (if is_null data then error_create "Buffer is null." else mret NULL);
  '(error, winusb_transferred) ← if_ok error 0
    (h ← load_as as_handle_windows handle;
     '(success, winusb_transferred) ← WinUsb_ReadPipe (wgh_winusb_handle h) pipe_id data (to_u32 size);
     error ← win_check success "";
     mret (error, winusb_transferred));
  error ← (if negb (is_null error) then error_add error "Failed to read from pipe."
           else mret error);
  mret (error, out transferred_given winusb_transferred).

Definition libusbp_generic_handle_get_winusb_handle (handle : ptr) : M HANDLE :=
  if is_null handle then mret INVALID_HANDLE_VALUE else
  h ← load_as as_handle_windows handle;
  mret (wgh_winusb_handle h).

(** The system completes transfers by itself. *)
Definition generic_handle_events (handle : ptr) : M ptr := mret NULL.
End code.

(** ** What a handle holds *)

(** A WinUSB handle [w] on the file [path]. *)
Definition win_handle_own (p : ptr) (w : HANDLE) (path : string) : hProp :=
  (∃ l f, ⟪p = Heap l⟫ ∗ l ↦ OWinHandle {| wgh_file_handle := f; wgh_winusb_handle := w |} ∗
     handle_own f (OFile path) ∗ handle_own w (OWinUsb path))%I.

Lemma win_handle_not_null p w path :
  win_handle_own p w path ⊢ ⌜is_null p = false⌝ ∧ win_handle_own p w path.
Proof. iIntros "H". iSplit; [|done]. by iDestruct "H" as (l f) "[-> _]". Qed.

Lemma win_handle_load p w path x Q :
  win_handle_own p w path -∗
  (∀ f, handle_own w (OWinUsb path) -∗ (handle_own w (OWinUsb path) -∗ win_handle_own p w path) -∗
     Q {| wgh_file_handle := f; wgh_winusb_handle := w |} x) -∗
  wp (load_as as_handle_windows p) x Q.
Proof.
  iIntros "(%l & %f & -> & Hl & Hf & Hw) HQ". iApply (wp_load_as with "Hl"); [done|]. iIntros "Hl".
  iApply ("HQ" $! f with "Hw"). iIntros "Hw". iExists l, f. by iFrame.
Qed.

(** ** What the functions mean *)

Section specs.
Context `{OS : WindowsOS} {LAWS : WindowsLaws OS}.

Lemma wp_winusb_free w path x Q :
  handle_own w (OWinUsb path) -∗ Q tt (win_ext (WinFree path) x) -∗ wp (WinUsb_Free w) x Q.
Proof.
  iIntros "Hw HQ". unfold WinUsb_Free, log_win. wp_step.
  iApply (wp_load_handle as_winusb with "Hw"); [done|]. iIntros "(%l & -> & Hl)". wp_steps. iExact "HQ".
Qed.

Lemma wp_close_file f path x Q :
  handle_own f (OFile path) -∗ Q tt x -∗ wp (CloseHandle f) x Q.
Proof.
  iIntros "(%l & -> & Hl) HQ". cbn [CloseHandle]. iApply (wp_release with "Hl"); [done|]. iExact "HQ".
Qed.

Lemma win_handle_close_spec p w path x :
  {{ win_handle_own p w path }} libusbp_generic_handle_close p @ x {{ r x', ⟪x' = win_ext (WinFree path) x⟫ }}.
Proof.
  iIntros "(%l & %f & -> & Hl & Hf & Hw)". unfold libusbp_generic_handle_close. wp_steps.
  iDestruct (handle_own_valid with "Hf") as "[%Hfv Hf]". iDestruct (handle_own_valid with "Hw") as "[%Hwv Hw]".
  cbn [wgh_winusb_handle wgh_file_handle]. rewrite Hwv. iApply (wp_winusb_free with "Hw"). wp_steps.
  rewrite Hfv.   iApply (wp_close_file with "Hf"). wp_steps. by iPureIntro.
Qed.

(** ** Opening *)

Definition s_create_file (path : string) : Spec unit := λ h,
  s_win (answered (win_create_file h path)) (WinCreateFile path) "Failed to open generic handle." h.

Definition s_initialize (path : string) : Spec unit := λ h,
  s_win (answered (win_initialize h path)) (WinInitialize path) "Failed to initialize WinUSB." h.

(** The path of the file, which stays open. *)
Definition s_handle_open (i : win_interface) : Spec string :=
  s_create_file (wi_filename i);;
  s_initialize (wi_filename i);;
  mret (wi_filename i).

Lemma wp_create_file q path x Q :
  str_own q path -∗
  (str_own q path -∗
   let x1 := win_ext (WinCreateFile path) x in
   match win_create_file (x_trace x) path with
   | None => ∀ f, ⌜succeeded (s_create_file path) x x1 tt⌝ → handle_own f (OFile path) -∗ Q f x1
   | Some code =>
       ⌜s_create_file path (x_trace x) = (inl (win_error code "Failed to open generic handle."), x_trace x1)⌝ →
       Q INVALID_HANDLE_VALUE (with_error code x1)
   end) -∗
  wp (CreateFile q) x Q.
Proof.
  iIntros "Hq HQ". unfold CreateFile, log_win. wp_step. iApply (reads_str with "Hq"). iIntros "Hq".
  iSpecialize ("HQ" with "Hq"). wp_steps. iApply wp_win_success. cbn zeta.
  pose proof (calm_win (WinCreateFile path) x) as Hc.
  destruct (win_create_file _ _) as [code|] eqn:E; wp_steps.
  - iApply "HQ". iPureIntro. unfold s_create_file, s_win. by rewrite E.
  - iApply wp_new_handle. iIntros (f) "Hf". iApply ("HQ" with "[%] Hf"). split; [exact Hc|].
    unfold s_create_file, s_win. by rewrite E.
Qed.

Lemma wp_initialize f path x Q :
  handle_own f (OFile path) -∗
  (handle_own f (OFile path) -∗
   let x1 := win_ext (WinInitialize path) x in
   match win_initialize (x_trace x) path with
   | None => ∀ w, ⌜succeeded (s_initialize path) x x1 tt⌝ → handle_own w (OWinUsb path) -∗ Q (Some w) x1
   | Some code =>
       ⌜s_initialize path (x_trace x) = (inl (win_error code "Failed to initialize WinUSB."), x_trace x1)⌝ →
       Q None (with_error code x1)
   end) -∗
  wp (WinUsb_Initialize f) x Q.
Proof.
  iIntros "Hf HQ". unfold WinUsb_Initialize, log_win. wp_step.
  iApply (wp_load_handle as_file with "Hf"); [done|]. iIntros "Hf".
  iSpecialize ("HQ" with "Hf"). wp_steps. iApply wp_win_success. cbn zeta.
  pose proof (calm_win (WinInitialize path) x) as Hc.
  destruct (win_initialize _ _) as [code|] eqn:E; wp_steps.
  - iApply "HQ". iPureIntro. unfold s_initialize, s_win. by rewrite E.
  - iApply wp_new_handle. iIntros (w) "Hw". wp_steps. iApply ("HQ" with "[%] Hw"). split; [exact Hc|].
    unfold s_initialize, s_win. by rewrite E.
Qed.

Lemma win_handle_open_spec p i x :
  {{ win_interface_own p i }} libusbp_generic_handle_open p true @ x {{ r x',
    win_interface_own p i ∗
    returns (s_handle_open i) x x' r.1
      (λ path, ∃ q w, ⟪r.2 = Some q⟫ ∗ win_handle_own q w path) ⟪r.2 = Some NULL⟫ }}.
Proof.
  iIntros "Hp". iAssert (⌜is_null p = false⌝ ∧ win_interface_own p i)%I with "[Hp]" as "[%Hn Hp]".
  { iSplit; [|done]. by iDestruct "Hp" as (l pi pf) "[-> _]". }
  unfold libusbp_generic_handle_open, if_ok, then_check, win_check, libusbp_string_free. wp_steps.
  iApply wp_malloc_pos; [done|]. iSplit; last first.
  { iIntros (x' [Hq Ho]). unfold libusbp_generic_handle_close. wp_steps. iFrame "Hp".
    iApply returns_no_memory; [reflexivity|done|done|done]. }
  iIntros (l _) "Hl". wp_steps.
  iAssert (l ↦ OWinHandle {| wgh_file_handle := None; wgh_winusb_handle := None |})%I with "[$]" as "Hl".
  wp_call (win_interface_get_os_filename_spec p i x). iIntros ([e o] x1) "[Hp H]". returned "H"; last first.
  { iDestruct "Hbad" as %->. unfold libusbp_generic_handle_close. wp_steps. cbn [default from_option id]. wp_steps.
    cbn [wgh_winusb_handle wgh_file_handle is_valid]. wp_steps. iFrame "Hp". iRight. iExists got.
    iFrame. iPureIntro. split; [by eapply pure_failed|done]. }
  apply succeeded_ret_inv in Ha as (-> & Ht & Hc). iDestruct "Hok" as (q) "[-> Hq]". wp_steps.
  assert (Hsp : s_handle_open i (x_trace x) = s_handle_open i (x_trace x1)) by by rewrite Ht.
  iApply (wp_create_file with "Hq"). iIntros "Hq". cbn zeta.
  pose proof (calm_win (WinCreateFile (wi_filename i)) x1) as Hc2. set (x2 := win_ext _ x1) in *.
  unfold set_gh. destruct (win_create_file (x_trace x1) (wi_filename i)) as [code|].
  { iIntros (Hs). wp_steps. cbn [is_valid INVALID_HANDLE_VALUE]. wp_steps.
    iApply (wp_winapi_failed (s_create_file (wi_filename i)) _ x1); [done|exact Hc2|exact Hs|].
    iIntros (r x' got [Hr Hf]) "He". wp_steps. wp_call (free_str q (wi_filename i) x'). iIntros ([] ?) "->".
    unfold libusbp_generic_handle_close. wp_steps. cbn [set_file wgh_winusb_handle wgh_file_handle]. wp_steps.
    iFrame "Hp". iApply (returns_tail with "[-]"); [exact Hc|exact Hsp|]. fails. }
  iIntros (f Ha2) "Hf". iDestruct (handle_own_valid with "Hf") as "[%Hfv Hf]". wp_steps. rewrite Hfv. wp_steps.
  cbn [set_file wgh_file_handle wgh_winusb_handle].
  iApply (wp_initialize with "Hf"). iIntros "Hf". cbn zeta.
  pose proof (calm_win (WinInitialize (wi_filename i)) x2) as Hc3. set (x3 := win_ext _ x2) in *.
  destruct (win_initialize (x_trace x2) (wi_filename i)) as [code|].
  { iIntros (Hs). wp_steps.
    iApply (wp_winapi_failed (s_initialize (wi_filename i)) _ x2); [done|exact Hc3|exact Hs|].
    iIntros (r x' got [Hr Hf]) "He". wp_steps. wp_call (free_str q (wi_filename i) x'). iIntros ([] ?) "->".
    unfold libusbp_generic_handle_close. wp_steps. cbn [set_file wgh_winusb_handle wgh_file_handle is_valid INVALID_HANDLE_VALUE].
    rewrite Hfv. wp_steps. iApply (wp_close_file with "Hf"). wp_steps.
    iFrame "Hp". iApply (returns_tail with "[-]"); [exact Hc|exact Hsp|]. fails. }
  iIntros (w Ha3) "Hw". wp_steps. wp_call (free_str q (wi_filename i) x3). iIntros ([] ?) "->".
  unfold libusbp_generic_handle_close. wp_steps. iFrame "Hp".
  iApply (returns_tail with "[-]"); [exact Hc|exact Hsp|].
  iApply (returns_ok _ _ _ (wi_filename i) with "[-]"); [chain|].
  iExists (Heap l), w. iSplit; [done|]. iExists l, f. by iFrame.
Qed.

(** ** Transfers *)

Definition s_set_timeout (path : string) (pipe timeout : Z) : Spec unit := λ h,
  s_win (answered (win_set_policy h path pipe (PipeTransferTimeout timeout)))
    (WinSetPolicy path pipe (PipeTransferTimeout timeout)) "Failed to set timeout." h.

Lemma win_set_timeout_spec p w path n t x :
  {{ win_handle_own p w path }} libusbp_generic_handle_set_timeout p n t @ x {{ r x',
    win_handle_own p w path ∗ returns (s_set_timeout path n t) x x' r (λ _, emp) emp }}.
Proof.
  iIntros "Hh". iDestruct (win_handle_not_null with "Hh") as "[%Hn Hh]".
  unfold libusbp_generic_handle_set_timeout, WinUsb_SetPipePolicy, log_win, win_check. wp_steps.
  iApply (win_handle_load with "Hh"). iIntros (f) "Hw Hclose". cbn [wgh_winusb_handle]. wp_steps.
  iApply (wp_load_handle as_winusb with "Hw"); [done|]. iIntros "Hw".
  iDestruct ("Hclose" with "Hw") as "Hh". wp_steps. iApply wp_win_success.
  assert (Hspec : s_set_timeout path n t (x_trace x) =
    s_win (answered (win_set_policy (x_trace x) path n (PipeTransferTimeout t)))
      (WinSetPolicy path n (PipeTransferTimeout t)) "Failed to set timeout." (x_trace x)) by done.
  destruct (win_set_policy _ _ _ _) as [code|]; wp_steps.
  - iApply (wp_winapi_failed (s_set_timeout path n t) _ x); [done|auto with calm|exact Hspec|].
    iIntros (r x' got [Hr Hf]) "He". iFrame. iRight. iExists got. by iFrame.
  - iFrame. by iApply (returns_ok _ _ _ tt (λ _, emp)%I).
Qed.

Definition setup_packet (ty request value index len : Z) : WINUSB_SETUP_PACKET :=
  {| packet_RequestType := ty; packet_Request := request;
     packet_Value := value; packet_Index := index; packet_Length := len |}.

(** What is sent: the data of an OUT request. *)
Definition s_control (path : string) (packet : WINUSB_SETUP_PACKET) (sent : list (option ascii)) :
    Spec unit := λ h,
  s_win (answered (win_control h path packet).1.1)
    (WinControl path packet (if Z.testbit (packet_RequestType packet) 7 then [] else sent))
    "Control transfer failed." h.

(** The number of bytes is reported when the transfer succeeded. *)
Lemma win_control_transfer_spec p w path ty request value index buffer len given cs x :
  let packet := setup_packet ty request value index len in
  let answer := win_control (x_trace x) path packet in
  u16 len → (negb (len =? 0) && is_null buffer) = false →
  (is_null buffer = false → len ≤ Z.of_nat (List.length cs)) →
  {{ win_handle_own p w path ∗ user_buffer buffer cs }}
    libusbp_control_transfer p ty request value index buffer len given @ x
  {{ r x', win_handle_own p w path ∗
     user_buffer buffer (if Z.testbit ty 7 then overwrite answer.2 cs else cs) ∗
     returns (s_control path packet (sent_of buffer len cs)) x x' r.1
       (λ _, ⟪r.2 = out given answer.1.2⟫) ⟪r.2 = out given 0⟫ }}.
Proof.
  iIntros (packet answer Hlen Hnull Hcs) "[Hh Hb]".
  iDestruct (win_handle_not_null with "Hh") as "[%Hn Hh]". unfold u16 in Hlen.
  unfold libusbp_control_transfer, WinUsb_ControlTransfer, log_win. rewrite Hnull. wp_steps.
  iApply (win_handle_load with "Hh"). iIntros (f) "Hw Hclose". cbn [wgh_winusb_handle]. wp_steps.
  iApply (wp_load_handle as_winusb with "Hw"); [done|]. iIntros "Hw".
  iDestruct ("Hclose" with "Hw") as "Hh". wp_steps.
  fold (setup_packet ty request value index len). fold packet. fold answer.
  assert (Hd : Z.of_nat (List.length answer.2) ≤ len).
  { apply (win_control_length (x_trace x) path packet). cbn. lia. }
  assert (Hspec : s_control path packet (sent_of buffer len cs) (x_trace x) =
    s_win (answered answer.1.1)
      (WinControl path packet (if Z.testbit ty 7 then [] else sent_of buffer len cs))
      "Control transfer failed." (x_trace x)) by done.
  destruct answer as [[code k] data]. cbn [fst snd] in *. change (packet_RequestType packet) with ty.
  destruct (Z.testbit ty 7); wp_steps;
    [iApply (wp_copy_to_user with "Hb"); [intros Hb; specialize (Hcs Hb); lia|]
    |iApply (wp_copy_from_user with "Hb"); [done|]];
    iIntros "Hb"; wp_steps; iApply wp_win_success; destruct code as [code|]; wp_steps.
  1,3: iApply (wp_winapi_failed (s_control path packet (sent_of buffer len cs)) _ x);
         [done|auto with calm|exact Hspec|];
       iIntros (r x' got [Hr Hf]) "He"; wp_steps; iFrame; iRight; iExists got; by iFrame.
  all: iFrame; by iApply (returns_ok _ _ _ tt (λ _, ⟪_⟫)%I).
Qed.

(** Why a transfer is refused before the system is asked. *)
Definition read_guard (n size : Z) (null : bool) : option aerr :=
  if negb (is_in n && pipe_id_exists n) then Some (invalid_pipe_id n)
  else if size =? 0 then Some (err_new "Transfer size 0 is not allowed.")
  else if ULONG_MAX <? size then Some (err_new "Transfer size is too large.")
  else if null then Some (err_new "Buffer is null.") else None.

Definition write_guard (n size : Z) (null : bool) : option aerr :=
  if negb (negb (is_in n) && pipe_id_exists n) then Some (invalid_pipe_id n)
  else if ULONG_MAX <? size then Some (err_new "Transfer size is too large.")
  else if null && negb (size =? 0) then Some (err_new "Buffer is null.") else None.

Definition s_read_pipe (path : string) (pipe size : Z) : Spec unit := λ h,
  s_win (answered (win_read h path pipe size).1.1) (WinRead path pipe size) "" h.

Definition s_write_pipe (path : string) (pipe : Z) (sent : list (option ascii)) : Spec unit := λ h,
  s_win (answered (win_write h path pipe sent).1) (WinWrite path pipe sent) "" h.

Lemma win_guard_size size : 0 ≤ size → (ULONG_MAX <? size) = false → to_u32 size = size.
Proof.
  intros ? H%Z.ltb_ge. unfold to_u32, wrap, ULONG_MAX in *. apply Z.mod_small. lia.
Qed.

Lemma win_read_pipe_rejected p w path n buffer size given e x :
  u8 n → read_guard n size (is_null buffer) = Some e →
  {{ win_handle_own p w path }} libusbp_read_pipe p n buffer size given @ x {{ r x',
    win_handle_own p w path ∗ err_res r.1 (err_add e "Failed to read from pipe.") x x' ∗ ⟪r.2 = out given 0⟫ }}.
Proof.
  iIntros (Hu He) "Hh". iDestruct (win_handle_not_null with "Hh") as "[%Hn Hh]".
  unfold libusbp_read_pipe, then_check, if_ok. unfold read_guard in He. wp_steps.
  wp_call (check_pipe_id_in_exact n x Hu). iIntros (e1 x1) "H".
  destruct (is_in n && pipe_id_exists n); cbn [negb] in He; last first.
  { injection He as <-. cbn [check_result].
    iDestruct (err_res_not_null with "H") as "[%He1 H]". err_chain. by iFrame. }
  iDestruct "H" as %[-> ->]. wp_steps.
  destruct (size =? 0); [injection He as <-; err_chain; by iFrame|].
  destruct (ULONG_MAX <? size); [injection He as <-; err_chain; by iFrame|].
  destruct (is_null buffer); [injection He as <-; err_chain; by iFrame|].
  done.
Qed.

Lemma win_write_pipe_rejected p w path n buffer size given e x :
  u8 n → write_guard n size (is_null buffer) = Some e →
  {{ win_handle_own p w path }} libusbp_write_pipe p n buffer size given @ x {{ r x',
    win_handle_own p w path ∗ err_res r.1 (err_add e "Failed to write to pipe.") x x' ∗ ⟪r.2 = out given 0⟫ }}.
Proof.
  iIntros (Hu He) "Hh". iDestruct (win_handle_not_null with "Hh") as "[%Hn Hh]".
  unfold libusbp_write_pipe, then_check, if_ok. unfold write_guard in He. wp_steps.
  wp_call (check_pipe_id_out_exact n x Hu). iIntros (e1 x1) "H".
  destruct (negb (is_in n) && pipe_id_exists n); cbn [negb] in He; last first.
  { injection He as <-. cbn [check_result].
    iDestruct (err_res_not_null with "H") as "[%He1 H]". err_chain. by iFrame. }
  iDestruct "H" as %[-> ->]. wp_steps.
  destruct (ULONG_MAX <? size); [injection He as <-; err_chain; by iFrame|].
  destruct (is_null buffer && negb (size =? 0)); [injection He as <-; err_chain; by iFrame|].
  done.
Qed.

(** The number of bytes is reported whether or not the transfer succeeded. *)
Lemma win_read_pipe_spec p w path n buffer size given cs x :
  let answer := win_read (x_trace x) path n size in
  u8 n → 0 ≤ size → read_guard n size (is_null buffer) = None → size ≤ Z.of_nat (List.length cs) →
  {{ win_handle_own p w path ∗ user_buffer buffer cs }} libusbp_read_pipe p n buffer size given @ x
  {{ r x', win_handle_own p w path ∗ user_buffer buffer (overwrite answer.2 cs) ∗
     ⟪r.2 = out given answer.1.2⟫ ∗
     returns (scontext "Failed to read from pipe." (s_read_pipe path n size)) x x' r.1 (λ _, emp) emp }}.
Proof.
  iIntros (answer Hu Hsize Hg Hcs) "[Hh Hb]". iDestruct (win_handle_not_null with "Hh") as "[%Hn Hh]".
  unfold libusbp_read_pipe, then_check, if_ok, WinUsb_ReadPipe, log_win, win_check.
  unfold read_guard in Hg. destruct (is_in n && pipe_id_exists n) eqn:Hok; [|done]. cbn [negb] in Hg.
  destruct (size =? 0); [done|]. destruct (ULONG_MAX <? size) eqn:Hbig; [done|].
  destruct (is_null buffer) eqn:Hbuf; [done|]. wp_steps.
  wp_call (check_pipe_id_in_exact n x Hu). iIntros (e1 x1) "H". rewrite Hok. cbn [check_result].
  iDestruct "H" as %[-> ->]. wp_steps.
  iApply (win_handle_load with "Hh"). iIntros (f) "Hw Hclose". cbn [wgh_winusb_handle].
  rewrite win_guard_size //. wp_steps.
  iApply (wp_load_handle as_winusb with "Hw"); [done|]. iIntros "Hw".
  iDestruct ("Hclose" with "Hw") as "Hh". wp_steps. fold answer.
  pose proof (win_read_length (x_trace x) path n size Hsize) as Hd. fold answer in Hd.
  assert (Hspec : s_read_pipe path n size (x_trace x) =
    s_win (answered answer.1.1) (WinRead path n size) "" (x_trace x)) by done.
  destruct answer as [[code k] data]. cbn [fst snd] in *. wp_steps.
  iApply (wp_copy_to_user with "Hb"); [lia|]. iIntros "Hb". wp_steps. iApply wp_win_success.
  destruct code as [code|]; wp_steps.
  - iApply (wp_winapi_failed (s_read_pipe path n size) _ x); [done|auto with calm|exact Hspec|].
    iIntros (r x' got [Hr Hf]) "He". wp_steps.
    iApply (wp_add_context (s_read_pipe path n size) with "He"); [done|done|].
    iIntros (r2 x2 got' [Hr2 Hf2]) "He". wp_steps. iFrame. iSplit; [done|]. iRight. iExists got'. by iFrame.
  - iFrame. iSplit; [done|]. iApply (returns_ok _ _ _ tt (λ _, emp)%I); [|done]. by apply scontext_ok.
Qed.

Lemma win_write_pipe_spec p w path n buffer size given cs x :
  let sent := sent_of buffer size cs in
  let answer := win_write (x_trace x) path n sent in
  u8 n → 0 ≤ size → write_guard n size (is_null buffer) = None →
  (is_null buffer = false → size ≤ Z.of_nat (List.length cs)) →
  {{ win_handle_own p w path ∗ user_buffer buffer cs }} libusbp_write_pipe p n buffer size given @ x
  {{ r x', win_handle_own p w path ∗ user_buffer buffer cs ∗ ⟪r.2 = out given answer.2⟫ ∗
     returns (scontext "Failed to write to pipe." (s_write_pipe path n sent)) x x' r.1 (λ _, emp) emp }}.
Proof.
  iIntros (sent answer Hu Hsize Hg Hcs) "[Hh Hb]". iDestruct (win_handle_not_null with "Hh") as "[%Hn Hh]".
  unfold libusbp_write_pipe, then_check, if_ok, WinUsb_WritePipe, log_win, win_check.
  unfold write_guard in Hg. destruct (negb (is_in n) && pipe_id_exists n) eqn:Hok; [|done]. cbn [negb] in Hg.
  destruct (ULONG_MAX <? size) eqn:Hbig; [done|].
  destruct (is_null buffer && negb (size =? 0)); [done|]. wp_steps.
  wp_call (check_pipe_id_out_exact n x Hu). iIntros (e1 x1) "H". rewrite Hok. cbn [check_result].
  iDestruct "H" as %[-> ->]. wp_steps.
  iApply (win_handle_load with "Hh"). iIntros (f) "Hw Hclose". cbn [wgh_winusb_handle].
  rewrite win_guard_size //. wp_steps.
  iApply (wp_load_handle as_winusb with "Hw"); [done|]. iIntros "Hw".
  iDestruct ("Hclose" with "Hw") as "Hh". wp_steps.
  iApply (wp_copy_from_user with "Hb"); [done|]. iIntros "Hb". wp_steps. fold sent. fold answer.
  assert (Hspec : s_write_pipe path n sent (x_trace x) =
    s_win (answered answer.1) (WinWrite path n sent) "" (x_trace x)) by done.
  destruct answer as [code k]. cbn [fst snd] in *. wp_steps. iApply wp_win_success.
  destruct code as [code|]; wp_steps.
  - iApply (wp_winapi_failed (s_write_pipe path n sent) _ x); [done|auto with calm|exact Hspec|].
    iIntros (r x' got [Hr Hf]) "He". wp_steps.
    iApply (wp_add_context (s_write_pipe path n sent) with "He"); [done|done|].
    iIntros (r2 x2 got' [Hr2 Hf2]) "He". wp_steps. iFrame. iSplit; [done|]. iRight. iExists got'. by iFrame.
  - iFrame. iSplit; [done|]. iApply (returns_ok _ _ _ tt (λ _, emp)%I); [|done]. by apply scontext_ok.
Qed.

(** ** Getters *)

Lemma win_get_winusb_handle_spec p w path x :
  {{ win_handle_own p w path }} libusbp_generic_handle_get_winusb_handle p @ x {{ r x',
    ⟪r = w ∧ x' = x⟫ ∗ win_handle_own p w path }}.
Proof.
  iIntros "Hh". iDestruct (win_handle_not_null with "Hh") as "[%Hn Hh]".
  unfold libusbp_generic_handle_get_winusb_handle. wp_steps. iApply (win_handle_load with "Hh").
  iIntros (f) "Hw Hclose". iDestruct ("Hclose" with "Hw") as "Hh". wp_steps. by iFrame.
Qed.

Lemma win_handle_events_spec p x : {{ emp }} generic_handle_events p @ x {{ r x', ⟪r = NULL ∧ x' = x⟫ }}.
Proof. iIntros "_". unfold generic_handle_events. wp_steps. by iPureIntro. Qed.
End specs.

(** ** Properties *)

Section properties.
Context `{OS : WindowsOS} {LAWS : WindowsLaws OS}.

(** C19. On Windows [libusbp_generic_handle_open] opens the file of the interface and WinUSB
    on top of it, in this order and once each; it fails with the error of the step that failed and
    then stores NULL.  Nothing stays open: after a failure the file that was opened already is
    closed, and closing the handle gives back WinUSB, the file and the memory, so that only
    the interface is left. *)
Theorem win_generic_handle_open_opens p i x :
  {{ win_interface_own p i }}
    ('(e, gh) ← libusbp_generic_handle_open p true;
     if is_null e then
       libusbp_generic_handle_close (default NULL gh);; mret (true, gh)
     else libusbp_error_free e;; mret (false, gh)) @ x
  {{ r x', win_interface_own p i ∗
     ((∃ q h, ⟪r = (true, Some (Heap q)) ∧
         s_handle_open i (x_trace x) = (inr (wi_filename i), h) ∧
         x_trace x' = EvWin (WinFree (wi_filename i)) :: h⟫) ∨
      (∃ got, ⟪r = (false, Some NULL) ∧ failed (s_handle_open i) x x' got⟫)) }}.
Proof.
  iIntros "Hp". wp_step. wp_call (win_handle_open_spec p i x). iIntros ([e gh] x1) "[Hp H]". returned "H".
  - iDestruct "Hok" as (q w) "[-> Hh]". destruct Ha as [Hc Hs]. wp_steps.
    assert (a = wi_filename i) as ->.
    { apply sbind_inv in Hs as (u & h1 & _ & (v & h2 & _ & Hs)%sbind_inv). rewrite sret_eq in Hs.
      by injection Hs as <- _. }
    cbn [default from_option id]. iAssert (⌜∃ l, q = Heap l⌝ ∧ win_handle_own q w (wi_filename i))%I with "[Hh]" as "[%Hl Hh]".
    { iSplit; [|done]. iDestruct "Hh" as (l f) "[-> _]". by iExists l. }
    destruct Hl as [l ->]. wp_call (win_handle_close_spec (Heap l) w (wi_filename i) x1).
    iIntros ([] ?) "->". wp_steps. iFrame "Hp". iLeft. iExists l, (x_trace x1). by iPureIntro.
  - iDestruct "Hbad" as %->. wp_steps. wp_call (libusbp_error_free_spec e (Some got) x1).
    iIntros ([] ?) "->". wp_steps. iFrame "Hp". iRight. iExists got. by iPureIntro.
Qed.

(** C30. On Windows [libusbp_read_pipe] refuses a pipe that is not an IN pipe, a size of 0 or
    above 32 bits, and a missing buffer, in this order, without asking the system.  Everything
    else is one read of exactly the requested size: the buffer gets what the system wrote, at
    most [size] bytes; the number of bytes that it reports is stored whether or not the read
    succeeded, and a failure is explained by the error code. *)
Theorem win_read_pipe_reads p w path n buffer size given cs x :
  let answer := win_read (x_trace x) path n size in
  u8 n → 0 ≤ size → (is_null buffer = false → size ≤ Z.of_nat (List.length cs)) →
  {{ win_handle_own p w path ∗ user_buffer buffer cs }} libusbp_read_pipe p n buffer size given @ x
  {{ r x', win_handle_own p w path ∗
     match read_guard n size (is_null buffer) with
     | Some e => user_buffer buffer cs ∗ ⟪r.2 = out given 0⟫ ∗
         err_res r.1 (err_add e "Failed to read from pipe.") x x'
     | None => user_buffer buffer (overwrite answer.2 cs) ∗ ⟪r.2 = out given answer.1.2⟫ ∗
         returns (scontext "Failed to read from pipe." (s_read_pipe path n size)) x x' r.1 (λ _, emp) emp
     end }}.
Proof.
  iIntros (answer Hu Hsize Hcs) "[Hh Hb]". destruct (read_guard n size (is_null buffer)) as [e|] eqn:Hg.
  - iApply (wp_wand with "[Hh]"); [by iApply win_read_pipe_rejected|].
    iIntros (r x') "($ & $ & $)". iFrame "Hb".
  - assert (is_null buffer = false) as Hn.
    { unfold read_guard in Hg. destruct (negb _), (size =? 0), (ULONG_MAX <? size), (is_null buffer); done. }
    iApply (wp_wand with "[Hh Hb]"); [by iApply (win_read_pipe_spec with "[$Hh $Hb]"); [..|by apply Hcs]|].
    iIntros (r x') "($ & $ & $ & $)".
Qed.
End properties.

(** ** On the example machine *)

#[local] Existing Instance Example_win.machine.
#[local] Existing Instance Example_win.machine_laws.

Lemma win_generic_handle_open_opens_witness :
  let p := Heap 4%positive in let x := Ext [] 0 0 in let i := example_win_interface in
  (∃ h, s_handle_open i [] = (inr (wi_filename i), h)) ∧
  {{ win_interface_own p i }}
    ('(e, gh) ← libusbp_generic_handle_open p true;
     if is_null e then
       libusbp_generic_handle_close (default NULL gh);; mret (true, gh)
     else libusbp_error_free e;; mret (false, gh)) @ x
  {{ r x', win_interface_own p i ∗
     ((∃ q h, ⟪r = (true, Some (Heap q)) ∧
         s_handle_open i (x_trace x) = (inr (wi_filename i), h) ∧
         x_trace x' = EvWin (WinFree (wi_filename i)) :: h⟫) ∨
      (∃ got, ⟪r = (false, Some NULL) ∧ failed (s_handle_open i) x x' got⟫)) }}.
Proof.
  intros p x i. split; [eexists; vm_compute; reflexivity|]. exact (win_generic_handle_open_opens p i x).
Defined.

(** A read of one byte times out; one of two bytes gets both. *)
Lemma win_read_pipe_reads_witness :
  let p := Heap 4%positive in let buffer := Heap 5%positive in let w := Some (Heap 6%positive) in
  let path := Example_win.interface_path in let cs := replicate 2 None in let x := Ext [] 0 0 in
  read_guard 0x82 2 false = None ∧
  (win_read [] path 0x82 1).1.1 = Some ERROR_SEM_TIMEOUT ∧
  overwrite (win_read [] path 0x82 2).2 cs = [Some "o"%char; Some "k"%char] ∧
  {{ win_handle_own p w path ∗ user_buffer buffer cs }} libusbp_read_pipe p 0x82 buffer 2 true @ x
  {{ r x', win_handle_own p w path ∗
     user_buffer buffer (overwrite (win_read [] path 0x82 2).2 cs) ∗ ⟪r.2 = Some 2⟫ ∗
     returns (scontext "Failed to read from pipe." (s_read_pipe path 0x82 2)) x x' r.1 (λ _, emp) emp }}.
Proof.
  intros p buffer w path cs x. split_and!; [by vm_compute..|].
  exact (win_read_pipe_reads p w path 0x82 buffer 2 true cs x ltac:(unfold u8; lia) ltac:(lia)
           ltac:(intros _; vm_compute; congruence)).
Defined.
