(* ===== verification/TransferWindows.v ===== *)
(** * TransferWindows: asynchronous IN transfers on Windows
    (src/src/windows/async_in_transfer_windows.c)

    An [async_in_transfer] is an overlapped read of WinUSB.  The system owns its buffer
    from the submission until [WinUsb_GetOverlappedResult] has said that it is
    complete; a transfer that is still pending then must not be freed. *)

From S2P Require Import Prelude Memory Logic Format Errors Results Basics Strings Buffers Pool WindowsOS ErrorWindows SetupWindows InstanceIdWindows NodeWindows InterfaceWindows HandleWindows.
#[local] Set Warnings "-rewrite-rw".

Section code.
Context `{OS : WindowsOS}.

Definition async_in_pipe_setup (handle : ptr) (pipe_id : Z) : M ptr :=
  c_assert (negb (is_null handle));;
  winusb_handle ← libusbp_generic_handle_get_winusb_handle handle;
  (* Without raw I/O the transfers are not efficient enough. *)
  success ← WinUsb_SetPipePolicy winusb_handle pipe_id (RawIO 1);
  if negb success then
    error_create_winapi ("Failed to enable raw I/O for pipe 0x" +:+ fmt_x 1 pipe_id +:+ ".")
  else mret NULL.

(** A struct from [calloc]. *)
Definition zeroed_transfer : async_in_transfer_windows :=
  {| wat_winusb_handle := Some NULL; wat_pipe_id := 0; wat_buffer := NULL; wat_buffer_size := 0;
     wat_event := Some NULL; wat_transferred := 0; wat_pending := false; wat_error := NULL |}.

(** Assignments to the fields of a transfer. *)
Definition set_state (pending : bool) (transferred : Z) (error : ptr) (t : async_in_transfer_windows) :
    async_in_transfer_windows :=
  {| wat_winusb_handle := wat_winusb_handle t; wat_pipe_id := wat_pipe_id t;
     wat_buffer := wat_buffer t; wat_buffer_size := wat_buffer_size t; wat_event := wat_event t;
     wat_transferred := transferred; wat_pending := pending; wat_error := error |}.
Definition set_purpose (winusb : HANDLE) (size pipe_id : Z) (t : async_in_transfer_windows) :
    async_in_transfer_windows :=
  {| wat_winusb_handle := winusb; wat_pipe_id := pipe_id;
     wat_buffer := wat_buffer t; wat_buffer_size := size; wat_event := wat_event t;
     wat_transferred := wat_transferred t; wat_pending := wat_pending t; wat_error := wat_error t |}.
Definition set_parts (buffer : ptr) (event : HANDLE) (t : async_in_transfer_windows) :
    async_in_transfer_windows :=
  {| wat_winusb_handle := wat_winusb_handle t; wat_pipe_id := wat_pipe_id t;
     wat_buffer := buffer; wat_buffer_size := wat_buffer_size t; wat_event := event;
     wat_transferred := wat_transferred t; wat_pending := wat_pending t; wat_error := wat_error t |}.

Definition set_transfer (transfer : ptr) (f : async_in_transfer_windows → async_in_transfer_windows) : M unit :=
  t ← load_as as_transfer_windows transfer;
  store transfer (OWinTransfer (f t)).

Definition async_in_transfer_free (transfer : ptr) : M unit :=
  if is_null transfer then mret tt else
  t ← load_as as_transfer_windows transfer;
  (* The kernel needs to be able to write to a pending transfer: leak it. *)
  if wat_pending t then mret tt else
  libusbp_error_free (wat_error t);;
  CloseHandle (wat_event t);;
  free (wat_buffer t);;
  free transfer.

Definition async_in_transfer_submit (transfer : ptr) : M unit :=
  c_assert (negb (is_null transfer));;
  t ← load_as as_transfer_windows transfer;
  c_assert (negb (wat_pending t));;
  libusbp_error_free (wat_error t);;
  set_transfer transfer (set_state true 0 NULL);;
  '(success, transferred) ← WinUsb_ReadPipe_overlapped (wat_winusb_handle t) (wat_pipe_id t)
    (wat_buffer t) (to_u32 (wat_buffer_size t)) transfer;
  if success : bool then
    (* The transfer completed immediately. *)
    set_transfer transfer (set_state false (default 0 transferred) NULL)
  else
    code ← GetLastError;
    if code =? ERROR_IO_PENDING then mret tt
    else
      error ← error_create_winapi "Failed to submit asynchronous in transfer.";
      set_transfer transfer (set_state false 0 error).

(** The error and, when it was stored, the value of [*transfer]. *)
Definition async_in_transfer_create (handle : ptr) (pipe_id transfer_size : Z) :
    M (ptr * option ptr) :=
  c_assert (negb (transfer_size =? 0));;
  if ULONG_MAX <? transfer_size then
    error ← error_create "Transfer size is too large.";
    mret (error, None)
  else
  (* Allocate the transfer struct. *)
  new_transfer ← calloc 1 sizeof_async_in_transfer_windows (OWinTransfer zeroed_transfer);
  let error := if is_null new_transfer then Static error_no_memory else NULL in
  (* Allocate the buffer for the transfer. *)
  '(error, new_buffer) ← if_ok error NULL
    (new_buffer ← malloc_chars transfer_size;
     mret (if is_null new_buffer then Static error_no_memory else NULL, new_buffer));
  (* Create an event. *)
  '(error, new_event) ← if_ok error INVALID_HANDLE_VALUE
    (new_event ← CreateEvent;
     error ← (if bool_decide (new_event = Some NULL)
              then error_create_winapi "Failed to create event for asynchronous in transfer."
              else mret NULL);
     mret (error, new_event));
  (* Assemble the transfer and pass it to the caller. *)
  when (is_null error)
    (winusb_handle ← libusbp_generic_handle_get_winusb_handle handle;
     set_transfer new_transfer (set_purpose winusb_handle transfer_size pipe_id);;
     set_transfer new_transfer (set_parts new_buffer new_event));;
  let '(new_buffer, new_event, transfer, new_transfer) :=
    if is_null error then (NULL, INVALID_HANDLE_VALUE, Some new_transfer, NULL)
    else (new_buffer, new_event, None, new_transfer) in
  when (is_valid new_event) (CloseHandle new_event);;
  free new_buffer;;
  free new_transfer;;
  mret (error, transfer).

(** The error and what is stored in [*transferred] and [*transfer_error]. *)
Definition async_in_transfer_get_results (transfer buffer : ptr)
    (transferred_given transfer_error_given : bool) : M (ptr * option Z * option ptr) :=
  c_assert (negb (is_null transfer));;
  t ← load_as as_transfer_windows transfer;
  c_assert (negb (wat_pending t));;
  (* Make sure we don't overflow the user's buffer. *)
  let tmp_transferred := if wat_buffer_size t <? wat_transferred t then wat_buffer_size t
                         else wat_transferred t in
  when (negb (is_null buffer)) (memcpy_chars buffer (wat_buffer t) tmp_transferred);;
  transfer_error ←
    (if transfer_error_given : bool then
       e ← libusbp_error_copy (wat_error t);
       mret (Some e)
     else mret None);
  mret (NULL, out transferred_given tmp_transferred, transfer_error).

(** This cancels all the transfers of the pipe. *)
Definition async_in_transfer_cancel (transfer : ptr) : M ptr :=
  if is_null transfer then error_create "Transfer to cancel is null." else
  t ← load_as as_transfer_windows transfer;
  success ← WinUsb_AbortPipe (wat_winusb_handle t) (wat_pipe_id t);
  if negb success then
    error_create_winapi ("Failed to cancel transfers on pipe 0x" +:+ fmt_x 1 (wat_pipe_id t) +:+ ".")
  else mret NULL.

Definition async_in_transfer_pending (transfer : ptr) : M bool :=
  c_assert (negb (is_null transfer));;
  t ← load_as as_transfer_windows transfer;
  if negb (wat_pending t) then mret false else
  '(success, transferred) ← WinUsb_GetOverlappedResult (wat_winusb_handle t) (wat_buffer t) transfer;
  set_transfer transfer (λ t, set_state (wat_pending t) transferred (wat_error t) t);;
  (if success : bool then
     set_transfer transfer (λ t, set_state false (wat_transferred t) (wat_error t) t)
   else
     code ← GetLastError;
     if code =? ERROR_IO_INCOMPLETE then mret tt
     else
       error ← error_create_overlapped "Asynchronous IN transfer failed.";
       set_transfer transfer (λ t, set_state false (wat_transferred t) error t));;
  t ← load_as as_transfer_windows transfer;
  mret (wat_pending t).
End code.

(** ** What a transfer holds *)

Record win_transfer := WinTransfer {
  wt_winusb : HANDLE;
  wt_pipe : Z;
  wt_size : Z;
  wt_contents : list (option ascii);
  wt_pending : bool;
  wt_transferred : Z;
  wt_error : option aerr
}.

Definition win_transfer_struct (lb : loc) (ev : HANDLE) (pe : ptr) (t : win_transfer) :
    async_in_transfer_windows :=
  {| wat_winusb_handle := wt_winusb t; wat_pipe_id := wt_pipe t; wat_buffer := Heap lb;
     wat_buffer_size := wt_size t; wat_event := ev; wat_transferred := wt_transferred t;
     wat_pending := wt_pending t; wat_error := pe |}.

(** A pending transfer has no error. *)
Definition win_transfer_wf (t : win_transfer) : Prop :=
  0 < wt_size t ≤ ULONG_MAX ∧ Z.of_nat (List.length (wt_contents t)) = wt_size t ∧
  0 ≤ wt_transferred t ∧ (wt_pending t = true → wt_error t = None).

Definition win_transfer_own (l : loc) (t : win_transfer) : hProp :=
  (∃ lb ev pe, ⟪win_transfer_wf t⟫ ∗ l ↦ OWinTransfer (win_transfer_struct lb ev pe t) ∗
     lb ↦ OChars (wt_contents t) ∗ handle_own ev OEvent ∗ opt_err pe (wt_error t))%I.

Lemma win_transfer_own_wf l t : win_transfer_own l t ⊢ ⌜win_transfer_wf t⌝ ∧ win_transfer_own l t.
Proof. iIntros "H". iSplit; [|done]. by iDestruct "H" as (lb ev pe) "[% _]". Qed.

Lemma win_transfer_exclusive l t t' : win_transfer_own l t -∗ win_transfer_own l t' -∗ False.
Proof.
  iIntros "(%lb & %ev & %pe & _ & Hl & _) (%lb' & %ev' & %pe' & _ & Hl' & _)".
  iApply (pt_exclusive with "Hl Hl'").
Qed.

(** What the caller gets: never more than the buffer, whatever length was reported. *)
Definition received_length (t : win_transfer) : Z :=
  if wt_size t <? wt_transferred t then wt_size t else wt_transferred t.
Definition received_bytes (t : win_transfer) : list (option ascii) :=
  take (Z.to_nat (received_length t)) (wt_contents t).

Lemma received_length_range t : win_transfer_wf t → 0 ≤ received_length t ≤ wt_size t.
Proof. unfold received_length. intros (? & _ & ? & _). destruct (Z.ltb_spec (wt_size t) (wt_transferred t)); lia. Qed.

Lemma win_length_received_bytes t :
  win_transfer_wf t → Z.of_nat (List.length (received_bytes t)) = received_length t.
Proof.
  intros Ht. pose proof (received_length_range t Ht). destruct Ht as (_ & Hl & _).
  unfold received_bytes. rewrite length_take. lia.
Qed.

Definition with_state (t : win_transfer) (cs : list (option ascii)) (pending : bool) (transferred : Z)
    (error : option aerr) : win_transfer :=
  WinTransfer (wt_winusb t) (wt_pipe t) (wt_size t) cs pending transferred error.

Lemma win_with_state_wf t cs b n e :
  win_transfer_wf t → List.length cs = List.length (wt_contents t) → 0 ≤ n → (b = true → e = None) →
  win_transfer_wf (with_state t cs b n e).
Proof. unfold win_transfer_wf. cbn. intros (? & ? & ? & ?) -> ??. naive_solver. Qed.

(** The number that tells the reads of a handle apart. *)
Definition key_of (winusb : HANDLE) : Z := match winusb with Some (Heap l) => Z.pos l | _ => 0 end.

(** ** Operations on one transfer *)

Section specs.
Context `{OS : WindowsOS} {LAWS : WindowsLaws OS}.

Lemma wp_handle_key w path x Q :
  handle_own w (OWinUsb path) -∗ (handle_own w (OWinUsb path) -∗ Q (key_of w) x) -∗
  wp (handle_key w) x Q.
Proof.
  iIntros "(%l & -> & Hl) HQ". unfold handle_key. wp_steps. iApply "HQ". iExists l. by iFrame.
Qed.

Lemma wp_copy_to_block lb data cs x Q :
  (List.length data ≤ List.length cs)%nat →
  lb ↦ OChars cs -∗ (lb ↦ OChars (overwrite data cs) -∗ Q tt x) -∗ wp (copy_to_user (Heap lb) data) x Q.
Proof.
  iIntros (Hlen) "Hl HQ". unfold copy_to_user. wp_steps.
  iApply (wp_write_prefix lb [] cs with "Hl"); [done|by rewrite length_fmap|]. by rewrite length_fmap.
Qed.

Lemma wp_close_event ev x Q :
  handle_own ev OEvent -∗ Q tt x -∗ wp (CloseHandle ev) x Q.
Proof.
  iIntros "(%l & -> & Hl) HQ". cbn [CloseHandle]. iApply (wp_release with "Hl"); [done|]. iExact "HQ".
Qed.

Lemma win_free_spec l t x :
  wt_pending t = false →
  {{ win_transfer_own l t }} async_in_transfer_free (Heap l) @ x {{ r x', ⟪x' = x⟫ }}.
Proof.
  iIntros (Hp) "(%lb & %ev & %pe & _ & Hl & Hb & Hev & He)". unfold async_in_transfer_free.
  unfold win_transfer_struct. wp_steps. cbn [wat_pending wat_error wat_buffer wat_event]. rewrite Hp. wp_steps.
  wp_call (libusbp_error_free_spec pe _ x). iIntros ([] ?) "->". wp_steps.
  iApply (wp_close_event with "Hev"). wp_steps. by iPureIntro.
Qed.

(** A pending transfer is left alone. *)
Lemma win_free_pending l t x :
  wt_pending t = true →
  {{ win_transfer_own l t }} async_in_transfer_free (Heap l) @ x {{ r x',
    ⟪x' = x⟫ ∗ win_transfer_own l t }}.
Proof.
  iIntros (Hp) "(%lb & %ev & %pe & %Hu & Hl & Hb & Hev & He)". unfold async_in_transfer_free.
  wp_steps. cbn [win_transfer_struct wat_pending]. rewrite Hp. wp_steps. iSplit; [done|].
  iExists lb, ev, pe. by iFrame.
Qed.

Lemma win_free_null x Q : Q tt x ⊢ wp (async_in_transfer_free NULL) x Q.
Proof. apply wp_ret. Qed.

(** What submitting the idle transfer [t] does: it is pending, or finished at once,
    with data or with an error. *)
Definition win_submitted (x x' : ext) (l : loc) (t t' : win_transfer) : Prop :=
  let key := key_of (wt_winusb t) in
  let o := win_read_overlapped (x_trace x) key (wt_pipe t) l (wt_size t) in
  let pending := o_code o =? ERROR_IO_PENDING in
  let cs := overwrite (o_data o) (wt_contents t) in
  (∃ buffer, x_trace x' = EvSubmit key l (wt_pipe t) (wt_size t) buffer pending :: x_trace x) ∧
  (x_oom x ≤ x_oom x')%nat ∧
  if pending then t' = with_state t (wt_contents t) true 0 None
  else if o_code o =? ERROR_SUCCESS then t' = with_state t cs false (o_transferred o) None
  else ∃ got, t' = with_state t cs false 0 (Some got) ∧
         errs x x' (win_error (o_code o) "Failed to submit asynchronous in transfer.") got.

Lemma win_submit_spec l t path x :
  wt_pending t = false →
  {{ win_transfer_own l t ∗ handle_own (wt_winusb t) (OWinUsb path) }}
    async_in_transfer_submit (Heap l) @ x
  {{ r x', handle_own (wt_winusb t) (OWinUsb path) ∗
     ∃ t', ⟪win_submitted x x' l t t'⟫ ∗ win_transfer_own l t' }}.
Proof.
  iIntros (Hp) "[(%lb & %ev & %pe & %Hu & Hl & Hb & Hev & He) Hi]". unfold async_in_transfer_submit.
  iApply wp_bind. wp_steps. cbn [win_transfer_struct wat_pending wat_error wat_winusb_handle wat_pipe_id
    wat_buffer wat_buffer_size]. rewrite Hp. wp_steps. wp_call (libusbp_error_free_spec pe _ x).
  iIntros ([] ?) "->". unfold set_transfer. wp_steps. pose proof Hu as ((? & ?) & Hcl & _).
  rewrite win_guard_size; [|lia|apply Z.ltb_ge; lia].
  unfold WinUsb_ReadPipe_overlapped, SetLastError, GetLastError. wp_steps. iApply (wp_handle_key with "Hi"). iIntros "Hi". wp_steps.
  unfold win_submitted. set (key := key_of _).
  pose proof (read_overlapped_length (x_trace x) key (wt_pipe t) l (wt_size t) ltac:(lia)) as Hd.
  pose proof (read_overlapped_transferred (x_trace x) key (wt_pipe t) l (wt_size t)) as Hn.
  iAssert (l ↦ OWinTransfer (set_state true 0 NULL (win_transfer_struct lb ev pe t)))%I with "[$]" as "Hl".
  set (o := win_read_overlapped _ _ _ _ _) in *.
  assert (Hov : List.length (overwrite (o_data o) (wt_contents t)) = List.length (wt_contents t))
    by (apply length_overwrite; lia).
  destruct (Z.eqb_spec (o_code o) ERROR_IO_PENDING) as [Ek|Ek].
  { wp_steps. rewrite Ek. change (ERROR_IO_PENDING =? ERROR_SUCCESS) with false. wp_steps. cbn [x_errno].
    rewrite Z.eqb_refl. wp_steps. iFrame "Hi".
    iExists (with_state t (wt_contents t) true 0 None). iSplit.
    - iPureIntro. split_and!; [by eexists|done|done].
    - iExists lb, ev, NULL. iFrame. iSplit; [|done]. iPureIntro. by apply win_with_state_wf. }
  iApply (wp_copy_to_block with "Hb"); [lia|]. iIntros "Hb". wp_steps.
  destruct (o_code o =? ERROR_SUCCESS); wp_steps.
  { iFrame "Hi". iExists (with_state t _ false (o_transferred o) None). iSplit.
    - iPureIntro. split_and!; [by eexists|done|done].
    - iExists lb, ev, NULL. iFrame. iSplit; [|done]. iPureIntro. apply win_with_state_wf; [done|done|lia|done]. }
  rewrite (proj2 (Z.eqb_neq _ _) Ek). wp_steps. iApply wp_error_create_winapi; [done|].
  iIntros (r x1 Hr) "(%got & He & %Hg)". destruct Hg as [[Ht Ho] Hg]. cbn [x_trace x_oom x_errno] in *.
  iAssert (l ↦ OWinTransfer (set_state true 0 NULL (win_transfer_struct lb ev pe t)))%I with "[$]" as "Hl".
  wp_steps. iFrame "Hi". iExists (with_state t _ false 0 (Some got)). iSplit.
  - iPureIntro. split_and!; [eexists; by rewrite Ht|done|]. exists got. split; [done|].
    by eapply errs_mono; [| |exact Hg].
  - iExists lb, ev, r. iFrame. iPureIntro. by apply win_with_state_wf.
Qed.

(** ** Asking whether a transfer is pending *)

(** A finished transfer is not asked about again; a pending one finishes when its
    result is there, and keeps the reported length in any case. *)
Definition win_polled (x x' : ext) (l : loc) (t t' : win_transfer) : Prop :=
  let key := key_of (wt_winusb t) in
  let o := win_overlapped (x_trace x) key l in
  let incomplete := o_code o =? ERROR_IO_INCOMPLETE in
  let cs := overwrite (o_data o) (wt_contents t) in
  (x_oom x ≤ x_oom x')%nat ∧
  if negb (wt_pending t) then x_trace x' = x_trace x ∧ t' = t
  else x_trace x' = EvReap key (if incomplete then None else Some l) :: x_trace x ∧
    if incomplete then t' = with_state t (wt_contents t) true (o_transferred o) None
    else if o_code o =? ERROR_SUCCESS then t' = with_state t cs false (o_transferred o) None
    else ∃ got, t' = with_state t cs false (o_transferred o) (Some got) ∧
           errs x x' (overlapped_error (o_code o) "Asynchronous IN transfer failed.") got.

Lemma win_pending_spec l t path x :
  (wt_pending t = true → outstanding (x_trace x) (key_of (wt_winusb t)) !! l = Some (wt_size t)) →
  {{ win_transfer_own l t ∗ handle_own (wt_winusb t) (OWinUsb path) }}
    async_in_transfer_pending (Heap l) @ x
  {{ r x', handle_own (wt_winusb t) (OWinUsb path) ∗
     ∃ t', ⟪win_polled x x' l t t' ∧ r = wt_pending t'⟫ ∗ win_transfer_own l t' }}.
Proof.
  iIntros (Hout) "[(%lb & %ev & %pe & %Hu & Hl & Hb & Hev & He) Hi]". unfold async_in_transfer_pending.
  iApply wp_bind. wp_steps. cbn [win_transfer_struct wat_pending]. unfold win_polled.
  destruct (wt_pending t) eqn:Hp; wp_steps; last first.
  { iFrame "Hi". iExists t. iSplit; [by iPureIntro|]. iExists lb, ev, pe. by iFrame. }
  pose proof Hu as ((? & ?) & Hcl & _ & Herr). rewrite Herr //. iDestruct "He" as %->.
  cbn [win_transfer_struct wat_winusb_handle wat_buffer].
  unfold WinUsb_GetOverlappedResult, SetLastError, GetLastError, set_transfer. wp_steps.
  iApply (wp_handle_key with "Hi"). iIntros "Hi". wp_steps. set (key := key_of _) in *.
  pose proof (overlapped_length (x_trace x) key l (wt_size t) (Hout eq_refl)) as Hd.
  pose proof (overlapped_transferred (x_trace x) key l) as Hn.
  iAssert (l ↦ OWinTransfer (win_transfer_struct lb ev NULL t))%I with "[$]" as "Hl".
  set (o := win_overlapped _ _ _) in *.
  assert (Hov : List.length (overwrite (o_data o) (wt_contents t)) = List.length (wt_contents t))
    by (apply length_overwrite; lia).
  destruct (Z.eqb_spec (o_code o) ERROR_IO_INCOMPLETE) as [Ek|Ek].
  { wp_steps. rewrite ?Z.eqb_refl. wp_steps. cbn [win_transfer_struct set_state wat_pending]. rewrite Hp.
    iFrame "Hi". iExists (with_state t (wt_contents t) true (o_transferred o) None). iSplit; [done|].
    iExists lb, ev, NULL. iSplit; [iPureIntro; apply win_with_state_wf; [done|done|lia|done]|].
    unfold set_state, win_transfer_struct, with_state. cbn. by iFrame. }
  wp_steps. iApply (wp_copy_to_block with "Hb"); [lia|]. iIntros "Hb". wp_steps.
  destruct (o_code o =? ERROR_SUCCESS); wp_steps.
  { cbn [set_state wat_pending]. iFrame "Hi". iExists (with_state t _ false (o_transferred o) None).
    iSplit; [done|]. iExists lb, ev, NULL. iFrame.
    iSplit; [|done]. iPureIntro. apply win_with_state_wf; [done|done|lia|done]. }
  cbn [x_errno]. rewrite (proj2 (Z.eqb_neq _ _) Ek). wp_steps.
  iAssert (l ↦ OWinTransfer (set_state true (o_transferred o) NULL (win_transfer_struct lb ev NULL t)))%I
    with "[-Hb Hev Hi]" as "Hl".
  { unfold set_state, win_transfer_struct. cbn. rewrite Hp. by iFrame. }
  iApply (wp_wand with "[]"); [by iApply error_create_overlapped_spec|].
  iIntros (r x1) "(%got & He & %Hg)". destruct Hg as [[Ht Ho] Hg]. cbn [x_trace x_oom x_errno] in *. wp_steps.
  cbn [set_state wat_pending]. iFrame "Hi". iExists (with_state t _ false (o_transferred o) (Some got)). iSplit.
  - iPureIntro. split_and!; [done|done| |done]. exists got. split; [done|]. by eapply errs_mono; [| |exact Hg].
  - iExists lb, ev, r. iFrame. iPureIntro. apply win_with_state_wf; [done|done|lia|done].
Qed.

(** ** Results *)

Lemma win_get_results_spec l t buffer old g1 g2 x :
  wt_pending t = false →
  (is_null buffer = false → received_length t ≤ Z.of_nat (List.length old)) →
  {{ win_transfer_own l t ∗ user_buffer buffer old }}
    async_in_transfer_get_results (Heap l) buffer g1 g2 @ x
  {{ r x', ⟪r.1 = (NULL, out g1 (received_length t)) ∧ quiet x x'⟫ ∗ win_transfer_own l t ∗
     user_buffer buffer (if is_null buffer then old else copied (received_bytes t) old) ∗
     error_copied g2 r.2 (wt_error t) x x' }}.
Proof.
  iIntros (Hp Hlen) "[(%lb & %ev & %pe & %Hu & Hl & Hb & Hev & He) Hbuf]".
  unfold async_in_transfer_get_results. iApply wp_bind. wp_steps.
  cbn [win_transfer_struct wat_pending wat_buffer_size wat_transferred wat_buffer wat_error].
  rewrite Hp. pose proof Hu as (_ & Hcl & _). pose proof (received_length_range t Hu) as Hr.
  fold (received_length t). wp_steps.
  destruct (is_null buffer) eqn:En; cbn [negb].
  - wp_step. iApply (wp_wand with "[He]"); [by iApply (copy_transfer_error g2 pe _ x)|].
    iIntros (r x1) "(%Hq & He & Hc)". wp_steps. iFrame "Hbuf Hc". iSplit; [done|].
    iExists lb, ev, pe. by iFrame.
  - iApply (wp_memcpy_chars with "[$] Hbuf"); [done|lia|by apply Hlen|]. iIntros "Hb Hbuf".
    wp_step. iApply (wp_wand with "[He]"); [by iApply (copy_transfer_error g2 pe _ x)|].
    iIntros (r x1) "(%Hq & He & Hc)". wp_steps. iFrame "Hbuf Hc". iSplit; [done|].
    iExists lb, ev, pe. by iFrame.
Qed.

(** ** Cancellation and set-up *)

Definition s_abort_pipe (path : string) (pipe : Z) : Spec unit := λ h,
  s_win (answered (win_abort h path pipe)) (WinAbort path pipe)
    ("Failed to cancel transfers on pipe 0x" +:+ fmt_x 1 pipe +:+ ".") h.

Definition s_raw_io (path : string) (pipe : Z) : Spec unit := λ h,
  s_win (answered (win_set_policy h path pipe (RawIO 1))) (WinSetPolicy path pipe (RawIO 1))
    ("Failed to enable raw I/O for pipe 0x" +:+ fmt_x 1 pipe +:+ ".") h.

Lemma win_cancel_spec l t path x :
  {{ win_transfer_own l t ∗ handle_own (wt_winusb t) (OWinUsb path) }}
    async_in_transfer_cancel (Heap l) @ x
  {{ r x', win_transfer_own l t ∗ handle_own (wt_winusb t) (OWinUsb path) ∗
     returns (s_abort_pipe path (wt_pipe t)) x x' r (λ _, emp) emp }}.
Proof.
  iIntros "[(%lb & %ev & %pe & %Hu & Hl & Hb & Hev & He) Hi]".
  unfold async_in_transfer_cancel, WinUsb_AbortPipe, log_win.
  iApply wp_bind. wp_steps. cbn [win_transfer_struct wat_winusb_handle wat_pipe_id]. wp_steps.
  iApply (wp_load_handle as_winusb with "Hi"); [done|]. iIntros "Hi". wp_steps.
  iAssert (win_transfer_own l t) with "[-Hi]" as "Ht"; [iExists lb, ev, pe; by iFrame|].
  assert (Hspec : s_abort_pipe path (wt_pipe t) (x_trace x) =
    s_win (answered (win_abort (x_trace x) path (wt_pipe t))) (WinAbort path (wt_pipe t))
      ("Failed to cancel transfers on pipe 0x" +:+ fmt_x 1 (wt_pipe t) +:+ ".") (x_trace x)) by done.
  iApply wp_win_success. destruct (win_abort _ _ _) as [code|]; wp_steps.
  - iApply (wp_winapi_failed (s_abort_pipe path (wt_pipe t)) _ x);
      [by rewrite !no_nul_app no_nul_fmt_x|auto with calm|exact Hspec|].
    iIntros (r x' got [Hr Hf]) "He". iFrame. iRight. iExists got. by iFrame.
  - iFrame. by iApply (returns_ok _ _ _ tt (λ _, emp)%I).
Qed.

Lemma win_setup_spec p w path n x :
  {{ win_handle_own p w path }} async_in_pipe_setup p n @ x {{ r x',
    win_handle_own p w path ∗ returns (s_raw_io path n) x x' r (λ _, emp) emp }}.
Proof.
  iIntros "Hh". iDestruct (win_handle_not_null with "Hh") as "[%Hn Hh]".
  unfold async_in_pipe_setup, WinUsb_SetPipePolicy, log_win. wp_steps.
  wp_call (win_get_winusb_handle_spec p w path x). iIntros (? ?) "[%H Hh]". destruct H as [-> ->]. wp_steps.
  iDestruct "Hh" as (lh f) "(-> & Hl & Hf & Hw)".
  iApply (wp_load_handle as_winusb with "Hw"); [done|]. iIntros "Hw". wp_steps.
  iAssert (win_handle_own (Heap lh) w path) with "[Hl Hf Hw]" as "Hh"; [iExists lh, f; by iFrame|].
  assert (Hspec : s_raw_io path n (x_trace x) =
    s_win (answered (win_set_policy (x_trace x) path n (RawIO 1))) (WinSetPolicy path n (RawIO 1))
      ("Failed to enable raw I/O for pipe 0x" +:+ fmt_x 1 n +:+ ".") (x_trace x)) by done.
  iApply wp_win_success. destruct (win_set_policy _ _ _ _) as [code|]; wp_steps.
  - iApply (wp_winapi_failed (s_raw_io path n) _ x);
      [by rewrite !no_nul_app no_nul_fmt_x|auto with calm|exact Hspec|].
    iIntros (r x' got [Hr Hg]) "He". iFrame. iRight. iExists got. by iFrame.
  - iFrame. by iApply (returns_ok _ _ _ tt (λ _, emp)%I).
Qed.

(** ** Creation *)

(** A transfer that was never submitted. *)
Definition new_win_transfer (winusb : HANDLE) (pipe size : Z) : win_transfer :=
  WinTransfer winusb pipe size (replicate (Z.to_nat size) None) false 0 None.

Definition s_create_event : Spec unit := λ h,
  s_win (answered (win_create_event h)) WinCreateEvent
    "Failed to create event for asynchronous in transfer." h.

Definition s_transfer_create (winusb : HANDLE) (pipe size : Z) : Spec win_transfer :=
  if ULONG_MAX <? size then sfail (err_new "Transfer size is too large.")
  else s_create_event;; mret (new_win_transfer winusb pipe size).

Lemma transfer_create_new w pipe size t h h' :
  s_transfer_create w pipe size h = (inr t, h') → t = new_win_transfer w pipe size.
Proof.
  unfold s_transfer_create. destruct (ULONG_MAX <? size); [done|].
  destruct (s_create_event h) as [[e|[]] h1] eqn:E.
  - by rewrite (sbind_err _ _ _ _ _ E).
  - rewrite (sbind_ok _ _ _ _ _ E) sret_eq. by intros [= <- _].
Qed.

Lemma wp_create_event x Q :
  (let x1 := win_ext WinCreateEvent x in
   match win_create_event (x_trace x) with
   | None => ∀ l, ⌜succeeded s_create_event x x1 tt⌝ → l ↦ OEvent -∗ Q (Some (Heap l)) x1
   | Some code =>
       ⌜s_create_event (x_trace x) =
         (inl (win_error code "Failed to create event for asynchronous in transfer."), x_trace x1)⌝ →
       Q (Some NULL) (with_error code x1)
   end) ⊢
  wp CreateEvent x Q.
Proof.
  iIntros "HQ". unfold CreateEvent, log_win. wp_steps. iApply wp_win_success. cbn zeta.
  pose proof (calm_win WinCreateEvent x) as Hc.
  destruct (win_create_event _) as [code|] eqn:E; wp_steps.
  - iApply "HQ". iPureIntro. unfold s_create_event, s_win. by rewrite E.
  - unfold new_handle. wp_step. iApply wp_new_block. iIntros (l) "Hl". wp_steps.
    iApply ("HQ" with "[%] Hl"). split; [exact Hc|]. unfold s_create_event, s_win. by rewrite E.
Qed.

(** When the event cannot be created, the handle [NULL] is closed all the same. *)
Lemma win_create_spec p w path pipe_id size x :
  0 < size →
  {{ win_handle_own p w path }} async_in_transfer_create p pipe_id size @ x {{ r x',
    win_handle_own p w path ∗
    returns (s_transfer_create w pipe_id size) x x' r.1
      (λ t, ∃ l, ⟪r.2 = Some (Heap l)⟫ ∗ win_transfer_own l t) ⟪r.2 = None⟫ }}.
Proof.
  iIntros (Hsz) "Hh". unfold async_in_transfer_create, s_transfer_create, if_ok, calloc.
  assert ((size =? 0) = false) as -> by lia. wp_steps. destruct (ULONG_MAX <? size) eqn:Hbig.
  { wp_steps. iApply wp_error_create; [done|]. err_intro. wp_steps. iFrame "Hh".
    iApply (returns_err with "[-]"); [done|by iFrame]. }
  wp_steps. iApply wp_malloc_pos; [done|]. iSplit; last first.
  { iIntros (x1 [Hq Ho]). wp_steps. cbn [is_valid INVALID_HANDLE_VALUE]. wp_steps. iFrame "Hh".
    by iApply returns_no_memory. }
  iIntros (l Hl) "Hl". wp_steps. unfold malloc_chars. iApply wp_malloc_pos; [lia|]. iSplit; last first.
  { iIntros (x1 [Hq Ho]). wp_steps. cbn [is_valid INVALID_HANDLE_VALUE]. wp_steps.
    iFrame "Hh". by iApply returns_no_memory. }
  iIntros (lb Hlb) "Hb". wp_steps. iApply wp_create_event. cbn zeta.
  pose proof (calm_win WinCreateEvent x) as Hc. set (x1 := win_ext _ x) in *.
  destruct (win_create_event _) as [code|].
  { iIntros (Hs). wp_steps.
    iApply (wp_winapi_failed s_create_event _ x); [done|by apply calm_error_r|exact Hs|].
    iIntros (r x' got [Hr Hf]) "He". wp_steps. cbn [is_valid CloseHandle]. unfold SetLastError. wp_steps.
    iFrame "Hh". iRight. iExists got. iFrame. iPureIntro. split; [|done].
    apply (failed_bind s_create_event). exact Hf. }
  iIntros (le Ha) "Hev". wp_steps. wp_call (win_get_winusb_handle_spec p w path x1).
  iIntros (? ?) "[%H Hh]". destruct H as [-> ->]. unfold set_transfer. wp_steps.
  cbn [is_valid INVALID_HANDLE_VALUE]. wp_steps. iFrame "Hh".
  iApply (returns_ok _ _ _ (new_win_transfer w pipe_id size) with "[-]"); [chain|].
  iExists l. iSplit; [done|]. iExists lb, (Some (Heap le)), NULL. iSplit.
  - iPureIntro. apply Z.ltb_ge in Hbig. unfold win_transfer_wf. cbn. rewrite length_replicate.
    split_and!; try done; lia.
  - unfold set_parts, set_purpose, zeroed_transfer, win_transfer_struct. cbn. by iFrame.
Qed.

(** ** The transfers of a handle *)

Definition in_system (t : win_transfer) : option Z := if wt_pending t then Some (wt_size t) else None.

(** The transfers that were created for the WinUSB handle [w]. *)
Definition win_transfers (w : HANDLE) : ext → gmap loc win_transfer → hProp :=
  pool_own win_transfer_own in_system (λ t, wt_winusb t = w) (key_of w).

Lemma win_transfers_wf w x m :
  win_transfers w x m ⊢
  ⌜agrees in_system (key_of w) x m ∧ map_Forall (λ _ t, win_transfer_wf t) m⌝ ∧ win_transfers w x m.
Proof. apply pool_facts, win_transfer_own_wf. Qed.

Lemma win_transfers_take w x m l t :
  m !! l = Some t →
  win_transfers w x m ⊢ ⌜wt_winusb t = w⌝ ∧ win_transfer_own l t ∗
    (∀ x' t', ⌜wt_winusb t' = w ∧ agrees in_system (key_of w) x' (<[l := t']> m)⌝ →
       win_transfer_own l t' -∗ win_transfers w x' (<[l := t']> m)).
Proof. intros Hl. by apply (pool_take win_transfer_own in_system (λ t, wt_winusb t = w)). Qed.

(** Operations that leave a transfer as it is. *)
Lemma win_transfers_same {A} (e : M A) w x m l t Q :
  m !! l = Some t →
  win_transfers w x m -∗
  (win_transfer_own l t -∗ wp e x (λ a x', ⌜calm x x'⌝ ∧ win_transfer_own l t ∗
     (win_transfers w x' m -∗ Q a x'))) -∗
  wp e x Q.
Proof.
  iIntros (Hl) "Hm He". iDestruct (win_transfers_wf with "Hm") as "[[%Ha _] Hm]".
  iDestruct (win_transfers_take _ _ _ _ _ Hl with "Hm") as "(%Hi & Ht & Hclose)".
  iApply (wp_wand with "[He Ht]"); [by iApply "He"|]. iIntros (a x') "(%Hc & Ht & HQ)".
  iApply "HQ". iDestruct ("Hclose" $! x' t with "[%] Ht") as "H"; rewrite insert_id //.
  split; [done|]. by eapply agrees_calm.
Qed.

(** Freeing a transfer of the pool: not while it is pending. *)
Lemma win_free_in_pool w m l t x :
  m !! l = Some t →
  {{ win_transfers w x m }} async_in_transfer_free (Heap l) @ x {{ r x',
    ⟪x' = x⟫ ∗ win_transfers w x' (if wt_pending t then m else delete l m) }}.
Proof.
  iIntros (Hl) "Hm". destruct (wt_pending t) eqn:Hp.
  - iApply (win_transfers_same with "Hm"); [done|]. iIntros "Ht".
    iApply (wp_wand with "[Ht]"); [by iApply win_free_pending|]. iIntros (r x') "[-> $]".
    iSplit; [done|]. iIntros "$". done.
  - iDestruct (pool_delete _ _ _ _ _ _ l t Hl with "Hm") as "[Ht Hm]"; [by rewrite /in_system Hp|].
    iApply (wp_wand with "[Ht]"); [by iApply (win_free_spec l t x Hp)|].
    iIntros (r x') "->". by iFrame.
Qed.

(** Submitting a transfer of the pool: the system has its buffer then, unless the
    transfer finished at once. *)
Lemma win_submit_in_pool w path m l t x :
  m !! l = Some t → wt_pending t = false →
  {{ handle_own w (OWinUsb path) ∗ win_transfers w x m }} async_in_transfer_submit (Heap l) @ x
  {{ r x', handle_own w (OWinUsb path) ∗
     ∃ t', ⟪win_submitted x x' l t t'⟫ ∗ win_transfers w x' (<[l := t']> m) }}.
Proof.
  iIntros (Hl Hp) "[Hi Hm]". iDestruct (win_transfers_wf with "Hm") as "[[%Ha %Hwf] Hm]".
  iDestruct (win_transfers_take _ _ _ _ _ Hl with "Hm") as "(<- & Ht & Hclose)".
  iApply (wp_wand with "[Ht Hi]"); [iApply (win_submit_spec l t path x Hp); iFrame|].
  iIntros ([] x1) "[$ (%t' & %H & Ht)]". iExists t'. iSplit; [done|].
  iApply ("Hclose" with "[%] Ht"). destruct H as ((buf & Htr) & Ho & Ht').
  assert (Hidle : ∀ cs n e, agrees in_system (key_of (wt_winusb t)) x m →
    (∀ key, outstanding (x_trace x1) key = outstanding (x_trace x) key) →
    agrees in_system (key_of (wt_winusb t)) x1 (<[l := with_state t cs false n e]> m)).
  { intros cs n e Hag Hout. apply (agrees_same _ _ x _ _ _ t); [done| |done|done].
    unfold in_system. cbn. by rewrite Hp. }
  destruct (_ =? ERROR_IO_PENDING).
  - subst t'. split; [done|]. destruct x1 as [tr n1 k1]. cbn in Htr. rewrite Htr.
    by apply (agrees_submitted _ _ x).
  - assert (∀ key, outstanding (x_trace x1) key = outstanding (x_trace x) key)
      by (intros key; by rewrite Htr).
    destruct (_ =? ERROR_SUCCESS); [subst t'|destruct Ht' as (got & -> & _)]; (split; [done|by apply Hidle]).
Qed.

(** Asking about a transfer of the pool: when its result is there, the system does
    not have its buffer any more. *)
Lemma win_pending_in_pool w path m l t x :
  m !! l = Some t →
  {{ handle_own w (OWinUsb path) ∗ win_transfers w x m }} async_in_transfer_pending (Heap l) @ x
  {{ r x', handle_own w (OWinUsb path) ∗
     ∃ t', ⟪win_polled x x' l t t' ∧ r = wt_pending t'⟫ ∗ win_transfers w x' (<[l := t']> m) }}.
Proof.
  iIntros (Hl) "[Hi Hm]". iDestruct (win_transfers_wf with "Hm") as "[[%Ha %Hwf] Hm]".
  iDestruct (win_transfers_take _ _ _ _ _ Hl with "Hm") as "(<- & Ht & Hclose)".
  assert (Hout : wt_pending t = true →
    outstanding (x_trace x) (key_of (wt_winusb t)) !! l = Some (wt_size t)).
  { intros Hp. rewrite Ha. apply lookup_omap_Some. exists t. split; [|done]. unfold in_system. by rewrite Hp. }
  iApply (wp_wand with "[Ht Hi]"); [iApply (win_pending_spec l t path x Hout); iFrame|].
  iIntros (r x1) "[$ (%t' & %H & Ht)]". iExists t'. iSplit; [done|].
  iApply ("Hclose" with "[%] Ht"). destruct H as [(Ho & H) _]. destruct (wt_pending t) eqn:Hp; cbn [negb] in H.
  - destruct H as [Htr H]. destruct (_ =? ERROR_IO_INCOMPLETE).
    + subst t'. split; [done|]. apply (agrees_same _ _ x _ _ _ t); [done| | |done].
      * unfold in_system. cbn. by rewrite Hp.
      * split; [done|]. intros key. rewrite Htr. done.
    + destruct x1 as [tr n1 k1]. cbn in Htr. rewrite Htr.
      destruct (_ =? ERROR_SUCCESS); [subst t'|destruct H as (got & -> & _)];
        (split; [done|by apply (agrees_completed _ _ x)]).
  - destruct H as [Htr ->]. split; [done|]. apply (agrees_same _ _ x _ _ _ t); [done|done| |done].
    split; [done|]. intros key. by rewrite Htr.
Qed.
End specs.

(** ** Properties *)

Section properties.
Context `{OS : WindowsOS} {LAWS : WindowsLaws OS}.

(** What the system has, by its history, is what the transfers call pending. *)
Definition system_agrees (w : HANDLE) (x : ext) (m : gmap loc win_transfer) : Prop :=
  outstanding (x_trace x) (key_of w) = omap in_system m.

Lemma transfers_agree w x m : win_transfers w x m ⊢ ⌜system_agrees w x m⌝ ∧ win_transfers w x m.
Proof. iIntros "H". iDestruct (win_transfers_wf with "H") as "[[%Ha _] H]". by iSplit. Qed.

(** C17. On Windows the transfers of a handle keep this invariant: the reads that WinUSB
    was given and whose results were not fetched are exactly the transfers that are marked
    pending, each with its whole buffer.  Submitting an idle transfer, asking whether one
    is pending and freeing one all preserve it: submitting marks it pending only when the system says
    ERROR_IO_PENDING, and records data or an error when it is finished at once; asking
    clears the mark when the result is there; freeing
    leaves a pending transfer alone and gives up everything that an idle one has. *)
Theorem win_transfers_stay_consistent w path m l t x :
  m !! l = Some t →
  (wt_pending t = false →
   {{ handle_own w (OWinUsb path) ∗ win_transfers w x m }} async_in_transfer_submit (Heap l) @ x
   {{ r x', handle_own w (OWinUsb path) ∗ ∃ t',
      ⟪win_submitted x x' l t t' ∧ system_agrees w x' (<[l := t']> m)⟫ ∗
      win_transfers w x' (<[l := t']> m) }}) ∧
  ({{ handle_own w (OWinUsb path) ∗ win_transfers w x m }} async_in_transfer_pending (Heap l) @ x
   {{ r x', handle_own w (OWinUsb path) ∗ ∃ t',
      ⟪win_polled x x' l t t' ∧ r = wt_pending t' ∧ system_agrees w x' (<[l := t']> m)⟫ ∗
      win_transfers w x' (<[l := t']> m) }}) ∧
  ({{ win_transfers w x m }} async_in_transfer_free (Heap l) @ x
   {{ r x', let m' := if wt_pending t then m else delete l m in
      ⟪x' = x ∧ system_agrees w x' m'⟫ ∗ win_transfers w x' m' }}).
Proof.
  intros Hl. split_and!.
  - iIntros (Hp) "H". iApply (wp_wand with "[H]"); [by iApply win_submit_in_pool|].
    iIntros (r x') "[$ (%t' & %H & Hm)]". iExists t'.
    iDestruct (transfers_agree with "Hm") as "[%Ha $]". by iPureIntro.
  - iIntros "H". iApply (wp_wand with "[H]"); [by iApply win_pending_in_pool|].
    iIntros (r x') "[$ (%t' & %H & Hm)]". iExists t'. destruct H as [H ->].
    iDestruct (transfers_agree with "Hm") as "[%Ha $]". by iPureIntro.
  - iIntros "H". iApply (wp_wand with "[H]"); [by iApply win_free_in_pool|].
    iIntros (r x') "[%H Hm]". iDestruct (transfers_agree with "Hm") as "[%Ha $]". by iPureIntro.
Qed.

(** C18. On Windows a pending transfer is delivered when the system has its result: the
    caller gets the number of bytes that the system reports, but never more than the
    transfer has room for, whatever was reported, exactly these bytes of the transfer's
    buffer, and a copy of the error for the code of the read, if it failed.  Until then
    nothing is delivered and the transfer stays pending. *)
Theorem win_finished_transfer_delivers w path m l t buffer old x :
  let o := win_overlapped (x_trace x) (key_of w) l in
  let n := Z.min (wt_size t) (o_transferred o) in
  let data := take (Z.to_nat n) (overwrite (o_data o) (wt_contents t)) in
  m !! l = Some t → wt_pending t = true → wt_size t ≤ Z.of_nat (List.length old) →
  {{ handle_own w (OWinUsb path) ∗ win_transfers w x m ∗ user_buffer buffer old }}
    (pending ← async_in_transfer_pending (Heap l);
     if pending : bool then mret None
     else r ← async_in_transfer_get_results (Heap l) buffer true true; mret (Some r)) @ x
  {{ r x', handle_own w (OWinUsb path) ∗ ∃ t', ⟪wt_pending t' = (o_code o =? ERROR_IO_INCOMPLETE)⟫ ∗
     win_transfers w x' (<[l := t']> m) ∗
     if o_code o =? ERROR_IO_INCOMPLETE then ⟪r = None⟫ ∗ user_buffer buffer old
     else ∃ e q, ⟪r = Some (NULL, Some n, q)⟫ ∗
       user_buffer buffer (if is_null buffer then old else copied data old) ∗
       ∃ x1, ⟪opt_errs x x1 (if o_code o =? ERROR_SUCCESS then None
                             else Some (overlapped_error (o_code o) "Asynchronous IN transfer failed.")) e⟫ ∗
         error_copied true q e x1 x' }}.
Proof.
  intros o n data. iIntros (Hl Hp Hold) "(Hw & Hm & Hb)".
  iDestruct (win_transfers_wf with "Hm") as "[[%Hag %Hwf] Hm]".
  iDestruct (win_transfers_take _ _ _ _ _ Hl with "Hm") as "(%Hwt & Ht & Hclose)". 
  iDestruct ("Hclose" $! x t with "[%] Ht") as "Hm"; rewrite ?insert_id //.
  wp_step. iApply (wp_wand with "[Hw Hm]"); [iApply (win_pending_in_pool w path m l t x Hl); iFrame|].
  iIntros (r x1) "[Hw (%t' & %H & Hm)]". destruct H as [(Ho & H) ->]. rewrite Hp Hwt in H. cbn [negb] in H.
  fold o in H. destruct H as [Htr H].
  destruct (o_code o =? ERROR_IO_INCOMPLETE).
  { subst t'. cbn [with_state wt_pending]. wp_steps. iFrame "Hw". iExists _. iFrame "Hm Hb". by iPureIntro. }
  assert (Ht' : ∃ e, t' = with_state t (overwrite (o_data o) (wt_contents t)) false (o_transferred o) e ∧
    opt_errs x x1 (if o_code o =? ERROR_SUCCESS then None
      else Some (overlapped_error (o_code o) "Asynchronous IN transfer failed.")) e).
  { destruct (o_code o =? ERROR_SUCCESS); [by exists None|]. destruct H as (got & -> & He). by exists (Some got). }
  destruct Ht' as (e & -> & He). set (t' := with_state _ _ _ _ _). change (wt_pending t') with false. wp_steps.
  assert (En : received_length t' = n).
  { unfold received_length, n, t'. cbn. destruct (Z.ltb_spec (wt_size t) (o_transferred o)); lia. }
  iApply (win_transfers_same with "Hm"); [apply lookup_insert_eq|]. iIntros "Ht".
  iApply (wp_wand with "[Ht Hb]").
  { iApply (win_get_results_spec l t' buffer old true true x1); [done| |iFrame]. intros _. rewrite En. lia. }
  iIntros (r x2) "(%H2 & Ht & Hb & He)". destruct H2 as [Hr Hq]. iFrame "Ht". iSplit; [iPureIntro; by apply quiet_calm|].
  iIntros "Hm". wp_steps. iFrame "Hw". iExists t'. iFrame "Hm". iSplit; [done|]. iExists e, r.2.
  destruct r as [[r1 r2] r3]. cbn [fst snd] in *. injection Hr as -> ->. rewrite En.
  iSplit; [done|]. unfold received_bytes. rewrite En. iFrame "Hb". iExists x1. iFrame "He". by iPureIntro.
Qed.
End properties.

(** ** On the example machine *)

#[local] Existing Instance Example_win.machine.
#[local] Existing Instance Example_win.machine_laws.

(** A transfer of one byte that was submitted; the machine will report two bytes. *)
Definition example_win_winusb : HANDLE := Some (Heap 3%positive).
Definition example_win_transfer : win_transfer :=
  WinTransfer example_win_winusb 0x82 1 [None] true 0 None.
Definition example_win_loc : loc := 7%positive.
Definition submitted_win_ext : ext := Ext [EvSubmit 3 example_win_loc 0x82 1 NULL true] 0 0.

Lemma win_transfers_stay_consistent_witness :
  let w := example_win_winusb in let path := Example_win.interface_path in let l := example_win_loc in
  let x := submitted_win_ext in let m := {[l := example_win_transfer]} in
  m !! l = Some example_win_transfer ∧ system_agrees w x m ∧
  ((wt_pending example_win_transfer = false →
   {{ handle_own w (OWinUsb path) ∗ win_transfers w x m }} async_in_transfer_submit (Heap l) @ x
   {{ r x', handle_own w (OWinUsb path) ∗ ∃ t',
      ⟪win_submitted x x' l example_win_transfer t' ∧ system_agrees w x' (<[l := t']> m)⟫ ∗
      win_transfers w x' (<[l := t']> m) }}) ∧
  ({{ handle_own w (OWinUsb path) ∗ win_transfers w x m }} async_in_transfer_pending (Heap l) @ x
   {{ r x', handle_own w (OWinUsb path) ∗ ∃ t',
      ⟪win_polled x x' l example_win_transfer t' ∧ r = wt_pending t' ∧
       system_agrees w x' (<[l := t']> m)⟫ ∗ win_transfers w x' (<[l := t']> m) }}) ∧
  ({{ win_transfers w x m }} async_in_transfer_free (Heap l) @ x
   {{ r x', ⟪x' = x ∧ system_agrees w x' m⟫ ∗ win_transfers w x' m }})).
Proof.
  intros w path l x m. split; [apply lookup_singleton_eq|]. split; [by vm_compute|].
  exact (win_transfers_stay_consistent w path m l example_win_transfer x (lookup_singleton_eq _ _)).
Defined.

Lemma win_finished_transfer_delivers_witness :
  let w := example_win_winusb in let path := Example_win.interface_path in let l := example_win_loc in
  let x := submitted_win_ext in let m := {[l := example_win_transfer]} in
  let buffer := Heap 9%positive in let old := [Some "-"%char] in
  let o := win_overlapped (x_trace x) (key_of w) l in
  system_agrees w x m ∧ o_transferred o = 2 ∧ o_code o = ERROR_SUCCESS ∧
  {{ handle_own w (OWinUsb path) ∗ win_transfers w x m ∗ user_buffer buffer old }}
    (pending ← async_in_transfer_pending (Heap l);
     if pending : bool then mret None
     else r ← async_in_transfer_get_results (Heap l) buffer true true; mret (Some r)) @ x
  {{ r x', handle_own w (OWinUsb path) ∗ ∃ t', ⟪wt_pending t' = false⟫ ∗
     win_transfers w x' (<[l := t']> m) ∗
     ∃ e q, ⟪r = Some (NULL, Some 1, q)⟫ ∗ user_buffer buffer (copied [Some "o"%char] old) ∗
       ∃ x1, ⟪opt_errs x x1 None e⟫ ∗ error_copied true q e x1 x' }}.
Proof.
  intros w path l x m buffer old o. split; [by vm_compute|]. split; [by vm_compute|].
  split; [by vm_compute|].
  exact (win_finished_transfer_delivers w path m l example_win_transfer buffer old x
           (lookup_singleton_eq _ _) eq_refl ltac:(vm_compute; congruence)).
Defined.
