(* ===== verification/AsyncPipeWindows.v ===== *)
(** * AsyncPipeWindows: asynchronous pipes on Windows

    The transfers of src/src/windows/async_in_transfer_windows.c, with the empty event
    handler of src/src/windows/generic_handle_windows.c, keep the contract of
    AsyncTransfer.v, so everything proved in AsyncPipe.v holds for pipes on Windows.
    The function of generic_handle_windows.c that opens a pipe is here too. *)

From S2P Require Import Prelude Memory Logic Format Errors Results Basics Strings Buffers Pool AsyncTransfer AsyncPipe WindowsOS ErrorWindows SetupWindows InstanceIdWindows NodeWindows InterfaceWindows HandleWindows TransferWindows.
#[local] Set Warnings "-rewrite-rw".

Section code.
Context `{OS : WindowsOS}.

(** [generic_handle_events] and the functions of async_in_transfer_windows.c; one
    cancellation is for the whole pipe. *)
#[export] Instance win_transfer_functions : AsyncTransfers := {
  tr_setup := async_in_pipe_setup;
  tr_create := async_in_transfer_create;
  tr_free := async_in_transfer_free;
  tr_submit := async_in_transfer_submit;
  tr_get_results := async_in_transfer_get_results;
  tr_cancel := async_in_transfer_cancel;
  tr_pending := async_in_transfer_pending;
  tr_events := generic_handle_events;
  tr_cancels_each := false
}.

Definition libusbp_generic_handle_open_async_in_pipe (handle : ptr) (pipe_id : Z)
    (pipe_given : bool) : M (ptr * option ptr) :=
  async_in_pipe_create handle pipe_id pipe_given.
End code.

(** ** The contract *)

(** What a pipe sees of a transfer. *)
Definition win_transfer_of (t : win_transfer) : transfer :=
  Transfer (wt_size t) (if wt_pending t then Pending else Finished (received_bytes t) (wt_error t)).

Lemma win_is_pending t : is_pending (win_transfer_of t) = wt_pending t.
Proof. unfold win_transfer_of, is_pending. cbn. by destruct (wt_pending t). Qed.

Lemma win_transfer_of_wf t : win_transfer_wf t → transfer_wf (win_transfer_of t).
Proof.
  intros Ht. pose proof (win_length_received_bytes t Ht). pose proof (received_length_range t Ht).
  destruct Ht as (? & _). split; [cbn; lia|]. unfold win_transfer_of. cbn.
  destruct (wt_pending t); [done|]. lia.
Qed.

(** A new transfer counts as finished, without data. *)
Lemma new_win_transfer_of w pipe size :
  0 ≤ size → win_transfer_of (new_win_transfer w pipe size) = Transfer size (Finished [] None).
Proof.
  intros H. unfold win_transfer_of, received_bytes, received_length. cbn.
  by rewrite (proj2 (Z.ltb_ge size 0) H).
Qed.

Lemma win_transfers_lookup (m : gmap loc win_transfer) l t :
  (win_transfer_of <$> m) !! l = Some t → ∃ u, m !! l = Some u ∧ t = win_transfer_of u.
Proof. rewrite lookup_fmap fmap_Some. done. Qed.

Lemma win_handle_winusb p w path :
  win_handle_own p w path ⊢ handle_own w (OWinUsb path) ∗
    (handle_own w (OWinUsb path) -∗ win_handle_own p w path).
Proof.
  iIntros "(%l & %f & -> & Hl & Hf & $)". iIntros "Hw". iExists l, f. by iFrame.
Qed.

Section laws.
Context `{OS : WindowsOS} {LAWS : WindowsLaws OS}.

Definition win_handle_res (p : ptr) (k : HANDLE * string) : hProp := win_handle_own p k.1 k.2.
Definition win_pool (k : HANDLE * string) (x : ext) (M : gmap loc transfer) : hProp :=
  (∃ m, ⟪win_transfer_of <$> m = M⟫ ∗ win_transfers k.1 x m)%I.

Lemma win_pool_intro k x m : win_transfers k.1 x m ⊢ win_pool k x (win_transfer_of <$> m).
Proof. iIntros "H". iExists m. by iFrame. Qed.

Lemma win_law_handle p k : win_handle_res p k ⊢ ⌜is_null p = false⌝ ∧ win_handle_res p k.
Proof. apply win_handle_not_null. Qed.

Lemma win_law_wf k x M : win_pool k x M ⊢ ⌜map_Forall (λ _, transfer_wf) M⌝ ∧ win_pool k x M.
Proof.
  iIntros "(%m & <- & Hm)". iDestruct (win_transfers_wf with "Hm") as "[[_ %Hwf] Hm]". iSplit.
  - iPureIntro. intros l t Ht. apply win_transfers_lookup in Ht as (u & Hu & ->).
    by apply win_transfer_of_wf, (Hwf l).
  - by iApply win_pool_intro.
Qed.

Lemma win_law_calm k x x' M : calm x x' → win_pool k x M ⊢ win_pool k x' M.
Proof. iIntros (Hc) "(%m & <- & Hm)". iApply win_pool_intro. by iApply pool_calm. Qed.

Lemma win_law_setup p k n x :
  {{ win_handle_res p k }} async_in_pipe_setup p n @ x {{ r x',
    ⟪calm x x'⟫ ∗ win_handle_res p k ∗ some_error r }}.
Proof.
  iIntros "H". wp_call (win_setup_spec p k.1 k.2 n x). iIntros (r x') "[$ H]".
  iDestruct (returns_some_error with "H") as "[%Hc $]". by iPureIntro.
Qed.

Lemma win_law_create p k n size M x :
  u8 n → is_in n = true → 0 < size →
  {{ win_handle_res p k ∗ win_pool k x M }} async_in_transfer_create p n size @ x {{ r x',
    win_handle_res p k ∗
    ((∃ l, ⟪r = (NULL, Some (Heap l)) ∧ M !! l = None⟫ ∗
       win_pool k x' (<[l := Transfer size (Finished [] None)]> M)) ∨
     (∃ a, ⟪r.2 = None⟫ ∗ err_own r.1 a ∗ win_pool k x' M)) }}.
Proof.
  iIntros (Hn Hin Hsz) "[Hh (%m & <- & Hm)]".
  wp_call (win_create_spec p k.1 k.2 n size x Hsz).
  iIntros ([e o] x1) "[$ [(%t & %H & (%l & %Ho & Ht))|(%a & %H & He & %Ho)]]"; cbn [fst snd] in *; subst o.
  - destruct H as (-> & Hc & Hs). apply transfer_create_new in Hs as ->.
    iDestruct (pool_insert_new _ _ _ (key_of k.1) x x1 m l with "Hm Ht") as "[%Hl Hm]";
      [apply win_transfer_exclusive|done|done|done|].
    iLeft. iExists l. iSplit; [by rewrite lookup_fmap Hl|].
    iDestruct (win_pool_intro with "Hm") as "Hm". by rewrite fmap_insert new_win_transfer_of //; lia.
  - iRight. iExists a. iSplit; [done|]. iFrame "He". destruct H as [Hc _].
    iApply win_pool_intro. by iApply pool_calm.
Qed.

Lemma win_law_free k l t M x :
  M !! l = Some t →
  {{ win_pool k x M }} async_in_transfer_free (Heap l) @ x {{ r x',
    ∃ M', ⟪M' = delete l M ∨ (is_pending t = true ∧ M' = M)⟫ ∗ win_pool k x' M' }}.
Proof.
  iIntros (Ht) "(%m & <- & Hm)". apply win_transfers_lookup in Ht as (u & Hu & ->).
  rewrite win_is_pending.
  iApply (wp_wand with "[Hm]"); [by iApply (win_free_in_pool k.1 m l u x Hu)|].
  iIntros ([] x') "[-> Hm]". iDestruct (win_pool_intro with "Hm") as "Hm". iExists _. iFrame "Hm".
  iPureIntro. destruct (wt_pending u); [by right|]. left. by rewrite fmap_delete.
Qed.

Lemma win_law_submit p k l t M x :
  M !! l = Some t → is_pending t = false →
  {{ win_handle_res p k ∗ win_pool k x M }} async_in_transfer_submit (Heap l) @ x {{ r x',
    win_handle_res p k ∗ ∃ t', ⟪tr_size t' = tr_size t⟫ ∗ win_pool k x' (<[l := t']> M) }}.
Proof.
  iIntros (Ht Hp) "[Hh (%m & <- & Hm)]". apply win_transfers_lookup in Ht as (u & Hu & ->).
  rewrite win_is_pending in Hp. iDestruct (win_handle_winusb with "Hh") as "[Hi Hh]".
  iApply (wp_wand with "[Hi Hm]"); [iApply (win_submit_in_pool k.1 k.2 m l u x Hu Hp); iFrame|].
  iIntros ([] x') "[Hi (%u' & %H & Hm)]". destruct H as (_ & _ & H).
  iDestruct (win_pool_intro with "Hm") as "Hm". rewrite fmap_insert.
  iSplitL "Hi Hh"; [by iApply "Hh"|]. iExists _. iFrame "Hm". iPureIntro.
  destruct (_ =? ERROR_IO_PENDING); [by subst|].
  destruct (_ =? ERROR_SUCCESS); [by subst|]. by destruct H as (got & -> & _).
Qed.

Lemma win_law_pending p k l t M x :
  M !! l = Some t →
  {{ win_handle_res p k ∗ win_pool k x M }} async_in_transfer_pending (Heap l) @ x {{ r x',
    win_handle_res p k ∗ ∃ t', ⟪settles t t' ∧ r = is_pending t'⟫ ∗ win_pool k x' (<[l := t']> M) }}.
Proof.
  iIntros (Ht) "[Hh (%m & <- & Hm)]". apply win_transfers_lookup in Ht as (u & Hu & ->).
  iDestruct (win_handle_winusb with "Hh") as "[Hi Hh]".
  iApply (wp_wand with "[Hi Hm]"); [iApply (win_pending_in_pool k.1 k.2 m l u x Hu); iFrame|].
  iIntros (r x') "[Hi (%u' & %H & Hm)]". destruct H as [(_ & H) ->].
  iDestruct (win_pool_intro with "Hm") as "Hm". rewrite fmap_insert.
  iSplitL "Hi Hh"; [by iApply "Hh"|]. iExists _. iFrame "Hm". iPureIntro.
  rewrite win_is_pending. split; [|done]. unfold settles. rewrite !win_is_pending.
  destruct (wt_pending u) eqn:Hp; cbn [negb] in H; [|by left; destruct H as [_ ->]].
  destruct H as [_ H]. destruct (_ =? ERROR_IO_INCOMPLETE).
  - left. subst u'. unfold win_transfer_of. cbn. by rewrite Hp.
  - right. destruct (_ =? ERROR_SUCCESS); [by subst u'|]. by destruct H as (got & -> & _).
Qed.

Lemma win_law_results k l size data error M buffer old g1 g2 x :
  M !! l = Some (Transfer size (Finished data error)) →
  (is_null buffer = false → (List.length data ≤ List.length old)%nat) →
  {{ win_pool k x M ∗ user_buffer buffer old }}
    async_in_transfer_get_results (Heap l) buffer g1 g2 @ x
  {{ r x', ⟪r.1 = (NULL, out g1 (Z.of_nat (List.length data))) ∧ quiet x x'⟫ ∗ win_pool k x' M ∗
     user_buffer buffer (if is_null buffer then old else copied data old) ∗
     error_copied g2 r.2 error x x' }}.
Proof.
  iIntros (Ht Hold) "[(%m & <- & Hm) Hbuf]". apply win_transfers_lookup in Ht as (u & Hu & E).
  unfold win_transfer_of in E. destruct (wt_pending u) eqn:Hp; [done|]. injection E as -> -> ->.
  iDestruct (win_transfers_wf with "Hm") as "[[%Ha %Hwf] Hm]".
  pose proof (win_length_received_bytes u (Hwf l u Hu)) as Hlen. rewrite Hlen.
  iApply (win_transfers_same with "Hm"); [done|]. iIntros "Hu".
  iApply (wp_wand with "[Hu Hbuf]").
  { iApply (win_get_results_spec l u buffer old g1 g2 x Hp); [|iFrame].
    intros Hb. specialize (Hold Hb). lia. }
  iIntros (r x') "(%H & $ & $ & $)". destruct H as [Hr Hq]. iSplit; [iPureIntro; by apply quiet_calm|].
  iIntros "Hm". iSplit; [done|]. by iApply win_pool_intro.
Qed.

Lemma win_law_cancel p k l t M x :
  M !! l = Some t →
  {{ win_handle_res p k ∗ win_pool k x M }} async_in_transfer_cancel (Heap l) @ x {{ r x',
    win_handle_res p k ∗ win_pool k x' M ∗ some_error r }}.
Proof.
  iIntros (Ht) "[Hh (%m & <- & Hm)]". apply win_transfers_lookup in Ht as (u & Hu & ->).
  iDestruct (win_handle_winusb with "Hh") as "[Hi Hh]".
  iDestruct (win_transfers_wf with "Hm") as "[[%Ha _] Hm]".
  iDestruct (win_transfers_take _ _ _ _ _ Hu with "Hm") as "(%Hw & Hu & Hclose)".
  iApply (wp_wand with "[Hu Hi]"); [iApply (win_cancel_spec l u k.2 x); rewrite Hw; iFrame|].
  rewrite Hw. iIntros (r x') "(Hu & Hi & H)". iSplitL "Hi Hh"; [by iApply "Hh"|].
  iDestruct (returns_some_error with "H") as "[%Hc $]".
  iApply win_pool_intro. iDestruct ("Hclose" $! x' u with "[%] Hu") as "H"; rewrite insert_id //.
  split; [done|]. by eapply agrees_calm.
Qed.

(** There are no events: the system completes the transfers by itself. *)
Lemma win_law_events p k M x :
  {{ win_handle_res p k ∗ win_pool k x M }} generic_handle_events p @ x {{ r x',
    ∃ M', ⟪settled M M'⟫ ∗ win_handle_res p k ∗ win_pool k x' M' ∗ some_error r }}.
Proof.
  iIntros "[Hh Hm]". unfold generic_handle_events. wp_steps. iExists M. iSplit; [done|].
  iFrame. by iExists None.
Qed.
End laws.

#[export] Instance win_laws `{OS : WindowsOS} {LAWS : WindowsLaws OS} : AsyncTransferLaws win_transfer_functions := {
  handle_res := win_handle_res;
  pool := win_pool;
  law_handle := win_law_handle;
  law_wf := win_law_wf;
  law_calm := win_law_calm;
  law_setup := win_law_setup;
  law_create := win_law_create;
  law_free_null := win_free_null;
  law_free := win_law_free;
  law_submit := win_law_submit;
  law_pending := win_law_pending;
  law_results := win_law_results;
  law_cancel := win_law_cancel;
  law_events := win_law_events
}.
