(* ===== verification/Api.v ===== *)
(** * Api: what the public C functions promise on every platform

    The prototypes of include/libusbp.h that a platform implements, as classes of
    operations, and what they promise, as classes of laws.  Programs that use the
    library are verified against these classes; ApiLinux.v, ApiMac.v and ApiWindows.v
    show that the three backends keep the promises. *)

From S2P Require Import Prelude Memory Logic Errors Results Basics Strings.
#[local] Set Warnings "-rewrite-rw".

(** ** Leaks

    Some functions lose memory when an allocation fails, and only then. *)
Definition leak (x x' : ext) : hProp := (emp ∨ ⟪oomed x x'⟫ ∗ True)%I.

Lemma leak_none x x' : ⊢ leak x x'.
Proof. by iLeft. Qed.

Lemma leak_oomed x x' : oomed x x' → True ⊢ leak x x'.
Proof. iIntros (H) "H". iRight. by iFrame. Qed.

Lemma leak_join x x1 x2 x' :
  calm x x1 → calm x2 x' → (x_oom x1 ≤ x_oom x2)%nat →
  leak x x1 ∗ leak x2 x' ⊢ leak x x'.
Proof.
  iIntros (H1 H2 Hle) "[[H|[%Ho H]] [H'|[%Ho' H']]]"; [by iLeft|..]; iRight; iSplit; try done;
    iPureIntro; unfold oomed, calm in *; lia.
Qed.

Lemma leak_trans x x1 x' : calm x x1 → calm x1 x' → leak x x1 ∗ leak x1 x' ⊢ leak x x'.
Proof. intros. by apply leak_join. Qed.

Lemma leak_mono x x1 x' : calm x x1 → calm x1 x' → leak x x1 ⊢ leak x x'.
Proof.
  iIntros (H1 H2) "H". iApply (leak_trans x x1); [done..|]. iFrame. iApply leak_none.
Qed.

Lemma leak_mono_r x x1 x' : calm x x1 → calm x1 x' → leak x1 x' ⊢ leak x x'.
Proof.
  iIntros (H1 H2) "H". iApply (leak_trans x x1); [done..|]. iFrame. iApply leak_none.
Qed.

(** ** Devices *)

Class DeviceApi := {
  libusbp_device_free : ptr → M unit;
  libusbp_device_copy : ptr → bool → M (ptr * option ptr);
  libusbp_device_get_vendor_id : ptr → bool → M (ptr * option Z);
  libusbp_device_get_product_id : ptr → bool → M (ptr * option Z);
  libusbp_device_get_revision : ptr → bool → M (ptr * option Z);
  libusbp_device_get_serial_number : ptr → bool → M (ptr * option ptr);
  libusbp_device_get_os_id : ptr → bool → M (ptr * option ptr);
  libusbp_list_connected_devices : bool → bool → M (ptr * option ptr * option Z)
}.

Class DeviceLaws (A : DeviceApi) := {
  dev : Type;
  #[global] dev_objects :: DeviceObjects dev libusbp_device_free;
  dev_vendor : dev → Z;
  dev_product : dev → Z;
  dev_revision : dev → Z;
  dev_os_id : dev → string;
  s_dev_serial : dev → Spec string;
  s_list : Spec (list dev);

  law_device_free_null x Q : Q tt x ⊢ wp (libusbp_device_free NULL) x Q;
  law_device_copy_null x Q : Q (NULL, Some NULL) x ⊢ wp (libusbp_device_copy NULL true) x Q;
  law_device_copy p d x :
    {{ device_own p d }} libusbp_device_copy p true @ x {{ r x',
      device_own p d ∗
      returns (mret d) x x' r.1 (λ d, ∃ q, ⟪r.2 = Some q⟫ ∗ device_own q d) ⟪r.2 = Some NULL⟫ }};
  law_vendor p d x :
    {{ device_own p d }} libusbp_device_get_vendor_id p true @ x {{ r x',
      ⟪r = (NULL, Some (dev_vendor d)) ∧ x' = x⟫ ∗ device_own p d }};
  law_product p d x :
    {{ device_own p d }} libusbp_device_get_product_id p true @ x {{ r x',
      ⟪r = (NULL, Some (dev_product d)) ∧ x' = x⟫ ∗ device_own p d }};
  law_revision p d x :
    {{ device_own p d }} libusbp_device_get_revision p true @ x {{ r x',
      ⟪r = (NULL, Some (dev_revision d)) ∧ x' = x⟫ ∗ device_own p d }};
  law_serial p d x :
    {{ device_own p d }} libusbp_device_get_serial_number p true @ x {{ r x',
      device_own p d ∗
      returns (s_dev_serial d) x x' r.1 (out_str r.2) ⟪r.2 = Some NULL⟫ }};
  law_os_id p d x :
    {{ device_own p d }} libusbp_device_get_os_id p true @ x {{ r x',
      device_own p d ∗
      returns (mret (dev_os_id d)) x x' r.1 (out_str r.2) ⟪r.2 = Some NULL⟫ }};
  law_list x :
    {{ emp }} libusbp_list_connected_devices true true @ x {{ r x', leak x x' ∗
      ((∃ p ds, ⟪r = (NULL, Some p, Some (Z.of_nat (List.length ds))) ∧
                 roughly s_list x x' (inr ds)⟫ ∗ device_list p ds) ∨
       (∃ got, ⟪r.1.2 = None ∧ r.2 = Some 0 ∧ roughly s_list x x' (inl got)⟫ ∗ err_own r.1.1 got)) }}
}.

(** ** Serial ports *)

Class SerialPortApi := {
  libusbp_serial_port_create : ptr → Z → bool → bool → M (ptr * option ptr);
  libusbp_serial_port_free : ptr → M unit;
  libusbp_serial_port_copy : ptr → bool → M (ptr * option ptr);
  libusbp_serial_port_get_name : ptr → bool → M (ptr * option ptr)
}.

Class SerialPortLaws (A : DeviceApi) {AL : DeviceLaws A} (B : SerialPortApi) := {
  port : Type;
  port_own : ptr → port → hProp;
  port_name : port → string;
  s_port : dev → Z → bool → Spec port;

  law_port_not_null p s : port_own p s ⊢ ⌜is_null p = false⌝ ∧ port_own p s;
  law_port_free p s x : {{ port_own p s }} libusbp_serial_port_free p @ x {{ r x', ⟪x' = x⟫ }};
  law_port_free_null x Q : Q tt x ⊢ wp (libusbp_serial_port_free NULL) x Q;
  law_port_copy_null x Q : Q (NULL, Some NULL) x ⊢ wp (libusbp_serial_port_copy NULL true) x Q;
  law_port_copy p s x :
    {{ port_own p s }} libusbp_serial_port_copy p true @ x {{ r x',
      port_own p s ∗
      returns (mret s) x x' r.1 (λ s, ∃ q, ⟪r.2 = Some q⟫ ∗ port_own q s) ⟪r.2 = Some NULL⟫ }};
  law_port_name p s x :
    {{ port_own p s }} libusbp_serial_port_get_name p true @ x {{ r x',
      port_own p s ∗
      returns (mret (port_name s)) x x' r.1 (out_str r.2) ⟪r.2 = Some NULL⟫ }};
  law_port_create p d n composite x :
    {{ device_own p d }} libusbp_serial_port_create p n composite true @ x {{ r x',
      device_own p d ∗
      ((∃ s q, ⟪r = (NULL, Some q) ∧ roughly (s_port d n composite) x x' (inr s)⟫ ∗ port_own q s) ∨
       (∃ got, ⟪r.2 = Some NULL ∧ roughly (s_port d n composite) x x' (inl got)⟫ ∗ err_own r.1 got)) }}
}.

(** ** Generic interfaces and handles *)

Class GenericInterfaceApi := {
  libusbp_generic_interface_create : ptr → Z → bool → bool → M (ptr * option ptr);
  libusbp_generic_interface_free : ptr → M unit;
  libusbp_generic_interface_copy : ptr → bool → M (ptr * option ptr);
  libusbp_generic_interface_get_os_id : ptr → bool → M (ptr * option ptr);
  libusbp_generic_interface_get_os_filename : ptr → bool → M (ptr * option ptr)
}.

Class GenericHandleApi := {
  libusbp_generic_handle_open : ptr → bool → M (ptr * option ptr);
  libusbp_generic_handle_close : ptr → M unit;
  libusbp_generic_handle_open_async_in_pipe : ptr → Z → bool → M (ptr * option ptr);
  libusbp_generic_handle_set_timeout : ptr → Z → Z → M ptr;
  libusbp_control_transfer : ptr → Z → Z → Z → Z → ptr → Z → bool → M (ptr * option Z);
  libusbp_write_pipe : ptr → Z → ptr → Z → bool → M (ptr * option Z);
  libusbp_read_pipe : ptr → Z → ptr → Z → bool → M (ptr * option Z)
}.

(** A result of [returns] as the client sees it. *)
Lemma returns_roughly {A} (s : Spec A) x x' e ok bad :
  returns s x x' e ok bad ⊢
  (∃ a, ⟪e = NULL ∧ roughly s x x' (inr a)⟫ ∗ ok a) ∨
  (∃ got, ⟪roughly s x x' (inl got)⟫ ∗ err_own e got ∗ bad).
Proof.
  iIntros "[(%a & %H & Hok)|(%got & %Hf & H)]".
  - iLeft. iExists a. iFrame. iPureIntro. destruct H as [-> Ha].
    split; [done|by apply succeeded_roughly].
  - iRight. iExists got. iFrame. iPureIntro. by apply failed_roughly.
Qed.
