(* ===== verification/FindDevice.v ===== *)
(** * FindDevice: finding a device by its IDs (src/src/find_device.c)

    [libusbp_find_device_with_vid_pid] lists the devices, keeps the first match and
    releases the others.  It is the same code on every platform, and is verified
    against the interface of Api.v.  [*device] is passed in and returned. *)

From S2P Require Import Prelude Memory Logic Errors Results Basics Strings Api.
#[local] Set Warnings "-rewrite-rw".

Section code.
Context `{A : DeviceApi}.

Definition check_device_vid_pid (device : ptr) (vendor_id product_id : Z) : M (ptr * bool) :=
  '(error, device_vid) ← libusbp_device_get_vendor_id device true;
  if negb (is_null error) then mret (error, false) else
  device_vid ← initialised device_vid;
  if negb (device_vid =? vendor_id) then mret (NULL, false) else
  '(error, device_pid) ← libusbp_device_get_product_id device true;
  if negb (is_null error) then mret (error, false) else
  device_pid ← initialised device_pid;
  if negb (device_pid =? product_id) then mret (NULL, false) else
  mret (NULL, true).

(** The loop from index [i], [n] iterations left: the error and [*device]. *)
Fixpoint find_device_loop (new_list : ptr) (vendor_id product_id : Z) (device : ptr)
    (i : Z) (n : nat) : M (ptr * ptr) :=
  match n with
  | O => mret (NULL, device)
  | S n =>
      candidate ← load_elem as_ptrs new_list i;
      '(error, device, candidate) ←
        (if is_null device then
           '(error, matches) ← check_device_vid_pid candidate vendor_id product_id;
           if negb (is_null error) then mret (error, device, candidate)
           else if matches : bool then mret (NULL, candidate, NULL)
           else mret (NULL, device, candidate)
         else mret (NULL, device, candidate));
      if negb (is_null error) then mret (error, device)
      else
        libusbp_device_free candidate;;
        find_device_loop new_list vendor_id product_id device (i + 1) n
  end.

Definition libusbp_find_device_with_vid_pid (vendor_id product_id : Z) (device_given : bool) :
    M (ptr * option ptr) :=
  if negb device_given then
    error ← error_create "Device output pointer is null.";
    mret (error, None)
  else
  '(error, new_list, size) ← libusbp_list_connected_devices true true;
  let new_list := default NULL new_list in
  size ← initialised size;
  c_assert (negb (is_null error) || negb (is_null new_list));;
  '(error, device) ←
    (if is_null error then find_device_loop new_list vendor_id product_id NULL 0 (Z.to_nat size)
     else mret (error, NULL));
  libusbp_list_free new_list;;
  mret (error, Some device).
End code.

(** ** What the functions mean *)

Section specs.
Context `{A : DeviceApi} {LAWS : DeviceLaws A}.

Definition vid_pid_matches (vendor_id product_id : Z) (d : dev) : bool :=
  (dev_vendor d =? vendor_id) && (dev_product d =? product_id).

(** The first device with the IDs. *)
Definition first_match (vendor_id product_id : Z) (ds : list dev) : option dev :=
  List.find (vid_pid_matches vendor_id product_id) ds.

Definition opt_device_own (p : ptr) (o : option dev) : hProp :=
  match o with Some d => device_own p d | None => ⟪p = NULL⟫ end%I.

Lemma opt_device_own_null p o :
  opt_device_own p o ⊢ ⌜is_null p = match o with Some _ => false | None => true end⌝ ∧ opt_device_own p o.
Proof.
  destruct o; cbn; iIntros "H".
  - iApply (device_own_not_null with "H").
  - iDestruct "H" as %->. by iSplit.
Qed.

Lemma check_device_vid_pid_spec p d v q x :
  {{ device_own p d }} check_device_vid_pid p v q @ x {{ r x',
    ⟪r = (NULL, vid_pid_matches v q d) ∧ x' = x⟫ ∗ device_own p d }}.
Proof.
  iIntros "H". unfold check_device_vid_pid, vid_pid_matches, initialised. wp_steps.
  wp_call (law_vendor p d x). iIntros (? ?) "[%H Hd]".
  destruct H as [-> ->]. wp_steps. destruct (dev_vendor d =? v); wp_steps; [|by iFrame].
  wp_call (law_product p d x). iIntros (? ?) "[%H Hd]".
  destruct H as [-> ->]. wp_steps. destruct (dev_product d =? q); wp_steps; by iFrame.
Qed.

Lemma find_device_loop_spec p v q device o pre qs ds x :
  {{ ptr_array p (pre ++ qs) ∗ devices qs ds ∗ opt_device_own device o }}
    find_device_loop p v q device (Z.of_nat (List.length pre)) (List.length qs) @ x
  {{ r x', ⟪r.1 = NULL ∧ x' = x⟫ ∗ ptr_array p (pre ++ qs) ∗
    opt_device_own r.2 (match o with Some d => Some d | None => first_match v q ds end) }}.
Proof.
  revert pre device o ds. induction qs as [|c qs IH]; intros pre device o ds;
    iIntros "(Hp & Hds & Hd)"; cbn [find_device_loop List.length].
  { iDestruct (big_sepL2_nil_inv_l with "Hds") as %->. wp_steps. iFrame.
    iSplit; [done|]. by destruct o. }
  iDestruct (big_sepL2_cons_inv_l with "Hds") as (d ds' ->) "[Hc Hds]".
  wp_step.
  iApply (ptr_array_load _ _ _ c with "Hp").
  { rewrite -app_assoc lookup_app_r // Nat.sub_diag //. }
  iIntros "Hp". iDestruct (opt_device_own_null with "Hd") as "[%Hnull Hd]".
  iDestruct (device_own_not_null with "Hc") as "[%Hcn Hc]".
  rewrite (_ : Z.of_nat (List.length pre) + 1 = Z.of_nat (List.length (pre ++ [c])));
    [|rewrite length_app; cbn; lia].
  rewrite (_ : pre ++ c :: qs = (pre ++ [c]) ++ qs); [|by rewrite -app_assoc].
  cbn [first_match List.find]. destruct o as [d0|].
  - wp_steps. wp_call (device_free_spec c d x). iIntros ([] ?) "->".
    iApply (wp_wand with "[Hp Hds Hd]"); [iApply (IH _ _ (Some d0)); iFrame|]. iIntros (r x') "H". iExact "H".
  - wp_steps. wp_call (check_device_vid_pid_spec c d v q x). iIntros (r ?) "[%H Hc]".
    destruct H as [-> ->]. iDestruct "Hd" as %->. wp_steps.
    destruct (vid_pid_matches v q d) eqn:E; wp_steps.
    + iApply law_device_free_null.
      iApply (wp_wand with "[Hp Hds Hc]"); [iApply (IH _ _ (Some d)); iFrame|].
      iIntros (r x') "H". iExact "H".
    + wp_call (device_free_spec c d x). iIntros ([] ?) "->".
      iApply (wp_wand with "[Hp Hds]"); [iApply (IH _ _ None); by iFrame|].
      iIntros (r x') "H". iExact "H".
Qed.

Lemma device_list_not_null p (ds : list dev) :
  device_list p ds ⊢ ⌜is_null p = false⌝ ∧ device_list p ds.
Proof.
  iIntros "H". iSplit; [|done]. iDestruct "H" as (ps) "[Hp _]".
  by iDestruct (ptr_array_not_null with "Hp") as "[% _]".
Qed.

(** What the function should do. *)
Definition s_find_device (v q : Z) : Spec (option dev) :=
  ds ← s_list; mret (first_match v q ds).

Lemma libusbp_find_device_with_vid_pid_spec v q x :
  {{ emp }} libusbp_find_device_with_vid_pid v q true @ x {{ r x', leak x x' ∗
    ((∃ p ds, ⟪r = (NULL, Some p) ∧ roughly s_list x x' (inr ds)⟫ ∗
       opt_device_own p (first_match v q ds)) ∨
     (∃ got, ⟪r.2 = Some NULL ∧ roughly s_list x x' (inl got)⟫ ∗ err_own r.1 got)) }}.
Proof.
  iIntros "_". unfold libusbp_find_device_with_vid_pid, initialised. wp_steps.
  wp_call (law_list x).
  iIntros ([[e l] n] x1) "[Hleak [(%p & %ds & %H & Hds)|(%got & %H & He)]]"; cbn [fst snd] in H.
  - destruct H as ([= -> -> ->] & Hm). cbn [default].
    iDestruct (device_list_not_null with "Hds") as "[%Hp Hds]". wp_steps.
    iDestruct "Hds" as (ps) "[Harr Hds]". iDestruct (big_sepL2_length with "Hds") as %Hlen.
    rewrite -Hlen Nat2Z.id.
    iApply (wp_wand with "[Harr Hds]").
    { iApply (find_device_loop_spec p v q NULL None [] ps ds x1). by iFrame. }
    iIntros ([e d] ?) "(%H & Harr & Hd)". destruct H as [He ->]. cbn [fst snd] in *. subst e.
    wp_steps. wp_call (libusbp_list_free_spec p ps x1). iIntros ([] ?) "->". wp_steps.
    iFrame "Hleak". iLeft. iExists d, ds. by iFrame.
  - destruct H as (-> & -> & Hf). iDestruct (err_own_not_null with "He") as "[%Hn He]". wp_steps.
    cbn [default]. wp_steps. unfold libusbp_list_free. wp_steps.
    iFrame "Hleak". iRight. iExists got. by iFrame.
Qed.

Lemma first_match_matches v q ds d :
  first_match v q ds = Some d → d ∈ ds ∧ dev_vendor d = v ∧ dev_product d = q.
Proof.
  intros [Hin Hm]%List.find_some. split; [by apply list_elem_of_In|].
  unfold vid_pid_matches in Hm. apply andb_true_iff in Hm as [?%Z.eqb_eq ?%Z.eqb_eq]. done.
Qed.

Lemma s_find_device_ok v q x x' ds :
  roughly s_list x x' (inr ds) → roughly (s_find_device v q) x x' (inr (first_match v q ds)).
Proof. intros H. eapply roughly_seq; [done|]. split; [done|]. left. apply sret_eq. Qed.

(** C25. On every platform that keeps the promises [DeviceLaws] (Linux, macOS, and Windows as
    long as the hardware IDs do not change while they are read),
    [libusbp_find_device_with_vid_pid] returns the first device of the list with the vendor
    and product ID it was asked for, and only such a device (this even when allocations
    fail); every other device and the list are freed.  When there is none it returns no
    error and NULL, and the error of the listing when the listing fails.  Memory is lost
    only where the listing itself loses some, which needs a failed allocation. *)
Theorem libusbp_find_device_with_vid_pid_first v q x :
  {{ emp }} libusbp_find_device_with_vid_pid v q true @ x {{ r x', leak x x' ∗
    ((∃ p d, ⟪r = (NULL, Some p) ∧ dev_vendor d = v ∧ dev_product d = q ∧
              roughly (s_find_device v q) x x' (inr (Some d))⟫ ∗ device_own p d) ∨
     ⟪r = (NULL, Some NULL) ∧ roughly (s_find_device v q) x x' (inr None)⟫ ∨
     (∃ a, ⟪r.2 = Some NULL ∧ roughly (s_find_device v q) x x' (inl a)⟫ ∗ err_own r.1 a)) }}.
Proof.
  iIntros "_". iApply wp_wand; [by iApply libusbp_find_device_with_vid_pid_spec|].
  iIntros (r x') "[$ [(%p & %ds & %H & Hd)|(%got & %H & He)]]"; destruct H as [Hr Hm].
  - apply (s_find_device_ok v q) in Hm.
    destruct (first_match v q ds) as [d|] eqn:E; cbn [opt_device_own].
    + iLeft. iExists p, d. iFrame. iPureIntro.
      destruct (first_match_matches _ _ _ _ E) as (_ & ? & ?). done.
    + iRight. iLeft. iDestruct "Hd" as %->. by iPureIntro.
  - iRight. iRight. iExists got. iFrame. iPureIntro. split; [done|]. by apply roughly_fail.
Qed.
End specs.
