(* ===== verification/Cpp.v ===== *)
(** * Cpp: exceptions, objects, strings and streams of C++

    The layer of C++ that include/libusbp.hpp and the examples use on top of C.  A
    computation that may throw, [X A], is one of [M] that returns a value or an
    exception.  An object of a class that wraps a pointer is a slot of a block: a
    local variable has a block of its own, the elements of a vector share one.
    Constructors, destructors and the unwinding of the stack are written out. *)

From S2P Require Import Prelude Memory Logic Format Errors Results.
#[local] Set Warnings "-rewrite-rw".

(** ** Objects that hold one pointer *)

Record ref := Ref { ref_block : ptr; ref_index : Z }.

Definition get_pointer (r : ref) : M ptr := load_elem as_ptrs (ref_block r) (ref_index r).
Definition set_pointer (r : ref) (p : ptr) : M unit :=
  store_elem as_ptrs OPtrs (ref_block r) (ref_index r) p.

(** The storage of a local variable, and its end. *)
Definition new_storage : M ref := b ← new_block (OPtrs [None]); mret (Ref b 0).
Definition end_storage (r : ref) : M unit := release is_malloced (ref_block r).

(** ** Exceptions: [libusbp::error] objects, or [std::bad_alloc] *)

Inductive exn :=
  | Exn_error (e : ref)
  | Exn_bad_alloc.

Definition X (A : Type) : Type := M (exn + A).

#[export] Instance X_ret : MRet X := λ A a, (mret (inr a) : M (exn + A)).
#[export] Instance X_bind : MBind X := λ A B f m,
  (r ← (m : M (exn + A));
   match r with
   | inl e => (mret (inl e) : M (exn + B))
   | inr a => f a
   end : M (exn + B)).

Definition throw {A} (e : exn) : X A := (mret (inl e) : M (exn + A)).
Definition noexcept {A} (m : M A) : X A := (a ← m; mret (inr a) : M (exn + A)).

(** Run [d] when [m] is left, in any way, or only when it throws. *)
Definition finally {A} (m : X A) (d : M unit) : X A :=
  (r ← (m : M (exn + A)); d;; mret r : M (exn + A)).
Definition on_exception {A} (m : X A) (d : M unit) : X A :=
  (r ← (m : M (exn + A));
   match r with
   | inl e => d;; mret (inl e)
   | inr a => mret (inr a)
   end : M (exn + A)).

(** A local object that [construct] makes, during [body]. *)
Definition with_object {A} (construct : ref → X unit) (destroy : ref → M unit)
    (body : ref → X A) : X A :=
  this ← noexcept new_storage;
  finally (construct this;; finally (body this) (destroy this)) (end_storage this).

(** The exception object of a caught [libusbp::error] is destroyed at the end of the
    handler. *)
Definition destroy_exception (e : ref) : M unit :=
  p ← get_pointer e;
  libusbp_error_free p;;
  set_pointer e NULL;;
  end_storage e.

(** [catch (const libusbp::error & e)]: the handler returns [None] for [throw;]. *)
Definition catch_error {A} (m : X A) (handler : ref → X (option A)) : X A :=
  (r ← (m : M (exn + A));
   match r with
   | inl (Exn_error e) =>
       r' ← (handler e : M (exn + option A));
       match r' with
       | inr None => mret (inl (Exn_error e))
       | inr (Some a) => destroy_exception e;; mret (inr a)
       | inl e' => destroy_exception e;; mret (inl e')
       end
   | _ => mret r
   end : M (exn + A)).

(** [catch (const std::exception & e)], which catches everything there is, with a
    handler that does not throw. *)
Definition catch_exception {A} (m : X A) (handler : exn → M A) : M A :=
  r ← (m : M (exn + A));
  match r with
  | inl (Exn_error e) => a ← handler (Exn_error e); destroy_exception e;; mret a
  | inl Exn_bad_alloc => handler Exn_bad_alloc
  | inr a => mret a
  end.

(** ** [std::string]

    A string is its text.  Making one may need memory, and may throw. *)
Definition std_alloc : X unit :=
  b ← noexcept next_alloc;
  if b : bool then mret tt else (noexcept alloc_failed;; throw Exn_bad_alloc).

Definition std_string (p : ptr) : X string :=
  s ← noexcept (read_cstr p);
  std_alloc;;
  mret s.

Definition std_string_copy (s : string) : X string := std_alloc;; mret s.

(** ** Streams: the state of the formatting, and what is inserted *)

Record ostream := Ostream {
  os_hex : bool;
  os_left : bool;
  os_fill : ascii;
  os_width : nat
}.

(** [std::cout] at the start of a program. *)
Definition cout0 : ostream := Ostream false false " " 0.

Inductive out_item :=
  | Hex
  | Right
  | Left
  | SetFill (c : ascii)
  | SetW (n : nat)
  | OutInt (n : Z)
  | OutStr (s : string)
  | Endl.

Fixpoint repeat_char (c : ascii) (n : nat) : string :=
  match n with O => "" | S n => String c (repeat_char c n) end.

Definition padded (os : ostream) (s : string) : string :=
  let fill := repeat_char (os_fill os) (os_width os - String.length s) in
  if os_left os then s +:+ fill else fill +:+ s.

(** A formatted insertion uses the width up. *)
Definition used (os : ostream) : ostream := Ostream (os_hex os) (os_left os) (os_fill os) 0.

Definition insert (os : ostream) (i : out_item) : string * ostream :=
  match i with
  | Hex => ("", Ostream true (os_left os) (os_fill os) (os_width os))
  | Right => ("", Ostream (os_hex os) false (os_fill os) (os_width os))
  | Left => ("", Ostream (os_hex os) true (os_fill os) (os_width os))
  | SetFill c => ("", Ostream (os_hex os) (os_left os) c (os_width os))
  | SetW n => ("", Ostream (os_hex os) (os_left os) (os_fill os) n)
  | OutInt n => (padded os (if os_hex os then fmt_x 1 n else fmt_d n), used os)
  | OutStr s => (padded os s, used os)
  | Endl => (newline, os)
  end.

Fixpoint insert_all (os : ostream) (items : list out_item) : string * ostream :=
  match items with
  | [] => ("", os)
  | i :: items =>
      let '(s, os) := insert os i in
      let '(t, os) := insert_all os items in
      (s +:+ t, os)
  end.

(** [std::cout << ... << ...;] and the same for [std::cerr], which keeps no state that
    matters. *)
Definition cout (os : ostream) (items : list out_item) : M ostream :=
  let '(text, os) := insert_all os items in
  log_event (EvStdout text);;
  mret os.
Definition cerr (items : list out_item) : M unit :=
  log_event (EvStderr (insert_all cout0 items).1).

(** [flags()] and [flags(f)]: the base and the adjustment, not the fill. *)
Definition flags (os : ostream) : bool * bool := (os_hex os, os_left os).
Definition set_flags (os : ostream) (f : bool * bool) : ostream :=
  Ostream f.1 f.2 (os_fill os) (os_width os).

(** ** Rules *)

Section rules.
Context {A B : Type}.
Implicit Types (x : ext).
#[local] Transparent mret mbind.

Lemma wp_xret (a : A) x Q : Q (inr a) x ⊢ wp (mret a : X A) x Q.
Proof. apply (wp_ret (inr a)). Qed.

Lemma wp_throw e x Q : Q (inl e) x ⊢ wp (throw e : X A) x Q.
Proof. apply (wp_ret (inl e)). Qed.

Lemma wp_noexcept (m : M A) x Q : wp m x (λ a, Q (inr a)) ⊢ wp (noexcept m) x Q.
Proof.
  iIntros "H". iApply (wp_bind m). iApply (wp_wand with "H"). iIntros (a x') "H".
  by iApply (wp_ret (inr a)).
Qed.

Lemma wp_xbind (m : X A) (f : A → X B) x Q :
  wp m x (λ r x', match r with inl e => Q (inl e) x' | inr a => wp (f a) x' Q end) ⊢
  wp (m ≫= f) x Q.
Proof.
  iIntros "H". iApply (wp_bind (m : M _)). iApply (wp_wand with "H").
  iIntros ([e|a] x') "H"; [|done]. by iApply (wp_ret (inl e)).
Qed.

Lemma wp_finally (m : X A) d x Q :
  wp m x (λ r x', wp d x' (λ _, Q r)) ⊢ wp (finally m d) x Q.
Proof.
  iIntros "H". iApply (wp_bind (m : M _)). iApply (wp_wand with "H"). iIntros (r x') "H".
  iApply wp_bind. iApply (wp_wand with "H"). iIntros (? x2) "H". by iApply wp_ret.
Qed.

Lemma wp_on_exception (m : X A) d x Q :
  wp m x (λ r x', match r with inl e => wp d x' (λ _, Q (inl e)) | inr a => Q (inr a) x' end) ⊢
  wp (on_exception m d) x Q.
Proof.
  iIntros "H". iApply (wp_bind (m : M _)). iApply (wp_wand with "H"). iIntros ([e|a] x') "H".
  - iApply wp_bind. iApply (wp_wand with "H"). iIntros (? x2) "H". by iApply wp_ret.
  - by iApply wp_ret.
Qed.

End rules.

Lemma wp_ungroup {A B C} (m : M A) (f : A → M B) (g : B → M C) x Q :
  wp (m ≫= λ a, f a ≫= g) x Q ⊢ wp ((m ≫= f) ≫= g) x Q.
Proof. split; intros h H w hf Hd Hw Hx. rewrite bind_assoc. by apply H. Qed.

Section objects.
Context {A : Type}.
#[local] Transparent mret mbind.

Lemma wp_with_object (construct : ref → X unit) destroy (body : ref → X A) x Q :
  (∀ l, l ↦ OPtrs [None] -∗
     wp (construct (Ref (Heap l) 0)) x (λ r x1,
       match r with
       | inl e => wp (end_storage (Ref (Heap l) 0)) x1 (λ _, Q (inl e))
       | inr _ =>
           wp (body (Ref (Heap l) 0)) x1 (λ r x2,
             wp (destroy (Ref (Heap l) 0)) x2 (λ _ x3,
               wp (end_storage (Ref (Heap l) 0)) x3 (λ _, Q r)))
       end)) ⊢
  wp (with_object construct destroy body) x Q.
Proof.
  iIntros "H". iApply (wp_bind (noexcept new_storage : M _)). iApply wp_noexcept.
  iApply wp_bind. iApply wp_new_block. iIntros (l) "Hl". iApply wp_ret.
  iApply (wp_bind (_ : M _)). iApply (wp_bind (construct _ : M _)).
  iApply (wp_wand with "[H Hl]"); [by iApply "H"|]. iIntros ([e|[]] x1) "H".
  - iApply (wp_ret (inl e)). iApply wp_bind. iApply (wp_wand with "H"). iIntros (? x2) "H".
    by iApply wp_ret.
  - iApply wp_finally. iApply (wp_wand with "H"). iIntros (r x2) "H".
    iApply (wp_wand with "H"). iIntros (? x3) "H". iApply wp_bind.
    iApply (wp_wand with "H"). iIntros (? x4) "H". by iApply wp_ret.
Qed.
End objects.

(** The blocks of variables. *)
Section slots.
Implicit Types (x : ext) (l : loc) (ps : list (option ptr)).

Lemma wp_get_pointer l ps i p x Q :
  ps !! i = Some (Some p) →
  l ↦ OPtrs ps -∗ (l ↦ OPtrs ps -∗ Q p x) -∗ wp (get_pointer (Ref (Heap l) (Z.of_nat i))) x Q.
Proof.
  iIntros (Hi) "Hl HQ". unfold get_pointer. cbn [ref_block ref_index].
  iApply (wp_load_elem with "Hl"); [done|lia|by rewrite Nat2Z.id|done].
Qed.

Lemma wp_set_pointer l ps i p x Q :
  (i < List.length ps)%nat →
  l ↦ OPtrs ps -∗ (l ↦ OPtrs (<[i := Some p]> ps) -∗ Q tt x) -∗
  wp (set_pointer (Ref (Heap l) (Z.of_nat i)) p) x Q.
Proof.
  iIntros (Hi) "Hl HQ". unfold set_pointer. cbn [ref_block ref_index].
  iApply (wp_store_elem with "Hl"); [done|lia|]. by rewrite Nat2Z.id.
Qed.

(** A variable that holds [p]. *)
Definition slot (r : ref) (p : ptr) : hProp :=
  (∃ l, ⟪r = Ref (Heap l) 0⟫ ∗ l ↦ OPtrs [Some p])%I.

Lemma slot_get r p x Q : slot r p -∗ (slot r p -∗ Q p x) -∗ wp (get_pointer r) x Q.
Proof.
  iIntros "(%l & -> & Hl) HQ". iApply (wp_get_pointer l [Some p] 0 with "Hl"); [done|].
  iIntros "Hl". iApply "HQ". iExists l. by iFrame.
Qed.

Lemma slot_set r p q x Q : slot r p -∗ (slot r q -∗ Q tt x) -∗ wp (set_pointer r q) x Q.
Proof.
  iIntros "(%l & -> & Hl) HQ". iApply (wp_set_pointer l [Some p] 0 with "Hl"); [cbn; lia|].
  iIntros "Hl". iApply "HQ". iExists l. by iFrame.
Qed.

Lemma slot_init l p x Q :
  l ↦ OPtrs [None] -∗ (slot (Ref (Heap l) 0) p -∗ Q tt x) -∗ wp (set_pointer (Ref (Heap l) 0) p) x Q.
Proof.
  iIntros "Hl HQ". iApply (wp_set_pointer l [None] 0 with "Hl"); [cbn; lia|].
  iIntros "Hl". iApply "HQ". iExists l. by iFrame.
Qed.

Lemma slot_end r p x Q : slot r p -∗ Q tt x -∗ wp (end_storage r) x Q.
Proof. iIntros "(%l & -> & Hl) HQ". by iApply (wp_release with "Hl"). Qed.

Lemma storage_end l x Q : l ↦ OPtrs [None] -∗ Q tt x -∗ wp (end_storage (Ref (Heap l) 0)) x Q.
Proof. iIntros "Hl HQ". by iApply (wp_release with "Hl"). Qed.
End slots.

(** ** Memory for a string *)

Lemma wp_std_alloc x Q :
  Q (inr tt) x ∧ (∀ x', ⌜quiet x x' ∧ oomed x x'⌝ → Q (inl Exn_bad_alloc) x') ⊢ wp std_alloc x Q.
Proof.
  iIntros "H". iApply wp_xbind. iApply wp_noexcept. iApply wp_next_alloc. iIntros ([]).
  - iApply wp_xret. iDestruct "H" as "[H _]". done.
  - iApply wp_xbind. iApply wp_noexcept. unfold alloc_failed. iApply wp_bind.
    iApply wp_get_ext. iApply wp_put_ext. iApply wp_throw. iDestruct "H" as "[_ H]".
    iApply "H". iPureIntro. ext_tac.
Qed.

(** ** Handlers *)

Lemma wp_catch_error {A} (m : X A) (handler : ref → X (option A)) x Q :
  wp m x (λ r x1,
    match r with
    | inl (Exn_error e) =>
        wp (handler e) x1 (λ r' x2,
          match r' with
          | inr None => Q (inl (Exn_error e)) x2
          | inr (Some a) => wp (destroy_exception e) x2 (λ _, Q (inr a))
          | inl e' => wp (destroy_exception e) x2 (λ _, Q (inl e'))
          end)
    | inl Exn_bad_alloc => Q (inl Exn_bad_alloc) x1
    | inr a => Q (inr a) x1
    end) ⊢ wp (catch_error m handler) x Q.
Proof.
  iIntros "H". iApply (wp_bind (m : M _)). iApply (wp_wand with "H").
  iIntros ([[e|]|a] x1) "H"; [|by iApply wp_ret..].
  iApply (wp_bind (handler e : M _)). iApply (wp_wand with "H").
  iIntros ([e'|[a|]] x2) "H"; [..|by iApply wp_ret].
  all: iApply wp_bind; iApply (wp_wand with "H"); iIntros (? x3) "H"; by iApply wp_ret.
Qed.

Lemma wp_catch_exception {A} (m : X A) (handler : exn → M A) x Q :
  wp m x (λ r x1,
    match r with
    | inl (Exn_error e) =>
        wp (handler (Exn_error e)) x1 (λ a x2, wp (destroy_exception e) x2 (λ _, Q a))
    | inl Exn_bad_alloc => wp (handler Exn_bad_alloc) x1 Q
    | inr a => Q a x1
    end) ⊢ wp (catch_exception m handler) x Q.
Proof.
  iIntros "H". iApply (wp_bind (m : M _)). iApply (wp_wand with "H").
  iIntros ([[e|]|a] x1) "H"; [|done|by iApply wp_ret].
  iApply wp_bind. iApply (wp_wand with "H"). iIntros (a x2) "H".
  iApply wp_bind. iApply (wp_wand with "H"). iIntros (? x3) "H". by iApply wp_ret.
Qed.

(** ** Output *)
Lemma wp_cout os items x Q :
  Q (insert_all os items).2 (Ext (EvStdout (insert_all os items).1 :: x_trace x) (x_errno x) (x_oom x))
  ⊢ wp (cout os items) x Q.
Proof.
  iIntros "H". unfold cout. destruct (insert_all os items) as [text os'].
  iApply wp_bind. iApply wp_log_event. by iApply wp_ret.
Qed.

(** One step of a computation that may throw. *)
Ltac xstep :=
  lazymatch goal with
  | |- envs_entails _ (wp ?m _ _) =>
      lazymatch m with
      | @mbind X _ _ _ _ _ => iApply wp_xbind
      | @mret X _ _ _ => iApply wp_xret
      | noexcept _ => iApply wp_noexcept
      | throw _ => iApply wp_throw
      | finally _ _ => iApply wp_finally
      | on_exception _ _ => iApply wp_on_exception
      | get_pointer _ => iApply (slot_get with "[$]"); iIntros "?"
      | set_pointer _ _ => iApply (slot_set with "[$]"); iIntros "?"
      | _ => wp_step
      end
  end; wp_simpl; wp_nulls.
Ltac xsteps := wp_simpl; wp_nulls; repeat xstep.
