(* ===== verification/Wrapper.v ===== *)
(** * Wrapper: the C++ API (include/libusbp.hpp)

    The class templates that own a C object, with C++'s copy and move operations, and
    the classes derived from them.  A method that returns an object constructs it in
    the storage [result] of the caller.  The overloads of [pointer_free] and
    [pointer_copy] are arguments of the templates. *)

From S2P Require Import Prelude Memory Logic Errors Results Basics Strings AsyncTransfer AsyncPipe Api FindDevice Cpp.
#[local] Set Warnings "-rewrite-rw".

(** ** [unique_pointer_wrapper] *)

Section unique_pointer_wrapper.
Variable pointer_free : ptr → M unit.

(** The constructor that takes a pointer. *)
Definition construct (this : ref) (p : ptr) : M unit := set_pointer this p.

Definition operator_bool (this : ref) : M bool :=
  p ← get_pointer this;
  mret (negb (is_null p)).

Definition pointer_get (this : ref) : M ptr := get_pointer this.

Definition pointer_reset (this : ref) (p : ptr) : M unit :=
  pointer ← get_pointer this;
  pointer_free pointer;;
  set_pointer this p.

Definition pointer_release (this : ref) : M ptr :=
  p ← get_pointer this;
  set_pointer this NULL;;
  mret p.

Definition pointer_to_pointer_get (this : ref) : M ref := mret this.

(** The move constructor, the move assignment, the destructor. *)
Definition move_construct (this other : ref) : M unit :=
  p ← pointer_release other;
  set_pointer this p.

Definition move_assign (this other : ref) : M unit :=
  p ← pointer_release other;
  pointer_reset this p.

Definition destroy (this : ref) : M unit := pointer_reset this NULL.

(** ** [unique_pointer_wrapper_with_copy] *)

Variable pointer_copy : ptr → X ptr.

Definition copy_construct (this other : ref) : X unit :=
  noexcept (construct this NULL);;
  on_exception
    (p ← noexcept (pointer_get other);
     copy ← pointer_copy p;
     noexcept (set_pointer this copy))
    (destroy this).

Definition copy_assign (this other : ref) : X unit :=
  p ← noexcept (pointer_get other);
  copy ← pointer_copy p;
  noexcept (pointer_reset this copy).
End unique_pointer_wrapper.

(** ** [error] *)

Definition error_what (this : ref) : M ptr :=
  p ← pointer_get this;
  libusbp_error_get_message p.

Definition error_message (this : ref) : X string :=
  s ← noexcept (error_what this);
  std_string s.

Definition error_has_code (this : ref) (error_code : Z) : M bool :=
  p ← pointer_get this;
  libusbp_error_has_code p error_code.

Definition throw_if_needed (err : ptr) : X unit :=
  if negb (is_null err) then
    e ← noexcept new_storage;
    noexcept (construct e err);;
    throw (Exn_error e)
  else mret tt.

(** A C function that stores an object through its last parameter. *)
Definition call_out {A} (m : M (ptr * option A)) : X A :=
  '(err, out) ← noexcept m;
  throw_if_needed err;;
  noexcept (initialised out).

(** The getters of strings: the [std::string] is made before the C string is freed. *)
Definition get_string (getter : ptr → bool → M (ptr * option ptr)) (this : ref) : X string :=
  pointer ← noexcept (pointer_get this);
  str ← call_out (getter pointer true);
  s ← std_string str;
  noexcept (libusbp_string_free str);;
  mret s.

Definition get_number (getter : ptr → bool → M (ptr * option Z)) (this : ref) : X Z :=
  pointer ← noexcept (pointer_get this);
  call_out (getter pointer true).

(** A constructor that creates a C object: the base class starts with NULL, and is
    destroyed when the constructor throws. *)
Definition construct_from (pointer_free : ptr → M unit) (this : ref) (m : M (ptr * option ptr)) :
    X unit :=
  noexcept (construct this NULL);;
  on_exception
    ('(err, out) ← noexcept m;
     noexcept (match out with Some p => set_pointer this p | None => mret tt end);;
     throw_if_needed err)
    (destroy pointer_free this).

(** ** [std::vector] of such objects

    The vector is a slot with a pointer to its elements, or NULL. *)
Definition vector_construct (this : ref) : M unit := set_pointer this NULL.

Definition vector_elements (this : ref) : M (list (option ptr)) :=
  data ← get_pointer this;
  if is_null data then mret [] else load_as as_ptrs data.

(** The elements move to a larger block, and [other] is moved behind them. *)
Definition vector_push_back (this other : ref) : X unit :=
  data ← noexcept (get_pointer this);
  old ← noexcept (vector_elements this);
  let n := Z.of_nat (List.length old) in
  new_data ← noexcept (malloc (sizeof_ptr * (n + 1)) (OPtrs (old ++ [None])));
  if is_null new_data then throw Exn_bad_alloc else
  noexcept (move_construct (Ref new_data n) other);;
  noexcept (free data);;
  noexcept (set_pointer this new_data).

Fixpoint vector_destroy_loop (pointer_free : ptr → M unit) (data : ptr) (i : Z) (n : nat) : M unit :=
  match n with
  | O => mret tt
  | S n => destroy pointer_free (Ref data i);; vector_destroy_loop pointer_free data (i + 1) n
  end.

Definition vector_destroy (pointer_free : ptr → M unit) (this : ref) : M unit :=
  data ← get_pointer this;
  elements ← vector_elements this;
  vector_destroy_loop pointer_free data 0 (List.length elements);;
  free data.

(** ** [device] *)

Section device.
Context `{A : DeviceApi}.

Definition device_pointer_copy (pointer : ptr) : X ptr := call_out (libusbp_device_copy pointer true).

Definition device_get_vendor_id : ref → X Z := get_number libusbp_device_get_vendor_id.
Definition device_get_product_id : ref → X Z := get_number libusbp_device_get_product_id.
Definition device_get_revision : ref → X Z := get_number libusbp_device_get_revision.
Definition device_get_serial_number : ref → X string := get_string libusbp_device_get_serial_number.
Definition device_get_os_id : ref → X string := get_string libusbp_device_get_os_id.

(** [for(size_t i = 0; i < size; i++)], [n] rounds left. *)
Fixpoint push_back_loop (device_list : ptr) (vector : ref) (i : Z) (n : nat) : X unit :=
  match n with
  | O => mret tt
  | S n =>
      p ← noexcept (load_elem as_ptrs device_list i);
      with_object (λ temporary, noexcept (construct temporary p)) (destroy libusbp_device_free)
        (vector_push_back vector);;
      push_back_loop device_list vector (i + 1) n
  end.

Definition list_connected_devices (result : ref) : X unit :=
  '(err, device_list, size) ← noexcept (libusbp_list_connected_devices true true);
  throw_if_needed err;;
  device_list ← noexcept (initialised device_list);
  size ← noexcept (initialised size);
  noexcept (vector_construct result);;
  on_exception
    (push_back_loop device_list result 0 (Z.to_nat size);;
     noexcept (libusbp_list_free device_list))
    (vector_destroy libusbp_device_free result).

Definition find_device_with_vid_pid (vendor_id product_id : Z) (result : ref) : X unit :=
  device_pointer ← call_out (libusbp_find_device_with_vid_pid vendor_id product_id true);
  noexcept (construct result device_pointer).
End device.

(** ** [generic_interface] *)

Section generic_interface.
Context `{A : DeviceApi} `{I : GenericInterfaceApi}.

Definition generic_interface_pointer_copy (pointer : ptr) : X ptr :=
  call_out (libusbp_generic_interface_copy pointer true).

Definition generic_interface_construct (device : ref) (interface_number : Z) (composite : bool)
    (this : ref) : X unit :=
  d ← noexcept (pointer_get device);
  construct_from libusbp_generic_interface_free this
    (libusbp_generic_interface_create d interface_number composite true).

Definition generic_interface_get_os_id : ref → X string :=
  get_string libusbp_generic_interface_get_os_id.
Definition generic_interface_get_os_filename : ref → X string :=
  get_string libusbp_generic_interface_get_os_filename.
End generic_interface.

(** ** [generic_handle] *)

Section generic_handle.
Context `{H : GenericHandleApi}.

Definition generic_handle_construct (gi : ref) (this : ref) : X unit :=
  g ← noexcept (pointer_get gi);
  construct_from libusbp_generic_handle_close this (libusbp_generic_handle_open g true).

Definition generic_handle_close (this : ref) : M unit :=
  pointer_reset libusbp_generic_handle_close this NULL.

Definition generic_handle_open_async_in_pipe (this : ref) (pipe_id : Z) (result : ref) : X unit :=
  pointer ← noexcept (pointer_get this);
  pipe ← call_out (libusbp_generic_handle_open_async_in_pipe pointer pipe_id true);
  noexcept (construct result pipe).

Definition generic_handle_set_timeout (this : ref) (pipe_id timeout : Z) : X unit :=
  pointer ← noexcept (pointer_get this);
  err ← noexcept (libusbp_generic_handle_set_timeout pointer pipe_id timeout);
  throw_if_needed err.

(** What is stored in [*transferred] is lost when the method throws; a caller that looks
    at it then is not modelled. *)
Definition generic_handle_control_transfer (this : ref) (bmRequestType bRequest wValue wIndex : Z)
    (buffer : ptr) (wLength : Z) (transferred : bool) : X (option Z) :=
  pointer ← noexcept (pointer_get this);
  '(err, t) ← noexcept (libusbp_control_transfer pointer bmRequestType bRequest wValue wIndex
                          buffer wLength transferred);
  throw_if_needed err;;
  mret t.

Definition generic_handle_write_pipe (this : ref) (pipe_id : Z) (buffer : ptr) (size : Z)
    (transferred : bool) : X (option Z) :=
  pointer ← noexcept (pointer_get this);
  '(err, t) ← noexcept (libusbp_write_pipe pointer pipe_id buffer size transferred);
  throw_if_needed err;;
  mret t.

Definition generic_handle_read_pipe (this : ref) (pipe_id : Z) (buffer : ptr) (size : Z)
    (transferred : bool) : X (option Z) :=
  pointer ← noexcept (pointer_get this);
  '(err, t) ← noexcept (libusbp_read_pipe pointer pipe_id buffer size transferred);
  throw_if_needed err;;
  mret t.
End generic_handle.

(** ** [async_in_pipe] *)

Section async_in_pipe.
Context `{TR : AsyncTransfers}.

Definition pipe_call (this : ref) (f : ptr → M ptr) : X unit :=
  pointer ← noexcept (pointer_get this);
  err ← noexcept (f pointer);
  throw_if_needed err.

Definition async_in_pipe_allocate_transfers (this : ref) (transfer_count transfer_size : Z) : X unit :=
  pipe_call this (λ p, libusbp_async_in_pipe_allocate_transfers p transfer_count transfer_size).
Definition async_in_pipe_start_endless_transfers (this : ref) : X unit :=
  pipe_call this libusbp_async_in_pipe_start_endless_transfers.
Definition async_in_pipe_handle_events (this : ref) : X unit :=
  pipe_call this libusbp_async_in_pipe_handle_events.
Definition async_in_pipe_cancel_transfers (this : ref) : X unit :=
  pipe_call this libusbp_async_in_pipe_cancel_transfers.

Definition async_in_pipe_has_pending_transfers (this : ref) : X bool :=
  pointer ← noexcept (pointer_get this);
  call_out (libusbp_async_in_pipe_has_pending_transfers pointer true).

(** The value, and what is stored in [*transferred]; the error of the transfer goes to
    the object [transfer_error], whose old error is freed first. *)
Definition async_in_pipe_handle_finished_transfer (this : ref) (buffer : ptr) (transferred : bool)
    (transfer_error : option ref) : X (bool * option Z) :=
  noexcept (match transfer_error with
            | Some e => pointer_reset libusbp_error_free e NULL
            | None => mret tt
            end);;
  pointer ← noexcept (pointer_get this);
  '(err, finished, t, error_out) ←
    noexcept (libusbp_async_in_pipe_handle_finished_transfer pointer true buffer transferred
                (if transfer_error then true else false));
  noexcept (match transfer_error, error_out with
            | Some e, Some p => set_pointer e p
            | _, _ => mret tt
            end);;
  throw_if_needed err;;
  finished ← noexcept (initialised finished);
  mret (finished, t).
End async_in_pipe.

(** ** [serial_port] *)

Section serial_port.
Context `{A : DeviceApi} `{S : SerialPortApi}.

Definition serial_port_pointer_copy (pointer : ptr) : X ptr :=
  call_out (libusbp_serial_port_copy pointer true).

Definition serial_port_construct (device : ref) (interface_number : Z) (composite : bool)
    (this : ref) : X unit :=
  d ← noexcept (pointer_get device);
  construct_from libusbp_serial_port_free this
    (libusbp_serial_port_create d interface_number composite true).

Definition serial_port_get_name : ref → X string := get_string libusbp_serial_port_get_name.
End serial_port.

(** ** What the C++ code does

    An exception object with the error [got]; what a computation specified by [s] came
    to: a value, an exception with the error of [s], or [std::bad_alloc].  Memory is
    lost at most when an allocation failed. *)
Definition error_object (e : ref) (got : aerr) : hProp := (∃ p, slot e p ∗ err_own p got)%I.

Definition threw {B} (s : Spec B) (x x' : ext) (e : exn) : hProp :=
  match e with
  | Exn_error r => ∃ got, ⟪roughly s x x' (inl got)⟫ ∗ error_object r got
  | Exn_bad_alloc => ⟪calm x x' ∧ oomed x x'⟫
  end%I.

Definition outcome_of {A B} (s : Spec B) (x x' : ext) (r : exn + A) (ok : A → B → hProp) : hProp :=
  (leak x x' ∗
   match r with
   | inr a => ∃ b, ⟪roughly s x x' (inr b)⟫ ∗ ok a b
   | inl e => threw s x x' e
   end)%I.

Definition same {A} (a b : A) : hProp := ⟪a = b⟫%I.

Section outcomes.
Context {A B : Type}.
Implicit Types (s : Spec B) (x : ext) (ok : A → B → hProp).

Lemma threw_calm s x x' e : threw s x x' e ⊢ ⌜calm x x'⌝ ∧ threw s x x' e.
Proof.
  iIntros "H". iSplit; [|done]. destruct e as [r|]; cbn [threw].
  - by iDestruct "H" as (got) "[[%Hc _] _]".
  - by iDestruct "H" as "[% _]".
Qed.

Lemma outcome_ok s x x' a b ok :
  roughly s x x' (inr b) → ok a b ⊢ outcome_of s x x' (inr a) ok.
Proof. iIntros (H) "H". iSplitR; [iApply leak_none|]. iExists b. by iFrame. Qed.

Lemma outcome_bad_alloc s x x1 x' (R : hProp) ok :
  calm x x1 → calm x1 x' → oomed x1 x' → R ⊢ outcome_of s x x' (inl Exn_bad_alloc) ok.
Proof.
  iIntros (Hc Hc' Ho) "H". assert (oomed x x') by by eapply oomed_r. iSplitL "H".
  - iApply (leak_oomed); [done|]. by iStopProof; iIntros "_".
  - iPureIntro. split; [by etrans|done].
Qed.
End outcomes.

(** Passing a stage. *)
Lemma outcome_step {A B B'} (s : Spec B) (f : B → Spec B') x x1 x' b (r : exn + A) ok :
  roughly s x x1 (inr b) →
  leak x x1 ∗ outcome_of (f b) x1 x' r ok ⊢ outcome_of (s ≫= f) x x' r ok.
Proof.
  iIntros (Hs) "[Hl [Hl' H]]". pose proof Hs as [Hc _]. destruct r as [e|a].
  - iDestruct (threw_calm with "H") as "[%Hc' H]". iSplitL "Hl Hl'".
    { iApply (leak_trans _ _ _ Hc Hc'). iFrame. }
    destruct e as [r|]; cbn [threw].
    + iDestruct "H" as (got) "[%Hg H]". iExists got. iFrame. iPureIntro. by eapply roughly_seq.
    + iDestruct "H" as %[_ Ho]. iPureIntro. split; [by etrans|by eapply oomed_r].
  - iDestruct "H" as (b') "[%Hb H]". pose proof Hb as [Hc' _]. iSplitL "Hl Hl'".
    { iApply (leak_trans _ _ _ Hc Hc'). iFrame. }
    iExists b'. iFrame. iPureIntro. by eapply roughly_seq.
Qed.

Lemma outcome_fail {A B B'} (s : Spec B) (f : B → Spec B') x x' e ok :
  leak x x' ∗ threw s x x' e ⊢ outcome_of (s ≫= f) x x' (inl e : exn + A) ok.
Proof.
  iIntros "[$ H]". destruct e as [r|]; cbn [threw]; [|done].
  iDestruct "H" as (got) "[%Hg H]". iExists got. iFrame. iPureIntro. by apply roughly_fail.
Qed.

(** Two computations in sequence; [R] is what both use. *)
Lemma wp_outcome_bind {A A' B B'} (m : X A) (k : A → X A') (s : Spec B) (f : B → Spec B') x
    (R : hProp) ok ok' :
  (∀ a b x1, roughly s x x1 (inr b) →
     {{ R ∗ ok a b }} k a @ x1 {{ r x', R ∗ outcome_of (f b) x1 x' r ok' }}) →
  wp m x (λ r x1, R ∗ outcome_of s x x1 r ok) ⊢
  wp (m ≫= k) x (λ r x', R ∗ outcome_of (s ≫= f) x x' r ok').
Proof.
  iIntros (Hk) "Hm". iApply wp_xbind. iApply (wp_wand with "Hm").
  iIntros ([e|a] x1) "[HR [Hl H]]".
  - iFrame "HR". iApply outcome_fail. iFrame.
  - iDestruct "H" as (b) "[%Hb H]". iApply (wp_wand with "[HR H]").
    { iApply Hk; [done|]. iFrame. }
    iIntros (r x') "[$ H]". iApply (outcome_step _ _ _ _ _ _ _ _ Hb). iFrame.
Qed.

Lemma wp_throw_if_null x Q : Q (inr tt) x ⊢ wp (throw_if_needed NULL) x Q.
Proof. iApply wp_xret. Qed.

Lemma wp_throw_if_error e got x Q :
  err_own e got -∗ (∀ r, error_object r got -∗ Q (inl (Exn_error r)) x) -∗
  wp (throw_if_needed e) x Q.
Proof.
  iIntros "He HQ". iDestruct (err_own_not_null with "He") as "[%Hn He]".
  unfold throw_if_needed. rewrite Hn. cbn [negb]. iApply wp_xbind. iApply wp_noexcept.
  iApply wp_bind. iApply wp_new_block. iIntros (l) "Hl". iApply wp_ret.
  iApply wp_xbind. iApply wp_noexcept. iApply (slot_init with "Hl"). iIntros "Hl".
  iApply wp_throw. iApply "HQ". iExists e. iFrame.
Qed.

(** The end of the handler of an exception. *)
Lemma destroy_exception_spec e got x :
  {{ error_object e got }} destroy_exception e @ x {{ r x', ⟪x' = x⟫ }}.
Proof.
  iIntros "(%p & Hs & He)". unfold destroy_exception. xsteps.
  wp_call (libusbp_error_free_spec p (Some got) x). iIntros ([] ?) "->". xsteps.
  iApply (slot_end with "[$]"). by iPureIntro.
Qed.

Lemma error_has_code_spec e got c x :
  {{ error_object e got }} error_has_code e c @ x {{ r x',
    ⟪r = bool_decide (c ∈ codes got) ∧ x' = x⟫ ∗ error_object e got }}.
Proof.
  iIntros "(%p & Hs & He)". unfold error_has_code, pointer_get. xsteps.
  iApply (wp_wand with "[He]"); [by iApply (libusbp_error_has_code_spec p got c x)|].
  iIntros (r x') "[$ He]". iExists p. iFrame.
Qed.

Lemma error_what_spec e got x :
  {{ error_object e got }} (s ← error_what e; read_cstr s) @ x {{ r x',
    ⟪r = msg got ∧ x' = x⟫ ∗ error_object e got }}.
Proof.
  iIntros "(%p & Hs & He)". unfold error_what, pointer_get. iApply wp_ungroup.
  iApply wp_bind. iApply (slot_get with "Hs"). iIntros "Hs".
  iApply (wp_wand with "[He]"); [by iApply (libusbp_error_get_message_spec p got x)|].
  iIntros (r x') "[$ He]". iExists p. iFrame.
Qed.

(** Calling a C function, and throwing its error. *)
Lemma call_out_spec {A B} (m : M (ptr * option A)) (s : Spec B) (P R : hProp) ok (ok' : A → B → hProp)
    bad x :
  ({{ P }} m @ x {{ r x', R ∗ returns s x x' r.1 (ok r.2) (bad r.2) }}) →
  (∀ o b, ok o b ⊢ ∃ a, ⟪o = Some a⟫ ∗ ok' a b) → (∀ o, bad o ⊢ emp) →
  {{ P }} call_out m @ x {{ r x', R ∗ outcome_of s x x' r ok' }}.
Proof.
  iIntros (Hm Hok Hbad) "HP". unfold call_out. iApply wp_xbind. iApply wp_noexcept.
  iApply (use_triple _ _ _ _ _ Hm with "HP"). iIntros ([e o] x1) "[HR H]".
  iDestruct (returns_roughly with "H") as "[(%b & %Hb & H)|(%got & %Hf & He & Hb)]"; cbn [fst snd] in *.
  - destruct Hb as [-> Hb]. iDestruct (Hok with "H") as (a) "[-> H]".
    iApply wp_xbind. iApply wp_throw_if_null. iApply wp_noexcept. iApply wp_ret. iFrame "HR".
    by iApply outcome_ok.
  - iDestruct (Hbad with "Hb") as "_". iApply wp_xbind. iApply (wp_throw_if_error with "He").
    iIntros (r) "He". iFrame "HR". iSplitR; [iApply leak_none|]. iExists got. by iFrame.
Qed.

(** A pointer that can be read from a variable, or from an element of a vector. *)
Definition reads_pointer (R : hProp) (this : ref) (p : ptr) : Prop :=
  ∀ x Q, R -∗ (R -∗ Q p x) -∗ wp (get_pointer this) x Q.

Lemma reads_slot r p : reads_pointer (slot r p) r p.
Proof. iIntros (x Q) "H HQ". by iApply (slot_get with "H"). Qed.

Lemma reads_element l ps i p :
  ps !! i = Some p → reads_pointer (l ↦ OPtrs (Some <$> ps))%I (Ref (Heap l) (Z.of_nat i)) p.
Proof.
  iIntros (Hi x Q) "H HQ". iApply (wp_get_pointer with "H"); [|done].
  by rewrite list_lookup_fmap Hi.
Qed.

Lemma reads_pointer_frame R S r p : reads_pointer R r p → reads_pointer (R ∗ S)%I r p.
Proof.
  iIntros (H x Q) "[HR HS] HQ". iApply (H with "HR"). iIntros "HR". iApply "HQ". iFrame.
Qed.

Section getters.
Context {D : Type} (own : ptr → D → hProp).

Lemma get_number_spec getter value R this p d x :
  reads_pointer R this p →
  ({{ own p d }} getter p true @ x {{ r x', ⟪r = (NULL, Some value) ∧ x' = x⟫ ∗ own p d }}) →
  {{ R ∗ own p d }} get_number getter this @ x {{ r x', ⟪r = inr value ∧ x' = x⟫ ∗ R ∗ own p d }}.
Proof.
  iIntros (Hr Hg) "[HR Hd]". unfold get_number, call_out. iApply wp_xbind. iApply wp_noexcept.
  iApply (Hr with "HR"). iIntros "HR". iApply wp_xbind. iApply wp_noexcept.
  iApply (use_triple _ _ _ _ _ Hg with "Hd"). iIntros (r x') "[%H Hd]". destruct H as [-> ->].
  iApply wp_xbind. iApply wp_throw_if_null. iApply wp_noexcept. iApply wp_ret. by iFrame.
Qed.

Lemma string_getter_spec getter (s : Spec string) R this p d x :
  reads_pointer R this p →
  ({{ own p d }} getter p true @ x {{ r x',
     own p d ∗ returns s x x' r.1 (out_str r.2) ⟪r.2 = Some NULL⟫ }}) →
  {{ R ∗ own p d }} get_string getter this @ x {{ r x',
    (R ∗ own p d) ∗ outcome_of s x x' r same }}.
Proof.
  iIntros (Hr Hg) "[HR Hd]".
  assert (Hc : {{ own p d }} call_out (getter p true) @ x {{ r x',
    own p d ∗ outcome_of s x x' r str_own }}).
  { by eapply (call_out_spec _ _ _ _ out_str _ (λ o, ⟪o = Some NULL⟫%I)); [|done|iIntros (o) "_"]. }
  unfold get_string. iApply wp_xbind. iApply wp_noexcept.
  iApply (Hr with "HR"). iIntros "HR". iApply wp_xbind.
  iApply (use_triple _ _ _ _ _ Hc with "Hd").
  iIntros ([e|q] x1) "[Hd [Hl H]]"; [by iFrame|]. iDestruct "H" as (t) "[%Ht Hq]".
  pose proof Ht as [Hcalm _]. unfold std_string. iApply wp_xbind. iApply wp_xbind. iApply wp_noexcept.
  iApply (reads_str with "Hq"). iIntros "Hq". iApply wp_xbind. iApply wp_std_alloc. iSplit.
  - iApply wp_xret. iApply wp_xbind. iApply wp_noexcept. wp_call (free_str q t x1).
    iIntros ([] ?) "->". iApply wp_xret. iFrame. iExists t. by iPureIntro.
  - iIntros (x2 [Hq Ho]). iFrame "HR Hd". iCombine "Hl Hq" as "H".
    by iApply (outcome_bad_alloc with "H"); [done|apply quiet_calm|].
Qed.
End getters.

(** ** Objects with a scope *)

(** The storage of a variable whose object is not constructed, or destroyed. *)
Definition storage (this : ref) : hProp := (∃ l ps, ⟪this = Ref (Heap l) 0⟫ ∗ l ↦ OPtrs ps)%I.

Lemma slot_storage this p : slot this p ⊢ storage this.
Proof. iIntros "(%l & -> & Hl)". iExists l, _. by iFrame. Qed.

Lemma storage_release this x Q : storage this -∗ Q tt x -∗ wp (end_storage this) x Q.
Proof. iIntros "(%l & %ps & -> & Hl) HQ". by iApply (wp_release with "Hl"). Qed.

(** The storage is left to the caller when a constructor throws. *)
Definition constructed {B} (this : ref) (s : Spec B) (x x' : ext) (r : exn + unit)
    (obj : B → hProp) : hProp :=
  (outcome_of s x x' r (λ _, obj) ∗ match r with inl _ => storage this | inr _ => emp end)%I.

(** A local object: the body leaves it in the state [obj], and the destructor gives its
    storage back. *)
Lemma wp_scope {A B B'} construct destroy (body : ref → X A) (s : Spec B) (f : B → Spec B') x
    (R : hProp) (obj : ref → B → hProp) ok :
  (∀ l, {{ R ∗ l ↦ OPtrs [None] }} construct (Ref (Heap l) 0) @ x {{ r x1,
     R ∗ constructed (Ref (Heap l) 0) s x x1 r (obj (Ref (Heap l) 0)) }}) →
  (∀ this b x1, roughly s x x1 (inr b) →
     {{ R ∗ obj this b }} body this @ x1 {{ r x2, R ∗ obj this b ∗ outcome_of (f b) x1 x2 r ok }}) →
  (∀ this b x1, {{ obj this b }} destroy this @ x1 {{ r x2, ⟪x2 = x1⟫ ∗ storage this }}) →
  {{ R }} with_object construct destroy body @ x {{ r x', R ∗ outcome_of (s ≫= f) x x' r ok }}.
Proof.
  iIntros (Hc Hb Hd) "HR". iApply wp_with_object. iIntros (l) "Hl".
  iApply (use_triple _ _ _ _ _ (Hc l) with "[$HR $Hl]"). iIntros ([e|[]] x1) "(HR & [Hlk H] & Hs)".
  - iApply (storage_release with "Hs"). iFrame "HR". iApply outcome_fail. iFrame.
  - iDestruct "H" as (b) "[%Hs H]". iApply (use_triple _ _ _ _ _ (Hb _ b x1 Hs) with "[$HR $H]").
    iIntros (r x2) "(HR & Ho & H)". iApply (use_triple _ _ _ _ _ (Hd _ b x2) with "Ho").
    iIntros (? x3) "[-> Ho]". iApply (storage_release with "Ho"). iFrame "HR".
    iApply (outcome_step _ _ _ _ _ _ _ _ Hs). iFrame.
Qed.

(** ** Vectors *)

Section vectors.
Context {D : Type} {device_free : ptr → M unit} {DO : DeviceObjects D device_free}.
Implicit Types (ds : list D) (ps : list ptr).

Definition vector_data (p : ptr) (ps : list ptr) : hProp :=
  (⟪p = NULL ∧ ps = []⟫ ∨ ∃ l, ⟪p = Heap l⟫ ∗ l ↦ OPtrs (Some <$> ps))%I.

Definition vector_own (this : ref) (ps : list ptr) : hProp :=
  (∃ p, slot this p ∗ vector_data p ps)%I.

Definition device_vector (this : ref) (ds : list D) : hProp :=
  (∃ ps, vector_own this ps ∗ devices ps ds)%I.

Lemma vector_elements_spec this p ps x :
  {{ slot this p ∗ vector_data p ps }} vector_elements this @ x {{ r x',
    ⟪r = Some <$> ps ∧ x' = x⟫ ∗ slot this p ∗ vector_data p ps }}.
Proof.
  iIntros "[Hs [%H|(%l & -> & Hl)]]"; unfold vector_elements.
  - destruct H as [-> ->]. xsteps. iFrame. iSplit; [done|]. iLeft. by iPureIntro.
  - xsteps. iFrame. iSplit; [done|]. iRight. iExists l. by iFrame.
Qed.

Lemma vector_data_free p ps x Q : vector_data p ps -∗ Q tt x -∗ wp (free p) x Q.
Proof.
  iIntros "[%H|(%l & -> & Hl)] HQ"; [destruct H as [-> _]|]; by wp_steps.
Qed.

Lemma vector_push_back_spec this other ps q x :
  {{ vector_own this ps ∗ slot other q }} vector_push_back this other @ x {{ r x',
    match r with
    | inr _ => ⟪x' = x⟫ ∗ vector_own this (ps ++ [q]) ∗ slot other NULL
    | inl e => ⟪e = Exn_bad_alloc ∧ quiet x x' ∧ oomed x x'⟫ ∗ vector_own this ps ∗ slot other q
    end }}.
Proof.
  iIntros "[(%p & Hs & Hd) Ho]". unfold vector_push_back. iApply wp_xbind. iApply wp_noexcept.
  iApply (slot_get with "Hs"). iIntros "Hs". iApply wp_xbind. iApply wp_noexcept.
  wp_call (vector_elements_spec this p ps x). iIntros (? ?) "(%H & Hs & Hd)".
  destruct H as [-> ->]. iApply wp_xbind. iApply wp_noexcept.
  iApply wp_malloc_pos; [unfold sizeof_ptr; lia|]. iSplit; last first.
  { iIntros (x1 Hx). wp_simpl. iApply wp_throw. iFrame. by iPureIntro. }
  iIntros (l Hl) "Hl". wp_simpl. iApply wp_xbind. iApply wp_noexcept. unfold move_construct, pointer_release.
  iApply wp_bind. iApply wp_bind. iApply (slot_get with "Ho"). iIntros "Ho".
  iApply wp_bind. iApply (slot_set with "Ho"). iIntros "Ho". iApply wp_ret.
  rewrite length_fmap. iApply (wp_set_pointer with "Hl"); [rewrite length_app length_fmap; cbn; lia|].
  iIntros "Hl". rewrite insert_app_r_alt ?length_fmap // Nat.sub_diag. cbn [list_insert insert].
  iApply wp_xbind. iApply wp_noexcept. iApply (vector_data_free with "Hd").
  iApply wp_noexcept. iApply (slot_set with "Hs"). iIntros "Hs". iSplit; [done|]. iFrame.
  iRight. iExists l. rewrite fmap_app. by iFrame.
Qed.

Lemma vector_destroy_loop_spec l pre ps ds x Q :
  l ↦ OPtrs (Some <$> pre ++ ps) -∗ devices ps ds -∗
  (∀ qs, l ↦ OPtrs qs -∗ Q tt x) -∗
  wp (vector_destroy_loop device_free (Heap l) (Z.of_nat (List.length pre)) (List.length ps)) x Q.
Proof.
  iIntros "Hl Hds HQ". iInduction ps as [|p ps] "IH" forall (pre ds); cbn [List.length vector_destroy_loop].
  { iDestruct (big_sepL2_nil_inv_l with "Hds") as %->. iApply wp_ret. by iApply "HQ". }
  iDestruct (big_sepL2_cons_inv_l with "Hds") as (d ds' ->) "[Hd Hds]". iApply wp_bind.
  unfold destroy, pointer_reset. iApply wp_bind. iApply (wp_get_pointer with "Hl").
  { by rewrite list_lookup_fmap lookup_app_r // Nat.sub_diag. }
  iIntros "Hl". iApply wp_bind. wp_call (device_free_spec p d x). iIntros ([] ?) "->".
  iApply (wp_set_pointer with "Hl"); [rewrite length_fmap length_app; cbn; lia|]. iIntros "Hl".
  rewrite fmap_app insert_app_r_alt ?length_fmap // Nat.sub_diag. cbn [list_insert insert fmap list_fmap].
  rewrite (_ : Z.of_nat (List.length pre) + 1 = Z.of_nat (List.length (pre ++ [NULL])));
    [|rewrite length_app; cbn; lia].
  iApply ("IH" with "[Hl] Hds HQ"). by rewrite !fmap_app -app_assoc.
Qed.

Lemma vector_destroy_spec this ds x :
  {{ device_vector this ds }} vector_destroy device_free this @ x {{ r x', ⟪x' = x⟫ ∗ storage this }}.
Proof.
  iIntros "(%ps & (%p & Hs & Hd) & Hds)". unfold vector_destroy. iApply wp_bind.
  iApply (slot_get with "Hs"). iIntros "Hs". iApply wp_bind.
  wp_call (vector_elements_spec this p ps x). iIntros (? ?) "(%H & Hs & Hd)". destruct H as [-> ->].
  rewrite length_fmap. iDestruct (slot_storage with "Hs") as "Hs".
  iDestruct "Hd" as "[%H|(%l & -> & Hl)]".
  - destruct H as [-> ->]. iDestruct (big_sepL2_nil_inv_l with "Hds") as %->.
    cbn [List.length vector_destroy_loop]. wp_steps. by iFrame.
  - iApply wp_bind. iApply (vector_destroy_loop_spec l [] ps with "Hl Hds").
    iIntros (qs) "Hl". wp_steps. by iFrame.
Qed.
End vectors.

(** ** Lists of devices *)

Section list_specs.
Context `{A : DeviceApi} {LAWS : DeviceLaws A}.
Implicit Types (ds : list dev) (x : ext).

(** Destroying the temporary of a round: it is empty, or still owns its device. *)
Lemma destroy_moved this x Q :
  slot this NULL -∗ (storage this -∗ Q tt x) -∗ wp (destroy libusbp_device_free this) x Q.
Proof.
  iIntros "Hs HQ". unfold destroy, pointer_reset. iApply wp_bind. iApply (slot_get with "Hs").
  iIntros "Hs". iApply wp_bind. iApply law_device_free_null. iApply (slot_set with "Hs").
  iIntros "Hs". iApply "HQ". by iApply slot_storage.
Qed.

Lemma destroy_device this q d x Q :
  slot this q -∗ device_own q d -∗ (storage this -∗ Q tt x) -∗
  wp (destroy libusbp_device_free this) x Q.
Proof.
  iIntros "Hs Hd HQ". unfold destroy, pointer_reset. iApply wp_bind. iApply (slot_get with "Hs").
  iIntros "Hs". iApply wp_bind. wp_call (device_free_spec q d x). iIntros ([] ?) "->".
  iApply (slot_set with "Hs"). iIntros "Hs". iApply "HQ". by iApply slot_storage.
Qed.

Lemma push_back_loop_spec p this pre qs ds ds0 x :
  {{ ptr_array p (pre ++ qs) ∗ devices qs ds ∗ device_vector this ds0 }}
    push_back_loop p this (Z.of_nat (List.length pre)) (List.length qs) @ x
  {{ r x', match r with
     | inr _ => ⟪x' = x⟫ ∗ ptr_array p (pre ++ qs) ∗ device_vector this (ds0 ++ ds)
     | inl e => ⟪e = Exn_bad_alloc ∧ quiet x x' ∧ oomed x x'⟫ ∗
                (∃ ds1, device_vector this ds1) ∗ True
     end }}.
Proof.
  revert pre ds ds0. induction qs as [|q qs IH]; intros pre ds ds0; iIntros "(Hp & Hds & Hv)";
    cbn [List.length push_back_loop].
  { iDestruct (big_sepL2_nil_inv_l with "Hds") as %->. iApply wp_xret. rewrite !app_nil_r. by iFrame. }
  iDestruct (big_sepL2_cons_inv_l with "Hds") as (d ds' ->) "[Hd Hds]".
  iApply wp_xbind. iApply wp_noexcept. iApply (ptr_array_load _ _ _ q with "Hp").
  { rewrite -app_assoc lookup_app_r // Nat.sub_diag //. }
  iIntros "Hp". iApply wp_xbind. iApply wp_with_object. iIntros (l) "Hl".
  iApply wp_noexcept. iApply (slot_init with "Hl"). iIntros "Ht".
  iDestruct "Hv" as (ps) "[Hv Hd0]".
  wp_call (vector_push_back_spec this (Ref (Heap l) 0) ps q x). iIntros ([e|[]] x1) "H".
  - iDestruct "H" as "(%H & Hv & Ht)". iApply (destroy_device with "Ht Hd").
    iIntros "Ht". iApply (storage_release with "Ht"). iSplit; [done|].
    iSplitL "Hv Hd0"; [iExists ds0, ps; iFrame|]. iCombine "Hds Hp" as "H". iStopProof. by iIntros "_".
  - iDestruct "H" as "(-> & Hv & Ht)". iApply (destroy_moved with "Ht").
    iIntros "Ht". iApply (storage_release with "Ht").
    rewrite (_ : Z.of_nat (List.length pre) + 1 = Z.of_nat (List.length (pre ++ [q])));
      [|rewrite length_app; cbn; lia].
    rewrite (_ : pre ++ q :: qs = (pre ++ [q]) ++ qs); [|by rewrite -app_assoc].
    rewrite (_ : ds0 ++ d :: ds' = (ds0 ++ [d]) ++ ds'); [|by rewrite -app_assoc].
    iApply IH. iFrame "Hp Hds". iExists (ps ++ [q]). iFrame "Hv".
    iApply (big_sepL2_app with "Hd0"). by iFrame.
Qed.

(** The vector owns the devices of the list, in order.  When it cannot grow, the vector
    and what is in it is freed, but the C list and its other devices are lost. *)
Lemma list_connected_devices_spec l x :
  {{ l ↦ OPtrs [None] }} list_connected_devices (Ref (Heap l) 0) @ x {{ r x',
    constructed (Ref (Heap l) 0) s_list x x' r (device_vector (Ref (Heap l) 0)) }}.
Proof.
  iIntros "Hl". unfold list_connected_devices, initialised. iApply wp_xbind. iApply wp_noexcept.
  wp_call (law_list x).
  iIntros ([[e p] n] x1) "[Hlk [(%q & %ds & %H & Hds)|(%got & %H & He)]]"; cbn [fst snd] in *.
  - destruct H as [[= -> -> ->] Hs]. iApply wp_xbind. iApply wp_throw_if_null.
    iApply wp_xbind. iApply wp_noexcept. iApply wp_ret. iApply wp_xbind. iApply wp_noexcept.
    iApply wp_ret. iApply wp_xbind. iApply wp_noexcept. iApply (slot_init with "Hl"). iIntros "Hl".
    iDestruct "Hds" as (ps) "[Hq Hds]". iDestruct (big_sepL2_length with "Hds") as %Hlen.
    rewrite -Hlen Nat2Z.id. iApply wp_on_exception. iApply wp_xbind.
    iApply (use_triple _ _ _ _ _ (push_back_loop_spec q (Ref (Heap l) 0) [] ps ds [] x1) with "[Hq Hds Hl]").
    { iFrame. iExists []. iSplitL; [|by rewrite /devices]. iLeft. by iPureIntro. }
    iIntros ([ex|[]] x2) "H".
    + iDestruct "H" as "(%H & (%ds1 & Hv) & Hlost)". destruct H as (-> & Hq & Ho).
      wp_call (vector_destroy_spec (Ref (Heap l) 0) ds1 x2). iIntros ([] ?) "[-> Hs]".
      iFrame "Hs". destruct Hs as [Hc _]. iCombine "Hlk Hlost" as "H".
      by iApply (outcome_bad_alloc with "H"); [done|apply quiet_calm|].
    + iDestruct "H" as "(-> & Hq & Hv)". iApply wp_noexcept.
      wp_call (libusbp_list_free_spec q ps x1). iIntros ([] ?) "->". iSplitL; [|done].
      iFrame "Hlk". iExists ds. by iFrame.
  - destruct H as (-> & -> & Hs). iApply wp_xbind. iApply (wp_throw_if_error with "He").
    iIntros (r) "He". iSplitR "Hl"; [|iExists l, _; by iFrame]. iFrame "Hlk". iExists got. by iFrame.
Qed.

(** The device that was found, or none. *)
Lemma find_device_spec v p l x :
  {{ l ↦ OPtrs [None] }} find_device_with_vid_pid v p (Ref (Heap l) 0) @ x {{ r x',
    constructed (Ref (Heap l) 0) (s_find_device v p) x x' r
      (λ o, ∃ q, slot (Ref (Heap l) 0) q ∗ opt_device_own q o) }}.
Proof.
  iIntros "Hl". unfold find_device_with_vid_pid, call_out, initialised. iApply wp_xbind.
  iApply wp_xbind. iApply wp_noexcept. wp_call (libusbp_find_device_with_vid_pid_spec v p x).
  iIntros ([e o] x1) "[Hlk [(%q & %ds & %H & Hd)|(%got & %H & He)]]"; cbn [fst snd] in *.
  - destruct H as [[= -> ->] Hs]. iApply wp_xbind. iApply wp_throw_if_null.
    iApply wp_noexcept. iApply wp_ret. iApply wp_noexcept. iApply (slot_init with "Hl"). iIntros "Hl".
    iSplitL; [|done]. iFrame "Hlk". iExists _. iSplitR.
    { iPureIntro. by eapply s_find_device_ok. }
    iExists q. iFrame.
  - destruct H as [-> Hs]. iApply wp_xbind. iApply (wp_throw_if_error with "He"). iIntros (r) "He".
    iSplitR "Hl"; [|iExists l, _; by iFrame]. iFrame "Hlk". iExists got. iFrame. iPureIntro.
    by apply roughly_fail.
Qed.
End list_specs.

(** ** Serial ports *)

Section port_specs.
Context `{A : DeviceApi} {LAWS : DeviceLaws A} `{S : SerialPortApi} {PL : SerialPortLaws A S}.
Implicit Types (x : ext) (d : dev).

(** The variable owns the port [s]. *)
Definition port_object (this : ref) (s : port) : hProp := (∃ q, slot this q ∗ port_own q s)%I.

Lemma serial_port_construct_spec R device p d n composite l x :
  reads_pointer R device p →
  {{ (R ∗ device_own p d) ∗ l ↦ OPtrs [None] }}
    serial_port_construct device n composite (Ref (Heap l) 0) @ x
  {{ r x', (R ∗ device_own p d) ∗
    constructed (Ref (Heap l) 0) (s_port d n composite) x x' r (port_object (Ref (Heap l) 0)) }}.
Proof.
  iIntros (Hr) "[[HR Hd] Hl]". unfold serial_port_construct, construct_from, construct.
  iApply wp_xbind. iApply wp_noexcept. iApply (Hr with "HR"). iIntros "HR".
  iApply wp_xbind. iApply wp_noexcept. iApply (slot_init with "Hl"). iIntros "Hs".
  iApply wp_on_exception. iApply wp_xbind. iApply wp_noexcept.
  wp_call (law_port_create p d n composite x).
  iIntros ([e o] x1) "[Hd [(%s & %q & %H & Hq)|(%got & %H & He)]]"; cbn [fst snd] in H.
  - destruct H as [[= -> ->] Hs]. iApply wp_xbind. iApply wp_noexcept.
    iApply (slot_set with "Hs"). iIntros "Hs". iApply wp_throw_if_null. iFrame "HR Hd".
    iSplitL; [|done]. iApply outcome_ok; [done|]. iExists q. iFrame.
  - destruct H as [-> Hs]. iApply wp_xbind. iApply wp_noexcept.
    iApply (slot_set with "Hs"). iIntros "Hs". iApply (wp_throw_if_error with "He"). iIntros (r) "He".
    unfold destroy, pointer_reset. iApply wp_bind. iApply (slot_get with "Hs"). iIntros "Hs".
    iApply wp_bind. iApply law_port_free_null. iApply (slot_set with "Hs"). iIntros "Hs".
    iFrame "HR Hd". iSplitR "Hs"; [|by iApply slot_storage]. iSplitR; [iApply leak_none|].
    iExists got. by iFrame.
Qed.

Lemma serial_port_destroy_spec this s x :
  {{ port_object this s }} destroy libusbp_serial_port_free this @ x {{ r x',
    ⟪x' = x⟫ ∗ storage this }}.
Proof.
  iIntros "(%q & Hs & Hq)". unfold destroy, pointer_reset. iApply wp_bind.
  iApply (slot_get with "Hs"). iIntros "Hs". iApply wp_bind.
  wp_call (law_port_free q s x). iIntros ([] ?) "->". iApply (slot_set with "Hs"). iIntros "Hs".
  iSplit; [done|]. by iApply slot_storage.
Qed.

Lemma serial_port_get_name_spec this s x :
  {{ port_object this s }} serial_port_get_name this @ x {{ r x',
    port_object this s ∗ outcome_of (mret (port_name s)) x x' r same }}.
Proof.
  iIntros "(%q & Hs & Hq)".
  wp_call (string_getter_spec port_own _ _ (slot this q) this q s x (reads_slot this q) (law_port_name q s x)).
  iIntros (r x') "[[Hs Hq] $]". iExists q. iFrame.
Qed.
End port_specs.
