(* ===== verification/ApiLinux.v ===== *)
(** * ApiLinux: the Linux backend keeps the promises of Api.v *)

From S2P Require Import Prelude Memory Logic Errors Results Basics Strings Api LinuxOS DeviceLinux ListLinux SerialPortLinux FindDevice.
#[local] Set Warnings "-rewrite-rw".

#[export] Instance linux_devices `{OS : LinuxOS} : DeviceApi := {|
  Api.libusbp_device_free := DeviceLinux.libusbp_device_free;
  Api.libusbp_device_copy := DeviceLinux.libusbp_device_copy;
  Api.libusbp_device_get_vendor_id := DeviceLinux.libusbp_device_get_vendor_id;
  Api.libusbp_device_get_product_id := DeviceLinux.libusbp_device_get_product_id;
  Api.libusbp_device_get_revision := DeviceLinux.libusbp_device_get_revision;
  Api.libusbp_device_get_serial_number := DeviceLinux.libusbp_device_get_serial_number;
  Api.libusbp_device_get_os_id := DeviceLinux.libusbp_device_get_os_id;
  Api.libusbp_list_connected_devices := ListLinux.libusbp_list_connected_devices
|}.

#[export] Instance linux_ports `{OS : LinuxOS} : SerialPortApi := {|
  Api.libusbp_serial_port_create := SerialPortLinux.libusbp_serial_port_create;
  Api.libusbp_serial_port_free := SerialPortLinux.libusbp_serial_port_free;
  Api.libusbp_serial_port_copy := SerialPortLinux.libusbp_serial_port_copy;
  Api.libusbp_serial_port_get_name := SerialPortLinux.libusbp_serial_port_get_name
|}.

Section laws.
Context `{OS : LinuxOS} {LAWS : LinuxLaws OS}.

Lemma linux_list x :
  {{ emp }} ListLinux.libusbp_list_connected_devices true true @ x {{ r x', leak x x' ∗
    ((∃ p ds, ⟪r = (NULL, Some p, Some (Z.of_nat (List.length ds))) ∧
               roughly s_list_connected x x' (inr ds)⟫ ∗ device_list p ds) ∨
     (∃ got, ⟪r.1.2 = None ∧ r.2 = Some 0 ∧ roughly s_list_connected x x' (inl got)⟫ ∗
       err_own r.1.1 got)) }}.
Proof.
  iIntros "_". iApply wp_wand; [by iApply (libusbp_list_connected_devices_spec true x)|].
  iIntros (r x') "[(%p & %ds & %H & H)|(%got & %H & H)]"; (iSplitR; [iApply leak_none|]).
  - iLeft. iExists p, ds. by iFrame.
  - iRight. iExists got. iFrame. iPureIntro. destruct H as (? & ? & ?).
    split_and!; [done..|by apply failed_roughly].
Qed.

#[export] Instance linux_device_laws : DeviceLaws linux_devices.
Proof.
  refine {|
    Api.dev := DeviceLinux.device;
    Api.dev_objects := DeviceLinux.device_objects;
    Api.dev_vendor := d_vendor;
    Api.dev_product := d_product;
    Api.dev_revision := d_revision;
    Api.dev_os_id := d_syspath;
    Api.s_dev_serial := λ d, sopt (d_serial d) no_serial_number;
    Api.s_list := s_list_connected
  |}.
  - intros. apply libusbp_device_free_null.
  - intros. apply wp_ret.
  - intros. apply libusbp_device_copy_spec.
  - intros. apply libusbp_device_get_vendor_id_spec.
  - intros. apply libusbp_device_get_product_id_spec.
  - intros. apply libusbp_device_get_revision_spec.
  - intros. apply libusbp_device_get_serial_number_spec.
  - intros. apply libusbp_device_get_os_id_spec.
  - intros. apply linux_list.
Defined.

#[export] Instance linux_port_laws : SerialPortLaws linux_devices linux_ports.
Proof.
  refine {|
    Api.port := SerialPortLinux.serial_port : Type;
    Api.port_own := serial_port_own;
    Api.port_name := port_devname;
    Api.s_port := λ (d : dev) n _, s_serial_port_create d n
  |}.
  - intros. apply serial_port_own_not_null.
  - intros. apply libusbp_serial_port_free_spec.
  - intros. apply wp_ret.
  - intros. apply wp_ret.
  - intros. apply libusbp_serial_port_copy_spec.
  - intros. apply libusbp_serial_port_get_name_spec.
  - intros p d n c x. iIntros "H". iApply (wp_wand with "[H]").
    { by iApply (libusbp_serial_port_create_spec p d n c x). }
    iIntros (r x') "[$ H]". iDestruct (returns_roughly with "H") as "[(%s & %H & H)|(%got & %H & He & %Hr)]".
    + iLeft. iDestruct "H" as (q) "[%Hq H]". iExists s, q. iFrame. iPureIntro.
      destruct r, H. cbn in *. by subst.
    + iRight. iExists got. by iFrame.
Defined.
End laws.

(** The search of FindDevice.v on the example machine of LinuxOS.v: the second device. *)
#[local] Existing Instance Example_machine.machine.
#[local] Existing Instance Example_machine.machine_laws.

Lemma libusbp_find_device_with_vid_pid_first_witness :
  match (s_find_device 0x1ffb 0x0101 []).1 with
  | inr (Some d) => d_syspath d = "/sys/usb1/1-2"
  | _ => False
  end ∧
  {{ emp }} libusbp_find_device_with_vid_pid 0x1ffb 0x0101 true @ empty_ext {{ r x', leak empty_ext x' ∗
    ((∃ p d, ⟪r = (NULL, Some p) ∧ dev_vendor d = 0x1ffb ∧ dev_product d = 0x0101 ∧
              roughly (s_find_device 0x1ffb 0x0101) empty_ext x' (inr (Some d))⟫ ∗ device_own p d) ∨
     ⟪r = (NULL, Some NULL) ∧ roughly (s_find_device 0x1ffb 0x0101) empty_ext x' (inr None)⟫ ∨
     (∃ a, ⟪r.2 = Some NULL ∧ roughly (s_find_device 0x1ffb 0x0101) empty_ext x' (inl a)⟫ ∗ err_own r.1 a)) }}.
Proof.
  split; [vm_compute; reflexivity|].
  exact (libusbp_find_device_with_vid_pid_first 0x1ffb 0x0101 empty_ext).
Defined.
