(* ===== verification/ApiMac.v ===== *)
(** * ApiMac: the macOS backend keeps the promises of Api.v

    For serial ports under the assumption that a port has a callout device, which
    [libusbp_serial_port_create] does not check. *)

From S2P Require Import Prelude Memory Logic Format Errors Results Basics Strings Api MacOS ErrorMac IokitMac DeviceMac ListMac SerialPortMac.
#[local] Set Warnings "-rewrite-rw".

#[export] Instance mac_devices `{OS : MacOS} : DeviceApi := {|
  Api.libusbp_device_free := DeviceMac.libusbp_device_free;
  Api.libusbp_device_copy := DeviceMac.libusbp_device_copy;
  Api.libusbp_device_get_vendor_id := DeviceMac.libusbp_device_get_vendor_id;
  Api.libusbp_device_get_product_id := DeviceMac.libusbp_device_get_product_id;
  Api.libusbp_device_get_revision := DeviceMac.libusbp_device_get_revision;
  Api.libusbp_device_get_serial_number := DeviceMac.libusbp_device_get_serial_number;
  Api.libusbp_device_get_os_id := DeviceMac.libusbp_device_get_os_id;
  Api.libusbp_list_connected_devices := ListMac.libusbp_list_connected_devices
|}.

#[export] Instance mac_ports `{OS : MacOS} : SerialPortApi := {|
  Api.libusbp_serial_port_create := SerialPortMac.libusbp_serial_port_create;
  Api.libusbp_serial_port_free := SerialPortMac.libusbp_serial_port_free;
  Api.libusbp_serial_port_copy := SerialPortMac.libusbp_serial_port_copy;
  Api.libusbp_serial_port_get_name := SerialPortMac.libusbp_serial_port_get_name
|}.

Section laws.
Context `{OS : MacOS} {LAWS : MacLaws OS}.

Lemma mac_list x :
  {{ emp }} ListMac.libusbp_list_connected_devices true true @ x {{ r x', leak x x' ∗
    ((∃ p ds, ⟪r = (NULL, Some p, Some (Z.of_nat (List.length ds))) ∧
               roughly s_list_connected x x' (inr ds)⟫ ∗ device_list p ds) ∨
     (∃ got, ⟪r.1.2 = None ∧ r.2 = Some 0 ∧ roughly s_list_connected x x' (inl got)⟫ ∗
       err_own r.1.1 got)) }}.
Proof.
  iIntros "_". iApply wp_wand; [by iApply (mac_list_connected_devices_spec true x)|].
  iIntros (r x') "[(%p & %ds & %H & H)|(%got & %H & He & [%Hf|[%Hf Hl]])]".
  - iSplitR; [iApply leak_none|]. iLeft. iExists p, ds. by iFrame.
  - iSplitR; [iApply leak_none|]. iRight. iExists got. iFrame. iPureIntro.
    destruct H. split_and!; [done..|by apply failed_roughly].
  - destruct Hf as (-> & Hc & Ho). iSplitL "Hl"; [by iApply leak_oomed|].
    iRight. iExists _. iFrame. iPureIntro. destruct H. split_and!; [done..|by apply roughly_oomed].
Qed.

#[export] Instance mac_device_laws : DeviceLaws mac_devices.
Proof.
  refine {|
    Api.dev := mac_device;
    Api.dev_objects := mac_device_objects;
    Api.dev_vendor := md_vendor;
    Api.dev_product := md_product;
    Api.dev_revision := md_revision;
    Api.dev_os_id := λ d, fmt_x 1 (md_id d);
    Api.s_dev_serial := λ d, sopt (md_serial d) mac_no_serial_number;
    Api.s_list := s_list_connected
  |}.
  - intros. apply mac_device_free_null.
  - intros. apply wp_ret.
  - intros. apply mac_device_copy_spec.
  - intros. apply mac_get_vendor_id_spec.
  - intros. apply mac_get_product_id_spec.
  - intros. apply mac_get_revision_spec.
  - intros. apply mac_get_serial_number_spec.
  - intros. apply mac_get_os_id_spec.
  - intros. apply mac_list.
Defined.
End laws.

(** ** Serial ports *)

(** An assumption about the registry, not a promise of macOS: every serial port in it has
    the property that names its call-out device.  The code does not check it.
    [libusbp_serial_port_create] accepts a port without the property and stores no name,
    and then [libusbp_serial_port_get_name] fails an assertion or follows a null
    pointer: this is the run [SerialPortMac.serial_port_without_name], which the
    assumption excludes.  What depends on the assumption is only the promise of a
    serial port's name to the clients of Api.v. *)
Class MacPortsNamed (OS : MacOS) : Prop := {
  port_has_callout h id :
    mac_conforms id kIOSerialBSDServiceValue = true → mac_property h id kIOCalloutDeviceKey ≠ None
}.

Section ports.
Context `{OS : MacOS} {LAWS : MacLaws OS} {NAMED : MacPortsNamed OS}.

Lemma driver_entry_port id :
  driver_entry id = PortEntry → mac_conforms id kIOSerialBSDServiceValue = true.
Proof. unfold driver_entry. repeat case_match; done. Qed.

Lemma s_find_port_serial ids n before h id h' :
  s_find_port ids n before h = (inr (Some id), h') → mac_conforms id kIOSerialBSDServiceValue = true.
Proof.
  revert before h. induction ids as [|i ids IH]; intros before h; cbn [s_find_port]; [by rewrite sret_eq|].
  intros (e & h1 & He & H)%sbind_inv. case_bool_decide as Hp; [|by eapply IH].
  rewrite sret_eq in H. injection H as <- _. destruct Hp as [-> _]. unfold s_entry in He.
  destruct (mac_conforms i kIOUSBHostInterfaceClassName); [by apply sbind_inv in He as (? & ? & _ & ?)|].
  rewrite sret_eq in He. injection He as He _. by apply driver_entry_port.
Qed.

Lemma s_serial_port_named d n h name h' :
  s_serial_port_create d n h = (inr name, h') → name ≠ None.
Proof.
  unfold s_serial_port_create. intros (u & h1 & _ & (ids & h2 & _ &
    (found & h3 & Hf & (port & h4 & Hp & E)%sbind_inv)%sbind_inv)%sbind_inv)%sbind_inv.
  apply sopt_inv in Hp as [-> ->]. apply s_find_port_serial in Hf.
  unfold s_get_string in E. pose proof (port_has_callout h3 port Hf) as Hn.
  destruct (mac_property h3 port kIOCalloutDeviceKey) as [v|]; [|done].
  destruct (cf_string v); [done|]. injection E as <- _. done.
Qed.

(** The name that the created port has. *)
Definition s_named_port (d : dev) (n : Z) : Spec string :=
  name ← s_serial_port_create d n; mret (default "" name).

#[export] Instance mac_port_laws : SerialPortLaws mac_devices mac_ports.
Proof.
  refine {|
    Api.port := string;
    Api.port_own := λ p s, mac_port_own p (Some s);
    Api.port_name := id;
    Api.s_port := λ d n _, s_named_port d n
  |}.
  - intros. apply mac_port_not_null.
  - intros. apply mac_port_free_spec.
  - intros. apply mac_port_free_null.
  - intros. apply wp_ret.
  - intros p s x. iIntros "H". iApply (wp_wand with "[H]").
    { by iApply (mac_serial_port_copy_spec p s x). }
    iIntros (r x') "[$ [(%a & %H & Hq)|(%got & %Hf & He & Hq)]]".
    + destruct H as [He Ha]. rewrite He. apply succeeded_ret_inv in Ha as (-> & Ht & Hc).
      iApply (returns_ok _ _ _ s with "Hq"). by apply succeeded_ret.
    + iRight. iExists got. iFrame. iPureIntro. by eapply failed_ret.
  - intros. apply mac_serial_port_get_name_spec.
  - intros p d n c x. iIntros "H". iApply (wp_wand with "[H]").
    { by iApply (mac_serial_port_create_spec p d n c x). }
    iIntros ([e o] x') "[$ [(%name & %H & %q & %Ho & Hq)|(%got & %Hf & He & %Ho)]]".
    + destruct H as [He [Hc E]]. cbn [fst snd] in *. subst e o.
      destruct name as [s|]; [|by apply s_serial_port_named in E].
      iLeft. iExists s, q. iFrame. iPureIntro. split; [done|]. split; [done|]. left.
      cbn beta. unfold s_named_port. rewrite (sbind_ok _ _ _ _ _ E). apply sret_eq.
    + iRight. iExists got. iFrame. iPureIntro. split; [done|].
      apply roughly_fail, failed_roughly, Hf.
Defined.
End ports.
