(* ===== verification/ApiWindows.v ===== *)
(** * ApiWindows: the Windows backend keeps the promises of Api.v *)

From S2P Require Import Prelude Memory Logic Errors Results Basics Strings Api WindowsOS DeviceWindows ListWindows SerialPortWindows.
#[local] Set Warnings "-rewrite-rw".

#[export] Instance windows_devices `{OS : WindowsOS} : DeviceApi := {|
  Api.libusbp_device_free := DeviceWindows.libusbp_device_free;
  Api.libusbp_device_copy := DeviceWindows.libusbp_device_copy;
  Api.libusbp_device_get_vendor_id := DeviceWindows.libusbp_device_get_vendor_id;
  Api.libusbp_device_get_product_id := DeviceWindows.libusbp_device_get_product_id;
  Api.libusbp_device_get_revision := DeviceWindows.libusbp_device_get_revision;
  Api.libusbp_device_get_serial_number := DeviceWindows.libusbp_device_get_serial_number;
  Api.libusbp_device_get_os_id := DeviceWindows.libusbp_device_get_os_id;
  Api.libusbp_list_connected_devices := ListWindows.libusbp_list_connected_devices
|}.

#[export] Instance windows_ports `{OS : WindowsOS} : SerialPortApi := {|
  Api.libusbp_serial_port_create := SerialPortWindows.libusbp_serial_port_create;
  Api.libusbp_serial_port_free := SerialPortWindows.libusbp_serial_port_free;
  Api.libusbp_serial_port_copy := SerialPortWindows.libusbp_serial_port_copy;
  Api.libusbp_serial_port_get_name := SerialPortWindows.libusbp_serial_port_get_name
|}.

Section laws.
Context `{OS : WindowsOS} {LAWS : WindowsLaws OS} {STABLE : PropertiesStable OS}
  {PORT_NAMES : PortNamesTerminated OS}.

Lemma windows_list x :
  {{ emp }} ListWindows.libusbp_list_connected_devices true true @ x {{ r x', leak x x' ∗
    ((∃ p ds, ⟪r = (NULL, Some p, Some (Z.of_nat (List.length ds))) ∧
               roughly s_list_connected x x' (inr ds)⟫ ∗ device_list p ds) ∨
     (∃ got, ⟪r.1.2 = None ∧ r.2 = Some 0 ∧ roughly s_list_connected x x' (inl got)⟫ ∗
       err_own r.1.1 got)) }}.
Proof.
  iIntros "_". iApply wp_wand; [by iApply (win_list_connected_devices_spec true x)|].
  iIntros (r x') "[(%p & %ds & %H & H)|(%got & %H & He & [%Hf|[%Hf Hl]])]".
  - iSplitR; [iApply leak_none|]. iLeft. iExists p, ds. by iFrame.
  - iSplitR; [iApply leak_none|]. iRight. iExists got. iFrame. iPureIntro.
    destruct H. by split_and!.
  - destruct Hf as (-> & Hc & Ho). iSplitL "Hl"; [by iApply leak_oomed|].
    iRight. iExists _. iFrame. iPureIntro. destruct H. split_and!; [done..|by apply roughly_oomed].
Qed.

#[export] Instance windows_device_laws : DeviceLaws windows_devices.
Proof.
  refine {|
    Api.dev := win_device;
    Api.dev_objects := win_device_objects;
    Api.dev_vendor := wd_vendor;
    Api.dev_product := wd_product;
    Api.dev_revision := wd_revision;
    Api.dev_os_id := wd_id;
    Api.s_dev_serial := s_serial_number;
    Api.s_list := s_list_connected
  |}.
  - intros. apply wp_ret.
  - intros. apply wp_ret.
  - intros. apply win_device_copy_spec.
  - intros. apply win_get_vendor_id_spec.
  - intros. apply win_get_product_id_spec.
  - intros. apply win_get_revision_spec.
  - intros. apply win_get_serial_number_spec.
  - intros. apply win_get_os_id_spec.
  - intros. apply windows_list.
Defined.

#[export] Instance windows_port_laws : SerialPortLaws windows_devices windows_ports.
Proof.
  refine {|
    Api.port := win_serial_port;
    Api.port_own := win_serial_port_own;
    Api.port_name := ws_name;
    Api.s_port := λ (d : dev), s_serial_port d
  |}.
  - intros p s. iIntros "(%l & -> & H)". iSplit; [done|]. iExists l. by iFrame.
  - intros. apply win_serial_port_free_spec.
  - intros. apply wp_ret.
  - intros. apply wp_ret.
  - intros. apply win_serial_port_copy_spec.
  - intros. apply win_serial_port_get_name_spec.
  - intros. apply win_serial_port_create_spec.
Defined.
End laws.
