(* ===== verification/Examples.v ===== *)
(** * Examples: what the programs in src/examples share

    lsusb and lsport print the serial number of a device in the same way, and every
    program catches all exceptions in [main]. *)

From S2P Require Import Prelude Memory Logic Format Errors Results Basics Strings Api Cpp Wrapper.
#[local] Set Warnings "-rewrite-rw".

Section code.
Context `{A : DeviceApi}.

Definition serial_number_or_default (device : ref) (def : string) : X string :=
  catch_error (device_get_serial_number device)
    (λ error,
       b ← noexcept (error_has_code error LIBUSBP_ERROR_NO_SERIAL_NUMBER);
       if b : bool then s ← std_string_copy def; mret (Some s)
       else mret None).

(** [for (auto it = list.begin(); it != list.end(); ++it)], [n] rounds left. *)
Fixpoint for_each (body : ostream → ref → X ostream) (os : ostream) (data : ptr) (i : Z) (n : nat) :
    X ostream :=
  match n with
  | O => mret os
  | S n => os ← body os (Ref data i); for_each body os data (i + 1) n
  end.

(** A program that lists the devices and does [body] with each. *)
Definition for_devices (body : ostream → ref → X ostream) : X Z :=
  with_object list_connected_devices (vector_destroy libusbp_device_free)
    (λ list,
       data ← noexcept (get_pointer list);
       elements ← noexcept (vector_elements list);
       for_each body cout0 data 0 (List.length elements);;
       mret 0).
End code.

(** [error.what()] for the exceptions there are; [bad_alloc_what] is what
    [std::bad_alloc] says. *)
Definition what (bad_alloc_what : string) (e : exn) : M string :=
  match e with
  | Exn_error r => p ← error_what r; read_cstr p
  | Exn_bad_alloc => mret bad_alloc_what
  end.

(** The body of [main]. *)
Definition catch_main (bad_alloc_what : string) (main_with_exceptions : X Z) : M Z :=
  catch_exception main_with_exceptions
    (λ error,
       s ← what bad_alloc_what error;
       cerr [OutStr "Error: "; OutStr s; Endl];;
       mret 1).

(** A number as [std::hex], [std::setfill] and [std::setw] print it. *)
Definition hex_field (fill : ascii) (w : nat) (n : Z) : string :=
  let s := fmt_x 1 n in repeat_char fill (w - String.length s) +:+ s.

(** What the history says was printed, in order. *)
Definition stdout (h : list event) : list string :=
  rev (omap (λ ev, match ev with EvStdout t => Some t | _ => None end) h).

(** What a program specified by [s] printed and returned, if no allocation failed. *)
Definition prints (s : Spec Z) (x x' : ext) (code : Z) : Prop :=
  calm x x' ∧
  (oomed x x' ∨
   match s (x_trace x) with
   | (inr n, h) => code = n ∧ x_trace x' = h
   | (inl e, h) => code = 1 ∧ x_trace x' = EvStderr ("Error: " +:+ msg e +:+ newline) :: h
   end).

Lemma calm_output ev x : urb_event ev = false → calm x (Ext (ev :: x_trace x) (x_errno x) (x_oom x)).
Proof. intros. by apply calm_event. Qed.

Lemma catch_main_spec bad_alloc_what (m : X Z) (s : Spec Z) x :
  ({{ emp }} m @ x {{ r x', outcome_of s x x' r same }}) →
  {{ emp }} catch_main bad_alloc_what m @ x {{ r x', ⟪prints s x x' r⟫ ∗ leak x x' }}.
Proof.
  iIntros (Hm) "H". iApply wp_catch_exception. iApply (use_triple _ _ _ _ _ Hm with "H").
  iIntros ([[e|]|n] x1) "[Hl H]"; unfold what, cerr.
  - iDestruct "H" as (got) "[%Hg He]". destruct Hg as [Hc Hg]. iApply wp_bind.
    wp_call (error_what_spec e got x1). iIntros (? ?) "[%H He]". destruct H as [-> ->].
    wp_steps. wp_call (destroy_exception_spec e got _). iIntros ([] ?) "->".
    pose proof (calm_output (EvStderr ("Error: " +:+ msg got +:+ newline)) x1 eq_refl) as Hc'.
    iSplitR; [|by iApply (leak_mono with "Hl")]. iPureIntro. split; [by etrans|].
    destruct Hg as [Hg|Ho]; [right; rewrite Hg|left; by eapply oomed_l].
    split; [done|]. cbn. by rewrite Nat.sub_0_l.
  - iDestruct "H" as %[Hc Ho]. wp_steps.
    iSplitR; [|iApply (leak_mono with "Hl"); [done|by apply calm_output]]. iPureIntro.
    split; [etrans; [done|by apply calm_output]|left]. exact Ho.
  - iDestruct "H" as (b) "[%Hb ->]". destruct Hb as [Hc Hb]. iFrame "Hl". iPureIntro.
    split; [done|]. destruct Hb as [Hb|]; [right; by rewrite Hb|by left].
Qed.

(** ** The serial number, or a default *)

Section specs.
Context `{A : DeviceApi} {LAWS : DeviceLaws A}.
Implicit Types (x : ext) (d : dev).

Definition s_serial_or_default (d : dev) : Spec string := λ h,
  match s_dev_serial d h with
  | (inl e, h') =>
      if bool_decide (LIBUSBP_ERROR_NO_SERIAL_NUMBER ∈ codes e) then (inr "-", h') else (inl e, h')
  | r => r
  end.

Lemma serial_or_default_roughly d x x' got :
  roughly (s_dev_serial d) x x' (inl got) →
  roughly (s_serial_or_default d) x x'
    (if bool_decide (LIBUSBP_ERROR_NO_SERIAL_NUMBER ∈ codes got) then inr "-" else inl got).
Proof.
  intros [Hc E]. split; [done|]. destruct E as [E|]; [left|by right].
  unfold s_serial_or_default. rewrite E. by destruct (bool_decide _).
Qed.

Lemma serial_number_or_default_spec R this p d x :
  reads_pointer R this p →
  {{ R ∗ device_own p d }} serial_number_or_default this "-" @ x {{ r x',
    (R ∗ device_own p d) ∗ outcome_of (s_serial_or_default d) x x' r same }}.
Proof.
  iIntros (Hr) "H". unfold serial_number_or_default. iApply wp_catch_error.
  iApply (use_triple _ _ _ _ _ (string_getter_spec device_own _ _ R this p d x Hr (law_serial p d x)) with "H").
  iIntros ([[e|]|s] x1) "[HR [Hl H]]".
  - iDestruct "H" as (got) "[%Hg He]". pose proof Hg as [Hc _].
    apply serial_or_default_roughly in Hg. iApply wp_xbind. iApply wp_noexcept.
    wp_call (error_has_code_spec e got LIBUSBP_ERROR_NO_SERIAL_NUMBER x1).
    iIntros (b ?) "[%H He]". destruct H as [-> ->]. destruct (bool_decide _).
    + iApply wp_xbind. unfold std_string_copy. iApply wp_xbind. iApply wp_std_alloc. iSplit.
      * do 2 iApply wp_xret. wp_call (destroy_exception_spec e got x1). iIntros ([] ?) "->".
        iFrame. iExists "-". by iPureIntro.
      * iIntros (x2 [Hq Ho]). wp_call (destroy_exception_spec e got x2). iIntros ([] ?) "->".
        iFrame "HR". by iApply (outcome_bad_alloc with "Hl"); [done|apply quiet_calm|].
    + iApply wp_xret. iFrame. by iPureIntro.
  - iFrame.
  - iFrame "HR Hl". iDestruct "H" as (b) "[%Hb H]". iExists b. iFrame. iPureIntro.
    destruct Hb as [Hc E]. split; [done|]. destruct E as [E|]; [left|by right].
    unfold s_serial_or_default. by rewrite E.
Qed.

(** ** The loop over the devices *)

Fixpoint s_each (f : dev → Spec unit) (ds : list dev) : Spec unit :=
  match ds with
  | [] => mret tt
  | d :: ds => f d;; s_each f ds
  end.

Section loop.
Variables (body : ostream → ref → X ostream) (s_body : dev → Spec unit).
Hypothesis body_spec : ∀ R this p d x,
  reads_pointer R this p →
  {{ R ∗ device_own p d }} body cout0 this @ x {{ r x',
    (R ∗ device_own p d) ∗ outcome_of (s_body d) x x' r (λ os _, ⟪os = cout0⟫) }}.

Lemma for_each_spec l pre ps ds x :
  {{ l ↦ OPtrs (Some <$> pre ++ ps) ∗ devices ps ds }}
    for_each body cout0 (Heap l) (Z.of_nat (List.length pre)) (List.length ps) @ x
  {{ r x', (l ↦ OPtrs (Some <$> pre ++ ps) ∗ devices ps ds) ∗
     outcome_of (s_each s_body ds) x x' r (λ _ _, emp) }}.
Proof.
  revert pre ds x. induction ps as [|p ps IH]; intros pre ds x; iIntros "[Hl Hds]";
    cbn [List.length for_each].
  { iDestruct (big_sepL2_nil_inv_l with "Hds") as %->. iApply wp_xret. iFrame.
    iApply (outcome_ok _ _ _ _ tt); [|done]. split; [done|by left]. }
  iDestruct (big_sepL2_cons_inv_l with "Hds") as (d ds' ->) "[Hd Hds]". cbn [s_each].
  iApply (wp_wand _ _ (λ r x', ((l ↦ OPtrs (Some <$> pre ++ p :: ps) ∗ device_own p d) ∗ devices ps ds') ∗
    outcome_of (s_body d;; s_each s_body ds') x x' r (λ _ _, emp))%I with "[-]");
    last first.
  { iIntros (r x') "[[[Hl Hd] Hds] H]". iFrame "Hl H". by iFrame. }
  iApply wp_outcome_bind; last first.
  { iApply (wp_wand with "[Hl Hd]").
    - iApply (body_spec (l ↦ OPtrs (Some <$> pre ++ p :: ps))%I (Ref (Heap l) (Z.of_nat (List.length pre))) p d x); [|iFrame].
      apply reads_element. by rewrite lookup_app_r // Nat.sub_diag.
    - iIntros (r x') "[H Ho]". iFrame "H Ho". iExact "Hds". }
  iIntros (os b x1 Hb) "[[[Hl Hd] Hds] ->]".
  rewrite (_ : Z.of_nat (List.length pre) + 1 = Z.of_nat (List.length (pre ++ [p])));
    [|rewrite length_app; cbn; lia].
  rewrite (_ : pre ++ p :: ps = (pre ++ [p]) ++ ps); [|by rewrite -app_assoc].
  iApply (wp_wand with "[Hl Hds]"); [iApply (IH (pre ++ [p])); iFrame|].
  iIntros (r x') "[[Hl Hds] H]". iFrame.
Qed.

(** The loop over a vector, which may have no block of elements. *)
Lemma for_vector_spec p ps ds x :
  {{ vector_data p ps ∗ devices ps ds }} for_each body cout0 p 0 (List.length ps) @ x {{ r x',
    (vector_data p ps ∗ devices ps ds) ∗ outcome_of (s_each s_body ds) x x' r (λ _ _, emp) }}.
Proof.
  iIntros "[[%H|(%l & -> & Hl)] Hds]".
  - destruct H as [-> ->]. iDestruct (big_sepL2_nil_inv_l with "Hds") as %->.
    iApply wp_xret. iSplitR.
    + iSplitL; [iLeft; by iPureIntro|]. by iApply big_sepL2_nil.
    + iApply (outcome_ok _ _ _ _ tt); [|done]. split; [done|by left].
  - iApply (wp_wand with "[Hl Hds]"); [iApply (for_each_spec l [] ps); iFrame|].
    iIntros (r x') "[[Hl Hds] H]". iFrame. iRight. iExists l. by iFrame.
Qed.

Lemma for_devices_spec x :
  {{ emp }} for_devices body @ x {{ r x',
    outcome_of (ds ← s_list; s_each s_body ds;; mret 0) x x' r same }}.
Proof.
  iIntros "_". unfold for_devices.
  iApply (wp_wand _ _ (λ r x', emp ∗ outcome_of (ds ← s_list; s_each s_body ds;; mret 0) x x' r same)%I);
    [|iIntros (r x') "[_ H]"; done].
  iApply (wp_scope _ _ _ _ _ _ emp%I device_vector); [|..|done].
  - iIntros (l) "[_ Hl]". iApply (wp_wand with "[Hl]"); [by iApply list_connected_devices_spec|].
    iIntros (r x') "H". by iFrame.
  - iIntros (this ds x1 Hs) "[_ (%ps & (%p & Hp & Hv) & Hds)]".
    iApply wp_xbind. iApply wp_noexcept. iApply (slot_get with "Hp"). iIntros "Hp".
    iApply wp_xbind. iApply wp_noexcept. wp_call (vector_elements_spec this p ps x1).
    iIntros (? ?) "(%H & Hp & Hv)". destruct H as [-> ->]. rewrite length_fmap.
    iApply (wp_wand _ _ (λ r x', (slot this p ∗ vector_data p ps ∗ devices ps ds) ∗
      outcome_of (s_each s_body ds;; mret 0) x1 x' r same)%I with "[-]"); last first.
    { iIntros (r x') "[(Hp & Hv & Hds) $]". iExists ps. iFrame. }
    iApply wp_outcome_bind; last first.
    { iApply (wp_wand with "[Hv Hds]"); [iApply for_vector_spec; iFrame|].
      iIntros (r x') "[[Hv Hds] H]". iFrame. }
    iIntros (os [] x2 Hb) "[H _]". iApply wp_xret. iFrame "H".
    iApply (outcome_ok _ _ _ _ 0); [|done]. split; [done|by left].
  - intros. apply vector_destroy_spec.
Qed.
End loop.
End specs.
