(* ===== verification/ExampleLsusb.v ===== *)
(** * ExampleLsusb: the program lsusb (src/examples/lsusb/lsusb.cpp)

    The whole program, from [main] down to the C functions of the platform: it lists the
    devices, reads the numbers and strings of each through the C++ API, and prints a
    line for each.  [std::cout] is passed in and returned. *)

From S2P Require Import Prelude Memory Logic Format Errors Results Basics Strings Api Cpp Wrapper Examples LinuxOS ApiLinux ApiMac ApiWindows.
#[local] Set Warnings "-rewrite-rw".

Section code.
Context `{A : DeviceApi}.

Definition print_device (os : ostream) (device : ref) : X ostream :=
  vendor_id ← device_get_vendor_id device;
  product_id ← device_get_product_id device;
  revision ← device_get_revision device;
  def ← std_string_copy "-";
  serial_number ← serial_number_or_default device def;
  os_id ← device_get_os_id device;
  let f := flags os in
  os ← noexcept (cout os [Hex; SetFill "0"; Right; SetW 4; OutInt vendor_id; OutStr ":";
         SetW 4; OutInt product_id; OutStr " ";
         SetFill " "; SetW 2; OutInt (Z.shiftr revision 8); OutStr ".";
         SetFill "0"; SetW 2; OutInt (Z.land revision 0xFF); OutStr " ";
         OutStr os_id; OutStr " "; SetFill " "; Left; OutStr serial_number; Endl]);
  mret (set_flags os f).

Definition main_with_exceptions : X Z := for_devices print_device.

Definition main (bad_alloc_what : string) : M Z := catch_main bad_alloc_what main_with_exceptions.
End code.

(** ** What the program prints *)

Definition lsusb_line (vendor_id product_id revision : Z) (os_id serial_number : string) : string :=
  hex_field "0" 4 vendor_id +:+ ":" +:+ hex_field "0" 4 product_id +:+ " " +:+
  hex_field " " 2 (Z.shiftr revision 8) +:+ "." +:+ hex_field "0" 2 (Z.land revision 0xFF) +:+
  " " +:+ os_id +:+ " " +:+ serial_number +:+ newline.

Section specs.
Context `{A : DeviceApi} {LAWS : DeviceLaws A}.
Implicit Types (x : ext) (d : dev).

Definition s_print_device (d : dev) : Spec unit :=
  serial ← s_serial_or_default d;
  os_id ← mret (dev_os_id d);
  slog (EvStdout (lsusb_line (dev_vendor d) (dev_product d) (dev_revision d) os_id serial)).

Definition s_main : Spec Z := ds ← s_list; s_each s_print_device ds;; mret 0.

(** The streams of text. *)
Lemma insert_all_line v p r os_id serial :
  insert_all cout0 [Hex; SetFill "0"; Right; SetW 4; OutInt v; OutStr ":";
    SetW 4; OutInt p; OutStr " "; SetFill " "; SetW 2; OutInt (Z.shiftr r 8); OutStr ".";
    SetFill "0"; SetW 2; OutInt (Z.land r 0xFF); OutStr " ";
    OutStr os_id; OutStr " "; SetFill " "; Left; OutStr serial; Endl] =
  (lsusb_line v p r os_id serial, Ostream true true " " 0).
Proof.
  cbn -[fmt_x Z.shiftr Z.land newline String.append]. unfold lsusb_line, hex_field.
  rewrite !Nat.sub_0_l. cbn [repeat_char]. by rewrite !app_empty_r.
Qed.

(** ** The functions *)

Lemma print_device_spec R this p d x :
  reads_pointer R this p →
  {{ R ∗ device_own p d }} print_device cout0 this @ x {{ r x',
    (R ∗ device_own p d) ∗ outcome_of (s_print_device d) x x' r (λ os _, ⟪os = cout0⟫) }}.
Proof.
  iIntros (Hr) "H". unfold print_device.
  iApply wp_xbind. wp_call (get_number_spec device_own _ _ R this p d x Hr (law_vendor p d x)).
  iIntros (? ?) "[%H H]". destruct H as [-> ->].
  iApply wp_xbind. wp_call (get_number_spec device_own _ _ R this p d x Hr (law_product p d x)).
  iIntros (? ?) "[%H H]". destruct H as [-> ->].
  iApply wp_xbind. wp_call (get_number_spec device_own _ _ R this p d x Hr (law_revision p d x)).
  iIntros (? ?) "[%H H]". destruct H as [-> ->].
  iApply wp_xbind. unfold std_string_copy. iApply wp_xbind. iApply wp_std_alloc. iSplit; last first.
  { iIntros (x1 [Hq Ho]). iFrame "H". iApply (outcome_bad_alloc _ x x x1 emp%I); [done|by apply quiet_calm|done|done]. }
  iApply wp_xret. iApply (wp_outcome_bind with "[H]"); [|by iApply (serial_number_or_default_spec R this p d x Hr)].
  iIntros (? serial x1 Hs) "[H ->]".
  iApply (wp_outcome_bind with "[H]");
    [|by iApply (string_getter_spec device_own _ _ R this p d x1 Hr (law_os_id p d x1))].
  iIntros (? os_id x2 Hid) "[H ->]". cbv zeta. iApply wp_xbind. iApply wp_noexcept.
  iApply wp_cout. rewrite insert_all_line. iApply wp_xret. iFrame "H".
  iApply (outcome_ok _ _ _ _ tt); [|done]. split; [by apply calm_output|by left].
Qed.

Lemma main_with_exceptions_spec x :
  {{ emp }} main_with_exceptions @ x {{ r x', outcome_of s_main x x' r same }}.
Proof. apply for_devices_spec. intros. by apply print_device_spec. Qed.

(** C13. The program lsusb, on every platform: it prints one line for each connected device,
    in the order of the list, with the vendor and product ID, the revision, the system's
    ID and the serial number ("-" when the device has none), and returns 0; when the list
    or a string cannot be got, it prints what it had, then the error message to the error
    stream, and returns 1.  The exceptions in between leave no memory behind.  Only when
    an allocation failed can the output differ, or memory be lost.  The platform enters
    with the promises [DeviceLaws] of Api.v, which are proved for Linux and macOS,
    and for Windows as long as the hardware IDs of a device do not change between the
    two times the library reads them ([PropertiesStable]). *)
Theorem lsusb_prints bad_alloc_what x :
  {{ emp }} main bad_alloc_what @ x {{ r x', ⟪prints s_main x x' r⟫ ∗ leak x x' }}.
Proof. apply catch_main_spec, main_with_exceptions_spec. Qed.
End specs.

(** ** On the example machine of LinuxOS.v *)

#[local] Existing Instance Example_machine.machine.
#[local] Existing Instance Example_machine.machine_laws.

(** Running the code itself: the output, the return value and the blocks left. *)
Example lsusb_run :
  match main "std::bad_alloc" (World ∅ [] empty_ext) with
  | Ret code w => (code, size (w_heap w), stdout (x_trace (w_ext w)))
  | Stuck _ => (-1, 0%nat, [])
  end =
  (0, 0%nat, ["1ffb:da01  1.11 /sys/usb1/1-1 00012345" +:+ newline;
              "1ffb:0101  1.00 /sys/usb1/1-2 -" +:+ newline]).
Proof. vm_compute. reflexivity. Qed.

Lemma lsusb_prints_witness :
  stdout (s_main []).2 = ["1ffb:da01  1.11 /sys/usb1/1-1 00012345" +:+ newline;
                          "1ffb:0101  1.00 /sys/usb1/1-2 -" +:+ newline] ∧
  {{ emp }} main "std::bad_alloc" @ empty_ext {{ r x',
    ⟪prints s_main empty_ext x' r⟫ ∗ leak empty_ext x' }}.
Proof. split; [vm_compute; reflexivity|]. apply lsusb_prints. Defined.

(** When an allocation of the standard library fails, the wrapper loses memory: the vector
    that [list_connected_devices] fills (the list, the second device and the device that
    was not pushed), or the string that [get_os_id] copies. *)
Definition blocks_left (allocations : list bool) : Z * nat :=
  match main "std::bad_alloc" (World ∅ allocations empty_ext) with
  | Ret code w => (code, size (w_heap w))
  | Stuck _ => (-1, 0%nat)
  end.

Example lsusb_without_memory :
  (blocks_left (replicate 8 true ++ [false]), blocks_left (replicate 9 true ++ [false]),
   blocks_left (replicate 12 true ++ [false])) = ((1, 3%nat), (1, 1%nat), (1, 1%nat)).
Proof. vm_compute. reflexivity. Qed.
