(* ===== verification/ExampleLsport.v ===== *)
(** * ExampleLsport: the program lsport (src/examples/lsport/lsport.cpp)

    For each device the program prints its IDs and serial number, and then the names of the
    serial ports of the interfaces 0 to 15, or, when there is none, the name of the port
    of the device itself.  An error means that there is no such port. *)

From S2P Require Import Prelude Memory Logic Format Errors Results Basics Strings Api Cpp Wrapper Examples LinuxOS ApiLinux ApiMac ApiWindows.
#[local] Set Warnings "-rewrite-rw".

Section code.
Context `{A : DeviceApi} `{S : SerialPortApi}.

(** The result, and the state of [std::cout]. *)
Definition try_print_port_name (os : ostream) (device : ref) (interface_number : Z)
    (composite : bool) : X (ostream * bool) :=
  port_name ← catch_error
    (s ← with_object (serial_port_construct device interface_number composite)
           (destroy libusbp_serial_port_free) serial_port_get_name;
     mret (Some s))
    (λ _, mret (Some None));
  match port_name with
  | None => mret (os, false)
  | Some s =>
      os ← noexcept (cout os [OutStr "  "; OutStr s; Endl]);
      mret (os, true)
  end.

(** [for (uint32_t i = 0; i < 16; i++)], [n] rounds left. *)
Fixpoint try_interfaces (os : ostream) (device : ref) (success : bool) (i : Z) (n : nat) :
    X (ostream * bool) :=
  match n with
  | O => mret (os, success)
  | Datatypes.S n =>
      '(os, found) ← try_print_port_name os device (to_u8 i) true;
      try_interfaces os device (found || success) (i + 1) n
  end.

Definition print_ports (os : ostream) (device : ref) : X ostream :=
  (* Print the USB device info. *)
  vendor_id ← device_get_vendor_id device;
  product_id ← device_get_product_id device;
  def ← std_string_copy "-";
  serial_number ← serial_number_or_default device def;
  let f := flags os in
  os ← noexcept (cout os [Hex; SetFill "0"; Right; SetW 4; OutInt vendor_id; OutStr ":";
         SetW 4; OutInt product_id; OutStr " ";
         SetFill " "; Left; OutStr serial_number; Endl]);
  let os := set_flags os f in
  (* First, assume the device is composite and try the first 16 interfaces. *)
  '(os, success) ← try_interfaces os device false 0 16;
  (* Try to find a port assuming the device is non-composite. *)
  if negb success then
    '(os, _) ← try_print_port_name os device 0 false;
    mret os
  else mret os.

Definition lsport_main_with_exceptions : X Z := for_devices print_ports.

Definition lsport_main (bad_alloc_what : string) : M Z :=
  catch_main bad_alloc_what lsport_main_with_exceptions.
End code.

(** ** What the program prints *)

Section specs.
Context `{A : DeviceApi} {LAWS : DeviceLaws A} `{S : SerialPortApi} {PL : SerialPortLaws A S}.
Implicit Types (x : ext) (d : dev).

Definition lsport_line (vendor_id product_id : Z) (serial_number : string) : string :=
  hex_field "0" 4 vendor_id +:+ ":" +:+ hex_field "0" 4 product_id +:+ " " +:+
  serial_number +:+ newline.

(** A port is printed, or its error dropped. *)
Definition s_try_port (d : dev) (n : Z) (composite : bool) : Spec bool := λ h,
  match s_port d n composite h with
  | (inl _, h') => (inr false, h')
  | (inr s, h') => (inr true, EvStdout ("  " +:+ port_name s +:+ newline) :: h')
  end.

Fixpoint s_try_ports (d : dev) (success : bool) (ns : list Z) : Spec bool :=
  match ns with
  | [] => mret success
  | n :: ns => found ← s_try_port d n true; s_try_ports d (found || success) ns
  end.

Definition s_print_ports (d : dev) : Spec unit :=
  serial ← s_serial_or_default d;
  slog (EvStdout (lsport_line (dev_vendor d) (dev_product d) serial));;
  success ← s_try_ports d false (seqZ 0 16);
  if success : bool then mret tt else s_try_port d 0 false;; mret tt.

Definition s_lsport : Spec Z := ds ← s_list; s_each s_print_ports ds;; mret 0.
(** ** The functions *)

Lemma try_port_printed d n c x x1 t :
  roughly (s ← s_port d n c; mret (port_name s)) x x1 (inr t) →
  roughly (s_try_port d n c) x
    (Ext (EvStdout ("  " +:+ t +:+ newline) :: x_trace x1) (x_errno x1) (x_oom x1)) (inr true).
Proof.
  intros [Hc E]. split; [etrans; [done|by apply calm_output]|]. destruct E as [E|]; [left|by right].
  apply sbind_inv in E as (s & h1 & Es & E). rewrite sret_eq in E. injection E as <- <-.
  unfold s_try_port. by rewrite Es.
Qed.

Lemma try_port_dropped d n c x x1 got :
  roughly (s ← s_port d n c; mret (port_name s)) x x1 (inl got) →
  roughly (s_try_port d n c) x x1 (inr false).
Proof.
  intros [Hc E]. split; [done|]. destruct E as [E|]; [left|by right]. unfold s_try_port.
  destruct (s_port d n c (x_trace x)) as [[e|s] h] eqn:Es.
  - by rewrite (sbind_err _ _ _ _ _ Es) in E; injection E as -> ->.
  - by rewrite (sbind_ok _ _ _ _ _ Es) sret_eq in E.
Qed.

Lemma insert_all_port t :
  insert_all cout0 [OutStr "  "; OutStr t; Endl] = ("  " +:+ t +:+ newline, cout0).
Proof. cbn -[newline String.append]. rewrite !Nat.sub_0_l. cbn [repeat_char]. by rewrite !app_empty_r. Qed.

Lemma try_print_port_name_spec R this p d n c x :
  reads_pointer R this p →
  {{ R ∗ device_own p d }} try_print_port_name cout0 this n c @ x {{ r x',
    (R ∗ device_own p d) ∗ outcome_of (s_try_port d n c) x x' r (λ r b, ⟪r = (cout0, b)⟫) }}.
Proof.
  iIntros (Hr) "H". unfold try_print_port_name. iApply wp_xbind. iApply wp_catch_error.
  iApply wp_xbind. iApply (wp_wand with "[H]").
  { iApply (wp_scope _ _ _ (s_port d n c) (λ s, mret (port_name s)) x (R ∗ device_own p d)%I
              port_object same with "H").
    - iIntros (l). by apply serial_port_construct_spec.
    - iIntros (o s x1 Hs) "[HR H]". iApply (wp_wand with "[H]"); [by iApply serial_port_get_name_spec|].
      iIntros (r x2) "[Ho H]". iFrame.
    - intros. apply serial_port_destroy_spec. }
  iIntros ([[e|]|t] x1) "[HR [Hl H]]".
  - iDestruct "H" as (got) "[%Hg He]". pose proof Hg as [Hc _]. iApply wp_xret.
    wp_call (destroy_exception_spec e got x1). iIntros ([] ?) "->". iApply wp_xret.
    iFrame. iExists false. iPureIntro. split; [|done]. by eapply try_port_dropped.
  - iFrame "HR Hl H".
  - iDestruct "H" as (b) "[%Hb ->]". pose proof Hb as [Hc _]. iApply wp_xret. iApply wp_xbind.
    iApply wp_noexcept. iApply wp_cout. rewrite insert_all_port. iApply wp_xret. iFrame "HR".
    iSplitL "Hl"; [iApply (leak_mono with "Hl"); [done|by apply calm_output]|].
    iExists true. iPureIntro. split; [|done]. by apply try_port_printed.
Qed.

Lemma try_interfaces_spec R this p d success i n x :
  reads_pointer R this p → 0 ≤ i → i + Z.of_nat n ≤ 256 →
  {{ R ∗ device_own p d }} try_interfaces cout0 this success i n @ x {{ r x',
    (R ∗ device_own p d) ∗
    outcome_of (s_try_ports d success (seqZ i (Z.of_nat n))) x x' r (λ r b, ⟪r = (cout0, b)⟫) }}.
Proof.
  intros Hr. revert success i x. induction n as [|n IH]; intros success i x Hi Hn; iIntros "H";
    cbn [try_interfaces].
  { iApply wp_xret. iFrame "H". iApply (outcome_ok _ _ _ _ success); [|done]. split; [done|by left]. }
  rewrite seqZ_cons; [|lia]. rewrite (_ : Z.pred (Z.of_nat (Datatypes.S n)) = Z.of_nat n); [|lia].
  cbn [s_try_ports]. unfold to_u8. rewrite (wrap_id 8 i); [|lia].
  iApply (wp_outcome_bind with "[H]"); [|by iApply (try_print_port_name_spec R this p d i true x Hr)].
  iIntros ([os b] found x1 Hb) "[H %Hos]". injection Hos as -> ->.
  rewrite -Z.add_1_r. iApply (IH with "H"); lia.
Qed.

Lemma insert_all_info v p serial :
  insert_all cout0 [Hex; SetFill "0"; Right; SetW 4; OutInt v; OutStr ":";
    SetW 4; OutInt p; OutStr " "; SetFill " "; Left; OutStr serial; Endl] =
  (lsport_line v p serial, Ostream true true " " 0).
Proof.
  cbn -[fmt_x newline String.append]. unfold lsport_line, hex_field.
  rewrite !Nat.sub_0_l. cbn [repeat_char]. by rewrite !app_empty_r.
Qed.

Lemma print_ports_spec R this p d x :
  reads_pointer R this p →
  {{ R ∗ device_own p d }} print_ports cout0 this @ x {{ r x',
    (R ∗ device_own p d) ∗ outcome_of (s_print_ports d) x x' r (λ os _, ⟪os = cout0⟫) }}.
Proof.
  iIntros (Hr) "H". unfold print_ports.
  iApply wp_xbind. wp_call (get_number_spec device_own _ _ R this p d x Hr (law_vendor p d x)).
  iIntros (? ?) "[%H H]". destruct H as [-> ->].
  iApply wp_xbind. wp_call (get_number_spec device_own _ _ R this p d x Hr (law_product p d x)).
  iIntros (? ?) "[%H H]". destruct H as [-> ->].
  iApply wp_xbind. unfold std_string_copy. iApply wp_xbind. iApply wp_std_alloc. iSplit; last first.
  { iIntros (x1 [Hq Ho]). iFrame "H". iApply (outcome_bad_alloc _ x x x1 emp%I); [done|by apply quiet_calm|done|done]. }
  iApply wp_xret. iApply (wp_outcome_bind with "[H]"); [|by iApply (serial_number_or_default_spec R this p d x Hr)].
  iIntros (? serial x1 Hs) "[H ->]". cbv zeta.
  iApply (wp_outcome_bind _ _ _ _ _ _ (λ os _, ⟪os = Ostream true true " " 0⟫)%I with "[H]"); last first.
  { iApply wp_noexcept. iApply wp_cout. rewrite insert_all_info. iFrame "H".
    iApply (outcome_ok _ _ _ _ tt); [|done]. split; [by apply calm_output|by left]. }
  iIntros (os [] x2 Ho) "[H ->]". change (set_flags _ _) with cout0.
  iApply (wp_outcome_bind with "[H]"); [|by iApply (try_interfaces_spec R this p d false 0 16 x2 Hr)].
  iIntros ([os b] found x3 Hb) "[H %Hos]". injection Hos as -> ->.
  destruct found; cbn [negb].
  - iApply wp_xret. iFrame "H". iApply (outcome_ok _ _ _ _ tt); [|done]. split; [done|by left].
  - iApply (wp_outcome_bind with "[H]"); [|by iApply (try_print_port_name_spec R this p d 0 false x3 Hr)].
    iIntros ([os b] found x4 Hf) "[H %Hos]". injection Hos as -> ->. iApply wp_xret. iFrame "H".
    iApply (outcome_ok _ _ _ _ tt); [|done]. split; [done|by left].
Qed.

(** C14. The program lsport, on a platform that keeps the promises of Api.v: for each
    connected device it prints the IDs and the serial number, then the name of each serial
    port of the interfaces 0 to 15, in ascending order, and if there was none, that of the
    port of the device itself; a port that cannot be opened is skipped, and its error
    freed.  Only when an allocation failed can the output differ, or memory be lost.
    Linux keeps the promises.  macOS keeps them only when every serial port in the
    registry has a call-out device ([MacPortsNamed]), which the code does not check: with
    a port that has none, [libusbp_serial_port_get_name] fails an assertion or follows a
    null pointer, and this theorem says nothing.  Windows keeps them only when
    the port names in the registry end with a zero ([PortNamesTerminated]) and the
    properties of a device do not change between two reads ([PropertiesStable]). *)
Theorem lsport_prints bad_alloc_what x :
  {{ emp }} lsport_main bad_alloc_what @ x {{ r x', ⟪prints s_lsport x x' r⟫ ∗ leak x x' }}.
Proof.
  apply catch_main_spec, for_devices_spec. intros. by apply print_ports_spec.
Qed.
End specs.

(** ** On the example machine of LinuxOS.v *)

#[local] Existing Instance Example_machine.machine.
#[local] Existing Instance Example_machine.machine_laws.

(** The device with two interfaces that have the port, and one without ports. *)
Definition example_output : list string :=
  ["1ffb:da01 00012345" +:+ newline; "  /dev/ttyACM0" +:+ newline; "  /dev/ttyACM0" +:+ newline;
   "1ffb:0101 -" +:+ newline].

Example lsport_run :
  match lsport_main "std::bad_alloc" (World ∅ [] empty_ext) with
  | Ret code w => (code, size (w_heap w), stdout (x_trace (w_ext w)))
  | Stuck _ => (-1, 0%nat, [])
  end = (0, 0%nat, example_output).
Proof. vm_compute. reflexivity. Qed.

Lemma lsport_prints_witness :
  stdout (s_lsport []).2 = example_output ∧
  {{ emp }} lsport_main "std::bad_alloc" @ empty_ext {{ r x',
    ⟪prints s_lsport empty_ext x' r⟫ ∗ leak empty_ext x' }}.
Proof. split; [vm_compute; reflexivity|]. apply lsport_prints. Defined.
