(* ===== verification/ExamplePortName.v ===== *)
(** * ExamplePortName: the program port_name (src/examples/port_name/port_name.cpp)

    The program finds a device by its IDs and prints the name of the serial port of
    one of its interfaces. *)

From S2P Require Import Prelude Memory Logic Format Errors Results Basics Strings Api FindDevice Cpp Wrapper Examples LinuxOS ApiLinux ApiMac ApiWindows.
#[local] Set Warnings "-rewrite-rw".

Definition vendor_id : Z := 0x1FFB.
Definition product_id : Z := 0xDA01.
Definition interface_number : Z := 2.
Definition composite : bool := true.

Section code.
Context `{A : DeviceApi} `{S : SerialPortApi}.

Definition port_name_main_with_exceptions : X Z :=
  with_object (find_device_with_vid_pid vendor_id product_id) (destroy libusbp_device_free)
    (λ device,
       b ← noexcept (operator_bool device);
       if negb b then
         noexcept (cerr [OutStr "Device not found."; Endl]);;
         mret 1
       else
         with_object (serial_port_construct device interface_number composite)
           (destroy libusbp_serial_port_free)
           (λ port,
              name ← serial_port_get_name port;
              noexcept (cout cout0 [OutStr name; Endl]);;
              mret 0)).

Definition port_name_main (bad_alloc_what : string) : M Z :=
  catch_main bad_alloc_what port_name_main_with_exceptions.
End code.

Section specs.
Context `{A : DeviceApi} {LAWS : DeviceLaws A} `{S : SerialPortApi} {PL : SerialPortLaws A S}.
Implicit Types (x : ext) (d : dev).

Definition s_print_name (d : dev) : Spec Z :=
  s ← s_port d interface_number composite;
  name ← mret (port_name s);
  slog (EvStdout (name +:+ newline));;
  mret 0.

Definition s_port_name : Spec Z :=
  o ← s_find_device vendor_id product_id;
  match o with
  | None => slog (EvStderr ("Device not found." +:+ newline));; mret 1
  | Some d => s_print_name d
  end.

Lemma insert_all_text t : (insert_all cout0 [OutStr t; Endl]).1 = t +:+ newline.
Proof. cbn -[newline String.append]. rewrite Nat.sub_0_l. by rewrite app_empty_r. Qed.

(** The variable holds the device that was found, or nothing. *)
Definition found_device (this : ref) (o : option dev) : hProp :=
  (∃ q, slot this q ∗ opt_device_own q o)%I.

Lemma found_device_destroy this o x :
  {{ found_device this o }} destroy libusbp_device_free this @ x {{ r x', ⟪x' = x⟫ ∗ storage this }}.
Proof.
  iIntros "(%q & Hs & Hd)". destruct o as [d|]; cbn [opt_device_own].
  - iApply (destroy_device with "Hs Hd"). iIntros "Hs". by iFrame.
  - iDestruct "Hd" as %->. iApply (destroy_moved with "Hs"). iIntros "Hs". by iFrame.
Qed.

Lemma print_name_spec this q d x :
  {{ slot this q ∗ device_own q d }}
    with_object (serial_port_construct this interface_number composite)
      (destroy libusbp_serial_port_free)
      (λ port,
         name ← serial_port_get_name port;
         noexcept (cout cout0 [OutStr name; Endl]);;
         mret 0) @ x
  {{ r x', (slot this q ∗ device_own q d) ∗ outcome_of (s_print_name d) x x' r same }}.
Proof.
  iIntros "H". iApply (wp_scope _ _ _ _ _ _ (slot this q ∗ device_own q d)%I port_object same with "H").
  - iIntros (l). apply serial_port_construct_spec. apply reads_slot.
  - iIntros (port s x1 Hs) "[HR H]".
    iApply (wp_wand _ _ (λ r x2, port_object port s ∗ outcome_of
      (name ← mret (port_name s); slog (EvStdout (name +:+ newline));; mret 0) x1 x2 r same)%I with "[H]");
      last by (iIntros (r x2) "[Ho H]"; iFrame).
    iApply (wp_outcome_bind with "[H]"); [|by iApply serial_port_get_name_spec].
    iIntros (? name x2 Hn) "[H ->]". iApply wp_xbind. iApply wp_noexcept. iApply wp_cout.
    rewrite insert_all_text. iApply wp_xret. iFrame "H". iApply (outcome_ok _ _ _ _ 0); [|done].
    split; [by apply calm_output|by left].
  - intros. apply serial_port_destroy_spec.
Qed.

(** The program port_name, on every platform, composes finding a device, opening a
    serial port and reading its name: it prints the name of the port of interface 2 of the first
    device with the IDs 1ffb:da01, or says that there is no such device, or what the error
    was; the return value is 0 in the first case only, and nothing stays allocated. *)
Theorem port_name_prints bad_alloc_what x :
  {{ emp }} port_name_main bad_alloc_what @ x {{ r x', ⟪prints s_port_name x x' r⟫ ∗ leak x x' }}.
Proof.
  apply catch_main_spec. iIntros "_". unfold port_name_main_with_exceptions, s_port_name.
  iApply (wp_wand _ _ (λ r x', emp ∗ outcome_of s_port_name x x' r same)%I);
    [|iIntros (r x') "[_ H]"; done].
  iApply (wp_scope _ _ _ _ _ _ emp%I found_device same); [|..|done].
  - iIntros (l) "[_ Hl]". iApply (wp_wand with "[Hl]"); [by iApply find_device_spec|].
    iIntros (r x') "H". by iFrame.
  - iIntros (this o x1 Ho) "[_ (%q & Hs & Hd)]".
    iDestruct (opt_device_own_null with "Hd") as "[%Hq Hd]". unfold operator_bool.
    iApply wp_xbind. iApply wp_noexcept. iApply wp_bind. iApply (slot_get with "Hs"). iIntros "Hs".
    iApply wp_ret. rewrite Hq. destruct o as [d|]; cbn [negb].
    + iApply (wp_wand with "[Hs Hd]"); [iApply (print_name_spec this q d); iFrame|].
      iIntros (r x') "[[Hs Hd] $]". iExists q. iFrame.
    + unfold cerr. iApply wp_xbind. iApply wp_noexcept. iApply wp_log_event. iApply wp_xret.
      iSplitR; [done|]. iSplitL; [iExists q; iFrame|]. iApply (outcome_ok _ _ _ _ 1); [|done].
      split; [by apply calm_output|by left].
  - intros. apply found_device_destroy.
Qed.
End specs.

(** ** On the example machine of LinuxOS.v *)

#[local] Existing Instance Example_machine.machine.
#[local] Existing Instance Example_machine.machine_laws.

Example port_name_run :
  match port_name_main "std::bad_alloc" (World ∅ [] empty_ext) with
  | Ret code w => (code, size (w_heap w), stdout (x_trace (w_ext w)))
  | Stuck _ => (-1, 0%nat, [])
  end = (0, 0%nat, ["/dev/ttyACM0" +:+ newline]).
Proof. vm_compute. reflexivity. Qed.

Lemma port_name_prints_witness :
  stdout (s_port_name []).2 = ["/dev/ttyACM0" +:+ newline] ∧
  {{ emp }} port_name_main "std::bad_alloc" @ empty_ext {{ r x',
    ⟪prints s_port_name empty_ext x' r⟫ ∗ leak empty_ext x' }}.
Proof. split; [vm_compute; reflexivity|]. apply port_name_prints. Defined.
