(* ===== verification/ExampleAsyncIn.v ===== *)
(** * ExampleAsyncIn: the program async_in (src/examples/async_in/async_in.cpp)

    The program keeps 250 transfers in flight and prints the bytes of each that finishes.
    Its main loop is left only by an exception; the model follows it for a number of steps
    and then gives up. *)

From S2P Require Import Prelude Memory Logic Format Errors Results Basics Strings AsyncTransfer AsyncPipe Api FindDevice Cpp Wrapper Examples LinuxOS.
From S2P Require InterfaceLinux HandleLinux AsyncPipeLinux ApiLinux.
#[local] Set Warnings "-rewrite-rw".

Definition vendor_id : Z := 0x1FFB.
Definition product_id : Z := 0xDA01.
Definition interface_number : Z := 0.
Definition composite : bool := true.
Definition endpoint_address : Z := 0x82.
Definition transfer_size : Z := 5.
Definition transfer_count : Z := 250.

Section code.
Context `{A : DeviceApi} `{I : GenericInterfaceApi} `{H : GenericHandleApi} `{T : AsyncTransfers}.

Definition printf (text : string) : M unit := log_event (EvStdout text).

(** [for (uint8_t i = 0; i < size; i++)]: an index has 256 values, and when it comes
    back to 0 the loop never ends. *)
Fixpoint print_data_loop (fuel : nat) (buffer : ptr) (size i : Z) : M unit :=
  match fuel with
  | O => stuck OutOfFuel
  | S fuel =>
      if i <? size then
        c ← load_elem as_chars buffer i;
        printf (fmt_x 2 (Z.of_N (Ascii.N_of_ascii c)));;
        when (i <? to_size (size - 1)) (printf " ");;
        print_data_loop fuel buffer size (to_u8 (i + 1))
      else mret tt
  end.

Definition print_data (buffer : ptr) (size : Z) : M unit :=
  print_data_loop 256 buffer size 0;;
  printf newline.

(** [uint8_t buffer[n]], during [body]. *)
Definition with_buffer {B} (n : Z) (body : ptr → X B) : X B :=
  buffer ← noexcept (new_block (OChars (replicate (Z.to_nat n) None)));
  finally (body buffer) (release is_malloced buffer).

(** [throw transfer_error;] moves the local object into the exception. *)
Definition throw_local {B} (this : ref) : X B :=
  e ← noexcept new_storage;
  noexcept (move_construct e this);;
  throw (Exn_error e).

(** The loop [while(true)], with the inner loop that takes the transfers that are
    finished.  At the end of a round its locals go, and those of the next take their place. *)
Fixpoint serve (fuel : nat) (pipe transfer_error : ref) (buffer : ptr) : X unit :=
  match fuel with
  | O => mret tt
  | S fuel =>
      '(finished, transferred) ←
        async_in_pipe_handle_finished_transfer pipe buffer true (Some transfer_error);
      if finished : bool then
        failed ← noexcept (operator_bool transfer_error);
        if failed : bool then throw_local transfer_error
        else
          transferred ← noexcept (initialised transferred);
          noexcept (print_data buffer transferred);;
          serve fuel pipe transfer_error buffer
      else
        async_in_pipe_handle_events pipe;;
        (* usleep(500) *)
        noexcept (destroy libusbp_error_free transfer_error);;
        noexcept (store buffer (OChars (replicate (Z.to_nat transfer_size) None)));;
        noexcept (construct transfer_error NULL);;
        serve fuel pipe transfer_error buffer
  end.

Definition async_in_main_with_exceptions (fuel : nat) : X Z :=
  with_object (find_device_with_vid_pid vendor_id product_id) (destroy libusbp_device_free)
    (λ device,
       found ← noexcept (operator_bool device);
       if negb found then
         noexcept (cerr [OutStr "Device not found."; Endl]);;
         mret 1
       else
         with_object (generic_interface_construct device interface_number composite)
           (destroy libusbp_generic_interface_free)
           (λ gi,
              with_object (generic_handle_construct gi) (destroy libusbp_generic_handle_close)
                (λ handle,
                   with_object (generic_handle_open_async_in_pipe handle endpoint_address)
                     (destroy libusbp_async_in_pipe_close)
                     (λ pipe,
                        async_in_pipe_allocate_transfers pipe transfer_count transfer_size;;
                        async_in_pipe_start_endless_transfers pipe;;
                        with_object (λ e, noexcept (construct e NULL)) (destroy libusbp_error_free)
                          (λ transfer_error, with_buffer transfer_size (serve fuel pipe transfer_error));;
                        noexcept (stuck OutOfFuel))))).

Definition async_in_main (fuel : nat) (bad_alloc_what : string) : M Z :=
  catch_main bad_alloc_what (async_in_main_with_exceptions fuel).
End code.

(** ** What is printed for a transfer *)

Definition hex_byte (c : ascii) : string := fmt_x 2 (Z.of_N (Ascii.N_of_ascii c)).

(** The pieces that are written: the bytes, with a space between them. *)
Fixpoint pieces (bs : list ascii) : list string :=
  match bs with
  | [] => []
  | [b] => [hex_byte b]
  | b :: bs => hex_byte b :: " " :: pieces bs
  end.

Definition printed (text : list string) (x : ext) : ext :=
  Ext (rev (EvStdout <$> text) ++ x_trace x) (x_errno x) (x_oom x).

Lemma wp_printf text x Q : Q tt (printed [text] x) ⊢ wp (printf text) x Q.
Proof. iIntros "H". unfold printf. by iApply wp_log_event. Qed.

Lemma printed_app t1 t2 x : printed t2 (printed t1 x) = printed (t1 ++ t2) x.
Proof. unfold printed. cbn. by rewrite fmap_app rev_app_distr -(assoc_L (++)). Qed.

Lemma print_data_loop_spec fuel l pre bs rest x :
  (List.length bs < fuel)%nat → Z.of_nat (List.length (pre ++ bs)) ≤ 255 →
  {{ l ↦ OChars ((Some <$> pre ++ bs) ++ rest) }}
    print_data_loop fuel (Heap l) (Z.of_nat (List.length (pre ++ bs))) (Z.of_nat (List.length pre)) @ x
  {{ r x', ⟪x' = printed (pieces bs) x⟫ ∗ l ↦ OChars ((Some <$> pre ++ bs) ++ rest) }}.
Proof.
  revert pre bs x. induction fuel as [|fuel IH]; intros pre bs x Hf Hl; [lia|]. cbn [print_data_loop].
  iIntros "Hb". destruct bs as [|b bs].
  { rewrite app_nil_r Z.ltb_irrefl. iApply wp_ret. iFrame. iPureIntro. by destruct x. }
  rewrite length_app in Hl. cbn [List.length] in *.
  rewrite (_ : (Z.of_nat (List.length pre) <? Z.of_nat (List.length (pre ++ b :: bs))) = true);
    [|apply Z.ltb_lt; rewrite length_app; cbn [List.length]; lia].
  iApply wp_bind. iApply (wp_load_elem with "Hb"); [done|lia| |].
  { rewrite Nat2Z.id fmap_app -(assoc_L (++)) lookup_app_r length_fmap // Nat.sub_diag //. }
  iIntros "Hb". iApply wp_bind. iApply wp_printf.
  assert (Hn : to_u8 (Z.of_nat (List.length pre) + 1) = Z.of_nat (List.length (pre ++ [b]))).
  { rewrite length_app. cbn [List.length]. unfold to_u8. rewrite wrap_id; lia. }
  assert (Hp : pre ++ b :: bs = (pre ++ [b]) ++ bs) by by rewrite -(assoc_L (++)).
  rewrite Hn Hp. iApply wp_bind. unfold when.
  rewrite (_ : to_size _ = Z.of_nat (List.length pre + List.length bs)); last first.
  { rewrite to_size_id; rewrite !length_app; cbn [List.length]; unfold SIZE_MAX; lia. }
  destruct bs as [|b' bs].
  - rewrite (_ : (_ <? _) = false); [|apply Z.ltb_ge; cbn; lia]. iApply wp_ret.
    iApply (wp_wand with "[Hb]"); [iApply (IH with "Hb"); [cbn in *; lia|rewrite !length_app; cbn [List.length] in *; lia]|].
    iIntros (r x') "[-> $]". iPureIntro. by rewrite printed_app.
  - rewrite (_ : (_ <? _) = true); [|apply Z.ltb_lt; cbn; lia]. iApply wp_printf.
    iApply (wp_wand with "[Hb]").
    { iApply (IH with "Hb"); [cbn in *; lia|]. rewrite !length_app. cbn [List.length] in *. lia. }
    iIntros (r x') "[-> $]". iPureIntro. by rewrite !printed_app.
Qed.

(** [print_data] prints the bytes of a transfer of at most 255 bytes in hexadecimal,
    with a space between two of them, on a line. *)
Theorem print_data_prints l bs rest x :
  Z.of_nat (List.length bs) ≤ 255 →
  {{ l ↦ OChars ((Some <$> bs) ++ rest) }} print_data (Heap l) (Z.of_nat (List.length bs)) @ x {{ r x',
    ⟪x' = printed (pieces bs ++ [newline]) x⟫ ∗ l ↦ OChars ((Some <$> bs) ++ rest) }}.
Proof.
  iIntros (Hl) "Hb". unfold print_data. iApply wp_bind.
  iApply (wp_wand with "[Hb]"); [iApply (print_data_loop_spec 256 l [] bs rest x with "Hb"); cbn; lia|].
  iIntros (r x1) "[-> Hb]". iApply wp_printf. iSplit; [|done]. iPureIntro. by rewrite printed_app.
Qed.

#[local] Transparent mret mbind.

(** With more than 255 bytes it would never end: the index is a [uint8_t]. *)
Theorem print_data_never_ends fuel l bs size i w :
  w_heap w !! l = Some (OChars (Some <$> bs)) →
  256 ≤ size → size ≤ Z.of_nat (List.length bs) → 0 ≤ i < 256 →
  print_data_loop fuel (Heap l) size i w = Stuck OutOfFuel.
Proof.
  revert i w. induction fuel as [|fuel IH]; intros i w Hw Hs Hb Hi; [done|]. cbn [print_data_loop].
  rewrite (_ : (i <? size) = true); [|apply Z.ltb_lt; lia].
  destruct (lookup_lt_is_Some_2 bs (Z.to_nat i)) as [c Hc]; [lia|].
  assert (Hle : load_elem as_chars (Heap l) i w = Ret c w).
  { unfold load_elem, load_as, load, mbind, M_bind. rewrite Hw. cbn.
    rewrite (_ : (i <? 0) = false); [|apply Z.ltb_ge; lia]. by rewrite list_lookup_fmap Hc. }
  unfold mbind at 1, M_bind at 1. rewrite Hle. unfold mbind, M_bind, printf. cbn.
  unfold when. assert (0 ≤ to_u8 (i + 1) < 256) by (unfold to_u8; by apply wrap_range).
  destruct (_ <? to_size _); cbn; by apply IH.
Qed.

(** ** A run on the example machine of LinuxOS.v

    The first look finds nothing, then two transfers finish; when they have been printed,
    the device is unplugged and the program ends with the error. *)

#[local] Existing Instance Example_machine.machine.

Definition reaps (h : list event) : nat :=
  List.length (List.filter (λ ev, match ev with EvReap _ _ => true | _ => false end) h).

(** The request that was submitted first completes first. *)
Definition complete_oldest (h : list event) (fd : Z) : completion + Z :=
  let waiting ev :=
    match ev with
    | EvSubmit _ l _ _ _ true => if decide (is_Some (outstanding h fd !! l)) then Some l else None
    | _ => None
    end in
  match omap waiting (rev h) with
  | l :: _ => inl {| c_urb := l; c_status := 0; c_actual_length := 2; c_error_count := 0;
                     c_data := ["o"%char; "k"%char] |}
  | [] => inr 11
  end.

Definition unplugging_machine : LinuxOS :=
  match Example_machine.machine with
  | Build_LinuxOS a b c d e f g h i j k l m n o p q r s t u v _ w x =>
      Build_LinuxOS a b c d e f g h i j k l m n o p q r s t u v
        (λ h fd, if bool_decide (reaps h < 2)%nat then complete_oldest h fd
                 else if bool_decide (reaps h = 2)%nat then inr 11 else inr 19) w x
  end.

#[local] Instance linux_interfaces `{OS : LinuxOS} : GenericInterfaceApi := {|
  Api.libusbp_generic_interface_create device interface_number composite :=
    InterfaceLinux.libusbp_generic_interface_create device interface_number;
  Api.libusbp_generic_interface_free := InterfaceLinux.libusbp_generic_interface_free;
  Api.libusbp_generic_interface_copy := InterfaceLinux.libusbp_generic_interface_copy;
  Api.libusbp_generic_interface_get_os_id := InterfaceLinux.libusbp_generic_interface_get_os_id;
  Api.libusbp_generic_interface_get_os_filename := InterfaceLinux.libusbp_generic_interface_get_os_filename
|}.

#[local] Instance linux_handles `{OS : LinuxOS} : GenericHandleApi := {|
  Api.libusbp_generic_handle_open := HandleLinux.libusbp_generic_handle_open;
  Api.libusbp_generic_handle_close := HandleLinux.libusbp_generic_handle_close;
  Api.libusbp_generic_handle_open_async_in_pipe := AsyncPipeLinux.libusbp_generic_handle_open_async_in_pipe;
  Api.libusbp_generic_handle_set_timeout := HandleLinux.libusbp_generic_handle_set_timeout;
  Api.libusbp_control_transfer := HandleLinux.libusbp_control_transfer;
  Api.libusbp_write_pipe := HandleLinux.libusbp_write_pipe;
  Api.libusbp_read_pipe := HandleLinux.libusbp_read_pipe
|}.

Definition stderr (h : list event) : list string :=
  rev (omap (λ ev, match ev with EvStderr t => Some t | _ => None end) h).

(** The output, what goes to the error stream, and the blocks left: 250 transfers that the
    kernel still has, each with its buffer, as the comment at the end of the program says. *)
Example async_in_run :
  match async_in_main (A := ApiLinux.linux_devices (OS := unplugging_machine))
          (I := linux_interfaces (OS := unplugging_machine)) (H := linux_handles (OS := unplugging_machine))
          (T := AsyncPipeLinux.linux_transfers (OS := unplugging_machine))
          100 "std::bad_alloc" (World ∅ [] empty_ext) with
  | Ret code w =>
      (code, size (w_heap w), String.concat "" (stdout (x_trace (w_ext w))), stderr (x_trace (w_ext w)))
  | Stuck _ => (-1, 0%nat, "", [])
  end =
  (1, 500%nat, "6f 6b" +:+ newline +:+ "6f 6b" +:+ newline,
   ["Error: Failed to reap an asynchronous transfer.  The device was removed.  Error code 19." +:+ newline]).
Proof. vm_compute. reflexivity. Qed.
