(* ===== verification/Ownership.v ===== *)
(** * Ownership: the owning classes of include/libusbp.hpp are values

    Programs that construct, copy, move, assign, reset and destroy objects of a class
    derived from [unique_pointer_wrapper_with_copy], in any order and with any
    aliasing, behave as if the variables held values: the C objects are freed exactly
    once, by the right operation, whatever throws. *)

From S2P Require Import Prelude Memory Logic Errors Results Basics Strings Api Cpp Wrapper LinuxOS ApiLinux.
#[local] Set Warnings "-rewrite-rw".

(** ** Programs over variables *)

Inductive wrapper_op :=
  | Default (v : nat)              (* T v; *)
  | MoveConstruct (v w : nat)      (* T v(std::move(w)); *)
  | CopyConstruct (v w : nat)      (* T v(w); *)
  | MoveAssign (v w : nat)         (* v = std::move(w); *)
  | CopyAssign (v w : nat)         (* v = w; *)
  | Reset (v : nat)                (* v.pointer_reset(); *)
  | EndOfLife (v : nat).           (* the end of the scope of v *)

Section code.
Variable pointer_free : ptr → M unit.
Variable pointer_copy : ptr → X ptr.

(** The storage of the variables that are alive. *)
Abbreviation variables := (gmap nat ref).

Definition variable (env : variables) (v : nat) : M ref :=
  match env !! v with Some r => mret r | None => stuck WildPointer end.

(** A variable is alive when its constructor has returned. *)
Definition declare (env : variables) (v : nat) (construct : ref → X unit) : X variables :=
  this ← noexcept new_storage;
  on_exception (construct this) (end_storage this);;
  mret (<[v := this]> env).

Definition run_op (env : variables) (op : wrapper_op) : X variables :=
  match op with
  | Default v => declare env v (λ this, noexcept (Wrapper.construct this NULL))
  | MoveConstruct v w =>
      other ← noexcept (variable env w);
      declare env v (λ this, noexcept (move_construct this other))
  | CopyConstruct v w =>
      other ← noexcept (variable env w);
      declare env v (λ this, copy_construct pointer_free pointer_copy this other)
  | MoveAssign v w =>
      this ← noexcept (variable env v);
      other ← noexcept (variable env w);
      noexcept (move_assign pointer_free this other);;
      mret env
  | CopyAssign v w =>
      this ← noexcept (variable env v);
      other ← noexcept (variable env w);
      copy_assign pointer_free pointer_copy this other;;
      mret env
  | Reset v =>
      this ← noexcept (variable env v);
      noexcept (pointer_reset pointer_free this NULL);;
      mret env
  | EndOfLife v =>
      this ← noexcept (variable env v);
      noexcept (destroy pointer_free this);;
      noexcept (end_storage this);;
      mret (delete v env)
  end.

(** Run operations until one throws. *)
Fixpoint run_ops (env : variables) (ops : list wrapper_op) : M (variables * option exn) :=
  match ops with
  | [] => mret (env, None)
  | op :: ops =>
      r ← (run_op env op : M (exn + variables));
      match r with
      | inl e => mret (env, Some e)
      | inr env => run_ops env ops
      end
  end.
End code.

(** ** Values *)

Section values.
Context {T : Type}.

(** What the variables hold: nothing, or an object. *)
Abbreviation values := (gmap nat (option T)).

(** The typing of an operation: the variables that it uses are alive, those that it
    declares are not; and what it does to the values. *)
Definition step_values (σ : values) (op : wrapper_op) : option values :=
  match op with
  | Default v => match σ !! v with None => Some (<[v := None]> σ) | _ => None end
  | MoveConstruct v w =>
      match σ !! v, σ !! w with
      | None, Some a => Some (<[v := a]> (<[w := None]> σ))
      | _, _ => None
      end
  | CopyConstruct v w =>
      match σ !! v, σ !! w with
      | None, Some a => Some (<[v := a]> σ)
      | _, _ => None
      end
  | MoveAssign v w =>
      match σ !! v, σ !! w with
      | Some _, Some a => Some (<[v := a]> (<[w := None]> σ))
      | _, _ => None
      end
  | CopyAssign v w =>
      match σ !! v, σ !! w with
      | Some _, Some a => Some (<[v := a]> σ)
      | _, _ => None
      end
  | Reset v => match σ !! v with Some _ => Some (<[v := None]> σ) | None => None end
  | EndOfLife v => match σ !! v with Some _ => Some (delete v σ) | None => None end
  end.

Fixpoint steps_values (σ : values) (ops : list wrapper_op) : option values :=
  match ops with
  | [] => Some σ
  | op :: ops => σ ← step_values σ op; steps_values σ ops
  end.
End values.

(** ** The classes that can be wrapped *)

Class Wrapped (T : Type) (own : ptr → T → hProp) (pointer_free : ptr → M unit)
    (pointer_copy : ptr → X ptr) := {
  wrapped_free p d x : {{ own p d }} pointer_free p @ x {{ r x', ⟪x' = x⟫ }};
  wrapped_free_null x Q : Q tt x ⊢ wp (pointer_free NULL) x Q;
  wrapped_copy p d x :
    {{ own p d }} pointer_copy p @ x {{ r x', own p d ∗
      match r with
      | inr q => ⟪calm x x'⟫ ∗ own q d
      | inl e => ∃ r got, ⟪e = Exn_error r ∧ calm x x' ∧ oomed x x' ∧ mem_err got⟫ ∗ error_object r got
      end }};
  wrapped_copy_null x Q : Q (inr NULL) x ⊢ wp (pointer_copy NULL) x Q
}.

Section specs.
Context {T : Type} {own : ptr → T → hProp} {pointer_free : ptr → M unit} {pointer_copy : ptr → X ptr}.
Context {W : Wrapped T own pointer_free pointer_copy}.
Implicit Types (o : option T) (x : ext).
#[local] Abbreviation values := (gmap nat (option T)).
#[local] Abbreviation variables := (gmap nat ref).

Definition opt_own (p : ptr) (o : option T) : hProp :=
  match o with Some d => own p d | None => ⟪p = NULL⟫ end%I.

(** A variable with its value. *)
Definition holds_value (r : ref) (o : option T) : hProp := (∃ p, slot r p ∗ opt_own p o)%I.

(** What a copy that throws leaves: the error of an allocation. *)
Definition copy_failed (x x' : ext) (e : exn) : hProp :=
  (∃ r got, ⟪e = Exn_error r ∧ calm x x' ∧ oomed x x' ∧ mem_err got⟫ ∗ error_object r got)%I.

Lemma copy_failed_calm x x' e : copy_failed x x' e ⊢ ⌜calm x x'⌝ ∧ copy_failed x x' e.
Proof. iIntros "H". iSplit; [|done]. by iDestruct "H" as (r got) "[(_ & % & _) _]". Qed.

Lemma free_spec_opt p o x : {{ opt_own p o }} pointer_free p @ x {{ r x', ⟪x' = x⟫ }}.
Proof.
  destruct o; cbn [opt_own]; [apply wrapped_free|]. iIntros (->). iApply wrapped_free_null.
  by iPureIntro.
Qed.

Lemma copy_spec_opt p o x :
  {{ opt_own p o }} pointer_copy p @ x {{ r x', opt_own p o ∗
    match r with inr q => ⟪calm x x'⟫ ∗ opt_own q o | inl e => copy_failed x x' e end }}.
Proof.
  destruct o; cbn [opt_own]; [apply wrapped_copy|]. iIntros (->). iApply wrapped_copy_null.
  by iPureIntro.
Qed.

Lemma reset_spec r p o q x Q :
  slot r p -∗ opt_own p o -∗ (slot r q -∗ Q tt x) -∗ wp (pointer_reset pointer_free r q) x Q.
Proof.
  iIntros "Hs Ho HQ". unfold pointer_reset. iApply wp_bind. iApply (slot_get with "Hs"). iIntros "Hs".
  iApply wp_bind. wp_call (free_spec_opt p o x). iIntros ([] ?) "->". by iApply (slot_set with "Hs").
Qed.

Lemma release_spec r p x Q :
  slot r p -∗ (slot r NULL -∗ Q p x) -∗ wp (pointer_release r) x Q.
Proof.
  iIntros "Hs HQ". unfold pointer_release. iApply wp_bind. iApply (slot_get with "Hs"). iIntros "Hs".
  iApply wp_bind. iApply (slot_set with "Hs"). iIntros "Hs". iApply wp_ret. by iApply "HQ".
Qed.

Lemma empty_value r : slot r NULL ⊢ holds_value r None.
Proof. iIntros "H". iExists NULL. by iFrame. Qed.

(** *** The operations on two variables, or on one twice *)

Lemma move_construct_spec l w o x :
  {{ l ↦ OPtrs [None] ∗ holds_value w o }} move_construct (Ref (Heap l) 0) w @ x {{ r x',
    ⟪x' = x⟫ ∗ holds_value (Ref (Heap l) 0) o ∗ holds_value w None }}.
Proof.
  iIntros "[Hl (%p & Hs & Ho)]". unfold move_construct. iApply wp_bind.
  iApply (release_spec with "Hs"). iIntros "Hs". iApply (slot_init with "Hl"). iIntros "Hl".
  iSplit; [done|]. iSplitL "Hl Ho"; [iExists p; iFrame|by iApply empty_value].
Qed.

Lemma move_assign_spec v w a b x :
  {{ holds_value v a ∗ holds_value w b }} move_assign pointer_free v w @ x {{ r x',
    ⟪x' = x⟫ ∗ holds_value v b ∗ holds_value w None }}.
Proof.
  iIntros "[(%p & Hs & Ho) (%q & Ht & Hb)]". unfold move_assign. iApply wp_bind.
  iApply (release_spec with "Ht"). iIntros "Ht". iApply (reset_spec with "Hs Ho"). iIntros "Hs".
  iSplit; [done|]. iSplitL "Hs Hb"; [iExists q; iFrame|by iApply empty_value].
Qed.

Lemma move_assign_self v a x :
  {{ holds_value v a }} move_assign pointer_free v v @ x {{ r x', ⟪x' = x⟫ ∗ holds_value v a }}.
Proof.
  iIntros "(%p & Hs & Ho)". unfold move_assign. iApply wp_bind.
  iApply (release_spec with "Hs"). iIntros "Hs". iApply (reset_spec v NULL None with "Hs"); [done|].
  iIntros "Hs". iSplit; [done|]. iExists p. iFrame.
Qed.

Lemma copy_assign_spec v w a b x :
  {{ holds_value v a ∗ holds_value w b }} copy_assign pointer_free pointer_copy v w @ x {{ r x',
    holds_value w b ∗
    match r with
    | inr _ => ⟪calm x x'⟫ ∗ holds_value v b
    | inl e => copy_failed x x' e ∗ holds_value v a
    end }}.
Proof.
  iIntros "[(%p & Hs & Ho) (%q & Ht & Hb)]". unfold copy_assign. iApply wp_xbind. iApply wp_noexcept.
  iApply (slot_get with "Ht"). iIntros "Ht". iApply wp_xbind. wp_call (copy_spec_opt q b x).
  iIntros ([e|c] x1) "[Hb H]".
  - iSplitL "Ht Hb"; [iExists q; iFrame|]. iFrame "H". iExists p. iFrame.
  - iDestruct "H" as "[%Hq Hc]". iApply wp_noexcept. iApply (reset_spec with "Hs Ho"). iIntros "Hs".
    iSplitL "Ht Hb"; [iExists q; iFrame|]. iSplit; [done|]. iExists c. iFrame.
Qed.

Lemma copy_assign_self v a x :
  {{ holds_value v a }} copy_assign pointer_free pointer_copy v v @ x {{ r x',
    holds_value v a ∗ match r with inr _ => ⟪calm x x'⟫ | inl e => copy_failed x x' e end }}.
Proof.
  iIntros "(%p & Hs & Ho)". unfold copy_assign. iApply wp_xbind. iApply wp_noexcept.
  iApply (slot_get with "Hs"). iIntros "Hs". iApply wp_xbind. wp_call (copy_spec_opt p a x).
  iIntros ([e|c] x1) "[Ho H]".
  - iSplitL "Hs Ho"; [iExists p; iFrame|]. done.
  - iDestruct "H" as "[%Hq Hc]". iApply wp_noexcept. iApply (reset_spec with "Hs Ho"). iIntros "Hs".
    iSplitL; [iExists c; iFrame|]. by iPureIntro.
Qed.

Lemma copy_construct_spec l w b x :
  {{ l ↦ OPtrs [None] ∗ holds_value w b }}
    copy_construct pointer_free pointer_copy (Ref (Heap l) 0) w @ x
  {{ r x', holds_value w b ∗
    match r with
    | inr _ => ⟪calm x x'⟫ ∗ holds_value (Ref (Heap l) 0) b
    | inl e => copy_failed x x' e ∗ storage (Ref (Heap l) 0)
    end }}.
Proof.
  iIntros "[Hl (%q & Ht & Hb)]". unfold copy_construct, Wrapper.construct. iApply wp_xbind.
  iApply wp_noexcept. iApply (slot_init with "Hl"). iIntros "Hs". iApply wp_on_exception.
  iApply wp_xbind. iApply wp_noexcept. iApply (slot_get with "Ht"). iIntros "Ht".
  iApply wp_xbind. wp_call (copy_spec_opt q b x). iIntros ([e|c] x1) "[Hb H]".
  - iApply (reset_spec _ NULL None with "Hs"); [done|]. iIntros "Hs".
    iSplitL "Ht Hb"; [iExists q; iFrame|]. iFrame "H". by iApply slot_storage.
  - iDestruct "H" as "[%Hq Hc]". iApply wp_noexcept. iApply (slot_set with "Hs"). iIntros "Hs".
    iSplitL "Ht Hb"; [iExists q; iFrame|]. iSplit; [done|]. iExists c. iFrame.
Qed.

(** *** All variables

    The variables that are alive, with their storage and their values. *)
Abbreviation store := (gmap nat (ref * option T)).
Implicit Types (m : store).

Definition env_of m : variables := fst <$> m.
Definition values_of m : values := snd <$> m.

Definition store_own m : hProp := ([∗ map] e ∈ m, holds_value e.1 e.2)%I.

Lemma values_lookup m v : values_of m !! v = snd <$> m !! v.
Proof. apply lookup_fmap. Qed.

Lemma wp_variable m v e x Q : m !! v = Some e → Q e.1 x ⊢ wp (variable (env_of m) v) x Q.
Proof.
  iIntros (Hv) "H". unfold variable, env_of. rewrite lookup_fmap Hv. by iApply wp_ret.
Qed.

Lemma store_one m v e :
  m !! v = Some e →
  store_own m ⊢ holds_value e.1 e.2 ∗ (∀ o, holds_value e.1 o -∗ store_own (<[v := (e.1, o)]> m)).
Proof.
  iIntros (Hv) "H". iDestruct (big_sepM_insert_acc with "H") as "[$ H]"; [done|].
  iIntros (o) "Ho". by iApply ("H" $! (e.1, o)).
Qed.

Lemma store_two m v w e f :
  m !! v = Some e → m !! w = Some f → v ≠ w →
  store_own m ⊢ holds_value e.1 e.2 ∗ holds_value f.1 f.2 ∗
    (∀ o o', holds_value e.1 o -∗ holds_value f.1 o' -∗
       store_own (<[v := (e.1, o)]> (<[w := (f.1, o')]> m))).
Proof.
  iIntros (Hv Hw Hne) "H". unfold store_own.
  iDestruct (big_sepM_delete with "H") as "[$ H]"; [exact Hv|].
  iDestruct (big_sepM_insert_acc _ _ w f with "H") as "[$ H]"; [by rewrite lookup_delete_ne|].
  iIntros (o o') "Ho Ho'". iApply big_sepM_insert_delete. iFrame "Ho".
  rewrite delete_insert_ne //. by iApply ("H" $! (f.1, o')).
Qed.

Lemma store_insert m v r o :
  m !! v = None → holds_value r o ∗ store_own m ⊢ store_own (<[v := (r, o)]> m).
Proof. iIntros (Hv) "[Ho H]". unfold store_own. rewrite big_sepM_insert //. iFrame. Qed.

(** What an operation makes of the store: [m'] has the values [σ]. *)
Definition stepped (σ : values) (x : ext) (env : variables) (x' : ext) : hProp :=
  (∃ m', ⟪env = env_of m' ∧ values_of m' = σ ∧ calm x x'⟫ ∗ store_own m')%I.

Lemma stepped_intro σ x x' m' env :
  env = env_of m' → values_of m' = σ → calm x x' → store_own m' ⊢ stepped σ x env x'.
Proof. iIntros (???) "H". iExists m'. by iFrame. Qed.

(** Declaring a variable; [P] is what the constructor needs of the other variables. *)
Lemma declare_spec m v construct (P : hProp) o (R : hProp) σ x :
  m !! v = None → <[v := o]> (values_of m) = σ →
  (∀ l, {{ l ↦ OPtrs [None] ∗ P }} construct (Ref (Heap l) 0) @ x {{ r x', 
     match r with
     | inr _ => ⟪calm x x'⟫ ∗ holds_value (Ref (Heap l) 0) o ∗ store_own m
     | inl e => copy_failed x x' e ∗ storage (Ref (Heap l) 0) ∗ R
     end }}) →
  {{ P }} declare (env_of m) v construct @ x {{ r x',
    match r with
    | inr env => stepped σ x env x'
    | inl e => copy_failed x x' e ∗ R
    end }}.
Proof.
  iIntros (Hv Hσ Hc) "HP". unfold declare. iApply wp_xbind. iApply wp_noexcept. iApply wp_bind.
  iApply wp_new_block. iIntros (l) "Hl". iApply wp_ret. iApply wp_xbind. iApply wp_on_exception.
  iApply (use_triple _ _ _ _ _ (Hc l) with "[$Hl $HP]"). iIntros ([e|[]] x1) "H".
  - iDestruct "H" as "(He & Hs & HR)". iApply (storage_release with "Hs"). iFrame.
  - iDestruct "H" as "(%Hq & Ho & Hm)". iApply wp_xret.
    iApply (stepped_intro _ _ _ (<[v := (Ref (Heap l) 0, o)]> m)); [|by subst σ; rewrite /values_of fmap_insert|done|].
    + by rewrite /env_of fmap_insert.
    + iApply store_insert; [done|]. iFrame.
Qed.

Lemma values_some m v o : values_of m !! v = Some o → ∃ r, m !! v = Some (r, o).
Proof.
  rewrite values_lookup. destruct (m !! v) as [[r o']|]; [|done]. intros [= <-]. by exists r.
Qed.

Lemma values_none m v : values_of m !! v = None → m !! v = None.
Proof. rewrite values_lookup. by destruct (m !! v). Qed.

(** Assigning to a variable changes its value and nothing else. *)
Lemma env_update m v r o o' : m !! v = Some (r, o) → env_of (<[v := (r, o')]> m) = env_of m.
Proof.
  intros Hv. unfold env_of. rewrite fmap_insert insert_id // lookup_fmap Hv //.
Qed.

Lemma values_update m v r o : values_of (<[v := (r, o)]> m) = <[v := o]> (values_of m).
Proof. apply fmap_insert. Qed.

Lemma run_move_assign m v w a b x :
  values_of m !! v = Some a → values_of m !! w = Some b →
  {{ store_own m }} run_op pointer_free pointer_copy (env_of m) (MoveAssign v w) @ x {{ r x',
    match r with
    | inr env => stepped (<[v := b]> (<[w := None]> (values_of m))) x env x'
    | inl e => copy_failed x x' e ∗ store_own m
    end }}.
Proof.
  intros [r Hv]%values_some [t Hw]%values_some. iIntros "H". cbn [run_op].
  iApply wp_xbind. iApply wp_noexcept. iApply wp_variable; [done|].
  iApply wp_xbind. iApply wp_noexcept. iApply wp_variable; [done|]. cbn [fst].
  iApply wp_xbind. iApply wp_noexcept. destruct (decide (v = w)) as [<-|Hne].
  - rewrite Hv in Hw. injection Hw as <- <-. iDestruct (store_one with "H") as "[Ho H]"; [done|].
    wp_call (move_assign_self r a x). iIntros ([] ?) "[-> Ho]". iSpecialize ("H" with "Ho").
    iApply wp_xret. iApply (stepped_intro with "H"); [|by rewrite values_update insert_insert_eq|done].
    by rewrite (env_update _ _ _ a).
  - iDestruct (store_two with "H") as "(Ho & Ho' & H)"; [exact Hv|exact Hw|done|].
    wp_call (move_assign_spec r t a b x). iIntros ([] ?) "(-> & Ho & Ho')".
    iSpecialize ("H" with "Ho Ho'"). iApply wp_xret. iApply (stepped_intro with "H"); [|by rewrite !values_update|done].
    by rewrite (env_update _ _ _ a) ?lookup_insert_ne // (env_update _ _ _ b).
Qed.

Lemma run_copy_assign m v w a b x :
  values_of m !! v = Some a → values_of m !! w = Some b →
  {{ store_own m }} run_op pointer_free pointer_copy (env_of m) (CopyAssign v w) @ x {{ r x',
    match r with
    | inr env => stepped (<[v := b]> (values_of m)) x env x'
    | inl e => copy_failed x x' e ∗ store_own m
    end }}.
Proof.
  intros [r Hv]%values_some [t Hw]%values_some. iIntros "H". cbn [run_op].
  iApply wp_xbind. iApply wp_noexcept. iApply wp_variable; [done|].
  iApply wp_xbind. iApply wp_noexcept. iApply wp_variable; [done|]. cbn [fst]. iApply wp_xbind.
  destruct (decide (v = w)) as [<-|Hne].
  - rewrite Hv in Hw. injection Hw as <- <-. iDestruct (store_one with "H") as "[Ho H]"; [done|].
    wp_call (copy_assign_self r a x). iIntros ([e|[]] x1) "[Ho He]"; iSpecialize ("H" with "Ho");
      rewrite (insert_id _ _ _ Hv); [by iFrame|]. iDestruct "He" as %Hq.
    iApply wp_xret. iApply (stepped_intro with "H"); [done| |done].
    by rewrite insert_id // values_lookup Hv.
  - iDestruct (store_two with "H") as "(Ho & Ho' & H)"; [exact Hv|exact Hw|done|].
    wp_call (copy_assign_spec r t a b x). iIntros ([e|[]] x1) "[Ho' H']".
    + iDestruct "H'" as "[$ Ho]". iSpecialize ("H" with "Ho Ho'").
      by rewrite insert_id ?lookup_insert_ne // insert_id.
    + iDestruct "H'" as "[%Hq Ho]". iSpecialize ("H" with "Ho Ho'"). rewrite (insert_id _ w _ Hw).
      iApply wp_xret. iApply (stepped_intro with "H"); [|by rewrite values_update|done].
      by rewrite (env_update _ _ _ a).
Qed.

Lemma run_construct m v w b x (copy : bool) :
  values_of m !! v = None → values_of m !! w = Some b →
  {{ store_own m }}
    run_op pointer_free pointer_copy (env_of m) (if copy then CopyConstruct v w else MoveConstruct v w) @ x
  {{ r x', match r with
    | inr env => stepped (<[v := b]> (if copy then values_of m else <[w := None]> (values_of m))) x env x'
    | inl e => copy_failed x x' e ∗ store_own m
    end }}.
Proof.
  intros Hv%values_none [t Hw]%values_some. iIntros "H". iDestruct (store_one with "H") as "[Ho H]"; [done|].
  destruct copy; cbn [run_op]; iApply wp_xbind; iApply wp_noexcept; (iApply wp_variable; [done|]); cbn [fst].
  - iApply (declare_spec m v _ _ b (store_own m) with "[Ho H]"); [done|done|..]; last first.
    { iCombine "Ho H" as "H". iExact "H". }
    iIntros (l) "(Hl & Ho & H)". wp_call (copy_construct_spec l t b x). iIntros ([e|[]] x1) "[Ho H']".
    + iDestruct "H'" as "[$ $]". iSpecialize ("H" with "Ho"). by rewrite insert_id.
    + iDestruct "H'" as "[$ $]". iSpecialize ("H" with "Ho"). by rewrite insert_id.
  - assert (Hne : v ≠ w) by congruence.
    rewrite -(env_update m w t b None) //.
    iApply (declare_spec (<[w := (t, None)]> m) v _ _ b (store_own m) with "[Ho H]");
      [by rewrite lookup_insert_ne|by rewrite values_update|..]; last first.
    { iCombine "Ho H" as "H". iExact "H". }
    iIntros (l) "(Hl & Ho & H)". iApply wp_noexcept. wp_call (move_construct_spec l t b x).
    iIntros ([] ?) "(-> & $ & Ho)". iSplit; [done|]. by iApply "H".
Qed.

(** One operation: the values become those of [step_values]; when the copy of an object
    throws, nothing has changed. *)
Lemma run_op_spec m op σ x :
  step_values (values_of m) op = Some σ →
  {{ store_own m }} run_op pointer_free pointer_copy (env_of m) op @ x {{ r x',
    match r with
    | inr env => stepped σ x env x'
    | inl e => copy_failed x x' e ∗ store_own m
    end }}.
Proof.
  intros Hs. destruct op as [v|v w|v w|v w|v w|v|v]; cbn [step_values] in Hs.
  - destruct (values_of m !! v) eqn:Hv; [done|]. injection Hs as <-. cbn [run_op]. iIntros "H".
    apply values_none in Hv. iApply (declare_spec m v _ (store_own m) None (store_own m) with "H"); [done..|].
    iIntros (l) "[Hl H]". unfold Wrapper.construct. iApply wp_noexcept.
    iApply (slot_init with "Hl"). iIntros "Hl". iFrame "H". iSplit; [done|]. by iApply empty_value.
  - destruct (values_of m !! v) eqn:Hv; [done|]. destruct (values_of m !! w) as [a|] eqn:Hw; [|done].
    injection Hs as <-. by apply (run_construct m v w a x false).
  - destruct (values_of m !! v) eqn:Hv; [done|]. destruct (values_of m !! w) as [a|] eqn:Hw; [|done].
    injection Hs as <-. by apply (run_construct m v w a x true).
  - destruct (values_of m !! v) eqn:Hv; [|done]. destruct (values_of m !! w) as [a|] eqn:Hw; [|done].
    injection Hs as <-. by eapply run_move_assign.
  - destruct (values_of m !! v) eqn:Hv; [|done]. destruct (values_of m !! w) as [a|] eqn:Hw; [|done].
    injection Hs as <-. by eapply run_copy_assign.
  - destruct (values_of m !! v) eqn:Hv; [|done]. injection Hs as <-. cbn [run_op].
    apply values_some in Hv as [r Hv]. iIntros "H". iDestruct (store_one with "H") as "[(%p & Hs & Ho) H]"; [done|].
    iApply wp_xbind. iApply wp_noexcept. iApply wp_variable; [done|]. cbn [fst snd].
    iApply wp_xbind. iApply wp_noexcept. iApply (reset_spec with "Hs Ho"). iIntros "Hs".
    iApply wp_xret. iDestruct (empty_value with "Hs") as "Ho". iSpecialize ("H" with "Ho").
    iApply (stepped_intro with "H"); [by rewrite (env_update _ _ _ _ _ Hv)|apply values_update|done].
  - destruct (values_of m !! v) eqn:Hv; [|done]. injection Hs as <-. cbn [run_op].
    apply values_some in Hv as [r Hv]. iIntros "H". unfold store_own.
    iDestruct (big_sepM_delete with "H") as "[(%p & Hs & Ho) H]"; [exact Hv|].
    iApply wp_xbind. iApply wp_noexcept. iApply wp_variable; [done|]. cbn [fst snd].
    iApply wp_xbind. iApply wp_noexcept. unfold destroy. iApply (reset_spec with "Hs Ho"). iIntros "Hs".
    iApply wp_xbind. iApply wp_noexcept. iApply (slot_end with "Hs"). iApply wp_xret.
    iApply (stepped_intro with "H"); [|by rewrite /values_of fmap_delete|done]. by rewrite /env_of fmap_delete.
Qed.

(** C12. The classes [device] and [serial_port] of libusbp.hpp have value semantics, and
    so would every class made with [unique_pointer_wrapper_with_copy] whose C functions
    keep the promise [Wrapped]: the free function takes an object back, and the copy
    function makes an equal one or fails.  ([error] and [generic_interface] are not
    covered: when memory runs out, the copy of an [error] is another error, and on
    Linux the copy of a [generic_interface] is a null pointer without an exception.)  Take any sequence
    of operations on variables of such a class - constructing, copying, moving,
    assigning, also from the variable itself, resetting, and ending their life - that is
    well typed (a variable is used only while it is alive): it never goes wrong, no
    object is freed twice or lost, and afterwards the variables hold exactly what
    value semantics says.  Only copying can throw, for lack of memory, and then the
    variables are as after the operations before it. *)
Theorem wrappers_are_values m ops σ x :
  steps_values (values_of m) ops = Some σ →
  {{ store_own m }} run_ops pointer_free pointer_copy (env_of m) ops @ x {{ r x',
    ∃ m', ⟪r.1 = env_of m' ∧ calm x x'⟫ ∗ store_own m' ∗
    match r.2 with
    | None => ⟪values_of m' = σ⟫
    | Some e => ∃ before op after,
        ⟪ops = before ++ op :: after ∧ steps_values (values_of m) before = Some (values_of m')⟫ ∗
        copy_failed x x' e
    end }}.
Proof.
  revert m x. induction ops as [|op ops IH]; intros m x Hs; iIntros "H"; cbn [run_ops].
  { injection Hs as <-. iApply wp_ret. iExists m. iFrame. by iPureIntro. }
  cbn [steps_values] in Hs. destruct (step_values (values_of m) op) as [σ1|] eqn:E; [|done].
  iApply wp_bind. wp_call (run_op_spec m op σ1 x E). iIntros ([e|env] x1) "H".
  - iDestruct "H" as "[He H]". iDestruct (copy_failed_calm with "He") as "[%Hc He]".
    iApply wp_ret. iExists m. iFrame "H". iSplitR; [by iPureIntro|].
    iExists [], op, ops. by iFrame.
  - iDestruct "H" as (m1) "[%H1 H]". destruct H1 as (-> & <- & Hc). 
    iApply (wp_wand with "[H]"); [iApply (IH m1 x1 Hs with "H")|].
    iIntros ([env' o] x2) "(%m2 & %H2 & H & Ho)". cbn [fst snd] in *. destruct H2 as [-> Hc2].
    iExists m2. iFrame "H". iSplitR; [iPureIntro; split; [done|by etrans]|].
    destruct o as [e|]; [|done]. iDestruct "Ho" as (before op' after) "[%Hb He]".
    destruct Hb as [-> Hb]. iExists (op :: before), op', after. iSplitR.
    { iPureIntro. split; [done|]. cbn [steps_values]. by rewrite E. }
    iDestruct "He" as (r got) "[%He He]". destruct He as (-> & _ & Ho & Hm). iExists r, got. iFrame.
    iPureIntro. split_and!; [done|by etrans|by eapply oomed_r|done].
Qed.
End specs.

(** ** The classes of the library *)

Section instances.
Context `{A : DeviceApi} {LAWS : DeviceLaws A}.

(** A C copy function that keeps its promise makes a class copyable. *)
Lemma pointer_copy_spec {T} (own : ptr → T → hProp) (m : M (ptr * option ptr)) p d x :
  ({{ own p d }} m @ x {{ r x', own p d ∗
     returns (mret d) x x' r.1 (λ d, ∃ q, ⟪r.2 = Some q⟫ ∗ own q d) ⟪r.2 = Some NULL⟫ }}) →
  {{ own p d }} call_out m @ x {{ r x', own p d ∗
    match r with
    | inr q => ⟪calm x x'⟫ ∗ own q d
    | inl e => copy_failed x x' e
    end }}.
Proof.
  iIntros (Hm) "H". unfold call_out, initialised. iApply wp_xbind. iApply wp_noexcept.
  iApply (use_triple _ _ _ _ _ Hm with "H").
  iIntros ([e o] x1) "[Hd [(%a & %H & %q & %Ho & Hq)|(%got & %Hf & He & %Ho)]]"; cbn [fst snd] in *.
  - destruct H as [-> (-> & Ht & Hc)%succeeded_ret_inv]. subst o.
    iApply wp_xbind. iApply wp_throw_if_null. iApply wp_noexcept. iApply wp_ret. iFrame. by iPureIntro.
  - iApply wp_xbind. iApply (wp_throw_if_error with "He"). iIntros (r) "He". iFrame "Hd".
    iExists r, got. iFrame. iPureIntro. destruct Hf as [Hc [Hf|[Hm' Ho']]]; [by rewrite sret_eq in Hf|].
    by split_and!.
Qed.

#[export] Instance device_wrapped :
  Wrapped dev device_own libusbp_device_free device_pointer_copy.
Proof.
  split.
  - intros. apply device_free_spec.
  - intros. apply law_device_free_null.
  - intros. apply pointer_copy_spec, law_device_copy.
  - intros. iIntros "H". unfold device_pointer_copy, call_out. iApply wp_xbind. iApply wp_noexcept.
    iApply law_device_copy_null. iApply wp_xbind. iApply wp_throw_if_null. iApply wp_noexcept.
    by iApply wp_ret.
Qed.

Context `{S : SerialPortApi} {PL : SerialPortLaws A S}.

#[export] Instance serial_port_wrapped :
  Wrapped port port_own libusbp_serial_port_free serial_port_pointer_copy.
Proof.
  split.
  - intros. apply law_port_free.
  - intros. apply law_port_free_null.
  - intros. apply pointer_copy_spec, law_port_copy.
  - intros. iIntros "H". unfold serial_port_pointer_copy, call_out. iApply wp_xbind. iApply wp_noexcept.
    iApply law_port_copy_null. iApply wp_xbind. iApply wp_throw_if_null. iApply wp_noexcept.
    by iApply wp_ret.
Qed.
End instances.

(** Two variables, one with a device of the example machine: the copy survives the end of the
    original, and assigning a variable to itself changes nothing. *)
#[local] Existing Instance Example_machine.machine.
#[local] Existing Instance Example_machine.machine_laws.

Definition example_device : dev :=
  DeviceLinux.Device "/sys/usb1/1-1" (Some "00012345") 0xda01 0x1ffb 0x111.
Definition example_store : gmap nat (ref * option dev) :=
  {[ 0%nat := (Ref (Heap 1%positive) 0, Some example_device) ]}.
Definition example_ops : list wrapper_op :=
  [Default 1; MoveAssign 1 0; CopyConstruct 2 1; CopyAssign 2 2; MoveAssign 1 1; Reset 1;
   MoveConstruct 3 2; EndOfLife 0; CopyAssign 1 3].

Lemma wrappers_are_values_witness :
  let σ : gmap nat (option dev) := {[ 1%nat := Some example_device; 2%nat := None; 3%nat := Some example_device ]} in
  steps_values (values_of example_store) example_ops = Some σ ∧
  {{ store_own (own := device_own) example_store }}
    run_ops libusbp_device_free device_pointer_copy (env_of example_store) example_ops @ empty_ext
  {{ r x', ∃ m', ⟪r.1 = env_of m' ∧ calm empty_ext x'⟫ ∗ store_own (own := device_own) m' ∗
    match r.2 with
    | None => ⟪values_of m' = σ⟫
    | Some e => ∃ before op after,
        ⟪example_ops = before ++ op :: after ∧
         steps_values (values_of example_store) before = Some (values_of m')⟫ ∗
        copy_failed empty_ext x' e
    end }}.
Proof.
  intros σ. assert (H : steps_values (values_of example_store) example_ops = Some σ)
    by (vm_compute; reflexivity).
  split; [exact H|]. exact (wrappers_are_values example_store example_ops σ empty_ext H).
Defined.

(** The same operations, run: a variable each for 1, 2 and 3, and the blocks of two devices. *)
Definition example_memory : gmap loc obj :=
  {[ 1%positive := OPtrs [Some (Heap 2%positive)];
     2%positive := ODevice {| Memory.dev_syspath := Heap 3%positive;
                              Memory.dev_serial_number := Heap 4%positive;
                              Memory.dev_product_id := 0xda01; Memory.dev_vendor_id := 0x1ffb;
                              Memory.dev_revision := 0x111 |};
     3%positive := OChars (cstr "/sys/usb1/1-1"); 4%positive := OChars (cstr "00012345") ]}.

Example wrappers_run :
  match run_ops libusbp_device_free device_pointer_copy (env_of example_store) example_ops
          (World example_memory [] empty_ext) with
  | Ret (env, thrown) w => (size env, thrown, size (w_heap w))
  | Stuck _ => (0%nat, None, 0%nat)
  end = (3%nat, None, 9%nat).
Proof. vm_compute. reflexivity. Qed.
