(* ===== verification/InstallHelper.v ===== *)
(** * InstallHelper: the helper DLL for installers (src/install_helper/install_helper_windows.c)

    Four functions that an installer calls, as custom actions of the Windows Installer
    (with the handle of the installation) or through rundll32 (with a window).  The state
    is what they share with the Windows Installer: the records that are open, what
    happened so far, and [GetLastError()].  [InstallerOS] collects the answers of the
    system; an answer can depend on everything that happened before. *)

From Stdlib Require Import ssreflect.
From stdpp Require Import base gmap list strings.
From S2P Require Import Prelude Format.

(** ** The Windows Installer and the shell *)

(** Wide strings: the 16-bit units before the terminating zero. *)
Definition wstring : Type := list Z.
Definition L (s : string) : wstring := (λ c, Z.of_N (Ascii.N_of_ascii c)) <$> String.list_ascii_of_string s.

Inductive message_kind := INSTALLMESSAGE_INFO | INSTALLMESSAGE_ERROR.
#[export] Instance message_kind_eq : EqDecision message_kind.
Proof. solve_decision. Defined.

Inductive install_event :=
  (* the calls that can fail, with their failure *)
  | SendSettingChange (failure : option (Z * Z))
  | GetProperty (install : Z) (name : wstring) (failure : option Z)
  | CopyOEMInf (filename : wstring) (failure : option Z)
  | CreateRecord (ok : bool)
  | SetField (ok : bool)
  | Message (install : Z) (kind : message_kind) (text : option wstring)
  | Box (owner : Z) (text : wstring).

(** [broadcast]: [None] on success, else the last error and what [result2] then holds;
    [property]: the value, or the error code; [copy_inf]: the last error on failure. *)
Class InstallerOS := {
  broadcast : list install_event → option (Z * Z);
  property : list install_event → Z → wstring → wstring + Z;
  copy_inf : list install_event → wstring → option Z;
  record_made : list install_event → bool;
  field_set : list install_event → bool
}.

Definition ERROR_SUCCESS : Z := 0.
Definition ERROR_MORE_DATA : Z := 234.

(** An error code is not the code for success. *)
Class InstallerLaws (OS : InstallerOS) : Prop := {
  property_error h install name code : property h install name = inr code → code ≠ ERROR_SUCCESS
}.

Record installer := Installer {
  records : gmap positive (option wstring);   (* the field 0 of each open record *)
  history : list install_event;               (* latest first *)
  last_error : Z
}.

(** Effects; [None] is undefined behaviour. *)
Definition I (A : Type) : Type := installer → option (A * installer).
#[export] Instance I_ret : MRet I := λ A a s, Some (a, s).
#[export] Instance I_bind : MBind I := λ A B f m s, '(a, s) ← m s; f a s.

Definition happened (ev : install_event) : I unit := λ s,
  Some (tt, Installer (records s) (ev :: history s) (last_error s)).
Definition GetLastError : I Z := λ s, Some (last_error s, s).

Section windows.
Context `{OS : InstallerOS}.

(** A handle is [None] when it is zero. *)
Definition MsiCreateRecord : I (option positive) := λ s,
  if record_made (history s) then
    let handle := fresh (dom (records s)) in
    Some (Some handle, Installer (<[handle := None]> (records s)) (CreateRecord true :: history s) (last_error s))
  else Some (None, Installer (records s) (CreateRecord false :: history s) (last_error s)).

Definition MsiRecordSetStringW (handle : option positive) (value : wstring) : I unit := λ s,
  match handle with
  | Some h =>
      if bool_decide (is_Some (records s !! h)) then
        if field_set (history s)
        then Some (tt, Installer (<[h := Some value]> (records s)) (SetField true :: history s) (last_error s))
        else Some (tt, Installer (records s) (SetField false :: history s) (last_error s))
      else Some (tt, s)
  | None => Some (tt, s)
  end.

Definition MsiProcessMessage (install : Z) (kind : message_kind) (handle : option positive) : I unit := λ s,
  match handle ≫= (records s !!.) with
  | Some text => happened (Message install kind text) s
  | None => Some (tt, s)
  end.

Definition MsiCloseHandle (handle : option positive) : I unit := λ s,
  match handle with
  | Some h => Some (tt, Installer (delete h (records s)) (history s) (last_error s))
  | None => Some (tt, s)
  end.

Definition MessageBoxW (owner : Z) (text : wstring) : I unit := happened (Box owner text).

(** The result, and what [result2] holds afterwards (it was zero before). *)
Definition SendMessageTimeoutW : I (Z * Z) := λ s,
  let failure := broadcast (history s) in
  let h := SendSettingChange failure :: history s in
  match failure with
  | None => Some ((1, 0), Installer (records s) h (last_error s))
  | Some (code, result2) => Some ((0, result2), Installer (records s) h code)
  end.

(** The value of a property, if it fits a buffer of [length] units with its zero. *)
Definition fitting (length : Z) (value : wstring + Z) : wstring + Z :=
  match value with
  | inl value => if Z.of_nat (List.length value) <? length then inl value else inr ERROR_MORE_DATA
  | inr code => inr code
  end.

(** The code, and the contents of the buffer of [length] units ([None]: not a string). *)
Definition MsiGetPropertyW (install : Z) (name : wstring) (length : Z) : I (Z * option wstring) := λ s,
  let after failure := Installer (records s) (GetProperty install name failure :: history s) (last_error s) in
  match fitting length (property (history s) install name) with
  | inl value => Some ((ERROR_SUCCESS, Some value), after None)
  | inr code => Some ((code, None), after (Some code))
  end.

Definition SetupCopyOEMInfW (filename : wstring) : I bool := λ s,
  let failure := copy_inf (history s) filename in
  let h := CopyOEMInf filename failure :: history s in
  match failure with
  | None => Some (true, Installer (records s) h (last_error s))
  | Some code => Some (false, Installer (records s) h code)
  end.

(** [StringCbPrintfW(message, sizeof(message), ...)] on a buffer of 1024 units: the text
    is cut off so that its terminating zero fits. *)
Definition StringCbPrintfW (text : wstring) : wstring := take 1023 text.

(** ** The code *)

Record install_context := { ctx_owner : Z; ctx_install : Z }.

Definition log_message (context : install_context) (message : wstring) : I unit :=
  if ctx_install context =? 0 then mret tt  (* just ignore log messages *)
  else
    record ← MsiCreateRecord;
    MsiRecordSetStringW record message;;
    MsiProcessMessage (ctx_install context) INSTALLMESSAGE_INFO record;;
    MsiCloseHandle record.

Definition error_message (context : install_context) (message : wstring) : I unit :=
  if ctx_install context =? 0 then MessageBoxW (ctx_owner context) message
  else
    record ← MsiCreateRecord;
    MsiRecordSetStringW record message;;
    MsiProcessMessage (ctx_install context) INSTALLMESSAGE_ERROR record;;
    MsiCloseHandle record.

Definition broadcast_failed (code result2 : Z) : wstring := StringCbPrintfW
  (L ("SendMessageTimeout failed: Error code 0x" +:+ fmt_x 1 (to_u32 code) +:+ ".  Result " +:+
      fmt_d (to_int result2))).

Definition broadcast_setting_change_core (context : install_context) : I unit :=
  '(result, result2) ← SendMessageTimeoutW;
  if result =? 0 then
    code ← GetLastError;
    error_message context (broadcast_failed code result2)
  else mret tt.

Definition libusbp_broadcast_setting_changeW (owner : Z) : I unit :=
  broadcast_setting_change_core {| ctx_owner := owner; ctx_install := 0 |}.

Definition libusbp_broadcast_setting_change (install : Z) : I Z :=
  let context := {| ctx_owner := 0; ctx_install := install |} in
  log_message context (L "libusbp_broadcast_setting_change: Begin.");;
  broadcast_setting_change_core context;;
  log_message context (L "libusbp_broadcast_setting_change: End.");;
  mret 0.

Definition newline : string := String "010" "".
Definition quote : string := String "034" "".

Definition install_failed (filename : wstring) (code : Z) : wstring := StringCbPrintfW
  (L "There was an error installing the driver file " ++ filename ++
   L (".  " +:+ newline +:+
      "You might have to manually install this file by right-clicking it and selecting " +:+
      quote +:+ "Install" +:+ quote +:+ ".  " +:+ newline +:+
      "Error code 0x" +:+ fmt_x 1 (to_u32 code) +:+ ".")).

Definition install_inf_core (context : install_context) (filename : wstring) : I unit :=
  success ← SetupCopyOEMInfW filename;
  if negb success then
    code ← GetLastError;
    error_message context (install_failed filename code)
  else mret tt.

Definition libusbp_install_infW (owner : Z) (args : wstring) : I unit :=
  install_inf_core {| ctx_owner := owner; ctx_install := 0 |} args.

Definition property_failed (result : Z) : wstring := StringCbPrintfW
  (L ("libusbp_install_inf: Unable to get filename parameter.  Error code " +:+ fmt_d (to_int result) +:+ ".")).

Definition libusbp_install_inf (install : Z) : I Z :=
  let context := {| ctx_owner := 0; ctx_install := install |} in
  broadcast_setting_change_core context;;
  log_message context (L "libusbp_install_inf: Begin.");;
  (* Get the name of inf file. *)
  '(result, filename) ← MsiGetPropertyW install (L "CustomActionData") 1024;
  if negb (result =? ERROR_SUCCESS) then
    error_message context (property_failed result);;
    mret 0
  else
    filename ← (λ s, filename ← filename; Some (filename, s));
    log_message context (StringCbPrintfW (L "libusbp_install_inf: filename=" ++ filename));;
    install_inf_core context filename;;
    log_message context (StringCbPrintfW (L ("libusbp_install_inf: End. result2=" +:+ fmt_d (to_int result))));;
    mret 0.

(** ** What the functions do *)

(** [install] and [owner] as in the context: what is told to the user becomes one
    message of the Windows Installer, if it can make the record for it, or a box. *)
Definition s_message (context : install_context) (kind : message_kind) (text : wstring)
    (h : list install_event) : list install_event :=
  if ctx_install context =? 0 then
    match kind with INSTALLMESSAGE_INFO => h | INSTALLMESSAGE_ERROR => Box (ctx_owner context) text :: h end
  else if record_made h then
    let ok := field_set (CreateRecord true :: h) in
    Message (ctx_install context) kind (if ok then Some text else None) :: SetField ok :: CreateRecord true :: h
  else CreateRecord false :: h.

Definition s_setting_change (context : install_context) (h : list install_event) : list install_event :=
  let failure := broadcast h in
  let h := SendSettingChange failure :: h in
  match failure with
  | None => h
  | Some (code, result2) => s_message context INSTALLMESSAGE_ERROR (broadcast_failed code result2) h
  end.

Definition s_copy_inf (context : install_context) (filename : wstring) (h : list install_event) :
    list install_event :=
  let failure := copy_inf h filename in
  let h := CopyOEMInf filename failure :: h in
  match failure with
  | None => h
  | Some code => s_message context INSTALLMESSAGE_ERROR (install_failed filename code) h
  end.

(** The file that the property names is installed between two log messages. *)
Definition s_property (install : Z) (h : list install_event) : list install_event :=
  let context := {| ctx_owner := 0; ctx_install := install |} in
  let name := L "CustomActionData" in
  match fitting 1024 (property h install name) with
  | inl filename =>
      s_message context INSTALLMESSAGE_INFO (L "libusbp_install_inf: End. result2=0")
        (s_copy_inf context filename
          (s_message context INSTALLMESSAGE_INFO
            (StringCbPrintfW (L "libusbp_install_inf: filename=" ++ filename))
            (GetProperty install name None :: h)))
  | inr code =>
      s_message context INSTALLMESSAGE_ERROR (property_failed code) (GetProperty install name (Some code) :: h)
  end.

Definition s_install_inf (install : Z) (h : list install_event) : list install_event :=
  let context := {| ctx_owner := 0; ctx_install := install |} in
  s_property install
    (s_message context INSTALLMESSAGE_INFO (L "libusbp_install_inf: Begin.") (s_setting_change context h)).

Definition s_broadcast_setting_change (install : Z) (h : list install_event) : list install_event :=
  let context := {| ctx_owner := 0; ctx_install := install |} in
  s_message context INSTALLMESSAGE_INFO (L "libusbp_broadcast_setting_change: End.")
    (s_setting_change context
      (s_message context INSTALLMESSAGE_INFO (L "libusbp_broadcast_setting_change: Begin.") h)).

(** ** Which errors have to be shown *)

(** A call that failed. *)
Definition failed_call (ev : install_event) : bool :=
  match ev with
  | SendSettingChange (Some _) | GetProperty _ _ (Some _) | CopyOEMInf _ (Some _) => true
  | _ => false
  end.

(** The error that an event shows to the user. *)
Definition error_text (ev : install_event) : option wstring :=
  match ev with
  | Message _ INSTALLMESSAGE_ERROR text => text
  | Box _ text => Some text
  | _ => None
  end.

Definition contains (text part : wstring) : Prop := ∃ before after, text = before ++ part ++ after.

(** An error code as [%lx] prints it behind "0x", and as [%d] prints it. *)
Definition hex_code (code : Z) : wstring := L (" 0x" +:+ fmt_x 1 (to_u32 code) +:+ ".").
Definition decimal_code (code : Z) : wstring := L (" " +:+ fmt_d (to_int code) +:+ ".").

(** [text] reports the failure of the call [ev]. *)
Definition reports (ev : install_event) (text : wstring) : Prop :=
  match ev with
  | SendSettingChange (Some (code, _)) => contains text (hex_code code)
  | GetProperty _ _ (Some code) => contains text (decimal_code code)
  | CopyOEMInf filename (Some code) =>
      (List.length text ≤ 1023)%nat ∧
      ((List.length filename ≤ 800)%nat → contains text filename ∧ contains text (hex_code code))
  | _ => False
  end.

(** From [h] to [h'] exactly the failures were shown to the user, in order. *)
Definition reported (h h' : list install_event) : Prop :=
  ∃ news, h' = news ++ h ∧ Forall2 reports (List.filter failed_call news) (omap error_text news).

Lemma L_app s t : L (s +:+ t) = L s ++ L t.
Proof. unfold L. by rewrite list_ascii_app fmap_app. Qed.

Lemma L_length s : Z.of_nat (List.length (L s)) = slen s.
Proof. unfold L, slen. by rewrite length_fmap length_list_ascii. Qed.

Lemma print_short text : (List.length text ≤ 1023)%nat → StringCbPrintfW text = text.
Proof. intros H. by apply take_ge. Qed.

Lemma contains_here before part after : contains (before ++ part ++ after) part.
Proof. by exists before, after. Qed.

(** The messages of the code report the failures. *)
Lemma broadcast_failed_reports code result2 :
  reports (SendSettingChange (Some (code, result2))) (broadcast_failed code result2).
Proof.
  pose proof (slen_fmt_x 1 (to_u32 code)). pose proof (slen_fmt_d (to_int result2)).
  unfold reports, broadcast_failed, hex_code. rewrite print_short; last first.
  - exists (L "SendMessageTimeout failed: Error code"), (L ("  Result " +:+ fmt_d (to_int result2))).
    by rewrite !L_app -!(assoc_L (++)).
  - apply Nat2Z.inj_le. rewrite L_length !slen_app.
    change (slen "SendMessageTimeout failed: Error code 0x") with 40. change (slen ".  Result ") with 10. lia.
Qed.

Lemma property_failed_reports install name code :
  reports (GetProperty install name (Some code)) (property_failed code).
Proof.
  pose proof (slen_fmt_d (to_int code)).
  unfold reports, property_failed, decimal_code. rewrite print_short; last first.
  - exists (L "libusbp_install_inf: Unable to get filename parameter.  Error code"), [].
    by rewrite app_nil_r !L_app.
  - apply Nat2Z.inj_le. rewrite L_length !slen_app.
    change (slen "libusbp_install_inf: Unable to get filename parameter.  Error code ") with 67.
    change (slen ".") with 1. lia.
Qed.

Lemma install_failed_reports filename code :
  reports (CopyOEMInf filename (Some code)) (install_failed filename code).
Proof.
  split; [unfold install_failed, StringCbPrintfW; rewrite length_take; lia|]. intros Hl.
  pose proof (slen_fmt_x 1 (to_u32 code)). unfold install_failed. rewrite print_short; last first.
  - split; [apply contains_here|].
    set (middle := ".  " +:+ newline +:+ "You might have to manually install this file by right-clicking it and selecting " +:+
      quote +:+ "Install" +:+ quote +:+ ".  " +:+ newline +:+ "Error code").
    exists (L "There was an error installing the driver file " ++ filename ++ L middle), [].
    rewrite app_nil_r -!(assoc_L (++)). by do 2 f_equal.
  - rewrite !length_app. apply Nat2Z.inj_le. rewrite !Nat2Z.inj_add !L_length !slen_app.
    change (slen (".  ")) with 3.
    change (slen "There was an error installing the driver file ") with 46.
    change (slen newline) with 1. change (slen quote) with 1.
    change (slen "You might have to manually install this file by right-clicking it and selecting ") with 80.
    change (slen "Install") with 7. change (slen "Error code 0x") with 13. change (slen ".") with 1. lia.
Qed.

(** [m] does to the history what [f] says, returns [a], and closes every record it opens. *)
Definition does {A} (m : I A) (a : A) (f : list install_event → list install_event) : Prop :=
  ∀ s, ∃ code, m s = Some (a, Installer (records s) (f (history s)) code).

Lemma does_bind {A B} (m : I A) (k : A → I B) a b f g :
  does m a f → does (k a) b g → does (m ≫= k) b (λ h, g (f h)).
Proof.
  intros Hm Hk s. destruct (Hm s) as [c E]. unfold mbind, I_bind. rewrite E. cbn.
  destruct (Hk (Installer (records s) (f (history s)) c)) as [c' E']. exists c'. exact E'.
Qed.

Lemma does_ret {A} (a : A) : does (mret a) a id.
Proof. intros [r h c]. by exists c. Qed.

Lemma does_ext {A} (m : I A) a f g : does m a f → (∀ h, f h = g h) → does m a g.
Proof. intros H E s. destruct (H s) as [c Hc]. exists c. by rewrite Hc E. Qed.

(** What the two message functions share: the record is closed again. *)
Lemma record_message context kind text :
  ctx_install context ≠ 0 →
  does (record ← MsiCreateRecord;
        MsiRecordSetStringW record text;;
        MsiProcessMessage (ctx_install context) kind record;;
        MsiCloseHandle record) tt (s_message context kind text).
Proof.
  intros Hi%Z.eqb_neq [rs h c]. exists c. unfold s_message. rewrite Hi.
  unfold mbind, I_bind, MsiCreateRecord. cbn. destruct (record_made h) eqn:Er; cbn; [|done].
  pose proof (is_fresh (dom rs)) as Hf%not_elem_of_dom. set (r := fresh (dom rs)) in *.
  rewrite lookup_insert_eq (bool_decide_eq_true_2 (is_Some (Some _))); [by eexists|].
  destruct (field_set (CreateRecord true :: h)); cbn; unfold MsiProcessMessage; cbn;
    rewrite lookup_insert_eq; cbn; by rewrite ?insert_insert_eq delete_insert_id.
Qed.

Lemma log_message_does context text :
  does (log_message context text) tt (s_message context INSTALLMESSAGE_INFO text).
Proof.
  unfold log_message. destruct (ctx_install context =? 0) eqn:E.
  - eapply does_ext; [apply does_ret|]. intros h. unfold s_message. by rewrite E.
  - by apply record_message, Z.eqb_neq.
Qed.

Lemma error_message_does context text :
  does (error_message context text) tt (s_message context INSTALLMESSAGE_ERROR text).
Proof.
  unfold error_message. destruct (ctx_install context =? 0) eqn:E.
  - intros [r h c]. exists c. unfold s_message. by rewrite E.
  - by apply record_message, Z.eqb_neq.
Qed.

Lemma setting_change_does context :
  does (broadcast_setting_change_core context) tt (s_setting_change context).
Proof.
  intros [rs h c]. unfold broadcast_setting_change_core, s_setting_change, SendMessageTimeoutW.
  unfold mbind, I_bind. cbn. destruct (broadcast h) as [[code result2]|]; cbn; [|by exists c].
  apply (error_message_does context (broadcast_failed code result2) (Installer rs _ code)).
Qed.

Lemma install_inf_core_does context filename :
  does (install_inf_core context filename) tt (s_copy_inf context filename).
Proof.
  intros [rs h c]. unfold install_inf_core, s_copy_inf, SetupCopyOEMInfW.
  unfold mbind, I_bind. cbn. destruct (copy_inf h filename) as [code|]; cbn; [|by exists c].
  apply (error_message_does context (install_failed filename code) (Installer rs _ code)).
Qed.

Lemma s_property_does install `{!InstallerLaws OS} :
  does ('(result, filename) ← MsiGetPropertyW install (L "CustomActionData") 1024;
        if negb (result =? ERROR_SUCCESS) then
          error_message {| ctx_owner := 0; ctx_install := install |} (property_failed result);;
          mret 0
        else
          filename ← (λ s, filename ← filename; Some (filename, s));
          log_message {| ctx_owner := 0; ctx_install := install |}
            (StringCbPrintfW (L "libusbp_install_inf: filename=" ++ filename));;
          install_inf_core {| ctx_owner := 0; ctx_install := install |} filename;;
          log_message {| ctx_owner := 0; ctx_install := install |}
            (StringCbPrintfW (L ("libusbp_install_inf: End. result2=" +:+ fmt_d (to_int result))));;
          mret 0) 0 (s_property install).
Proof.
  intros [rs h c]. unfold MsiGetPropertyW, s_property. cbn [records history last_error].
  unfold mbind at 1, I_bind at 1. cbn [records history last_error].
  pose proof (property_error h install (L "CustomActionData")) as Herr.
  destruct (fitting 1024 (property h install (L "CustomActionData"))) as [v|code] eqn:Ev; cbn [mbind option_bind].
  - cbn [negb Z.eqb ERROR_SUCCESS]. unfold mbind at 1, I_bind at 1. cbn [mbind option_bind].
    exact (does_bind _ _ _ _ _ _ (log_message_does _ _)
             (does_bind _ _ _ _ _ _ (install_inf_core_does _ _)
               (does_bind _ _ _ _ _ _ (log_message_does _ _) (does_ret 0))) (Installer rs _ c)).
  - assert (code ≠ ERROR_SUCCESS) as Hc%Z.eqb_neq.
    { unfold fitting in Ev. destruct (property h install _) as [v|code'] eqn:Ep.
      - destruct (_ <? _); [done|]. by injection Ev as <-.
      - injection Ev as <-. by apply Herr. }
    rewrite Hc. exact (does_bind _ _ _ _ _ _ (error_message_does _ _) (does_ret 0) (Installer rs _ c)).
Qed.

Lemma install_inf_does install `{!InstallerLaws OS} :
  does (libusbp_install_inf install) 0 (s_install_inf install).
Proof.
  exact (does_ext _ _ _ _
           (does_bind _ _ _ _ _ _ (setting_change_does _)
             (does_bind _ _ _ _ _ _ (log_message_does _ _) (s_property_does _))) (λ h, eq_refl)).
Qed.

Lemma broadcast_does install :
  does (libusbp_broadcast_setting_change install) 0 (s_broadcast_setting_change install).
Proof.
  exact (does_ext _ _ _ _
           (does_bind _ _ _ _ _ _ (log_message_does _ _)
             (does_bind _ _ _ _ _ _ (setting_change_does _)
               (does_bind _ _ _ _ _ _ (log_message_does _ _) (does_ret 0)))) (λ h, eq_refl)).
Qed.

(** ** Failures are reported *)

Lemma reported_refl h : reported h h.
Proof. by exists []. Qed.

Lemma reported_trans h1 h2 h3 : reported h1 h2 → reported h2 h3 → reported h1 h3.
Proof.
  intros (n1 & -> & E1) (n2 & -> & E2). exists (n2 ++ n1). split; [by rewrite (assoc_L (++))|].
  rewrite List.filter_app omap_app. by apply Forall2_app.
Qed.

Section working.
Hypothesis working : ∀ h, record_made h = true ∧ field_set h = true.

Lemma info_reported context text h : reported h (s_message context INSTALLMESSAGE_INFO text h).
Proof.
  unfold s_message. destruct (_ =? _); [apply reported_refl|].
  rewrite (proj1 (working _)) (proj2 (working _)). by eexists [_; _; _].
Qed.

Lemma error_reported context text ev h :
  failed_call ev = true → error_text ev = None → reports ev text →
  reported h (s_message context INSTALLMESSAGE_ERROR text (ev :: h)).
Proof.
  intros Hf He Hr. unfold s_message. destruct (_ =? _).
  - eexists [_; _]. split; [done|]. cbn. rewrite Hf He. by repeat constructor.
  - rewrite (proj1 (working _)) (proj2 (working _)). eexists [_; _; _; _]. split; [done|].
    cbn. rewrite Hf He. by repeat constructor.
Qed.

Lemma quiet_reported ev h : failed_call ev = false → error_text ev = None → reported h (ev :: h).
Proof. intros Hf He. exists [ev]. split; [done|]. cbn. rewrite Hf He. constructor. Qed.

Lemma setting_change_reported context h : reported h (s_setting_change context h).
Proof.
  unfold s_setting_change. destruct (broadcast h) as [[code r]|].
  - apply error_reported; [done|done|apply broadcast_failed_reports].
  - by apply quiet_reported.
Qed.

Lemma copy_inf_reported context filename h : reported h (s_copy_inf context filename h).
Proof.
  unfold s_copy_inf. destruct (copy_inf h filename) as [code|].
  - apply error_reported; [done|done|apply install_failed_reports].
  - by apply quiet_reported.
Qed.

Lemma property_reported install h : reported h (s_property install h).
Proof.
  unfold s_property. destruct (fitting _ _) as [filename|code]; [|apply error_reported; [done|done|apply property_failed_reports]].
  eapply reported_trans; [by apply (quiet_reported (GetProperty install (L "CustomActionData") None))|].
  eapply reported_trans; [apply info_reported|].
  eapply reported_trans; [apply copy_inf_reported|apply info_reported].
Qed.

Lemma install_inf_reported install h : reported h (s_install_inf install h).
Proof.
  eapply reported_trans; [apply setting_change_reported|].
  eapply reported_trans; [apply info_reported|apply property_reported].
Qed.
End working.

(** C38. The custom action [libusbp_install_inf] always returns 0, so that the
    installation goes on: whatever fails, it asks for the name of the file after the
    settings have been broadcast, installs that file if the name fits the buffer, logs
    what it does, and closes every record it opens.  As long as the Windows Installer can
    make records, the errors shown to the user are exactly the failures of the calls, in
    their order ([reported]): one message for each call that failed, with the error code
    of this call in it, and for the installation of the file also with the name of the file.
    This last message is cut off after 1023 units, so both are only promised for names of
    at most 800 units; behind a longer name the code can be lost. *)
Theorem libusbp_install_inf_reports install s (LAWS : InstallerLaws OS) :
  ∃ s', libusbp_install_inf install s = Some (0, s') ∧ records s' = records s ∧
    history s' = s_install_inf install (history s) ∧
    ((∀ h, record_made h = true ∧ field_set h = true) → reported (history s) (history s')).
Proof.
  destruct (install_inf_does install s) as [code E]. eexists. split; [exact E|].
  split_and!; [done..|]. intros W. by apply install_inf_reported.
Qed.
End windows.

(** ** An installation whose file cannot be installed *)

Definition example_installer : InstallerOS := {|
  broadcast _ := None;
  property _ _ _ := inl (L "C:\a.inf");
  copy_inf _ _ := Some 5;
  record_made _ := true;
  field_set _ := true
|}.

#[export] Instance example_installer_laws : InstallerLaws example_installer.
Proof. by split. Qed.

Lemma libusbp_install_inf_reports_witness :
  let s := Installer ∅ [] 0 in
  (∃ s', libusbp_install_inf (OS := example_installer) 7 s = Some (0, s') ∧ records s' = records s ∧
     history s' = s_install_inf (OS := example_installer) 7 (history s) ∧
     ((∀ h, record_made (InstallerOS := example_installer) h = true ∧
            field_set (InstallerOS := example_installer) h = true) → reported (history s) (history s'))) ∧
  omap error_text (s_install_inf (OS := example_installer) 7 []) = [install_failed (L "C:\a.inf") 5].
Proof.
  intros s. split; [|vm_compute; reflexivity].
  exact (libusbp_install_inf_reports (OS := example_installer) 7 s example_installer_laws).
Defined.
